(* ===== verification/_CoqProject ===== *)
-Q . S2P
Prelude.v
GoStd.v
Utf8.v
Sqlite.v
Asn.v
DocSplit.v
GoTime.v
Jobs.v
Amount.v
Slug.v
FilePath.v
Paths.v
Mime.v
CustomField.v
CustomFieldApi.v
CustomFieldFacts.v
Lang.v
Taxonomy.v
TaxonomyFacts.v
TaxonomyInvariant.v
SearchQuery.v
SearchLex.v
SearchParse.v
SearchCompile.v
SearchComplete.v
Principal.v
Systems.v
RenderTarget.v
RenderJournal.v
RenderInvariant.v
RenderSteps.v
RenderCalls.v
RenderView.v
Authz.v
AuthzFacts.v
TagTree.v
Totp.v
Factor.v
FactorFacts.v
ApprovalSpec.v
Approvals.v
ApprovalRunner.v
ApprovalFacts.v
ApprovalProps.v
Glob.v
DocumentChange.v
DocumentChangeFacts.v
DocumentChangeProps.v
Automation.v
AutomationFacts.v
AutomationReplay.v
AutomationProps.v
AutomationStore.v
AutomationRows.v
AutomationStoreProps.v
Mailbox.v
Access.v
Hex.v
ShareLinks.v
MailboxStore.v
AccessFacts.v
AccessSteps.v
AccessProps.v
ShareLinkProps.v
MailboxProps.v
Trash.v
TrashFacts.v
TrashProps.v
PresetFile.v
PresetFileProps.v
FilingSets.v
FilingSetProps.v
