(* ===== verification/Prelude.v ===== *)
(** * A verification library for suchi's decision core

    suchi is a document archive: a Go server over one SQLite database, with a durable
    job outbox, a query language, filing systems with memberships, per-object grants,
    approval flows, automation rules, and a directory of links that renders the archive
    for other programs.  The files of this library translate the parts of the server
    that decide something (what is accepted, who may do it, what is written, in which
    order) and prove what those parts promise.

    ** Parts and files

    The files are listed bottom up; a file requires the ones of the parts it calls.

    - [Prelude], [GoStd], [Utf8], [GoTime], [FilePath], [Glob], [Sqlite]: the error monad
      [result] with its early-return notations and case tactics, and what the code uses of
      Go's language and standard library (byte strings, [strconv], [strings], UTF-8 with its
      replacement rule, the layout "2006-01-02", [path/filepath] with [Match]) and of SQLite
      (row ids, text length, trimming).  Strings are lists of bytes; a rune is a [Z].
    - [Asn] models [core/asn/asn.go]: serial-number prefixes, labels and values.
    - [DocSplit] models [core/pipeline/docsplit/docsplit.go]: from the decoded symbols
      of each page to the planned segments, with the slice accesses that could panic.
    - [Jobs] models [core/jobs/jobs.go] and the dead-job actions of
      [core/api/tasks.go]: the jobs table and its state machine.  The class
      [OutboxClient] is what a subscriber promises the dispatcher.
    - [Amount], [SearchQuery], [SearchLex], [SearchParse], [SearchCompile],
      [SearchComplete] model [core/searchquery], the amount parser of
      [core/customfield/amount.go], and the date values and roles of
      [core/intelligence]: text to tokens to clauses, resolution against the archive,
      SQL predicates with their arguments, completion.
    - [Principal] models the actor ([plugin-api/principal.go]), scopes
      ([core/auth/scope.go]), the token allowlist ([core/httpx/token_scopes.go],
      [distro/app/serve_token_policy.go]) and the demo guard
      ([core/httpx/demo_readonly.go]).
    - [Systems] models [core/jd/systems]: the directory of accounts, filing systems and
      memberships, with the constraints and triggers of the schema.
    - [Authz] and [AuthzFacts] model [core/authz]: [can], the batched [canDocuments], the
      WHERE clauses of listings as a small clause language with a text ([render]) and a
      meaning ([holds]), the store of groups and grants, and capabilities.
    - [ApprovalSpec], [Approvals], [ApprovalRunner] model [core/approvals]: validation of
      a flow; the tables and the transactions on them; handlers and the advance of a
      run, split as the code splits it into a plan on a snapshot and a guarded commit.
      [ApprovalFacts] holds the tables' invariant, [ApprovalProps] what follows for one
      run.
    - [CustomField], [CustomFieldApi] and [CustomFieldFacts] model [core/customfield]
      and [core/api/custom_fields.go], [custom_field_values.go]: the typed values and
      their handlers, the requests that define fields and write values.
    - [Slug], [Lang], [Mime] model [core/slug], [core/lang] and [core/mimeutil]: slugs of
      names, language codes with their hints and detector chain, the table of formats.
    - [Taxonomy], [TaxonomyFacts], [TaxonomyInvariant] and [TagTree] model
      [core/taxonomy] with the requests of [core/api/tags.go],
      [document_correspondents.go] and [taxonomy_crud.go]: tags, correspondents, the
      relations of documents to them, merges, and the tree of tags.
    - [Paths], [RenderTarget], [RenderJournal], [RenderInvariant], [RenderSteps],
      [RenderCalls] and [RenderView] model [core/render]: templates and the paths they
      make, the journal of published links, the renderer's calls as programs of atomic
      actions on a world that others change in between, and the view as a whole.
    - [Totp], [Factor], [FactorFacts] model the second factor of [plugins/local-auth].
    - [DocumentChange], [DocumentChangeFacts], [DocumentChangeProps] model
      [core/approvals/document_change.go] and [core/documentstate]: suggestions bound to
      the state they were made from, their review, and the automatic path.
    - [Automation], [AutomationFacts], [AutomationReplay], [AutomationProps],
      [AutomationStore], [AutomationRows] and [AutomationStoreProps] model
      [core/automations]: rules and their matching, the built-in actions over the
      archive's tables, the rows of rules with signatures and the duplicate check, and
      the questions put to the classifier.
    - [Access], [AccessFacts], [AccessSteps] and [AccessProps] model the requests that
      change who may enter what: [core/api/systems.go], [authz_helpers.go], [users.go],
      [tokens.go], [mobile_pairing.go], [saved_views.go] and the tokens of
      [plugins/local-auth], with the triggers that revoke on a loss of authority.
    - [Hex], [ShareLinks] and [ShareLinkProps] model [core/api/share_links.go]: links for
      strangers, their authority, unlocking, pages and downloads.
    - [Mailbox], [MailboxStore] and [MailboxProps] model [core/emailaccounts]: validation
      and changes of mailbox settings and the cursor of a mailbox.
    - [Trash], [TrashFacts] and [TrashProps] model [core/trash], [core/api/trash.go] and
      the moves of [documents.go] and [documents_bulk.go]: recovery, arrivals that meet a
      trashed document, permanent deletion over every table that refers to one.
    - [PresetFile], [PresetFileProps], [FilingSets] and [FilingSetProps] model
      [core/jd/presetfile], [core/jd/sets.go] and the replacements of
      [core/jd/preset_change.go]: files of filing trees and trees composed of built-in sets.

    The parts meet as in the program: the query resolver uses the amount parser and the
    date checks; the split planner uses the label parser; decisions and the approval
    engine read the directory of [Systems]; [currentActor] checks the principal, its
    token scopes and its entry to the run's system before a decision; the engine queues
    its advances in the outbox, whose dispatcher delivers a row at least once.  Document
    changes are an effect of the approval engine, write through the operations of
    [Taxonomy], [CustomField] and [Lang], and ask [Authz.can]; actions of automations
    write through the same operations, and queue the moves that the renderer of
    [RenderJournal] performs.  The access requests act on the directory of [Systems] and
    the stores of [Authz]; share links, and purges from Trash, check their principals
    against the same directory; a composed filing tree passes the check of
    [PresetFile].

    ** State and operations

    A table is a finite map from row ids to records (or from composite keys); a write
    transaction is a function from the tables to new tables or an error, and an error
    leaves the caller's tables as they were.  Go's (value, error) results are [result],
    a panic is an error constructor of its own, a loop over a slice is a fold or a
    Fixpoint over the list, a closure that assigns outer variables returns them.
    Machine integers are [Z]; where the code can leave the width, the wrap-around is
    written out ([wrap_i64] in the backoff, [ParseInt] and [ParseUint] with their range
    errors).  Times are nanoseconds in [Jobs] and Unix seconds elsewhere.  The columns
    of a document are split over the parts that write them; a part that only reads some
    takes them as an argument.

    ** What is shown

    - Archive labels: acceptance is exactly the grammar and range; labels round-trip.
    - Split plans: label segments tile the document, separator segments are the maximal
      runs of ordinary pages, and no page list makes the planner index out of range.
    - Outbox: an invariant over all interleavings of enqueueing, claiming, running,
      pruning, operator actions and crashes; the row each run leaves; claiming,
      reclaiming and pruning as exact functions; finalisation ends within six writes
      and a pass settles its batch; row ids can be reused by later jobs.
    - Queries: totality and bounds of the lexer and the parser, the round trip through
      the canonical spelling, resolution implies compilation with one argument per
      placeholder, no user text in the SQL, sound completion.
    - Authority: what a token or a demo visitor can reach; the boundary of systems that
      no role or grant crosses; agreement of the batched and the listing decisions with
      the single one; the effect of grants and revocations; the store's consistency;
      permanence of system identities; the filing-address round trip.
    - Approvals: validation accepts exactly the well-formed flows; an invariant over all
      interleavings of transactions and stale plans (each log replays to the current
      state, one task per entry, one active version per slug, revisions grow);
      redelivery has no further effect; who may decide and what a decision leaves; a
      decision advances the run; a timeout without a transition parks it for good.
    - Custom fields: what validation returns has the handler's type; over all requests
      stored values keep their field's type, choices and system; values read back.
    - Taxonomy: names and slugs stay unique per system and relations inside it; a merge
      leaves no reference to its source; when the tags stay a forest, and when not.
    - Rendered view: targets stay inside the directory; an invariant over every
      interleaving of calls, crashes, edits and purges; the journal implements a map from
      documents to projections; nothing of others is touched; an uninterrupted call
      publishes exactly the current target.
    - Second factor: a code is spent once over all interleavings; failures are counted
      and cost their waiting time.
    - Document changes: a reviewed change is written only on a current authorization and
      a fresh baseline, and consumes that baseline; what the automatic path may write.
    - Automations: a run commits whole rules in order, touches its document only, keeps
      it filed in its system and respects a title that a person owns; an action replayed
      settles; after a discard nothing else acts; rules, triggers, actions and questions
      stay consistent; a saved rule reads back.
    - Access: an invariant over all requests (links and shared views belong to users who
      hold that capability still, ids and tokens are never taken twice, an administrator
      can log in); what was revoked stays so; exactly what a change of an account or of
      the members of a system writes; who may do it.
    - Share links: a link opens only documents its creator may reach, and the page lists
      what can be downloaded.
    - Mailboxes: every stored row stays valid, over creation, change and disabling.
    - Trash: references stay whole over all sequences of moves and purges; a purge has
      present authority or an expired document, and removes exactly what it selects; what
      the sweep takes is what a restoration refuses.
    - Filing trees: what is read can be written and reads back as itself; exactly the
      selections of sets of distinct decades compose, each to a tree that is accepted.

    ** Fuel

    The lexer's loops get the length of the input, since every iteration consumes at
    least one byte; the parser gets the number of tokens, since every clause consumes
    one ([Parse_total] shows that neither runs out).  [finalize] gets the attempt limit
    ([finalize_spec]); the printer of integers gets twenty digits, enough for 64 bits.
    The loops of [Glob] get the length of the pattern, each turn consuming at least one
    byte of it.  [SetTagParent]'s walk has the hop limit of the code.  Everything else is
    structural.

    ** Parameters

    Not under the repository, hence arguments of the definitions that use them: the PDF
    rasterizer, the barcode reader and the directory listing ([DocSplit]); SQLite's
    choice among rows of equal order and the outcome of each write ([Jobs]); the route
    multiplexer of [net/http] ([Principal]); floats with their parser and printer, the
    tables of package [unicode] and its case mappings ([Amount], [SearchCompile],
    [CustomField], [Slug]); [url.Parse] and the texts of JSON values ([CustomField],
    [Automation], the records [platform] and [texts]; elsewhere values are kept
    decoded); Unicode folding of file names, content sniffing and media types ([Paths],
    [RenderTarget], [Mime]); HMAC-SHA1, SHA-256, the sealing of secrets and the password
    check ([Totp], [Factor]); regular expressions and [strings.EqualFold]
    ([Automation]); language detectors ([Lang]); HMAC-SHA256, digests, random tokens and
    the password verifier ([Access], [ShareLinks]); the normal form of saved filters
    ([Access]); the loading of certificates ([Mailbox]); the embedded preset files and
    the digest of a selection ([FilingSets]); TOML and HuML ([PresetFile] starts from the
    decoded document).  Laws that a theorem needs of them are
    its named hypotheses, each shown satisfiable by the theorem's witness.
    Interfaces that the repository calls through are arguments too: the query resolver,
    handlers other than the built-in ones, the assignee resolver, and the freshness
    check of the approval engine (instantiated in [DocumentChange]).

    ** Not modelled

    Log lines, error texts (a constructor each), audit rows other than the outbox's,
    driver failures other than failed writes, goroutine scheduling and the idle nudge
    of the dispatcher.  Whole parts: the HTTP handlers beyond those named above (request
    decoding and JSON projections around the modelled stores), the rows of the category
    tree and the import of a tree into them, the pipeline, format tools and ingestion
    (external programs, file systems and mail servers do their work), blobs and backups,
    settings, passwords and external login, the language-model plugin, and the user
    interface.  Next in order: the import of filing trees ([core/jd/importer]) over
    [PresetFile] and [Taxonomy], the remaining bulk edits, and refiling. *)
From Stdlib Require Export ZArith Lia Ascii.
From Stdlib Require String.
From stdpp Require Export base tactics option list gmap strings sorting.
Export String.StringSyntax.

Open Scope Z_scope.

(** * Notations *)

Declare Scope suchi_scope.
Delimit Scope suchi_scope with suchi.
Open Scope suchi_scope.

(** The code's fallible functions return [(value, error)]; the model returns a
    [result].  Early returns are written with [require] and [fail_if]. *)
Inductive result (E A : Type) : Type :=
  | Ok (a : A)
  | Err (e : E).
Arguments Ok {E A} a.
Arguments Err {E A} e.

(** Hint databases of the library: string normalisation, and the facts about
    ranges and records that the components register. *)
Create Rewrite HintDb gostr.
Create HintDb suchi discriminated.

Notation "'require' b 'else' e 'in' k" := (if b then k else Err e)
  (at level 10, b at level 100, e at level 100, k at level 200,
   format "'[v' 'require'  b  'else'  e  'in' '/' k ']'") : suchi_scope.
Notation "'fail_if' b 'with' e 'in' k" := (if b then Err e else k)
  (at level 10, b at level 100, e at level 100, k at level 200,
   format "'[v' 'fail_if'  b  'with'  e  'in' '/' k ']'") : suchi_scope.

#[export] Instance result_ret {E} : MRet (result E) := @Ok E.
#[export] Instance result_bind {E} : MBind (result E) :=
  fun A B f r => match r with Ok a => f a | Err e => Err e end.
#[export] Instance result_fmap {E} : FMap (result E) :=
  fun A B f r => match r with Ok a => Ok (f a) | Err e => Err e end.

Definition is_ok {E A} (r : result E A) : bool :=
  match r with Ok _ => true | Err _ => false end.

#[export] Instance result_eq_dec {E A} `{EqDecision E, EqDecision A} :
  EqDecision (result E A).
Proof. solve_decision. Defined.

Lemma bind_Ok {E A B} (r : result E A) (f : A -> result E B) b :
  r ≫= f = Ok b <-> exists a, r = Ok a /\ f a = Ok b.
Proof.
  destruct r as [a|e]; cbn; split.
  - intros H; exists a; auto.
  - intros (a' & [= <-] & H); exact H.
  - discriminate.
  - intros (a' & [=] & _).
Qed.

Lemma bind_Err {E A B} (r : result E A) (f : A -> result E B) e :
  r ≫= f = Err e <-> r = Err e \/ exists a, r = Ok a /\ f a = Err e.
Proof.
  destruct r as [a|e']; cbn; split.
  - intros He. right. exists a. auto.
  - intros [[=]|(a' & [= <-] & He)]. exact He.
  - intros [= ->]. auto.
  - intros [[= ->]|(a' & [=] & _)]. reflexivity.
Qed.

Lemma fmap_Ok {E A B} (f : A -> B) (r : result E A) b : f <$> r = Ok b -> exists a, r = Ok a /\ b = f a.
Proof. destruct r; cbn; [|done]. intros [= <-]. eauto. Qed.

(** * Tactics *)

(** Boolean tests of the code turned into the propositions they decide. *)
Ltac bool_step :=
  match goal with
  | H : _ && _ = true |- _ => apply andb_true_iff in H; destruct H
  | H : _ || _ = false |- _ => apply orb_false_iff in H; destruct H
  | H : negb _ = true |- _ => apply negb_true_iff in H
  | H : negb _ = false |- _ => apply negb_false_iff in H
  | H : (_ =? _)%Z = true |- _ => apply Z.eqb_eq in H
  | H : (_ =? _)%Z = false |- _ => apply Z.eqb_neq in H
  | H : (_ <? _)%Z = true |- _ => apply Z.ltb_lt in H
  | H : (_ <? _)%Z = false |- _ => apply Z.ltb_ge in H
  | H : (_ <=? _)%Z = true |- _ => apply Z.leb_le in H
  | H : (_ <=? _)%Z = false |- _ => apply Z.leb_gt in H
  | H : (_ =? _)%nat = true |- _ => apply Nat.eqb_eq in H
  | H : (_ =? _)%nat = false |- _ => apply Nat.eqb_neq in H
  | H : (_ <? _)%nat = true |- _ => apply Nat.ltb_lt in H
  | H : (_ <? _)%nat = false |- _ => apply Nat.ltb_ge in H
  | H : (_ <=? _)%nat = true |- _ => apply Nat.leb_le in H
  | H : (_ <=? _)%nat = false |- _ => apply Nat.leb_gt in H
  | H : bool_decide _ = true |- _ => apply bool_decide_eq_true in H
  | H : bool_decide _ = false |- _ => apply bool_decide_eq_false in H
  end.
Ltac bool_simpl := repeat bool_step.

(** The same, splitting on failed conjunctions and successful disjunctions. *)
Ltac bool_cases :=
  repeat first
    [ bool_step
    | match goal with
      | H : _ && _ = false |- _ => apply andb_false_iff in H; destruct H
      | H : _ || _ = true |- _ => apply orb_true_iff in H; destruct H
      end ].

(** Case analysis of the code's control flow in a hypothesis or in the goal. *)
Ltac split_flow_in H :=
  repeat match type of H with
         | context [match ?x with _ => _ end] =>
             let E := fresh "Hc" in destruct x eqn:E; try discriminate H
         end.
Ltac split_flow :=
  repeat match goal with
         | |- context [match ?x with _ => _ end] =>
             let E := fresh "Hc" in destruct x eqn:E
         end.

(** The same for the tests at the head of the hypothesis only: the guards before
    the value that is returned. *)
Ltac guards_in H :=
  repeat match type of H with
         | (match ?x with _ => _ end) = _ =>
             let E := fresh "Hc" in destruct x eqn:E; try discriminate H
         end.

(** Peel a monadic success [H : m = Ok _]. *)
Ltac inv_ok H :=
  repeat match type of H with
         | (_ ≫= _) = Ok _ =>
             let a := fresh "a" in let Ha := fresh "Ha" in
             apply bind_Ok in H; destruct H as (a & Ha & H)
         end.
