(* ===== verification/GoStd.v ===== *)
(** The parts of Go's language and standard library that the modelled code
    uses: bytes and strings, fixed-width integers, [strconv], [strings],
    [unicode] and [unicode/utf8].  A Go string is a Rocq [string], one byte per
    [ascii]; a rune is a [Z]. *)
From S2P Require Import Prelude.

(** * Bytes *)

Definition byte_val (c : ascii) : Z := Z.of_N (N_of_ascii c).
Definition chr (z : Z) : ascii := ascii_of_N (Z.to_N z).

Lemma byte_val_range c : 0 <= byte_val c < 256.
Proof.
  unfold byte_val. pose proof (N_ascii_bounded c). lia.
Qed.

Lemma byte_val_chr z : 0 <= z < 256 -> byte_val (chr z) = z.
Proof.
  intros Hz. unfold byte_val, chr. rewrite N_ascii_embedding by lia. lia.
Qed.

Lemma chr_byte_val c : chr (byte_val c) = c.
Proof. unfold byte_val, chr. rewrite N2Z.id. apply ascii_N_embedding. Qed.

Lemma byte_val_inj c d : byte_val c = byte_val d -> c = d.
Proof. intros H. rewrite <- (chr_byte_val c), <- (chr_byte_val d). congruence. Qed.

(** * Fixed-width integers *)

Definition MaxInt64 : Z := 9223372036854775807.
Definition MinInt64 : Z := -9223372036854775808.
Definition MaxUint64 : Z := 18446744073709551615.
Definition wrap_u64 (z : Z) : Z := z mod 18446744073709551616.
Definition wrap_i64 (z : Z) : Z := (z + 9223372036854775808) mod 18446744073709551616 - 9223372036854775808.
Definition is_int64 (z : Z) : Prop := MinInt64 <= z <= MaxInt64.

Lemma wrap_i64_id z : is_int64 z -> wrap_i64 z = z.
Proof.
  unfold is_int64, wrap_i64, MinInt64, MaxInt64. intros H.
  rewrite Z.mod_small by lia. lia.
Qed.

(** * Strings *)

Fixpoint sdrop (n : nat) (s : string) : string :=
  match n, s with
  | O, _ => s
  | S n', String _ s' => sdrop n' s'
  | S _, EmptyString => EmptyString
  end.

Fixpoint stake (n : nat) (s : string) : string :=
  match n, s with
  | O, _ => EmptyString
  | S n', String c s' => String c (stake n' s')
  | S _, EmptyString => EmptyString
  end.

(** [strings.HasPrefix(s, p)]. *)
Fixpoint has_prefix (s p : string) {struct p} : bool :=
  match p, s with
  | EmptyString, _ => true
  | String c p', String d s' => bool_decide (c = d) && has_prefix s' p'
  | String _ _, EmptyString => false
  end.

(** Every byte of the string satisfies the test. *)
Fixpoint all_bytes (f : ascii -> bool) (s : string) : bool :=
  match s with
  | EmptyString => true
  | String c s' => f c && all_bytes f s'
  end.

Lemma append_nil_l (s : string) : "" +:+ s = s.
Proof. reflexivity. Qed.

Lemma append_cons c (s t : string) : String c s +:+ t = String c (s +:+ t).
Proof. reflexivity. Qed.

Lemma append_assoc (s1 s2 s3 : string) : s1 +:+ (s2 +:+ s3) = (s1 +:+ s2) +:+ s3.
Proof. induction s1 as [|c s1 IH]; [done|]. by rewrite !append_cons, IH. Qed.

Lemma append_nil_r (s : string) : s +:+ "" = s.
Proof. induction s as [|c s IH]; [done|]. by rewrite append_cons, IH. Qed.

#[export] Hint Rewrite append_nil_l append_cons append_nil_r : gostr.

Lemma append_length (s t : string) :
  String.length (s +:+ t) = (String.length s + String.length t)%nat.
Proof. induction s as [|c s IH]; [done|]. rewrite append_cons. cbn. by rewrite IH. Qed.

Lemma append_inj_l (s t1 t2 : string) : s +:+ t1 = s +:+ t2 -> t1 = t2.
Proof.
  induction s as [|c s IH]; [done|]. rewrite !append_cons. intros [= H]. auto.
Qed.

Lemma sdrop_append (s t : string) : sdrop (String.length s) (s +:+ t) = t.
Proof. induction s as [|c s IH]; [by destruct t|done]. Qed.

Lemma stake_append (s t : string) : stake (String.length s) (s +:+ t) = s.
Proof. induction s as [|c s IH]; [by destruct t|]. cbn. f_equal. exact IH. Qed.

Lemma stake_sdrop n s : stake n s +:+ sdrop n s = s.
Proof.
  revert s. induction n as [|n IH]; intros [|c s]; try done.
  cbn [stake sdrop]. rewrite append_cons. by rewrite IH.
Qed.

Lemma sdrop_0 s : sdrop 0 s = s.
Proof. by destruct s. Qed.

Lemma has_prefix_spec s p : has_prefix s p = true <-> exists t, s = p +:+ t.
Proof.
  revert s; induction p as [|c p IH]; intros s; cbn.
  - split; [intros _; by exists s | done].
  - destruct s as [|d s].
    + split; [done|]. intros (t & Ht). discriminate Ht.
    + rewrite andb_true_iff, bool_decide_eq_true, IH. split.
      * intros (-> & t & ->). by exists t.
      * intros (t & Ht). rewrite append_cons in Ht. injection Ht as -> ->. eauto.
Qed.

Lemma has_prefix_append p t : has_prefix (p +:+ t) p = true.
Proof. apply has_prefix_spec. by exists t. Qed.

Lemma all_bytes_app f s t : all_bytes f (s +:+ t) = all_bytes f s && all_bytes f t.
Proof.
  induction s as [|c s IH]; [done|]. rewrite append_cons. cbn.
  rewrite IH. by rewrite andb_assoc.
Qed.

(** * strconv *)

Definition is_digit (c : ascii) : bool := (48 <=? byte_val c) && (byte_val c <=? 57).
Definition digit_val (c : ascii) : Z := byte_val c - 48.
Definition digit_chr (d : Z) : ascii := chr (48 + d).

(** The number that a string of decimal digits denotes, unbounded. *)
Fixpoint digits_val (acc : Z) (s : string) : Z :=
  match s with
  | EmptyString => acc
  | String c s' => digits_val (acc * 10 + digit_val c) s'
  end.

Inductive num_error : Type := ErrSyntax | ErrRange.
#[export] Instance num_error_eq_dec : EqDecision num_error.
Proof. solve_decision. Defined.

(** [strconv.ParseUint(s, 10, 64)]: the loop over the digits, with the range
    checks made before the multiplication and after the addition. *)
Fixpoint parse_uint_loop (n : Z) (s : string) : result num_error Z :=
  match s with
  | EmptyString => Ok n
  | String c s' =>
      require is_digit c else ErrSyntax in
      fail_if (MaxUint64 / 10 + 1 <=? n) with ErrRange in
      let n10 := n * 10 in
      let n1 := wrap_u64 (n10 + digit_val c) in
      fail_if ((n1 <? n10) || (MaxUint64 <? n1)) with ErrRange in
      parse_uint_loop n1 s'
  end.
Definition ParseUint (s : string) : result num_error Z :=
  match s with EmptyString => Err ErrSyntax | _ => parse_uint_loop 0 s end.

(** [strconv.ParseInt(s, 10, 64)]. *)
Definition ParseInt (s : string) : result num_error Z :=
  match s with
  | EmptyString => Err ErrSyntax
  | String c s' =>
      let neg := bool_decide (c = "-"%char) in
      let body := if bool_decide (c = "+"%char) || neg then s' else s in
      match ParseUint body with
      | Err e => Err e
      | Ok un =>
          if negb neg && (9223372036854775808 <=? un) then Err ErrRange
          else if neg && (9223372036854775808 <? un) then Err ErrRange
          else Ok (if neg then - un else un)
      end
  end.

Lemma ParseInt_range s v : ParseInt s = Ok v -> is_int64 v.
Proof.
  unfold ParseInt, is_int64, MinInt64, MaxInt64. destruct s as [|c s]; [done|].
  set (body := if _ || _ then s else String c s). clearbody body.
  destruct (ParseUint body) as [un|] eqn:E; [|done].
  assert (0 <= un).
  { destruct body as [|d body]; [done|]. unfold ParseUint in E.
    assert (G : forall t n, 0 <= n -> parse_uint_loop n t = Ok un -> 0 <= un); [|by apply (G (String d body) 0)].
    induction t as [|x t IH]; intros n Hn; cbn -[wrap_u64 MaxUint64 Z.mul Z.div Z.add]; [by intros [= <-]|].
    destruct (is_digit x); [|done]. destruct (_ <=? n); [done|].
    destruct (_ || _); [done|]. apply IH. unfold wrap_u64. apply Z.mod_pos_bound. lia. }
  destruct (bool_decide (c = "-"%char)); cbn [negb andb].
  - destruct (Z.ltb_spec 9223372036854775808 un); [done|]. intros [= <-]. lia.
  - destruct (Z.leb_spec 9223372036854775808 un); [done|]. intros [= <-]. lia.
Qed.

(** [strconv.FormatInt(v, 10)]: digits are produced from the least significant
    end; twenty digits are enough for every 64-bit magnitude. *)
Fixpoint format_digits (fuel : nat) (v : Z) (acc : string) : string :=
  match fuel with
  | O => acc
  | S fuel' =>
      let acc' := String (digit_chr (v mod 10)) acc in
      if v <? 10 then acc' else format_digits fuel' (v / 10) acc'
  end.
Definition FormatInt (v : Z) : string :=
  if v <? 0 then String "-" (format_digits 20 (- v) "") else format_digits 20 v "".

Lemma digit_val_range c : is_digit c = true -> 0 <= digit_val c <= 9.
Proof. unfold is_digit, digit_val. intros H. bool_simpl. lia. Qed.

Lemma digit_chr_val d : 0 <= d <= 9 -> is_digit (digit_chr d) = true /\ digit_val (digit_chr d) = d.
Proof.
  intros Hd. unfold is_digit, digit_val, digit_chr. rewrite byte_val_chr by lia.
  split; [apply andb_true_iff; rewrite !Z.leb_le; lia | lia].
Qed.

Lemma digits_val_app acc s t : digits_val acc (s +:+ t) = digits_val (digits_val acc s) t.
Proof. revert acc; induction s as [|c s IH]; intros acc; [done|]. apply IH. Qed.

Lemma digits_val_ge n s :
  0 <= n -> all_bytes is_digit s = true -> n <= digits_val n s.
Proof.
  revert n; induction s as [|c s IH]; intros n Hn Hs; cbn in *; [lia|]. bool_simpl.
  pose proof (digit_val_range c ltac:(assumption)).
  specialize (IH (n * 10 + digit_val c) ltac:(lia) ltac:(assumption)). lia.
Qed.

(** The loop computes the unbounded value whenever that value fits, and
    reports a range error otherwise: wrap-around never goes unnoticed. *)
Lemma parse_uint_loop_spec n s :
  0 <= n <= MaxUint64 -> all_bytes is_digit s = true ->
  parse_uint_loop n s =
    if digits_val n s <=? MaxUint64 then Ok (digits_val n s) else Err ErrRange.
Proof.
  revert n; induction s as [|c s IH]; intros n Hn Hs.
  - cbn. destruct (Z.leb_spec n MaxUint64); [done|lia].
  - cbn -[MaxUint64 wrap_u64 Z.mul Z.div] in *. bool_simpl.
    pose proof (digit_val_range c ltac:(assumption)) as Hd.
    rewrite H.
    assert (Hge : n * 10 + digit_val c <= digits_val (n * 10 + digit_val c) s)
      by (apply digits_val_ge; [lia|done]).
    change (MaxUint64 / 10) with 1844674407370955161.
    unfold MaxUint64, wrap_u64 in *.
    destruct (Z.leb_spec (1844674407370955161 + 1) n).
    { destruct (Z.leb_spec (digits_val (n * 10 + digit_val c) s) 18446744073709551615); [lia|done]. }
    destruct (decide (n * 10 + digit_val c <= 18446744073709551615)).
    + rewrite Z.mod_small by lia.
      rewrite (proj2 (Z.ltb_ge _ _)) by lia. rewrite (proj2 (Z.ltb_ge _ _)) by lia.
      cbn [orb]. apply IH; [lia|done].
    + assert ((n * 10 + digit_val c) mod 18446744073709551616 < n * 10) as Hw.
      { rewrite <- (Z.mod_unique_pos _ 18446744073709551616 1
          (n * 10 + digit_val c - 18446744073709551616)) by lia. lia. }
      rewrite (proj2 (Z.ltb_lt _ _) Hw). cbn [orb].
      destruct (Z.leb_spec (digits_val (n * 10 + digit_val c) s) 18446744073709551615); [lia|done].
Qed.

Lemma parse_uint_loop_nondigit n s e :
  all_bytes is_digit s = false -> parse_uint_loop n s = Ok e -> False.
Proof.
  revert n; induction s as [|c s IH]; intros n Hs Hp; [done|].
  cbn in Hs, Hp. destruct (is_digit c); [|done]. cbn in Hs.
  split_flow_in Hp. eapply IH; eauto.
Qed.

Lemma ParseUint_spec s :
  s <> "" -> all_bytes is_digit s = true ->
  ParseUint s = if digits_val 0 s <=? MaxUint64 then Ok (digits_val 0 s) else Err ErrRange.
Proof.
  intros Hne Hs. destruct s as [|c s]; [done|].
  unfold ParseUint. apply parse_uint_loop_spec; [unfold MaxUint64; lia|done].
Qed.

Lemma format_digits_spec fuel v acc :
  (0 < fuel)%nat -> 0 <= v < 10 ^ Z.of_nat fuel ->
  exists ds, format_digits fuel v acc = ds +:+ acc /\ ds <> "" /\
             all_bytes is_digit ds = true /\ digits_val 0 ds = v.
Proof.
  revert v acc; induction fuel as [|fuel IH]; intros v acc Hf Hv; [lia|].
  cbn [format_digits].
  destruct (digit_chr_val (v mod 10)) as [Hd Hdv]; [pose proof (Z.mod_pos_bound v 10); lia|].
  destruct (Z.ltb_spec v 10).
  - exists (String (digit_chr (v mod 10)) ""). cbn. rewrite Hd, Hdv, Z.mod_small by lia.
    repeat split; done.
  - assert (0 < fuel)%nat.
    { destruct fuel; [|lia]. cbn in Hv. lia. }
    destruct (IH (v / 10) (String (digit_chr (v mod 10)) acc)) as (ds & Heq & Hne & Hall & Hval);
      [done| |].
    { rewrite Nat2Z.inj_succ, Z.pow_succ_r in Hv by lia.
      split; [apply Z.div_pos; lia|apply Z.div_lt_upper_bound; lia]. }
    exists (ds +:+ String (digit_chr (v mod 10)) ""). rewrite Heq.
    rewrite <- append_assoc. repeat split; auto.
    + by destruct ds.
    + rewrite all_bytes_app, Hall. cbn. by rewrite Hd.
    + rewrite digits_val_app, Hval. cbn. rewrite Hdv. pose proof (Z.div_mod v 10). lia.
Qed.

Lemma FormatInt_digits v :
  0 <= v <= MaxInt64 ->
  FormatInt v <> "" /\ all_bytes is_digit (FormatInt v) = true /\ digits_val 0 (FormatInt v) = v.
Proof.
  intros Hv. unfold FormatInt, MaxInt64 in *.
  rewrite (proj2 (Z.ltb_ge v 0)) by lia.
  destruct (format_digits_spec 20 v "") as (ds & Heq & Hne & Hall & Hval); [lia|lia|].
  rewrite Heq, append_nil_r. auto.
Qed.

Lemma ParseInt_FormatInt v : 0 <= v <= MaxInt64 -> ParseInt (FormatInt v) = Ok v.
Proof.
  intros Hv. destruct (FormatInt_digits v Hv) as (Hne & Hall & Hval).
  destruct (FormatInt v) as [|c s] eqn:E; [done|].
  assert (Hc : is_digit c = true) by (cbn in Hall; bool_simpl; done).
  unfold ParseInt.
  rewrite (bool_decide_eq_false_2 (c = "-"%char)) by (intros ->; discriminate Hc).
  rewrite (bool_decide_eq_false_2 (c = "+"%char)) by (intros ->; discriminate Hc).
  cbn [orb negb andb]. rewrite ParseUint_spec, Hval by done.
  unfold MaxUint64, MaxInt64 in *. rewrite (proj2 (Z.leb_le _ _)) by lia.
  by rewrite (proj2 (Z.leb_gt _ _)) by lia.
Qed.

(** * More of package [strings] *)

Fixpoint rev_string (s acc : string) : string :=
  match s with EmptyString => acc | String c s' => rev_string s' (String c acc) end.

(** [strings.HasSuffix] and [strings.TrimSuffix]. *)
Definition has_suffix (s suf : string) : bool :=
  let n := String.length s in let k := String.length suf in
  (k <=? n)%nat && bool_decide (sdrop (n - k) s = suf).
Definition trim_suffix (s suf : string) : string :=
  if has_suffix s suf then stake (String.length s - String.length suf) s else s.

(** [strings.LastIndexByte]. *)
Fixpoint last_index_from (pos : nat) (found : option nat) (c : ascii) (s : string) : option nat :=
  match s with
  | EmptyString => found
  | String d s' => last_index_from (S pos) (if bool_decide (c = d) then Some pos else found) c s'
  end.
Definition last_index (c : ascii) (s : string) : option nat := last_index_from 0 None c s.

(** [strings.HasPrefix], [Index], [Contains], [ReplaceAll] and [TrimLeft] of byte strings;
    [skip] counts the bytes of a match still to pass over. *)
Fixpoint index_from (pos : nat) (pat s : string) : option nat :=
  if has_prefix s pat then Some pos
  else match s with EmptyString => None | String _ s => index_from (S pos) pat s end.
Definition Index (s pat : string) : option nat := index_from 0 pat s.
Definition Contains (s pat : string) : bool := bool_decide (is_Some (Index s pat)).
Fixpoint replace_loop (old new : string) (skip : nat) (s : string) : string :=
  match s with
  | EmptyString => ""
  | String c s' =>
      match skip with
      | S k => replace_loop old new k s'
      | O => if has_prefix s old then new +:+ replace_loop old new (String.length old - 1) s'
             else String c (replace_loop old new 0 s')
      end
  end.
Definition ReplaceAll (s old new : string) : string := replace_loop old new 0 s.
Fixpoint TrimLeft (c : ascii) (s : string) : string :=
  match s with
  | EmptyString => ""
  | String d s' => if bool_decide (d = c) then TrimLeft c s' else s
  end.

(** [strings.Split] at a byte, and [strings.Join]. *)
Fixpoint split_loop (c : ascii) (cur s : string) : list string :=
  match s with
  | EmptyString => [rev_string cur ""]
  | String d s => if bool_decide (d = c) then rev_string cur "" :: split_loop c "" s
                  else split_loop c (String d cur) s
  end.
Definition Split (s : string) (c : ascii) : list string := split_loop c "" s.
Fixpoint Join (xs : list string) (sep : string) : string :=
  match xs with [] => "" | [x] => x | x :: xs => x +:+ sep +:+ Join xs sep end.

(** ** Substrings *)

Lemma index_shift pos pat s : index_from pos pat s = (fun n => pos + n)%nat <$> index_from 0 pat s.
Proof.
  revert pos; induction s as [|c s IH]; intros pos; cbn [index_from]; (case_match; [cbn; f_equal; lia|]); [done|].
  rewrite (IH (S pos)), (IH 1%nat). destruct (index_from 0 pat s); cbn; [f_equal; lia|done].
Qed.

Lemma Contains_nil pat : Contains "" pat = has_prefix "" pat.
Proof. unfold Contains, Index. cbn. by destruct (has_prefix "" pat). Qed.
Lemma Contains_cons c s pat : Contains (String c s) pat = has_prefix (String c s) pat || Contains s pat.
Proof.
  unfold Contains, Index. cbn [index_from]. destruct (has_prefix (String c s) pat); [done|].
  rewrite index_shift. cbn [orb]. by destruct (index_from 0 pat s).
Qed.

Lemma Contains_spec s pat : Contains s pat = true <-> exists a b, s = a +:+ pat +:+ b.
Proof.
  induction s as [|c s IH].
  - rewrite Contains_nil, has_prefix_spec. split.
    + intros [t H]. exists "", t. done.
    + intros (a & b & H). destruct a; [|discriminate H]. by exists b.
  - rewrite Contains_cons, orb_true_iff, IH, has_prefix_spec. split.
    + intros [[t ->]|(a & b & ->)]; [by exists "", t|by exists (String c a), b].
    + intros (a & b & H). destruct a as [|d a]; [left; by exists b|].
      rewrite append_cons in H. injection H as -> ->. right. by exists a, b.
Qed.

Lemma Contains_suffix a s pat : Contains (a +:+ s) pat = false -> Contains s pat = false.
Proof. induction a as [|c a IH]; [done|]. rewrite append_cons, Contains_cons. intros [_ H]%orb_false_iff. auto. Qed.

(** Where a text without the first byte of the pattern ends, the search goes on. *)
Lemma index_skip c pat a s :
  all_bytes (fun d => negb (bool_decide (d = c))) a = true ->
  Index (a +:+ s) (String c pat) = (fun n => String.length a + n)%nat <$> Index s (String c pat).
Proof.
  unfold Index. intros H. induction a as [|d a IH].
  - rewrite append_nil_l. destruct (index_from _ _ s); cbn; [f_equal; lia|done].
  - cbn [all_bytes] in H. apply andb_true_iff in H as [Hd H]. apply negb_true_iff, bool_decide_eq_false in Hd.
    rewrite append_cons. cbn [index_from has_prefix]. rewrite bool_decide_false by done. cbn [andb].
    rewrite index_shift, IH by done. destruct (index_from 0 _ s); cbn; [f_equal; lia|done].
Qed.

Lemma index_none c pat s :
  all_bytes (fun d => negb (bool_decide (d = c))) s = true -> Index s (String c pat) = None.
Proof. intros H. rewrite <- (append_nil_r s), index_skip by done. done. Qed.

Lemma index_here pat s : Index (pat +:+ s) pat = Some 0%nat.
Proof. unfold Index. pose proof (has_prefix_append pat s). destruct (pat +:+ s); cbn [index_from]; by case_match. Qed.

Lemma Index_spec s pat n : Index s pat = Some n -> exists b, s = stake n s +:+ pat +:+ b /\ (n + String.length pat <= String.length s)%nat.
Proof.
  unfold Index. revert n; induction s as [|c s IH]; intros n; cbn [index_from].
  - destruct (has_prefix "" pat) eqn:E; [|done]. intros [= <-]. apply has_prefix_spec in E as [b E]. exists b.
    split; [done|]. apply (f_equal String.length) in E. rewrite append_length in E. cbn in E |- *. lia.
  - destruct (has_prefix (String c s) pat) eqn:E.
    + intros [= <-]. apply has_prefix_spec in E as [b E]. exists b. split; [done|]. rewrite E, append_length. lia.
    + rewrite index_shift. destruct (index_from 0 pat s) as [m|] eqn:Em; [|done]. cbn. intros [= <-].
      destruct (IH _ eq_refl) as (b & Hb & Hl). exists b. cbn [stake String.length]. split; [|lia].
      rewrite append_cons. by rewrite <- Hb.
Qed.

Lemma sdrop_length n s : String.length (sdrop n s) = (String.length s - n)%nat.
Proof. revert s; induction n as [|n IH]; intros [|c s]; cbn; try done; lia. Qed.

(** ** Replacing *)

Lemma replace_bytes f old new skip s :
  all_bytes f new = true -> all_bytes f s = true -> all_bytes f (replace_loop old new skip s) = true.
Proof.
  intros Hn. revert skip; induction s as [|c s IH]; intros skip Hs; [done|]. cbn [all_bytes] in Hs.
  apply andb_true_iff in Hs as [Hc Hs]. destruct skip; cbn [replace_loop]; [|by apply IH].
  destruct (has_prefix (String c s) old); [rewrite all_bytes_app, Hn; by apply IH|]. cbn. rewrite Hc. by apply IH.
Qed.

Lemma replace_length old new skip s :
  (String.length new <= String.length old)%nat -> (0 < String.length old)%nat ->
  (String.length (replace_loop old new skip s) + (if (skip <=? String.length s)%nat then skip else String.length s) <= String.length s)%nat.
Proof.
  intros Hn Ho. revert skip; induction s as [|c s IH]; intros skip; cbn [String.length].
  - destruct skip; cbn; lia.
  - destruct skip as [|skip]; cbn [replace_loop].
    + cbn [Nat.leb]. destruct (has_prefix (String c s) old) eqn:E.
      * rewrite append_length. specialize (IH (String.length old - 1)%nat).
        apply has_prefix_spec in E as [t E]. apply (f_equal String.length) in E. rewrite append_length in E. cbn in E.
        rewrite (proj2 (Nat.leb_le _ _)) in IH by lia. lia.
      * cbn [String.length]. specialize (IH 0%nat). cbn in IH. lia.
    + specialize (IH skip). destruct (Nat.leb_spec (S skip) (S (String.length s))), (Nat.leb_spec skip (String.length s)); lia.
Qed.

Lemma replace_shorter old new s :
  (String.length new < String.length old)%nat -> Contains s old = true ->
  (String.length (ReplaceAll s old new) < String.length s)%nat.
Proof.
  intros Hn. unfold ReplaceAll. induction s as [|c s IH].
  - rewrite Contains_nil. destruct old; cbn in *; [lia|done].
  - rewrite Contains_cons. cbn [replace_loop]. destruct (has_prefix (String c s) old) eqn:E.
    + intros _. rewrite append_length. pose proof (replace_length old new (String.length old - 1) s ltac:(lia) ltac:(lia)) as L.
      apply has_prefix_spec in E as [t E]. apply (f_equal String.length) in E. rewrite append_length in E. cbn in E.
      rewrite (proj2 (Nat.leb_le _ _)) in L by lia. cbn. lia.
    + cbn [orb]. intros H. cbn [String.length]. specialize (IH H). lia.
Qed.

Lemma TrimLeft_suffix c s : exists a, s = a +:+ TrimLeft c s.
Proof.
  induction s as [|d s [a IH]]; [by exists ""|]. cbn. case_bool_decide.
  - exists (String d a). by rewrite append_cons, <- IH.
  - by exists "".
Qed.
Lemma TrimLeft_head c s t : TrimLeft c s <> String c t.
Proof. induction s as [|d s IH]; [done|]. cbn. case_bool_decide; [done|]. congruence. Qed.

(** ** Splitting *)

Lemma rev_string_acc s acc : rev_string s acc = rev_string s "" +:+ acc.
Proof.
  revert acc; induction s as [|c s IH]; intros acc; [done|]. cbn. rewrite (IH (String c acc)), (IH (String c "")).
  rewrite <- append_assoc. done.
Qed.

Lemma split_elem c cur s x :
  x ∈ split_loop c cur s ->
  (exists b, rev_string cur "" +:+ s = x +:+ b /\ (b = "" \/ exists b', b = String c b')) \/
  (exists a b, rev_string cur "" +:+ s = a +:+ String c (x +:+ b) /\ (b = "" \/ exists b', b = String c b')).
Proof.
  revert cur; induction s as [|d s IH]; intros cur; cbn [split_loop].
  - intros ->%list_elem_of_singleton. left. exists "". split; [done|by left].
  - case_bool_decide as E.
    + subst d. rewrite elem_of_cons. intros [->|H].
      * left. exists (String c s). split; [done|right; by eexists].
      * apply IH in H as [(b & Hb & Hc)|(a & b & Hb & Hc)]; right; cbn [rev_string] in Hb; rewrite append_nil_l in Hb.
        -- exists (rev_string cur ""), b. by rewrite Hb.
        -- exists (rev_string cur "" +:+ String c a), b. rewrite Hb, <- append_assoc. done.
    + intros [(b & Hb & Hc)|(a & b & Hb & Hc)]%IH; [left; exists b|right; exists a, b];
        (split; [|done]); rewrite <- Hb; cbn [rev_string]; rewrite (rev_string_acc cur (String d "")), <- append_assoc; done.
Qed.

(** A component of a path: the whole text, its beginning, its end, or between two
    separators. *)
Lemma Split_elem s c x :
  x ∈ Split s c ->
  s = x \/ (exists b, s = x +:+ String c b) \/ (exists a, s = a +:+ String c x) \/
  (exists a b, s = a +:+ String c (x +:+ String c b)).
Proof.
  intros [(b & Hb & [->|[b' ->]])|(a & b & Hb & [->|[b' ->]])]%split_elem; cbn [rev_string] in Hb; rewrite append_nil_l in Hb;
    rewrite ?append_nil_r in Hb; eauto 6.
Qed.

(** Splitting undoes joining, and the other way round. *)
Definition no_byte (c : ascii) (s : string) : bool := all_bytes (fun d => negb (bool_decide (d = c))) s.

Lemma split_app c cur a b : split_loop c cur (a +:+ String c b) = split_loop c cur a ++ Split b c.
Proof.
  revert cur; induction a as [|d a IH]; intros cur; cbn [split_loop].
  - by rewrite append_nil_l; cbn [split_loop]; rewrite bool_decide_true by done.
  - rewrite append_cons. cbn [split_loop]. case_bool_decide; cbn [app]; by rewrite IH.
Qed.
Lemma Split_app c a b : Split (a +:+ String c b) c = Split a c ++ Split b c.
Proof. apply split_app. Qed.

Lemma split_plain c cur s : no_byte c s = true -> split_loop c cur s = [rev_string cur "" +:+ s].
Proof.
  unfold no_byte. revert cur; induction s as [|d s IH]; intros cur; cbn [split_loop all_bytes]; [by rewrite append_nil_r|].
  case_bool_decide; [done|]. cbn. intros Hs. rewrite IH by done. cbn [rev_string].
  by rewrite (rev_string_acc cur (String d "")), <- append_assoc.
Qed.
Lemma Split_plain c s : no_byte c s = true -> Split s c = [s].
Proof. apply (split_plain c ""). Qed.

Lemma rev_string_bytes f s acc : all_bytes f s = true -> all_bytes f acc = true -> all_bytes f (rev_string s acc) = true.
Proof. revert acc; induction s as [|c s IH]; intros acc; cbn; [done|]. intros [Hc Hs]%andb_true_iff Ha. apply IH; cbn; [done|by rewrite Hc]. Qed.

Lemma split_no_byte c cur s : no_byte c cur = true -> Forall (fun x => no_byte c x = true) (split_loop c cur s).
Proof.
  revert cur; induction s as [|d s IH]; intros cur Hc; cbn [split_loop].
  - repeat constructor. by apply rev_string_bytes.
  - case_bool_decide.
    + constructor; [by apply rev_string_bytes|by apply IH].
    + apply IH. unfold no_byte in *. cbn. rewrite bool_decide_false by done. done.
Qed.
Lemma Split_no_byte c s : Forall (fun x => no_byte c x = true) (Split s c).
Proof. by apply split_no_byte. Qed.

Lemma Split_ne c s : Split s c <> [].
Proof.
  unfold Split. generalize "". induction s as [|d s IH]; intros cur; cbn [split_loop]; [done|]. case_bool_decide; [done|apply IH].
Qed.

Lemma Join_cons x xs sep : xs <> [] -> Join (x :: xs) sep = x +:+ sep +:+ Join xs sep.
Proof. by destruct xs. Qed.

Lemma Split_Join c xs : xs <> [] -> Forall (fun x => no_byte c x = true) xs -> Split (Join xs (String c "")) c = xs.
Proof.
  induction xs as [|x xs IH]; [done|]. intros _ [Hx Hxs]%Forall_cons. destruct xs as [|y xs]; [by apply Split_plain|].
  rewrite Join_cons by done. change (String c "" +:+ ?t) with (String c t).
  rewrite Split_app, Split_plain by done. rewrite IH by done. done.
Qed.

Lemma join_split c cur s : Join (split_loop c cur s) (String c "") = rev_string cur "" +:+ s.
Proof.
  revert cur; induction s as [|d s IH]; intros cur; cbn [split_loop]; [by rewrite append_nil_r|]. case_bool_decide as E.
  - subst d. rewrite Join_cons by apply Split_ne. rewrite IH. done.
  - rewrite IH. cbn [rev_string]. by rewrite (rev_string_acc cur (String d "")), <- append_assoc.
Qed.
Lemma Join_Split c s : Join (Split s c) (String c "") = s.
Proof. apply (join_split c ""). Qed.

Lemma Join_bytes f xs sep : all_bytes f sep = true -> Forall (fun x => all_bytes f x = true) xs -> all_bytes f (Join xs sep) = true.
Proof.
  intros Hs. induction 1 as [|x xs Hx Hxs IH]; [done|]. destruct xs as [|y xs]; [done|].
  rewrite Join_cons by done. by rewrite !all_bytes_app, Hx, Hs, IH.
Qed.
Lemma Split_bytes f c s : all_bytes f s = true -> Forall (fun x => all_bytes f x = true) (Split s c).
Proof.
  unfold Split. assert (Hc : all_bytes f "" = true) by done. revert Hc. generalize "". induction s as [|d s IH]; intros cur Hc; cbn [split_loop all_bytes].
  - intros _. repeat constructor. by apply rev_string_bytes.
  - intros [Hd Hs]%andb_true_iff. case_bool_decide.
    + constructor; [by apply rev_string_bytes|by apply IH].
    + apply IH; [cbn; by rewrite Hd|done].
Qed.

(** [strings.Cut] at a byte. *)
Definition Cut (s : string) (c : ascii) : string * string :=
  match Split s c with
  | [] => ("", "")
  | x :: xs => (x, Join xs (String c ""))
  end.
(** [strings.LastIndex], and [strings.Replace] of the first occurrence. *)
Fixpoint LastIndex (s pat : string) : option nat :=
  match s with
  | EmptyString => if has_prefix s pat then Some 0%nat else None
  | String _ s' => match LastIndex s' pat with
                   | Some n => Some (S n)
                   | None => if has_prefix s pat then Some 0%nat else None
                   end
  end.
Definition replace_first (s old new : string) : string :=
  match Index s old with
  | Some i => stake i s +:+ new +:+ sdrop (i + String.length old) s
  | None => s
  end.
Definition trim_prefix (s p : string) : string := if has_prefix s p then sdrop (String.length p) s else s.
