(* ===== verification/Utf8.v ===== *)
(** UTF-8 as Go's [unicode/utf8] reads and writes it, iteration over the runes
    of a string ([for i, r := range s]), and the character classes of
    [unicode] that the modelled code consults. *)
From S2P Require Import Prelude GoStd.

Definition RuneError : Z := 65533.

(** The Unicode scalar values. *)
Definition valid_rune (r : Z) : bool :=
  (0 <=? r) && (r <? 55296) || (57344 <=? r) && (r <=? 1114111).

(** ** Encoding: [utf8.AppendRune], [strings.Builder.WriteRune] *)
Definition encode_rune (r : Z) : string :=
  let r := if valid_rune r then r else RuneError in
  if r <? 128 then String (chr r) ""
  else if r <? 2048 then
    String (chr (192 + r / 64)) (String (chr (128 + r mod 64)) "")
  else if r <? 65536 then
    String (chr (224 + r / 4096)) (String (chr (128 + r / 64 mod 64))
      (String (chr (128 + r mod 64)) ""))
  else
    String (chr (240 + r / 262144)) (String (chr (128 + r / 4096 mod 64))
      (String (chr (128 + r / 64 mod 64)) (String (chr (128 + r mod 64)) ""))).

(** [utf8.RuneLen] of a scalar value. *)
Definition rune_len (r : Z) : nat :=
  if r <? 128 then 1 else if r <? 2048 then 2 else if r <? 65536 then 3 else 4.

(** ** Decoding: [utf8.DecodeRuneInString] *)

(** The table entry of a leading byte: sequence size and the range that the
    second byte must lie in; [None] for bytes that cannot lead. *)
Definition lead_info (b : Z) : option (nat * Z * Z) :=
  if (194 <=? b) && (b <=? 223) then Some (2%nat, 128, 191)
  else if b =? 224 then Some (3%nat, 160, 191)
  else if b =? 237 then Some (3%nat, 128, 159)
  else if (225 <=? b) && (b <=? 239) then Some (3%nat, 128, 191)
  else if b =? 240 then Some (4%nat, 144, 191)
  else if b =? 244 then Some (4%nat, 128, 143)
  else if (241 <=? b) && (b <=? 243) then Some (4%nat, 128, 191)
  else None.

Definition in_range (lo hi b : Z) : bool := (lo <=? b) && (b <=? hi).

Definition decode_rune (s : string) : Z * nat :=
  match s with
  | EmptyString => (RuneError, 0%nat)
  | String c0 s1 =>
      let b0 := byte_val c0 in
      if b0 <? 128 then (b0, 1%nat)
      else match lead_info b0, s1 with
           | Some (2%nat, lo, hi), String c1 _ =>
               if in_range lo hi (byte_val c1)
               then ((b0 - 192) * 64 + (byte_val c1 - 128), 2%nat)
               else (RuneError, 1%nat)
           | Some (3%nat, lo, hi), String c1 (String c2 _) =>
               if in_range lo hi (byte_val c1) && in_range 128 191 (byte_val c2)
               then ((b0 - 224) * 4096 + (byte_val c1 - 128) * 64 + (byte_val c2 - 128), 3%nat)
               else (RuneError, 1%nat)
           | Some (4%nat, lo, hi), String c1 (String c2 (String c3 _)) =>
               if in_range lo hi (byte_val c1) && in_range 128 191 (byte_val c2)
                  && in_range 128 191 (byte_val c3)
               then ((b0 - 240) * 262144 + (byte_val c1 - 128) * 4096
                     + (byte_val c2 - 128) * 64 + (byte_val c3 - 128), 4%nat)
               else (RuneError, 1%nat)
           | _, _ => (RuneError, 1%nat)
           end
  end.

(** ** Iteration *)

(** [for i, r := range s]: byte index, rune and width of every rune; [skip]
    counts the bytes of the current rune still to pass over. *)
Fixpoint range_loop (skip pos : nat) (s : string) : list (nat * Z * nat) :=
  match s with
  | EmptyString => []
  | String _ s' =>
      match skip with
      | S k => range_loop k (S pos) s'
      | O => let '(r, size) := decode_rune s in
             (pos, r, size) :: range_loop (size - 1) (S pos) s'
      end
  end.
Definition range_string (s : string) : list (nat * Z * nat) := range_loop 0 0 s.
Definition runes (s : string) : list Z := (fun x => x.1.2) <$> range_string s.

Definition valid_string (s : string) : bool :=
  forallb (fun '(_, r, size) => negb ((r =? RuneError) && (size =? 1)%nat)) (range_string s).
Definition RuneCountInString (s : string) : nat := length (range_string s).

Fixpoint encode_runes (rs : list Z) : string :=
  match rs with [] => "" | r :: rs' => encode_rune r +:+ encode_runes rs' end.

(** ** Character classes *)

(** [unicode.IsControl]: the C0 and C1 controls. *)
Definition IsControl (r : Z) : bool := in_range 0 31 r || in_range 127 159 r.

(** [unicode.IsSpace]: White_Space. *)
Definition IsSpace (r : Z) : bool :=
  in_range 9 13 r || (r =? 32) || (r =? 133) || (r =? 160) || (r =? 5760)
  || in_range 8192 8202 r || (r =? 8232) || (r =? 8233) || (r =? 8239)
  || (r =? 8287) || (r =? 12288).

(** [strings.TrimSpace]: from the first to the end of the last rune that is not
    white space. *)
Definition TrimSpace (s : string) : string :=
  let solid := filter (fun x => IsSpace x.1.2 = false) (range_string s) in
  match head solid, last solid with
  | Some (first, _, _), Some (start, _, size) =>
      stake (start + size - first) (sdrop first s)
  | _, _ => ""
  end.

(** ** Round trip *)

Lemma rune_len_encode r : valid_rune r = true -> String.length (encode_rune r) = rune_len r.
Proof. intros H. unfold encode_rune, rune_len. rewrite H. by repeat case_match. Qed.

Lemma rune_len_pos r : (0 < rune_len r)%nat.
Proof. unfold rune_len. repeat case_match; lia. Qed.

Ltac rune_arith :=
  repeat match goal with
  | |- context [byte_val (chr ?z)] => rewrite (byte_val_chr z) by (Z.to_euclidean_division_equations; lia)
  | |- context [?a <? ?b] => destruct (Z.ltb_spec a b); try (Z.to_euclidean_division_equations; lia)
  | |- context [?a <=? ?b] => destruct (Z.leb_spec a b); try (Z.to_euclidean_division_equations; lia)
  | |- context [?a =? ?b] => destruct (Z.eqb_spec a b); try (Z.to_euclidean_division_equations; lia)
  end.

Theorem decode_encode r s :
  valid_rune r = true -> decode_rune (encode_rune r +:+ s) = (r, rune_len r).
Proof.
  intros Hr. unfold encode_rune, rune_len. rewrite Hr.
  unfold valid_rune in Hr. apply orb_true_iff in Hr.
  destruct (Z.ltb_spec r 128) as [H1|H1];
    [|destruct (Z.ltb_spec r 2048) as [H2|H2];
      [|destruct (Z.ltb_spec r 65536) as [H3|H3]]];
    assert (0 <= r <= 1114111 /\ (r < 55296 \/ 57344 <= r)) as [Hb Hg]
      by (destruct Hr as [Hr|Hr]; bool_simpl; lia); clear Hr;
    rewrite !append_cons, append_nil_l; unfold decode_rune, lead_info, in_range.
  - by rune_arith.
  - rune_arith; cbn [andb orb]; rune_arith; cbn [andb orb]; f_equal;
      Z.to_euclidean_division_equations; lia.
  - rune_arith; cbn [andb orb]; rune_arith; cbn [andb orb]; f_equal;
      Z.to_euclidean_division_equations; lia.
  - rune_arith; cbn [andb orb]; rune_arith; cbn [andb orb]; f_equal;
      Z.to_euclidean_division_equations; lia.
Qed.


Lemma lead_info_spec b n lo hi :
  lead_info b = Some (n, lo, hi) ->
  128 <= lo /\ hi <= 191 /\
  (n = 2%nat /\ 194 <= b <= 223 \/
   n = 3%nat /\ 224 <= b <= 239 /\ (b = 224 -> lo = 160) /\ (b = 237 -> hi = 159) \/
   n = 4%nat /\ 240 <= b <= 244 /\ (b = 240 -> lo = 144) /\ (b = 244 -> hi = 143)).
Proof.
  unfold lead_info. intros H. split_flow_in H; injection H as <- <- <-; bool_simpl;
    repeat match goal with H : (_ && _) = false |- _ => apply andb_false_iff in H end;
    repeat (split; [lia|]); lia.
Qed.

Ltac chr_solve :=
  apply byte_val_inj; rewrite byte_val_chr; Z.to_euclidean_division_equations; lia.
Ltac sound_case :=
  let Hv := fresh "Hv" in
  right;
  match goal with |- valid_rune ?r = true /\ _ =>
    assert (Hv : valid_rune r = true) by (unfold valid_rune; rune_arith; reflexivity) end;
  split; [exact Hv|];
  split; [unfold rune_len; rune_arith; reflexivity|];
  unfold encode_rune; rewrite Hv; rune_arith;
  rewrite !append_cons, append_nil_l; cbn [sdrop]; rewrite ?sdrop_0;
  repeat (apply f_equal2; [chr_solve|]); reflexivity.

(** Whatever [decode_rune] accepts is exactly the encoding of its result. *)
Lemma decode_sound s r n :
  s <> "" -> decode_rune s = (r, n) ->
  (r = RuneError /\ n = 1%nat) \/
  (valid_rune r = true /\ n = rune_len r /\ s = encode_rune r +:+ sdrop n s).
Proof.
  intros Hne. destruct s as [|c0 s1]; [done|]. unfold decode_rune, in_range.
  pose proof (byte_val_range c0) as Hb0.
  destruct (Z.ltb_spec (byte_val c0) 128) as [H|H].
  { intros [= <- <-]. sound_case. }
  intros Hd. split_flow_in Hd; injection Hd as <- <-;
    try (left; split; reflexivity); bool_simpl; subst;
    match goal with H : lead_info _ = Some _ |- _ => apply lead_info_spec in H end.
  all: sound_case.
Qed.

(** ** Valid strings are the encodings of scalar values *)

Lemma range_loop_skip t pos s :
  range_loop (String.length t) pos (t +:+ s) = range_loop 0 (pos + String.length t) s.
Proof.
  revert pos; induction t as [|c t IH]; intros pos; cbn [String.length].
  - by rewrite append_nil_l, Nat.add_0_r.
  - rewrite append_cons. cbn [range_loop]. rewrite IH. f_equal. lia.
Qed.

Lemma range_encode r pos s :
  valid_rune r = true ->
  range_loop 0 pos (encode_rune r +:+ s) =
    (pos, r, rune_len r) :: range_loop 0 (pos + rune_len r) s.
Proof.
  intros Hr. pose proof (decode_encode r s Hr) as Hd.
  pose proof (rune_len_encode r Hr) as Hl. pose proof (rune_len_pos r).
  destruct (encode_rune r) as [|c t] eqn:E; cbn [String.length] in Hl; [lia|].
  rewrite append_cons in *. cbn [range_loop]. rewrite Hd. f_equal.
  replace (rune_len r - 1)%nat with (String.length t) by lia.
  rewrite range_loop_skip. f_equal. lia.
Qed.

Lemma encode_rune_nonempty r s : encode_rune r +:+ s <> "".
Proof. unfold encode_rune. by repeat case_match. Qed.

Lemma range_encode_runes rs pos :
  Forall (fun r => valid_rune r = true) rs ->
  (fun x => x.1.2) <$> range_loop 0 pos (encode_runes rs) = rs.
Proof.
  intros Hrs; revert pos; induction Hrs as [|r rs Hr _ IH]; intros pos; [done|].
  cbn [encode_runes]. rewrite range_encode by done. cbn. by rewrite IH.
Qed.

Lemma runes_encode rs :
  Forall (fun r => valid_rune r = true) rs -> runes (encode_runes rs) = rs.
Proof. apply range_encode_runes. Qed.

Definition valid_from (pos : nat) (s : string) : bool :=
  forallb (fun '(_, r, size) => negb ((r =? RuneError) && (size =? 1)%nat)) (range_loop 0 pos s).

Lemma valid_from_encode rs pos :
  Forall (fun r => valid_rune r = true) rs -> valid_from pos (encode_runes rs) = true.
Proof.
  unfold valid_from. intros Hrs; revert pos; induction Hrs as [|r rs Hr _ IH]; intros pos; [done|].
  cbn [encode_runes]. rewrite range_encode by done. cbn [forallb]. rewrite IH, andb_true_r.
  destruct (Z.eqb_spec r RuneError) as [->|]; reflexivity.
Qed.

Lemma valid_from_inv n s pos :
  (String.length s <= n)%nat -> valid_from pos s = true ->
  exists rs, Forall (fun r => valid_rune r = true) rs /\ s = encode_runes rs.
Proof.
  revert s pos; induction n as [|n IH]; intros s pos Hn Hv.
  { destruct s; cbn in Hn; [|lia]. by exists []. }
  destruct s as [|c s]; [by exists []|].
  destruct (decode_rune (String c s)) as [r k] eqn:Hd.
  assert (Hne : String c s <> "") by done.
  destruct (decode_sound _ _ _ Hne Hd) as [(-> & ->)|(Hr & Hk & Hs)].
  { unfold valid_from in Hv. cbn [range_loop] in Hv. by rewrite Hd in Hv. }
  assert (Hlen : (String.length (sdrop k (String c s)) <= n)%nat).
  { pose proof (rune_len_encode r Hr). pose proof (rune_len_pos r).
    apply (f_equal String.length) in Hs. rewrite append_length in Hs. lia. }
  assert (Hv' : valid_from (pos + rune_len r) (sdrop k (String c s)) = true).
  { unfold valid_from in *. rewrite Hs, range_encode in Hv by done.
    cbn [forallb] in Hv. by apply andb_true_iff in Hv as [_ ?]. }
  destruct (IH _ _ Hlen Hv') as (rs & Hrs & Heq).
  exists (r :: rs). split; [by constructor|]. cbn [encode_runes]. by rewrite <- Heq.
Qed.

(** [utf8.ValidString] holds exactly of the encodings of scalar values. *)
Theorem valid_string_spec s :
  valid_string s = true <->
  exists rs, Forall (fun r => valid_rune r = true) rs /\ s = encode_runes rs.
Proof.
  split.
  - intros H. by eapply (valid_from_inv (String.length s) s 0).
  - intros (rs & Hrs & ->). by apply (valid_from_encode rs 0).
Qed.

Lemma encode_runes_app rs1 rs2 : encode_runes (rs1 ++ rs2) = encode_runes rs1 +:+ encode_runes rs2.
Proof.
  induction rs1 as [|r rs1 IH]; [done|]. cbn. by rewrite IH, append_assoc.
Qed.

Lemma encode_ascii r : 0 <= r < 128 -> encode_rune r = String (chr r) "".
Proof.
  intros H. unfold encode_rune.
  assert (valid_rune r = true) as -> by (unfold valid_rune; rune_arith; reflexivity).
  by rune_arith.
Qed.

(** ** Trimming at the rune level *)

Lemma range_encode_snoc rs r pos :
  Forall (fun r => valid_rune r = true) rs -> valid_rune r = true ->
  range_loop 0 pos (encode_runes (rs ++ [r])) =
    range_loop 0 pos (encode_runes rs) ++ [((pos + String.length (encode_runes rs))%nat, r, rune_len r)].
Proof.
  intros Hrs Hr; revert pos; induction Hrs as [|x rs Hx _ IH]; intros pos; cbn [app encode_runes].
  - rewrite append_nil_r. rewrite <- (append_nil_r (encode_rune r)), range_encode by done.
    cbn. by rewrite Nat.add_0_r.
  - rewrite !range_encode by done. rewrite IH, append_length, rune_len_encode by done.
    cbn [app]. do 5 f_equal. lia.
Qed.

(** A string that neither starts nor ends with white space is left alone. *)
Lemma TrimSpace_solid rs :
  Forall (fun r => valid_rune r = true) rs ->
  (forall r, head rs = Some r -> IsSpace r = false) -> (forall r, last rs = Some r -> IsSpace r = false) ->
  TrimSpace (encode_runes rs) = encode_runes rs.
Proof.
  intros Hv Hh Hl. destruct rs as [|r0 rs]; [reflexivity|].
  destruct (exists_last (l := r0 :: rs) ltac:(done)) as (xs & z & E).
  unfold TrimSpace, range_string.
  assert (Hhead : head (filter (fun x => IsSpace x.1.2 = false) (range_loop 0 0 (encode_runes (r0 :: rs))))
                  = Some (0%nat, r0, rune_len r0)).
  { apply Forall_cons in Hv as [Hv0 _]. cbn [encode_runes]. rewrite range_encode by done.
    rewrite filter_cons_True by (cbn; by apply Hh). reflexivity. }
  rewrite Hhead. rewrite E in Hv, Hl |- *. rewrite last_snoc in Hl. apply Forall_app in Hv as [Hx Hz].
  rewrite Forall_singleton in Hz.
  rewrite (range_encode_snoc xs z 0 Hx Hz), filter_app.
  rewrite (filter_cons_True _ _ []) by (cbn; by apply Hl). rewrite filter_nil, last_snoc.
  rewrite sdrop_0, encode_runes_app. cbn [encode_runes]. rewrite append_nil_r.
  replace (0 + String.length (encode_runes xs) + rune_len z - 0)%nat
    with (String.length (encode_runes xs +:+ encode_rune z))
    by (rewrite append_length, rune_len_encode by done; lia).
  pose proof (stake_append (encode_runes xs +:+ encode_rune z) "") as Hs. by rewrite append_nil_r in Hs.
Qed.

Lemma range_valid n pos s :
  (String.length s <= n)%nat -> Forall (fun x => valid_rune x.1.2 = true) (range_loop 0 pos s).
Proof.
  revert s pos; induction n as [|n IH]; intros s pos Hn.
  { destruct s; cbn in Hn; [constructor|lia]. }
  destruct s as [|c s]; [constructor|].
  destruct (decode_rune (String c s)) as [r k] eqn:Hd.
  destruct (decode_sound (String c s) r k) as [(-> & ->)|(Hr & Hk & Hs)]; [done|done| |].
  - cbn [range_loop]. rewrite Hd. constructor; [done|]. apply IH. cbn in Hn. lia.
  - rewrite Hs, range_encode by done. constructor; [done|]. apply IH.
    pose proof (rune_len_encode r Hr). pose proof (rune_len_pos r).
    apply (f_equal String.length) in Hs. rewrite append_length in Hs. lia.
Qed.
Lemma runes_valid s : Forall (fun r => valid_rune r = true) (runes s).
Proof. apply Forall_fmap. by apply (range_valid (String.length s)). Qed.

(** [strings.ToLower]: every rune mapped, invalid bytes replaced; [lower] is [unicode.ToLower]. *)
Definition ToLower (lower : Z -> Z) (s : string) : string := encode_runes (lower <$> runes s).
