(* ===== verification/Sqlite.v ===== *)
(** What the repository's SQL statements use of SQLite: row ids, text length and
    trimming in CHECK constraints.  A table is a finite map from row ids to rows. *)
From S2P Require Import Prelude GoStd Utf8.

(** [INTEGER PRIMARY KEY] without AUTOINCREMENT: one more than the largest
    row id in use. *)
Definition next_rowid {A} (m : gmap Z A) : Z :=
  1 + foldr (fun p acc => Z.max (fst p) acc) 0 (map_to_list m).

Lemma next_rowid_fresh {A} (m : gmap Z A) id j : m !! id = Some j -> id < next_rowid m.
Proof.
  intros H. apply elem_of_map_to_list in H. unfold next_rowid.
  induction (map_to_list m) as [|p l IH]; [by apply not_elem_of_nil in H|].
  cbn. apply elem_of_cons in H as [<-|H]; cbn; [lia|]. specialize (IH H). lia.
Qed.

Lemma next_rowid_pos {A} (m : gmap Z A) : 0 < next_rowid m.
Proof. unfold next_rowid. induction (map_to_list m); cbn; lia. Qed.

Lemma next_rowid_None {A} (m : gmap Z A) : m !! next_rowid m = None.
Proof.
  destruct (m !! next_rowid m) eqn:E; [|done]. apply next_rowid_fresh in E. lia.
Qed.

(** [EXISTS (SELECT 1 FROM t WHERE f)]; a table with a composite key is a map too. *)
Section ExistsRow.
Context {K : Type} `{Countable K} {A : Type}.
Implicit Types (f : K -> A -> bool) (m : gmap K A).

Definition exists_row f m : bool := existsb (fun '(id, r) => f id r) (map_to_list m).

Lemma exists_row_spec f m :
  exists_row f m = true <-> exists id r, m !! id = Some r /\ f id r = true.
Proof.
  unfold exists_row. rewrite existsb_exists. split.
  - intros ((id, r) & Hin & Hf). exists id, r. split; [|done].
    apply elem_of_map_to_list, list_elem_of_In, Hin.
  - intros (id & r & Hl & Hf). exists (id, r). split; [|done].
    apply list_elem_of_In, elem_of_map_to_list, Hl.
Qed.

Lemma exists_row_false f m id r :
  exists_row f m = false -> m !! id = Some r -> f id r = false.
Proof.
  intros Hf Hr. destruct (f id r) eqn:E; [|done]. exfalso.
  rewrite (proj2 (exists_row_spec f m)) in Hf by eauto. discriminate Hf.
Qed.
End ExistsRow.

(** [length(X)] counts the characters before the first NUL (of valid UTF-8);
    [trim(X)] drops spaces, and only those, at both ends. *)
Fixpoint before_nul (rs : list Z) : list Z :=
  match rs with [] => [] | r :: rs' => if r =? 0 then [] else r :: before_nul rs' end.
Definition sql_length (s : string) : nat := length (before_nul (runes s)).
Fixpoint ltrim (s : string) : string :=
  match s with
  | EmptyString => ""
  | String c s' => if bool_decide (c = " "%char) then ltrim s' else s
  end.
Definition sql_trim (s : string) : string := rev_string (ltrim (rev_string (ltrim s) "")) "".
