(* ===== verification/Asn.v ===== *)
(** Archive serial numbers and their external QR labels ([core/asn/asn.go]):
    the prefix grammar, the value range, the label parser and its inverse. *)
From S2P Require Import Prelude GoStd.

(** The largest serial number that JSON clients represent exactly, 2^53 - 1. *)
Definition MaxValue : Z := 9007199254740991.

Inductive asn_error : Type := ErrInvalidPrefix | ErrInvalidValue | ErrMalformedLabel.
#[export] Instance asn_error_eq_dec : EqDecision asn_error.
Proof. solve_decision. Defined.

Definition asciiLetter (c : ascii) : bool :=
  (65 <=? byte_val c) && (byte_val c <=? 90) || (97 <=? byte_val c) && (byte_val c <=? 122).

Definition prefix_tail_char (c : ascii) : bool :=
  asciiLetter c || is_digit c || bool_decide (c = "."%char) || bool_decide (c = "_"%char)
  || bool_decide (c = ":"%char) || bool_decide (c = "-"%char).

(** [ValidatePrefix]: [None] is the nil error. *)
Definition ValidatePrefix (prefix : string) : option asn_error :=
  match prefix with
  | EmptyString => Some ErrInvalidPrefix
  | String c rest =>
      if negb (asciiLetter c) then Some ErrInvalidPrefix
      else if all_bytes prefix_tail_char rest then None
      else Some ErrInvalidPrefix
  end.

Definition ValidateValue (value : Z) : option asn_error :=
  if (value <=? 0) || (MaxValue <? value) then Some ErrInvalidValue else None.

(** [ParseLabel] returns [(value, matched, err)]. *)
Definition ParseLabel (prefix text : string) : Z * bool * option asn_error :=
  match ValidatePrefix prefix with
  | Some err => (0, false, Some err)
  | None =>
      if negb (has_prefix text prefix) then (0, false, None)
      else
        let suffix := sdrop (String.length prefix) text in
        if bool_decide (suffix = "") then (0, true, Some ErrMalformedLabel)
        else if negb (all_bytes is_digit suffix) then (0, true, Some ErrMalformedLabel)
        else match ParseUint suffix with
             | Err _ => (0, true, Some ErrMalformedLabel)
             | Ok n =>
                 if (n =? 0) || (MaxValue <? n) then (0, true, Some ErrMalformedLabel)
                 else (n, true, None)
             end
  end.

Definition CanonicalLabel (prefix : string) (value : Z) : string * option asn_error :=
  match ValidatePrefix prefix with
  | Some err => ("", Some err)
  | None =>
      match ValidateValue value with
      | Some err => ("", Some err)
      | None => (prefix +:+ FormatInt value, None)
      end
  end.

(** ** What a label means *)

(** The specification of a label: after the prefix, decimal digits (zero
    padding allowed) whose unbounded value is a valid serial number. *)
Definition label_denotes (prefix text : string) (value : Z) : Prop :=
  exists ds, text = prefix +:+ ds /\ ds <> "" /\ all_bytes is_digit ds = true /\
             digits_val 0 ds = value /\ 1 <= value <= MaxValue.

Lemma ParseLabel_suffix p ds :
  ValidatePrefix p = None -> ds <> "" -> all_bytes is_digit ds = true ->
  ParseLabel p (p +:+ ds) =
    if (1 <=? digits_val 0 ds) && (digits_val 0 ds <=? MaxValue)
    then (digits_val 0 ds, true, None) else (0, true, Some ErrMalformedLabel).
Proof.
  intros Hp Hne Hall. unfold ParseLabel. rewrite Hp, has_prefix_append. cbn [negb].
  rewrite sdrop_append, bool_decide_eq_false_2, Hall by done. cbn [negb].
  rewrite ParseUint_spec by done.
  pose proof (digits_val_ge 0 ds ltac:(lia) Hall) as H0.
  unfold MaxUint64, MaxValue in *.
  destruct (Z.leb_spec (digits_val 0 ds) 18446744073709551615).
  - destruct (Z.eqb_spec (digits_val 0 ds) 0), (Z.leb_spec 1 (digits_val 0 ds)); try lia; cbn; [done|].
    destruct (Z.ltb_spec 9007199254740991 (digits_val 0 ds)),
      (Z.leb_spec (digits_val 0 ds) 9007199254740991); try lia; done.
  - rewrite (proj2 (Z.leb_gt (digits_val 0 ds) 9007199254740991)) by lia.
    by rewrite andb_false_r.
Qed.

Lemma ValidateValue_None v : ValidateValue v = None <-> 1 <= v <= MaxValue.
Proof.
  unfold ValidateValue. split.
  - intros H. split_flow_in H. bool_simpl. lia.
  - intros H. rewrite (proj2 (Z.leb_gt v 0)), (proj2 (Z.ltb_ge MaxValue v)) by lia. done.
Qed.

(** A label is accepted with a value exactly when it denotes that value; in
    particular a digit string too long for 64 bits is never accepted. *)
Theorem ParseLabel_accepts p text v :
  ValidatePrefix p = None ->
  ParseLabel p text = (v, true, None) <-> label_denotes p text v.
Proof.
  intros Hp. split.
  - intros H. pose proof H as H'. unfold ParseLabel in H. rewrite Hp in H.
    destruct (has_prefix text p) eqn:Hpre; [|discriminate H].
    apply has_prefix_spec in Hpre as (ds & ->). rewrite sdrop_append in H. cbn [negb] in H.
    destruct (bool_decide (ds = "")) eqn:Hne; [discriminate H|].
    destruct (all_bytes is_digit ds) eqn:Hall; [|discriminate H]. bool_simpl.
    rewrite ParseLabel_suffix in H' by done.
    destruct (_ && _) eqn:Hr in H'; [|discriminate H']. injection H' as <-. bool_simpl.
    exists ds. repeat split; auto.
  - intros (ds & -> & Hne & Hall & <- & Hr). rewrite ParseLabel_suffix by done.
    rewrite (proj2 (Z.leb_le _ _)), (proj2 (Z.leb_le _ _)) by lia. done.
Qed.

Lemma ParseLabel_accepts_witness :
  ValidatePrefix "A" = None /\
  (ParseLabel "A" "A0018446744073709551617" = (1, true, None) <->
   label_denotes "A" "A0018446744073709551617" 1).
Proof. split; [reflexivity|]. apply (ParseLabel_accepts "A"). reflexivity. Defined.

(** Printing then parsing returns the value. *)
Theorem label_roundtrip p v label :
  CanonicalLabel p v = (label, None) -> ParseLabel p label = (v, true, None).
Proof.
  unfold CanonicalLabel. intros H.
  destruct (ValidatePrefix p) eqn:Hp; [discriminate H|].
  destruct (ValidateValue v) eqn:Hv; [discriminate H|]. injection H as <-.
  apply ValidateValue_None in Hv.
  destruct (FormatInt_digits v) as (Hne & Hall & Hval); [unfold MaxValue, MaxInt64 in *; lia|].
  apply ParseLabel_accepts; [done|]. exists (FormatInt v). auto.
Qed.

Lemma label_roundtrip_witness :
  CanonicalLabel "ASN" 42 = ("ASN42", None) /\ ParseLabel "ASN" "ASN42" = (42, true, None).
Proof. split; [reflexivity|]. apply (label_roundtrip "ASN" 42 "ASN42"). reflexivity. Defined.
