(* ===== verification/DocSplit.v ===== *)
(** Planning of PDF splits ([core/pipeline/docsplit/docsplit.go]): the
    classification of the symbols on each page, the separator-sheet segments
    and the retained-label plan. *)
From S2P Require Import Prelude GoStd Utf8 Asn.

(** ** Data *)

Definition DefaultBinary : string := "pdftoppm".
Definition DefaultToken : string := "SUCHI-SPLIT".
Definition ASNModeOff : string := "off".
Definition ASNModeAssign : string := "assign".
Definition ASNModeSplit : string := "split".

Inductive Mode : Type := ModeNone | ModeSeparator | ModeASNAssign | ModeASNSplit.
#[export] Instance Mode_eq_dec : EqDecision Mode.
Proof. solve_decision. Defined.

Inductive ValidationCode : Type :=
  | CodeMalformedASN | CodeMixedMarkers | CodeMultipleASN
  | CodeMultipleASNOnPage | CodeDuplicateASN | CodeMissingLeadingASN.
#[export] Instance ValidationCode_eq_dec : EqDecision ValidationCode.
Proof. solve_decision. Defined.

(** [*ValidationError]; [ASN = 0] where the code leaves the field unset. *)
Record ValidationError : Type := mkValidation { Code : ValidationCode; Page : Z; VASN : Z }.
#[export] Instance ValidationError_eq_dec : EqDecision ValidationError.
Proof. solve_decision. Defined.

(** Everything that can end planning early.  [IndexPanic] is Go's run-time panic
    for an index out of range. *)
Inductive plan_error : Type :=
  | EValidation (e : ValidationError)
  | EMarkersInMode (mode : string)
  | EInvalidPrefix (e : Asn.asn_error)
  | EInvalidMode (mode : string)
  | ENoRasterizer | EMkdir | EWrite | ERasterize | EListPages | ENoPages | EDecodePage (page : Z)
  | ECancelled
  | IndexPanic.
#[export] Instance plan_error_eq_dec : EqDecision plan_error.
Proof. solve_decision. Defined.

Record Options : Type := mkOptions {
  Binary : string; Timeout : Z; DPI : Z;
  SeparatorEnabled : bool; Token : string; ASNMode : string; ASNPrefix : string
}.

Record Segment : Type := mkSegment { Start : Z; End_ : Z; ASN : Z; MarkerPage : Z }.
#[export] Instance Segment_eq_dec : EqDecision Segment.
Proof. solve_decision. Defined.

Record Result : Type := mkResult {
  RMode : Mode; Segments : list Segment; SeparatorPages : list Z; TotalPages : Z; Skipped : bool
}.
#[export] Instance Result_eq_dec : EqDecision Result.
Proof. solve_decision. Defined.

(** A decoded symbol ([barcode.Barcode]). *)
Record Barcode : Type := mkBarcode { Text : string; Format : string }.

Record pageSymbols : Type := mkPage {
  page : Z; separator : bool; asns : list Z; asnLooking : bool; malformedASN : bool
}.

Definition PageCount (s : Segment) : Z := End_ s - Start s + 1.
Definition Pages (s : Segment) : list Z := seqZ (Start s) (End_ s - Start s + 1).

(** ** Operations *)

Definition asnEnabled (mode : string) : bool :=
  bool_decide (mode = ASNModeAssign) || bool_decide (mode = ASNModeSplit).

Definition validateOptions (opts : Options) : result plan_error unit :=
  let mode := ASNMode opts in
  if bool_decide (mode = "") || bool_decide (mode = ASNModeOff) then Ok tt
  else if bool_decide (mode = ASNModeAssign) || bool_decide (mode = ASNModeSplit) then
    match Asn.ValidatePrefix (ASNPrefix opts) with
    | Some err => Err (EInvalidPrefix err)
    | None => Ok tt
    end
  else Err (EInvalidMode mode).

(** The body of [classifyPage]'s loop. *)
Definition classify_code (opts : Options) (token : string) (out : pageSymbols) (code : Barcode)
  : pageSymbols :=
  let out :=
    if SeparatorEnabled opts && bool_decide (TrimSpace (Text code) = token)
    then mkPage (page out) true (asns out) (asnLooking out) (malformedASN out) else out in
  if negb (asnEnabled (ASNMode opts)) || negb (bool_decide (Format code = "QR")) then out
  else
    let '(value, matched, err) := Asn.ParseLabel (ASNPrefix opts) (Text code) in
    if negb matched then out
    else match err with
         | Some _ => mkPage (page out) (separator out) (asns out) true true
         | None => mkPage (page out) (separator out) (asns out ++ [value]) true (malformedASN out)
         end.

Definition classifyPage (n : Z) (codes : list Barcode) (opts : Options) (token : string)
  : pageSymbols :=
  fold_left (classify_code opts token) codes (mkPage n false [] false false).

(** [computeSegments]: the loop over the page numbers [idx], with the start of
    the open segment (0 when none is open). *)
Fixpoint segments_loop (sep : list Z) (idx : list Z) (start : Z) (out : list Segment)
  : Z * list Segment :=
  match idx with
  | [] => (start, out)
  | i :: idx' =>
      if bool_decide (i ∈ sep) then
        if 0 <? start
        then segments_loop sep idx' 0 (out ++ [mkSegment start (i - 1) 0 0])
        else segments_loop sep idx' start out
      else segments_loop sep idx' (if start =? 0 then i else start) out
  end.

Definition computeSegments (total : Z) (separators : list Z) : list Segment :=
  let '(start, out) := segments_loop separators (seqZ 1 total) 0 [] in
  if 0 <? start then out ++ [mkSegment start total 0 0] else out.

Fixpoint firstMixedPage (pages : list pageSymbols) : Z :=
  match pages with
  | [] => 0
  | p :: pages' => if separator p || asnLooking p then page p else firstMixedPage pages'
  end.

(** The first loop of [planPages]: separator pages and label pages in order. *)
Fixpoint collect_pages (pages : list pageSymbols) (seps : list Z) (asnPages : list pageSymbols)
  (hasLegacy hasASN : bool) : list Z * list pageSymbols * bool * bool :=
  match pages with
  | [] => (seps, asnPages, hasLegacy, hasASN)
  | p :: pages' =>
      let '(seps, hasLegacy) :=
        if separator p then (seps ++ [page p], true) else (seps, hasLegacy) in
      let '(asnPages, hasASN) :=
        if asnLooking p then (asnPages ++ [p], true) else (asnPages, hasASN) in
      collect_pages pages' seps asnPages hasLegacy hasASN
  end.

Fixpoint first_malformed (asnPages : list pageSymbols) : option Z :=
  match asnPages with
  | [] => None
  | p :: ps => if malformedASN p then Some (page p) else first_malformed ps
  end.

(** The counting loop of the assign mode: number of labels, last labelled page. *)
Fixpoint assign_loop (asnPages : list pageSymbols) (count : Z) (selected : pageSymbols)
  : Z * pageSymbols :=
  match asnPages with
  | [] => (count, selected)
  | p :: ps =>
      assign_loop ps (count + Z.of_nat (length (asns p)))
        (if (0 <? length (asns p))%nat then p else selected)
  end.

(** The validation loop of the split mode: one fresh label per page. *)
Fixpoint split_check (asnPages : list pageSymbols) (seen : gset Z) : result plan_error unit :=
  match asnPages with
  | [] => Ok tt
  | p :: ps =>
      fail_if (1 <? length (asns p))%nat
        with EValidation (mkValidation CodeMultipleASNOnPage (page p) 0) in
      match head (asns p) with
      | None => Err IndexPanic
      | Some value =>
          fail_if bool_decide (value ∈ seen)
            with EValidation (mkValidation CodeDuplicateASN (page p) value) in
          split_check ps ({[value]} ∪ seen)
      end
  end.

(** The segments of the split mode: each runs up to the page before the next
    label. *)
Fixpoint split_segments (total : Z) (asnPages : list pageSymbols) : result plan_error (list Segment) :=
  match asnPages with
  | [] => Ok []
  | p :: ps =>
      let end_ := match ps with q :: _ => page q - 1 | [] => total end in
      match head (asns p) with
      | None => Err IndexPanic
      | Some a => segs ← split_segments total ps; Ok (mkSegment (page p) end_ a (page p) :: segs)
      end
  end.

Definition planPages (total : Z) (pages : list pageSymbols) (opts : Options)
  : result plan_error Result :=
  let '(seps, asnPages, hasLegacy, hasASN) := collect_pages pages [] [] false false in
  fail_if hasLegacy && hasASN
    with EValidation (mkValidation CodeMixedMarkers (firstMixedPage pages) 0) in
  if hasLegacy then Ok (mkResult ModeSeparator (computeSegments total seps) seps total false)
  else if negb hasASN then
    Ok (mkResult ModeNone (if 0 <? total then [mkSegment 1 total 0 0] else []) seps total false)
  else match first_malformed asnPages with
  | Some n => Err (EValidation (mkValidation CodeMalformedASN n 0))
  | None =>
      if bool_decide (ASNMode opts = ASNModeAssign) then
        let '(count, selected) := assign_loop asnPages 0 (mkPage 0 false [] false false) in
        if negb (count =? 1) then
          match asnPages with
          | _ :: q :: _ => Err (EValidation (mkValidation CodeMultipleASN (page q) 0))
          | [p] => Err (EValidation (mkValidation CodeMultipleASN (page p) 0))
          | [] => Err IndexPanic
          end
        else match head (asns selected) with
             | None => Err IndexPanic
             | Some a =>
                 Ok (mkResult ModeASNAssign [mkSegment 1 total a (page selected)] seps total false)
             end
      else if bool_decide (ASNMode opts = ASNModeSplit) then
        match asnPages with
        | [] => Err IndexPanic
        | p :: _ =>
            fail_if (length (asns p) =? 0)%nat || negb (page p =? 1)
              with EValidation (mkValidation CodeMissingLeadingASN 1 0) in
            _ ← split_check asnPages ∅;
            segs ← split_segments total asnPages;
            Ok (mkResult ModeASNSplit segs seps total false)
        end
      else Err (EMarkersInMode (ASNMode opts))
  end.

(** ** The rasterized pages *)

Record pngFile : Type := mkPng { path : string; n : Z }.

(** The digits after the last hyphen, in 64-bit arithmetic; [None] on any other
    rune. *)
Fixpoint page_number (acc : Z) (rs : list Z) : option Z :=
  match rs with
  | [] => Some acc
  | r :: rs' =>
      if (r <? 48) || (57 <? r) then None else page_number (wrap_i64 (acc * 10 + (r - 48))) rs'
  end.

Definition png_of (name : string) : option pngFile :=
  if negb (has_suffix name ".png") then None
  else
    let base := trim_suffix name ".png" in
    match last_index "-" base with
    | None => None
    | Some i =>
        match page_number 0 (runes (sdrop (i + 1) base)) with
        | None => None
        | Some k => Some (mkPng name k)
        end
    end.

Definition png_le (a b : pngFile) : Prop := n a <= n b.
#[export] Instance png_le_dec : RelDecision png_le.
Proof. intros a b. apply Z.le_dec. Defined.

(** [listPNGs], given the names in the directory. *)
Definition listPNGs (names : list string) : list pngFile := merge_sort png_le (omap png_of names).

(** What [Analyze] asks of the operating system, [pdftoppm] and the QR decoder. *)
Record Env : Type := mkEnv {
  LookPath : string -> bool;
  MkdirTemp : bool;
  WriteFile : bool;
  Rasterize : list string -> bool;          (* [sandbox.Run] of the command line *)
  ReadDir : option (list string);
  decodePage : string -> list Barcode * bool;   (* symbols, and whether decoding failed *)
  ctx_cancelled : nat -> bool               (* consulted before page k, and once at the end *)
}.

Fixpoint classify_pages (env : Env) (opts : Options) (token : string) (k : nat)
  (pngs : list pngFile) : result plan_error (list pageSymbols) :=
  match pngs with
  | [] => if ctx_cancelled env k then Err ECancelled else Ok []
  | p :: ps =>
      fail_if ctx_cancelled env k with ECancelled in
      let '(codes, failed) := decodePage env (path p) in
      fail_if failed && asnEnabled (ASNMode opts) with EDecodePage (n p) in
      rest ← classify_pages env opts token (S k) ps;
      Ok (classifyPage (n p) codes opts token :: rest)
  end.

Definition Analyze (env : Env) (opts : Options) : result plan_error Result :=
  _ ← validateOptions opts;
  let binary := if bool_decide (Binary opts = "") then DefaultBinary else Binary opts in
  if negb (LookPath env binary) then
    if asnEnabled (ASNMode opts) then Err ENoRasterizer
    else Ok (mkResult ModeNone [] [] 0 true)
  else
    let dpi := if DPI opts =? 0 then 150 else DPI opts in
    let token := if bool_decide (TrimSpace (Token opts) = "") then DefaultToken
                 else TrimSpace (Token opts) in
    require MkdirTemp env else EMkdir in
    require WriteFile env else EWrite in
    require Rasterize env [binary; "-png"; "-r"; FormatInt dpi; "in.pdf"; "p"] else ERasterize in
    match ReadDir env with
    | None => Err EListPages
    | Some names =>
        let pngs := listPNGs names in
        fail_if (length pngs =? 0)%nat with ENoPages in
        pages ← classify_pages env opts token 0 pngs;
        planPages (Z.of_nat (length pngs)) pages opts
    end.

(** ** Separator segments are the maximal runs of retained pages *)

Definition seg_before (s1 s2 : Segment) : Prop := End_ s1 + 1 < Start s2.

(** What the loop still owes when it is about to look at page [i]. *)
Record segs_ok (total : Z) (sep : list Z) (i start : Z) (more : list Segment) : Prop := {
  ok_pages : concat (Pages <$> more) =
    (if 0 <? start then seqZ start (i - start) else [])
    ++ filter (fun k => k ∉ sep) (seqZ i (total - i + 1));
  ok_sorted : Sorted seg_before more;
  ok_nonempty : Forall (fun s => Start s <= End_ s) more;
  ok_head : match head more with
            | Some s => if 0 <? start then Start s = start else i <= Start s
            | None => True
            end
}.

Lemma seqZ_snoc a i : a <= i -> seqZ a (i - a) ++ [i] = seqZ a (i + 1 - a).
Proof.
  intros H. replace (i + 1 - a) with ((i - a) + 1) by lia.
  rewrite seqZ_app by lia. replace (a + (i - a)) with i by lia. reflexivity.
Qed.

(** Closing an open segment before the separator page [i]. *)
Lemma segs_ok_close total sep i start more :
  0 < start < i -> i <= total -> i ∈ sep -> segs_ok total sep (i + 1) 0 more ->
  segs_ok total sep i start (mkSegment start (i - 1) 0 0 :: more).
Proof.
  intros Hs Hi Hin [Hp Hso Hne Hh]. cbn in Hp, Hh. split.
  - rewrite fmap_cons, concat_cons, Hp. rewrite (proj2 (Z.ltb_lt 0 start)) by lia.
    unfold Pages; cbn [Start End_]. f_equal; [f_equal; lia|].
    rewrite (seqZ_cons i) by lia. rewrite filter_cons_False by auto.
    do 2 f_equal; lia.
  - constructor; [done|]. destruct more as [|s more]; constructor. unfold seg_before. cbn in *. lia.
  - constructor; cbn; [lia|done].
  - cbn. by rewrite (proj2 (Z.ltb_lt 0 start)) by lia.
Qed.

Lemma segs_ok_skip total sep i more :
  i <= total -> i ∈ sep -> segs_ok total sep (i + 1) 0 more -> segs_ok total sep i 0 more.
Proof.
  intros Hi Hin [Hp Hso Hne Hh]. cbn in Hp, Hh. split; auto; cbn.
  - rewrite Hp, (seqZ_cons i), filter_cons_False by (auto; lia). do 2 f_equal; lia.
  - destruct more; cbn in *; [done|lia].
Qed.

Lemma segs_ok_keep total sep i start more :
  0 <= start < i -> i <= total -> i ∉ sep ->
  segs_ok total sep (i + 1) (if start =? 0 then i else start) more ->
  segs_ok total sep i start more.
Proof.
  intros Hs Hi Hin [Hp Hso Hne Hh].
  assert ((0 <? (if start =? 0 then i else start)) = true) as E
    by (apply Z.ltb_lt; destruct (Z.eqb_spec start 0); lia).
  rewrite E in Hp, Hh. split; auto.
  - rewrite Hp, (seqZ_cons i), filter_cons_True by (auto; lia).
    replace (Z.pred (total - i + 1)) with (total - (i + 1) + 1) by lia.
    rewrite <- Z.add_1_r. destruct (Z.eqb_spec start 0) as [->|].
    + cbn. replace (i + 1 - i) with 1 by lia. reflexivity.
    + rewrite (proj2 (Z.ltb_lt 0 start)) by lia.
      rewrite <- seqZ_snoc, <- app_assoc by lia. reflexivity.
  - destruct more; [done|]. cbn in *.
    destruct (Z.eqb_spec start 0) as [->|]; cbn; [lia|].
    by rewrite (proj2 (Z.ltb_lt 0 start)) by lia.
Qed.

Lemma segs_ok_end total sep i start :
  total = i - 1 -> 0 <= start < i ->
  segs_ok total sep i start (if 0 <? start then [mkSegment start total 0 0] else []).
Proof.
  intros -> Hs. destruct (Z.ltb_spec 0 start) as [H|H].
  - split; cbn.
    + rewrite (proj2 (Z.ltb_lt 0 start)), (seqZ_nil i), filter_nil, !app_nil_r by lia.
      unfold Pages; cbn. f_equal; lia.
    + repeat constructor.
    + repeat constructor; cbn; lia.
    + by rewrite (proj2 (Z.ltb_lt 0 start)) by lia.
  - assert (start = 0) as -> by lia. split; cbn; auto.
    by rewrite (seqZ_nil i), filter_nil by lia.
Qed.

Lemma segments_loop_spec total sep k i start out st out' :
  total - i + 1 = Z.of_nat k -> 0 <= start < i ->
  segments_loop sep (seqZ i (total - i + 1)) start out = (st, out') ->
  exists more, out' ++ (if 0 <? st then [mkSegment st total 0 0] else []) = out ++ more /\
               segs_ok total sep i start more.
Proof.
  revert i start out; induction k as [|k IH]; intros i start out Hk Hs Hl.
  - rewrite seqZ_nil in Hl by lia. injection Hl as -> ->.
    eexists; split; [reflexivity|]. apply segs_ok_end; lia.
  - rewrite seqZ_cons in Hl by lia. cbn [segments_loop] in Hl.
    replace (Z.pred (total - i + 1)) with (total - (i + 1) + 1) in Hl by lia.
    rewrite <- Z.add_1_r in Hl. case_bool_decide as Hin.
    + destruct (Z.ltb_spec 0 start).
      * apply IH in Hl as (more & Heq & Hok); [|lia|lia].
        exists (mkSegment start (i - 1) 0 0 :: more). rewrite Heq, <- app_assoc. split; [done|].
        apply segs_ok_close; auto; lia.
      * assert (start = 0) as -> by lia.
        apply IH in Hl as (more & Heq & Hok); [|lia|lia].
        exists more. split; [done|]. apply segs_ok_skip; auto; lia.
    + apply IH in Hl as (more & Heq & Hok); [|lia|destruct (Z.eqb_spec start 0); lia].
      exists more. split; [done|]. apply segs_ok_keep; auto; lia.
Qed.

(** The segments cover exactly the pages that are not separators, in order, and
    no two of them touch: they are the maximal runs of retained pages. *)
Theorem computeSegments_spec total sep :
  concat (Pages <$> computeSegments total sep) = filter (fun k => k ∉ sep) (seqZ 1 total) /\
  Sorted seg_before (computeSegments total sep) /\
  Forall (fun s => Start s <= End_ s) (computeSegments total sep).
Proof.
  unfold computeSegments. destruct (segments_loop sep (seqZ 1 total) 0 []) as [st out] eqn:E.
  destruct (decide (total < 0)) as [Hneg|Hpos].
  { rewrite seqZ_nil in * by lia. injection E as <- <-. cbn. repeat constructor. }
  replace total with (total - 1 + 1) in E at 1 by lia.
  destruct (segments_loop_spec total sep (Z.to_nat total) 1 0 [] st out) as (more & Heq & Hok);
    [lia|lia|done|].
  destruct Hok as [Hp Hs Hne _]. cbn in Heq, Hp.
  replace (total - 1 + 1) with total in Hp by lia.
  replace (if 0 <? st then out ++ [mkSegment st total 0 0] else out) with more; [auto|].
  rewrite <- Heq. destruct (0 <? st); [done|by rewrite app_nil_r].
Qed.

(** ** The label plan *)

(** Classification marks a page as label-looking only together with a label or a
    malformed one. *)
Definition page_wf (p : pageSymbols) : Prop :=
  asnLooking p = true -> malformedASN p = true \/ asns p <> [].

Lemma classify_code_wf opts token out code :
  page_wf out -> page_wf (classify_code opts token out code).
Proof.
  unfold page_wf, classify_code. intros H. repeat case_match; cbn in *; auto.
  all: try (intros _; right; by destruct (asns out)).
  all: naive_solver.
Qed.

Lemma classify_code_page opts token out code :
  page (classify_code opts token out code) = page out.
Proof. unfold classify_code. by repeat case_match. Qed.

Lemma classifyPage_wf k codes opts token :
  page_wf (classifyPage k codes opts token) /\ page (classifyPage k codes opts token) = k.
Proof.
  unfold classifyPage.
  assert (H : forall out, page_wf out ->
    page_wf (fold_left (classify_code opts token) codes out) /\
    page (fold_left (classify_code opts token) codes out) = page out).
  { induction codes as [|c codes IH]; intros out Hout; cbn; [auto|].
    rewrite <- (classify_code_page opts token out c). apply IH, classify_code_wf, Hout. }
  apply H. unfold page_wf. cbn. discriminate.
Qed.

Lemma collect_pages_spec pages seps ps hl ha :
  collect_pages pages seps ps hl ha =
    (seps ++ (page <$> filter (fun p => separator p = true) pages),
     ps ++ filter (fun p => asnLooking p = true) pages,
     hl || existsb separator pages, ha || existsb asnLooking pages).
Proof.
  revert seps ps hl ha; induction pages as [|p pages IH]; intros seps ps hl ha.
  - cbn. by rewrite !app_nil_r, !orb_false_r.
  - cbn [collect_pages existsb]. rewrite !filter_cons.
    destruct (separator p) eqn:Es, (asnLooking p) eqn:Ea; rewrite IH;
      repeat case_decide; try congruence; cbn; rewrite <- ?app_assoc, ?orb_true_r; reflexivity.
Qed.

Lemma first_malformed_None ps :
  first_malformed ps = None -> Forall (fun p => malformedASN p = false) ps.
Proof.
  induction ps as [|p ps IH]; intros H; cbn in *; [constructor|].
  destruct (malformedASN p) eqn:E; [discriminate H|]. constructor; auto.
Qed.

(** Label pages after the malformed check carry at least one label. *)
Lemma labelled_pages pages :
  Forall page_wf pages ->
  first_malformed (filter (fun p => asnLooking p = true) pages) = None ->
  Forall (fun p => asns p <> []) (filter (fun p => asnLooking p = true) pages).
Proof.
  intros Hwf Hm. apply first_malformed_None in Hm.
  rewrite Forall_forall in *. intros p Hp. specialize (Hm p Hp).
  apply list_elem_of_filter in Hp as [Hl Hp].
  destruct (Hwf p Hp Hl) as [H|H]; [congruence|exact H].
Qed.

Lemma split_check_panic ps seen :
  Forall (fun p => asns p <> []) ps -> split_check ps seen <> Err IndexPanic.
Proof.
  intros H; revert seen; induction H as [|p ps Hp _ IH]; intros seen; cbn; [done|].
  destruct (asns p) as [|a l]; [done|]. cbn. repeat case_match; try done; apply IH.
Qed.

Lemma split_segments_ok total ps :
  Forall (fun p => asns p <> []) ps -> exists segs, split_segments total ps = Ok segs.
Proof.
  induction 1 as [|p ps Hp _ (segs & IH)]; cbn; [eauto|].
  destruct (asns p) as [|a l]; [done|]. cbn. rewrite IH. cbn. eauto.
Qed.

Lemma assign_loop_selected ps count sel :
  0 <= count ->
  let '(c, s) := assign_loop ps count sel in
  count <= c /\ (count < c -> asns s <> []) /\ (count = c -> s = sel).
Proof.
  revert count sel; induction ps as [|p ps IH]; intros count sel Hc; cbn; [split_and!; [lia|lia|done]|].
  specialize (IH (count + Z.of_nat (length (asns p))) (if (0 <? length (asns p))%nat then p else sel)
    ltac:(lia)).
  destruct (assign_loop _ _ _) as [c s]. destruct IH as (H1 & H2 & H3).
  destruct (Nat.ltb_spec 0 (length (asns p))) as [Hl|Hl].
  - split_and!; [lia| |lia]. intros _.
    destruct (decide (count + Z.of_nat (length (asns p)) = c)) as [e|ne]; [|apply H2; lia].
    rewrite (H3 e). by destruct (asns p); cbn in Hl; [lia|].
  - split_and!; [lia|intros; apply H2; lia|intros; apply H3; lia].
Qed.

Lemma existsb_filter (f : pageSymbols -> bool) pages :
  existsb f pages = true -> filter (fun p => f p = true) pages <> [].
Proof.
  intros (p & Hin & Hf)%existsb_exists E.
  apply (not_elem_of_nil p). rewrite <- E. apply list_elem_of_filter.
  split; [done|]. by apply list_elem_of_In.
Qed.

(** Planning never indexes out of range on classified pages. *)
Lemma planPages_no_panic total pages opts :
  Forall page_wf pages -> planPages total pages opts <> Err IndexPanic.
Proof.
  intros Hwf. unfold planPages. rewrite collect_pages_spec. cbn [orb app].
  pose proof (labelled_pages pages Hwf) as Hl. pose proof (existsb_filter asnLooking pages) as Hne.
  set (ps := filter (fun p => asnLooking p = true) pages) in *. clearbody ps.
  destruct (existsb separator pages), (existsb asnLooking pages); try discriminate.
  specialize (Hne eq_refl). cbn [andb negb].
  destruct (first_malformed ps); [discriminate|]. specialize (Hl eq_refl).
  case_bool_decide; [|case_bool_decide; [|discriminate]].
  - pose proof (assign_loop_selected ps 0 (mkPage 0 false [] false false) ltac:(lia)) as Hs.
    destruct (assign_loop _ _ _) as [c s]. destruct Hs as (_ & Hs & _).
    destruct (Z.eqb_spec c 1); cbn [negb].
    + destruct (asns s); [exfalso; apply Hs; [lia|done]|discriminate].
    + by destruct ps as [|? [|? ?]].
  - destruct (split_segments_ok total ps Hl) as (segs & ->).
    pose proof (split_check_panic ps ∅ Hl) as Hc.
    destruct ps as [|p ps]; [done|]. destruct (_ || _); [discriminate|].
    destruct (split_check _ _); cbn; [discriminate|congruence].
Qed.

Lemma classify_pages_spec env opts token k pngs pages :
  classify_pages env opts token k pngs = Ok pages ->
  Forall page_wf pages /\ page <$> pages = n <$> pngs.
Proof.
  revert k pages; induction pngs as [|p pngs IH]; intros k pages H; cbn in H.
  - split_flow_in H. injection H as <-. auto.
  - split_flow_in H. inv_ok H. apply IH in Ha as [H1 H2]. injection H as <-.
    destruct (classifyPage_wf (n p) l opts token). split; [by constructor|]. cbn. congruence.
Qed.

Lemma classify_pages_error env opts token k pngs e :
  classify_pages env opts token k pngs = Err e -> e <> IndexPanic.
Proof.
  revert k; induction pngs as [|p pngs IH]; intros k H; cbn in H.
  - by split_flow_in H; injection H as <-.
  - split_flow_in H; try (by injection H as <-).
    apply bind_Err in H as [H|(pages & _ & H)]; [eauto|discriminate H].
Qed.

(** No index of the planner is ever out of range, whatever the pages decode to. *)
Theorem Analyze_no_panic env opts : Analyze env opts <> Err IndexPanic.
Proof.
  unfold Analyze. intros H. apply bind_Err in H as [H|(u & _ & H)].
  { unfold validateOptions in H. split_flow_in H; discriminate H. }
  split_flow_in H; apply bind_Err in H as [H|(pages & Hp & H)];
    try (by apply classify_pages_error in H);
    apply classify_pages_spec in Hp as [Hwf _]; by apply planPages_no_panic in H.
Qed.

(** Pages in strictly increasing order between two bounds. *)
Fixpoint increasing (lo hi : Z) (ps : list pageSymbols) : Prop :=
  match ps with [] => True | p :: ps' => lo <= page p <= hi /\ increasing (page p + 1) hi ps' end.

Lemma increasing_weaken lo lo' hi ps : lo' <= lo -> increasing lo hi ps -> increasing lo' hi ps.
Proof. destruct ps; cbn; [done|]. intros ? [? ?]. split; [lia|done]. Qed.

Lemma increasing_filter P `{!forall p, Decision (P p)} lo k pages :
  page <$> pages = seqZ lo (Z.of_nat k) -> increasing lo (lo + Z.of_nat k - 1) (filter P pages).
Proof.
  revert lo pages; induction k as [|k IH]; intros lo pages Hp.
  { by destruct pages. }
  rewrite seqZ_cons in Hp by lia. destruct pages as [|p pages]; [done|].
  cbn in Hp. injection Hp as Hlo Hp.
  replace (Z.pred (Z.of_nat (S k))) with (Z.of_nat k) in Hp by lia.
  apply IH in Hp. rewrite <- Z.add_1_r in Hp.
  replace (lo + 1 + Z.of_nat k - 1) with (lo + Z.of_nat (S k) - 1) in Hp by lia.
  rewrite filter_cons. case_decide; cbn.
  - rewrite Hlo. split; [lia|done].
  - eapply increasing_weaken; [|done]. lia.
Qed.

Lemma split_check_ok ps seen :
  split_check ps seen = Ok tt ->
  exists vs, asns <$> ps = (fun v => [v]) <$> vs /\ NoDup vs /\ (forall v, v ∈ vs -> v ∉ seen).
Proof.
  revert seen; induction ps as [|p ps IH]; intros seen H; cbn in H.
  - exists []. split; [done|]. split; [constructor|]. by intros v Hv%elem_of_nil.
  - split_flow_in H. bool_simpl. apply IH in H as (vs & Hvs & Hnd & Hfresh).
    destruct (asns p) as [|a l] eqn:Ea; [discriminate|]. injection Hc0 as ->.
    destruct l as [|]; cbn in *; [|lia].
    exists (z :: vs). rewrite fmap_cons, Ea, Hvs. split; [done|]. split.
    + constructor; [|done]. intros Hz. apply (Hfresh z Hz). set_solver.
    + intros v [->|Hv]%elem_of_cons; [done|]. specialize (Hfresh v Hv). set_solver.
Qed.

(** The segments start at their markers and tile the pages from the first label
    to the end. *)
Lemma split_segments_tile total lo ps segs :
  ps <> [] -> increasing lo total ps -> split_segments total ps = Ok segs ->
  concat (Pages <$> segs) =
    seqZ (default 1 (page <$> head ps)) (total - default 1 (page <$> head ps) + 1) /\
  (fun s => (Start s, MarkerPage s, Some (ASN s))) <$> segs =
    (fun p => (page p, page p, head (asns p))) <$> ps /\
  Forall (fun s => Start s <= End_ s) segs.
Proof.
  revert lo segs; induction ps as [|p ps IH]; intros lo segs Hne Hinc H; [done|].
  cbn [split_segments] in H. destruct (head (asns p)) as [a|] eqn:Ea; [|discriminate H].
  inv_ok H. injection H as <-. cbn [increasing] in Hinc. destruct Hinc as [Hp Hinc].
  destruct ps as [|q ps].
  - cbn in Ha. injection Ha as <-. cbn. rewrite Ea, app_nil_r.
    split; [done|]. split; [done|]. repeat constructor. cbn. lia.
  - destruct (IH _ _ ltac:(done) Hinc Ha) as (Hc & Hm & Hf). cbn [increasing] in Hinc.
    rewrite !fmap_cons, concat_cons, Hc, Hm, Ea. split_and!.
    + cbn. unfold Pages. cbn.
      replace (total - page p + 1) with ((page q - 1 - page p + 1) + (total - page q + 1)) by lia.
      rewrite (seqZ_app _ (page q - 1 - page p + 1)) by lia. do 2 f_equal. lia.
    + done.
    + constructor; cbn; [lia|done].
Qed.

Lemma labels_of_segments (segs : list Segment) (ps : list pageSymbols) (vs : list Z) :
  (fun s => (Start s, MarkerPage s, Some (ASN s))) <$> segs =
    (fun p => (page p, page p, head (asns p))) <$> ps ->
  asns <$> ps = (fun v => [v]) <$> vs ->
  ASN <$> segs = vs /\
  (fun s => (Start s, MarkerPage s, [ASN s])) <$> segs = (fun p => (page p, page p, asns p)) <$> ps.
Proof.
  revert segs vs; induction ps as [|p ps IH]; intros [|s segs] [|v vs] Hm Hv; try done.
  cbn in Hm, Hv. injection Hm as Hs Hmk Ha Hm. injection Hv as Hp Hv.
  destruct (IH _ _ Hm Hv) as [<- H2]. cbn. rewrite H2.
  rewrite Hp in Ha. injection Ha as ->. rewrite Hp. split; [done|]. congruence.
Qed.

(** C27: in split mode the retained segments partition the document: every page from
    1 to [total] lies in exactly one segment, each segment begins at its label
    page, and no two segments carry the same serial number. *)
Theorem split_plan_partition total pages opts out :
  page <$> pages = seqZ 1 total -> Forall page_wf pages ->
  planPages total pages opts = Ok out -> RMode out = ModeASNSplit ->
  concat (Pages <$> Segments out) = seqZ 1 total /\
  NoDup (ASN <$> Segments out) /\
  (fun s => (Start s, MarkerPage s, [ASN s])) <$> Segments out =
    (fun p => (page p, page p, asns p)) <$> filter (fun p => asnLooking p = true) pages.
Proof.
  intros Hpages Hwf H Hmode. unfold planPages in H. rewrite collect_pages_spec in H.
  cbn [orb app] in H.
  pose proof (labelled_pages pages Hwf) as Hl.
  assert (Hinc : increasing 1 total (filter (fun p => asnLooking p = true) pages)).
  { destruct (decide (0 <= total)).
    - replace total with (1 + Z.of_nat (Z.to_nat total) - 1) by lia.
      apply increasing_filter. rewrite Hpages. f_equal. lia.
    - rewrite seqZ_nil in Hpages by lia. by destruct pages. }
  set (ps := filter (fun p => asnLooking p = true) pages) in *. clearbody ps.
  split_flow_in H; try (injection H as <-; discriminate Hmode).
  bool_simpl. inv_ok H. injection H as <-. cbn. destruct a.
  apply split_check_ok in Ha as (vs & Hvs & Hnd & _).
  destruct (split_segments_tile total 1 (p :: l) a0 ltac:(done) Hinc Ha0) as (Hc' & Hm & _).
  destruct (labels_of_segments _ _ _ Hm Hvs) as [-> ->].
  split; [|done]. rewrite Hc'. cbn. rewrite H1. f_equal. lia.
Qed.

(** Two labelled pages, three pages in all. *)
Definition split_demo : list pageSymbols :=
  [mkPage 1 false [7] true false; mkPage 2 false [] false false; mkPage 3 false [9] true false].
Definition split_demo_opts : Options := mkOptions "" 0 0 false "" ASNModeSplit "ASN".
Definition split_demo_plan : Result :=
  mkResult ModeASNSplit [mkSegment 1 2 7 1; mkSegment 3 3 9 3] [] 3 false.

Lemma split_plan_partition_witness :
  planPages 3 split_demo split_demo_opts = Ok split_demo_plan /\
  concat (Pages <$> Segments split_demo_plan) = seqZ 1 3.
Proof.
  split; [reflexivity|].
  apply (split_plan_partition 3 split_demo split_demo_opts split_demo_plan).
  - reflexivity.
  - repeat apply Forall_cons_2; try apply Forall_nil_2;
      intros H; try discriminate H; right; discriminate.
  - reflexivity.
  - reflexivity.
Defined.
