(* ===== verification/GoTime.v ===== *)
(** Calendar dates as Go's [time] package reads, prints and counts them for the
    layout ["2006-01-02"], and [intelligence.ValidateSortValue]. *)
From S2P Require Import Prelude GoStd.

(** Year, month and day. *)
Definition date : Type := Z * Z * Z.

Definition leap (y : Z) : bool :=
  (y mod 4 =? 0) && (negb (y mod 100 =? 0) || (y mod 400 =? 0)).

Definition days_in (y m : Z) : Z :=
  if m =? 2 then (if leap y then 29 else 28)
  else if (m =? 4) || (m =? 6) || (m =? 9) || (m =? 11) then 30 else 31.

Definition valid_date (d : date) : bool :=
  let '(y, m, d) := d in
  (0 <=? y) && (y <=? 9999) && (1 <=? m) && (m <=? 12) && (1 <=? d) && (d <=? days_in y m).

(** [time.Parse]: the layout's year is four digits, its month and day two. *)
Definition two (a b : ascii) : Z := 10 * digit_val a + digit_val b.

Definition parse_date (s : string) : option date :=
  match s with
  | String a (String b (String c (String d (String s1 (String e (String f
      (String s2 (String g (String h EmptyString))))))))) =>
      if is_digit a && is_digit b && is_digit c && is_digit d && is_digit e && is_digit f
         && is_digit g && is_digit h
         && bool_decide (s1 = "-"%char) && bool_decide (s2 = "-"%char)
      then
        let dt := (100 * two a b + two c d, two e f, two g h) in
        if valid_date dt then Some dt else None
      else None
  | _ => None
  end.

(** [Time.Format]. *)
Definition two_digits (n : Z) : string :=
  String (digit_chr (n / 10 mod 10)) (String (digit_chr (n mod 10)) "").
Definition format_date (dt : date) : string :=
  let '(y, m, d) := dt in
  two_digits (y / 100) +:+ two_digits y +:+ "-" +:+ two_digits m +:+ "-" +:+ two_digits d.

(** [Time.Unix] of midnight UTC: days since 1970-01-01 in the proleptic Gregorian
    calendar, counted in 400-year eras that start in March. *)
Definition days_from_civil (dt : date) : Z :=
  let '(y, m, d) := dt in
  let y := if m <=? 2 then y - 1 else y in
  let era := y / 400 in
  let yoe := y mod 400 in
  let mp := (m + 9) mod 12 in
  let doy := (153 * mp + 2) / 5 + d - 1 in
  let doe := yoe * 365 + yoe / 4 - yoe / 100 + doy in
  era * 146097 + doe - 719468.
Definition date_unix (dt : date) : Z := days_from_civil dt * 86400.

Lemma two_range a b : is_digit a = true -> is_digit b = true -> 0 <= two a b <= 99.
Proof. intros Ha Hb. apply digit_val_range in Ha, Hb. unfold two. lia. Qed.

Lemma two_digits_two a b k :
  is_digit a = true -> is_digit b = true -> two_digits (100 * k + two a b) = String a (String b "").
Proof.
  intros Ha Hb. unfold two_digits, two. apply digit_val_range in Ha as Ha', Hb as Hb'.
  replace ((100 * k + (10 * digit_val a + digit_val b)) / 10 mod 10) with (digit_val a)
    by (Z.to_euclidean_division_equations; lia).
  replace ((100 * k + (10 * digit_val a + digit_val b)) mod 10) with (digit_val b)
    by (Z.to_euclidean_division_equations; lia).
  unfold digit_chr, digit_val. rewrite !Zplus_minus. by rewrite !chr_byte_val.
Qed.

(** Whatever parses is printed back unchanged. *)
Lemma format_parse_date s dt : parse_date s = Some dt -> format_date dt = s.
Proof.
  intros H. unfold parse_date in H. guards_in H. injection H as <-. bool_simpl. subst.
  unfold format_date.
  match goal with |- two_digits ((100 * two ?a ?b + two ?c ?d) / 100) +:+ _ = _ =>
    replace ((100 * two a b + two c d) / 100) with (100 * 0 + two a b) end.
  2: { match goal with |- _ = (100 * two ?a ?b + two ?c ?d) / 100 =>
         pose proof (two_range a b ltac:(done) ltac:(done));
         pose proof (two_range c d ltac:(done) ltac:(done)) end.
       Z.to_euclidean_division_equations. lia. }
  rewrite !two_digits_two by done.
  repeat match goal with |- context [two_digits (two ?a ?b)] =>
    rewrite (two_digits_two a b 0 : _ -> _ -> two_digits (two a b) = _) by done end.
  reflexivity.
Qed.

Lemma parse_date_valid s dt : parse_date s = Some dt -> valid_date dt = true.
Proof. intros H. unfold parse_date in H. guards_in H. by injection H as <-. Qed.

(** [intelligence.ValidateSortValue] of the type [date]. *)
Definition ValidateSortValue (value : string) : bool :=
  if bool_decide (value = "") then true
  else match parse_date value with
       | Some dt => bool_decide (format_date dt = value)
       | None => false
       end.

Definition DateRoles : list string :=
  ["issued"; "due"; "start"; "end"; "expiry"; "renewal"; "service"; "other"].
Definition ValidDateRole (role : string) : bool := existsb (String.eqb role) DateRoles.

(** The next day is one day later: the day count agrees with the calendar. *)
Definition next_day (dt : date) : date :=
  let '(y, m, d) := dt in
  if d <? days_in y m then (y, m, d + 1)
  else if m <? 12 then (y, m + 1, 1) else (y + 1, 1, 1).

Lemma days_from_civil_next dt :
  valid_date dt = true -> days_from_civil (next_day dt) = days_from_civil dt + 1.
Proof.
  destruct dt as [[y m] d]. unfold valid_date. intros H. bool_simpl.
  assert (Hm : m = 1 \/ m = 2 \/ m = 3 \/ m = 4 \/ m = 5 \/ m = 6 \/ m = 7 \/ m = 8 \/ m = 9 \/
               m = 10 \/ m = 11 \/ m = 12) by lia.
  unfold next_day, days_from_civil, days_in, leap in *.
  decompose [or] Hm; subst m; cbn [Z.eqb Pos.eqb orb Z.ltb Z.leb Z.compare Pos.compare Pos.compare_cont] in *;
    repeat match goal with
    | |- context [?a <? ?b] => destruct (Z.ltb_spec a b)
    | |- context [?a <=? ?b] => destruct (Z.leb_spec a b); try lia
    | |- context [?a =? ?b] => destruct (Z.eqb_spec a b)
    | H : context [?a =? ?b] |- _ => destruct (Z.eqb_spec a b)
    end; cbn [andb orb negb Z.leb Z.compare Pos.compare Pos.compare_cont] in *;
    try (Z.to_euclidean_division_equations; lia).
Qed.

(** * Dates of Unix seconds *)

(** Year, month and day of a day count, the inverse of [days_from_civil]. *)
Definition civil_from_days (n : Z) : date :=
  let z := n + 719468 in
  let era := z / 146097 in
  let doe := z mod 146097 in
  let yoe := (doe - doe / 1460 + doe / 36524 - doe / 146096) / 365 in
  let doy := doe - (365 * yoe + yoe / 4 - yoe / 100) in
  let mp := (5 * doy + 2) / 153 in
  let m := if mp <? 10 then mp + 3 else mp - 9 in
  (era * 400 + yoe + (if m <=? 2 then 1 else 0), m, doy - (153 * mp + 2) / 5 + 1).

(** [Time.UTC]: the seconds are counted, modulo 2^64, from 1 March of the year
    -292277022400. *)
Definition absolute_days : Z := 730692556 * 146097 + 719468.
Definition unix_date (sec : Z) : date :=
  civil_from_days (wrap_u64 (sec + absolute_days * 86400) / 86400 - absolute_days).

(** [appendInt] of a year, to four digits at least. *)
Definition format_year (y : Z) : string :=
  (if y <? 0 then "-" else "") +:+
  (if Z.abs y <? 10000 then two_digits (Z.abs y / 100) +:+ two_digits (Z.abs y) else FormatInt (Z.abs y)).
Definition format_unix (sec : Z) : string :=
  let '(y, m, d) := unix_date sec in
  format_year y +:+ "-" +:+ two_digits m +:+ "-" +:+ two_digits d.

Definition real_date (dt : date) : bool :=
  let '(y, m, d) := dt in (1 <=? m) && (m <=? 12) && (1 <=? d) && (d <=? days_in y m).

Lemma leap_shift y k : leap (y + 400 * k) = leap y.
Proof.
  unfold leap. replace ((y + 400 * k) mod 4) with (y mod 4) by (Z.to_euclidean_division_equations; lia).
  replace ((y + 400 * k) mod 100) with (y mod 100) by (Z.to_euclidean_division_equations; lia).
  by replace ((y + 400 * k) mod 400) with (y mod 400) by (Z.to_euclidean_division_equations; lia).
Qed.

Lemma civil_shift n k :
  civil_from_days (n + 146097 * k) = let '(y, m, d) := civil_from_days n in (y + 400 * k, m, d).
Proof.
  unfold civil_from_days. replace ((n + 146097 * k + 719468) mod 146097) with ((n + 719468) mod 146097)
    by (Z.to_euclidean_division_equations; lia).
  replace ((n + 146097 * k + 719468) / 146097) with ((n + 719468) / 146097 + k)
    by (Z.to_euclidean_division_equations; lia).
  cbv zeta. f_equal. f_equal. lia.
Qed.

Lemma days_shift y m d k : days_from_civil (y + 400 * k, m, d) = days_from_civil (y, m, d) + 146097 * k.
Proof.
  unfold days_from_civil. set (y' := if m <=? 2 then y + 400 * k - 1 else y + 400 * k).
  set (y0 := if m <=? 2 then y - 1 else y). cbv zeta.
  replace y' with (y0 + 400 * k) by (subst y' y0; destruct (m <=? 2); lia).
  replace ((y0 + 400 * k) / 400) with (y0 / 400 + k) by (Z.to_euclidean_division_equations; lia).
  replace ((y0 + 400 * k) mod 400) with (y0 mod 400) by (Z.to_euclidean_division_equations; lia). lia.
Qed.

(** The year of an era's day is monotone in the day, so its first and last days
    decide it. *)
Definition year_of_era (doe : Z) : Z := (doe - doe / 1460 + doe / 36524 - doe / 146096) / 365.
Definition year_start (yoe : Z) : Z := yoe * 365 + yoe / 4 - yoe / 100.
Definition last_doy (yoe : Z) : Z := if leap (yoe + 1) then 365 else 364.

Lemma year_of_era_mono a b : 0 <= a <= b -> year_of_era a <= year_of_era b.
Proof. intros H. unfold year_of_era. apply Z.div_le_mono; [lia|]. Z.to_euclidean_division_equations. lia. Qed.

Lemma era_bounds : forallb (fun yoe =>
    (year_of_era (year_start yoe) =? yoe) && (year_of_era (year_start yoe + last_doy yoe) =? yoe) &&
    (year_start yoe + last_doy yoe <? 146097)) (seqZ 0 400) = true.
Proof. vm_cast_no_check (eq_refl true). Qed.

Lemma year_of_era_start yoe doy :
  0 <= yoe < 400 -> 0 <= doy <= last_doy yoe ->
  year_of_era (year_start yoe + doy) = yoe /\ 0 <= year_start yoe + doy < 146097.
Proof.
  intros Hy Hd. pose proof era_bounds as G. rewrite forallb_forall in G.
  specialize (G yoe ltac:(apply list_elem_of_In, elem_of_seqZ; lia)). bool_simpl.
  assert (0 <= year_start yoe) by (unfold year_start; Z.to_euclidean_division_equations; lia).
  pose proof (year_of_era_mono (year_start yoe) (year_start yoe + doy) ltac:(lia)).
  pose proof (year_of_era_mono (year_start yoe + doy) (year_start yoe + last_doy yoe) ltac:(lia)). lia.
Qed.

Lemma civil_days dt : real_date dt = true -> civil_from_days (days_from_civil dt) = dt.
Proof.
  destruct dt as [[y m] d]. intros H. unfold days_from_civil. cbv zeta.
  set (y1 := if m <=? 2 then y - 1 else y). set (mp := (m + 9) mod 12). set (yoe := y1 mod 400).
  set (doy := (153 * mp + 2) / 5 + d - 1).
  assert (Hm : 1 <= m <= 12 /\ 1 <= d <= days_in y m) by (unfold real_date in H; bool_simpl; lia).
  assert (Hdoy : 0 <= doy <= last_doy yoe /\ (5 * doy + 2) / 153 = mp).
  { assert (Hl : leap (yoe + 1) = leap (y1 + 1)).
    { rewrite <- (leap_shift (yoe + 1) (y1 / 400)). f_equal. subst yoe. Z.to_euclidean_division_equations. lia. }
    unfold last_doy. rewrite Hl. subst doy mp y1. unfold days_in in Hm. clear Hl H yoe.
    assert (C : m = 1 \/ m = 2 \/ m = 3 \/ m = 4 \/ m = 5 \/ m = 6 \/ m = 7 \/ m = 8 \/ m = 9 \/
               m = 10 \/ m = 11 \/ m = 12) by lia.
    decompose [or] C; subst m; cbn [Z.eqb Pos.eqb orb Z.leb Z.compare Pos.compare Pos.compare_cont] in *;
      try replace (y - 1 + 1) with y by lia;
      repeat match goal with |- context [if ?b then _ else _] => destruct b end;
      Z.to_euclidean_division_equations; lia. }
  destruct Hdoy as [Hdoy Hmp].
  assert (Hy : 0 <= yoe < 400) by (subst yoe; Z.to_euclidean_division_equations; lia).
  destruct (year_of_era_start yoe doy Hy Hdoy) as [Hyoe Hdoe].
  unfold civil_from_days. cbv zeta.
  fold (year_start yoe). set (doe := year_start yoe + doy) in *.
  replace (y1 / 400 * 146097 + doe - 719468 + 719468) with (doe + y1 / 400 * 146097) by lia.
  rewrite Z.div_add, Z.mod_add by lia. rewrite (Z.div_small doe), (Z.mod_small doe) by lia.
  fold (year_of_era doe). rewrite Hyoe. fold (year_start yoe).
  replace (doe - (365 * yoe + yoe / 4 - yoe / 100)) with doy by (subst doe; unfold year_start; lia).
  rewrite Hmp. replace (if mp <? 10 then mp + 3 else mp - 9) with m.
  2: { subst mp. destruct (Z.ltb_spec ((m + 9) mod 12) 10); Z.to_euclidean_division_equations; lia. }
  f_equal; [f_equal|]; [|subst doy; lia].
  subst yoe y1. destruct (m <=? 2); Z.to_euclidean_division_equations; lia.
Qed.

Lemma valid_real dt : valid_date dt = true -> real_date dt = true.
Proof. destruct dt as [[y m] d]. unfold valid_date, real_date. intros H. bool_simpl. rewrite !andb_true_iff, !Z.leb_le. tauto. Qed.

Lemma days_range dt : valid_date dt = true -> -719528 <= days_from_civil dt <= 2932896.
Proof.
  destruct dt as [[y m] d]. unfold valid_date. intros H. bool_simpl.
  assert (Hd : 1 <= d <= 31) by (unfold days_in in *; repeat match goal with H : context [if ?b then _ else _] |- _ => destruct b end; lia).
  unfold days_from_civil. cbv zeta.
  assert (C : m = 1 \/ m = 2 \/ m = 3 \/ m = 4 \/ m = 5 \/ m = 6 \/ m = 7 \/ m = 8 \/ m = 9 \/
               m = 10 \/ m = 11 \/ m = 12) by lia.
  decompose [or] C; subst m; cbn [Z.leb Z.compare Pos.compare Pos.compare_cont];
    Z.to_euclidean_division_equations; lia.
Qed.

(** A date that [time.Parse] reads is the date [Format] prints of its Unix time. *)
Lemma format_unix_date s dt : parse_date s = Some dt -> format_unix (date_unix dt) = s.
Proof.
  intros H. rewrite <- (format_parse_date s dt H). apply parse_date_valid in H.
  pose proof (days_range dt H) as Hr. unfold format_unix, unix_date, wrap_u64, date_unix, absolute_days.
  rewrite <- Z.mul_add_distr_r, Z.mod_small by lia. rewrite Z.div_mul by lia.
  replace (days_from_civil dt + _ - _) with (days_from_civil dt) by lia.
  rewrite civil_days by (by apply valid_real). destruct dt as [[y m] d]. unfold valid_date in H. bool_simpl.
  unfold format_year, format_date. rewrite (proj2 (Z.ltb_ge y 0)), (proj2 (Z.ltb_lt (Z.abs y) 10000)), Z.abs_eq by lia.
  by rewrite append_nil_l, <- !append_assoc.
Qed.
