(* ===== verification/Jobs.v ===== *)
(** The durable outbox dispatcher ([core/jobs/jobs.go], with the operator's
    retry and dismissal of dead rows from [core/api/tasks.go]): the jobs table
    and its state machine, claiming, backoff, finalisation and reclamation. *)
From S2P Require Import Prelude GoStd Sqlite.

(** * Constants; durations and instants are nanoseconds, as [time.Duration] *)
Definition Millisecond : Z := 1000000.
Definition Second : Z := 1000 * Millisecond.
Definition Minute : Z := 60 * Second.
Definition Hour : Z := 60 * Minute.

Definition MaxAttempts : Z := 5.
Definition BaseBackoff : Z := 5 * Second.
Definition MaxBackoff : Z := 30 * Minute.
Definition PollInterval : Z := 5 * Second.
Definition DoneRetention : Z := 7 * 24 * Hour.
Definition donePruneInterval : Z := 24 * Hour.
Definition finalizationBaseBackoff : Z := 50 * Millisecond.
Definition finalizationAttempts : Z := 6.

(** [time.Time.Unix] and SQLite's [unixepoch()]. *)
Definition Unix (t : Z) : Z := t / Second.

(** * The jobs table *)
Inductive job_state : Type := Pending | Running | Done | Dead.
#[export] Instance job_state_eq_dec : EqDecision job_state.
Proof. solve_decision. Defined.

Record job : Type := Job {
  j_kind : string;
  j_doc_id : option Z;
  j_system_id : option Z;
  j_payload : string;
  j_state : job_state;
  j_attempts : Z;
  j_next_run_at : Z;
  j_last_error : option string;
  j_created_at : Z;
  j_updated_at : Z;
}.
#[export] Instance job_eq_dec : EqDecision job.
Proof. solve_decision. Defined.

(** The audit rows that the dispatcher and the operator's handlers ask for. *)
Inductive audit_event : Type :=
  | JobsReclaimed (count : Z)
  | JobDead (system : Z) (id : Z) (kind : string) (attempts : Z) (error : string)
      (doc : option Z)
  | JobRetry (system : Z) (id : Z) (kind : string) (doc : Z)
  | JobDismiss (system : Z) (id : Z) (kind : string) (doc : Z).

(** The tables the package reads and writes: [jobs], the (id, system_id)
    columns of [documents], and the audit rows appended so far. *)
Record store : Type := Store {
  jobs : gmap Z job;
  documents : gmap Z Z;
  audit : list audit_event;
}.

Definition with_jobs (f : gmap Z job -> gmap Z job) (s : store) : store :=
  Store (f (jobs s)) (documents s) (audit s).
Definition log_audit (e : audit_event) (s : store) : store :=
  Store (jobs s) (documents s) (audit s ++ [e]).

(** * Enqueue *)
Inductive enqueue_error : Type := InvalidOwnership | DocumentUnavailable.
#[export] Instance enqueue_error_eq_dec : EqDecision enqueue_error.
Proof. solve_decision. Defined.

Definition nullInt64 (v : Z) : option Z := if v =? 0 then None else Some v.

Definition Enqueue (now : Z) (kind : string) (docID systemID : Z) (payload : string)
    (s : store) : result enqueue_error store :=
  fail_if (docID <? 0) || (systemID <? 0) || ((0 <? docID) && (systemID =? 0))
    with InvalidOwnership in
  let payload := if bool_decide (payload = "") then "{}" else payload in
  let t := Unix now in
  require (docID =? 0) || bool_decide (documents s !! docID = Some systemID)
    else DocumentUnavailable in
  Ok (with_jobs (<[next_rowid (jobs s) :=
        Job kind (nullInt64 docID) (nullInt64 systemID) payload Pending 0 t None t t]>) s).

(** * Claim *)
Record row : Type := Row {
  r_ID : Z;
  r_Kind : string;
  r_DocID : option Z;
  r_SystemID : option Z;
  r_Payload : string;
  r_Attempts : Z;
}.
#[export] Instance row_eq_dec : EqDecision row.
Proof. solve_decision. Defined.

Definition row_of (p : Z * job) : row :=
  Row (fst p) (j_kind (snd p)) (j_doc_id (snd p)) (j_system_id (snd p))
      (j_payload (snd p)) (j_attempts (snd p)).

Definition due (t : Z) (p : Z * job) : bool :=
  bool_decide (j_state (snd p) = Pending) && (j_next_run_at (snd p) <=? t).

Definition set_running (t : Z) (j : job) : job :=
  Job (j_kind j) (j_doc_id j) (j_system_id j) (j_payload j) Running (j_attempts j)
      (j_next_run_at j) (j_last_error j) (j_created_at j) t.

Definition claim_batch : nat := 8.

(** The query engine's answer to [ORDER BY next_run_at LIMIT n], in the order
    in which [RETURNING] hands the rows back (neither ties nor that order are
    fixed by SQL): [select n l] picks [n] rows of [l] with least due times. *)
Definition selection (n : nat) (l sel : list (Z * job)) : Prop :=
  exists rest, l ≡ₚ sel ++ rest /\ length sel = Nat.min n (length l) /\
    Forall (fun p => Forall (fun q =>
      j_next_run_at (snd p) <= j_next_run_at (snd q)) rest) sel.

Definition claim (select : nat -> list (Z * job) -> list (Z * job)) (now : Z) (s : store)
    : list row * store :=
  let t := Unix now in
  let sel := select claim_batch (filter (fun p => due t p = true) (map_to_list (jobs s))) in
  (row_of <$> sel,
   with_jobs (fun m => foldr (fun p m => <[fst p := set_running t (snd p)]> m) m sel) s).

(** * Finalisation *)

(** What the world answers while a transition is being made durable: whether the
    n-th write succeeds, and whether the context or [Stop] ends the n-th wait. *)
Record finalize_env : Type := FinalizeEnv {
  write_ok : Z -> bool;
  interrupted : Z -> bool;
}.

Inductive finalize_result : Type := Durable | RetriesExhausted | StoppedEarly.
#[export] Instance finalize_result_eq_dec : EqDecision finalize_result.
Proof. solve_decision. Defined.

(** The loop of [finalize]: the outcome, the writes made and the time spent in
    backoff; [None] when the fuel runs out. *)
Fixpoint finalize_loop (fuel : nat) (env : finalize_env) (attempt backoff waited : Z)
    : option (finalize_result * Z * Z) :=
  match fuel with
  | O => None
  | S fuel =>
      if write_ok env attempt then Some (Durable, attempt, waited)
      else if finalizationAttempts <=? attempt then Some (RetriesExhausted, attempt, waited)
      else if interrupted env attempt then Some (StoppedEarly, attempt, waited)
      else finalize_loop fuel env (attempt + 1) (backoff * 2) (waited + backoff)
  end.

(** [finalize]: [write] is applied once, by the write that succeeds. *)
Definition finalize (env : finalize_env) (write : store -> store) (s : store) : bool * store :=
  match finalize_loop (Z.to_nat finalizationAttempts) env 1 finalizationBaseBackoff 0 with
  | Some (Durable, _, _) => (true, write s)
  | _ => (false, s)
  end.

(** [UPDATE jobs SET ... WHERE id=?] *)
Definition update_row (f : job -> job) (id : Z) (s : store) : store :=
  with_jobs (alter f id) s.

(** The three rows a transition can write over [j]. *)
Definition done_row (now : Z) (j : job) : job :=
  Job (j_kind j) (j_doc_id j) (j_system_id j) (j_payload j) Done (j_attempts j)
      (j_next_run_at j) (j_last_error j) (j_created_at j) (Unix now).
Definition retry_row (now attempts next : Z) (msg : string) (j : job) : job :=
  Job (j_kind j) (j_doc_id j) (j_system_id j) (j_payload j) Pending attempts
      next (Some msg) (j_created_at j) (Unix now).
Definition dead_row (now : Z) (msg : string) (j : job) : job :=
  Job (j_kind j) (j_doc_id j) (j_system_id j) (j_payload j) Dead (j_attempts j)
      (j_next_run_at j) (Some msg) (j_created_at j) (Unix now).

Definition markDone (env : finalize_env) (now : Z) (r : row) (s : store) : store :=
  snd (finalize env (update_row (done_row now) (r_ID r)) s).

(** [time.Duration(math.Pow(2, float64(attempts-1)))*BaseBackoff], capped; the
    power is exact and converts for every count the dispatcher passes. *)
Definition retry_backoff (attempts : Z) : Z :=
  Z.min (wrap_i64 (2 ^ (attempts - 1) * BaseBackoff)) MaxBackoff.

Definition markRetry (env : finalize_env) (now : Z) (r : row) (attempts : Z) (msg : string)
    (s : store) : store :=
  let next := Unix (now + retry_backoff attempts) in
  snd (finalize env (update_row (retry_row now attempts next msg) (r_ID r)) s).

Definition truncated (msg : string) : string :=
  if Z.of_nat (String.length msg) <=? 512 then msg
  else stake 512 msg +:+ "…(truncated)".

Definition markDead (env : finalize_env) (now : Z) (r : row) (msg : string) (s : store)
    : store :=
  let '(durable, s) := finalize env (update_row (dead_row now msg) (r_ID r)) s in
  if negb durable then s
  else log_audit (JobDead (default 0 (r_SystemID r)) (r_ID r) (r_Kind r) (r_Attempts r)
                    (truncated msg) (r_DocID r)) s.

(** * Running one job *)

(** [pluginapi.Event] as the dispatcher fills it. *)
Record event : Type := Event {
  e_Kind : string;
  e_DocID : Z;
  e_SystemID : Z;
  e_Time : Z;
  e_raw : string;
}.

Record handler_error : Type := HandlerError {
  he_msg : string;
  he_terminal : bool; (* errors.Is(err, ErrTerminal) *)
}.

(** A subscriber's [Handle]: it may write to the database and may fail. *)
Definition handler : Type := event -> store -> store * option handler_error.

(** [Register] appends a subscriber under each kind that it declares. *)
Definition registry : Type := gmap string (list handler).
Definition Register (kinds : list string) (h : handler) (subs : registry) : registry :=
  foldl (fun m k => <[k := default [] (m !! k) ++ [h]]> m) subs kinds.

Definition event_of (now : Z) (r : row) : event :=
  Event (r_Kind r) (default 0 (r_DocID r)) (default 0 (r_SystemID r)) now (r_Payload r).

(** Every subscriber runs; the last error wins. *)
Fixpoint run_handlers (subs : list handler) (e : event) (s : store)
    (lastErr : option handler_error) : store * option handler_error :=
  match subs with
  | [] => (s, lastErr)
  | h :: subs =>
      let '(s, err) := h e s in
      run_handlers subs e s (match err with Some _ => err | None => lastErr end)
  end.

Definition runJob (subs : registry) (env : finalize_env) (now : Z) (r : row) (s : store)
    : store :=
  match default [] (subs !! r_Kind r) with
  | [] => markDead env now r ("no subscriber registered for kind " +:+ r_Kind r) s
  | hs =>
      let '(s, lastErr) := run_handlers hs (event_of now r) s None in
      match lastErr with
      | None => markDone env now r s
      | Some err =>
          if he_terminal err then markDead env now r (he_msg err) s
          else if MaxAttempts <=? r_Attempts r + 1 then markDead env now r (he_msg err) s
          else markRetry env now r (r_Attempts r + 1) (he_msg err) s
      end
  end.

(** * Boot reclamation, pruning, and the operator's actions on dead rows *)

Definition count_state (st : job_state) (m : gmap Z job) : nat :=
  size (filter (fun p => j_state (snd p) = st) m).

Definition ReclaimOrphaned (now : Z) (s : store) : Z * store :=
  let t := Unix now in
  let affected := Z.of_nat (count_state Running (jobs s)) in
  let s' := with_jobs (fmap (fun j =>
    if bool_decide (j_state j = Running) then
      Job (j_kind j) (j_doc_id j) (j_system_id j) (j_payload j) Pending (j_attempts j)
          t (j_last_error j) (j_created_at j) t
    else j)) s in
  (affected, if 0 <? affected then log_audit (JobsReclaimed affected) s' else s').

Definition prunable (cutoff : Z) (j : job) : bool :=
  bool_decide (j_state j = Done) && (j_updated_at j <? cutoff).

Definition pruneDone (now : Z) (s : store) : Z * store :=
  let cutoff := Unix (now - DoneRetention) in
  (Z.of_nat (size (filter (fun p => prunable cutoff (snd p) = true) (jobs s))),
   with_jobs (filter (fun p => prunable cutoff (snd p) = false)) s).

(** The statement of [core/trash/trash.go] that removes the jobs of purged
    documents, whatever their state. *)
Definition purge_jobs (ids : list Z) (s : store) : store :=
  with_jobs (filter (fun p =>
    match j_doc_id (snd p) with Some d => bool_decide (d ∈ ids) | None => false end = false)) s.

(** [mutateDeadJob] once the caller is a current administrator of [systemID];
    [None] is [sql.ErrNoRows]. *)
Definition mutateDeadJob (now : Z) (systemID id : Z) (dismiss : bool) (s : store)
    : option ((string * Z) * store) :=
  match jobs s !! id with
  | None => None
  | Some j =>
      if bool_decide (j_system_id j = Some systemID) && bool_decide (j_state j = Dead) then
        Some ((j_kind j, default 0 (j_doc_id j)),
              if dismiss then with_jobs (delete id) s
              else update_row (fun j =>
                Job (j_kind j) (j_doc_id j) (j_system_id j) (j_payload j) Pending 0
                    (Unix now) None (j_created_at j) (Unix now)) id s)
      else None
  end.

(** * The polling loop *)

(** One pass of [Run]'s loop up to its idle wait: prune when the prune instant
    has come, claim, run the claimed rows in order. [nextPrune] starts at the
    zero time, which every clock reading is past. [claim_fails] and
    [prune_fails] are the database errors, which the loop only logs. *)
Record pass_env : Type := PassEnv {
  pe_now : Z;
  pe_select : nat -> list (Z * job) -> list (Z * job);
  pe_prune_fails : bool;
  pe_claim_fails : bool;
  pe_finalize : Z -> finalize_env; (* per job *)
}.

Definition runBatch (subs : registry) (env : pass_env) (batch : list row) (s : store) : store :=
  foldl (fun s r => runJob subs (pe_finalize env (r_ID r)) (pe_now env) r s) s batch.

(** Returns the new store, the next prune instant, and whether the loop now
    waits ([false]: it polls again at once). *)
Definition run_pass (subs : registry) (env : pass_env) (nextPrune : Z) (s : store)
    : store * Z * bool :=
  let now := pe_now env in
  let '(s, nextPrune) :=
    if now <? nextPrune then (s, nextPrune)
    else ((if pe_prune_fails env then s else snd (pruneDone now s)), now + donePruneInterval) in
  if pe_claim_fails env then (s, nextPrune, true)
  else
    let '(batch, s) := claim (pe_select env) now s in
    match batch with
    | [] => (s, nextPrune, true)
    | _ => (runBatch subs env batch s, nextPrune, false)
    end.

(** * Lemmas *)

(** ** The finalisation loop *)

(** The n-th write is reached: the earlier ones failed and no wait was cut. *)
Definition write_reached (env : finalize_env) (n : Z) : Prop :=
  forall i, 1 <= i < n -> write_ok env i = false /\ interrupted env i = false.

Lemma finalize_loop_total fuel env attempt b w :
  1 <= attempt <= finalizationAttempts ->
  finalizationAttempts - attempt < Z.of_nat fuel ->
  exists o n w', finalize_loop fuel env attempt b w = Some (o, n, w') /\
    attempt <= n <= finalizationAttempts /\
    w' = w + b * (2 ^ (n - attempt) - 1) /\
    (forall i, attempt <= i < n -> write_ok env i = false /\ interrupted env i = false) /\
    match o with
    | Durable => write_ok env n = true
    | RetriesExhausted => n = finalizationAttempts /\ write_ok env n = false
    | StoppedEarly => n < finalizationAttempts /\ write_ok env n = false /\ interrupted env n = true
    end.
Proof.
  unfold finalizationAttempts.
  revert attempt b w; induction fuel as [|fuel IH]; intros attempt b w Ha Hf; [lia|].
  cbn [finalize_loop]. unfold finalizationAttempts. destruct (write_ok env attempt) eqn:Hw.
  { exists Durable, attempt, w. rewrite Z.sub_diag. split_and!; try done; try lia. }
  destruct (6 <=? attempt) eqn:Hl.
  { exists RetriesExhausted, attempt, w. bool_simpl. rewrite Z.sub_diag.
    split_and!; try done; try lia. }
  destruct (interrupted env attempt) eqn:Hi.
  { exists StoppedEarly, attempt, w. bool_simpl. rewrite Z.sub_diag.
    split_and!; try done; try lia. }
  bool_simpl.
  destruct (IH (attempt + 1) (b * 2) (w + b)) as (o & n & w' & He & Hn & Hw' & Hfail & Ho);
    [lia..|].
  exists o, n, w'. split_and!; try done; try lia.
  - rewrite Hw'. replace (n - attempt) with (Z.succ (n - (attempt + 1))) by lia.
    rewrite Z.pow_succ_r by lia. lia.
  - intros i Hr. destruct (decide (i = attempt)) as [->|]; [done|]. apply Hfail; lia.
Qed.

(** The transition is made durable: by some reachable write. *)
Definition finalizes (env : finalize_env) : Prop :=
  exists n, 1 <= n <= finalizationAttempts /\ write_reached env n /\ write_ok env n = true.

Lemma finalize_cases env write s :
  (finalizes env /\ finalize env write s = (true, write s)) \/
  (~ finalizes env /\ finalize env write s = (false, s)).
Proof.
  unfold finalize.
  destruct (finalize_loop_total (Z.to_nat finalizationAttempts) env 1
              finalizationBaseBackoff 0) as (o & n & w' & -> & Hn & _ & Hf & Ho);
    [unfold finalizationAttempts; lia..|].
  assert (Hnot : write_ok env n = false ->
                 (n = finalizationAttempts \/ interrupted env n = true) -> ~ finalizes env).
  { intros Hw Hend (m & Hm & Hr & Hok).
    destruct (Z.lt_trichotomy m n) as [Hlt|[->|Hgt]].
    - destruct (Hf m) as [Hx _]; [lia|congruence].
    - congruence.
    - destruct (Hr n) as [_ Hx]; [lia|]. destruct Hend as [->|Hend]; [lia|congruence]. }
  destruct o; [left|right|right].
  - split; [|done]. exists n. split_and!; [lia..|exact Hf|done].
  - destruct Ho as [-> Ho]. split; [|done]. apply Hnot; auto.
  - destruct Ho as (_ & Ho & Hi). split; [|done]. apply Hnot; auto.
Qed.

(** ** Well-formed tables *)

(** A row's counters and its ownership are coherent: fewer failed attempts than
    the limit, an error text exactly when something failed, and a document only
    together with its system. *)
Record job_ok (id : Z) (j : job) : Prop := JobOk {
  ok_id : 0 < id;
  ok_attempts : 0 <= j_attempts j < MaxAttempts;
  ok_error : j_last_error j = None <-> j_attempts j = 0 /\ j_state j <> Dead;
  ok_owner : forall d, j_doc_id j = Some d -> 0 < d /\ exists y, j_system_id j = Some y /\ 0 < y;
}.

Definition store_ok (s : store) : Prop := map_Forall job_ok (jobs s).

(** [s'] has exactly the running rows of [s]. *)
Definition same_running (s s' : store) : Prop :=
  forall id j, j_state j = Running -> jobs s !! id = Some j <-> jobs s' !! id = Some j.

#[export] Instance same_running_equiv : Equivalence same_running.
Proof.
  split.
  - intros s id j _. done.
  - intros s s' H id j Hj. by rewrite (H id j Hj).
  - intros s1 s2 s3 H1 H2 id j Hj. by rewrite (H1 id j Hj), (H2 id j Hj).
Qed.

(** What the dispatcher expects of a subscriber: it leaves the table well formed
    and neither starts nor touches a running row. *)
Class OutboxClient (h : handler) : Prop := {
  client_ok : forall e s, store_ok s -> store_ok (fst (h e s));
  client_running : forall e s, same_running s (fst (h e s));
}.

Lemma store_ok_insert id j s :
  job_ok id j -> store_ok s -> store_ok (with_jobs (<[id := j]>) s).
Proof. intros Hj Hs. apply map_Forall_insert_2; done. Qed.

Lemma store_ok_update f id s :
  (forall j, jobs s !! id = Some j -> job_ok id (f j)) -> store_ok s ->
  store_ok (update_row f id s).
Proof.
  intros Hf Hs i j. cbn. rewrite lookup_alter_Some. intros [(-> & j0 & H0 & ->)|[_ H]]; auto.
Qed.

(** *** Enqueue *)

Lemma Enqueue_Ok now kind d y p s s' :
  Enqueue now kind d y p s = Ok s' ->
  0 <= d /\ 0 <= y /\ (d <> 0 -> documents s !! d = Some y /\ 0 < y) /\
  s' = with_jobs (<[next_rowid (jobs s) :=
         Job kind (nullInt64 d) (nullInt64 y) (if bool_decide (p = "") then "{}" else p)
             Pending 0 (Unix now) None (Unix now) (Unix now)]>) s.
Proof.
  unfold Enqueue. intros H. cbn zeta in H. guards_in H. injection H as <-. bool_simpl.
  split_and!; [lia|lia| |done]. intros Hd. bool_cases. all: try lia. all: split; try done; try lia.
Qed.

Lemma Enqueue_ok now kind d y p s s' :
  store_ok s -> Enqueue now kind d y p s = Ok s' -> store_ok s'.
Proof.
  intros Hs H. apply Enqueue_Ok in H as (Hd & Hy & Hown & ->).
  apply store_ok_insert; [|done]. split; cbn.
  - apply next_rowid_pos.
  - unfold MaxAttempts; lia.
  - done.
  - unfold nullInt64. intros d' Hd'. destruct (d =? 0) eqn:E; [done|]. injection Hd' as <-.
    bool_simpl. destruct (Hown E) as [_ Hy0]. split; [lia|]. exists y.
    destruct (y =? 0) eqn:Ey; bool_simpl; [lia|done].
Qed.

Lemma Enqueue_running now kind d y p s s' :
  Enqueue now kind d y p s = Ok s' -> same_running s s'.
Proof.
  intros H. apply Enqueue_Ok in H as (_ & _ & _ & ->). intros id j Hj. cbn.
  rewrite lookup_insert_Some. split.
  - intros H. right. split; [|done]. intros <-. by rewrite next_rowid_None in H.
  - intros [[_ <-]|[_ H]]; done.
Qed.

(** Subscribers that only use the outbox satisfy the interface: the one that
    writes nothing, and the one that follows up with another job. *)
Definition silent_handler (err : option handler_error) : handler := fun _ s => (s, err).
#[export] Instance silent_client err : OutboxClient (silent_handler err).
Proof. split; [done|]. intros e s. reflexivity. Qed.

Definition follow_up_handler (kind : string) : handler := fun e s =>
  match Enqueue (e_Time e) kind (e_DocID e) (e_SystemID e) (e_raw e) s with
  | Ok s' => (s', None)
  | Err _ => (s, Some (HandlerError "enqueue" false))
  end.
#[export] Instance follow_up_client kind : OutboxClient (follow_up_handler kind).
Proof.
  split; intros e s; unfold follow_up_handler;
    destruct (Enqueue _ _ _ _ _ s) as [s'|] eqn:E; cbn; try done.
  - intros Hs. by eapply Enqueue_ok.
  - by eapply Enqueue_running.
Qed.

(** *** Updates of one row *)

Lemma update_lookup f id s : jobs (update_row f id s) !! id = f <$> jobs s !! id.
Proof. cbn. by rewrite lookup_alter_eq. Qed.

Lemma update_lookup_ne f id i s : i <> id -> jobs (update_row f id s) !! i = jobs s !! i.
Proof. intros H. cbn. by rewrite lookup_alter_ne. Qed.

(** *** Handlers *)

Lemma run_handlers_ok hs e s err :
  Forall OutboxClient hs -> store_ok s -> store_ok (fst (run_handlers hs e s err)).
Proof.
  intros H; revert s err; induction H as [|h hs' Hh _ IH]; intros s err Hs; [done|]. cbn.
  pose proof (@client_ok _ Hh e s Hs) as H. destruct (h e s) as [s' err']. by apply IH.
Qed.

Lemma run_handlers_running hs e s err :
  Forall OutboxClient hs -> same_running s (fst (run_handlers hs e s err)).
Proof.
  intros H; revert s err; induction H as [|h hs' Hh _ IH]; intros s err; [reflexivity|]. cbn.
  pose proof (@client_running _ Hh e s) as H. destruct (h e s) as [s' err'].
  etrans; [exact H|]. apply IH.
Qed.

(** ** The outcome of one job *)

Definition clients (subs : registry) : Prop :=
  map_Forall (fun _ hs => Forall OutboxClient hs) subs.

Lemma clients_of subs kind : clients subs -> Forall OutboxClient (default [] (subs !! kind)).
Proof. intros H. destruct (subs !! kind) eqn:E; cbn; [by eapply H|constructor]. Qed.

(** [Register] keeps the registry's promise. *)
Lemma Register_clients kinds h subs :
  OutboxClient h -> clients subs -> clients (Register kinds h subs).
Proof.
  intros Hh. unfold Register. revert subs; induction kinds as [|k kinds IH]; intros subs Hs; [done|].
  cbn. apply IH. apply map_Forall_insert_2; [|done].
  apply Forall_app. split; [by apply clients_of|by constructor].
Qed.

(** What a handler run means for its row. *)
Definition settled (now : Z) (hs : list handler) (err : option handler_error) (j : job) : job :=
  match hs, err with
  | [], _ => dead_row now ("no subscriber registered for kind " +:+ j_kind j) j
  | _, None => done_row now j
  | _, Some e =>
      if he_terminal e || (MaxAttempts - 1 <=? j_attempts j) then dead_row now (he_msg e) j
      else retry_row now (j_attempts j + 1)
             (Unix (now + retry_backoff (j_attempts j + 1))) (he_msg e) j
  end.

Definition claimed (s : store) (r : row) : Prop :=
  exists j, jobs s !! r_ID r = Some j /\ j_state j = Running /\ row_of (r_ID r, j) = r.

Lemma claimed_running s s' r : same_running s s' -> claimed s r -> claimed s' r.
Proof.
  intros H (j & Hj & Hr & Heq). exists j. split_and!; try done. by apply (H _ _ Hr).
Qed.

(** A run is its handlers' effects and then, when the finalisation succeeds, one
    update of the job's own row. *)
Lemma runJob_jobs subs env now r s j :
  clients subs -> jobs s !! r_ID r = Some j -> j_state j = Running ->
  row_of (r_ID r, j) = r ->
  let hs := default [] (subs !! r_Kind r) in
  let s1 := fst (run_handlers hs (event_of now r) s None) in
  let err := snd (run_handlers hs (event_of now r) s None) in
  jobs s1 !! r_ID r = Some j /\
  ((finalizes env /\
    jobs (runJob subs env now r s) = <[r_ID r := settled now hs err j]> (jobs s1)) \/
   (~ finalizes env /\ jobs (runJob subs env now r s) = jobs s1)).
Proof.
  intros Hc Hj Hrun Hrow hs s1 err.
  assert (Hs1 : jobs s1 !! r_ID r = Some j)
    by by apply (run_handlers_running hs (event_of now r) s None (clients_of _ _ Hc)).
  split; [done|].
  assert (Hk : r_Kind r = j_kind j) by by rewrite <- Hrow.
  assert (Ha : r_Attempts r = j_attempts j) by by rewrite <- Hrow.
  assert (Halter : forall f, alter f (r_ID r) (jobs s1) = <[r_ID r := f j]> (jobs s1)).
  { intros f. apply map_eq. intros i. destruct (decide (i = r_ID r)) as [->|Hi].
    - by rewrite lookup_alter_eq, lookup_insert_eq, Hs1.
    - by rewrite lookup_alter_ne, lookup_insert_ne by done. }
  unfold runJob, markDead, markDone, markRetry. fold hs.
  unfold s1, err, settled in *. destruct hs as [|h hs'] eqn:Eh.
  { cbn in Hs1, Halter |- *.
    edestruct (finalize_cases env) as [[Hf ->]|[Hf ->]]; [left|right]; cbn; [|done].
    split; [done|]. rewrite Hk. apply Halter. }
  destruct (run_handlers (h :: hs') (event_of now r) s None) as [s2 e] eqn:Er.
  cbn in Hs1, Halter |- *. destruct e as [e|]; rewrite ?Ha.
  - replace (MaxAttempts - 1 <=? j_attempts j) with (MaxAttempts <=? j_attempts j + 1)
      by (unfold MaxAttempts; destruct (5 <=? j_attempts j + 1) eqn:E1, (5 - 1 <=? j_attempts j) eqn:E2;
          bool_simpl; try done; lia).
    destruct (he_terminal e); cbn [orb]; [|destruct (MaxAttempts <=? j_attempts j + 1)];
      edestruct (finalize_cases env) as [[Hf ->]|[Hf ->]]; [left|right|left|right|left|right];
      (split; [done|]); cbn; done || apply Halter.
  - edestruct (finalize_cases env) as [[Hf ->]|[Hf ->]]; [left|right]; (split; [done|]); cbn;
      done || apply Halter.
Qed.

(** ** Claiming *)

Definition due_rows (t : Z) (s : store) : list (Z * job) :=
  filter (fun p => due t p = true) (map_to_list (jobs s)).

Lemma elem_of_due_rows t s i j :
  (i, j) ∈ due_rows t s <->
  jobs s !! i = Some j /\ j_state j = Pending /\ j_next_run_at j <= t.
Proof.
  unfold due_rows. rewrite list_elem_of_filter, elem_of_map_to_list. unfold due. cbn.
  rewrite andb_true_iff, bool_decide_eq_true, Z.leb_le. tauto.
Qed.

Lemma due_rows_NoDup t s : NoDup (fst <$> due_rows t s).
Proof.
  eapply sublist_NoDup; [apply (NoDup_fst_map_to_list (jobs s))|].
  apply fmap_sublist, sublist_filter.
Qed.

Definition mark_running (t : Z) (sel : list (Z * job)) (m : gmap Z job) : gmap Z job :=
  foldr (fun p m => <[fst p := set_running t (snd p)]> m) m sel.

Lemma mark_running_in t sel m i j :
  NoDup (fst <$> sel) -> (i, j) ∈ sel -> mark_running t sel m !! i = Some (set_running t j).
Proof.
  induction sel as [|[i' j'] sel IH]; cbn; intros Hnd Hin; [by apply not_elem_of_nil in Hin|].
  apply NoDup_cons in Hnd as [Hni Hnd]. apply elem_of_cons in Hin as [[= -> ->]|Hin].
  - by rewrite lookup_insert_eq.
  - rewrite lookup_insert_ne; [by apply IH|]. intros ->. apply Hni.
    apply list_elem_of_fmap. by exists (i, j).
Qed.

Lemma mark_running_out t sel m i :
  i ∉ (fst <$> sel) -> mark_running t sel m !! i = m !! i.
Proof.
  induction sel as [|[i' j'] sel IH]; cbn; intros Hni; [done|].
  apply not_elem_of_cons in Hni as [Hne Hni]. rewrite lookup_insert_ne by done. by apply IH.
Qed.

Section Claim.
Context (select : nat -> list (Z * job) -> list (Z * job)) (now : Z) (s : store).
Let sel := select claim_batch (due_rows (Unix now) s).
Hypothesis Hsel : selection claim_batch (due_rows (Unix now) s) sel.

Lemma sel_sub i j : (i, j) ∈ sel -> (i, j) ∈ due_rows (Unix now) s.
Proof using Hsel.
  destruct Hsel as (rest & Hp & _). intros H. rewrite Hp. apply elem_of_app. auto.
Qed.

Lemma sel_NoDup : NoDup (fst <$> sel).
Proof using Hsel.
  destruct Hsel as (rest & Hp & _). pose proof (due_rows_NoDup (Unix now) s) as H.
  rewrite Hp, fmap_app in H. by apply NoDup_app in H as (H & _).
Qed.

Lemma claim_ids : r_ID <$> fst (claim select now s) = fst <$> sel.
Proof using. unfold claim. cbn. fold (due_rows (Unix now) s) sel. by rewrite <- list_fmap_compose. Qed.

Lemma claim_lookup i :
  (exists j, (i, j) ∈ sel /\ jobs s !! i = Some j /\
     jobs (snd (claim select now s)) !! i = Some (set_running (Unix now) j)) \/
  ((i ∉ (fst <$> sel)) /\ jobs (snd (claim select now s)) !! i = jobs s !! i).
Proof using Hsel.
  destruct (decide (i ∈ fst <$> sel)) as [Hin|Hout]; [left|right].
  - apply list_elem_of_fmap in Hin as ([i' j] & -> & Hin). exists j. cbn.
    split_and!; [done| |by apply mark_running_in; [apply sel_NoDup|]].
    by apply sel_sub, elem_of_due_rows in Hin as [? _].
  - split; [done|]. by apply mark_running_out.
Qed.

Lemma claim_claimed : Forall (claimed (snd (claim select now s))) (fst (claim select now s)).
Proof using Hsel.
  apply Forall_forall. intros r Hr. unfold claim in Hr. cbn in Hr.
  fold (due_rows (Unix now) s) sel in Hr. apply list_elem_of_fmap in Hr as ([i j] & -> & Hin).
  exists (set_running (Unix now) j). cbn. split_and!; [|done|done].
  by apply mark_running_in; [apply sel_NoDup|].
Qed.

Lemma claim_ok : store_ok s -> store_ok (snd (claim select now s)).
Proof using Hsel.
  intros Hs i j' Hj'. destruct (claim_lookup i) as [(j & Hin & Hj & Hn)|[_ Hn]];
    rewrite Hn in Hj'; [|by apply Hs].
  injection Hj' as <-. apply sel_sub, elem_of_due_rows in Hin as (_ & Hst & _).
  destruct (Hs _ _ Hj) as [H1 H2 H3 H4]. split; cbn; try done.
  rewrite H3, Hst. by intuition.
Qed.
End Claim.

(** ** The dispatcher as a transition system *)

Lemma job_ok_settled now hs err id j :
  job_ok id j -> j_state j = Running -> job_ok id (settled now hs err j).
Proof.
  intros [H1 H2 H3 H4] Hr. unfold settled.
  destruct hs; [|destruct err as [e|]; [destruct (_ || _) eqn:E|]];
    split; cbn; try done; try (split; [done|]; intros []; congruence).
  - bool_cases. unfold MaxAttempts in *. lia.
  - split; [done|]. intros [Hz _]. lia.
  - rewrite H3, Hr. by intuition.
Qed.

Lemma runJob_ok subs env now r s :
  clients subs -> claimed s r -> store_ok s -> store_ok (runJob subs env now r s).
Proof.
  intros Hc (j & Hj & Hr & Hrow) Hs.
  destruct (runJob_jobs subs env now r s j Hc Hj Hr Hrow) as [Hj1 H]. cbn zeta in *.
  pose proof (run_handlers_ok _ (event_of now r) s None (clients_of _ (r_Kind r) Hc) Hs) as Hs1.
  unfold store_ok. destruct H as [[_ ->]|[_ ->]]; [|exact Hs1].
  apply map_Forall_insert_2; [|done]. apply job_ok_settled; [by apply Hs|done].
Qed.

(** The job's own row apart, a run keeps the running rows. *)
Lemma runJob_running subs env now r s i j :
  clients subs -> claimed s r -> i <> r_ID r -> j_state j = Running ->
  jobs s !! i = Some j <-> jobs (runJob subs env now r s) !! i = Some j.
Proof.
  intros Hc (j0 & Hj & Hr & Hrow) Hi Hrun.
  destruct (runJob_jobs subs env now r s j0 Hc Hj Hr Hrow) as [_ H]. cbn zeta in H.
  rewrite (run_handlers_running _ (event_of now r) s None (clients_of _ (r_Kind r) Hc) i j Hrun).
  destruct H as [[_ ->]|[_ ->]]; [|done]. by rewrite lookup_insert_ne by done.
Qed.

(** The table and the batch the loop still has to run; between two passes the
    batch is empty.  Requests of the rest of the program (enqueueing, the
    operator's actions) interleave anywhere, since every write is one
    transaction of the single writer; a crash keeps only the table. *)
Record config : Type := Config { c_store : store; c_batch : list row }.

Inductive dstep (subs : registry) : config -> config -> Prop :=
  | step_enqueue now kind d y p s s' batch :
      Enqueue now kind d y p s = Ok s' -> dstep subs (Config s batch) (Config s' batch)
  | step_operator now system id dismiss s out s' batch :
      mutateDeadJob now system id dismiss s = Some (out, s') ->
      dstep subs (Config s batch) (Config s' batch)
  | step_prune now s batch : dstep subs (Config s batch) (Config (snd (pruneDone now s)) batch)
  | step_claim select now s :
      selection claim_batch (due_rows (Unix now) s) (select claim_batch (due_rows (Unix now) s)) ->
      dstep subs (Config s []) (Config (snd (claim select now s)) (fst (claim select now s)))
  | step_run env now r batch s :
      dstep subs (Config s (r :: batch)) (Config (runJob subs env now r s) batch)
  | step_crash now s batch :
      dstep subs (Config s batch) (Config (snd (ReclaimOrphaned now s)) []).

Record config_ok (c : config) : Prop := ConfigOk {
  cfg_store : store_ok (c_store c);
  cfg_NoDup : NoDup (r_ID <$> c_batch c);
  cfg_claimed : Forall (claimed (c_store c)) (c_batch c);
}.

Lemma mutateDeadJob_inv now system id dismiss s out s' :
  mutateDeadJob now system id dismiss s = Some (out, s') ->
  exists j, jobs s !! id = Some j /\ j_state j = Dead /\ j_system_id j = Some system /\
    out = (j_kind j, default 0 (j_doc_id j)) /\
    jobs s' = if dismiss then delete id (jobs s) else
      <[id := Job (j_kind j) (j_doc_id j) (j_system_id j) (j_payload j) Pending 0
                  (Unix now) None (j_created_at j) (Unix now)]> (jobs s).
Proof.
  unfold mutateDeadJob. destruct (jobs s !! id) as [j|] eqn:E; [|done].
  intros H. guards_in H. injection H as <- <-. bool_simpl. exists j. split_and!; try done.
  destruct dismiss; cbn; [done|]. apply map_eq. intros i.
  destruct (decide (i = id)) as [->|Hi].
  - by rewrite lookup_alter_eq, lookup_insert_eq, E.
  - by rewrite lookup_alter_ne, lookup_insert_ne by done.
Qed.

Lemma claimed_transport s s' batch :
  (forall r j, r ∈ batch -> jobs s !! r_ID r = Some j -> j_state j = Running ->
     jobs s' !! r_ID r = Some j) ->
  Forall (claimed s) batch -> Forall (claimed s') batch.
Proof.
  rewrite !Forall_forall. intros H Hb r Hr. destruct (Hb r Hr) as (j & Hj & Hrun & Heq).
  exists j. split_and!; auto.
Qed.

Lemma pruneDone_lookup now s i j :
  jobs (snd (pruneDone now s)) !! i = Some j <->
  jobs s !! i = Some j /\ prunable (Unix (now - DoneRetention)) j = false.
Proof. unfold pruneDone. cbn. by rewrite map_lookup_filter_Some. Qed.

Definition reclaimed (t : Z) (j : job) : job :=
  if bool_decide (j_state j = Running) then
    Job (j_kind j) (j_doc_id j) (j_system_id j) (j_payload j) Pending (j_attempts j)
        t (j_last_error j) (j_created_at j) t
  else j.

Lemma reclaim_jobs now s :
  jobs (snd (ReclaimOrphaned now s)) = reclaimed (Unix now) <$> jobs s.
Proof. unfold ReclaimOrphaned. cbn. by destruct (0 <? _). Qed.

Lemma job_ok_reclaimed t id j : job_ok id j -> job_ok id (reclaimed t j).
Proof.
  unfold reclaimed. intros H. case_bool_decide as Hr; [|done]. destruct H as [H1 H2 H3 H4].
  split; cbn; try done. rewrite H3, Hr. by intuition.
Qed.

Lemma dstep_ok subs c c' :
  clients subs -> dstep subs c c' -> config_ok c -> config_ok c'.
Proof.
  intros Hc Hstep [Hs Hnd Hcl]. destruct Hstep as
    [now kind d y p s s' batch He|now system id dismiss s out s' batch Hm|now s batch
    |select now s Hsel|env now r batch s|now s batch]; cbn [c_store c_batch] in *.
  - split; cbn; [by eapply Enqueue_ok|done|]. eapply Forall_impl; [exact Hcl|].
    intros r. apply claimed_running. by eapply Enqueue_running.
  - apply mutateDeadJob_inv in Hm as (j & Hj & Hdead & _ & _ & Hjobs). split; cbn; [|done|].
    + unfold store_ok. rewrite Hjobs. destruct dismiss; [by apply map_Forall_delete|].
      apply map_Forall_insert_2; [|done]. destruct (Hs _ _ Hj) as [H1 H2 H3 H4].
      split; cbn; done.
    + eapply claimed_transport; [|exact Hcl]. intros r j' _ Hj' Hrun. rewrite Hjobs.
      assert (r_ID r <> id) by (intros Heq; rewrite Heq, Hj in Hj'; congruence).
      destruct dismiss; [by rewrite lookup_delete_ne by done|by rewrite lookup_insert_ne by done].
  - split; cbn; [|done|].
    + intros i j Hj. apply pruneDone_lookup in Hj as [Hj _]. by apply Hs.
    + eapply claimed_transport; [|exact Hcl]. intros r j' _ Hj' Hrun.
      apply pruneDone_lookup. split; [done|]. unfold prunable. by rewrite Hrun.
  - split; cbn [c_store c_batch].
    + by apply claim_ok.
    + rewrite claim_ids. by apply sel_NoDup.
    + by apply claim_claimed.
  - apply Forall_cons in Hcl as [Hr Hcl]. apply NoDup_cons in Hnd as [Hni Hnd].
    split; cbn; [by apply runJob_ok|done|]. eapply claimed_transport; [|exact Hcl].
    intros r' j Hin Hj Hrun. apply runJob_running; try done.
    intros Heq. apply Hni. rewrite <- Heq. apply list_elem_of_fmap. by exists r'.
  - split; cbn [c_store c_batch]; [|constructor|constructor]. unfold store_ok. rewrite reclaim_jobs.
    intros i j Hj. apply lookup_fmap_Some in Hj as (j0 & <- & Hj0).
    apply job_ok_reclaimed. by apply Hs.
Qed.

(** ** Helpers on batches *)

(** Every finalisation of the batch becomes durable. *)
Lemma runBatch_settles subs env batch s :
  clients subs -> (forall id, finalizes (pe_finalize env id)) ->
  NoDup (r_ID <$> batch) -> Forall (claimed s) batch ->
  (forall i j, jobs s !! i = Some j -> j_state j = Running -> i ∈ (r_ID <$> batch)) ->
  forall i j, jobs (runBatch subs env batch s) !! i = Some j -> j_state j <> Running.
Proof.
  intros Hc Hf. unfold runBatch. revert s.
  induction batch as [|r batch IH]; intros s Hnd Hcl Hall i j Hj Hrun; cbn in *.
  { by apply (Hall i j) in Hj; [apply not_elem_of_nil in Hj|]. }
  apply Forall_cons in Hcl as [Hr Hcl]. apply NoDup_cons in Hnd as [Hni Hnd].
  eapply IH; [done| | |exact Hj|exact Hrun].
  - eapply claimed_transport; [|exact Hcl]. intros r' j' Hin Hj' Hrun'.
    apply runJob_running; try done. intros Heq. apply Hni. rewrite <- Heq.
    apply list_elem_of_fmap. by exists r'.
  - clear i j Hj Hrun. intros i j Hj Hrun. destruct (decide (i = r_ID r)) as [->|Hi].
    + destruct Hr as (j0 & Hj0 & Hr0 & Hrow).
      destruct (runJob_jobs subs (pe_finalize env (r_ID r)) (pe_now env) r s j0 Hc Hj0 Hr0 Hrow)
        as [_ [[_ H]|[Hn _]]]; [|by destruct (Hn (Hf _))].
      cbn zeta in H. rewrite H, lookup_insert_eq in Hj. injection Hj as <-. exfalso.
      revert Hrun. unfold settled.
      destruct (default [] _); [done|]. destruct (snd _) as [e|]; [|done].
      by destruct (he_terminal e || _).
    + rewrite <- runJob_running in Hj by done. apply (Hall _ _ Hj) in Hrun.
      by apply elem_of_cons in Hrun as [?|?].
Qed.

(** A selection from an empty list of due rows is empty. *)
Lemma selection_length n l sel : selection n l sel -> length sel = Nat.min n (length l).
Proof. by intros (rest & _ & H & _). Qed.

(** The stable sort that an index on [next_run_at] performs is a selection. *)
Definition by_next_run (p q : Z * job) : Prop := j_next_run_at (snd p) <= j_next_run_at (snd q).
#[export] Instance by_next_run_dec : RelDecision by_next_run.
Proof. intros p q. unfold by_next_run. apply _. Defined.
#[export] Instance by_next_run_total : Total by_next_run.
Proof. intros p q. unfold by_next_run. lia. Qed.
#[export] Instance by_next_run_trans : Transitive by_next_run.
Proof. intros p q r. unfold by_next_run. lia. Qed.

Definition index_select (n : nat) (l : list (Z * job)) : list (Z * job) :=
  take n (merge_sort by_next_run l).

Lemma index_select_selection n l : selection n l (index_select n l).
Proof.
  exists (drop n (merge_sort by_next_run l)). unfold index_select.
  pose proof (merge_sort_Permutation by_next_run l) as Hp. split_and!.
  - rewrite take_drop. by symmetry.
  - rewrite length_take. by rewrite Hp.
  - pose proof (StronglySorted_merge_sort by_next_run l) as Hs.
    rewrite <- (take_drop n (merge_sort by_next_run l)) in Hs.
    clear Hp. revert Hs. generalize (take n (merge_sort by_next_run l)) as a.
    generalize (drop n (merge_sort by_next_run l)) as b. intros b a Hs.
    induction a as [|p a IH]; [constructor|]. cbn in Hs. inversion Hs as [|? ? Hs' Hf]; subst.
    constructor; [|by apply IH]. by apply Forall_app in Hf as [_ Hf].
Qed.

(** * Properties *)

(** C20: whatever happens to the outbox, in any order (enqueueing, claiming, runs
    with success, failure or a lost finalisation, pruning, the operator's retry
    and dismissal, crashes with reclamation), every row keeps its invariant
    (fewer than [MaxAttempts] failed attempts, an error exactly after a failure,
    coherent ownership), and every row of the batch the loop still has to run is
    held by that batch alone: it is running, and is the row the batch copied. *)
Theorem dispatcher_invariant subs c c' :
  clients subs -> config_ok c -> rtc (dstep subs) c c' -> config_ok c'.
Proof. intros Hc H0 Hsteps. induction Hsteps; [done|]. eauto using dstep_ok. Qed.

(** The outcome of running a claimed job.  No subscriber: dead.  No error:
    done.  A terminal error, or a failure of the fifth attempt: dead with the
    error.  Any other failure: pending again with one more attempt and the
    exponential backoff.  When the write cannot be made durable the row stays
    exactly as claimed, and in every case no other row is touched beyond what the
    subscribers did. *)
Theorem runJob_outcome subs env now r s :
  clients subs -> store_ok s -> claimed s r ->
  let hs := default [] (subs !! r_Kind r) in
  let s1 := fst (run_handlers hs (event_of now r) s None) in
  let err := snd (run_handlers hs (event_of now r) s None) in
  let s' := runJob subs env now r s in
  exists j j', jobs s !! r_ID r = Some j /\ jobs s' !! r_ID r = Some j' /\
    (forall i, i <> r_ID r -> jobs s' !! i = jobs s1 !! i) /\
    (~ finalizes env -> j' = j) /\
    (finalizes env ->
      match hs, err with
      | [], _ => j_state j' = Dead /\ j_attempts j' = j_attempts j
      | _, None => j_state j' = Done /\ j_attempts j' = j_attempts j
      | _, Some e =>
          j_last_error j' = Some (he_msg e) /\
          if he_terminal e || bool_decide (j_attempts j = 4)
          then j_state j' = Dead /\ j_attempts j' = j_attempts j
          else j_state j' = Pending /\ j_attempts j' = j_attempts j + 1 /\
               j_next_run_at j' = Unix (now + BaseBackoff * 2 ^ j_attempts j)
      end).
Proof.
  intros Hc Hs (j & Hj & Hr & Hrow). cbn zeta.
  destruct (runJob_jobs subs env now r s j Hc Hj Hr Hrow) as [Hj1 H]. cbn zeta in *.
  destruct (Hs _ _ Hj) as [_ Ha _ _]. unfold MaxAttempts in Ha.
  destruct H as [[Hf Hjobs]|[Hf Hjobs]]; rewrite Hjobs.
  - eexists j, _. rewrite lookup_insert_eq. split_and!; try done.
    { intros i Hi. by rewrite lookup_insert_ne. }
    intros _. unfold settled. destruct (default [] _); [done|].
    destruct (snd _) as [e|]; [|done]. unfold MaxAttempts.
    replace (5 - 1 <=? j_attempts j) with (bool_decide (j_attempts j = 4)).
    2: { case_bool_decide; destruct (5 - 1 <=? j_attempts j) eqn:E; bool_simpl; lia. }
    destruct (he_terminal e || bool_decide (j_attempts j = 4)) eqn:E; [done|].
    cbn. split_and!; try done. do 2 f_equal.
    apply orb_false_iff in E as [_ E]. bool_simpl. unfold retry_backoff.
    assert (Hcase : j_attempts j = 0 \/ j_attempts j = 1 \/ j_attempts j = 2 \/ j_attempts j = 3)
      by lia.
    destruct Hcase as [->|[->|[->| ->]]]; reflexivity.
  - exists j, j. split_and!; done.
Qed.

(** A claim takes the due pending rows with the least due times, at most
    eight and as many as there are, each once; exactly those rows become running
    and nothing else changes. *)
Theorem claim_spec select now s :
  let sel := select claim_batch (due_rows (Unix now) s) in
  selection claim_batch (due_rows (Unix now) s) sel ->
  let '(batch, s') := claim select now s in
  length batch = Nat.min 8 (length (due_rows (Unix now) s)) /\
  NoDup (r_ID <$> batch) /\
  (forall i, i ∈ (r_ID <$> batch) ->
     exists j, jobs s !! i = Some j /\ j_state j = Pending /\ j_next_run_at j <= Unix now /\
       jobs s' !! i = Some (set_running (Unix now) j)) /\
  (forall i, i ∉ (r_ID <$> batch) -> jobs s' !! i = jobs s !! i) /\
  (forall i j i' j', i ∈ (r_ID <$> batch) -> jobs s !! i = Some j ->
     i' ∉ (r_ID <$> batch) -> jobs s !! i' = Some j' -> due (Unix now) (i', j') = true ->
     j_next_run_at j <= j_next_run_at j').
Proof.
  intros sel Hsel. pose proof (claim_ids select now s) as Hids.
  pose proof (claim_lookup select now s Hsel) as Hl.
  destruct (claim select now s) as [batch s'] eqn:Ec. cbn [fst snd] in *. fold sel in Hids, Hl.
  rewrite Hids. split_and!.
  - apply selection_length in Hsel. rewrite <- (length_fmap r_ID), Hids, length_fmap. exact Hsel.
  - by apply sel_NoDup.
  - intros i Hi. destruct (Hl i) as [(j & Hin & Hj & Hj')|[Hni _]]; [|done].
    exists j. apply (sel_sub select now s Hsel), elem_of_due_rows in Hin as (_ & Hp & Hd). done.
  - intros i Hi. destruct (Hl i) as [(j & Hin & _)|[_ H]]; [|done].
    destruct Hi. apply list_elem_of_fmap. by exists (i, j).
  - intros i j i' j' Hi Hj Hi' Hj' Hd.
    destruct (Hl i) as [(j0 & Hin & Hj0 & _)|[Hni _]]; [|done]. simplify_eq.
    destruct Hsel as (rest & Hp & _ & Hle). rewrite Forall_forall in Hle.
    specialize (Hle _ Hin). rewrite Forall_forall in Hle. apply (Hle (i', j')).
    assert (Hin' : (i', j') ∈ due_rows (Unix now) s).
    { unfold due_rows. by rewrite list_elem_of_filter, elem_of_map_to_list. }
    rewrite Hp in Hin'. apply elem_of_app in Hin' as [Hin'|]; [|done].
    destruct Hi'. apply list_elem_of_fmap. by exists (i', j').
Qed.

(** The finalisation loop ends within six writes and 1.55 s of backoff; it
    reports a durable transition exactly when a write that is reached succeeds,
    and then the write was applied; otherwise the table is untouched. *)
Theorem finalize_spec env write s :
  exists o n waited,
    finalize_loop (Z.to_nat finalizationAttempts) env 1 finalizationBaseBackoff 0
      = Some (o, n, waited) /\
    1 <= n <= 6 /\ write_reached env n /\ waited <= 1550 * Millisecond /\
    (o = Durable <-> finalizes env) /\
    finalize env write s = if bool_decide (o = Durable) then (true, write s) else (false, s).
Proof.
  destruct (finalize_loop_total (Z.to_nat finalizationAttempts) env 1
              finalizationBaseBackoff 0) as (o & n & w & He & Hn & Hw & Hf & Ho);
    [unfold finalizationAttempts; lia..|].
  exists o, n, w. unfold finalizationAttempts in Hn. split_and!; try done; try lia.
  - rewrite Hw. unfold finalizationBaseBackoff, Millisecond.
    assert (2 ^ (n - 1) <= 2 ^ 5) by (apply Z.pow_le_mono_r; lia). lia.
  - pose proof (finalize_cases env write s) as Hc. unfold finalize in Hc. rewrite He in Hc.
    destruct o; split; try done; intros H; destruct Hc as [[? Hc]|[? Hc]]; done.
  - unfold finalize. rewrite He. by destruct o.
Qed.

(** After a pass of the loop in which the database answers, no row is left
    running: each claimed job was settled. *)
Theorem run_pass_settles subs env nextPrune s :
  clients subs ->
  (forall s', selection claim_batch (due_rows (Unix (pe_now env)) s')
     (pe_select env claim_batch (due_rows (Unix (pe_now env)) s'))) ->
  (forall id, finalizes (pe_finalize env id)) ->
  (forall i j, jobs s !! i = Some j -> j_state j <> Running) ->
  let '(s', _, _) := run_pass subs env nextPrune s in
  forall i j, jobs s' !! i = Some j -> j_state j <> Running.
Proof.
  intros Hc Hsel Hf Hno. unfold run_pass.
  set (p := if pe_now env <? nextPrune then _ else _).
  assert (Hp : forall i j, jobs (fst p) !! i = Some j -> j_state j <> Running).
  { intros i j. unfold p. destruct (_ <? _); cbn; [by apply Hno|].
    destruct (pe_prune_fails env); [by apply Hno|].
    intros Hj. apply pruneDone_lookup in Hj as [Hj _]. by apply (Hno i). }
  clearbody p. destruct p as [s1 np]. cbn in Hp. destruct (pe_claim_fails env); [done|].
  pose proof (claim_ids (pe_select env) (pe_now env) s1) as Hids.
  pose proof (claim_claimed _ _ s1 (Hsel s1)) as Hcl.
  pose proof (claim_lookup _ _ s1 (Hsel s1)) as Hl.
  pose proof (sel_NoDup _ _ s1 (Hsel s1)) as Hnd. rewrite <- Hids in Hl, Hnd.
  destruct (claim (pe_select env) (pe_now env) s1) as [batch s2] eqn:Ec. cbn [fst snd] in *.
  assert (Hall : forall i j, jobs s2 !! i = Some j -> j_state j = Running -> i ∈ (r_ID <$> batch)).
  { intros i j Hj Hrun. destruct (Hl i) as [(j0 & Hin & _ & _)|[_ Hsame]].
    - rewrite Hids. apply list_elem_of_fmap. by exists (i, j0).
    - rewrite Hsame in Hj. by destruct (Hp _ _ Hj). }
  destruct batch as [|r batch].
  - intros i j Hj Hrun. apply (Hall _ _ Hj) in Hrun. by apply not_elem_of_nil in Hrun.
  - by apply runBatch_settles.
Qed.

(** Boot reclamation leaves no row running; a running row becomes pending,
    due now, with its attempts and error kept, every other row is unchanged, the
    count is the number of rows reset and is audited when it is positive. *)
Theorem ReclaimOrphaned_spec now s :
  let '(n, s') := ReclaimOrphaned now s in
  (forall i j', jobs s' !! i = Some j' ->
     j_state j' <> Running /\
     exists j, jobs s !! i = Some j /\
       (j_state j <> Running -> j' = j) /\
       (j_state j = Running -> due (Unix now) (i, j') = true /\
          j_attempts j' = j_attempts j /\ j_last_error j' = j_last_error j /\
          j_payload j' = j_payload j)) /\
  dom (jobs s') = dom (jobs s) /\
  n = Z.of_nat (count_state Running (jobs s)) /\
  audit s' = audit s ++ (if 0 <? n then [JobsReclaimed n] else []).
Proof.
  destruct (ReclaimOrphaned now s) as [n s'] eqn:E.
  assert (Hn : n = Z.of_nat (count_state Running (jobs s)))
    by (unfold ReclaimOrphaned in E; by injection E as <- _).
  assert (Hj : jobs s' = reclaimed (Unix now) <$> jobs s)
    by by rewrite <- reclaim_jobs, E.
  split_and!; [|by rewrite Hj, dom_fmap_L|done|].
  - intros i j'. rewrite Hj, lookup_fmap_Some. intros (j & <- & Hi). unfold reclaimed.
    case_bool_decide as Hr; cbn.
    + split; [done|]. exists j. split_and!; try done. intros _. unfold due. cbn.
      by rewrite Z.leb_refl.
    + split; [done|]. exists j. split_and!; done.
  - unfold ReclaimOrphaned in E. injection E as <- <-. destruct (0 <? _); cbn; [done|].
    by rewrite app_nil_r.
Qed.

(** Pruning removes exactly the done rows that were last updated, in whole
    seconds, strictly more than seven days ago: no other row, and no row exactly
    seven days old. *)
Theorem pruneDone_spec now s i j :
  jobs s !! i = Some j ->
  jobs (snd (pruneDone now s)) !! i =
    if bool_decide (j_state j = Done /\ (j_updated_at j + 1) * Second <= now - DoneRetention)
    then None else Some j.
Proof.
  intros Hj. destruct (jobs (snd (pruneDone now s)) !! i) as [j'|] eqn:E.
  - apply pruneDone_lookup in E as [E Hp]. simplify_eq. rewrite bool_decide_false; [done|].
    intros [Hd Ht]. unfold prunable in Hp. rewrite Hd, bool_decide_true in Hp by done. cbn in Hp. bool_simpl.
    assert (j_updated_at j + 1 <= Unix (now - DoneRetention)); [|lia].
    apply Z.div_le_lower_bound; [done|by rewrite Z.mul_comm].
  - rewrite bool_decide_true; [done|].
    assert (Hp : prunable (Unix (now - DoneRetention)) j = true).
    { destruct (prunable _ j) eqn:Hp; [done|].
      assert (jobs (snd (pruneDone now s)) !! i = Some j) by by apply pruneDone_lookup.
      congruence. }
    unfold prunable in Hp. bool_simpl. split; [done|].
    assert (Second * (j_updated_at j + 1) <= Second * Unix (now - DoneRetention))
      by (apply Z.mul_le_mono_nonneg_l; [done|lia]).
    pose proof (Z.mul_div_le (now - DoneRetention) Second ltac:(done)). unfold Unix in *. lia.
Qed.

(** Backoff between attempts is exponential, capped, monotone, and never
    overflows while its power fits the clock: up to attempt 31 it lies between
    five seconds and thirty minutes. *)
Theorem retry_backoff_spec a b :
  1 <= a <= b -> b <= 31 ->
  retry_backoff a = Z.min (BaseBackoff * 2 ^ (a - 1)) MaxBackoff /\
  BaseBackoff <= retry_backoff a <= retry_backoff b /\ retry_backoff b <= MaxBackoff.
Proof.
  intros Ha Hb.
  assert (H : forall k, 1 <= k <= 31 ->
    1 <= 2 ^ (k - 1) /\ retry_backoff k = Z.min (BaseBackoff * 2 ^ (k - 1)) MaxBackoff).
  { intros k Hk. assert (2 ^ 0 <= 2 ^ (k - 1) <= 2 ^ 30)
      by (split; apply Z.pow_le_mono_r; lia).
    split; [lia|]. unfold retry_backoff. rewrite wrap_i64_id.
    - f_equal. lia.
    - unfold is_int64, MinInt64, MaxInt64, BaseBackoff, Second, Millisecond. lia. }
  destruct (H a) as [Ha1 ->]; [lia|]. destruct (H b) as [Hb1 ->]; [lia|].
  assert (2 ^ (a - 1) <= 2 ^ (b - 1)) by (apply Z.pow_le_mono_r; lia).
  unfold BaseBackoff, MaxBackoff, Minute, Second, Millisecond. lia.
Qed.

(** A finalisation names its row by id alone and row ids are reused: when the
    documents of the newest job are purged while its handler runs, and another job
    is enqueued meanwhile, the new job takes the freed id, and the old handler's
    success marks that pending job done although it never ran. *)
Theorem late_finalize_settles_new_job env t ids now kind d y p r s s' :
  finalizes env ->
  next_rowid (jobs (purge_jobs ids s)) = r_ID r ->
  Enqueue now kind d y p (purge_jobs ids s) = Ok s' ->
  exists j, jobs s' !! r_ID r = Some j /\ j_state j = Pending /\ j_kind j = kind /\
    jobs (markDone env t r s') !! r_ID r = Some (done_row t j).
Proof.
  intros Hf Hid He. apply Enqueue_Ok in He as (_ & _ & _ & He). rewrite Hid in He.
  eexists. split_and!; [rewrite He; cbn; by rewrite lookup_insert_eq|done|done|].
  unfold markDone. destruct (finalize_cases env (update_row (done_row t) (r_ID r)) s')
    as [[_ ->]|[Hn _]]; [|done].
  cbn. rewrite lookup_alter_eq, He. cbn. by rewrite lookup_insert_eq.
Qed.

(** * Witnesses *)

Definition w_env : finalize_env := FinalizeEnv (fun n => n =? 2) (fun _ => false).
Definition w_registry : registry :=
  Register ["ocr"] (silent_handler (Some (HandlerError "timeout" false)))
    (Register ["thumb"] (silent_handler None) ∅).
Definition w_job : job := Job "ocr" (Some 7) (Some 3) "{}" Running 1 50 (Some "x") 40 60.
Definition w_store : store :=
  Store {[1 := w_job; 2 := Job "thumb" None None "{}" Pending 0 10 None 10 10]} {[7 := 3; 8 := 3]} [].
Definition w_row : row := Row 1 "ocr" (Some 7) (Some 3) "{}" 1.

Lemma w_env_finalizes : finalizes w_env.
Proof.
  exists 2. unfold finalizationAttempts. split_and!; [lia|lia| |done].
  intros i Hi. assert (i = 1) as -> by lia. done.
Qed.
Lemma w_clients : clients w_registry.
Proof. apply Register_clients; [apply _|]. apply Register_clients; [apply _|]. apply map_Forall_empty. Qed.
Lemma w_store_ok : store_ok w_store.
Proof.
  apply map_Forall_insert_2; [|apply map_Forall_singleton]; split; cbn; unfold MaxAttempts;
    try done; try lia.
  - split; [done|]. intros [? _]. lia.
  - intros d [= <-]. split; [lia|]. by exists 3.
Qed.
Lemma w_claimed : claimed w_store w_row.
Proof. by exists w_job. Qed.

Lemma dispatcher_invariant_witness :
  config_ok (Config (runJob w_registry w_env 100 w_row w_store) []).
Proof.
  apply (dispatcher_invariant w_registry (Config w_store [w_row])).
  - apply w_clients.
  - split; cbn; [apply w_store_ok|apply NoDup_singleton|].
    constructor; [apply w_claimed|constructor].
  - apply rtc_once. apply step_run.
Defined.

Lemma runJob_outcome_witness :
  exists j', jobs (runJob w_registry w_env (100 * Second) w_row w_store) !! 1 = Some j' /\
    j_state j' = Pending /\ j_attempts j' = 2 /\ j_next_run_at j' = 110.
Proof.
  destruct (runJob_outcome w_registry w_env (100 * Second) w_row w_store w_clients w_store_ok
    w_claimed) as (j & j' & Hj & Hj' & _ & _ & H).
  exists j'. split; [exact Hj'|]. pose proof (H w_env_finalizes) as H'.
  vm_compute in Hj. injection Hj as <-. vm_compute in H'.
  destruct H' as (_ & H'). exact H'.
Defined.

Lemma claim_spec_witness : length (fst (claim index_select (100 * Second) w_store)) = 1%nat.
Proof.
  pose proof (claim_spec index_select (100 * Second) w_store
    (index_select_selection _ _)) as H.
  destruct (claim index_select (100 * Second) w_store) as [batch s'].
  destruct H as [H _]. cbn [fst]. rewrite H. reflexivity.
Defined.

Lemma run_pass_settles_witness :
  let '(s', _, _) := run_pass w_registry (PassEnv (100 * Second) index_select false false
    (fun _ => w_env)) 0 (with_jobs (delete 1) w_store) in
  forall i j, jobs s' !! i = Some j -> j_state j <> Running.
Proof.
  apply run_pass_settles.
  - apply w_clients.
  - intros s'. apply index_select_selection.
  - intros id. apply w_env_finalizes.
  - intros i j. cbn. rewrite lookup_delete_Some, lookup_insert_Some, lookup_singleton_Some.
    intros (Hne & [[? _]|[_ [_ <-]]]); [congruence|discriminate].
Defined.

Lemma pruneDone_spec_witness :
  jobs (snd (pruneDone (604861 * Second)
    (Store {[4 := done_row (60 * Second) w_job]} ∅ []))) !! 4 = None /\
  jobs (snd (pruneDone (604860 * Second)
    (Store {[4 := done_row (60 * Second) w_job]} ∅ []))) !! 4 <> None.
Proof.
  split; erewrite (pruneDone_spec _ _ 4) by reflexivity; vm_compute; done.
Defined.

Lemma retry_backoff_spec_witness : retry_backoff 4 <= retry_backoff 9 /\ retry_backoff 9 = 1280 * Second.
Proof.
  destruct (retry_backoff_spec 4 9) as (_ & [_ H] & _); [lia|lia|]. split; [exact H|reflexivity].
Defined.

Lemma late_finalize_settles_new_job_witness :
  exists j, j_kind j = "thumb" /\ j_doc_id j = Some 8 /\
    jobs (markDone w_env (100 * Second) w_row
      (with_jobs (<[1 := Job "thumb" (Some 8) (Some 3) "{}" Pending 0 90 None 90 90]>)
         (Store ∅ {[7 := 3; 8 := 3]} []))) !! 1 = Some (done_row (100 * Second) j).
Proof.
  set (s := Store {[1 := w_job]} {[7 := 3; 8 := 3]} []).
  destruct (late_finalize_settles_new_job w_env (100 * Second) [7] (90 * Second) "thumb" 8 3 ""
    w_row s (with_jobs (<[1 := Job "thumb" (Some 8) (Some 3) "{}" Pending 0 90 None 90 90]>)
         (Store ∅ {[7 := 3; 8 := 3]} [])) w_env_finalizes) as (j & Hj & _ & Hk & H);
    [reflexivity|vm_compute; reflexivity|].
  exists j. vm_compute in Hj. injection Hj as <-. split_and!; [reflexivity..|exact H].
Defined.
