(* ===== verification/Amount.v ===== *)
(** Money amounts as people write them ([core/customfield/amount.go]): the text
    that is handed to [strconv.ParseFloat].  The tables of [unicode.IsLetter] and of
    the currency symbols, and [ParseFloat] itself, are parameters. *)
From S2P Require Import Prelude GoStd Utf8.

(** [strings.ReplaceAll] and [strings.Replace(..., 1)] of one byte, [strings.Count]. *)
Fixpoint replace_all (c : ascii) (by_ : string) (s : string) : string :=
  match s with
  | EmptyString => ""
  | String d s => (if bool_decide (d = c) then by_ else String d "") +:+ replace_all c by_ s
  end.
Fixpoint replace_first (c : ascii) (by_ : string) (s : string) : string :=
  match s with
  | EmptyString => ""
  | String d s => if bool_decide (d = c) then by_ +:+ s else String d (replace_first c by_ s)
  end.
Fixpoint count_byte (c : ascii) (s : string) : nat :=
  match s with
  | EmptyString => 0
  | String d s => (if bool_decide (d = c) then 1 else 0) + count_byte c s
  end.

Inductive amount_error : Type :=
  | TextInsideNumber | UnexpectedRune (r : Z) | NoDigits | NotANumber.

Definition is_digit_rune (r : Z) : bool := (48 <=? r) && (r <=? 57).

Section Amount.
Context (IsLetter IsCurrency : Z -> bool).

Record scan : Type := Scan { number : string; started : bool; ended : bool; negative : bool }.

(** One iteration of the scan: the switch's cases in order. *)
Definition amount_rune (r : Z) (st : scan) : result amount_error scan :=
  if is_digit_rune r || ((r =? 46) || (r =? 44)) && started st then
    if ended st then Err TextInsideNumber
    else Ok (Scan (number st +:+ encode_rune r) true (ended st) (negative st))
  else if (r =? 45) && negb (started st) && negb (negative st) then
    Ok (Scan (number st) (started st) (ended st) true)
  else if IsSpace r || (r =? 39) || (r =? 8217) then Ok st
  else if IsLetter r || IsCurrency r then
    Ok (Scan (number st) (started st) (started st) (negative st))
  else Err (UnexpectedRune r).

Fixpoint amount_loop (rs : list Z) (st : scan) : result amount_error scan :=
  match rs with
  | [] => Ok st
  | r :: rs => st ← amount_rune r st; amount_loop rs st
  end.

Definition dot : ascii := "."%char.
Definition comma : ascii := ","%char.

(** The separators of the collected digits resolved to a decimal point. *)
Definition amount_digits (digits : string) : string :=
  let length_after (i : nat) := Z.of_nat (String.length digits) - Z.of_nat i - 1 in
  match last_index dot digits, last_index comma digits with
  | Some d, Some c =>
      let '(decimal, group) := if (d <? c)%nat then (comma, dot) else (dot, comma) in
      replace_all decimal "." (replace_all group "" digits)
  | None, None => digits
  | Some i, None =>
      if (1 <? Z.of_nat (count_byte dot digits)) || (length_after i =? 3)
      then replace_all dot "" digits else replace_first dot "." digits
  | None, Some i =>
      if (1 <? Z.of_nat (count_byte comma digits)) || (length_after i =? 3)
      then replace_all comma "" digits else replace_first comma "." digits
  end.

(** The sign and the digits of [ParseAmount]. *)
Definition amount_text (text : string) : result amount_error (bool * string) :=
  let s := TrimSpace text in
  let paren := has_prefix s "(" && has_suffix s ")" in
  let s := if paren then stake (String.length s - 2) (sdrop 1 s) else s in
  st ← amount_loop (runes s) (Scan "" false false paren);
  fail_if bool_decide (number st = "") with NoDigits in
  Ok (negative st, amount_digits (number st)).

Definition ParseAmount {F : Type} (ParseFloat : string -> option F) (opp : F -> F)
    (text : string) : result amount_error F :=
  '(negative, digits) ← amount_text text;
  match ParseFloat digits with
  | None => Err NotANumber
  | Some value => Ok (if (negative : bool) then opp value else value)
  end.

(** * Plain digit runs *)

Lemma runes_ascii s : all_bytes (fun c => byte_val c <? 128) s = true ->
  exists rs, runes s = rs /\ s = encode_runes rs /\ Forall (fun r => 0 <= r < 128) rs.
Proof.
  intros H. assert (Hrs : exists rs, s = encode_runes rs /\ Forall (fun r => 0 <= r < 128) rs).
  { induction s as [|c s IH]; [by exists []|]. cbn in H. bool_simpl.
    destruct IH as (rs & -> & Hrs); [done|]. exists (byte_val c :: rs).
    pose proof (byte_val_range c). cbn [encode_runes].
    rewrite encode_ascii, chr_byte_val by lia. split; [by rewrite append_cons|].
    constructor; [lia|done]. }
  destruct Hrs as (rs & -> & Hrs). exists rs. split_and!; try done.
  apply runes_encode. eapply Forall_impl; [exact Hrs|]. cbn. intros r Hr. unfold valid_rune.
  apply orb_true_iff. left. apply andb_true_iff. split; [apply Z.leb_le|apply Z.ltb_lt]; lia.
Qed.

End Amount.
