(* ===== verification/Slug.v ===== *)
(** Canonical slugs of named rows ([core/slug/slug.go]).  The tables of package [unicode]
    are a parameter with the laws the proofs use. *)
From S2P Require Import Prelude GoStd Utf8.

(** [unicode.IsLetter], [unicode.IsDigit], [unicode.IsMark] and [unicode.ToLower]. *)
Record unicode_tables : Type := MkTables {
  IsLetter : Z -> bool; IsDigit : Z -> bool; IsMark : Z -> bool; lower : Z -> Z;
}.
(** What the standard documents of them: the general categories are disjoint, white space
    and the hyphen are in none of the three, and lower-casing is idempotent
    and leaves lower-case ASCII letters alone. *)
Class tables_laws (U : unicode_tables) : Prop := {
  lower_valid r : valid_rune r = true -> valid_rune (lower U r) = true;
  lower_lower r : lower U (lower U r) = lower U r;
  lower_hyphen : lower U 45 = 45;
  lower_ascii r : 97 <= r <= 122 -> lower U r = r;
  hyphen_plain : IsLetter U 45 = false /\ IsDigit U 45 = false /\ IsMark U 45 = false;
  classes_solid r : IsLetter U r || IsDigit U r || IsMark U r = true -> IsSpace r = false;
}.

(** ASCII only. *)
Definition ascii_tables : unicode_tables :=
  MkTables (fun r => in_range 65 90 r || in_range 97 122 r) (in_range 48 57) (fun _ => false)
    (fun r => if in_range 65 90 r then r + 32 else r).

(** [strings.TrimRight(s, "-")] for one character. *)
Definition TrimRight (c : ascii) (s : string) : string := rev_string (TrimLeft c (rev_string s "")) "".

Section Slug.
Context (U : unicode_tables).

Fixpoint slug_loop (prevHyphen : bool) (rs : list Z) : list Z :=
  match rs with
  | [] => []
  | r :: rs' =>
      if IsLetter U r || IsDigit U r then r :: slug_loop false rs'
      else if IsMark U r && negb prevHyphen then r :: slug_loop prevHyphen rs'
      else if prevHyphen then slug_loop prevHyphen rs' else 45 :: slug_loop true rs'
  end.
Definition Make (name : string) : string :=
  TrimRight "-"%char (encode_runes (slug_loop true (runes (ToLower (lower U) (TrimSpace name))))).
End Slug.

Example Make_example : Make ascii_tables "  A.B. Traders " = "a-b-traders".
Proof. vm_compute. reflexivity. Qed.
(** Names without letters, digits or marks all share the empty slug. *)
Example Make_symbols : Make ascii_tables "!!" = "" /\ Make ascii_tables "?" = "".
Proof. split; vm_compute; reflexivity. Qed.

#[export] Instance ascii_laws : tables_laws ascii_tables.
Proof.
  split; cbn.
  - intros r H. destruct (in_range 65 90 r) eqn:E; [|done]. unfold in_range in E. bool_simpl.
    unfold valid_rune. by rune_arith.
  - intros r. destruct (in_range 65 90 r) eqn:E; [|by rewrite E].
    assert (in_range 65 90 (r + 32) = false) as ->; [|done].
    unfold in_range in *. bool_simpl. apply andb_false_iff. right. apply Z.leb_gt. lia.
  - done.
  - intros r H. unfold in_range. by rune_arith.
  - done.
  - intros r H. rewrite orb_false_r in H. unfold in_range in H.
    unfold IsSpace, in_range. bool_cases; rune_arith; done.
Qed.

(** * The shape of slugs *)
Section Facts.
Context (U : unicode_tables) {HU : tables_laws U}.

(** A slug's runes: letters and digits, marks that follow something, single hyphens. *)
Fixpoint slug_shape (prev : bool) (rs : list Z) : bool :=
  match rs with
  | [] => true
  | r :: rs' =>
      if IsLetter U r || IsDigit U r then slug_shape false rs'
      else if IsMark U r && negb prev then slug_shape prev rs'
      else (r =? 45) && negb prev && slug_shape true rs'
  end.

Lemma slug_loop_shape prev rs : slug_shape prev (slug_loop U prev rs) = true.
Proof using HU.
  pose proof (hyphen_plain (U := U)) as (Hl & Hd & Hm).
  revert prev; induction rs as [|r rs IH]; intros prev; [done|]. cbn [slug_loop].
  destruct (IsLetter U r || IsDigit U r) eqn:E1; [cbn; by rewrite E1|].
  destruct (IsMark U r && negb prev) eqn:E2; [cbn; by rewrite E1, E2|].
  destruct prev; [done|]. cbn. rewrite Hl, Hd, Hm. cbn. apply IH.
Qed.

Lemma slug_loop_id prev rs : slug_shape prev rs = true -> slug_loop U prev rs = rs.
Proof using.
  revert prev; induction rs as [|r rs IH]; intros prev H; [done|]. cbn [slug_loop slug_shape] in *.
  destruct (IsLetter U r || IsDigit U r); [by rewrite IH|].
  destruct (IsMark U r && negb prev); [by rewrite IH|].
  bool_simpl. subst. rewrite IH by done. done.
Qed.

Lemma slug_loop_elem prev rs r : r ∈ slug_loop U prev rs -> r ∈ rs \/ r = 45.
Proof using.
  revert prev; induction rs as [|x rs IH]; intros prev H; cbn [slug_loop] in H; [by apply elem_of_nil in H|].
  destruct (IsLetter U x || IsDigit U x); [|destruct (IsMark U x && negb prev); [|destruct prev]];
    try (apply elem_of_cons in H as [->|H]); try (by right); try (by left; apply list_elem_of_here);
    destruct (IH _ H); auto; left; by apply list_elem_of_further.
Qed.

Lemma slug_shape_snoc prev rs : slug_shape prev (rs ++ [45]) = true -> slug_shape prev rs = true.
Proof using.
  revert prev; induction rs as [|r rs IH]; intros prev H; [done|]. cbn [slug_shape app] in *.
  destruct (IsLetter U r || IsDigit U r); [by apply IH|].
  destruct (IsMark U r && negb prev); [by apply IH|].
  apply andb_true_iff in H as [-> H]. cbn. by apply IH.
Qed.

(** No hyphen at the start, none twice in a row. *)
Lemma slug_shape_solid prev rs r :
  slug_shape prev rs = true -> r ∈ rs -> r <> 45 -> IsSpace r = false.
Proof using HU.
  revert prev; induction rs as [|x rs IH]; intros prev H Hin Hr; [by apply elem_of_nil in Hin|].
  cbn [slug_shape] in H. apply elem_of_cons in Hin as [->|Hin].
  - destruct (IsLetter U x || IsDigit U x) eqn:E; [apply classes_solid; by rewrite E|].
    destruct (IsMark U x) eqn:E'; cbn in H; [apply classes_solid; by rewrite E, E'|].
    bool_simpl. done.
  - destruct (IsLetter U x || IsDigit U x); [by eapply IH|].
    destruct (IsMark U x && negb prev); [by eapply IH|]. bool_simpl. by eapply IH.
Qed.

Lemma slug_shape_head rs r : slug_shape true rs = true -> head rs = Some r -> r <> 45.
Proof using HU.
  pose proof (hyphen_plain (U := U)) as (Hl & Hd & Hm).
  destruct rs as [|x rs]; [done|]. cbn. intros H [= ->] ->. rewrite Hl, Hd, Hm in H. done.
Qed.

Lemma slug_shape_hyphens prev rs : slug_shape prev ((rs ++ [45]) ++ [45]) <> true.
Proof using HU.
  pose proof (hyphen_plain (U := U)) as (Hl & Hd & Hm).
  revert prev; induction rs as [|r rs IH]; intros prev; cbn.
  - rewrite Hl, Hd, Hm. by destruct prev.
  - destruct (IsLetter U r || IsDigit U r); [apply IH|].
    destruct (IsMark U r && negb prev); [apply IH|].
    intros [_ H]%andb_true_iff. by apply IH in H.
Qed.
End Facts.

Lemma rev_string_app a b : rev_string (a +:+ b) "" = rev_string b "" +:+ rev_string a "".
Proof.
  induction a as [|x a IHa]; [by rewrite append_nil_l, append_nil_r|].
  rewrite append_cons. cbn [rev_string]. rewrite (rev_string_acc _ (String x "")), IHa.
  rewrite (rev_string_acc a (String x "")), <- append_assoc. done.
Qed.

Lemma rev_string_involutive s : rev_string (rev_string s "") "" = s.
Proof.
  induction s as [|c s IH]; [done|]. cbn [rev_string]. rewrite (rev_string_acc s (String c "")), rev_string_app.
  cbn. by rewrite IH.
Qed.

Lemma TrimRight_snoc c s : TrimRight c (s +:+ String c "") = TrimRight c s.
Proof. unfold TrimRight. rewrite rev_string_app. cbn [rev_string].
  rewrite append_cons, append_nil_l. cbn [TrimLeft]. by rewrite bool_decide_eq_true_2. Qed.
Lemma TrimRight_other c d s : d <> c -> TrimRight c (s +:+ String d "") = s +:+ String d "".
Proof.
  intros H. unfold TrimRight. rewrite rev_string_app. cbn [rev_string].
  rewrite append_cons, append_nil_l. cbn [TrimLeft]. rewrite bool_decide_eq_false_2 by done.
  change (String d (rev_string s "")) with (String d "" +:+ rev_string s "").
  rewrite rev_string_app, rev_string_involutive. done.
Qed.

Lemma encode_rune_last r :
  valid_rune r = true -> r <> 45 -> exists a c, encode_rune r = a +:+ String c "" /\ c <> "-"%char.
Proof.
  intros Hv Hr.
  assert (Hc : forall z, 0 <= z < 256 -> z <> 45 -> chr z <> "-"%char).
  { intros z Hz Hz' E. apply (f_equal byte_val) in E. rewrite byte_val_chr in E by done. by cbn in E. }
  unfold encode_rune. rewrite Hv. unfold valid_rune in Hv. apply orb_true_iff in Hv.
  assert (0 <= r) by (destruct Hv; bool_simpl; lia).
  pose proof (Z.mod_pos_bound r 64).
  destruct (Z.ltb_spec r 128); [exists "", (chr r); split; [done|apply Hc; lia]|].
  destruct (Z.ltb_spec r 2048); [exists (String (chr (192 + r / 64)) ""), (chr (128 + r mod 64)); split; [done|apply Hc; lia]|].
  destruct (Z.ltb_spec r 65536).
  - exists (String (chr (224 + r / 4096)) (String (chr (128 + r / 64 mod 64)) "")), (chr (128 + r mod 64)).
    split; [done|apply Hc; lia].
  - exists (String (chr (240 + r / 262144)) (String (chr (128 + r / 4096 mod 64)) (String (chr (128 + r / 64 mod 64)) ""))), (chr (128 + r mod 64)).
    split; [done|apply Hc; lia].
Qed.

Lemma TrimRight_encode rs :
  Forall (fun r => valid_rune r = true) rs -> last rs <> Some 45 ->
  TrimRight "-"%char (encode_runes rs) = encode_runes rs.
Proof.
  intros Hv Hl. destruct rs as [|r0 rs]; [reflexivity|].
  destruct (exists_last (l := r0 :: rs) ltac:(done)) as (xs & z & E). rewrite E in *.
  rewrite last_snoc in Hl. apply Forall_app in Hv as [_ Hz]. rewrite Forall_singleton in Hz.
  destruct (encode_rune_last z) as (a & c & Hz' & Hc); [done|congruence|].
  rewrite encode_runes_app. cbn [encode_runes]. rewrite append_nil_r, Hz', append_assoc.
  by apply TrimRight_other.
Qed.

Section Idempotence.
Context (U : unicode_tables) {HU : tables_laws U}.

(** What [Make] returns, as runes. *)
Definition slug_runes (rs : list Z) : Prop :=
  slug_shape U true rs = true /\ last rs <> Some 45 /\
  Forall (fun r => valid_rune r = true /\ lower U r = r) rs.

Lemma Make_runes name : exists rs, slug_runes rs /\ Make U name = encode_runes rs.
Proof using HU.
  unfold Make. set (l := TrimSpace name).
  assert (Hv : Forall (fun r => valid_rune r = true) (lower U <$> runes l)).
  { apply Forall_fmap, (Forall_impl _ _ _ (runes_valid l)). intros r Hr. by apply lower_valid. }
  unfold ToLower. rewrite runes_encode by done.
  set (o := slug_loop U true (lower U <$> runes l)).
  assert (Ho : Forall (fun r => valid_rune r = true /\ lower U r = r) o).
  { apply Forall_forall. intros r [Hr| ->]%slug_loop_elem; [|split; [done|apply lower_hyphen]].
    split; [by eapply Forall_forall in Hv|].
    apply list_elem_of_fmap in Hr as (x & -> & _). apply lower_lower. }
  assert (Hs : slug_shape U true o = true) by apply slug_loop_shape, HU.
  assert (Hvo : Forall (fun r => valid_rune r = true) o) by (eapply Forall_impl; [exact Ho|]; by intros ? []).
  destruct (decide (last o = Some 45)) as [Hl|Hl].
  - apply last_Some in Hl as (o' & Hl). rewrite Hl in *.
    apply Forall_app in Ho as [Ho _]. apply Forall_app in Hvo as [Hvo _].
    assert (Hlast : last o' <> Some 45).
    { intros (o'' & ->)%last_Some. by eapply slug_shape_hyphens. }
    exists o'. split; [split_and!; [by apply slug_shape_snoc|done|done]|].
    rewrite encode_runes_app. change (encode_runes [45]) with (String "-"%char "").
    rewrite TrimRight_snoc. by apply TrimRight_encode.
  - exists o. split; [split_and!; done|]. by apply TrimRight_encode.
Qed.

Lemma Make_of_slug rs : slug_runes rs -> Make U (encode_runes rs) = encode_runes rs.
Proof using HU.
  intros (Hs & Hl & Hf).
  assert (Hv : Forall (fun r => valid_rune r = true) rs) by (eapply Forall_impl; [exact Hf|]; by intros ? []).
  unfold Make. rewrite TrimSpace_solid; [|done| |].
  - assert (Hlow : lower U <$> rs = rs).
    { clear Hs Hl Hv. induction Hf as [|r rs [_ Hr] _ IH]; [done|]. cbn. by rewrite Hr, IH. }
    unfold ToLower. rewrite (runes_encode rs), Hlow, runes_encode, slug_loop_id by done.
    by apply TrimRight_encode.
  - intros r Hr. eapply slug_shape_solid; [done|exact Hs| |by eapply slug_shape_head].
    destruct rs; [done|]. injection Hr as ->. apply list_elem_of_here.
  - intros r Hr. eapply slug_shape_solid; [done|exact Hs| |congruence].
    apply last_Some in Hr as (rs' & ->). apply elem_of_app. right. apply list_elem_of_here.
Qed.

(** A slug is its own slug: a name made of a stored slug finds the same row. *)
Theorem Make_idempotent name : Make U (Make U name) = Make U name.
Proof using HU. destruct (Make_runes name) as (rs & Hrs & ->). by apply Make_of_slug. Qed.
End Idempotence.
