(* ===== verification/FilePath.v ===== *)
(** Go's [path/filepath] on Unix: cleaning and joining paths, the last component and its
    extension. *)
From S2P Require Import Prelude GoStd.

(** The components [filepath.Clean] keeps, innermost first: empty ones and dots go, and
    ".." takes the component before it, or is dropped at the root. *)
Fixpoint clean_loop (rooted : bool) (kept : list string) (cs : list string) : list string :=
  match cs with
  | [] => kept
  | c :: cs =>
      if bool_decide (c = "") || bool_decide (c = ".") then clean_loop rooted kept cs
      else if bool_decide (c = "..") then
        match kept with
        | k :: kept' => if bool_decide (k = "..") then clean_loop rooted (c :: kept) cs else clean_loop rooted kept' cs
        | [] => if rooted then clean_loop rooted [] cs else clean_loop rooted [c] cs
        end
      else clean_loop rooted (c :: kept) cs
  end.
Definition IsAbs (path : string) : bool := has_prefix path "/".
Definition Clean (path : string) : string :=
  let cs := rev (clean_loop (IsAbs path) [] (Split path "/"%char)) in
  if IsAbs path then "/" +:+ Join cs "/" else if bool_decide (cs = []) then "." else Join cs "/".

(** [filepath.Join] of two elements, the first not empty. *)
Definition join_path (a b : string) : string :=
  Clean (if bool_decide (b = "") then a else a +:+ "/" +:+ b).
Definition trim_slashes (s : string) : string := rev_string (TrimLeft "/"%char (rev_string s "")) "".
Definition Base (path : string) : string :=
  if bool_decide (path = "") then "."
  else let s := trim_slashes path in if bool_decide (s = "") then "/" else default "" (last (Split s "/"%char)).
(** [filepath.Ext]: from the last dot of the last component. *)
Definition Ext (path : string) : string :=
  let s := default "" (last (Split path "/"%char)) in
  match last_index "."%char s with Some i => sdrop i s | None => "" end.

(** * Clean paths *)

(** The components cleaning keeps of a path without "..". *)
Definition kept (c : string) : bool := negb (bool_decide (c = "")) && negb (bool_decide (c = ".")).
Definition components (path : string) : list string := List.filter kept (Split path "/"%char).
(** A relative path that cleaning leaves as it is, inside the directory it is joined to. *)
Definition is_clean (path : string) : bool :=
  forallb (fun c => kept c && negb (bool_decide (c = ".."))) (Split path "/"%char).

Lemma clean_loop_kept rooted ks cs : ".." ∉ cs -> clean_loop rooted ks cs = rev (List.filter kept cs) ++ ks.
Proof.
  revert ks; induction cs as [|c cs IH]; intros ks; [done|]. rewrite not_elem_of_cons. intros [Hc Hcs]. cbn [clean_loop List.filter].
  unfold kept at 1. destruct (bool_decide (c = "")) eqn:E1; [by apply IH|]. destruct (bool_decide (c = ".")) eqn:E2; [by apply IH|].
  cbn [orb andb negb]. rewrite bool_decide_false by congruence. cbn [rev]. rewrite IH by done. by rewrite <- app_assoc.
Qed.

Lemma Clean_relative s : IsAbs s = false -> ".." ∉ Split s "/"%char ->
  Clean s = if bool_decide (components s = []) then "." else Join (components s) "/".
Proof.
  intros Ha Hd. unfold Clean. rewrite Ha, clean_loop_kept by done. rewrite app_nil_r, rev_involutive. done.
Qed.

Lemma components_plain s : ".." ∉ Split s "/"%char ->
  Forall (fun c => no_byte "/"%char c = true /\ kept c = true /\ c <> "..") (components s).
Proof.
  intros Hd. apply Forall_forall. intros c Hc. unfold components in Hc. apply list_elem_of_In, filter_In in Hc as [Hc Hk].
  apply list_elem_of_In in Hc. pose proof (Split_no_byte "/"%char s) as F. rewrite Forall_forall in F.
  split_and!; [by apply F|done|]. intros ->. done.
Qed.

Lemma Split_Clean s : IsAbs s = false -> ".." ∉ Split s "/"%char -> components s <> [] -> Split (Clean s) "/"%char = components s.
Proof.
  intros Ha Hd Hc. rewrite Clean_relative, bool_decide_false by done. apply Split_Join; [done|].
  eapply Forall_impl; [by apply components_plain|]. by intros ? [? _].
Qed.

Lemma is_clean_spec s : is_clean s = true <-> Forall (fun c => kept c = true /\ c <> "..") (Split s "/"%char).
Proof.
  unfold is_clean. rewrite forallb_forall, Forall_forall. split; intros H c Hc.
  - apply list_elem_of_In, H, andb_true_iff in Hc as [Hk Hn]. split; [done|]. by apply negb_true_iff, bool_decide_eq_false in Hn.
  - apply list_elem_of_In, H in Hc as [-> Hn]. by rewrite bool_decide_false.
Qed.

Lemma clean_is_clean s : IsAbs s = false -> ".." ∉ Split s "/"%char -> components s <> [] -> is_clean (Clean s) = true.
Proof.
  intros Ha Hd Hc. apply is_clean_spec. rewrite Split_Clean by done.
  eapply Forall_impl; [by apply components_plain|]. by intros ? (_ & ? & ?).
Qed.

Lemma is_clean_dots s : is_clean s = true -> ".." ∉ Split s "/"%char.
Proof. rewrite is_clean_spec, Forall_forall. intros H Hd. by destruct (H _ Hd). Qed.

Lemma is_clean_components s : is_clean s = true -> components s = Split s "/"%char.
Proof.
  rewrite is_clean_spec. unfold components. induction 1 as [|c cs [Hc _] _ IH]; [done|]. cbn. by rewrite Hc, IH.
Qed.

Lemma abs_split s : IsAbs s = true -> exists cs, Split s "/"%char = "" :: cs.
Proof.
  unfold IsAbs. intros [t ->]%has_prefix_spec. exists (Split t "/"%char). apply (Split_app "/"%char "" t).
Qed.
Lemma is_clean_relative s : is_clean s = true -> IsAbs s = false.
Proof.
  intros H. apply not_true_iff_false. intros [cs Hc]%abs_split. apply is_clean_spec in H. rewrite Hc in H.
  apply Forall_cons in H as [[H _] _]. done.
Qed.
Lemma Clean_id s : is_clean s = true -> Clean s = s.
Proof.
  intros H. rewrite Clean_relative by (by apply is_clean_relative || by apply is_clean_dots).
  rewrite is_clean_components, bool_decide_false by (done || apply Split_ne). apply Join_Split.
Qed.
