(* ===== verification/Paths.v ===== *)
(** Storage-path templates ([core/render/paths/paths.go]): rendering a template over a
    document's values, which variables a template reads, and cleaning the result. *)
From S2P Require Import Prelude GoStd Utf8 FilePath.

Definition maxTemplateBytes : nat := Z.to_nat (Z.shiftl 16 10).
Definition maxRenderedBytes : nat := Z.to_nat (Z.shiftl 64 10).

Inductive path_error : Type :=
  | ErrEmptyTemplate | ErrTemplateTooLong | ErrStatement | ErrUnexpectedClose | ErrUnclosed | ErrEmptyVariable
  | ErrUnsupported (expression : string) | ErrUnknown (expression : string) | ErrTooLong | ErrFuel.
#[export] Instance path_error_eq_dec : EqDecision path_error.
Proof. solve_decision. Defined.

(** * The reserved index directory *)

Definition IndexDirectory : string := "00-09 System index".

(** [strings.EqualFold] against an ASCII text: the letter case, the long s and the Kelvin
    sign are the runes that fold to ASCII. *)
Definition fold_rune (r : Z) : Z :=
  if (65 <=? r) && (r <=? 90) then r + 32 else if r =? 383 then 115 else if r =? 8490 then 107 else r.
Definition EqualFold (s t : string) : bool := bool_decide (fold_rune <$> runes s = fold_rune <$> runes t).

(** [strings.Cut] at a slash: what comes before. *)
Definition first_component (path : string) : string := default "" (head (Split path "/"%char)).
Definition IsIndexPath (path : string) : bool := EqualFold (first_component (Clean path)) IndexDirectory.

(** * Templates *)

Record Context : Type := MkContext {
  Title : string; DocPK : Z; Correspondent : string; StoragePath : string; Tags : list string;
  Created : string; Added : string; Owner : string; ASN : string;
  JDAreaCodeStart : Z; JDAreaCodeEnd : Z; JDAreaName : string; JDCategoryCode : Z; JDCategoryName : string;
  JDSystemCode : string; JDSystemName : string; JDAddress : string;
}.

Definition byte_is (s : string) (i : nat) (c : ascii) : bool :=
  match sdrop i s with String d _ => bool_decide (d = c) | EmptyString => false end.
Definition pickYear (s : string) : string :=
  if (String.length s <? 4)%nat then ""
  else match ParseInt (stake 4 s) with Ok _ => stake 4 s | Err _ => "" end.
Definition pickMonth (s : string) : string :=
  if (String.length s <? 7)%nat || negb (byte_is s 4 "-"%char) then "" else stake 2 (sdrop 5 s).
Definition pickDay (s : string) : string :=
  if (String.length s <? 10)%nat || negb (byte_is s 7 "-"%char) then "" else stake 2 (sdrop 8 s).

Definition templateValues (c : Context) : list (string * string) :=
  [("title", Title c); ("doc_pk", FormatInt (DocPK c)); ("correspondent", Correspondent c);
   ("storage_path", StoragePath c); ("tag_list", Join (Tags c) ",");
   ("created", Created c); ("created_year", pickYear (Created c)); ("created_month", pickMonth (Created c));
   ("created_day", pickDay (Created c));
   ("added", Added c); ("added_year", pickYear (Added c)); ("added_month", pickMonth (Added c));
   ("added_day", pickDay (Added c)); ("owner", Owner c); ("asn", ASN c);
   ("jd.area.code_start", FormatInt (JDAreaCodeStart c)); ("jd.area.code_end", FormatInt (JDAreaCodeEnd c));
   ("jd.area.name", JDAreaName c); ("jd.category.code", FormatInt (JDCategoryCode c));
   ("jd.category.name", JDCategoryName c); ("jd.system.code", JDSystemCode c); ("jd.system.name", JDSystemName c);
   ("jd.address", JDAddress c)].
Fixpoint lookup_value (name : string) (values : list (string * string)) : option string :=
  match values with
  | [] => None
  | (k, v) :: values => if bool_decide (k = name) then Some v else lookup_value name values
  end.

Definition name_rune (r : Z) : bool :=
  (97 <=? r) && (r <=? 122) || (48 <=? r) && (r <=? 57) || (r =? 95) || (r =? 46).
Definition validVariableName (name : string) : bool := forallb name_rune (runes name).

Definition appendBounded (out value : string) : result path_error string :=
  fail_if (maxRenderedBytes <? String.length out + String.length value)%nat with ErrTooLong in Ok (out +:+ value).

(** The loop of [Render]; every round but the last shortens the template, so its length
    is fuel enough. *)
Fixpoint render_loop (fuel : nat) (values : list (string * string)) (tpl out : string) : result path_error string :=
  match fuel with
  | O => if bool_decide (tpl = "") then Ok out else Err ErrFuel
  | S fuel =>
      if bool_decide (tpl = "") then Ok out
      else
        let open := Index tpl "{{" in
        fail_if match Index tpl "}}", open with
                | Some c, Some o => (c <? o)%nat | Some _, None => true | None, _ => false end
          with ErrUnexpectedClose in
        match open with
        | None => appendBounded out tpl
        | Some o =>
            out ← appendBounded out (stake o tpl);
            let tpl := sdrop (o + 2) tpl in
            match Index tpl "}}" with
            | None => Err ErrUnclosed
            | Some c =>
                let expression := TrimSpace (stake c tpl) in
                fail_if bool_decide (expression = "") with ErrEmptyVariable in
                fail_if Contains expression "{{" || negb (validVariableName expression) with ErrUnsupported expression in
                match lookup_value expression values with
                | None => Err (ErrUnknown expression)
                | Some value => out ← appendBounded out value; render_loop fuel values (sdrop (c + 2) tpl) out
                end
            end
        end
  end.
Definition Render (tpl : string) (ctx : Context) : result path_error string :=
  fail_if bool_decide (tpl = "") with ErrEmptyTemplate in
  fail_if (maxTemplateBytes <? String.length tpl)%nat with ErrTemplateTooLong in
  fail_if Contains tpl "{%" || Contains tpl "%}" || Contains tpl "{#" || Contains tpl "#}" with ErrStatement in
  render_loop (String.length tpl) (templateValues ctx) tpl "".

Fixpoint uses_loop (fuel : nat) (tpl name : string) : bool :=
  match fuel with
  | O => false
  | S fuel =>
      match Index tpl "{{" with
      | None => false
      | Some o =>
          let tpl := sdrop (o + 2) tpl in
          match Index tpl "}}" with
          | None => false
          | Some c => bool_decide (TrimSpace (stake c tpl) = name) || uses_loop fuel (sdrop (c + 2) tpl) name
          end
      end
  end.
Definition UsesVariable (tpl name : string) : bool := uses_loop (String.length tpl) tpl name.

(** * Cleaning *)

Definition sanitize_rune (r : Z) : option Z :=
  if r =? 47 then Some r
  else if r <? 32 then None
  else if (r =? 92) || (r =? 0) || (r =? 127) then Some 95
  else Some r.
(** [for strings.Contains(s, "//")]: each round shortens the text. *)
Fixpoint collapse_loop (fuel : nat) (s : string) : string :=
  match fuel with
  | O => s
  | S fuel => if Contains s "//" then collapse_loop fuel (ReplaceAll s "//" "/") else s
  end.
Definition SanitizePath (p : string) : string :=
  let s := encode_runes (omap sanitize_rune (runes p)) in
  let s := collapse_loop (String.length s) s in
  let s := TrimLeft "/"%char s in
  if Contains s "../" || has_suffix s "/.." || bool_decide (s = "..") then ReplaceAll s ".." "_" else s.

(** * Cleaning is safe *)

(** What a cleaned path holds no byte of: controls, backslashes and DEL. *)
Definition safe_byte (c : ascii) : bool :=
  (32 <=? byte_val c) && negb (byte_val c =? 92) && negb (byte_val c =? 127).

Lemma sanitized_bytes r r' : sanitize_rune r = Some r' -> all_bytes safe_byte (encode_rune r') = true.
Proof.
  intros H. assert (Hr : 32 <= r' /\ r' <> 92 /\ r' <> 127).
  { unfold sanitize_rune in H. destruct (Z.eqb_spec r 47); [injection H as <-; lia|].
    destruct (Z.ltb_spec r 32); [done|]. destruct (_ || _) eqn:E; injection H as <-; [lia|].
    rewrite !orb_false_iff, !Z.eqb_neq in E. lia. }
  clear H. unfold encode_rune. set (q := if valid_rune r' then r' else RuneError).
  assert (Hq : 32 <= q <= 1114111 /\ q <> 92 /\ q <> 127).
  { subst q. unfold RuneError. destruct (valid_rune r') eqn:E; [|lia]. unfold valid_rune in E.
    apply orb_true_iff in E as [E|E]; apply andb_true_iff in E as [?%Z.leb_le E]; [apply Z.ltb_lt in E|apply Z.leb_le in E]; lia. }
  clearbody q.
  assert (G : forall z, 0 <= z < 256 -> 128 <= z \/ z = q -> safe_byte (chr z) = true).
  { intros z Hz Hc. unfold safe_byte. rewrite byte_val_chr by done. rewrite !andb_true_iff, !negb_true_iff, Z.leb_le, !Z.eqb_neq. lia. }
  repeat (case_match; [cbn; rewrite ?G; try done; (Z.to_euclidean_division_equations; lia)|]).
  all: cbn; rewrite ?G; try done; rewrite ?Z.ltb_ge, ?Z.ltb_lt in *; (Z.to_euclidean_division_equations; lia).
Qed.

Lemma sanitized_all rs : all_bytes safe_byte (encode_runes (omap sanitize_rune rs)) = true.
Proof.
  induction rs as [|r rs IH]; [done|]. cbn. destruct (sanitize_rune r) eqn:E; [|done].
  cbn [encode_runes]. by rewrite all_bytes_app, (sanitized_bytes _ _ E), IH.
Qed.

Lemma collapse_bytes f fuel s :
  f "/"%char = true -> all_bytes f s = true -> all_bytes f (collapse_loop fuel s) = true.
Proof.
  intros Hf. revert s; induction fuel as [|fuel IH]; intros s Hs; [done|]. cbn [collapse_loop].
  destruct (Contains s "//"); [|done]. apply IH, replace_bytes; [cbn; by rewrite Hf|done].
Qed.

(** The loop ends: no double slash is left. *)
Lemma collapse_done fuel s : (String.length s <= fuel)%nat -> Contains (collapse_loop fuel s) "//" = false.
Proof.
  revert s; induction fuel as [|fuel IH]; intros s Hl; cbn [collapse_loop].
  - destruct s; cbn in Hl; [done|lia].
  - destruct (Contains s "//") eqn:E; [|done]. apply IH.
    pose proof (replace_shorter "//" "/" s ltac:(cbn; lia) E). lia.
Qed.

(** After [ReplaceAll] of "..", none is left: a dot that stays is followed by another byte. *)
Lemma dots_head s t : replace_loop ".." "_" 0 s = String "." t -> exists s', s = String "." s' /\ has_prefix s' "." = false.
Proof.
  destruct s as [|c s]; [done|]. cbn [replace_loop]. destruct (has_prefix (String c s) "..") eqn:E; [done|].
  intros [= -> _]. exists s. split; [done|]. cbn in E. rewrite bool_decide_true in E by done. cbn in E.
  destruct s as [|d s]; [done|]. cbn in E |- *. exact E.
Qed.

Lemma dots_gone s : forall skip, Contains (replace_loop ".." "_" skip s) ".." = false.
Proof.
  induction s as [|c s IH]; intros skip; [by destruct skip|]. destruct skip; [|apply IH].
  cbn [replace_loop]. destruct (has_prefix (String c s) "..") eqn:E.
  - change ("_" +:+ replace_loop ".." "_" (String.length ".." - 1) s) with (String "_" (replace_loop ".." "_" 1 s)).
    by rewrite Contains_cons, IH.
  - rewrite Contains_cons, IH, orb_false_r. cbn [has_prefix]. destruct (bool_decide_reflect ("."%char = c)) as [<-|]; [|done].
    cbn [andb]. destruct (replace_loop ".." "_" 0 s) as [|d t] eqn:Er; [done|].
    destruct (bool_decide_reflect ("."%char = d)) as [<-|]; [|done]. apply dots_head in Er as (s' & -> & _). done.
Qed.

(** A path component ".." shows in the text. *)
Lemma dotdot_component s :
  ".." ∈ Split s "/"%char -> Contains s "../" = true \/ has_suffix s "/.." = true \/ s = "..".
Proof.
  intros [->|[[b ->]|[[a ->]|(a & b & ->)]]]%Split_elem; [by auto| | |].
  - left. apply Contains_spec. exists "", b. done.
  - right; left. unfold has_suffix. change (String "/" "..") with "/..". rewrite append_length.
    replace (String.length a + String.length "/.." - String.length "/..")%nat with (String.length a) by lia.
    rewrite sdrop_append, bool_decide_true by done. rewrite andb_true_r. apply Nat.leb_le. lia.
  - left. apply Contains_spec. exists (a +:+ "/"), b. by rewrite <- append_assoc.
Qed.

Lemma all_bytes_TrimLeft f c s : all_bytes f s = true -> all_bytes f (TrimLeft c s) = true.
Proof.
  destruct (TrimLeft_suffix c s) as [a Ha]. rewrite Ha at 1. rewrite all_bytes_app. by intros [_ ?]%andb_true_iff.
Qed.

(** Replacing the dots makes no slash. *)
Lemma dots_slash s : forall skip, (skip <= 1)%nat -> Contains s "//" = false -> Contains (replace_loop ".." "_" skip s) "//" = false.
Proof.
  induction s as [|c s IH]; intros skip Hk; [by destruct skip|]. rewrite Contains_cons. intros [Hh Hs]%orb_false_iff.
  destruct skip as [|skip]; [|apply IH; [lia|done]]. cbn [replace_loop]. destruct (has_prefix (String c s) "..") eqn:E.
  - change ("_" +:+ replace_loop ".." "_" (String.length ".." - 1) s) with (String "_" (replace_loop ".." "_" 1 s)).
    rewrite Contains_cons, IH by (done || lia). done.
  - rewrite Contains_cons, IH by (done || lia). rewrite orb_false_r. cbn [has_prefix] in Hh |- *.
    destruct (bool_decide_reflect ("/"%char = c)) as [<-|]; [|done]. cbn [andb] in Hh |- *.
    destruct s as [|d s]; [done|]. cbn [replace_loop]. destruct (has_prefix (String d s) ".."); [done|]. exact Hh.
Qed.
Lemma dots_first s t : replace_loop ".." "_" 0 s = String "/" t -> exists s', s = String "/" s'.
Proof. destruct s as [|c s]; [done|]. cbn [replace_loop]. destruct (has_prefix _ _); [done|]. intros [= -> _]. eauto. Qed.

Lemma sanitized_path p :
  let s := SanitizePath p in
  all_bytes safe_byte s = true /\ IsAbs s = false /\ Contains s "//" = false /\ ".." ∉ Split s "/"%char.
Proof.
  unfold SanitizePath. set (s0 := encode_runes _). set (s1 := collapse_loop _ s0). set (s2 := TrimLeft "/"%char s1).
  assert (H0 : all_bytes safe_byte s2 = true) by (by apply all_bytes_TrimLeft, collapse_bytes, sanitized_all).
  assert (H1 : Contains s2 "//" = false).
  { destruct (TrimLeft_suffix "/"%char s1) as [a Ha]. fold s2 in Ha. apply (Contains_suffix a). rewrite <- Ha.
    subst s1. apply collapse_done. lia. }
  assert (H2 : forall t, s2 <> String "/" t) by (intros t; apply TrimLeft_head). clearbody s2. clear s0 s1.
  destruct (_ || _) eqn:E.
  - split_and!.
    + by apply replace_bytes.
    + unfold IsAbs. destruct (ReplaceAll s2 ".." "_") as [|c t] eqn:Er; [done|]. cbn.
      destruct (bool_decide_reflect ("/"%char = c)) as [<-|]; [|done]. apply dots_first in Er as [s' ->]. by destruct (H2 s').
    + apply dots_slash; [lia|done].
    + intros H. pose proof (dots_gone s2 0) as G. fold (ReplaceAll s2 ".." "_") in G. apply not_true_iff_false in G. apply G.
      apply Contains_spec. apply Split_elem in H as [->|[[b ->]|[[a ->]|(a & b & ->)]]].
      * by exists "", "".
      * by exists "", (String "/" b).
      * exists (a +:+ "/"), "". by rewrite <- append_assoc.
      * exists (a +:+ "/"), (String "/" b). by rewrite <- append_assoc.
  - split_and!; [done| |done|].
    + unfold IsAbs. destruct s2 as [|c t]; [done|]. cbn. destruct (bool_decide_reflect ("/"%char = c)) as [<-|]; [|done]. by destruct (H2 t).
    + intros H%dotdot_component. rewrite !orb_false_iff in E. destruct E as [[E1 E2] E3%bool_decide_eq_false].
      destruct H as [H|[H|H]]; congruence.
Qed.

(** A cleaned path stays inside the directory it is joined to, and no byte of it is a
    control, a backslash or DEL: it does not begin with a slash, holds no empty component
    but possibly a last one, and no component "..". *)
Theorem SanitizePath_safe p :
  let s := SanitizePath p in
  all_bytes safe_byte s = true /\ IsAbs s = false /\ Contains s "//" = false /\ ".." ∉ Split s "/"%char.
Proof. apply sanitized_path. Qed.

(** * Rendering *)

Lemma append_Ok out value s : appendBounded out value = Ok s -> s = out +:+ value /\ (String.length s <= maxRenderedBytes)%nat.
Proof.
  unfold appendBounded. destruct (Nat.ltb_spec maxRenderedBytes (String.length out + String.length value)); [done|].
  intros [= <-]. rewrite append_length. split; [done|lia].
Qed.
Lemma append_no_fuel out value : appendBounded out value <> Err ErrFuel.
Proof. unfold appendBounded. by case_match. Qed.

Lemma drop_shorter n s k : s <> "" -> (String.length s <= S k)%nat -> (String.length (sdrop (n + 2) s) <= k)%nat.
Proof. intros Hs Hl. rewrite sdrop_length. destruct s; [done|]. cbn in *. lia. Qed.

Lemma render_loop_total fuel values tpl out :
  (String.length tpl <= fuel)%nat -> render_loop fuel values tpl out <> Err ErrFuel.
Proof.
  revert tpl out; induction fuel as [|fuel IH]; intros tpl out Hl; cbn [render_loop].
  - destruct tpl; cbn in Hl; [done|lia].
  - destruct (bool_decide_reflect (tpl = "")) as [|Hne]; [done|]. cbv zeta.
    destruct (match Index tpl "}}" with Some _ => _ | None => _ end); [done|].
    destruct (Index tpl "{{") as [o|]; [|apply append_no_fuel].
    pose proof (append_no_fuel out (stake o tpl)) as Ha. destruct (appendBounded out (stake o tpl)); [cbn [mbind result_bind]|done].
    pose proof (drop_shorter o tpl _ Hne Hl) as Hd. destruct (Index (sdrop (o + 2) tpl) "}}"); [|done].
    case_bool_decide; [done|]. destruct (_ || _); [done|]. destruct (lookup_value _ _) as [v|]; [|done].
    pose proof (append_no_fuel a v). destruct (appendBounded a v); [cbn|done]. apply IH. rewrite sdrop_length. lia.
Qed.

Lemma render_loop_bound fuel values tpl out s :
  (String.length out <= maxRenderedBytes)%nat -> render_loop fuel values tpl out = Ok s -> (String.length s <= maxRenderedBytes)%nat.
Proof.
  revert tpl out; induction fuel as [|fuel IH]; intros tpl out Hl; cbn [render_loop].
  - case_bool_decide; [|done]. by intros [= <-].
  - case_bool_decide; [by intros [= <-]|]. cbv zeta. destruct (match Index tpl "}}" with Some _ => _ | None => _ end); [done|].
    destruct (Index tpl "{{") as [o|]; [|by intros [_ ?]%append_Ok].
    intros (a & [_ Ha]%append_Ok & Hr)%bind_Ok. destruct (Index (sdrop (o + 2) tpl) "}}"); [|done].
    case_bool_decide; [done|]. destruct (_ || _); [done|]. destruct (lookup_value _ _) as [v|]; [|done].
    apply bind_Ok in Hr as (b & [_ Hb]%append_Ok & Hr). by eapply IH.
Qed.

(** A template reads no value but those of the variables it uses. *)
Lemma render_loop_uses fuel v1 v2 tpl out :
  (forall name, uses_loop fuel tpl name = true -> lookup_value name v1 = lookup_value name v2) ->
  render_loop fuel v1 tpl out = render_loop fuel v2 tpl out.
Proof.
  revert tpl out; induction fuel as [|fuel IH]; intros tpl out H; cbn [render_loop]; [done|].
  case_bool_decide; [done|]. cbv zeta. destruct (match Index tpl "}}" with Some _ => _ | None => _ end); [done|].
  cbn [uses_loop] in H. destruct (Index tpl "{{") as [o|]; [|done].
  destruct (appendBounded out (stake o tpl)) as [a|]; cbn [mbind result_bind]; [|done].
  destruct (Index (sdrop (o + 2) tpl) "}}") as [c|]; [|done].
  case_bool_decide; [done|]. destruct (_ || _); [done|].
  rewrite <- (H (TrimSpace (stake c (sdrop (o + 2) tpl)))) by (by rewrite bool_decide_true).
  destruct (lookup_value _ _) as [v|]; [|done]. destruct (appendBounded a v) as [b|]; cbn; [|done].
  apply IH. intros name Hn. apply H. by rewrite Hn, orb_true_r.
Qed.

(** ** Templates as a list of literal pieces and variables *)

Inductive piece : Type := Lit (s : string) | Var (name : string).
Definition print_piece (p : piece) : string := match p with Lit s => s | Var name => "{{ " +:+ name +:+ " }}" end.
Fixpoint print_template (ps : list piece) : string :=
  match ps with [] => "" | p :: ps => print_piece p +:+ print_template ps end.
Definition plain_byte (c : ascii) : bool := negb (bool_decide (c = "{"%char)) && negb (bool_decide (c = "}"%char)).
Definition piece_ok (values : list (string * string)) (p : piece) : Prop :=
  match p with
  | Lit s => all_bytes plain_byte s = true
  | Var name => is_Some (lookup_value name values)
  end.
Definition piece_value (values : list (string * string)) (p : piece) : string :=
  match p with Lit s => s | Var name => default "" (lookup_value name values) end.
Fixpoint substitute (values : list (string * string)) (ps : list piece) : string :=
  match ps with [] => "" | p :: ps => piece_value values p +:+ substitute values ps end.

Lemma plain_open s : all_bytes plain_byte s = true -> all_bytes (fun d => negb (bool_decide (d = "{"%char))) s = true.
Proof.
  induction s as [|c s IH]; [done|]. cbn. intros [Hc Hs]%andb_true_iff. apply andb_true_iff in Hc as [-> _]. by apply IH.
Qed.
Lemma plain_close s : all_bytes plain_byte s = true -> all_bytes (fun d => negb (bool_decide (d = "}"%char))) s = true.
Proof.
  induction s as [|c s IH]; [done|]. cbn. intros [Hc Hs]%andb_true_iff. apply andb_true_iff in Hc as [_ ->]. by apply IH.
Qed.

(** The names the code knows: letters, digits, dots and underscores, nothing to trim. *)
Lemma known_names c name :
  is_Some (lookup_value name (templateValues c)) ->
  all_bytes plain_byte name = true /\ TrimSpace (" " +:+ name +:+ " ") = name /\ name <> "" /\
  Contains name "{{" = false /\ validVariableName name = true.
Proof.
  assert (G : forall l : list (string * string), is_Some (lookup_value name l) -> name ∈ l.*1).
  { induction l as [|[k v] l IH]; cbn; [by intros [? ?]|]. case_bool_decide; [subst; intros; apply list_elem_of_here|].
    intros H'. apply list_elem_of_further. auto. }
  intros H%G. unfold templateValues in H. cbn [fmap list_fmap fst] in H. rewrite !elem_of_cons, elem_of_nil in H.
  decompose [or] H; try done; subst name; vm_compute; split_and!; done.
Qed.

(** One literal piece and one variable at the head of a template. *)
Lemma render_tail fuel values s out :
  all_bytes plain_byte s = true -> s <> "" -> (0 < fuel)%nat -> render_loop fuel values s out = appendBounded out s.
Proof.
  intros Hs Hne Hf. destruct fuel; [lia|]. cbn [render_loop]. rewrite bool_decide_false by done.
  rewrite (index_none "{"%char "{"), (index_none "}"%char "}") by (by apply plain_open || by apply plain_close). done.
Qed.

Lemma render_var fuel c lit name rest out :
  all_bytes plain_byte lit = true -> is_Some (lookup_value name (templateValues c)) ->
  render_loop (S fuel) (templateValues c) (lit +:+ ("{{ " +:+ name +:+ " }}") +:+ rest) out =
    (out ← appendBounded out lit;
     out ← appendBounded out (default "" (lookup_value name (templateValues c)));
     render_loop fuel (templateValues c) rest out).
Proof.
  intros Hl Hn. destruct (known_names c name Hn) as (Hp & Ht & Hne & Hc & Hv). cbn [render_loop].
  set (tpl := lit +:+ _). rewrite bool_decide_false by (subst tpl; by destruct lit).
  assert (Ho : Index tpl "{{" = Some (String.length lit)).
  { subst tpl. rewrite (index_skip "{"%char "{") by (by apply plain_open). rewrite <- !append_assoc.
    change ("{{ " +:+ name +:+ " }}" +:+ rest) with ("{{" +:+ (" " +:+ (name +:+ " }}" +:+ rest))).
    rewrite index_here. cbn. f_equal. lia. }
  assert (Hd : sdrop (String.length lit + 2) tpl = (" " +:+ name +:+ " ") +:+ "}}" +:+ rest).
  { subst tpl. replace (String.length lit + 2)%nat with (String.length (lit +:+ "{{")) by (by rewrite append_length).
    replace (lit +:+ ("{{ " +:+ name +:+ " }}") +:+ rest) with ((lit +:+ "{{") +:+ (" " +:+ name +:+ " ") +:+ "}}" +:+ rest).
    - apply sdrop_append.
    - rewrite <- !append_assoc. done. }
  assert (Hb : forall a, all_bytes (fun d => negb (bool_decide (d = "}"%char))) a = true ->
    Index (a +:+ "}}" +:+ rest) "}}" = Some (String.length a)).
  { intros a Ha. rewrite (index_skip "}"%char "}"), index_here by done. cbn. f_equal. lia. }
  assert (Hin : all_bytes (fun d => negb (bool_decide (d = "}"%char))) (" " +:+ name +:+ " ") = true).
  { rewrite !all_bytes_app, (plain_close name) by done. done. }
  assert (Hclose : Index tpl "}}" = Some (String.length (lit +:+ "{{" +:+ " " +:+ name +:+ " "))).
  { rewrite <- Hb. 2: { rewrite (all_bytes_app _ lit), (plain_close lit) by done. exact Hin. }
    f_equal. subst tpl. rewrite <- !append_assoc. done. }
  rewrite Hclose, Ho. rewrite append_length. rewrite (proj2 (Nat.ltb_ge _ _)) by lia.
  assert (Hs : stake (String.length lit) tpl = lit) by (subst tpl; apply stake_append).
  rewrite Hs, Hd. destruct (appendBounded out lit) as [a|]; cbn [mbind result_bind]; [|done].
  rewrite Hb, stake_append, Ht by done. rewrite bool_decide_false, Hc, Hv by done. cbn [orb negb].
  destruct Hn as [v ->]. change (default "" (Some v)) with v. destruct (appendBounded a v) as [b|]; cbn [mbind result_bind]; [|done].
  f_equal. set (w := " " +:+ name +:+ " "). rewrite (append_assoc w).
  replace (String.length w + 2)%nat with (String.length (w +:+ "}}")) by (by rewrite append_length). apply sdrop_append.
Qed.

Lemma append_append out x y : (a ← appendBounded out x; appendBounded a y) = appendBounded out (x +:+ y).
Proof.
  unfold appendBounded. destruct (Nat.ltb_spec maxRenderedBytes (String.length out + String.length x)); cbn [mbind result_bind];
    rewrite !append_length, ?append_assoc.
  - by rewrite (proj2 (Nat.ltb_lt _ _)) by lia.
  - by rewrite Nat.add_assoc.
Qed.

Lemma render_loop_print c ps : forall fuel lit out,
  Forall (piece_ok (templateValues c)) ps -> all_bytes plain_byte lit = true ->
  (String.length out <= maxRenderedBytes)%nat -> (String.length (lit +:+ print_template ps) <= fuel)%nat ->
  render_loop fuel (templateValues c) (lit +:+ print_template ps) out =
    appendBounded out (lit +:+ substitute (templateValues c) ps).
Proof.
  induction ps as [|[s|name] ps IH]; intros fuel lit out Hok Hlit Hout Hf; cbn [print_template substitute print_piece piece_value].
  - rewrite !append_nil_r. cbn [print_template] in Hf. rewrite append_nil_r in Hf. destruct (decide (lit = "")) as [->|Hne].
    + unfold appendBounded. rewrite (proj2 (Nat.ltb_ge _ _)) by (cbn; lia). rewrite append_nil_r. by destruct fuel.
    + apply render_tail; [done..|]. destruct lit; [done|]. cbn in Hf. lia.
  - apply Forall_cons in Hok as [Hs Hok]. rewrite !append_assoc. apply IH; try done.
    + rewrite all_bytes_app, Hlit. exact Hs.
    + by rewrite <- append_assoc.
  - apply Forall_cons in Hok as [Hn Hok]. cbn [print_template print_piece] in Hf.
    rewrite !append_length in Hf. destruct fuel as [|fuel]; [cbn in Hf; lia|]. rewrite render_var by done.
    rewrite <- append_append. destruct (appendBounded out lit) as [a|] eqn:Ea; cbn [mbind result_bind]; [|done].
    rewrite <- append_append. destruct (appendBounded a _) as [b|] eqn:Eb; cbn [mbind result_bind]; [|done].
    apply append_Ok in Eb as [_ Hb]. specialize (IH fuel "" b Hok eq_refl Hb). rewrite !append_nil_l in IH. apply IH. cbn in Hf. lia.
Qed.

Lemma render_print c ps :
  let tpl := print_template ps in
  Forall (piece_ok (templateValues c)) ps -> tpl <> "" -> (String.length tpl <= maxTemplateBytes)%nat ->
  Contains tpl "{%" || Contains tpl "%}" || Contains tpl "{#" || Contains tpl "#}" = false ->
  Render tpl c = appendBounded "" (substitute (templateValues c) ps).
Proof.
  intros tpl Hok Hne Hl Hs. unfold Render. rewrite bool_decide_false, (proj2 (Nat.ltb_ge _ _)), Hs by done.
  apply (render_loop_print c ps (String.length (print_template ps)) "" ""); [done|done|cbn; lia|reflexivity].
Qed.

(** Rendering a template is substituting its variables.  A template put together from
    pieces of text without braces and known variables renders to the concatenation of
    the pieces and the variables' values, provided the template is not empty, holds at
    most 16 KiB and no statement or comment delimiter, and the result at most 64 KiB;
    a longer result is refused.  Of any template whatever, the loop ends, the result is
    at most 64 KiB long, and it is the same for two documents that agree on the variables
    [UsesVariable] reports. *)
Theorem Render_spec tpl c :
  Render tpl c <> Err ErrFuel /\
  (forall s, Render tpl c = Ok s -> (String.length s <= maxRenderedBytes)%nat) /\
  (forall c', (forall name, UsesVariable tpl name = true ->
                 lookup_value name (templateValues c) = lookup_value name (templateValues c')) ->
     Render tpl c = Render tpl c') /\
  (forall ps, tpl = print_template ps -> Forall (piece_ok (templateValues c)) ps ->
     tpl <> "" -> (String.length tpl <= maxTemplateBytes)%nat ->
     Contains tpl "{%" || Contains tpl "%}" || Contains tpl "{#" || Contains tpl "#}" = false ->
     Render tpl c = appendBounded "" (substitute (templateValues c) ps)).
Proof.
  split_and!.
  - unfold Render. repeat (case_match; [done|]). apply render_loop_total. lia.
  - intros s. unfold Render. repeat (case_match; [done|]). apply render_loop_bound. cbn. lia.
  - intros c' H. unfold Render. by rewrite (render_loop_uses _ _ (templateValues c') tpl "" H).
  - intros ps -> Hok Hne Hl Hs. by apply render_print.
Qed.

(** * Witnesses *)

Definition ctx0 : Context := MkContext "Tax" 7 "" "" [] "2026-03-02" "" "" "" 10 19 "Home" 13 "Utilities" "S01" "" "S01.13".
Lemma Render_spec_witness :
  Render "Letters/{{ created_year }}/{{ title }}" ctx0 = Ok "Letters/2026/Tax" /\
  (String.length "Letters/2026/Tax" <= maxRenderedBytes)%nat.
Proof.
  assert (H : Render "Letters/{{ created_year }}/{{ title }}" ctx0 = Ok "Letters/2026/Tax").
  { destruct (Render_spec "Letters/{{ created_year }}/{{ title }}" ctx0) as (_ & _ & _ & H).
    rewrite (H [Lit "Letters/"; Var "created_year"; Lit "/"; Var "title"]).
    - vm_compute. reflexivity.
    - reflexivity.
    - repeat constructor; cbn; eauto.
    - discriminate.
    - apply Nat.leb_le. vm_compute. reflexivity.
    - vm_compute. reflexivity. }
  split; [exact H|]. exact (proj1 (proj2 (Render_spec _ ctx0)) _ H).
Defined.
