(* ===== verification/Mime.v ===== *)
(** The registry of document formats ([core/mimeutil]): the table of MIME labels, their
    filename extensions and the tools that read them, and the refining of generic labels.  [strings.ToLower] is
    a parameter. *)
From S2P Require Import Prelude GoStd Utf8 FilePath.

(** [formatFlags]: one bit per capability. *)
Definition formatPDF : Z := 1.
Definition formatAnyDoc : Z := 2.
Definition formatRasterImage : Z := 4.
Definition formatEmail : Z := 8.
Definition formatOutlook : Z := 16.
Definition formatDjVu : Z := 32.
Definition formatDirectText : Z := 64.

Record Format : Type := MkFormat { MIME : string; f_extension : string; flags : Z }.
Definition has_flag (f : Format) (flag : Z) : bool := negb (Z.land (flags f) flag =? 0).
Definition IsPDF (f : Format) : bool := has_flag f formatPDF.
Definition IsAnyDoc (f : Format) : bool := has_flag f formatAnyDoc.
Definition IsRasterImage (f : Format) : bool := has_flag f formatRasterImage.
Definition IsEmail (f : Format) : bool := has_flag f formatEmail.
Definition IsOutlook (f : Format) : bool := has_flag f formatOutlook.
Definition IsDjVu (f : Format) : bool := has_flag f formatDjVu.
Definition IsDirectText (f : Format) : bool := has_flag f formatDirectText.
Definition IsImage (f : Format) : bool := has_prefix (MIME f) "image/".

Record formatDefinition : Type := MkDefinition {
  d_mime : string; d_extension : string; filenameExtensions : list string; d_flags : Z;
}.
Definition formatDefinitions : list formatDefinition := [
  MkDefinition "application/pdf" ".pdf" [] formatPDF;
  MkDefinition "application/epub+zip" ".epub" [".epub"] formatAnyDoc;
  MkDefinition "application/epub" ".epub" [] formatAnyDoc;
  MkDefinition "application/msword" ".doc" [".doc"] formatAnyDoc;
  MkDefinition "application/vnd.openxmlformats-officedocument.wordprocessingml.document" ".docx" [".docx"] formatAnyDoc;
  MkDefinition "application/vnd.ms-word.document.macroenabled.12" ".docm" [".docm"] formatAnyDoc;
  MkDefinition "application/vnd.ms-powerpoint" ".ppt" [".pot"; ".pps"; ".ppt"] formatAnyDoc;
  MkDefinition "application/vnd.openxmlformats-officedocument.presentationml.presentation" ".pptx" [".pptx"] formatAnyDoc;
  MkDefinition "application/vnd.ms-powerpoint.presentation.macroenabled.12" ".pptm" [".pptm"] formatAnyDoc;
  MkDefinition "application/vnd.openxmlformats-officedocument.presentationml.slideshow" ".ppsx" [".ppsx"] formatAnyDoc;
  MkDefinition "application/vnd.ms-powerpoint.slideshow.macroenabled.12" ".ppsm" [".ppsm"] formatAnyDoc;
  MkDefinition "application/vnd.ms-excel" ".xls" [".xls"] formatAnyDoc;
  MkDefinition "application/vnd.openxmlformats-officedocument.spreadsheetml.sheet" ".xlsx" [".xlsx"] formatAnyDoc;
  MkDefinition "application/vnd.ms-excel.sheet.macroenabled.12" ".xlsm" [".xlsm"] formatAnyDoc;
  MkDefinition "application/vnd.ms-excel.sheet.binary.macroenabled.12" ".xlsb" [".xlsb"] formatAnyDoc;
  MkDefinition "application/vnd.oasis.opendocument.text" ".odt" [".odt"] formatAnyDoc;
  MkDefinition "application/vnd.oasis.opendocument.spreadsheet" ".ods" [".ods"] formatAnyDoc;
  MkDefinition "application/vnd.oasis.opendocument.presentation" ".odp" [".odp"] formatAnyDoc;
  MkDefinition "application/rtf" ".rtf" [".rtf"] formatAnyDoc;
  MkDefinition "text/rtf" ".rtf" [] formatAnyDoc;
  MkDefinition "text/csv" ".csv" [".csv"] formatAnyDoc;
  MkDefinition "image/jpeg" ".jpg" [] formatRasterImage;
  MkDefinition "image/jpg" ".jpg" [] formatRasterImage;
  MkDefinition "image/pjpeg" ".jpg" [] formatRasterImage;
  MkDefinition "image/png" ".png" [] formatRasterImage;
  MkDefinition "image/tiff" ".tiff" [] formatRasterImage;
  MkDefinition "image/x-tiff" ".tiff" [] formatRasterImage;
  MkDefinition "image/heic" ".heic" [".heic"] formatRasterImage;
  MkDefinition "image/heif" ".heif" [".heif"] formatRasterImage;
  MkDefinition "image/heic-sequence" ".heic" [] formatRasterImage;
  MkDefinition "image/heif-sequence" ".heif" [] formatRasterImage;
  MkDefinition "image/webp" ".webp" [] formatRasterImage;
  MkDefinition "image/gif" ".gif" [] formatRasterImage;
  MkDefinition "image/bmp" ".bmp" [] formatRasterImage;
  MkDefinition "image/x-bmp" ".bmp" [] formatRasterImage;
  MkDefinition "image/x-ms-bmp" ".bmp" [] formatRasterImage;
  MkDefinition "image/avif" ".avif" [] 0;
  MkDefinition "image/svg+xml" ".svg" [] 0;
  MkDefinition "image/vnd.djvu" ".djvu" [".djv"; ".djvu"] formatDjVu;
  MkDefinition "image/x-djvu" ".djvu" [] formatDjVu;
  MkDefinition "image/djvu" ".djvu" [] formatDjVu;
  MkDefinition "message/rfc822" ".eml" [".eml"] formatEmail;
  MkDefinition "message/global" ".eml" [] formatEmail;
  MkDefinition "application/vnd.ms-outlook" ".msg" [".msg"] formatOutlook;
  MkDefinition "application/x-outlook-msg" ".msg" [] formatOutlook;
  MkDefinition "application/ms-outlook" ".msg" [] formatOutlook;
  MkDefinition "text/plain" ".txt" [] formatDirectText;
  MkDefinition "text/markdown" ".md" [".md"; ".markdown"] formatDirectText;
  MkDefinition "text/html" ".html" [] formatDirectText].

Section Mime.
Context (to_lower : string -> string).

Definition normalizeMIME (mimeType : string) : string :=
  to_lower (TrimSpace (match Index mimeType ";" with Some i => stake i mimeType | None => mimeType end)).

(** The maps that [init] fills, and where it panics. *)
Record registry : Type := MkRegistry { formatsByMIME : gmap string Format; mimeByFilenameExtension : gmap string string }.
Fixpoint init_extensions (mime : string) (exts : list string) (m : gmap string string) : option (gmap string string) :=
  match exts with
  | [] => Some m
  | e :: exts => if bool_decide (default "" (m !! e) = "") then init_extensions mime exts (<[e := mime]> m) else None
  end.
Fixpoint init_loop (defs : list formatDefinition) (r : registry) : option registry :=
  match defs with
  | [] => Some r
  | d :: defs =>
      if negb (bool_decide (d_mime d = normalizeMIME (d_mime d))) then None
      else if bool_decide (is_Some (formatsByMIME r !! d_mime d)) then None
      else match init_extensions (d_mime d) (filenameExtensions d) (mimeByFilenameExtension r) with
           | Some m => init_loop defs (MkRegistry (<[d_mime d := MkFormat (d_mime d) (d_extension d) (d_flags d)]> (formatsByMIME r)) m)
           | None => None
           end
  end.
Definition init : option registry := init_loop formatDefinitions (MkRegistry ∅ ∅).

Definition Lookup (r : registry) (mimeType : string) : Format :=
  let mimeType := normalizeMIME mimeType in
  default (MkFormat mimeType "" 0) (formatsByMIME r !! mimeType).
Definition Extension (r : registry) (mimeType : string) : string := f_extension (Lookup r mimeType).

(** ** Refining generic labels ([core/mimeutil/refine.go]); [net/http]'s sniffing and
    [mime.ParseMediaType] are parameters. *)
Context (sniff : string -> string) (ParseMediaType : string -> option string).

Definition SniffBytes : nat := 1024.
Definition DetectContentType (data : string) : string :=
  let detected := sniff data in
  let base := normalizeMIME detected in
  if negb (bool_decide (base = "application/octet-stream")) && negb (bool_decide (base = "text/plain")) then detected
  else
    let head := stake SniffBytes data in
    match Index head "%PDF-" with
    | None => detected
    | Some i => if bool_decide (base = "text/plain") && negb (bool_decide (TrimSpace (stake i head) = "")) then detected
                else "application/pdf"
    end.
Definition RefineByContent (declared data : string) : string :=
  match ParseMediaType declared with
  | Some base => if Contains base "/" && negb (bool_decide (base = "application/octet-stream")) then declared else DetectContentType data
  | None => DetectContentType data
  end.
Definition RefineByFilename (r : registry) (detected filename : string) : string :=
  let base := normalizeMIME detected in
  if negb (bool_decide (base = "application/octet-stream")) && negb (bool_decide (base = "application/x-ole-storage"))
     && negb (bool_decide (base = "application/zip")) && negb (bool_decide (base = "text/plain")) then detected
  else
    let refined := default "" (mimeByFilenameExtension r !! to_lower (Ext filename)) in
    if bool_decide (refined = "") then detected else refined.
End Mime.

(** [init] never panics: the labels of the table are normalized and distinct, and no
    filename extension is listed twice. *)
Lemma init_ok to_lower :
  Forall (fun d => to_lower (d_mime d) = d_mime d) formatDefinitions -> is_Some (init to_lower).
Proof.
  intros H. assert (E : init to_lower = init (fun s => s)); [|rewrite E; vm_compute; eauto].
  unfold init. generalize (MkRegistry ∅ ∅).
  assert (G : Forall (fun d => normalizeMIME to_lower (d_mime d) = normalizeMIME (fun s => s) (d_mime d)) formatDefinitions).
  { assert (T : Forall (fun d => normalizeMIME (fun s => s) (d_mime d) = d_mime d) formatDefinitions)
      by (repeat constructor).
    rewrite Forall_forall in H, T. apply Forall_forall. intros d Hd. rewrite (T d Hd). specialize (T d Hd).
    unfold normalizeMIME in *. rewrite T. by apply H. }
  clear H. induction G as [|d defs Hd _ IH]; intros r; [done|]. cbn [init_loop]. rewrite Hd.
  destruct (negb _); [done|]. destruct (bool_decide _); [done|]. destruct (init_extensions _ _ _); [apply IH|done].
Qed.
