(* ===== verification/CustomField.v ===== *)
(** Typed custom-field values ([core/customfield/customfield.go]) and the handlers that
    define fields and write values ([core/api/custom_fields.go],
    [core/api/custom_field_values.go]).

    A raw value is Go's [any] as JSON decoding and the importers produce it, a typed one
    what a handler's [Validate] returns.  [float64] is [SpecFloat.spec_float]; decimal
    parsing and printing of floats, [url.Parse], JSON text and [strings.ToLower] are
    parameters. *)
From Stdlib Require Import SpecFloat.
From S2P Require Import Prelude GoStd Utf8 Sqlite GoTime Amount.

(** * Floats *)

Definition float64 : Type := spec_float.
Definition float_of_int (z : Z) : float64 := binary_normalize 53 1024 z 0 false.
Definition is_zero (v : float64) : bool := match v with S754_zero _ => true | _ => false end.

(** [math.Trunc] of a finite value, as an integer. *)
Definition trunc (s : bool) (m : positive) (e : Z) : Z :=
  let n := if 0 <=? e then Z.pos m * 2 ^ e else Z.pos m / 2 ^ (- e) in if s then - n else n.
(** [v == math.Trunc(v) && math.Abs(v) <= 1<<53], and the value. *)
Definition whole (v : float64) : option Z :=
  match v with
  | S754_zero _ => Some 0
  | S754_finite s m e =>
      if ((0 <=? e) || (Z.pos m mod 2 ^ (- e) =? 0)) && (Z.abs (trunc s m e) <=? 2 ^ 53)
      then Some (trunc s m e) else None
  | _ => None
  end.

(** What a REAL column keeps of a bound value: SQLite stores NaN as NULL and a negative
    zero as 0. *)
Definition store_real (v : float64) : option float64 :=
  match v with S754_nan => None | S754_zero _ => Some (S754_zero false) | _ => Some v end.

(** * Values *)

Inductive raw_value : Type :=
  | RNil | RBool (b : bool) | RFloat (v : float64) | RNumber (s : string) (* json.Number *)
  | RInt (z : Z) | RInt64 (z : Z) | RString (s : string)
  | RList (l : list raw_value)                (* []any *)
  | RStrings (l : option (list string))       (* []string, [None] when nil *)
  | ROther.
Inductive typed_value : Type :=
  | TString (s : string) | TFloat (v : float64) | TInt64 (z : Z) | TBool (b : bool)
  | TStrings (l : option (list string)).

Inductive field_error : Type :=
  | ErrUnsupported (what : string) | ErrParse (what : string) | ErrURLScheme
  | ErrChoicesMissing | ErrExtraParse | ErrChoicesEmpty | ErrNotInChoices (x : string)
  | ErrNotWhole | ErrLinkNegative | ErrCannotRender | ErrMarshal
  | ErrNoRows | ErrDocumentLinkSelf | ErrDocumentLinkSameFamily | ErrOtherSystem
  | ErrAbort (message : string) | ErrForeignKey | ErrUnique
  | ErrPanic                                  (* a failed type assertion *)
  | ErrForbidden | ErrNotFound | ErrTypeInUse | ErrChoiceInUse | ErrManaged | ErrNameReserved
  | ErrInput (code : string).
#[export] Instance field_error_eq_dec : EqDecision field_error.
Proof. solve_decision. Defined.

(** * Tables *)

Record ValueRow : Type := MkRow {
  Text : option string; Number : option float64; Int : option Z; Bool : option Z; Date : option Z;
}.
Definition no_values : ValueRow := MkRow None None None None None.
Record field : Type := Field {
  f_system : Z; f_name : string; f_data_type : string; f_extra : string; f_managed_by : string;
}.
Record doc : Type := Doc { doc_system : Z; doc_trashed : bool; doc_family : option string }.
Record store : Type := Store {
  documents : gmap Z doc;
  custom_fields : gmap Z field;
  field_values : gmap (Z * Z) ValueRow;       (* (document_id, field_id) *)
  fs_watch : gmap (string * Z * Z * string) string; (* (root, owner, system, path) to state *)
}.
Definition with_documents (f : gmap Z doc -> gmap Z doc) (s : store) : store :=
  Store (f (documents s)) (custom_fields s) (field_values s) (fs_watch s).
Definition with_fields (f : gmap Z field -> gmap Z field) (s : store) : store :=
  Store (documents s) (f (custom_fields s)) (field_values s) (fs_watch s).
Definition with_values (f : gmap (Z * Z) ValueRow -> gmap (Z * Z) ValueRow) (s : store) : store :=
  Store (documents s) (custom_fields s) (f (field_values s)) (fs_watch s).

Definition DataTypes : list string :=
  ["text"; "number"; "date"; "bool"; "select"; "multi"; "url"; "monetary"; "documentlink"].

(** * Writers *)

Definition deleteRow (docID fieldID : Z) (s : store) : store := with_values (delete (docID, fieldID)) s.

(** The topology trigger of document links. *)
Definition same_family (s : store) (docID targetID : Z) : bool :=
  match documents s !! docID, documents s !! targetID with
  | Some d, Some t =>
      (doc_system d =? doc_system t) &&
      match doc_family d with Some k => bool_decide (doc_family t = Some k) | None => false end
  | _, _ => false
  end.
Definition bad_topology (s : store) (docID fieldID : Z) (v : ValueRow) : bool :=
  match Int v with
  | Some target =>
      bool_decide (f_data_type <$> custom_fields s !! fieldID = Some "documentlink") &&
      ((docID =? target) || same_family s docID target)
  | None => false
  end.

(** The upsert sets one column and clears the others: the row it leaves is the new one.
    The triggers of the table come first, then the foreign keys. *)
Definition upsertValue (docID fieldID : Z) (v : ValueRow) (s : store) : result field_error store :=
  require bool_decide (doc_system <$> documents s !! docID = f_system <$> custom_fields s !! fieldID)
    else ErrAbort "cross-system reference" in
  fail_if bad_topology s docID fieldID v with ErrAbort "invalid document link topology" in
  require bool_decide (is_Some (documents s !! docID)) && bool_decide (is_Some (custom_fields s !! fieldID))
    else ErrForeignKey in
  Ok (with_values <[(docID, fieldID) := v]> s).

Definition text_row (x : string) : ValueRow := MkRow (Some x) None None None None.
Definition number_row (v : float64) : ValueRow := MkRow None (store_real v) None None None.
Definition int_row (z : Z) : ValueRow := MkRow None None (Some z) None None.
Definition bool_row (b : bool) : ValueRow := MkRow None None None (Some (Z.b2z b)) None.
Definition date_row (z : Z) : ValueRow := MkRow None None None None (Some z).

Definition writeText (docID fieldID : Z) (x : string) (s : store) : result field_error store :=
  if bool_decide (x = "") then Ok (deleteRow docID fieldID s) else upsertValue docID fieldID (text_row x) s.
Definition writeNumber (docID fieldID : Z) (v : float64) : store -> result field_error store :=
  upsertValue docID fieldID (number_row v).
Definition writeInt (docID fieldID : Z) (z : Z) : store -> result field_error store :=
  upsertValue docID fieldID (int_row z).
Definition writeBool (docID fieldID : Z) (b : bool) : store -> result field_error store :=
  upsertValue docID fieldID (bool_row b).
Definition writeDate (docID fieldID : Z) (z : Z) : store -> result field_error store :=
  upsertValue docID fieldID (date_row z).

Definition WriteDocumentLinkInTx (docID fieldID targetID : Z) (allowCrossSystem : bool) (s : store)
    : result field_error store :=
  match documents s !! docID, custom_fields s !! fieldID with
  | Some d, Some f =>
      require (f_system f =? doc_system d) && negb (doc_trashed d) && bool_decide (f_data_type f = "documentlink")
        else ErrNoRows in
      if targetID =? 0 then Ok (deleteRow docID fieldID s)
      else fail_if targetID =? docID with ErrDocumentLinkSelf in
      match documents s !! targetID with
      | Some t =>
          fail_if doc_trashed t with ErrNoRows in
          let same := doc_system t =? doc_system d in
          fail_if same && match doc_family d with Some k => bool_decide (doc_family t = Some k) | None => false end
            with ErrDocumentLinkSameFamily in
          fail_if negb same && negb allowCrossSystem with ErrOtherSystem in
          writeInt docID fieldID targetID s
      | None => Err ErrNoRows
      end
  | _, _ => Err ErrNoRows
  end.

(** * Handlers *)

Record Handler : Type := MkHandler {
  Name : string;
  Validate : string -> raw_value -> result field_error typed_value;
  Write : Z -> Z -> typed_value -> store -> result field_error store;
  Render : ValueRow -> string;
}.

Section Handlers.
Context (ParseFloat : string -> option float64) (FormatFloat : float64 -> string) (FormatFloat2 : float64 -> string).
Context (IsLetter IsCurrency : Z -> bool) (int64_overflow : float64 -> Z).   (* a conversion Go leaves open *)
Context (url_scheme : string -> option string).                               (* [url.Parse] *)
Context (marshal_strings : option (list string) -> string) (unmarshal_strings : string -> option (list string)).
Context (unmarshal_choices : string -> option (list string)).
Context (to_lower : string -> string).

Definition coerceString (raw : raw_value) : result field_error string :=
  match raw with
  | RString v => Ok (TrimSpace v)
  | RNumber v => Ok v
  | RFloat v => Ok (FormatFloat v)
  | RBool b => Ok (if b then "true" else "false")
  | RNil => Ok ""
  | _ => Err (ErrUnsupported "string")
  end.

Definition parse_float (s : string) : result field_error float64 :=
  match ParseFloat s with Some v => Ok v | None => Err (ErrParse "float") end.
Definition parse_int (s : string) : result field_error Z :=
  match ParseInt s with Ok v => Ok v | Err _ => Err (ErrParse "int") end.

Definition coerceFloat (raw : raw_value) : result field_error float64 :=
  match raw with
  | RFloat v => Ok v
  | RNumber s => parse_float s
  | RInt z | RInt64 z => Ok (float_of_int z)
  | RString v =>
      let s := TrimSpace v in
      if bool_decide (s = "") then Ok (S754_zero false) else parse_float s
  | RNil => Ok (S754_zero false)
  | _ => Err (ErrUnsupported "number")
  end.

Definition coerceInt64 (raw : raw_value) : result field_error Z :=
  match raw with
  | RFloat v => match whole v with Some z => Ok z | None => Err ErrNotWhole end
  | RInt z | RInt64 z => Ok z
  | RNumber s => parse_int s
  | RString v => let s := TrimSpace v in if bool_decide (s = "") then Ok 0 else parse_int s
  | RNil => Ok 0
  | _ => Err (ErrUnsupported "int")
  end.

(** [int64(v)]: towards zero where the result fits. *)
Definition to_int64 (v : float64) : Z :=
  match v with
  | S754_zero _ => 0
  | S754_finite s m e =>
      let z := trunc s m e in
      if (MinInt64 <=? z) && (z <=? MaxInt64) then z else int64_overflow v
  | _ => int64_overflow v
  end.

Definition coerceDate (raw : raw_value) : result field_error Z :=
  match raw with
  | RFloat v => Ok (to_int64 v)
  | RInt z | RInt64 z => Ok z
  | RNumber s => parse_int s
  | RString v =>
      let s := TrimSpace v in
      if bool_decide (s = "") then Ok 0
      else match parse_date s with Some dt => Ok (date_unix dt) | None => parse_int s end
  | RNil => Ok 0
  | _ => Err (ErrUnsupported "date")
  end.

Definition parseChoices (extra : string) : result field_error (list string) :=
  fail_if bool_decide (extra = "") || bool_decide (extra = "{}") with ErrChoicesMissing in
  match unmarshal_choices extra with
  | None => Err ErrExtraParse
  | Some [] => Err ErrChoicesEmpty
  | Some choices => Ok choices
  end.
Definition contains (xs : list string) (want : string) : bool := existsb (fun x => bool_decide (x = want)) xs.

(** A failed assertion [typed.(T)]. *)
Definition write_string (docID fieldID : Z) (typed : typed_value) (s : store) : result field_error store :=
  match typed with TString x => writeText docID fieldID x s | _ => Err ErrPanic end.
Definition render_text (row : ValueRow) : string := default "" (Text row).

Definition handlerText : Handler := MkHandler "text"
  (fun _ raw => TString <$> coerceString raw) write_string render_text.

Definition validateURL (raw : raw_value) : result field_error typed_value :=
  s ← coerceString raw;
  if bool_decide (s = "") then Ok (TString s)
  else match url_scheme s with
       | None => Err (ErrParse "url")
       | Some scheme =>
           require bool_decide (scheme = "http") || bool_decide (scheme = "https") else ErrURLScheme in
           Ok (TString s)
       end.
Definition handlerURL : Handler := MkHandler "url" (fun _ => validateURL) write_string render_text.

Definition write_float (docID fieldID : Z) (typed : typed_value) (s : store) : result field_error store :=
  match typed with TFloat v => writeNumber docID fieldID v s | _ => Err ErrPanic end.
Definition handlerNumber : Handler := MkHandler "number"
  (fun _ raw => TFloat <$> coerceFloat raw) write_float
  (fun row => match Number row with Some v => FormatFloat v | None => "" end).

Definition validateMonetary (raw : raw_value) : result field_error typed_value :=
  match raw with
  | RString text =>
      if bool_decide (TrimSpace text = "") then TFloat <$> coerceFloat raw
      else match ParseAmount IsLetter IsCurrency ParseFloat SFopp text with
           | Ok v => Ok (TFloat v) | Err _ => Err (ErrParse "amount") end
  | _ => TFloat <$> coerceFloat raw
  end.
Definition handlerMonetary : Handler := MkHandler "monetary" (fun _ => validateMonetary) write_float
  (fun row => match Number row with Some v => FormatFloat2 v | None => "" end).

Definition handlerDate : Handler := MkHandler "date"
  (fun _ raw => TInt64 <$> coerceDate raw)
  (fun docID fieldID typed s => match typed with TInt64 z => writeDate docID fieldID z s | _ => Err ErrPanic end)
  (fun row => match Date row with Some z => format_unix z | None => "" end).

Definition validateBool (raw : raw_value) : result field_error typed_value :=
  match raw with
  | RBool b => Ok (TBool b)
  | RString v =>
      let s := to_lower (TrimSpace v) in
      if bool_decide (s ∈ ["true"; "yes"; "y"; "1"; "on"]) then Ok (TBool true)
      else if bool_decide (s ∈ ["false"; "no"; "n"; "0"; "off"; ""]) then Ok (TBool false)
      else Err (ErrParse "bool")
  | RFloat v => Ok (TBool (negb (is_zero v)))
  | _ => Err (ErrUnsupported "bool")
  end.
Definition handlerBool : Handler := MkHandler "bool" (fun _ => validateBool)
  (fun docID fieldID typed s => match typed with TBool b => writeBool docID fieldID b s | _ => Err ErrPanic end)
  (fun row => match Bool row with Some z => if z =? 1 then "Yes" else "No" | None => "" end).

Definition validateSelect (extra : string) (raw : raw_value) : result field_error typed_value :=
  s ← coerceString raw;
  if bool_decide (s = "") then Ok (TString s)
  else choices ← parseChoices extra;
       require contains choices s else ErrNotInChoices s in Ok (TString s).
Definition handlerSelect : Handler := MkHandler "select" validateSelect write_string render_text.

Fixpoint coerce_all (l : list raw_value) : result field_error (list string) :=
  match l with
  | [] => Ok []
  | x :: l => s ← coerceString x; xs ← coerce_all l; Ok (s :: xs)
  end.
Definition check_choices (extra : string) (xs : option (list string)) : result field_error typed_value :=
  choices ← parseChoices extra;
  match list_find (fun x => contains choices x = false) (default [] xs) with
  | Some (_, x) => Err (ErrNotInChoices x)
  | None => Ok (TStrings xs)
  end.
Definition validateMulti (extra : string) (raw : raw_value) : result field_error typed_value :=
  match raw with
  | RList l => xs ← coerce_all l; check_choices extra (Some xs)
  | RStrings xs => check_choices extra xs
  | RString v =>
      if bool_decide (v = "") then Ok (TStrings None)
      else let xs := filter (fun p => p <> "") (TrimSpace <$> Split v ","%char) in
           check_choices extra (if bool_decide (xs = []) then None else Some xs)
  | _ => Err (ErrUnsupported "multi")
  end.
Definition handlerMulti : Handler := MkHandler "multi" validateMulti
  (fun docID fieldID typed s => match typed with
     | TStrings xs => if bool_decide (default [] xs = []) then Ok (deleteRow docID fieldID s)
                      else writeText docID fieldID (marshal_strings xs) s
     | _ => Err ErrPanic end)
  (fun row => match Text row with
     | Some x => if bool_decide (x = "") then ""
                 else match unmarshal_strings x with Some xs => Join xs ", " | None => x end
     | None => "" end).

Definition validateLink (raw : raw_value) : result field_error typed_value :=
  id ← coerceInt64 raw;
  fail_if id <? 0 with ErrLinkNegative in Ok (TInt64 id).
Definition handlerDocumentLink : Handler := MkHandler "documentlink" (fun _ => validateLink)
  (fun docID fieldID typed s => match typed with
     | TInt64 z => WriteDocumentLinkInTx docID fieldID z false s | _ => Err ErrPanic end)
  (fun row => match Int row with Some z => "#" +:+ FormatInt z | None => "" end).

Definition registry : list (string * Handler) :=
  [("text", handlerText); ("url", handlerURL); ("number", handlerNumber); ("monetary", handlerMonetary);
   ("date", handlerDate); ("bool", handlerBool); ("select", handlerSelect); ("multi", handlerMulti);
   ("documentlink", handlerDocumentLink)].
Fixpoint registered (dataType : string) (l : list (string * Handler)) : Handler :=
  match l with
  | [] => handlerText
  | (name, h) :: l => if bool_decide (name = dataType) then h else registered dataType l
  end.
Definition Lookup (dataType : string) : Handler := registered dataType registry.

(** * Rendering without and after storing *)

(** The row [RenderValue] builds: the typed value as it is, not as SQLite keeps it. *)
Definition rendered_row (name : string) (typed : typed_value) : result field_error ValueRow :=
  if bool_decide (name ∈ ["text"; "url"; "select"]) then
    match typed with TString x => Ok (text_row x) | _ => Err ErrPanic end
  else if bool_decide (name = "multi") then
    match typed with TStrings xs => Ok (text_row (marshal_strings xs)) | _ => Err ErrPanic end
  else if bool_decide (name ∈ ["number"; "monetary"]) then
    match typed with TFloat v => Ok (MkRow None (Some v) None None None) | _ => Err ErrPanic end
  else if bool_decide (name = "date") then
    match typed with TInt64 z => Ok (date_row z) | _ => Err ErrPanic end
  else if bool_decide (name = "bool") then
    match typed with TBool b => Ok (bool_row b) | _ => Err ErrPanic end
  else Err ErrCannotRender.
Definition RenderValue (dataType extra : string) (raw : raw_value) : result field_error string :=
  let handler := Lookup dataType in
  typed ← Validate handler extra raw;
  row ← rendered_row (Name handler) typed;
  Ok (Render handler row).

Definition present (row : ValueRow) : bool :=
  bool_decide (is_Some (Text row)) || bool_decide (is_Some (Number row)) || bool_decide (is_Some (Int row))
  || bool_decide (is_Some (Bool row)) || bool_decide (is_Some (Date row)).
(** The join of the field with the document of its system; the value's columns are NULL
    when there is no row. *)
Definition ReadRenderedValue (docID fieldID : Z) (s : store) : result field_error (string * bool) :=
  match custom_fields s !! fieldID, documents s !! docID with
  | Some f, Some d =>
      require doc_system d =? f_system f else ErrNoRows in
      let row := default no_values (field_values s !! (docID, fieldID)) in
      Ok (Render (Lookup (f_data_type f)) row, present row)
  | _, _ => Err ErrNoRows
  end.

(** [sum256] is the lower-case hexadecimal SHA-256 of a string. *)
Definition ValueFingerprint (sum256 : string -> string) (value : string) (is_present : bool) : string :=
  sum256 ((if is_present then "1" else "0") +:+ value).
End Handlers.
