(* ===== verification/CustomFieldApi.v ===== *)
(** Field definitions and value writes of the HTTP layer
    ([core/api/custom_fields.go], [core/api/custom_field_values.go]): the write
    transactions, and what is read before them.  Whether the caller may act is an
    argument: [admin] is the answer of [currentWriterPrincipal] with the role check,
    [may] that of [authorized] for a document and a permission. *)
From Stdlib Require Import SpecFloat.
From S2P Require Import Prelude GoStd Utf8 Sqlite GoTime Amount CustomField.

Record CustomFieldUpsert : Type := MkUpsert {
  in_Name : option string; in_DataType : option string; in_ExtraData : option string;
}.

(** [retryBlockedFSWatchInTx]. *)
Definition retryBlockedFSWatch (systemID : Z) (s : store) : store :=
  Store (documents s) (custom_fields s) (field_values s)
    (filter (fun x => ~ (x.1.1.2 = systemID /\ x.2 = "blocked")) (fs_watch s)).

(** The names that e-invoice extraction keeps for its own fields. *)
Definition invoiceFieldDefinitions : list (string * string) :=
  [("invoice_number", "text"); ("invoice_date", "date"); ("invoice_currency", "text");
   ("invoice_total_gross", "monetary"); ("invoice_total_net", "monetary"); ("invoice_seller", "text");
   ("invoice_seller_vat", "text"); ("invoice_buyer", "text")].
Definition IsInvoiceFieldName (name : string) : bool :=
  bool_decide (TrimSpace name ∈ invoiceFieldDefinitions.*1).

(** UNIQUE (system_id, name), of the rows other than [id]. *)
Definition name_taken (s : store) (id systemID : Z) (name : string) : bool :=
  exists_row (fun j f => negb (j =? id) && (f_system f =? systemID) && bool_decide (f_name f = name)) (custom_fields s).

Definition is_choice_type (dataType : string) : bool := bool_decide (dataType = "select") || bool_decide (dataType = "multi").

Section Api.
Context (json_valid : string -> bool) (unmarshal_choices : string -> option (list string))
  (marshal_choices : list string -> string) (unmarshal_strings : string -> option (list string)).

(** The loop over the choices: trimmed, none empty, none twice. *)
Fixpoint trim_choices (seen : gset string) (choices : list string) : result field_error (list string) :=
  match choices with
  | [] => Ok []
  | choice :: rest =>
      let choice := TrimSpace choice in
      fail_if bool_decide (choice = "") with ErrInput "bad_choices" in
      fail_if bool_decide (choice ∈ seen) with ErrInput "bad_choices" in
      rest ← trim_choices ({[choice]} ∪ seen) rest; Ok (choice :: rest)
  end.
Definition normalizeCustomFieldExtra (dataType raw : string) : result field_error string :=
  let raw := TrimSpace raw in
  let raw := if bool_decide (raw = "") then "{}" else raw in
  require json_valid raw else ErrInput "bad_extra_data" in
  if negb (is_choice_type dataType) then Ok raw
  else match unmarshal_choices raw with
       | None | Some [] => Err (ErrInput "bad_choices")
       | Some choices => choices ← trim_choices ∅ choices; Ok (marshal_choices choices)
       end.

Definition CreateCustomFieldDef (admin : bool) (systemID : Z) (input : CustomFieldUpsert) (s : store)
    : result field_error (Z * store) :=
  match in_Name input with
  | None => Err (ErrInput "missing_name")
  | Some n =>
      let name := TrimSpace n in
      fail_if bool_decide (name = "") with ErrInput "missing_name" in
      fail_if IsInvoiceFieldName name with ErrNameReserved in
      match in_DataType input with
      | None => Err (ErrInput "bad_data_type")
      | Some dataType =>
          require bool_decide (dataType ∈ DataTypes) else ErrInput "bad_data_type" in
          extra ← normalizeCustomFieldExtra dataType (default "{}" (in_ExtraData input));
          require admin else ErrForbidden in
          let id := next_rowid (custom_fields s) in
          fail_if name_taken s id systemID name with ErrUnique in
          Ok (id, retryBlockedFSWatch systemID (with_fields <[id := Field systemID name dataType extra ""]> s))
      end
  end.

(** Whether a document still uses one of the removed choices; [json_each] fails on a
    text that is no JSON. *)
Definition malformed_value (s : store) (id : Z) : bool :=
  exists_row (fun k v => (k.2 =? id) &&
    match Text v with Some x => bool_decide (unmarshal_strings x = None) | None => false end) (field_values s).
Definition choices_used (s : store) (id : Z) (multi : bool) (removed : list string) : bool :=
  exists_row (fun k v =>
    (k.2 =? id) &&
    match Text v with
    | None => false
    | Some x =>
        if multi then existsb (fun y => bool_decide (y ∈ removed)) (default [] (unmarshal_strings x))
        else bool_decide (x ∈ removed)
    end) (field_values s).

(** The guards of a new definition against the values in use. *)
Definition check_type_change (s : store) (id : Z) (currentType nextType : string) : result field_error unit :=
  fail_if negb (bool_decide (nextType = currentType)) && exists_row (fun k _ => k.2 =? id) (field_values s)
    with ErrTypeInUse in Ok tt.
Definition check_choices_change (s : store) (id : Z) (currentType nextType currentExtra nextExtra : string)
    : result field_error unit :=
  if bool_decide (nextType = currentType) && is_choice_type currentType && negb (bool_decide (nextExtra = currentExtra)) then
    match unmarshal_choices currentExtra, unmarshal_choices nextExtra with
    | Some before, Some after =>
        let removed := filter (fun choice => choice ∉ after) before in
        let multi := bool_decide (currentType = "multi") in
        fail_if negb (bool_decide (removed = [])) && multi && malformed_value s id with ErrAbort "malformed JSON" in
        fail_if negb (bool_decide (removed = [])) && choices_used s id multi removed with ErrChoiceInUse in
        Ok tt
    | _, _ => Err (ErrParse "extra_data")
    end
  else Ok tt.

Definition UpdateCustomFieldDef (admin : bool) (systemID id : Z) (input : CustomFieldUpsert) (s : store)
    : result field_error store :=
  fail_if bool_decide (in_Name input = None) && bool_decide (in_DataType input = None)
          && bool_decide (in_ExtraData input = None) with ErrInput "no_fields" in
  fail_if match in_Name input with Some n => bool_decide (TrimSpace n = "") | None => false end with ErrInput "missing_name" in
  fail_if match in_DataType input with Some t => negb (bool_decide (t ∈ DataTypes)) | None => false end with ErrInput "bad_data_type" in
  fail_if match in_ExtraData input with Some e => negb (json_valid e) | None => false end with ErrInput "bad_extra_data" in
  require admin else ErrNotFound in
  match custom_fields s !! id with
  | None => Err ErrNotFound
  | Some f =>
      require f_system f =? systemID else ErrNotFound in
      require bool_decide (f_managed_by f = "") else ErrManaged in
      fail_if match in_Name input with Some n => IsInvoiceFieldName n | None => false end with ErrNameReserved in
      let nextType := default (f_data_type f) (in_DataType input) in
      nextExtra ← normalizeCustomFieldExtra nextType (default (f_extra f) (in_ExtraData input));
      _ ← check_type_change s id (f_data_type f) nextType;
      _ ← check_choices_change s id (f_data_type f) nextType (f_extra f) nextExtra;
      let set_extra := bool_decide (is_Some (in_ExtraData input)) ||
                       bool_decide (is_Some (in_DataType input)) && negb (bool_decide (nextExtra = f_extra f)) in
      let name := match in_Name input with Some n => TrimSpace n | None => f_name f end in
      fail_if bool_decide (is_Some (in_Name input)) && name_taken s id systemID name with ErrUnique in
      Ok (retryBlockedFSWatch systemID
            (with_fields <[id := Field (f_system f) name nextType (if set_extra then nextExtra else f_extra f) ""]> s))
  end.

(** Deleting a definition deletes its values (ON DELETE CASCADE). *)
Definition DeleteCustomFieldDef (admin : bool) (systemID id : Z) (s : store) : result field_error store :=
  require admin else ErrNotFound in
  match custom_fields s !! id with
  | None => Err ErrNotFound
  | Some f =>
      require f_system f =? systemID else ErrNotFound in
      require bool_decide (f_managed_by f = "") else ErrManaged in
      Ok (retryBlockedFSWatch systemID
            (with_values (filter (fun x => x.1.2 <> id)) (with_fields (delete id) s)))
  end.

(** [resolveField]: by id, or by name when the reference is no number. *)
Definition resolveField (systemID : Z) (ref : string) (s : store) : option (Z * field) :=
  match ParseInt ref with
  | Ok n => match custom_fields s !! n with
            | Some f => if f_system f =? systemID then Some (n, f) else None
            | None => None end
  | Err _ => snd <$> list_find (fun x => f_system x.2 = systemID /\ f_name x.2 = TrimSpace ref) (map_to_list (custom_fields s))
  end.

Definition emptyCustomFieldValue (value : raw_value) : bool :=
  match value with RNil => true | RString text => bool_decide (TrimSpace text = "") | _ => false end.

(** What [SetCustomField] has read and validated when its transaction begins. *)
Record prepared : Type := MkPrep { pr_field : Z; pr_type : string; pr_typed : typed_value }.

Context (lookup : string -> Handler).        (* [Lookup] *)

Definition prepare_set (systemID : Z) (ref : string) (value : raw_value) (s : store) : result field_error prepared :=
  fail_if bool_decide (ref = "") with ErrInput "bad_field" in
  match resolveField systemID ref s with
  | None => Err ErrNotFound
  | Some (fieldID, f) =>
      typed ← Validate (lookup (f_data_type f)) (f_extra f) value;
      if bool_decide (f_data_type f = "documentlink") then
        match typed with
        | TInt64 z =>
            fail_if (z =? 0) && negb (emptyCustomFieldValue value) with ErrInput "bad_value" in
            Ok (MkPrep fieldID (f_data_type f) typed)
        | _ => Err ErrPanic
        end
      else Ok (MkPrep fieldID (f_data_type f) typed)
  end.

Definition live (s : store) (docID : Z) : bool :=
  match documents s !! docID with Some d => negb (doc_trashed d) | None => false end.

Definition set_tx (may : Z -> Z -> bool) (docID : Z) (p : prepared) (s : store) : result field_error store :=
  require may docID 2 else ErrForbidden in                     (* PermChange *)
  require live s docID else ErrNoRows in
  if bool_decide (pr_type p = "documentlink") then
    match pr_typed p with
    | TInt64 targetID =>
        fail_if negb (targetID =? 0) && negb (may targetID 1) with ErrForbidden in   (* PermView *)
        WriteDocumentLinkInTx docID (pr_field p) targetID true s
    | _ => Err ErrPanic
    end
  else Write (lookup (pr_type p)) docID (pr_field p) (pr_typed p) s.

Definition SetCustomField (may : Z -> Z -> bool) (systemID docID : Z) (ref : string) (value : raw_value) (s : store)
    : result field_error store :=
  p ← prepare_set systemID ref value s; set_tx may docID p s.

Definition DeleteCustomField (may : Z -> Z -> bool) (systemID docID : Z) (ref : string) (s : store) : result field_error store :=
  match resolveField systemID ref s with
  | None => Err ErrNotFound
  | Some (fieldID, _) =>
      require may docID 2 else ErrForbidden in
      require live s docID else ErrNoRows in
      Ok (deleteRow docID fieldID s)
  end.
End Api.
