(* ===== verification/CustomFieldFacts.v ===== *)
(** What holds of custom-field values: the handlers agree on the type of a field's
    values, a stored value reads back as it was rendered, and the guards of the field
    definitions keep the stored values meaningful. *)
From Stdlib Require Import SpecFloat.
From S2P Require Import Prelude GoStd Utf8 Sqlite GoTime Amount CustomField CustomFieldApi.

(** * Types *)

Definition is_text_name (name : string) : bool := bool_decide (name ∈ ["text"; "url"; "select"]).
Definition is_number_name (name : string) : bool := bool_decide (name ∈ ["number"; "monetary"]).

(** The type of a data type's values. *)
Definition has_type (name : string) (t : typed_value) : Prop :=
  match t with
  | TString _ => is_text_name name = true
  | TStrings _ => name = "multi"
  | TFloat _ => is_number_name name = true
  | TInt64 z => is_int64 z /\ (name = "date" \/ name = "documentlink" /\ 0 <= z)
  | TBool _ => name = "bool"
  end.

(** The row a data type keeps: one column, or none when the value is NULL. *)
Definition row_type (name : string) (v : ValueRow) : Prop :=
  (is_Some (Text v) -> (is_text_name name = true \/ name = "multi") /\ Text v <> Some "") /\
  (is_Some (Number v) -> is_number_name name = true) /\
  (is_Some (Int v) -> name = "documentlink") /\
  (forall z, Bool v = Some z -> name = "bool" /\ (z = 0 \/ z = 1)) /\
  (is_Some (Date v) -> name = "date").

(** Go's [int] and [int64] are 64 bits wide. *)
Definition raw_ok (raw : raw_value) : Prop :=
  match raw with RInt z | RInt64 z => is_int64 z | _ => True end.

Section Facts.
Context (ParseFloat : string -> option float64) (FormatFloat FormatFloat2 : float64 -> string).
Context (IsLetter IsCurrency : Z -> bool) (int64_overflow : float64 -> Z).
Context (url_scheme : string -> option string).
Context (marshal_strings : option (list string) -> string) (unmarshal_strings : string -> option (list string)).
Context (unmarshal_choices : string -> option (list string)) (to_lower : string -> string).
Abbreviation Lookup := (CustomField.Lookup ParseFloat FormatFloat FormatFloat2 IsLetter IsCurrency int64_overflow
  url_scheme marshal_strings unmarshal_strings unmarshal_choices to_lower).
Abbreviation RenderValue := (CustomField.RenderValue ParseFloat FormatFloat FormatFloat2 IsLetter IsCurrency int64_overflow
  url_scheme marshal_strings unmarshal_strings unmarshal_choices to_lower).
Abbreviation ReadRenderedValue := (CustomField.ReadRenderedValue ParseFloat FormatFloat FormatFloat2 IsLetter IsCurrency
  int64_overflow url_scheme marshal_strings unmarshal_strings unmarshal_choices to_lower).
Abbreviation rendered_row := (CustomField.rendered_row marshal_strings).

Lemma Lookup_ind (P : string -> Handler -> Prop) dataType :
  (dataType ∉ DataTypes \/ dataType = "text" -> P dataType (Lookup "text")) ->
  Forall (fun t => P t (Lookup t)) (drop 1 DataTypes) -> P dataType (Lookup dataType).
Proof.
  intros Ht H. destruct (decide (dataType ∈ drop 1 DataTypes)) as [Hin|Hnin].
  - rewrite Forall_forall in H. by apply H.
  - assert (E : Lookup dataType = Lookup "text").
    { cbn in Hnin. rewrite !not_elem_of_cons in Hnin.
      unfold CustomField.Lookup, registry. cbn [registered].
      repeat (case_bool_decide; [try (subst; naive_solver)|]); try reflexivity; subst; naive_solver. }
    rewrite E. apply Ht. destruct (decide (dataType = "text")); [by right|left].
    unfold DataTypes. cbn in Hnin. rewrite not_elem_of_cons. done.
Qed.

(** A property of the nine handlers holds of whatever [Lookup] returns. *)
Ltac lookup_cases dataType :=
  pattern dataType, (Lookup dataType); apply Lookup_ind;
  [intros _|unfold DataTypes; cbn [drop]; repeat apply Forall_cons_2; [..|apply Forall_nil_2]];
  match goal with |- context [Lookup ?name] => let h := eval hnf in (Lookup name) in change (Lookup name) with h end.

Lemma parse_int_range s z : parse_int s = Ok z -> is_int64 z.
Proof. unfold parse_int. destruct (ParseInt s) eqn:E; [|done]. intros [= <-]. by eapply ParseInt_range. Qed.

Lemma to_int64_range v : (forall v, is_int64 (int64_overflow v)) -> is_int64 (to_int64 int64_overflow v).
Proof.
  intros Ho. unfold to_int64. destruct v; try apply Ho; [unfold is_int64, MinInt64, MaxInt64; lia|].
  destruct (_ && _) eqn:E; [|apply Ho]. apply andb_true_iff in E as [?%Z.leb_le ?%Z.leb_le]. done.
Qed.

Lemma whole_range v z : whole v = Some z -> is_int64 z.
Proof.
  unfold whole, is_int64, MinInt64, MaxInt64. destruct v; try done; [intros [= <-]; lia|].
  destruct (_ && _) eqn:E; [|done]. intros [= <-]. apply andb_true_iff in E as [_ E%Z.leb_le]. lia.
Qed.

Lemma date_unix_range s dt : parse_date s = Some dt -> is_int64 (date_unix dt).
Proof.
  intros H%parse_date_valid%days_range. unfold date_unix, is_int64, MinInt64, MaxInt64. lia.
Qed.

Lemma int64_0 : is_int64 0.
Proof. unfold is_int64, MinInt64, MaxInt64. lia. Qed.

Lemma coerceInt64_range raw z : raw_ok raw -> coerceInt64 raw = Ok z -> is_int64 z.
Proof.
  intros Hr. destruct raw; cbn [coerceInt64 raw_ok] in *; try done; try (by intros [= <-]); try (intros [= <-]; apply int64_0).
  - destruct (whole v) eqn:E; [|done]. intros [= <-]. by eapply whole_range.
  - apply parse_int_range.
  - case_bool_decide; [intros [= <-]; apply int64_0|apply parse_int_range].
Qed.

Lemma coerceDate_range raw z :
  (forall v, is_int64 (int64_overflow v)) -> raw_ok raw -> coerceDate int64_overflow raw = Ok z -> is_int64 z.
Proof.
  intros Ho Hr. destruct raw; cbn [coerceDate raw_ok] in *; try done; try (by intros [= <-]); try (intros [= <-]; apply int64_0).
  - intros [= <-]. by apply to_int64_range.
  - apply parse_int_range.
  - case_bool_decide; [intros [= <-]; apply int64_0|].
    destruct (parse_date _) eqn:E; [|apply parse_int_range]. intros [= <-]. by eapply date_unix_range.
Qed.

Lemma check_choices_Ok extra xs t :
  check_choices unmarshal_choices extra xs = Ok t ->
  t = TStrings xs /\ exists choices, parseChoices unmarshal_choices extra = Ok choices /\
                    Forall (fun x => contains choices x = true) (default [] xs).
Proof.
  unfold check_choices. intros H. apply bind_Ok in H as (choices & Hc & H).
  destruct (list_find _ _) as [[i x]|] eqn:E; [done|]. injection H as <-. split; [done|].
  exists choices. split; [done|]. apply list_find_None in E. eapply Forall_impl; [exact E|].
  intros x Hx. by apply not_false_is_true in Hx.
Qed.

Lemma Lookup_typed dataType extra raw t :
  (forall v, is_int64 (int64_overflow v)) -> raw_ok raw ->
  Validate (Lookup dataType) extra raw = Ok t -> has_type (Name (Lookup dataType)) t.
Proof.
  intros Ho Hr. lookup_cases dataType.
  all: cbn -[has_type]; intros H.
  all: try (apply fmap_Ok in H as (a & H & ->)).
  - done.
  - done.
  - cbn. split; [by eapply coerceDate_range|by left].
  - unfold validateBool in H. destruct raw; try done; try (by injection H as <-).
    repeat case_bool_decide; try done; by injection H as <-.
  - unfold validateSelect in H. apply bind_Ok in H as (x & Hx & H). case_bool_decide; [by injection H as <-|].
    apply bind_Ok in H as (cs & _ & H). destruct (contains _ _); [by injection H as <-|done].
  - assert (exists xs, t = TStrings xs) as [xs ->]; [|done]. unfold validateMulti in H. destruct raw; try done.
    + case_bool_decide; [injection H as <-; eauto|]. apply check_choices_Ok in H as [-> _]. eauto.
    + apply bind_Ok in H as (xs & _ & H). apply check_choices_Ok in H as [-> _]. eauto.
    + apply check_choices_Ok in H as [-> _]. eauto.
  - unfold validateURL in H. apply bind_Ok in H as (x & Hx & H). case_bool_decide; [by injection H as <-|].
    destruct (url_scheme x); [|done]. destruct (_ || _); [by injection H as <-|done].
  - assert (exists v, t = TFloat v) as [v ->]; [|done]. unfold validateMonetary in H.
    destruct raw; try (apply fmap_Ok in H as (a & H & ->); eauto).
    case_bool_decide; [apply fmap_Ok in H as (a & H' & ->); eauto|].
    destruct (ParseAmount _ _ _ _ _); [injection H as <-; eauto|done].
  - unfold validateLink in H. apply bind_Ok in H as (z & Hz & H). destruct (Z.ltb_spec z 0); [done|].
    injection H as <-. cbn. split; [by eapply coerceInt64_range|by right].
Qed.

(** * Writes *)

(** The row a typed value of another type than a link is stored as, or none. *)
Definition written (t : typed_value) : option ValueRow :=
  match t with
  | TString x => if bool_decide (x = "") then None else Some (text_row x)
  | TStrings xs =>
      if bool_decide (default [] xs = []) || bool_decide (marshal_strings xs = "") then None
      else Some (text_row (marshal_strings xs))
  | TFloat v => Some (number_row v)
  | TInt64 z => Some (date_row z)
  | TBool b => Some (bool_row b)
  end.
Definition put (docID fieldID : Z) (v : option ValueRow) (s : store) : result field_error store :=
  match v with None => Ok (deleteRow docID fieldID s) | Some v => upsertValue docID fieldID v s end.

Lemma Write_written dataType t docID fieldID s :
  has_type (Name (Lookup dataType)) t -> Name (Lookup dataType) <> "documentlink" ->
  Write (Lookup dataType) docID fieldID t s = put docID fieldID (written t) s.
Proof.
  lookup_cases dataType; cbn -[has_type]; destruct t; cbn [has_type write_string write_float written]; intros Ht Hn;
    try discriminate Ht; try (exfalso; destruct Ht as [? [Hx|[Hx ?]]]; discriminate Hx); try done; unfold writeText; try by case_bool_decide.
  case_bool_decide; [done|]. unfold writeText. cbn [orb]. by case_bool_decide.
Qed.

Lemma Write_link dataType z docID fieldID s :
  Name (Lookup dataType) = "documentlink" ->
  Write (Lookup dataType) docID fieldID (TInt64 z) s = WriteDocumentLinkInTx docID fieldID z false s.
Proof. lookup_cases dataType; cbn; done. Qed.

Ltac row_solve := unfold row_type; cbn; split_and!; try done; try (intros [? ?]; done); try (intros ? [=]; done).

Lemma written_type name t v :
  has_type name t -> name <> "documentlink" -> written t = Some v -> row_type name v.
Proof.
  intros Ht Hn. destruct t; cbn [written has_type] in *.
  - case_bool_decide; [done|]. intros [= <-]. row_solve. intros _. split; [by left|congruence].
  - intros [= <-]. row_solve.
  - destruct Ht as [_ [->|[-> _]]]; [|done]. intros [= <-]. row_solve.
  - intros [= <-]. subst. row_solve. intros z [= <-]. split; [done|]. destruct b; cbn; lia.
  - destruct (_ || _) eqn:E; [done|]. apply orb_false_iff in E as [_ E%bool_decide_eq_false].
    intros [= <-]. subst. row_solve. intros _. split; [by right|congruence].
Qed.

Lemma has_link_type t : has_type "documentlink" t -> exists z, t = TInt64 z.
Proof. destruct t as [x|v|z|b|l]; cbn [has_type]; try discriminate. eauto. Qed.

Lemma upsert_Ok docID fieldID v s s' :
  upsertValue docID fieldID v s = Ok s' ->
  s' = with_values <[(docID, fieldID) := v]> s /\
  exists d f, documents s !! docID = Some d /\ custom_fields s !! fieldID = Some f /\ doc_system d = f_system f.
Proof.
  unfold upsertValue. intros H. case_bool_decide as Hs; [|done]. destruct (bad_topology _ _ _ _); [done|].
  destruct (bool_decide _ && bool_decide _) eqn:E; [|done]. injection H as <-. split; [done|].
  apply andb_true_iff in E as [[d Hd]%bool_decide_eq_true [f Hf]%bool_decide_eq_true].
  exists d, f. rewrite Hd, Hf in Hs. injection Hs as Hs. done.
Qed.

(** The document and the field of a row, and what its columns may hold. *)
Definition row_ok (name : string) (docID fieldID : Z) (s : store) (w : ValueRow) : Prop :=
  row_type name w /\
  (exists d f, documents s !! docID = Some d /\ custom_fields s !! fieldID = Some f /\ doc_system d = f_system f) /\
  Int w <> Some docID.

Lemma link_row docID fieldID z b s s' :
  WriteDocumentLinkInTx docID fieldID z b s = Ok s' ->
  exists v, s' = with_values (partial_alter (fun _ => v) (docID, fieldID)) s /\
    (forall w, v = Some w -> row_ok "documentlink" docID fieldID s w).
Proof.
  unfold WriteDocumentLinkInTx. intros H.
  destruct (documents s !! docID); [|done]. destruct (custom_fields s !! fieldID); [|done].
  destruct (_ && _ && _); [|done]. destruct (z =? 0); [injection H as <-; by exists None|].
  destruct (Z.eqb_spec z docID); [done|]. destruct (documents s !! z); [|done].
  repeat (match type of H with (if ?b then _ else _) = _ => destruct b end; [done|]).
  apply upsert_Ok in H as [-> Hx]. exists (Some (int_row z)). split; [done|]. intros w [= <-].
  split_and!; [row_solve|done|cbn; congruence].
Qed.

(** What a successful write leaves of the row it is about. *)
Lemma Write_row dataType t docID fieldID s s' :
  has_type (Name (Lookup dataType)) t -> Write (Lookup dataType) docID fieldID t s = Ok s' ->
  exists v, s' = with_values (partial_alter (fun _ => v) (docID, fieldID)) s /\
    (forall w, v = Some w -> row_ok (Name (Lookup dataType)) docID fieldID s w).
Proof.
  intros Ht H. destruct (decide (Name (Lookup dataType) = "documentlink")) as [E|E].
  - rewrite E in Ht |- *. destruct (has_link_type t Ht) as [z ->]. rewrite Write_link in H by done. by eapply link_row.
  - rewrite Write_written in H by done. destruct (written t) as [v|] eqn:Ew; cbn [put] in H.
    + apply upsert_Ok in H as [-> Hx]. exists (Some v). split; [done|]. intros w [= <-].
      pose proof (written_type _ _ _ Ht E Ew) as Hv. split_and!; [done..|].
      destruct (Int v) eqn:Ei; [|done]. destruct Hv as (_ & _ & Hi & _). by destruct E; apply Hi; rewrite Ei.
    + injection H as <-. by exists None.
Qed.

(** A write changes one value at most, and writing again changes nothing more. *)
Definition writes_once (docID fieldID : Z) (g : store -> result field_error store) : Prop :=
  forall s s', g s = Ok s' ->
    (exists v, s' = with_values (partial_alter (fun _ => v) (docID, fieldID)) s) /\ g s' = Ok s'.
Lemma delete_once docID fieldID : writes_once docID fieldID (fun s => Ok (deleteRow docID fieldID s)).
Proof.
  intros s s' [= <-]. split; [by exists None|]. unfold deleteRow, with_values. cbn. rewrite delete_delete_eq. done.
Qed.
Lemma upsert_once docID fieldID v : writes_once docID fieldID (upsertValue docID fieldID v).
Proof.
  intros s s' H. pose proof (proj1 (upsert_Ok _ _ _ _ _ H)) as ->. split; [by exists (Some v)|].
  assert (E : upsertValue docID fieldID v (with_values <[(docID, fieldID) := v]> s)
              = with_values <[(docID, fieldID) := v]> <$> upsertValue docID fieldID v s).
  { unfold upsertValue, bad_topology, same_family. cbn. repeat case_match; done. }
  rewrite E, H. unfold with_values. cbn. by rewrite insert_insert_eq.
Qed.
Lemma link_once docID fieldID z b : writes_once docID fieldID (WriteDocumentLinkInTx docID fieldID z b).
Proof.
  intros s s' H. split; [destruct (link_row _ _ _ _ _ _ H) as (v & -> & _); by exists v|].
  unfold WriteDocumentLinkInTx in H |- *.
  destruct (documents s !! docID) as [d|] eqn:Ed; [|done]. destruct (custom_fields s !! fieldID) as [f|] eqn:Ef; [|done].
  destruct (_ && _ && _) eqn:Eg; [|done]. destruct (z =? 0) eqn:Ez.
  - destruct (delete_once docID fieldID s s' H) as [[v ->] Hd]. cbn. by rewrite Ed, Ef, Eg.
  - destruct (z =? docID) eqn:Es; [done|]. destruct (documents s !! z) as [t|] eqn:Et; [|done].
    destruct (doc_trashed t) eqn:E1; [done|].
    match type of H with (if ?x then _ else _) = _ => destruct x eqn:E2; [done|] end.
    match type of H with (if ?x then _ else _) = _ => destruct x eqn:E3; [done|] end.
    destruct (upsert_once _ _ _ _ _ H) as [[v ->] Hu]. cbn. rewrite Ed, Ef, Eg, Et, E1. cbn in E2, E3 |- *.
    rewrite E2, E3. exact Hu.
Qed.
Lemma Write_once dataType t docID fieldID : writes_once docID fieldID (Write (Lookup dataType) docID fieldID t).
Proof.
  assert (Hf : forall e, writes_once docID fieldID (fun _ => Err e)) by (by intros e s s').
  assert (Ht : forall x, writes_once docID fieldID (writeText docID fieldID x)).
  { intros x. unfold writeText. destruct (bool_decide (x = "")); [apply delete_once|apply upsert_once]. }
  lookup_cases dataType; destruct t as [x|v|z|b|l]; cbn; try apply Hf; try apply Ht; try apply upsert_once; try apply link_once.
  case_bool_decide; [apply delete_once|apply Ht].
Qed.

Lemma upsert_no_panic docID fieldID v s : upsertValue docID fieldID v s <> Err ErrPanic.
Proof.
  unfold upsertValue. repeat (match goal with |- (if ?b then _ else _) <> _ => destruct b end; try done).
Qed.

(** Whatever a handler's validation returns is of the handler's type: a string, a
    list, a float, a 64-bit integer or a boolean.  No type assertion of [Write],
    [RenderValue] or [SetCustomField] fails on it, and a write that succeeds changes
    nothing but the row of its document and field, which afterwards is gone or keeps a
    value in no column but that of the type. *)
Theorem Validate_typed dataType extra raw t :
  (forall v, is_int64 (int64_overflow v)) -> raw_ok raw ->
  Validate (Lookup dataType) extra raw = Ok t ->
  has_type (Name (Lookup dataType)) t /\
  rendered_row (Name (Lookup dataType)) t <> Err ErrPanic /\
  (forall docID fieldID s, Write (Lookup dataType) docID fieldID t s <> Err ErrPanic) /\
  (forall docID fieldID s s', Write (Lookup dataType) docID fieldID t s = Ok s' ->
     exists v, s' = with_values (partial_alter (fun _ => v) (docID, fieldID)) s /\
       (forall w, v = Some w -> row_type (Name (Lookup dataType)) w)).
Proof.
  intros Ho Hr H. pose proof (Lookup_typed _ _ _ _ Ho Hr H) as Ht. split_and!.
  - done.
  - clear H. revert Ht. lookup_cases dataType; cbn; destruct t; cbn; try done;
      intros [_ [[=]|[[=] _]]]; done.
  - intros docID fieldID s. destruct (decide (Name (Lookup dataType) = "documentlink")) as [E|E].
    + rewrite E in Ht. destruct (has_link_type t Ht) as [z ->]. rewrite Write_link by done. unfold WriteDocumentLinkInTx.
      repeat (first [case_match; try done|apply upsert_no_panic]).
    + rewrite Write_written by done. destruct (written t); [apply upsert_no_panic|done].
  - intros docID fieldID s s' Hw. destruct (Write_row _ _ _ _ _ _ Ht Hw) as (v & -> & Hv).
    exists v. split; [done|]. intros w Hw'. by apply Hv.
Qed.
(** * Reading back *)

Lemma put_Ok v docID fieldID s d f :
  documents s !! docID = Some d -> custom_fields s !! fieldID = Some f -> doc_system d = f_system f ->
  (forall w, v = Some w -> Int w = None) ->
  put docID fieldID v s = Ok (with_values (partial_alter (fun _ => v) (docID, fieldID)) s).
Proof.
  intros Hd Hf Hs Hi. destruct v as [w|]; [|done]. cbn [put]. unfold upsertValue.
  rewrite Hd, Hf. rewrite bool_decide_true by (cbn; congruence). unfold bad_topology. rewrite (Hi w) by done.
  by rewrite !bool_decide_true.
Qed.

(** What SQLite keeps of a value unchanged. *)
Definition storable (t : typed_value) : Prop :=
  match t with TFloat v => store_real v = Some v | _ => True end.

Lemma row_after v docID fieldID s f d :
  documents s !! docID = Some d -> custom_fields s !! fieldID = Some f -> doc_system d = f_system f ->
  ReadRenderedValue docID fieldID (with_values (partial_alter (fun _ => v) (docID, fieldID)) s) =
    Ok (Render (Lookup (f_data_type f)) (default no_values v), present (default no_values v)).
Proof.
  intros Hd Hf Hs. unfold CustomField.ReadRenderedValue. cbn [custom_fields documents field_values with_values].
  by rewrite Hd, Hf, (proj2 (Z.eqb_eq _ _) Hs), lookup_partial_alter_eq.
Qed.

(** Rendering the row [RenderValue] builds and rendering the stored one. *)
Lemma rendered_written dataType t :
  (forall xs, marshal_strings xs <> "") ->
  (forall xs, default [] xs = [] -> unmarshal_strings (marshal_strings xs) = Some []) ->
  has_type (Name (Lookup dataType)) t -> Name (Lookup dataType) <> "documentlink" ->
  exists row, rendered_row (Name (Lookup dataType)) t = Ok row /\
    (storable t ->
       Render (Lookup dataType) row = Render (Lookup dataType) (default no_values (written t)) /\
       present (default no_values (written t)) = bool_decide (is_Some (written t))).
Proof.
  intros Hne Hnil. lookup_cases dataType; cbn -[has_type present store_real]; destruct t as [x|v|z|b|xs];
    cbn [has_type written]; intros Ht Hn; try discriminate Ht; try done;
    try (exfalso; destruct Ht as [? [Hx|[Hx ?]]]; discriminate Hx); eexists; (split; [reflexivity|]);
    cbn [storable]; intros Hst.
  all: try (case_bool_decide; subst; cbn; rewrite ?bool_decide_true by eauto; done).
  all: try (unfold number_row; rewrite Hst; done).
  all: try done.
  rewrite (bool_decide_false (_ = "")), orb_false_r by auto. cbn [Text text_row].
  rewrite (bool_decide_false (_ = "")) by auto. case_bool_decide as E.
  - rewrite Hnil by done. done.
  - cbn. rewrite (bool_decide_false (_ = "")) by auto. done.
Qed.

(** [RenderValue] shows a value exactly as it reads back after it is written, for
    every data type but links: a validated value is written to a document of the
    field's system without fail, and reading it gives the same text, and says that there
    is a value unless the text was empty.  Of floats this holds of those that SQLite
    keeps, every one but NaN and negative zero. *)
Theorem render_stored extra raw t docID fieldID s d f :
  (forall v, is_int64 (int64_overflow v)) -> raw_ok raw ->
  (forall xs, marshal_strings xs <> "") ->
  (forall xs, default [] xs = [] -> unmarshal_strings (marshal_strings xs) = Some []) ->
  documents s !! docID = Some d -> custom_fields s !! fieldID = Some f -> doc_system d = f_system f ->
  Name (Lookup (f_data_type f)) <> "documentlink" ->
  Validate (Lookup (f_data_type f)) extra raw = Ok t ->
  exists s' text, Write (Lookup (f_data_type f)) docID fieldID t s = Ok s' /\
    RenderValue (f_data_type f) extra raw = Ok text /\
    (storable t -> ReadRenderedValue docID fieldID s' = Ok (text, bool_decide (is_Some (written t)))).
Proof.
  intros Ho Hr Hne Hnil Hd Hf Hs Hn H. pose proof (Lookup_typed _ _ _ _ Ho Hr H) as Ht.
  destruct (rendered_written _ t Hne Hnil Ht Hn) as (row & Hrow & Hst).
  eexists _, _. split_and!.
  - rewrite Write_written by done. apply (put_Ok _ _ _ _ d f Hd Hf Hs).
    intros w Hw. pose proof (written_type _ _ _ Ht Hn Hw) as (_ & _ & Hi & _).
    destruct (Int w) eqn:E; [|done]. by destruct Hn; apply Hi.
  - unfold CustomField.RenderValue. rewrite H. cbn [mbind result_bind]. by rewrite Hrow.
  - intros Hstore. rewrite (row_after _ _ _ _ f d Hd Hf Hs). destruct (Hst Hstore) as [-> ->]. done.
Qed.
(** * Definitions and values *)
Context (json_valid : string -> bool) (marshal_choices : list string -> string).
Abbreviation CreateCustomFieldDef := (CustomFieldApi.CreateCustomFieldDef json_valid unmarshal_choices marshal_choices).
Abbreviation UpdateCustomFieldDef :=
  (CustomFieldApi.UpdateCustomFieldDef json_valid unmarshal_choices marshal_choices unmarshal_strings).
Abbreviation SetCustomField := (CustomFieldApi.SetCustomField Lookup).

(** The stored choices are choices of the definition. *)
Definition choices_ok (f : field) (v : ValueRow) : Prop :=
  forall x, Text v = Some x ->
    (f_data_type f = "select" -> exists cs, unmarshal_choices (f_extra f) = Some cs /\ x ∈ cs) /\
    (f_data_type f = "multi" -> exists cs xs, unmarshal_choices (f_extra f) = Some cs /\
       unmarshal_strings x = Some xs /\ Forall (fun y => y ∈ cs) xs).

Definition finv (s : store) : Prop :=
  (forall id f, custom_fields s !! id = Some f -> f_data_type f ∈ DataTypes) /\
  (forall docID fieldID v, field_values s !! (docID, fieldID) = Some v ->
     exists d f, documents s !! docID = Some d /\ custom_fields s !! fieldID = Some f /\
       doc_system d = f_system f /\ row_type (f_data_type f) v /\ choices_ok f v /\ Int v <> Some docID).

(** One request on definitions or values, or a change of the documents. *)
Inductive vstep : store -> store -> Prop :=
  | step_create admin systemID input s id s' :
      CreateCustomFieldDef admin systemID input s = Ok (id, s') -> vstep s s'
  | step_update admin systemID id input s s' :
      UpdateCustomFieldDef admin systemID id input s = Ok s' -> vstep s s'
  | step_drop admin systemID id s s' :
      DeleteCustomFieldDef admin systemID id s = Ok s' -> vstep s s'
  | step_set may systemID docID ref value s s' :
      raw_ok value -> SetCustomField may systemID docID ref value s = Ok s' -> vstep s s'
  | step_clear may systemID docID ref s s' :
      DeleteCustomField may systemID docID ref s = Ok s' -> vstep s s'
  | step_insert id d s : documents s !! id = None -> vstep s (with_documents <[id := d]> s)
  | step_trash id b s :
      vstep s (with_documents (alter (fun d => Doc (doc_system d) b (doc_family d)) id) s)
  | step_purge id s :
      vstep s (with_values (filter (fun x => x.1.1 <> id)) (with_documents (delete id) s)).

Lemma Lookup_name dataType : dataType ∈ DataTypes -> Name (Lookup dataType) = dataType.
Proof.
  intros H. unfold DataTypes in H. rewrite !elem_of_cons, elem_of_nil in H.
  decompose [or] H; subst; done.
Qed.

(** A change of definitions that keeps the type of every field with values, and the
    choices in use. *)
Lemma finv_fields s fields values watch :
  finv s ->
  (forall id f, fields !! id = Some f -> f_data_type f ∈ DataTypes) ->
  (forall docID fieldID v f, values !! (docID, fieldID) = Some v -> custom_fields s !! fieldID = Some f ->
     field_values s !! (docID, fieldID) = Some v /\
     exists f', fields !! fieldID = Some f' /\ f_system f' = f_system f /\ f_data_type f' = f_data_type f /\
       (choices_ok f v -> choices_ok f' v)) ->
  (forall k v, values !! k = Some v -> field_values s !! k = Some v) ->
  finv (Store (documents s) fields values watch).
Proof.
  intros [_ I] Ht Hv Hsub. split; cbn; [done|]. intros docID fieldID v Hl.
  destruct (I _ _ _ (Hsub _ _ Hl)) as (d & f & Hd & Hf & Hs & Hr & Hc & Hn).
  destruct (Hv _ _ _ _ Hl Hf) as (_ & f' & Hf' & Hs' & Ht' & Hc').
  exists d, f'. split_and!; try done; [by rewrite Hs'|by rewrite Ht'|by apply Hc'].
Qed.

Lemma create_finv admin systemID input s id s' :
  CreateCustomFieldDef admin systemID input s = Ok (id, s') -> finv s -> finv s'.
Proof.
  unfold CustomFieldApi.CreateCustomFieldDef. intros H I. destruct (in_Name input); [|done].
  case_bool_decide; [done|]. destruct (IsInvoiceFieldName _); [done|]. destruct (in_DataType input) as [t|]; [|done].
  case_bool_decide as Ht; [|done]. apply bind_Ok in H as (extra & _ & H). destruct admin; [|done].
  destruct (name_taken _ _ _ _); [done|]. injection H as <- <-. apply (finv_fields s); cbn.
  - done.
  - intros i f [[<- <-]|[_ Hf]]%lookup_insert_Some; [done|]. destruct I as [I _]. by eapply I.
  - intros docID fieldID v f Hl Hf. split; [done|]. exists f. split_and!; try done.
    rewrite lookup_insert_ne; [done|]. apply next_rowid_fresh in Hf. lia.
  - done.
Qed.

Lemma drop_finv admin systemID id s s' : DeleteCustomFieldDef admin systemID id s = Ok s' -> finv s -> finv s'.
Proof.
  unfold DeleteCustomFieldDef. intros H I. destruct admin; [|done].
  destruct (custom_fields s !! id) as [f|] eqn:Ef; [|done]. destruct (_ =? _); [|done].
  case_bool_decide; [|done]. injection H as <-. apply (finv_fields s); cbn.
  - done.
  - intros i g [_ Hg]%lookup_delete_Some. destruct I as [I _]. by eapply I.
  - intros docID fieldID v g [Hl Hne]%map_lookup_filter_Some Hg. split; [done|]. exists g. split_and!; try done.
    cbn in Hne. by rewrite lookup_delete_ne.
  - by intros k v [Hl _]%map_lookup_filter_Some.
Qed.

(** A change of choices that passes keeps those a document uses. *)
Lemma choices_change_unused s id dataType currentExtra nextExtra docID v x :
  check_choices_change unmarshal_choices unmarshal_strings s id dataType dataType currentExtra nextExtra = Ok tt ->
  is_choice_type dataType = true -> nextExtra <> currentExtra ->
  field_values s !! (docID, id) = Some v -> Text v = Some x ->
  exists before after, unmarshal_choices currentExtra = Some before /\ unmarshal_choices nextExtra = Some after /\
    forall y, y ∈ before ->
      (dataType = "select" -> x = y -> y ∈ after) /\
      (dataType = "multi" -> forall xs, unmarshal_strings x = Some xs -> y ∈ xs -> y ∈ after).
Proof.
  unfold check_choices_change. intros Hc Ht Hne Hv Hx. rewrite bool_decide_true, Ht in Hc by done.
  rewrite (bool_decide_false (nextExtra = _)) in Hc by done. cbn [negb andb] in Hc.
  destruct (unmarshal_choices currentExtra) as [before|]; [|done].
  destruct (unmarshal_choices nextExtra) as [after|]; [|done]. exists before, after. split_and!; [done..|].
  cbv zeta in Hc. set (removed := filter _ before) in *.
  intros y Hb. assert (Hno : y ∉ after -> y ∈ removed /\
    (if bool_decide (dataType = "multi") then existsb (fun y => bool_decide (y ∈ removed)) (default [] (unmarshal_strings x))
     else bool_decide (x ∈ removed)) = false).
  { intros Ha. assert (Hin : y ∈ removed) by (by apply list_elem_of_filter). split; [done|].
    rewrite (bool_decide_false (removed = [])) in Hc by (intros E; rewrite E in Hin; by apply not_elem_of_nil in Hin).
    cbn [negb andb] in Hc. destruct (_ && malformed_value _ _ _); [done|].
    destruct (choices_used _ _ _ _ _) eqn:Eu; [done|]. apply (exists_row_false _ _ _ _ Eu) in Hv. cbn in Hv.
    by rewrite Z.eqb_refl, Hx in Hv. }
  split.
  - intros -> <-. destruct (decide (x ∈ after)) as [|Ha]; [done|]. destruct (Hno Ha) as [Hin Hf].
    rewrite bool_decide_false in Hf by done. by apply bool_decide_eq_false in Hf.
  - intros -> xs Hxs Hy. destruct (decide (y ∈ after)) as [|Ha]; [done|]. destruct (Hno Ha) as [Hin Hf].
    rewrite bool_decide_true, Hxs in Hf by done. cbn in Hf. exfalso. apply Bool.not_true_iff_false in Hf. apply Hf, existsb_exists.
    exists y. split; [by apply list_elem_of_In|by apply bool_decide_true].
Qed.

Lemma choices_kept s id f nextType nextExtra docID v :
  check_type_change s id (f_data_type f) nextType = Ok tt ->
  check_choices_change unmarshal_choices unmarshal_strings s id (f_data_type f) nextType (f_extra f) nextExtra = Ok tt ->
  field_values s !! (docID, id) = Some v ->
  nextType = f_data_type f /\
  forall system name managed, choices_ok f v -> choices_ok (Field system name nextType nextExtra managed) v.
Proof.
  unfold check_type_change. intros Ht Hc Hv.
  assert (E : nextType = f_data_type f).
  { destruct (decide (nextType = f_data_type f)) as [|Hne]; [done|]. rewrite bool_decide_false in Ht by done. cbn in Ht.
    destruct (exists_row _ _) eqn:Ex; [done|]. apply (exists_row_false _ _ _ _ Ex) in Hv. cbn in Hv. by rewrite Z.eqb_refl in Hv. }
  subst nextType. split; [done|]. intros system name managed Hok.
  destruct (decide (nextExtra = f_extra f)) as [->|Hne]; [done|].
  intros x Hx. destruct (Hok x Hx) as [Hsel Hmul]. cbn [f_data_type f_extra].
  assert (G : is_choice_type (f_data_type f) = true -> _) by (intros Hch; exact (choices_change_unused _ _ _ _ _ _ _ _ Hc Hch Hne Hv Hx)).
  unfold is_choice_type in G. split; intros Hty; rewrite Hty in *.
  - destruct (G eq_refl) as (before & after & Hb & Ha & Hu). destruct (Hsel eq_refl) as (cs & Hcs & Hxc).
    exists after. split; [done|]. rewrite Hb in Hcs. injection Hcs as <-. by apply (Hu x Hxc).
  - destruct (G eq_refl) as (before & after & Hb & Ha & Hu). destruct (Hmul eq_refl) as (cs & xs & Hcs & Hxs & Hall).
    exists after, xs. split_and!; try done. rewrite Hb in Hcs. injection Hcs as <-.
    apply Forall_forall. intros y Hy. rewrite Forall_forall in Hall. destruct (Hu y (Hall y Hy)) as [_ Hu']. exact (Hu' eq_refl xs Hxs Hy).
Qed.

(** What an update that succeeds has checked and leaves. *)
Lemma update_def_Ok admin systemID id input s s' :
  UpdateCustomFieldDef admin systemID id input s = Ok s' ->
  exists f name nextType nextExtra set_extra, custom_fields s !! id = Some f /\
    (in_DataType input = None -> nextType = f_data_type f) /\
    (forall t, in_DataType input = Some t -> nextType = t /\ t ∈ DataTypes) /\
    check_type_change s id (f_data_type f) nextType = Ok tt /\
    check_choices_change unmarshal_choices unmarshal_strings s id (f_data_type f) nextType (f_extra f) nextExtra = Ok tt /\
    s' = retryBlockedFSWatch systemID
           (with_fields <[id := Field (f_system f) name nextType (if set_extra : bool then nextExtra else f_extra f) ""]> s).
Proof.
  unfold CustomFieldApi.UpdateCustomFieldDef. intros H.
  destruct (_ && _ && _); [done|]. destruct (match in_Name input with Some _ => _ | _ => _ end); [done|].
  destruct (match in_DataType input with Some _ => _ | _ => _ end) eqn:Ht; [done|].
  destruct (match in_ExtraData input with Some _ => _ | _ => _ end); [done|]. destruct admin; [|done].
  destruct (custom_fields s !! id) as [f|] eqn:Ef; [|done]. destruct (f_system f =? systemID); [|done].
  case_bool_decide; [|done]. destruct (match in_Name input with Some _ => _ | _ => _ end); [done|].
  cbv zeta in H. apply bind_Ok in H as (nextExtra & _ & H). apply bind_Ok in H as ([] & Hty & H).
  apply bind_Ok in H as ([] & Hch & H). destruct (_ && name_taken _ _ _ _); [done|]. injection H as <-.
  eexists f, _, _, nextExtra, _. split; [done|]. split_and!; [..|reflexivity]; try done.
  - by intros ->.
  - intros t E. rewrite E in Ht |- *. split; [done|]. by apply negb_false_iff, bool_decide_eq_true in Ht.
Qed.

Lemma update_finv admin systemID id input s s' :
  UpdateCustomFieldDef admin systemID id input s = Ok s' -> finv s -> finv s'.
Proof.
  intros (f & name & nextType & nextExtra & set_extra & Hf & Hnone & Hsome & Hty & Hch & ->)%update_def_Ok I.
  assert (Hin : nextType ∈ DataTypes).
  { destruct (in_DataType input) as [t|]; [destruct (Hsome t eq_refl) as [-> ?]; done|].
    rewrite Hnone by done. destruct I as [I _]. by eapply I. }
  apply (finv_fields s); cbn.
  - done.
  - intros i g [[<- <-]|[_ Hg]]%lookup_insert_Some; [done|]. destruct I as [I _]. by eapply I.
  - intros docID fieldID v g Hl Hg. split; [done|]. destruct (decide (fieldID = id)) as [->|Hne].
    + rewrite lookup_insert_eq. eexists. split; [done|]. rewrite Hf in Hg. injection Hg as <-. cbn [f_system f_data_type].
      destruct (choices_kept _ _ _ _ _ _ _ Hty Hch Hl) as [-> Hk]. split_and!; try done. destruct set_extra; [by apply Hk|].
      intros Hc x Hx. exact (Hc x Hx).
    + rewrite lookup_insert_ne by done. by exists g.
  - done.
Qed.

(** A validated choice is a choice of the definition. *)
Lemma parseChoices_Ok extra cs : parseChoices unmarshal_choices extra = Ok cs -> unmarshal_choices extra = Some cs.
Proof.
  unfold parseChoices. destruct (_ || _); [done|]. destruct (unmarshal_choices extra) as [[|]|]; try done. by intros [= <-].
Qed.
Lemma contains_elem cs x : contains cs x = true -> x ∈ cs.
Proof. unfold contains. intros (y & Hy & <-%bool_decide_eq_true)%existsb_exists. by apply list_elem_of_In. Qed.

Lemma validated_choices f raw t v :
  (forall extra cs xs, unmarshal_choices extra = Some cs -> Forall (fun x => x ∈ cs) xs ->
     unmarshal_strings (marshal_strings (Some xs)) = Some xs) ->
  Validate (Lookup (f_data_type f)) (f_extra f) raw = Ok t -> written t = Some v -> choices_ok f v.
Proof.
  intros Hjson H Hw x Hx. split; intros E; rewrite E in H;
    match type of H with context [Lookup ?name] => let h := eval hnf in (Lookup name) in change (Lookup name) with h in H end.
  - cbn in H. unfold validateSelect in H. apply bind_Ok in H as (y & _ & H).
    case_bool_decide; [injection H as <-; cbn in Hw; by rewrite bool_decide_true in Hw|].
    apply bind_Ok in H as (cs & Hcs & H). destruct (contains cs y) eqn:Ec; [|done]. injection H as <-.
    cbn in Hw. rewrite bool_decide_false in Hw by done. injection Hw as <-. injection Hx as <-.
    exists cs. split; [by apply parseChoices_Ok|by apply contains_elem].
  - cbn in H. assert (G : exists xs, check_choices unmarshal_choices (f_extra f) xs = Ok t \/ t = TStrings None).
    { unfold validateMulti in H. destruct raw; try done.
      - case_bool_decide; [injection H as <-; exists None; by right|]. eexists. left. exact H.
      - apply bind_Ok in H as (xs & _ & H). eexists. left. exact H.
      - eexists. left. exact H. }
    destruct G as (xs & [G|G]); [|by subst t]. apply check_choices_Ok in G as (-> & cs & Hcs & Hall).
    cbn in Hw. destruct (_ || _) eqn:Eo; [done|]. apply orb_false_iff in Eo as [Eo _].
    apply bool_decide_eq_false in Eo. destruct xs as [xs|]; [|done]. cbn in Hall. injection Hw as <-. injection Hx as <-.
    assert (Hin : Forall (fun y => y ∈ cs) xs) by (eapply Forall_impl; [exact Hall|]; intros y; apply contains_elem).
    apply parseChoices_Ok in Hcs. exists cs, xs. split_and!; eauto.
Qed.

Lemma resolve_Ok systemID ref s id f :
  resolveField systemID ref s = Some (id, f) -> custom_fields s !! id = Some f /\ f_system f = systemID.
Proof.
  unfold resolveField. destruct (ParseInt ref) as [n|].
  - destruct (custom_fields s !! n) as [g|] eqn:E; [|done]. destruct (Z.eqb_spec (f_system g) systemID); [|done].
    by intros [= <- <-].
  - destruct (list_find _ _) as [[i [j g]]|] eqn:E; [|done]. cbn. intros [= <- <-].
    apply list_find_Some in E as (Hl & [Hs _] & _). split; [|done].
    apply elem_of_map_to_list. by eapply list_elem_of_lookup_2.
Qed.

(** What is validated before the transaction of a value. *)
Lemma prepare_Ok systemID ref value s p :
  prepare_set Lookup systemID ref value s = Ok p ->
  exists f, custom_fields s !! pr_field p = Some f /\ pr_type p = f_data_type f /\
    Validate (Lookup (f_data_type f)) (f_extra f) value = Ok (pr_typed p).
Proof.
  unfold prepare_set. intros H. case_bool_decide; [done|].
  destruct (resolveField systemID ref s) as [[id f]|] eqn:E; [|done]. apply resolve_Ok in E as [Hf _].
  apply bind_Ok in H as (t & Ht & H). exists f.
  destruct (bool_decide (f_data_type f = _)); [destruct t; try discriminate H; destruct (_ && _); [discriminate H|]|]; by injection H as <-.
Qed.

(** The transaction writes the validated value through the handler, links across systems
    included. *)
Lemma set_tx_row may docID p s s' :
  pr_type p ∈ DataTypes -> has_type (pr_type p) (pr_typed p) -> set_tx Lookup may docID p s = Ok s' ->
  exists v, s' = with_values (partial_alter (fun _ => v) (docID, pr_field p)) s /\
    (forall w, v = Some w -> row_ok (pr_type p) docID (pr_field p) s w) /\
    (pr_type p <> "documentlink" -> v = written (pr_typed p)).
Proof.
  intros Hin Ht H. unfold set_tx in H. destruct (may docID 2); [|done]. destruct (live s docID); [|done].
  case_bool_decide as E.
  - rewrite E in Ht |- *. destruct (has_link_type _ Ht) as [z Ez]. rewrite Ez in H. destruct (_ && _); [done|].
    destruct (link_row _ _ _ _ _ _ H) as (v & -> & Hv). by exists v.
  - pose proof (Lookup_name _ Hin) as En. rewrite <- En in Ht.
    rewrite Write_written in H; [|done|by rewrite En]. rewrite En in Ht.
    destruct (written (pr_typed p)) as [v|] eqn:Ew; cbn [put] in H.
    + apply upsert_Ok in H as [-> Hx]. exists (Some v). split_and!; [done| |done]. intros w [= <-].
      pose proof (written_type _ _ _ Ht E Ew) as Hv. split_and!; [done..|].
      destruct (Int v) eqn:Ei; [|done]. destruct Hv as (_ & _ & Hi & _). by destruct E; apply Hi; rewrite Ei.
    + injection H as <-. by exists None.
Qed.

Lemma finv_value s docID fieldID v :
  finv s ->
  (forall w, v = Some w -> exists d f, documents s !! docID = Some d /\ custom_fields s !! fieldID = Some f /\
     doc_system d = f_system f /\ row_type (f_data_type f) w /\ choices_ok f w /\ Int w <> Some docID) ->
  finv (with_values (partial_alter (fun _ => v) (docID, fieldID)) s).
Proof.
  intros [It I] Hv. split; cbn; [done|]. intros d0 f0 w Hl.
  destruct (decide ((d0, f0) = (docID, fieldID))) as [[= -> ->]|Hne].
  - rewrite lookup_partial_alter_eq in Hl. by apply Hv.
  - rewrite lookup_partial_alter_ne in Hl by done. by apply I.
Qed.

Lemma set_finv may systemID docID ref value s s' :
  (forall v, is_int64 (int64_overflow v)) ->
  (forall extra cs xs, unmarshal_choices extra = Some cs -> Forall (fun x => x ∈ cs) xs ->
     unmarshal_strings (marshal_strings (Some xs)) = Some xs) ->
  raw_ok value -> SetCustomField may systemID docID ref value s = Ok s' -> finv s -> finv s'.
Proof.
  intros Ho Hjson Hr H I. apply bind_Ok in H as (p & Hp & H). apply prepare_Ok in Hp as (f & Hf & Et & Hval).
  assert (Hin : f_data_type f ∈ DataTypes) by (destruct I as [I _]; by eapply I).
  pose proof (Lookup_typed _ _ _ _ Ho Hr Hval) as Ht. rewrite Lookup_name in Ht by done.
  destruct (set_tx_row may docID p s s') as (v & -> & Hv & Hw); [by rewrite Et|by rewrite Et|done|].
  apply finv_value; [done|]. intros w Ew. destruct (Hv w Ew) as (Hrow & (d & g & Hd & Hg & Hs) & Hn).
  rewrite Hf in Hg. injection Hg as <-. exists d, f. rewrite Et in *. split_and!; try done.
  destruct (decide (f_data_type f = "documentlink")) as [El|Hne].
  - intros x _. split; intros E; rewrite El in E; discriminate E.
  - eapply validated_choices; [done|exact Hval|]. by rewrite <- Hw.
Qed.

(** C25: over any sequence of definitions created, changed and deleted and values set and
    cleared, each request validated against the definition it writes under, and of
    documents added, trashed and purged, every stored value belongs to an existing
    document and an existing field of its system, keeps a value in no column but that
    of the field's type, is a choice (or a list of choices) the definition still has,
    and links no document to itself. *)
Theorem values_invariant s s' :
  (forall v, is_int64 (int64_overflow v)) ->
  (forall extra cs xs, unmarshal_choices extra = Some cs -> Forall (fun x => x ∈ cs) xs ->
     unmarshal_strings (marshal_strings (Some xs)) = Some xs) ->
  finv s -> rtc vstep s s' -> finv s'.
Proof.
  intros Ho Hjson I R. induction R as [|x y z St R IH]; [done|]. apply IH. clear IH R.
  destruct St as [adm sys inp s0 id s' H|adm sys id inp s0 s' H|adm sys id s0 s' H|may sys d ref val s0 s' Hr H|
    may sys d ref s0 s' H|id d s0 Hn|id b s0|id s0].
  - by eapply create_finv.
  - by eapply update_finv.
  - by eapply drop_finv.
  - by eapply set_finv.
  - unfold DeleteCustomField in H. destruct (resolveField _ _ _) as [[fieldID f]|]; [|done].
    destruct (may d 2); [|done]. destruct (live s0 d); [|done]. injection H as <-. by apply (finv_value _ _ _ None).
  - destruct I as [It I]. split; cbn; [done|]. intros d0 f0 v Hl. destruct (I _ _ _ Hl) as (d1 & f1 & Hd & Hf & Hx).
    exists d1, f1. split_and!; try apply Hx; [|done]. rewrite lookup_insert_ne; [done|congruence].
  - destruct I as [It I]. split; cbn; [done|]. intros d0 f0 v Hl. destruct (I _ _ _ Hl) as (d1 & f1 & Hd & Hf & Hs & Hx).
    destruct (decide (d0 = id)) as [->|Hne].
    + exists (Doc (doc_system d1) b (doc_family d1)), f1. rewrite lookup_alter_eq, Hd. by split_and!; try apply Hx.
    + exists d1, f1. rewrite lookup_alter_ne by done. by split_and!; try apply Hx.
  - destruct I as [It I]. split; cbn; [done|]. intros d0 f0 v [Hl Hne]%map_lookup_filter_Some. cbn in Hne.
    destruct (I _ _ _ Hl) as (d1 & f1 & Hd & Hx). exists d1, f1. rewrite lookup_delete_ne by done. split; [done|exact Hx].
Qed.

(** The commit of a number prepared earlier, under whatever definition there is now. *)
Lemma commit_number may docID p v s d f :
  pr_type p = "number" -> pr_typed p = TFloat v -> may docID 2 = true ->
  documents s !! docID = Some d -> doc_trashed d = false ->
  custom_fields s !! pr_field p = Some f -> doc_system d = f_system f ->
  set_tx Lookup may docID p s = Ok (with_values <[(docID, pr_field p) := number_row v]> s).
Proof.
  intros Et Ev Hm Hd Hl Hf Hs. unfold set_tx, live. rewrite Hm, Hd, Hl, Et, Ev. cbn [negb].
  rewrite bool_decide_false by done. rewrite Write_written by done.
  exact (put_Ok (Some (number_row v)) docID (pr_field p) s d f Hd Hf Hs ltac:(by intros w [= <-])).
Qed.

(** A value is validated against the definition as it was read, before the
    transaction that stores it.  If the type of the field, of which there is no value yet,
    is changed from number to text in between, the number is stored all the same: the
    text field then has a value, but it reads as the empty text, and the type can no
    longer be changed. *)
Theorem stale_type_write may admin systemID docID p v input s s1 d :
  (exists ref value, prepare_set Lookup systemID ref value s = Ok p) ->
  pr_type p = "number" -> pr_typed p = TFloat v -> store_real v <> None ->
  UpdateCustomFieldDef admin systemID (pr_field p) input s = Ok s1 -> in_DataType input = Some "text" ->
  may docID 2 = true -> documents s !! docID = Some d -> doc_trashed d = false -> doc_system d = systemID ->
  (forall f, custom_fields s !! pr_field p = Some f -> f_system f = systemID) ->
  exists s2, set_tx Lookup may docID p s1 = Ok s2 /\
    ReadRenderedValue docID (pr_field p) s2 = Ok ("", true) /\ ~ finv s2 /\
    (forall nextType, nextType <> "text" -> check_type_change s2 (pr_field p) "text" nextType = Err ErrTypeInUse).
Proof.
  intros _ Et Ev Hstore Hu Hin Hm Hd Hl Hs Hsys.
  apply update_def_Ok in Hu as (f & name & nextType & nextExtra & set_extra & Hf & _ & Hty & _ & _ & ->).
  destruct (Hty _ Hin) as [-> _]. specialize (Hsys f Hf). set (s1 := retryBlockedFSWatch _ _). set (f1 := Field _ _ _ _ _) in *.
  assert (Hf1 : custom_fields s1 !! pr_field p = Some f1) by (cbn; by rewrite lookup_insert_eq).
  assert (Hs1 : doc_system d = f_system f1) by (cbn; congruence).
  eexists. split; [exact (commit_number may docID p v s1 d f1 Et Ev Hm Hd Hl Hf1 Hs1)|].
  destruct (store_real v) as [v'|] eqn:Esv; [|done]. split_and!.
  - pose proof (row_after (Some (number_row v)) docID (pr_field p) s1 f1 d Hd Hf1 Hs1) as G.
    etrans; [exact G|]. cbn. unfold number_row. by rewrite Esv.
  - intros [_ I]. destruct (I docID (pr_field p) (number_row v)) as (d' & f' & _ & Hf' & _ & (_ & Hn & _) & _).
    { cbn. by rewrite lookup_insert_eq. }
    cbn in Hf'. rewrite lookup_insert_eq in Hf'. injection Hf' as <-. cbn in Hn.
    unfold number_row in Hn. rewrite Esv in Hn. discriminate Hn. by eexists.
  - intros nextType Hne. unfold check_type_change. rewrite bool_decide_false by done.
    rewrite (proj2 (exists_row_spec _ _)); [done|]. exists (docID, pr_field p), (number_row v). split.
    + cbn. by rewrite lookup_insert_eq.
    + cbn. by rewrite Z.eqb_refl.
Qed.

(** A number field accepts the text NaN; the row it leaves holds no value, so it reads as
    absent, yet it keeps the type of the field from being changed. *)
Lemma nan_value_hidden may docID p s d f :
  pr_type p = "number" -> pr_typed p = TFloat S754_nan -> may docID 2 = true ->
  documents s !! docID = Some d -> doc_trashed d = false ->
  custom_fields s !! pr_field p = Some f -> doc_system d = f_system f -> f_data_type f = "number" ->
  exists s', set_tx Lookup may docID p s = Ok s' /\ ReadRenderedValue docID (pr_field p) s' = Ok ("", false) /\
    field_values s' !! (docID, pr_field p) = Some no_values /\
    check_type_change s' (pr_field p) "number" "text" = Err ErrTypeInUse.
Proof.
  intros Et Ev Hm Hd Hl Hf Hs Hn. eexists. split; [exact (commit_number may docID p _ s d f Et Ev Hm Hd Hl Hf Hs)|].
  split_and!.
  - pose proof (row_after (Some no_values) docID (pr_field p) s f d Hd Hf Hs) as G. rewrite Hn in G. exact G.
  - cbn. by rewrite lookup_insert_eq.
  - unfold check_type_change. rewrite bool_decide_false by done.
    rewrite (proj2 (exists_row_spec _ _)); [done|]. exists (docID, pr_field p), (number_row S754_nan). split.
    + cbn. by rewrite lookup_insert_eq.
    + cbn. by rewrite Z.eqb_refl.
Qed.
End Facts.

(** * Witnesses *)

Definition toy_parse (s : string) : option float64 :=
  match ParseInt s with Ok z => Some (float_of_int z) | Err _ => None end.
Definition toy_format (v : float64) : string := match whole v with Some z => FormatInt z | None => "?" end.
Definition toy_choices (extra : string) : option (list string) :=
  if bool_decide (extra = "C") then Some ["red"; "blue"] else None.
Definition toy_marshal (xs : option (list string)) : string :=
  String "[" (String.string_of_list_ascii ((fun x => if bool_decide (x = "red") then "r"%char else "b"%char) <$> default [] xs)).
Definition toy_unmarshal (s : string) : option (list string) :=
  match s with
  | String _ s => Some ((fun c => if bool_decide (c = "r"%char) then "red" else "blue") <$> String.list_ascii_of_string s)
  | EmptyString => None
  end.
Definition toy_lookup : string -> Handler :=
  Lookup toy_parse toy_format toy_format (fun _ => false) (fun _ => false) (fun _ => 0) (fun _ => None)
    toy_marshal toy_unmarshal toy_choices (fun s => s).

Lemma toy_round extra cs xs :
  toy_choices extra = Some cs -> Forall (fun x => x ∈ cs) xs -> toy_unmarshal (toy_marshal (Some xs)) = Some xs.
Proof.
  unfold toy_choices. destruct (bool_decide _); [|done]. intros [= <-] H. unfold toy_unmarshal, toy_marshal. cbn [default].
  rewrite String.list_ascii_of_string_of_list_ascii. f_equal. induction H as [|x xs Hx _ IH]; [done|].
  cbn. f_equal; [|exact IH]. rewrite !elem_of_cons, elem_of_nil in Hx. by decompose [or] Hx; subst.
Qed.
Lemma toy_overflow (v : float64) : is_int64 ((fun _ => 0) v).
Proof. apply int64_0. Qed.

Definition store0 : store :=
  Store {[1 := Doc 7 false None]} {[1 := Field 7 "Colour" "select" "C" ""; 2 := Field 7 "Size" "number" "{}" ""]} ∅ ∅.
Lemma store0_finv : finv toy_unmarshal toy_choices store0.
Proof.
  split.
  - intros id f Hf. cbn [custom_fields store0] in Hf.
    apply lookup_insert_Some in Hf as [[_ <-]|[_ Hf]]; [|apply lookup_singleton_Some in Hf as [_ <-]]; cbn; set_solver.
  - intros d f v H. cbn in H. by rewrite lookup_empty in H.
Qed.

Lemma Validate_typed_witness :
  Validate (toy_lookup "date") "" (RString "2024-02-29") = Ok (TInt64 1709164800) /\ is_int64 1709164800.
Proof.
  split; [vm_compute; reflexivity|].
  destruct (Validate_typed toy_parse toy_format toy_format (fun _ => false) (fun _ => false) (fun _ => 0) (fun _ => None)
    toy_marshal toy_unmarshal toy_choices (fun s => s) "date" "" (RString "2024-02-29") (TInt64 1709164800)) as ([H _] & _).
  - exact toy_overflow.
  - exact I.
  - vm_compute. reflexivity.
  - exact H.
Defined.

Lemma render_stored_witness :
  exists s', Write (toy_lookup "select") 1 1 (TString "blue") store0 = Ok s' /\
    ReadRenderedValue toy_parse toy_format toy_format (fun _ => false) (fun _ => false) (fun _ => 0) (fun _ => None)
      toy_marshal toy_unmarshal toy_choices (fun s => s) 1 1 s' = Ok ("blue", true).
Proof.
  destruct (render_stored toy_parse toy_format toy_format (fun _ => false) (fun _ => false) (fun _ => 0) (fun _ => None)
    toy_marshal toy_unmarshal toy_choices (fun s => s) "C" (RString " blue ") (TString "blue") 1 1 store0 (Doc 7 false None)
    (Field 7 "Colour" "select" "C" "")) as (s' & text & Hw & Hr & Hs).
  - exact toy_overflow.
  - exact I.
  - discriminate.
  - intros xs H. unfold toy_marshal. rewrite H. reflexivity.
  - reflexivity.
  - reflexivity.
  - reflexivity.
  - discriminate.
  - vm_compute. reflexivity.
  - exists s'. split; [exact Hw|]. rewrite (Hs I). vm_compute in Hr. injection Hr as <-. reflexivity.
Defined.

Lemma values_invariant_witness :
  exists s', SetCustomField toy_lookup (fun _ _ => true) 7 1 "Colour" (RString "red") store0 = Ok s' /\
    finv toy_unmarshal toy_choices s'.
Proof.
  eexists. split; [vm_compute; reflexivity|].
  refine (values_invariant toy_parse toy_format toy_format (fun _ => false) (fun _ => false) (fun _ => 0) (fun _ => None)
    toy_marshal toy_unmarshal toy_choices (fun s => s) (fun _ => true) (fun _ => "C") store0 _ _ _ _ _).
  - exact toy_overflow.
  - exact toy_round.
  - exact store0_finv.
  - apply rtc_once. apply (step_set _ _ _ _ _ _ _ _ _ _ _ _ _ (fun _ _ => true) 7 1 "Colour" (RString "red")).
    + exact I.
    + vm_compute. reflexivity.
Defined.

Lemma stale_type_write_witness :
  exists s1 s2,
    UpdateCustomFieldDef (fun _ => true) toy_choices (fun _ => "C") toy_unmarshal true 7 2
      (MkUpsert None (Some "text") None) store0 = Ok s1 /\
    set_tx toy_lookup (fun _ _ => true) 1 (MkPrep 2 "number" (TFloat (float_of_int 42))) s1 = Ok s2 /\
    check_type_change s2 2 "text" "number" = Err ErrTypeInUse.
Proof.
  eexists. destruct (stale_type_write toy_parse toy_format toy_format (fun _ => false) (fun _ => false) (fun _ => 0) (fun _ => None)
    toy_marshal toy_unmarshal toy_choices (fun s => s) (fun _ => true) (fun _ => "C") (fun _ _ => true) true 7 1
    (MkPrep 2 "number" (TFloat (float_of_int 42))) (float_of_int 42) (MkUpsert None (Some "text") None) store0
    (retryBlockedFSWatch 7 (with_fields <[2 := Field 7 "Size" "text" "{}" ""]> store0)) (Doc 7 false None))
    as (s2 & Hs2 & _ & _ & Hc).
  - exists "Size", (RString "42"). vm_compute. reflexivity.
  - reflexivity.
  - reflexivity.
  - vm_compute. discriminate.
  - vm_compute. reflexivity.
  - reflexivity.
  - reflexivity.
  - reflexivity.
  - reflexivity.
  - reflexivity.
  - intros f [= <-]. reflexivity.
  - exists s2. split; [vm_compute; reflexivity|]. split; [exact Hs2|]. apply Hc. discriminate.
Defined.
