(* ===== verification/Lang.v ===== *)
(** Language codes of documents ([core/lang]): the stored form of a list of codes
    ([detect.go]), hints from document metadata ([hints.go]) and the chain of detectors
    ([chain.go]).  Detectors are plug-ins: an argument, a function to results or an error. *)
From Stdlib Require Import SpecFloat.
From S2P Require Import Prelude GoStd Utf8 Slug CustomField.

(** [iso6391Re]: two or three lower-case letters. *)
Definition is_lower (c : ascii) : bool := in_range 97 122 (byte_val c).
Definition iso6391 (s : string) : bool :=
  all_bytes is_lower s && ((String.length s =? 2)%nat || (String.length s =? 3)%nat).

Section Codes.
Context (U : unicode_tables).

(** [Format]'s loop over the comma-separated parts: [seen] codes are dropped. *)
Fixpoint format_loop (seen : gset string) (parts : list string) : list string :=
  match parts with
  | [] => []
  | p :: parts' =>
      let p := ToLower (lower U) (TrimSpace p) in
      if bool_decide (p = "") || bool_decide (p ∈ seen) || negb (iso6391 p) then format_loop seen parts'
      else p :: format_loop ({[p]} ∪ seen) parts'
  end.
Definition Format (codes : string) : string :=
  let codes := TrimSpace codes in
  if bool_decide (codes = "") then ""
  else match format_loop ∅ (Split codes ","%char) with
       | [] => ""
       | out => "," +:+ Join out "," +:+ ","
       end.

(** [strings.Trim(s, ",")]. *)
Definition Trim (c : ascii) (s : string) : string := TrimRight c (TrimLeft c s).

Definition Parse (stored : string) : list string :=
  let stored := Trim ","%char stored in
  if bool_decide (stored = "") then []
  else filter (fun p => p <> "") (TrimSpace <$> Split stored ","%char).
Definition Primary (stored : string) : string := match Parse stored with [] => "" | p :: _ => p end.

(** [strings.SplitN(s, sep, 2)[0]]. *)
Definition before (s : string) (c : ascii) : string := hd "" (Split s c).

Definition FromPDFLang (tag : string) : string :=
  let tag := TrimSpace tag in
  if bool_decide (tag = "") then ""
  else
    let primary := ToLower (lower U) (TrimSpace (before tag "-"%char)) in
    if iso6391 primary then primary else "".
Definition FromContentLanguage (header : string) : string :=
  let header := TrimSpace header in
  if bool_decide (header = "") then "" else FromPDFLang (before (before header ","%char) ";"%char).
End Codes.

(** * Detectors *)
Record Result : Type := MkResult { Code : string; Confidence : float64 }.
Record Detector : Type := MkDetector { Name : string; Detect : string -> Prelude.result string (list Result) }.
Definition Chain : Type := list Detector.

(** A nil detector is not registered. *)
Definition Register (d : option Detector) (c : Chain) : Chain :=
  match d with Some d => c ++ [d] | None => c end.

Definition above (threshold : float64) (r : Result) : bool :=
  negb (bool_decide (Code r = "")) && SFltb threshold (Confidence r).
Fixpoint BestAbove (text : string) (threshold : float64) (c : Chain) : option Result :=
  match c with
  | [] => None
  | d :: c' =>
      match Detect d text with
      | Err _ => BestAbove text threshold c'
      | Ok results =>
          match find (above threshold) results with
          | Some r => Some r
          | None => BestAbove text threshold c'
          end
      end
  end.

Example Format_examples :
  Format ascii_tables "de, en, " = ",de,en," /\ Format ascii_tables "DE,de,en" = ",de,en," /\
  Format ascii_tables "en_US" = "" /\ Parse ",de,en," = ["de"; "en"] /\
  FromPDFLang ascii_tables "DE-de" = "de" /\ FromContentLanguage ascii_tables "en-US, de" = "en".
Proof. split_and!; vm_compute; reflexivity. Qed.

(** * Facts *)

(** A list of codes as [Format] writes it. *)
Definition code_list (l : list string) : Prop := NoDup l /\ Forall (fun c => iso6391 c = true) l.
Definition stored_form (l : list string) : string :=
  match l with [] => "" | _ => "," +:+ Join l "," +:+ "," end.

Lemma format_loop_spec U seen parts :
  NoDup (format_loop U seen parts) /\ Forall (fun c => iso6391 c = true /\ c ∉ seen) (format_loop U seen parts).
Proof.
  revert seen; induction parts as [|p parts IH]; intros seen; cbn [format_loop].
  { split; constructor. }
  destruct (bool_decide _ || _ || _) eqn:E; [apply IH|]. bool_simpl.
  destruct (IH ({[ToLower (lower U) (TrimSpace p)]} ∪ seen)) as [Hn Hf]. split.
  - constructor; [|done]. intros Hin. rewrite Forall_forall in Hf. apply Hf in Hin. set_solver.
  - constructor; [done|]. eapply Forall_impl; [exact Hf|]. cbn. intros c [? ?]. set_solver.
Qed.

Lemma Format_form U codes : exists l, code_list l /\ Format U codes = stored_form l.
Proof.
  unfold Format. case_bool_decide; [exists []; split; [split; constructor|done]|].
  destruct (format_loop_spec U ∅ (Split (TrimSpace codes) ","%char)) as [Hn Hf].
  eexists. split; [split; [exact Hn|eapply Forall_impl; [exact Hf|by intros ? []]]|].
  by destruct (format_loop _ _ _).
Qed.

Lemma iso_bytes c : iso6391 c = true -> all_bytes is_lower c = true /\ c <> "".
Proof. unfold iso6391. intros H. bool_simpl. split; [done|]. intros ->. done. Qed.

Lemma lower_not c d : is_lower c = true -> is_lower d = false -> c <> d.
Proof. congruence. Qed.

Lemma all_bytes_impl (f g : ascii -> bool) s :
  (forall c, f c = true -> g c = true) -> all_bytes f s = true -> all_bytes g s = true.
Proof. intros Hfg. induction s; cbn; [done|]. intros. bool_simpl. rewrite Hfg, IHs by done. done. Qed.

(** Lower-case ASCII text as runes. *)
Lemma lower_runes s :
  all_bytes is_lower s = true ->
  exists rs, s = encode_runes rs /\ Forall (fun r => 97 <= r <= 122) rs.
Proof.
  induction s as [|c s IH]; cbn; intros H; [by exists []|]. bool_simpl.
  destruct IH as (rs & -> & Hrs); [done|]. unfold is_lower, in_range in *. bool_simpl.
  exists (byte_val c :: rs). split; [|constructor; [lia|done]].
  cbn [encode_runes]. rewrite encode_ascii, chr_byte_val by lia. done.
Qed.
Lemma lower_range_solid rs :
  Forall (fun r => 97 <= r <= 122) rs ->
  Forall (fun r => valid_rune r = true) rs /\ forall r, r ∈ rs -> IsSpace r = false.
Proof.
  intros H. split.
  - eapply Forall_impl; [exact H|]. intros r Hr. cbn in Hr. unfold valid_rune. by rune_arith.
  - intros r Hr. rewrite Forall_forall in H. apply H in Hr. unfold IsSpace, in_range. by rune_arith.
Qed.
Lemma TrimSpace_code s : all_bytes is_lower s = true -> TrimSpace s = s.
Proof.
  intros (rs & -> & Hrs)%lower_runes. destruct (lower_range_solid rs Hrs) as [Hv Hs].
  apply TrimSpace_solid; [done| |].
  - intros r Hr. apply Hs. destruct rs; [done|]. injection Hr as ->. apply list_elem_of_here.
  - intros r (rs' & ->)%last_Some. apply Hs, elem_of_app. right. apply list_elem_of_here.
Qed.

Lemma TrimLeft_id c s : (forall t, s <> String c t) -> TrimLeft c s = s.
Proof. destruct s as [|d s]; [done|]. intros H. cbn. case_bool_decide; [subst; by destruct (H s)|done]. Qed.

(** No comma at either end. *)
Lemma Join_codes_shape l :
  l <> [] -> Forall (fun c => iso6391 c = true) l ->
  (forall t, Join l "," <> String ","%char t) /\ exists a d, Join l "," = a +:+ String d "" /\ d <> ","%char.
Proof.
  intros Hl Hf. split.
  - intros t E. destruct l as [|c l]; [done|]. apply Forall_cons in Hf as [Hc _].
    apply iso_bytes in Hc as [Hc Hne]. destruct c as [|d c]; [done|]. cbn in Hc. bool_simpl.
    destruct l; cbn [Join] in E; rewrite ?append_cons in E; injection E as -> _; done.
  - destruct (exists_last Hl) as (xs & z & ->). apply Forall_app in Hf as [_ Hz].
    rewrite Forall_singleton in Hz. apply iso_bytes in Hz as [Hz Hne].
    assert (Hlast : exists a d, z = a +:+ String d "" /\ d <> ","%char).
    { clear -Hz Hne. induction z as [|c z IH]; [done|]. cbn in Hz. bool_simpl.
      destruct z as [|d z]; [exists "", c; split; [done|by intros ->]|].
      destruct IH as (a & d' & -> & Hd); [done|done|]. exists (String c a), d'. by rewrite append_cons. }
    destruct Hlast as (a & d & -> & Hd). clear Hz Hne Hl.
    induction xs as [|x xs (b & d' & E & Hd')]; [by exists a, d|].
    cbn [app]. rewrite Join_cons by (by destruct xs). rewrite E.
    exists (x +:+ "," +:+ b), d'. split; [|done]. by rewrite <- !append_assoc.
Qed.

Lemma Trim_stored l :
  l <> [] -> Forall (fun c => iso6391 c = true) l -> Trim ","%char (stored_form l) = Join l ",".
Proof.
  intros Hl Hf. destruct (Join_codes_shape l Hl Hf) as (H1 & a & d & E & Hd).
  assert (stored_form l = String ","%char (Join l "," +:+ ",")) as -> by (by destruct l).
  unfold Trim. cbn [TrimLeft]. rewrite bool_decide_eq_true_2 by done. rewrite TrimLeft_id.
  - rewrite (TrimRight_snoc ","%char). rewrite E. by apply TrimRight_other.
  - intros t Ht. destruct (Join l ",") as [|c s] eqn:EJ; [by destruct a|].
    rewrite append_cons in Ht. injection Ht as -> _. by destruct (H1 s).
Qed.

Lemma code_no_comma c : iso6391 c = true -> no_byte ","%char c = true.
Proof.
  intros [H _]%iso_bytes. eapply all_bytes_impl; [|exact H]. intros x Hx.
  rewrite bool_decide_eq_false_2; [done|]. by intros ->.
Qed.

Lemma Parse_stored l : code_list l -> Parse (stored_form l) = l.
Proof.
  intros [_ Hf]. destruct l as [|c0 l0] eqn:El; [reflexivity|]. rewrite <- El in *.
  assert (Hl : l <> []) by (by subst). unfold Parse. rewrite Trim_stored by done.
  destruct (Join_codes_shape l Hl Hf) as (_ & a & d & E & _).
  rewrite bool_decide_eq_false_2 by (rewrite E; by destruct a).
  rewrite (Split_Join ","%char); [|done|eapply Forall_impl; [exact Hf|]; exact code_no_comma].
  clear -Hf. induction Hf as [|c l Hc _ IH]; [done|]. rewrite fmap_cons. apply iso_bytes in Hc as [Hc Hne].
  rewrite TrimSpace_code by done. rewrite filter_cons_True by done. by rewrite IH.
Qed.

(** What [Format] stores is the canonical list of distinct valid codes, and [Parse]
    reads exactly that list back. *)
Theorem Format_Parse U codes :
  Format U codes = stored_form (Parse (Format U codes)) /\ code_list (Parse (Format U codes)).
Proof. destruct (Format_form U codes) as (l & Hl & ->). by rewrite Parse_stored. Qed.

Section Idempotent.
Context (U : unicode_tables) {HU : tables_laws U}.

Lemma ToLower_code s : all_bytes is_lower s = true -> ToLower (lower U) s = s.
Proof using HU.
  intros (rs & -> & Hrs)%lower_runes. destruct (lower_range_solid rs Hrs) as [Hv _].
  unfold ToLower. rewrite runes_encode by done. f_equal.
  clear Hv. induction Hrs as [|r rs Hr _ IH]; [done|]. cbn. by rewrite IH, lower_ascii by done.
Qed.

Lemma format_loop_id seen l :
  Forall (fun c => iso6391 c = true /\ c ∉ seen) l -> NoDup l -> format_loop U seen l = l.
Proof using HU.
  intros Hf Hn; revert seen Hf. induction Hn as [|c l Hc Hn IH]; intros seen Hf; [done|].
  apply Forall_cons in Hf as [[Hi Hs] Hf]. cbn [format_loop].
  destruct (iso_bytes c Hi) as [Hb Hne]. rewrite TrimSpace_code, ToLower_code by done.
  rewrite !bool_decide_eq_false_2, Hi by done. cbn. rewrite IH; [done|].
  rewrite Forall_forall in Hf |- *. intros x Hx. destruct (Hf x Hx). split; [done|].
  apply not_elem_of_union. split; [|done]. apply not_elem_of_singleton. by intros ->.
Qed.
Lemma format_loop_snoc_nil seen l : format_loop U seen (l ++ [""]) = format_loop U seen l.
Proof using.
  revert seen; induction l as [|c l IH]; intros seen; cbn [format_loop app].
  - by rewrite (eq_refl : ToLower (lower U) (TrimSpace "") = "").
  - by rewrite !IH.
Qed.

Lemma stored_solid l : l <> [] -> Forall (fun c => iso6391 c = true) l -> TrimSpace (stored_form l) = stored_form l.
Proof using.
  intros Hl Hf.
  assert (Hb : all_bytes (fun c => is_lower c || bool_decide (c = ","%char)) (Join l ",") = true).
  { apply Join_bytes; [done|]. eapply Forall_impl; [exact Hf|]. cbn. intros c [Hc _]%iso_bytes.
    eapply all_bytes_impl; [|exact Hc]. cbn. by intros x ->. }
  assert (exists rs, Join l "," = encode_runes rs /\ Forall (fun r => 0 <= r < 128) rs) as (rs & E & Hrs).
  { clear -Hb. induction (Join l ",") as [|c s IH]; [by exists []|]. cbn in Hb. bool_simpl.
    destruct IH as (rs & -> & Hrs); [done|]. exists (byte_val c :: rs).
    assert (0 <= byte_val c < 128).
    { bool_cases; [unfold is_lower, in_range in *; bool_simpl; lia|]. subst. by vm_compute. }
    split; [|by constructor]. cbn [encode_runes]. rewrite encode_ascii, chr_byte_val by done. done. }
  assert (stored_form l = encode_runes ([44] ++ rs ++ [44])) as ->.
  { rewrite !encode_runes_app, <- E. by destruct l. }
  apply TrimSpace_solid.
  - apply Forall_app. split; [by repeat constructor|]. apply Forall_app. split; [|by repeat constructor].
    eapply Forall_impl; [exact Hrs|]. cbn. intros r Hr. unfold valid_rune. by rune_arith.
  - by intros r [= <-].
  - intros r. rewrite app_assoc, last_snoc. by intros [= <-].
Qed.

(** Formatting a stored value changes nothing. *)
Lemma Format_idempotent codes : Format U (Format U codes) = Format U codes.
Proof using HU.
  destruct (Format_form U codes) as (l & [Hn Hf] & ->).
  destruct l as [|c0 l0] eqn:El; [reflexivity|]. rewrite <- El in *. assert (Hl : l <> []) by (by subst).
  unfold Format. rewrite stored_solid by done.
  assert (stored_form l = String ","%char (Join l "," +:+ ",")) as E by (by subst).
  rewrite bool_decide_eq_false_2 by (by rewrite E).
  assert (Split (stored_form l) ","%char = "" :: l ++ [""]) as ->.
  { rewrite E. change (String ","%char (Join l "," +:+ ",")) with ("" +:+ String ","%char (Join l "," +:+ ",")).
    rewrite Split_app. change (Split "" ","%char) with [""]. cbn [app]. f_equal.
    rewrite Split_app. f_equal. apply (Split_Join ","%char); [done|].
    eapply Forall_impl; [exact Hf|]. exact code_no_comma. }
  cbn [format_loop]. rewrite (eq_refl : ToLower (lower U) (TrimSpace "") = "").
  rewrite bool_decide_eq_true_2 by done. cbn [orb]. rewrite format_loop_snoc_nil, format_loop_id; [by subst| |done].
  eapply Forall_impl; [exact Hf|]. cbn. intros c Hc. split; [done|]. set_solver.
Qed.
End Idempotent.

(** The chain answers with the first result above the threshold of the first detector
    that has one: every detector before it failed or offered none. *)
Theorem BestAbove_spec text threshold c r :
  BestAbove text threshold c = Some r <->
  exists before d after pre post,
    c = before ++ d :: after /\ Detect d text = Ok (pre ++ r :: post) /\ above threshold r = true /\
    Forall (fun x => above threshold x = false) pre /\
    Forall (fun d => match Detect d text with
                     | Ok results => Forall (fun x => above threshold x = false) results
                     | Err _ => True end) before.
Proof.
  assert (Hfind : forall l, match find (above threshold) l with
     | Some x => exists pre post, l = pre ++ x :: post /\ above threshold x = true /\
                   Forall (fun x => above threshold x = false) pre
     | None => Forall (fun x => above threshold x = false) l end).
  { induction l as [|x l IH]; cbn; [done|]. destruct (above threshold x) eqn:E.
    - exists [], l. split_and!; try done.
    - destruct (find (above threshold) l); [|by constructor].
      destruct IH as (pre & post & -> & Hx & Hp). exists (x :: pre), post. split_and!; try done. by constructor. }
  split.
  - induction c as [|d c IH]; cbn; [done|]. intros H.
    destruct (Detect d text) as [results|e] eqn:E.
    + specialize (Hfind results). destruct (find (above threshold) results) as [x|].
      * injection H as ->. destruct Hfind as (pre & post & -> & Hx & Hp).
        exists [], d, c, pre, post. split_and!; try done.
      * destruct (IH H) as (b & d' & a & pre & post & -> & Hd & Hr & Hp & Hb).
        exists (d :: b), d', a, pre, post. split_and!; try done. constructor; [by rewrite E|done].
    + destruct (IH H) as (b & d' & a & pre & post & -> & Hd & Hr & Hp & Hb).
      exists (d :: b), d', a, pre, post. split_and!; try done. constructor; [by rewrite E|done].
  - intros (b & d & a & pre & post & -> & Hd & Hr & Hp & Hb).
    induction Hb as [|x b Hx _ IH]; cbn.
    + rewrite Hd. specialize (Hfind (pre ++ r :: post)).
      assert (find (above threshold) (pre ++ r :: post) = Some r) as ->; [|done].
      clear Hfind Hd. induction Hp as [|y pre Hy _ IHp]; cbn; [by rewrite Hr|]. by rewrite Hy.
    + destruct (Detect x text) as [results|]; [|done].
      specialize (Hfind results). destruct (find (above threshold) results) as [y|]; [|done].
      destruct Hfind as (? & ? & -> & Hy & _). apply Forall_app in Hx as [_ Hx]. apply Forall_cons in Hx as [Hx _].
      congruence.
Qed.
