(* ===== verification/Taxonomy.v ===== *)
(** Tags and correspondents ([core/taxonomy]), the relations of documents to them, and the
    requests that change them ([core/api/tags.go], [core/api/document_correspondents.go],
    the correspondents of [core/api/taxonomy_crud.go]).

    The columns of [documents] that these statements read but never write, system and
    trashed, are the argument [document]; the other columns used here are in [docs].  The
    revision triggers of the schema count every written row.  Whether the caller may act is
    an argument of a request.  A queued ["render"] job is kept as its document and system. *)
From S2P Require Import Prelude GoStd Utf8 Sqlite Slug CustomField.

(** * Tables *)

(** The key of [document_correspondents]: document, correspondent, role. *)
Abbreviation rel_key := (Z * Z * string)%type.

(** A row of [tags] or [correspondents]; only tags have parents. *)
Record named : Type := MkNamed {
  n_system : Z; n_name : string; n_slug : string; n_parent : option Z; n_created_at : Z; n_updated_at : Z;
}.
(** Columns of [documents]. *)
Record meta : Type := MkMeta {
  title : string; title_owner : string; category : Z; languages : string; languages_locked : bool;
  original_blob : string; updated_at : Z;
  source_revision : Z; title_revision : Z; correspondent_revision : Z; category_revision : Z;
  tags_revision : Z; language_revision : Z;
}.
(** A JSON value of an action's parameters: a decoded number, an id not yet stored, a list,
    anything else. *)
Inductive param : Type := PNumber (v : float64) | PInt (n : Z) | PList (l : list param) | POther (json : string).
Record trigger_row : Type := MkTrigger { at_automation : Z; filter_tag_id : option Z; filter_corr_id : option Z }.
(** [None] is text that does not decode into an object. *)
Record action_row : Type := MkAction { aa_automation : Z; aa_kind : string; aa_params : option (gmap string param) }.

Record tables : Type := Tables {
  docs : gmap Z meta;
  tags : gmap Z named;
  correspondents : gmap Z named;
  document_tags : gmap (Z * Z) bool;                (* (document, tag) to classifier_owned *)
  document_correspondents : gmap (Z * Z * string) Z; (* (document, correspondent, role) to position *)
  automations : gmap Z Z;                           (* id to system_id *)
  automation_triggers : gmap Z trigger_row;
  automation_actions : gmap Z action_row;
  moves : list (Z * Z);                             (* queued ["render"] jobs *)
}.
Definition with_docs (f : gmap Z meta -> gmap Z meta) (t : tables) : tables :=
  Tables (f (docs t)) (tags t) (correspondents t) (document_tags t) (document_correspondents t) (automations t)
    (automation_triggers t) (automation_actions t) (moves t).
Definition with_tags (f : gmap Z named -> gmap Z named) (t : tables) : tables :=
  Tables (docs t) (f (tags t)) (correspondents t) (document_tags t) (document_correspondents t) (automations t)
    (automation_triggers t) (automation_actions t) (moves t).
Definition with_corrs (f : gmap Z named -> gmap Z named) (t : tables) : tables :=
  Tables (docs t) (tags t) (f (correspondents t)) (document_tags t) (document_correspondents t) (automations t)
    (automation_triggers t) (automation_actions t) (moves t).
Definition with_doc_tags (f : gmap (Z * Z) bool -> gmap (Z * Z) bool) (t : tables) : tables :=
  Tables (docs t) (tags t) (correspondents t) (f (document_tags t)) (document_correspondents t) (automations t)
    (automation_triggers t) (automation_actions t) (moves t).
Definition with_relations (f : gmap (Z * Z * string) Z -> gmap (Z * Z * string) Z) (t : tables) : tables :=
  Tables (docs t) (tags t) (correspondents t) (document_tags t) (f (document_correspondents t)) (automations t)
    (automation_triggers t) (automation_actions t) (moves t).
Definition with_rules (f : gmap Z trigger_row -> gmap Z trigger_row) (g : gmap Z action_row -> gmap Z action_row)
    (t : tables) : tables :=
  Tables (docs t) (tags t) (correspondents t) (document_tags t) (document_correspondents t) (automations t)
    (f (automation_triggers t)) (g (automation_actions t)) (moves t).
Definition with_moves (f : list (Z * Z) -> list (Z * Z)) (t : tables) : tables :=
  Tables (docs t) (tags t) (correspondents t) (document_tags t) (document_correspondents t) (automations t)
    (automation_triggers t) (automation_actions t) (f (moves t)).

Inductive tax_error : Type :=
  | ErrInvalid (message : string)      (* errors.New *)
  | ErrAbort (message : string)        (* a trigger's RAISE(ABORT) *)
  | ErrUnique | ErrForeignKey
  | ErrNoRow (name : string) | ErrNotFound | ErrBadParams
  | ErrSelfParent | ErrCycle | ErrNoParent
  | ErrDecode (action : Z).
#[export] Instance tax_error_eq_dec : EqDecision tax_error.
Proof. solve_decision. Defined.

(** The revision triggers: [n] more written rows of a document. *)
Definition bump_corr (n : Z) (m : meta) : meta :=
  MkMeta (title m) (title_owner m) (category m) (languages m) (languages_locked m) (original_blob m) (updated_at m)
    (source_revision m) (title_revision m) (correspondent_revision m + n) (category_revision m) (tags_revision m)
    (language_revision m).
Definition bump_tags (n : Z) (m : meta) : meta :=
  MkMeta (title m) (title_owner m) (category m) (languages m) (languages_locked m) (original_blob m) (updated_at m)
    (source_revision m) (title_revision m) (correspondent_revision m) (category_revision m) (tags_revision m + n)
    (language_revision m).
Definition touch_corr (doc n : Z) (t : tables) : tables := with_docs (alter (bump_corr n) doc) t.
Definition touch_tags (doc n : Z) (t : tables) : tables := with_docs (alter (bump_tags n) doc) t.

(** The least id of a row that satisfies a test: [ORDER BY id LIMIT 1]. *)
Definition first_where {A} (f : A -> bool) (m : gmap Z A) : option Z :=
  head (merge_sort Z.le (filter (fun x => f x.2 = true) (map_to_list m)).*1).

(** * Roles *)
Definition valid_role (role : string) : bool :=
  existsb (String.eqb role) ["sender"; "recipient"; "cc"; "other"].

Inductive NamedTable : Type := TableTags | TableCorrespondents.
Definition rows_of (table : NamedTable) (t : tables) : gmap Z named :=
  match table with TableTags => tags t | TableCorrespondents => correspondents t end.
Definition with_rows (table : NamedTable) (f : gmap Z named -> gmap Z named) (t : tables) : tables :=
  match table with TableTags => with_tags f t | TableCorrespondents => with_corrs f t end.

(** [UNIQUE(system_id, name)], [UNIQUE(system_id, slug)]; [except] is the row being written. *)
Definition clashes (m : gmap Z named) (except : option Z) (systemID : Z) (name slug : string) : bool :=
  exists_row (fun id r => negb (bool_decide (except = Some id)) && (n_system r =? systemID)
                          && (bool_decide (n_name r = name) || bool_decide (n_slug r = slug))) m.

(** [ORDER BY position, correspondent_id]. *)
Definition rank_le (a b : Z * Z) : Prop := a.1 < b.1 \/ (a.1 = b.1 /\ a.2 <= b.2).
#[export] Instance rank_le_dec a b : Decision (rank_le a b).
Proof. unfold rank_le. apply _. Defined.

Section Tables.
Context (U : unicode_tables).
(** The system and trashed columns of a document, and the filing systems. *)
Context (document : Z -> option (Z * bool)) (system_exists : Z -> bool).

(** * Named rows *)

(** [SELECT id ... WHERE system_id = ? AND (name = ? OR slug = ?)], exact names first. *)
Definition find_named (m : gmap Z named) (systemID : Z) (name slug : string) : option Z :=
  match first_where (fun r => (n_system r =? systemID) && bool_decide (n_name r = name)) m with
  | Some id => Some id
  | None => first_where (fun r => (n_system r =? systemID) && bool_decide (n_slug r = slug)) m
  end.

Definition stamp (now : Z) (r : named) : named :=
  MkNamed (n_system r) (n_name r) (n_slug r) (n_parent r) (n_created_at r) now.

Definition UpsertByName (systemID : Z) (table : NamedTable) (name : string) (now : Z) (t : tables)
    : result tax_error (Z * tables) :=
  let name := TrimSpace name in
  fail_if bool_decide (name = "") with ErrInvalid "taxonomy: empty name" in
  let slug := Make U name in
  let m := rows_of table t in
  t ← (if clashes m None systemID name slug then Ok t
       else require system_exists systemID else ErrForeignKey in
            Ok (with_rows table <[next_rowid m := MkNamed systemID name slug None now now]> t));
  match find_named (rows_of table t) systemID name slug with
  | None => Err ErrNotFound
  | Some id => Ok (id, with_rows table (alter (stamp now) id) t)
  end.

(** [NumericID]: positive integral numbers.  A float64 is below [math.MaxInt64] when it is
    below 2^63. *)
Definition integral (v : float64) : option Z :=
  match v with
  | SpecFloat.S754_zero _ => Some 0
  | SpecFloat.S754_finite s m e =>
      if (0 <=? e) || (Z.pos m mod 2 ^ (- e) =? 0) then Some (trunc s m e) else None
  | _ => None
  end.
Definition NumericID (value : param) : option Z :=
  match value with
  | PInt n => if 0 <? n then Some n else None
  | PNumber v =>
      match integral v with Some n => if (0 <? n) && (n <? 2 ^ 63) then Some n else None | None => None end
  | _ => None
  end.

(** * Correspondents of a document *)

(** The rows of one role, with their positions. *)
Definition role_rows (t : tables) (doc : Z) (role : string) : list (Z * Z) :=
  (fun x => (x.2, x.1.1.2)) <$>
    filter (fun x => x.1.1.1 = doc /\ x.1.2 = role) (map_to_list (document_correspondents t)).
Definition in_order (t : tables) (doc : Z) (role : string) : list Z := (merge_sort rank_le (role_rows t doc role)).*2.

Definition PrimaryCorrespondentID (t : tables) (doc : Z) : option Z := head (in_order t doc "sender").

(** The reference trigger compares the systems of the two rows. *)
Definition same_system (t : tables) (doc corr : Z) : bool :=
  bool_decide (fst <$> document doc = n_system <$> correspondents t !! corr).

Definition AppendCorrespondent (doc corr : Z) (role : string) (t : tables) : result tax_error tables :=
  fail_if (doc <=? 0) || (corr <=? 0) || negb (valid_role role)
    with ErrInvalid "taxonomy: invalid correspondent relation" in
  require same_system t doc corr else ErrAbort "cross-system reference" in
  match document_correspondents t !! (doc, corr, role) with
  | Some _ => Ok t
  | None =>
      require bool_decide (is_Some (document doc)) && bool_decide (is_Some (correspondents t !! corr)) else ErrForeignKey in
      let position := foldr (fun x acc => Z.max (x.1 + 1) acc) 0 (role_rows t doc role) in
      Ok (touch_corr doc 1 (with_relations <[(doc, corr, role) := position]> t))
  end.

Definition ClearPrimaryCorrespondents (doc : Z) (t : tables) : tables :=
  touch_corr doc (Z.of_nat (length (role_rows t doc "sender")))
    (with_relations (filter (fun x => ~ (x.1.1.1 = doc /\ x.1.2 = "sender"))) t).

(** One row of the renumbering: written when its position differs. *)
Definition place (doc : Z) (role : string) (position corr : Z) (t : tables) : tables :=
  if bool_decide (document_correspondents t !! (doc, corr, role) = Some position) then t
  else touch_corr doc 1 (with_relations <[(doc, corr, role) := position]> t).
Fixpoint place_all (doc : Z) (role : string) (from : Z) (l : list Z) (t : tables) : tables :=
  match l with [] => t | corr :: l' => place_all doc role (from + 1) l' (place doc role from corr t) end.

(** The [ranked] table of the statement is computed once. *)
Definition SetPrimaryCorrespondent (doc corr : Z) (t : tables) : result tax_error tables :=
  if corr <=? 0 then Ok (ClearPrimaryCorrespondents doc t)
  else
    t ← AppendCorrespondent doc corr "sender" t;
    mret (place_all doc "sender" 0 (corr :: filter (fun c => c <> corr) (in_order t doc "sender")) t).

Definition RemoveCorrespondentRole (doc corr : Z) (role : string) (t : tables) : result tax_error (bool * tables) :=
  fail_if (doc <=? 0) || (corr <=? 0) || negb (valid_role role)
    with ErrInvalid "taxonomy: invalid correspondent relation" in
  match document_correspondents t !! (doc, corr, role) with
  | None => Ok (false, t)
  | Some _ => Ok (true, touch_corr doc 1 (with_relations (delete (doc, corr, role)) t))
  end.

(** Relations removed by a predicate on (correspondent, role), each counted. *)
Definition remove_relations (doc : Z) (f : Z -> bool) (t : tables) : tables :=
  let gone := filter (fun x => x.1.1.1 = doc /\ f x.1.1.2 = true) (document_correspondents t) in
  touch_corr doc (Z.of_nat (size gone))
    (with_relations (filter (fun x => ~ (x.1.1.1 = doc /\ f x.1.1.2 = true))) t).
Definition RemoveCorrespondents (doc : Z) (ids : list Z) (t : tables) : result tax_error tables :=
  fail_if doc <=? 0 with ErrInvalid "taxonomy: invalid document id" in
  match ids with
  | [] => Ok (remove_relations doc (fun _ => true) t)
  | _ => fail_if existsb (fun id => id <=? 0) ids with ErrInvalid "taxonomy: invalid correspondent id" in
         Ok (remove_relations doc (fun c => bool_decide (c ∈ ids)) t)
  end.

(** [INSERT ... SELECT] without a conflict clause: a relation the target already has fails
    the statement. *)
Fixpoint copy_rows (to : Z) (rows : list (Z * Z * string * Z)) (t : tables) : result tax_error tables :=
  match rows with
  | [] => Ok t
  | ((_, corr, role), position) :: rows' =>
      require same_system t to corr else ErrAbort "cross-system reference" in
      require bool_decide (is_Some (document to)) else ErrForeignKey in
      fail_if bool_decide (is_Some (document_correspondents t !! (to, corr, role))) with ErrUnique in
      copy_rows to rows' (touch_corr to 1 (with_relations <[(to, corr, role) := position]> t))
  end.
Definition CopyCorrespondents (from to : Z) (t : tables) : result tax_error tables :=
  copy_rows to (filter (fun x => x.1.1.1 = from) (map_to_list (document_correspondents t))) t.

(** * Merging *)

(** The rows of [from] inserted for [into], or the existing position lowered. *)
Fixpoint merge_rows (into : Z) (rows : list (rel_key * Z)) (t : tables) : result tax_error tables :=
  match rows with
  | [] => Ok t
  | ((doc, _, role), position) :: rows' =>
      require same_system t doc into else ErrAbort "cross-system reference" in
      let position := match document_correspondents t !! (doc, into, role) with
                      | Some p => Z.min p position | None => position end in
      merge_rows into rows' (touch_corr doc 1 (with_relations <[(doc, into, role) := position]> t))
  end.
Definition rows_of_pair (t : tables) (doc corr : Z) : list (rel_key * Z) :=
  filter (fun x => x.1.1.1 = doc /\ x.1.1.2 = corr) (map_to_list (document_correspondents t)).

(** [SELECT COUNT]s of the rows before one, on the table as it stands. *)
Definition count_prior (t : tables) (key : rel_key) (position : Z) : Z :=
  Z.of_nat (length (filter (fun x => x.1 < position \/ (x.1 = position /\ x.2 < key.1.2))
                      (role_rows t key.1.1 key.2))).
(** The last statement updates the document's rows one after the other, in the order in
    which the engine visits them; each count sees the rows already written. *)
Fixpoint renumber (visit : list rel_key) (t : tables) : tables :=
  match visit with
  | [] => t
  | key :: visit' =>
      match document_correspondents t !! key with
      | None => renumber visit' t
      | Some position =>
          renumber visit' (touch_corr key.1.1 1 (with_relations <[key := count_prior t key position]> t))
      end
  end.

(** The rows of a document, in the order of the scan. *)
Context (scan : list rel_key -> list rel_key).
Definition doc_rows (t : tables) (doc : Z) : list rel_key :=
  filter (fun key => key.1.1 = doc) (map_to_list (document_correspondents t)).*1.
Definition mergeCorrespondent (doc from into : Z) (t : tables) : result tax_error tables :=
  t ← merge_rows into (rows_of_pair t doc from) t;
  let t := remove_relations doc (fun c => c =? from) t in
  mret (renumber (scan (doc_rows t doc)) t).

Inductive Kind : Type := KindTag | KindCorrespondent.
Definition table_of (kind : Kind) : NamedTable :=
  match kind with KindTag => TableTags | KindCorrespondent => TableCorrespondents end.

Definition affectedDocs (kind : Kind) (fromID : Z) (t : tables) : list Z :=
  match kind with
  | KindTag => (filter (fun x => x.1.2 = fromID) (map_to_list (document_tags t))).*1.*1
  | KindCorrespondent =>
      remove_dups ((filter (fun x => x.1.1.2 = fromID) (map_to_list (document_correspondents t))).*1.*1.*1)
  end.

(** [view.EnqueueMove]. *)
Definition enqueue_move (doc : Z) (t : tables) : result tax_error tables :=
  match document doc with
  | None => Err ErrNotFound
  | Some (systemID, trashed) => Ok (if trashed : bool then t else with_moves (fun l => l ++ [(doc, systemID)]) t)
  end.
Fixpoint enqueue_moves (l : list Z) (t : tables) : result tax_error tables :=
  match l with [] => Ok t | doc :: l' => t ← enqueue_move doc t; enqueue_moves l' t end.

(** The target tag on every document that has the source; such a tag is the user's. *)
Definition give_tag (into doc : Z) (t : tables) : tables :=
  touch_tags doc 1 (with_doc_tags <[(doc, into) := false]> t).
Definition drop_doc_tag (doc tag : Z) (t : tables) : tables :=
  match document_tags t !! (doc, tag) with
  | None => t
  | Some owned => (if owned : bool then id else touch_tags doc 1) (with_doc_tags (delete (doc, tag)) t)
  end.
Definition merge_tags (affected : list Z) (from into : Z) (t : tables) : tables :=
  foldl (fun t doc => drop_doc_tag doc from t) (foldl (fun t doc => give_tag into doc t) t affected) affected.

Fixpoint merge_docs (affected : list Z) (from into : Z) (t : tables) : result tax_error tables :=
  match affected with
  | [] => Ok t
  | doc :: affected' => t ← mergeCorrespondent doc from into t; merge_docs affected' from into t
  end.

(** [replaceID], [replaceIDList]: whether something changed, and the new value. *)
Definition is_id (fromID : Z) (v : param) : bool := bool_decide (NumericID v = Some fromID).
Definition replaceID (ps : gmap string param) (key : string) (fromID intoID : Z) : option (gmap string param) :=
  match ps !! key with
  | Some v => if is_id fromID v then Some (<[key := PInt intoID]> ps) else None
  | None => None
  end.
Definition replaceIDList (ps : gmap string param) (key : string) (fromID intoID : Z) : option (gmap string param) :=
  match ps !! key with
  | Some (PList values) =>
      if existsb (is_id fromID) values
      then Some (<[key := PList ((fun v => if is_id fromID v then PInt intoID else v) <$> values)]> ps)
      else None
  | _ => None
  end.
Definition replace_params (kind : Kind) (ps : gmap string param) (fromID intoID : Z) : option (gmap string param) :=
  match kind with
  | KindTag => replaceIDList ps "tag_ids" fromID intoID
  | KindCorrespondent =>
      match replaceID ps "correspondent_id" fromID intoID with
      | Some ps' => Some ps'
      | None => replaceIDList ps "correspondent_ids" fromID intoID
      end
  end.
(** Writing parameters back: numbers are read again as float64. *)
Fixpoint stored (v : param) : param :=
  match v with PInt n => PNumber (float_of_int n) | PList l => PList (stored <$> l) | _ => v end.

Definition in_system (systemID : Z) (t : tables) (automation : Z) : bool :=
  bool_decide (automations t !! automation = Some systemID).
Definition retarget (kind : Kind) (systemID fromID intoID : Z) (t : tables) (r : trigger_row) : trigger_row :=
  if in_system systemID t (at_automation r) then
    match kind with
    | KindTag => if bool_decide (filter_tag_id r = Some fromID)
                 then MkTrigger (at_automation r) (Some intoID) (filter_corr_id r) else r
    | KindCorrespondent => if bool_decide (filter_corr_id r = Some fromID)
                           then MkTrigger (at_automation r) (filter_tag_id r) (Some intoID) else r
    end
  else r.
Fixpoint rewrite_actions (kind : Kind) (fromID intoID : Z) (rows : list (Z * action_row)) (t : tables)
    : result tax_error tables :=
  match rows with
  | [] => Ok t
  | (id, r) :: rows' =>
      match aa_params r with
      | None => Err (ErrDecode id)
      | Some ps =>
          let t := match replace_params kind ps fromID intoID with
                   | Some ps' => with_rules (fun m => m) <[id := MkAction (aa_automation r) (aa_kind r) (Some (stored <$> ps'))]> t
                   | None => t
                   end in
          rewrite_actions kind fromID intoID rows' t
      end
  end.
Definition rewriteAutomationReferences (systemID : Z) (kind : Kind) (fromID intoID : Z) (t : tables)
    : result tax_error tables :=
  let rows := filter (fun x => in_system systemID t (aa_automation x.2) = true) (map_to_list (automation_actions t)) in
  rewrite_actions kind fromID intoID rows (with_rules (fmap (retarget kind systemID fromID intoID t)) (fun m => m) t).

(** Deleting a named row: children lose their parent, relations cascade with their
    triggers. *)
Definition orphan (id : Z) (r : named) : named :=
  if bool_decide (n_parent r = Some id)
  then MkNamed (n_system r) (n_name r) (n_slug r) None (n_created_at r) (n_updated_at r) else r.
Definition delete_tag_row (id : Z) (t : tables) : tables :=
  let t := foldl (fun t doc => drop_doc_tag doc id t) t (affectedDocs KindTag id t) in
  with_tags (fun m => orphan id <$> delete id m) t.
Definition delete_corr_row (id : Z) (t : tables) : tables :=
  let t := foldl (fun t doc => remove_relations doc (fun c => c =? id) t) t (affectedDocs KindCorrespondent id t) in
  with_corrs (delete id) t.
Definition delete_row (kind : Kind) (id : Z) (t : tables) : tables :=
  match kind with KindTag => delete_tag_row id t | KindCorrespondent => delete_corr_row id t end.

Record Options : Type := MkOptions {
  o_SystemID : Z; o_Kind : Kind; o_FromName : string; o_IntoName : string; o_Apply : bool;
}.
Record Result : Type := MkResult {
  r_FromID : Z; r_IntoID : Z; r_DocsMoved : nat; r_Applied : bool;
}.
Definition lookupByName (systemID : Z) (kind : Kind) (name : string) (t : tables) : result tax_error Z :=
  match first_where (fun r => (n_system r =? systemID) && bool_decide (n_name r = name)) (rows_of (table_of kind) t) with
  | Some id => Ok id
  | None => Err (ErrNoRow name)
  end.
(** The reads before the write transaction. *)
Definition merge_plan (o : Options) (t : tables) : result tax_error Result :=
  fail_if o_SystemID o <=? 0 with ErrInvalid "taxonomy: system is required" in
  fail_if bool_decide (o_FromName o = "") || bool_decide (o_IntoName o = "")
    with ErrInvalid "taxonomy: from-name and into-name are required" in
  fail_if bool_decide (o_FromName o = o_IntoName o) with ErrInvalid "taxonomy: nothing to merge" in
  fromID ← lookupByName (o_SystemID o) (o_Kind o) (o_FromName o) t;
  intoID ← lookupByName (o_SystemID o) (o_Kind o) (o_IntoName o) t;
  mret (MkResult fromID intoID (length (affectedDocs (o_Kind o) fromID t)) (o_Apply o)).
Definition present (kind : Kind) (systemID id : Z) (t : tables) : bool :=
  bool_decide (n_system <$> rows_of (table_of kind) t !! id = Some systemID).
Definition merge_tx (systemID : Z) (kind : Kind) (fromID intoID : Z) (t : tables) : result tax_error tables :=
  require present kind systemID fromID t && present kind systemID intoID t && negb (fromID =? intoID)
    else ErrInvalid "taxonomy: merge targets changed" in
  let affected := affectedDocs kind fromID t in
  t ← (match kind with
       | KindTag => Ok (merge_tags affected fromID intoID t)
       | KindCorrespondent => merge_docs affected fromID intoID t
       end);
  t ← enqueue_moves affected t;
  t ← rewriteAutomationReferences systemID kind fromID intoID t;
  mret (delete_row kind fromID t).
Definition Merge (o : Options) (t : tables) : result tax_error (Result * tables) :=
  r ← merge_plan o t;
  if o_Apply o then t ← merge_tx (o_SystemID o) (o_Kind o) (r_FromID r) (r_IntoID r) t; mret (r, t) else Ok (r, t).

(** * Requests *)

(** Which documents' selected layout reads a variable ([EnqueueTemplateMoves]); [wanted] is
    the filter on live documents. *)
Context (reads_variable : Z -> string -> bool).
Definition template_moves (variable : string) (wanted : Z -> bool) (t : tables) : tables :=
  let targets := filter (fun doc => wanted doc && reads_variable doc variable
                           && match document doc with Some (_, trashed) => negb trashed | None => false end = true)
                   (merge_sort Z.le (map_to_list (docs t)).*1) in
  with_moves (fun l => l ++ omap (fun doc => (fun d => (doc, fst d)) <$> document doc) targets) t.
Definition tagged (t : tables) (tag doc : Z) : bool := bool_decide (is_Some (document_tags t !! (doc, tag))).
Definition sends (t : tables) (corr doc : Z) : bool :=
  bool_decide (is_Some (document_correspondents t !! (doc, corr, "sender"))).

(** [CreateTag] and [taxonomyCreate] of correspondents: a missing or blank slug is made from
    the name. *)
Definition create_row (table : NamedTable) (admin : bool) (systemID : Z) (name slug : option string) (now : Z)
    (t : tables) : result tax_error (Z * tables) :=
  let name := TrimSpace (default "" name) in
  fail_if bool_decide (name = "") with ErrBadParams in
  let slug := TrimSpace (default "" slug) in
  let slug := if bool_decide (slug = "") then Make U name else slug in
  require admin else ErrNotFound in
  let m := rows_of table t in
  fail_if clashes m None systemID name slug with ErrUnique in
  require system_exists systemID else ErrForeignKey in
  Ok (next_rowid m, with_rows table <[next_rowid m := MkNamed systemID name slug None now now]> t).

Definition rename (now : Z) (name slug : option string) (r : named) : named :=
  MkNamed (n_system r) (default (n_name r) (TrimSpace <$> name)) (default (n_slug r) (TrimSpace <$> slug))
    (n_parent r) (n_created_at r) now.
(** The update of a named row; a color alone is left out of the rows but not of the guard. *)
Definition update_row (table : NamedTable) (id now : Z) (name slug : option string) (t : tables)
    : result tax_error tables :=
  match rows_of table t !! id with
  | None => Err ErrNotFound
  | Some r =>
      let r' := rename now name slug r in
      fail_if clashes (rows_of table t) (Some id) (n_system r') (n_name r') (n_slug r') with ErrUnique in
      Ok (with_rows table <[id := r']> t)
  end.
Definition renamed (r : option named) (name : option string) : bool :=
  match r, name with Some r, Some n => negb (bool_decide (TrimSpace n = n_name r)) | _, _ => false end.

(** Renaming a tag makes its assignments the user's. *)
Definition own_tag (id : Z) (t : tables) : tables :=
  foldl (fun t doc =>
           match document_tags t !! (doc, id) with
           | None => t
           | Some _ => touch_tags doc 1 (with_doc_tags <[(doc, id) := false]> t)
           end) t (affectedDocs KindTag id t).
Definition UpdateTag (admin : bool) (id now : Z) (name slug color : option string) (t : tables)
    : result tax_error tables :=
  fail_if bool_decide (name = None) && bool_decide (slug = None) && bool_decide (color = None) with ErrBadParams in
  require admin else ErrNotFound in
  let before := tags t !! id in
  t ← update_row TableTags id now name slug t;
  let t := if bool_decide (name = None) && bool_decide (slug = None) then t else own_tag id t in
  Ok (if renamed before name then template_moves "tag_list" (tagged t id) t else t).

Definition DeleteTag (admin : bool) (systemID id : Z) (t : tables) : result tax_error tables :=
  require admin else ErrNotFound in
  let t := template_moves "tag_list" (tagged t id) t in
  require present KindTag systemID id t else ErrNotFound in
  Ok (delete_tag_row id t).

(** [DeleteTags]: all or none. *)
Definition DeleteTags (admin : bool) (systemID : Z) (ids : list Z) (t : tables) : result tax_error tables :=
  fail_if bool_decide (ids = []) with ErrBadParams in
  fail_if (500 <? length ids)%nat with ErrBadParams in
  require forallb (fun id => 0 <? id) ids && bool_decide (NoDup ids) else ErrBadParams in
  require admin else ErrNotFound in
  require forallb (fun id => present KindTag systemID id t) ids else ErrNotFound in
  let t := template_moves "tag_list" (fun doc => existsb (fun id => tagged t id doc) ids) t in
  Ok (foldl (fun t id => delete_tag_row id t) t ids).

(** The walk from the proposed parent towards the root, on the read pool's snapshot. *)
Fixpoint cycle_check (hops : nat) (systemID id cursor : Z) (t : tables) : result tax_error unit :=
  match hops with
  | O => Ok tt
  | S hops' =>
      fail_if cursor =? id with ErrCycle in
      match tags t !! cursor with
      | None => Err ErrNoParent
      | Some r =>
          require n_system r =? systemID else ErrNoParent in
          match n_parent r with None => Ok tt | Some next => cycle_check hops' systemID id next t end
      end
  end.
Definition MaxHops : nat := 128.
Definition check_parent (systemID id : Z) (parent : option Z) (t : tables) : result tax_error unit :=
  match parent with
  | None => Ok tt
  | Some p => fail_if p =? id with ErrSelfParent in cycle_check MaxHops systemID id p t
  end.
Definition set_parent (parent : option Z) (now : Z) (r : named) : named :=
  MkNamed (n_system r) (n_name r) (n_slug r) parent (n_created_at r) now.
(** The write transaction. *)
Definition set_parent_tx (may : bool) (systemID id : Z) (parent : option Z) (now : Z) (t : tables)
    : result tax_error tables :=
  require may else ErrNotFound in
  require match parent with Some p => present KindTag systemID p t | None => true end else ErrBadParams in
  match tags t !! id with
  | None => Err ErrNotFound
  | Some r =>
      require match parent with
              | Some p => bool_decide (n_system <$> tags t !! p = Some (n_system r))
              | None => true end else ErrAbort "cross-system parent" in
      Ok (with_tags <[id := set_parent parent now r]> t)
  end.
(** [SetTagParent] with nothing between the check and the write. *)
Definition SetTagParent (may : bool) (systemID id : Z) (parent : option Z) (now : Z) (t : tables)
    : result tax_error tables :=
  _ ← check_parent systemID id parent t; set_parent_tx may systemID id parent now t.

(** Correspondents of [taxonomy_crud.go]. *)
Definition UpdateCorrespondent (may : bool) (id now : Z) (name slug : option string) (other : bool) (t : tables)
    : result tax_error tables :=
  fail_if bool_decide (name = None) && bool_decide (slug = None) && negb other with ErrBadParams in
  require may else ErrNotFound in
  let before := correspondents t !! id in
  t ← update_row TableCorrespondents id now name slug t;
  Ok (if renamed before name then template_moves "correspondent" (sends t id) t else t).
Definition DeleteCorrespondent (may : bool) (id : Z) (t : tables) : result tax_error tables :=
  require may else ErrNotFound in
  let t := template_moves "correspondent" (sends t id) t in
  require bool_decide (is_Some (correspondents t !! id)) else ErrNotFound in
  Ok (delete_corr_row id t).

(** [AddDocCorrespondent] and [RemoveDocCorrespondent]. *)
Definition AddDocCorrespondent (may : bool) (doc : Z) (name role : string) (now : Z) (t : tables)
    : result tax_error (Z * tables) :=
  fail_if bool_decide (TrimSpace name = "") || negb (valid_role role) with ErrBadParams in
  require may else ErrNotFound in
  match document doc with
  | None => Err ErrNotFound
  | Some (systemID, trashed) =>
      fail_if (trashed : bool) with ErrNotFound in
      '(corr, t) ← UpsertByName systemID TableCorrespondents (TrimSpace name) now t;
      t ← AppendCorrespondent doc corr role t;
      t ← enqueue_move doc t;
      mret (corr, t)
  end.
Definition RemoveDocCorrespondent (may : bool) (doc corr : Z) (role : string) (t : tables) : result tax_error tables :=
  fail_if negb (valid_role role) with ErrBadParams in
  require may else ErrNotFound in
  '(affected, t) ← RemoveCorrespondentRole doc corr role t;
  if affected : bool then enqueue_move doc t else Err ErrNotFound.
End Tables.
