(* ===== verification/TaxonomyFacts.v ===== *)
(** What the operations of [Taxonomy] promise: the order of a document's correspondents,
    rows named once per system, merges that leave no reference behind, and the tree of
    tags. *)
From S2P Require Import Prelude GoStd Utf8 Sqlite Slug CustomField Taxonomy.

(** * Order of correspondents *)

#[export] Instance rank_le_trans : Transitive rank_le.
Proof. intros [a b] [c d] [e f]. unfold rank_le. cbn. lia. Qed.
#[export] Instance rank_le_total : Total rank_le.
Proof. intros [a b] [c d]. unfold rank_le. cbn. lia. Qed.
#[export] Instance rank_le_antisymm : AntiSymm (=) rank_le.
Proof. intros [a b] [c d]. unfold rank_le. cbn. intros. f_equal; lia. Qed.

Lemma role_rows_elem t doc role p c :
  (p, c) ∈ role_rows t doc role <-> document_correspondents t !! (doc, c, role) = Some p.
Proof.
  unfold role_rows. rewrite list_elem_of_fmap. split.
  - intros ([[[d c'] r] p'] & [= -> ->] & H). apply list_elem_of_filter in H as [[H1 H2] H].
    cbn in H1, H2. subst. by apply elem_of_map_to_list in H.
  - intros H. exists (doc, c, role, p). split; [done|]. apply list_elem_of_filter. cbn.
    split; [done|]. by apply elem_of_map_to_list.
Qed.

Lemma role_rows_NoDup t doc role : NoDup (role_rows t doc role).*2.
Proof.
  unfold role_rows. rewrite <- list_fmap_compose.
  apply NoDup_fmap_2_strong.
  - intros [[[d1 c1] r1] p1] [[[d2 c2] r2] p2] H1 H2 E. cbn in E. subst.
    apply list_elem_of_filter in H1 as [[A1 B1] H1]. apply list_elem_of_filter in H2 as [[A2 B2] H2].
    cbn in *. subst. apply elem_of_map_to_list in H1, H2. congruence.
  - apply NoDup_filter, NoDup_map_to_list.
Qed.
Lemma role_rows_nodup t doc role : NoDup (role_rows t doc role).
Proof. eapply NoDup_fmap_1, role_rows_NoDup. Qed.

(** The order is the only sorted listing of the rows. *)
Lemma sorted_rows_unique l t doc role :
  l ≡ₚ role_rows t doc role -> StronglySorted rank_le l -> merge_sort rank_le (role_rows t doc role) = l.
Proof.
  intros Hp Hs. apply (StronglySorted_unique rank_le).
  - apply StronglySorted_merge_sort; apply _.
  - done.
  - by rewrite merge_sort_Permutation.
Qed.

Lemma in_order_elem t doc role c :
  c ∈ in_order t doc role <-> is_Some (document_correspondents t !! (doc, c, role)).
Proof.
  unfold in_order. rewrite list_elem_of_fmap. split.
  - intros ([p c'] & -> & H). rewrite merge_sort_Permutation in H. apply role_rows_elem in H. eauto.
  - intros [p H]. exists (p, c). split; [done|]. rewrite merge_sort_Permutation. by apply role_rows_elem.
Qed.
Lemma in_order_NoDup t doc role : NoDup (in_order t doc role).
Proof. unfold in_order. rewrite merge_sort_Permutation. apply role_rows_NoDup. Qed.

Lemma StronglySorted_filter {A} (R : A -> A -> Prop) (P : A -> Prop) `{forall x, Decision (P x)} l :
  StronglySorted R l -> StronglySorted R (filter P l).
Proof.
  induction 1 as [|x l Hl IH Hx]; [constructor|]. rewrite filter_cons. destruct (decide (P x)); [|done].
  constructor; [done|]. rewrite Forall_forall in Hx |- *. intros y Hy. apply list_elem_of_filter in Hy as [_ Hy]. by apply Hx.
Qed.

(** The other correspondents of a role keep their order whatever happens to one. *)
Lemma in_order_others t t' doc role c :
  (forall c', c' <> c -> document_correspondents t' !! (doc, c', role) = document_correspondents t !! (doc, c', role)) ->
  filter (fun c' => c' <> c) (in_order t' doc role) = filter (fun c' => c' <> c) (in_order t doc role).
Proof.
  intros Hsame. unfold in_order.
  assert (Hf : forall l : list (Z * Z), filter (fun c' => c' <> c) l.*2 = (filter (fun x => x.2 <> c) l).*2).
  { induction l as [|[p y] l IH]; [done|]. cbn [fmap list_fmap]. rewrite !filter_cons. cbn.
    destruct (decide (y <> c)); cbn; by rewrite IH. }
  rewrite !Hf. f_equal. apply (StronglySorted_unique rank_le);
    [apply StronglySorted_filter, StronglySorted_merge_sort; apply _..|].
  rewrite !merge_sort_Permutation. apply NoDup_Permutation.
  - apply NoDup_filter, role_rows_nodup.
  - apply NoDup_filter, role_rows_nodup.
  - intros [p y]. rewrite !list_elem_of_filter, !role_rows_elem. cbn. split; intros [Hy H]; split; try done;
      [rewrite <- Hsame by done|rewrite Hsame by done]; done.
Qed.

Lemma touch_relations doc n t : document_correspondents (touch_corr doc n t) = document_correspondents t.
Proof. done. Qed.

Lemma place_lookup doc role p c t k :
  document_correspondents (place doc role p c t) !! k =
    if bool_decide (k = (doc, c, role)) then Some p else document_correspondents t !! k.
Proof.
  unfold place. case_bool_decide as E1; case_bool_decide as E2; subst; try done.
  - cbn. by rewrite lookup_insert_eq.
  - cbn. by rewrite lookup_insert_ne.
Qed.

Lemma place_all_other doc role from l t k :
  (forall c, c ∈ l -> k <> (doc, c, role)) ->
  document_correspondents (place_all doc role from l t) !! k = document_correspondents t !! k.
Proof.
  revert from t; induction l as [|c l IH]; intros from t H; [done|]. cbn [place_all].
  rewrite IH by (intros; apply H; by apply list_elem_of_further). rewrite place_lookup.
  rewrite bool_decide_eq_false_2; [done|]. apply H, list_elem_of_here.
Qed.
Lemma place_all_at doc role from l t i c :
  NoDup l -> l !! i = Some c ->
  document_correspondents (place_all doc role from l t) !! (doc, c, role) = Some (from + Z.of_nat i).
Proof.
  intros Hn; revert from t i. induction Hn as [|x l Hx Hn IH]; intros from t i Hi; [done|].
  cbn [place_all]. destruct i as [|i].
  - injection Hi as ->. rewrite place_all_other by (intros y Hy [= ->]; done).
    rewrite place_lookup, bool_decide_eq_true_2 by done. f_equal. lia.
  - cbn in Hi. rewrite (IH _ _ i) by done. f_equal. lia.
Qed.

Fixpoint ranked (from : Z) (l : list Z) : list (Z * Z) :=
  match l with [] => [] | c :: l' => (from, c) :: ranked (from + 1) l' end.
Lemma ranked_elem from l p c : (p, c) ∈ ranked from l <-> exists i, l !! i = Some c /\ p = from + Z.of_nat i.
Proof.
  revert from; induction l as [|x l IH]; intros from; cbn [ranked].
  - split; [by intros ?%not_elem_of_nil|]. by intros (i & Hi & _).
  - rewrite elem_of_cons, IH. split.
    + intros [[= -> ->]|(i & Hi & ->)]; [exists 0%nat; split; [done|lia]|exists (S i); split; [done|lia]].
    + intros ([|i] & Hi & ->); [left; injection Hi as ->; f_equal; lia|right; exists i; split; [done|lia]].
Qed.
Lemma ranked_sorted from l : StronglySorted rank_le (ranked from l).
Proof.
  revert from; induction l as [|x l IH]; intros from; [constructor|]. cbn. constructor; [done|].
  apply Forall_forall. intros [p c] (i & _ & ->)%ranked_elem. unfold rank_le. cbn. lia.
Qed.
Lemma ranked_snd from l : (ranked from l).*2 = l.
Proof. revert from; induction l as [|x l IH]; intros from; [done|]. cbn. by rewrite IH. Qed.
Lemma ranked_NoDup from l : NoDup l -> NoDup (ranked from l).
Proof. intros H. apply NoDup_fmap_1 with (f := snd). by rewrite ranked_snd. Qed.

(** Renumbering a listing of exactly the related correspondents makes it the order. *)
Lemma place_all_order doc role l t :
  NoDup l -> (forall c, c ∈ l <-> is_Some (document_correspondents t !! (doc, c, role))) ->
  in_order (place_all doc role 0 l t) doc role = l.
Proof.
  intros Hn Hl. unfold in_order. rewrite (sorted_rows_unique (ranked 0 l)); [apply ranked_snd| |apply ranked_sorted].
  apply NoDup_Permutation; [by apply ranked_NoDup|apply role_rows_nodup|].
  intros [p c]. rewrite ranked_elem, role_rows_elem. split.
  - intros (i & Hi & ->). by apply place_all_at.
  - intros H. destruct (decide (c ∈ l)) as [Hc|Hc].
    + apply list_elem_of_lookup in Hc as (i & Hi). rewrite (place_all_at doc role 0 l t i c) in H by done.
      injection H as <-. by exists i.
    + rewrite place_all_other in H by (intros c' Hc' [= ->]; done). destruct Hc. apply Hl. eauto.
Qed.

(** * What one statement leaves in the tables *)

Lemma affected_tag id t d : d ∈ affectedDocs KindTag id t <-> is_Some (document_tags t !! (d, id)).
Proof.
  cbn. rewrite <- list_fmap_compose, list_elem_of_fmap. split.
  - intros ([[d' i] o] & -> & H). apply list_elem_of_filter in H as [E H]. cbn in E |- *. subst.
    apply elem_of_map_to_list in H. eauto.
  - intros [o H]. exists (d, id, o). split; [done|]. apply list_elem_of_filter. split; [done|].
    by apply elem_of_map_to_list.
Qed.
Lemma affected_corr id t d :
  d ∈ affectedDocs KindCorrespondent id t <-> exists role, is_Some (document_correspondents t !! (d, id, role)).
Proof.
  cbn. rewrite elem_of_remove_dups, <- !list_fmap_compose, list_elem_of_fmap. split.
  - intros ([[[d' i] r] o] & -> & H). apply list_elem_of_filter in H as [E H]. cbn in E |- *. subst.
    apply elem_of_map_to_list in H. eauto.
  - intros (r & o & H). exists (d, id, r, o). split; [done|]. apply list_elem_of_filter. split; [done|].
    by apply elem_of_map_to_list.
Qed.

Lemma map_filter_dec {K V} `{Countable K} (P : K * V -> Prop) `{forall x, Decision (P x)} (m : gmap K V) k :
  filter P m !! k = match m !! k with Some v => if decide (P (k, v)) then Some v else None | None => None end.
Proof.
  destruct (m !! k) as [v|] eqn:E.
  - destruct (decide (P (k, v))).
    + by apply map_lookup_filter_Some.
    + apply map_lookup_filter_None. right. intros v' Hv'. congruence.
  - apply map_lookup_filter_None. by left.
Qed.

Lemma filtered_keys_NoDup {A} (P : Z * A -> Prop) `{forall x, Decision (P x)} (m : gmap Z A) :
  NoDup (filter P (map_to_list m)).*1.
Proof.
  apply NoDup_fmap_2_strong; [|apply NoDup_filter, NoDup_map_to_list].
  intros [i x] [j y] Hx Hy E. cbn in E. subst.
  apply list_elem_of_filter in Hx as [_ Hx], Hy as [_ Hy]. apply elem_of_map_to_list in Hx, Hy. congruence.
Qed.

Lemma remove_relations_lookup doc f t k :
  document_correspondents (remove_relations doc f t) !! k =
    if bool_decide (k.1.1 = doc) && f k.1.2 then None else document_correspondents t !! k.
Proof.
  unfold remove_relations. cbn. rewrite map_filter_dec. destruct k as [[d c] r]. cbn.
  destruct (document_correspondents t !! (d, c, r)); [|by destruct (_ && _)].
  case_bool_decide; cbn; [destruct (f c) eqn:E|]; case_decide; try done; naive_solver congruence.
Qed.

Lemma drop_doc_tag_lookup doc tag t k :
  document_tags (drop_doc_tag doc tag t) !! k = if bool_decide (k = (doc, tag)) then None else document_tags t !! k.
Proof.
  unfold drop_doc_tag. destruct (document_tags t !! (doc, tag)) as [o|] eqn:E.
  - assert (document_tags ((if o then id else touch_tags doc 1) (with_doc_tags (delete (doc, tag)) t))
            = delete (doc, tag) (document_tags t)) as -> by (by destruct o).
    case_bool_decide; subst; [by rewrite lookup_delete_eq|by rewrite lookup_delete_ne].
  - case_bool_decide; by subst.
Qed.

(** Statements on documents' tags leave the rest alone. *)
Definition same_rest (t t' : tables) : Prop :=
  tags t' = tags t /\ correspondents t' = correspondents t /\ automations t' = automations t /\
  automation_triggers t' = automation_triggers t /\ automation_actions t' = automation_actions t /\ moves t' = moves t.
#[export] Instance same_rest_preorder : PreOrder same_rest.
Proof.
  split; [by intros t|]. intros t1 t2 t3 (A1 & A2 & A3 & A4 & A5 & A6) (B1 & B2 & B3 & B4 & B5 & B6).
  split_and!; congruence.
Qed.
Lemma drop_doc_tag_rest doc tag t :
  same_rest t (drop_doc_tag doc tag t) /\ document_correspondents (drop_doc_tag doc tag t) = document_correspondents t.
Proof. unfold drop_doc_tag. destruct (_ !! _) as [[]|]; done. Qed.

Lemma drop_tags_lookup l tag t k :
  document_tags (foldl (fun t doc => drop_doc_tag doc tag t) t l) !! k =
    if bool_decide (k.1 ∈ l /\ k.2 = tag) then None else document_tags t !! k.
Proof.
  revert t; induction l as [|d l IH]; intros t; cbn [foldl].
  - rewrite bool_decide_eq_false_2; [done|]. by intros [?%not_elem_of_nil _].
  - rewrite IH, drop_doc_tag_lookup. destruct k as [d' g]. cbn.
    repeat case_bool_decide; try done; set_solver.
Qed.
Lemma drop_tags_rest l tag t :
  same_rest t (foldl (fun t doc => drop_doc_tag doc tag t) t l) /\
  document_correspondents (foldl (fun t doc => drop_doc_tag doc tag t) t l) = document_correspondents t.
Proof.
  revert t; induction l as [|d l IH]; intros t; cbn [foldl]; [done|].
  destruct (IH (drop_doc_tag d tag t)) as [H1 H2], (drop_doc_tag_rest d tag t) as [H3 H4].
  split; [by etrans|congruence].
Qed.
Lemma give_tags_lookup l into t k :
  document_tags (foldl (fun t doc => give_tag into doc t) t l) !! k =
    if bool_decide (k.1 ∈ l /\ k.2 = into) then Some false else document_tags t !! k.
Proof.
  revert t; induction l as [|d l IH]; intros t; cbn [foldl].
  - rewrite bool_decide_eq_false_2; [done|]. by intros [?%not_elem_of_nil _].
  - rewrite IH. destruct k as [d' g]. cbn.
    destruct (decide ((d', g) = (d, into))) as [[= -> ->]|Hne].
    + rewrite lookup_insert_eq. repeat case_bool_decide; set_solver.
    + rewrite lookup_insert_ne by done. repeat case_bool_decide; try done; set_solver.
Qed.
Lemma give_tags_rest l into t :
  same_rest t (foldl (fun t doc => give_tag into doc t) t l) /\
  document_correspondents (foldl (fun t doc => give_tag into doc t) t l) = document_correspondents t.
Proof.
  revert t; induction l as [|d l IH]; intros t; cbn [foldl]; [done|].
  destruct (IH (give_tag into d t)) as [H1 H2]. split; [|by rewrite H2].
  etrans; [|exact H1]. done.
Qed.

Lemma delete_tag_row_spec id t :
  (forall k, document_tags (delete_tag_row id t) !! k = if bool_decide (k.2 = id) then None else document_tags t !! k) /\
  tags (delete_tag_row id t) = orphan id <$> delete id (tags t) /\
  correspondents (delete_tag_row id t) = correspondents t /\
  document_correspondents (delete_tag_row id t) = document_correspondents t /\
  automations (delete_tag_row id t) = automations t /\
  automation_triggers (delete_tag_row id t) = automation_triggers t /\
  automation_actions (delete_tag_row id t) = automation_actions t /\ moves (delete_tag_row id t) = moves t.
Proof.
  unfold delete_tag_row. cbn [correspondents with_tags tags document_tags automations automation_triggers
    automation_actions moves document_correspondents].
  destruct (drop_tags_rest (affectedDocs KindTag id t) id t) as [(H1 & H2 & H3 & H4 & H5 & H6) H7].
  rewrite H1. split_and!; try done. intros [d g]. rewrite drop_tags_lookup. cbn [fst snd].
  case_bool_decide as E1; case_bool_decide as E2; try done; [naive_solver|]. subst.
  destruct (document_tags t !! (d, id)) eqn:E; [|done]. exfalso. apply E1.
  split; [|done]. apply affected_tag. eauto.
Qed.

Lemma remove_all_relations l id t k :
  document_correspondents (foldl (fun t doc => remove_relations doc (fun c => c =? id) t) t l) !! k =
    if bool_decide (k.1.1 ∈ l /\ k.1.2 = id) then None else document_correspondents t !! k.
Proof.
  revert t; induction l as [|d l IH]; intros t; cbn [foldl].
  - rewrite bool_decide_eq_false_2; [done|]. by intros [?%not_elem_of_nil _].
  - rewrite IH, remove_relations_lookup. destruct k as [[d' c] r]. cbn [fst snd].
    destruct (Z.eqb_spec c id), (decide (d' = d)); subst;
      rewrite ?bool_decide_eq_true_2, ?(bool_decide_eq_false_2 (_ = _)) by done; cbn;
      repeat case_bool_decide; try done; set_solver.
Qed.
Lemma remove_all_rest l id t :
  same_rest t (foldl (fun t doc => remove_relations doc (fun c => c =? id) t) t l) /\
  document_tags (foldl (fun t doc => remove_relations doc (fun c => c =? id) t) t l) = document_tags t.
Proof.
  revert t; induction l as [|d l IH]; intros t; cbn [foldl]; [done|].
  destruct (IH (remove_relations d (fun c => c =? id) t)) as [H1 H2]. split; [|by rewrite H2].
  etrans; [|exact H1]. done.
Qed.
Lemma delete_corr_row_spec id t :
  (forall k, document_correspondents (delete_corr_row id t) !! k =
     if bool_decide (k.1.2 = id) then None else document_correspondents t !! k) /\
  correspondents (delete_corr_row id t) = delete id (correspondents t) /\
  tags (delete_corr_row id t) = tags t /\ document_tags (delete_corr_row id t) = document_tags t /\
  automations (delete_corr_row id t) = automations t /\
  automation_triggers (delete_corr_row id t) = automation_triggers t /\
  automation_actions (delete_corr_row id t) = automation_actions t /\ moves (delete_corr_row id t) = moves t.
Proof.
  unfold delete_corr_row. cbn [correspondents with_corrs tags document_tags automations automation_triggers
    automation_actions moves document_correspondents].
  destruct (remove_all_rest (affectedDocs KindCorrespondent id t) id t) as [(H1 & H2 & H3 & H4 & H5 & H6) H7].
  rewrite H2. split_and!; try done. intros [[d c] r]. rewrite remove_all_relations. cbn [fst snd].
  case_bool_decide as E1; case_bool_decide as E2; try done; [naive_solver|]. subst.
  destruct (document_correspondents t !! (d, id, r)) eqn:E; [|done]. exfalso. apply E1.
  split; [|done]. apply affected_corr. eauto.
Qed.

Section Facts.
Context (document : Z -> option (Z * bool)) (scan : list rel_key -> list rel_key).

Lemma Append_Ok doc corr role t t' :
  AppendCorrespondent document doc corr role t = Ok t' ->
  0 < doc /\ 0 < corr /\ valid_role role = true /\ same_system document t doc corr = true /\
  is_Some (document_correspondents t' !! (doc, corr, role)) /\
  (forall k, k <> (doc, corr, role) -> document_correspondents t' !! k = document_correspondents t !! k) /\
  (is_Some (document_correspondents t !! (doc, corr, role)) -> t' = t).
Proof.
  unfold AppendCorrespondent. intros H. guards_in H; bool_simpl; injection H as <-.
  - split_and!; try done; by rewrite Hc1.
  - split_and!; try done; cbn.
    + by rewrite lookup_insert_eq.
    + intros k Hk. by rewrite lookup_insert_ne.
Qed.

Lemma SetPrimary_order doc corr t t' :
  0 < corr -> SetPrimaryCorrespondent document doc corr t = Ok t' ->
  PrimaryCorrespondentID t' doc = Some corr /\
  in_order t' doc "sender" = corr :: filter (fun c => c <> corr) (in_order t doc "sender") /\
  (forall i c, in_order t' doc "sender" !! i = Some c ->
     document_correspondents t' !! (doc, c, "sender") = Some (Z.of_nat i)) /\
  (forall k, (k.1.1 <> doc \/ k.2 <> "sender") ->
     document_correspondents t' !! k = document_correspondents t !! k).
Proof.
  intros Hc H. unfold SetPrimaryCorrespondent in H.
  rewrite (proj2 (Z.leb_gt corr 0)) in H by lia.
  apply bind_Ok in H as (t1 & Ha & H). apply Append_Ok in Ha as (_ & _ & _ & _ & Hin & Hother & _).
  set (l := corr :: filter (fun c => c <> corr) (in_order t1 doc "sender")).
  assert (t' = place_all doc "sender" 0 l t1) as -> by (by injection H).
  assert (Hn : NoDup l).
  { constructor; [|apply NoDup_filter, in_order_NoDup]. rewrite list_elem_of_filter. by intros [? _]. }
  assert (Hl : forall c, c ∈ l <-> is_Some (document_correspondents t1 !! (doc, c, "sender"))).
  { intros c. unfold l. rewrite elem_of_cons, list_elem_of_filter, in_order_elem. split.
    - by intros [->|[_ ?]].
    - intros Hs. destruct (decide (c = corr)); auto. }
  pose proof (place_all_order doc "sender" l t1 Hn Hl) as Ho.
  assert (El : l = corr :: filter (fun c => c <> corr) (in_order t doc "sender")).
  { unfold l. f_equal. apply in_order_others. intros c' Hc'. apply Hother. congruence. }
  split_and!.
  - unfold PrimaryCorrespondentID. rewrite Ho. done.
  - by rewrite Ho.
  - intros i c Hi. rewrite Ho in Hi. pose proof (place_all_at doc "sender" 0 l t1 i c Hn Hi) as ->. f_equal.
  - intros [[d c] r] Hk. cbn in Hk. rewrite place_all_other by (intros c' _ [= -> -> ->]; naive_solver).
    apply Hother. intros [= -> -> ->]. naive_solver.
Qed.

(** Promoting a correspondent makes it the first sender; every other sender follows in
    its old order, positions are 0, 1, ... without gaps, and no other relation is touched. *)
Theorem SetPrimary_spec doc corr t t' :
  0 < corr -> SetPrimaryCorrespondent document doc corr t = Ok t' ->
  PrimaryCorrespondentID t' doc = Some corr /\
  in_order t' doc "sender" = corr :: filter (fun c => c <> corr) (in_order t doc "sender") /\
  (forall i c, in_order t' doc "sender" !! i = Some c ->
     document_correspondents t' !! (doc, c, "sender") = Some (Z.of_nat i)) /\
  (forall k, (k.1.1 <> doc \/ k.2 <> "sender") ->
     document_correspondents t' !! k = document_correspondents t !! k).
Proof. apply SetPrimary_order. Qed.

(** ** Merges *)

Lemma renumber_keys visit t :
  same_rest t (renumber visit t) /\ document_tags (renumber visit t) = document_tags t /\
  forall k, is_Some (document_correspondents (renumber visit t) !! k) <-> is_Some (document_correspondents t !! k).
Proof.
  revert t; induction visit as [|key visit IH]; intros t; cbn [renumber]; [done|].
  destruct (document_correspondents t !! key) as [p|] eqn:E; [|apply IH].
  set (t1 := touch_corr _ _ _). destruct (IH t1) as (H1 & H2 & H3). split_and!; [|by rewrite H2|].
  - etrans; [|exact H1]. done.
  - intros k. rewrite H3. cbn. destruct (decide (k = key)) as [Ek|]; [|by rewrite lookup_insert_ne].
    rewrite Ek, lookup_insert_eq. rewrite E. split; eauto.
Qed.

Lemma merge_rows_keys into rows t t' :
  merge_rows document into rows t = Ok t' ->
  same_rest t t' /\ document_tags t' = document_tags t /\
  (forall x, x ∈ rows -> same_system document t x.1.1.1 into = true) /\
  forall k, is_Some (document_correspondents t' !! k) <->
            is_Some (document_correspondents t !! k) \/ (k.1.2 = into /\ exists x, x ∈ rows /\ x.1.1.1 = k.1.1 /\ x.1.2 = k.2).
Proof.
  revert t; induction rows as [|[[[d c] r] p] rows IH]; intros t H; cbn [merge_rows] in H.
  { injection H as <-. split_and!; try done.
    - by intros x ?%not_elem_of_nil.
    - intros k. split; [auto|]. by intros [?|(_ & x & ?%not_elem_of_nil & _)]. }
  guards_in H. set (q := match _ with Some _ => _ | None => _ end) in H.
  apply IH in H as (H1 & H2 & H3 & H4). split_and!; [etrans; [|exact H1]; done|by rewrite H2| |].
  - intros x [->|Hx]%elem_of_cons; [done|]. by apply H3 in Hx.
  - intros k. rewrite H4. cbn. destruct (decide (k = (d, into, r))) as [->|Hk].
    + rewrite lookup_insert_eq. split; [|eauto]. intros _. right. split; [done|].
      exists (d, c, r, p). split; [apply list_elem_of_here|done].
    + rewrite lookup_insert_ne by done. split.
      * intros [?|(E & x & Hx & Ex)]; [by left|]. right. split; [done|]. exists x. split; [by apply list_elem_of_further|done].
      * intros [?|(E & x & Hx & E1 & E2)]; [by left|]. right. split; [done|].
        apply elem_of_cons in Hx as [->|Hx]; [|by exists x]. cbn in *.
        destruct k as [[d' c'] r']. cbn in *. subst. done.
Qed.

Lemma mergeCorrespondent_keys doc from into t t' :
  mergeCorrespondent document scan doc from into t = Ok t' -> from <> into ->
  same_rest t t' /\ document_tags t' = document_tags t /\
  (forall r, is_Some (document_correspondents t !! (doc, from, r)) -> same_system document t doc into = true) /\
  forall k, is_Some (document_correspondents t' !! k) <->
    ~ (k.1.1 = doc /\ k.1.2 = from) /\
    (is_Some (document_correspondents t !! k) \/
     (k.1.2 = into /\ k.1.1 = doc /\ is_Some (document_correspondents t !! (doc, from, k.2)))).
Proof.
  unfold mergeCorrespondent. intros H Hne. apply bind_Ok in H as (t1 & Hm & [= <-]).
  apply merge_rows_keys in Hm as (H1 & H2 & H3 & H4).
  set (t2 := remove_relations doc (fun c => c =? from) t1).
  destruct (renumber_keys (scan (doc_rows t2 doc)) t2) as (R1 & R2 & R3).
  assert (Hrow : forall r, is_Some (document_correspondents t !! (doc, from, r)) <->
            exists x, x ∈ rows_of_pair t doc from /\ x.1.1.1 = doc /\ x.1.2 = r).
  { intros r. split.
    - intros [p Hp]. exists (doc, from, r, p). split; [|done]. apply list_elem_of_filter. split; [done|].
      by apply elem_of_map_to_list.
    - intros ([[[d c] r'] p] & Hx & Ed & Er). apply list_elem_of_filter in Hx as [[_ Ec] Hx]. cbn in *. subst.
      apply elem_of_map_to_list in Hx. eauto. }
  split_and!.
  - etrans; [exact H1|]. etrans; [|exact R1]. done.
  - rewrite R2. cbn. exact H2.
  - intros r (x & Hx & Ed & _)%Hrow. specialize (H3 x Hx). by rewrite Ed in H3.
  - intros k. rewrite R3. unfold t2. rewrite remove_relations_lookup. destruct k as [[d c] r]. cbn [fst snd].
    destruct (decide (d = doc /\ c = from)) as [[-> ->]|Hk].
    + rewrite bool_decide_eq_true_2, Z.eqb_refl by done. cbn. split; [by intros []|by intros [[]]].
    + assert (bool_decide (d = doc) && (c =? from) = false) as ->.
      { apply andb_false_iff. destruct (decide (d = doc)); [|left; by apply bool_decide_eq_false].
        right. apply Z.eqb_neq. naive_solver. }
      rewrite H4. cbn [fst snd]. split.
      * intros [?|(-> & x & Hx & Ed & Er)]; [auto|]. split; [done|]. right.
        assert (d = doc) as -> by (apply list_elem_of_filter in Hx as [[Hd _] _]; congruence).
        split_and!; try done. apply Hrow. eauto.
      * intros [_ [?|(-> & -> & Hf)]]; [by left|]. right. split; [done|]. apply Hrow in Hf as (x & Hx & Ed & Er). eauto.
Qed.

Lemma merge_docs_keys l from into t t' :
  merge_docs document scan l from into t = Ok t' -> from <> into ->
  same_rest t t' /\ document_tags t' = document_tags t /\
  (forall d r, d ∈ l -> is_Some (document_correspondents t !! (d, from, r)) -> same_system document t d into = true) /\
  forall k, is_Some (document_correspondents t' !! k) <->
    ~ (k.1.1 ∈ l /\ k.1.2 = from) /\
    (is_Some (document_correspondents t !! k) \/
     (k.1.2 = into /\ k.1.1 ∈ l /\ is_Some (document_correspondents t !! (k.1.1, from, k.2)))).
Proof.
  intros H Hne; revert t H; induction l as [|d l IH]; intros t H; cbn [merge_docs] in H.
  { injection H as <-. split_and!; try done.
    - by intros d r ?%not_elem_of_nil.
    - intros k. split; [intros ?; split; [by intros [?%not_elem_of_nil _]|by left]|].
      intros [_ [?|(_ & ?%not_elem_of_nil & _)]]; done. }
  apply bind_Ok in H as (t1 & H1 & H). apply mergeCorrespondent_keys in H1 as (S1 & D1 & G1 & K1); [|done].
  apply IH in H as (S2 & D2 & G2 & K2). split_and!.
  - by etrans.
  - congruence.
  - intros d' r Hd Hr. destruct (decide (d' = d)) as [->|Hne']; [by eapply G1|].
    apply elem_of_cons in Hd as [->|Hd]; [done|].
    assert (same_system document t1 d' into = true) as Hs.
    { apply (G2 d' r Hd). apply K1. cbn. naive_solver. }
    unfold same_system in *. destruct S1 as (_ & Ec & _). by rewrite Ec in Hs.
  - intros [[d' c] r]. rewrite K2. cbn [fst snd]. rewrite !K1. cbn [fst snd]. rewrite !elem_of_cons.
    destruct (decide (d' = d)), (decide (c = from)), (decide (c = into)); subst; try done; naive_solver.
Qed.

Lemma enqueue_moves_rest l t t' :
  enqueue_moves document l t = Ok t' ->
  tags t' = tags t /\ correspondents t' = correspondents t /\ document_tags t' = document_tags t /\
  document_correspondents t' = document_correspondents t /\ automations t' = automations t /\
  automation_triggers t' = automation_triggers t /\ automation_actions t' = automation_actions t /\
  moves t' = moves t ++ omap (fun d => match document d with
                                       | Some (y, false) => Some (d, y) | _ => None end) l.
Proof.
  revert t; induction l as [|d l IH]; intros t H; cbn [enqueue_moves] in H.
  { injection H as <-. by rewrite app_nil_r. }
  apply bind_Ok in H as (t1 & Hd & H). apply IH in H as (H1 & H2 & H3 & H4 & H5 & H6 & H7 & H8).
  unfold enqueue_move in Hd. destruct (document d) as [[y b]|] eqn:E; [|done].
  injection Hd as <-. split_and!; try (by destruct b).
  rewrite H8. cbn. rewrite E. destruct b; cbn; [done|]. by rewrite <- app_assoc.
Qed.

(** The rewritten action. *)
Definition rewritten (kind : Kind) (fromID intoID : Z) (r : action_row) : action_row :=
  match aa_params r with
  | Some ps =>
      match replace_params kind ps fromID intoID with
      | Some ps' => MkAction (aa_automation r) (aa_kind r) (Some (stored <$> ps'))
      | None => r
      end
  | None => r
  end.
Lemma rewrite_actions_spec kind from into rows t t' :
  rewrite_actions kind from into rows t = Ok t' ->
  NoDup rows.*1 -> (forall id r, (id, r) ∈ rows -> automation_actions t !! id = Some r) ->
  tags t' = tags t /\ correspondents t' = correspondents t /\ document_tags t' = document_tags t /\
  document_correspondents t' = document_correspondents t /\ automations t' = automations t /\
  automation_triggers t' = automation_triggers t /\ moves t' = moves t /\
  (forall id r, (id, r) ∈ rows -> is_Some (aa_params r) /\ automation_actions t' !! id = Some (rewritten kind from into r)) /\
  (forall id, id ∉ rows.*1 -> automation_actions t' !! id = automation_actions t !! id).
Proof.
  revert t; induction rows as [|[id r] rows IH]; intros t H Hn Hrows; cbn [rewrite_actions] in H.
  { injection H as <-. split_and!; try done. by intros ? ? ?%not_elem_of_nil. }
  destruct (aa_params r) as [ps|] eqn:Ep; [|done]. apply NoDup_cons in Hn as [Hid Hn].
  set (t1 := match replace_params kind ps from into with Some _ => _ | None => _ end) in H.
  assert (Ht1 : tags t1 = tags t /\ correspondents t1 = correspondents t /\ document_tags t1 = document_tags t /\
    document_correspondents t1 = document_correspondents t /\ automations t1 = automations t /\
    automation_triggers t1 = automation_triggers t /\ moves t1 = moves t /\
    automation_actions t1 !! id = Some (rewritten kind from into r) /\
    forall id', id' <> id -> automation_actions t1 !! id' = automation_actions t !! id').
  { unfold t1, rewritten. rewrite Ep. destruct (replace_params _ _ _ _); cbn; split_and!; try done.
    - by rewrite lookup_insert_eq.
    - intros. by rewrite lookup_insert_ne.
    - apply Hrows, list_elem_of_here. }
  destruct Ht1 as (A1 & A2 & A3 & A4 & A5 & A6 & A7 & A8 & A9).
  apply IH in H as (B1 & B2 & B3 & B4 & B5 & B6 & B7 & B8 & B9); [|done|].
  - split_and!; try congruence.
    + intros id' r' [[= -> ->]|Hin]%elem_of_cons; [|by apply B8]. split; [by rewrite Ep|]. by rewrite B9.
    + cbn. intros id' [Hid' Hnot]%not_elem_of_cons. rewrite B9 by done. by apply A9.
  - intros id' r' Hin. rewrite A9; [by apply Hrows, list_elem_of_further|].
    intros ->. apply Hid. apply list_elem_of_fmap. by exists (id, r').
Qed.

(** What an action refers to, by the key its kind uses. *)
Definition mentions (kind : Kind) (id : Z) (ps : gmap string param) : bool :=
  let in_list key := match ps !! key with Some (PList l) => existsb (is_id id) l | _ => false end in
  match kind with
  | KindTag => in_list "tag_ids"
  | KindCorrespondent =>
      match ps !! "correspondent_id" with Some v => is_id id v | None => in_list "correspondent_ids" end
  end.
Definition filters_on (kind : Kind) (r : trigger_row) : option Z :=
  match kind with KindTag => filter_tag_id r | KindCorrespondent => filter_corr_id r end.
(** An id that a float64 holds exactly, as every id up to 2^53. *)
Definition exact_id (id : Z) : Prop := NumericID (PNumber (float_of_int id)) = Some id.
(** Parameters as they are read: decoded numbers only. *)
Definition decoded_actions (t : tables) : Prop :=
  forall id r ps, automation_actions t !! id = Some r -> aa_params r = Some ps -> stored <$> ps = ps.

Lemma stored_ids from into l :
  exact_id into -> from <> into -> stored <$> l = l ->
  existsb (is_id from) (stored <$> ((fun v => if is_id from v then PInt into else v) <$> l)) = false.
Proof.
  intros Hx Hne. induction l as [|v l IH]; [done|]. cbn. intros [= Hv Hl]. rewrite IH by done.
  rewrite orb_false_r. destruct (is_id from v) eqn:E; [|by rewrite Hv].
  unfold is_id. cbn [stored]. rewrite Hx. apply bool_decide_eq_false. congruence.
Qed.

Lemma rewritten_clean kind from into r ps :
  exact_id into -> from <> into -> aa_params r = Some ps -> stored <$> ps = ps ->
  exists ps', aa_params (rewritten kind from into r) = Some ps' /\ mentions kind from ps' = false.
Proof.
  intros Hx Hne Hp Hd.
  assert (Hkey : forall key v, ps !! key = Some v -> stored v = v).
  { intros key v Hv. pose proof (f_equal (.!! key) Hd) as E. rewrite lookup_fmap, Hv in E. cbn in E. congruence. }
  assert (Hlist : forall key, match replaceIDList ps key from into with
     | Some ps' => match (stored <$> ps') !! key with Some (PList l) => existsb (is_id from) l | _ => false end = false
                   /\ forall k, k <> key -> (stored <$> ps') !! k = ps !! k
     | None => match ps !! key with Some (PList l) => existsb (is_id from) l | _ => false end = false end).
  { intros key. unfold replaceIDList. destruct (ps !! key) as [[| |l|]|] eqn:E; try done.
    destruct (existsb (is_id from) l) eqn:El; [|done]. split.
    - rewrite lookup_fmap, lookup_insert_eq. cbn [stored fmap option_fmap option_map].
      apply stored_ids; try done. specialize (Hkey _ _ E). cbn in Hkey. congruence.
    - intros k Hk. rewrite lookup_fmap, lookup_insert_ne by done. destruct (ps !! k) eqn:Ek; [|done].
      cbn. f_equal. by eapply Hkey. }
  unfold rewritten. rewrite Hp. destruct kind; cbn [replace_params].
  - specialize (Hlist "tag_ids"). destruct (replaceIDList _ _ _ _) as [ps'|]; eexists; (split; [first [done|exact Hp]|]); cbn.
    + exact (proj1 Hlist).
    + exact Hlist.
  - unfold replaceID. destruct (ps !! "correspondent_id") as [v|] eqn:Ev.
    + destruct (is_id from v) eqn:Ei.
      * eexists. split; [done|]. cbn. rewrite lookup_fmap, lookup_insert_eq. cbn.
        unfold is_id. rewrite Hx. apply bool_decide_eq_false. congruence.
      * specialize (Hlist "correspondent_ids").
        destruct (replaceIDList _ _ _ _) as [ps'|]; eexists; (split; [first [done|exact Hp]|]); cbn.
        -- destruct Hlist as [_ ->]; [|done]. by rewrite Ev.
        -- by rewrite Ev.
    + specialize (Hlist "correspondent_ids").
      destruct (replaceIDList _ _ _ _) as [ps'|]; eexists; (split; [first [done|exact Hp]|]); cbn.
      * destruct Hlist as [Hl Ho]. rewrite Ho, Ev by done. exact Hl.
      * rewrite Ev. exact Hlist.
Qed.

Lemma rewrite_refs_spec systemID kind from into t t' :
  rewriteAutomationReferences systemID kind from into t = Ok t' ->
  tags t' = tags t /\ correspondents t' = correspondents t /\ document_tags t' = document_tags t /\
  document_correspondents t' = document_correspondents t /\ automations t' = automations t /\
  automation_triggers t' = retarget kind systemID from into t <$> automation_triggers t /\ moves t' = moves t /\
  (forall id r, automation_actions t' !! id = Some r ->
     exists r0, automation_actions t !! id = Some r0 /\
       if in_system systemID t (aa_automation r0) then is_Some (aa_params r0) /\ r = rewritten kind from into r0 else r = r0).
Proof.
  unfold rewriteAutomationReferences. intros H.
  set (rows := filter _ _) in H.
  apply rewrite_actions_spec in H as (A1 & A2 & A3 & A4 & A5 & A6 & A7 & A8 & A9).
  - split_and!; try done. intros id r Hr. cbn in A9.
    destruct (decide (id ∈ rows.*1)) as [Hin|Hout].
    + apply list_elem_of_fmap in Hin as ([id' r0] & -> & Hin). cbn. destruct (A8 _ _ Hin) as [Hs Hl].
      apply list_elem_of_filter in Hin as [Hsys Hin]. apply elem_of_map_to_list in Hin. exists r0. split; [done|].
      cbn in Hsys. rewrite Hsys. split; [done|]. cbn in Hr. congruence.
    + rewrite A9 in Hr by done. exists r. split; [done|]. destruct (in_system _ _ _) eqn:E; [|done].
      destruct Hout. apply list_elem_of_fmap. exists (id, r). split; [done|]. apply list_elem_of_filter.
      split; [done|]. by apply elem_of_map_to_list.
  - unfold rows. apply filtered_keys_NoDup.
  - intros id r Hin. apply list_elem_of_filter in Hin as [_ Hin]. by apply elem_of_map_to_list in Hin.
Qed.

End Facts.
