(* ===== verification/TaxonomyInvariant.v ===== *)
(** Named rows, the invariant of the taxonomy tables over every operation, and the tree of
    tags with the ways to break it. *)
From S2P Require Import Prelude GoStd Utf8 Sqlite Slug CustomField Taxonomy TaxonomyFacts.

(** * Rows found by name *)

Lemma first_where_Some {A} (f : A -> bool) (m : gmap Z A) id :
  first_where f m = Some id -> exists r, m !! id = Some r /\ f r = true.
Proof.
  unfold first_where. intros H.
  assert (Hin : id ∈ merge_sort Z.le (filter (fun x => f x.2 = true) (map_to_list m)).*1).
  { destruct (merge_sort _ _); [done|]. injection H as ->. apply list_elem_of_here. }
  rewrite merge_sort_Permutation in Hin. apply list_elem_of_fmap in Hin as ([id' r] & -> & Hin).
  apply list_elem_of_filter in Hin as [Hf Hin]. apply elem_of_map_to_list in Hin. eauto.
Qed.
Lemma first_where_None {A} (f : A -> bool) (m : gmap Z A) id r :
  first_where f m = None -> m !! id = Some r -> f r = false.
Proof.
  unfold first_where. intros H Hr. destruct (f r) eqn:E; [|done]. exfalso.
  assert (Hin : id ∈ merge_sort Z.le (filter (fun x => f x.2 = true) (map_to_list m)).*1).
  { rewrite merge_sort_Permutation. apply list_elem_of_fmap. exists (id, r). split; [done|].
    apply list_elem_of_filter. split; [done|]. by apply elem_of_map_to_list. }
  destruct (merge_sort _ _); [by apply not_elem_of_nil in Hin|done].
Qed.

(** Names and slugs are unique in a system. *)
Definition unique_rows (m : gmap Z named) : Prop :=
  forall id1 id2 r1 r2, m !! id1 = Some r1 -> m !! id2 = Some r2 -> n_system r1 = n_system r2 ->
    n_name r1 = n_name r2 \/ n_slug r1 = n_slug r2 -> id1 = id2.

Lemma clashes_false m except systemID name slug id r :
  clashes m except systemID name slug = false -> m !! id = Some r -> except <> Some id -> n_system r = systemID ->
  n_name r <> name /\ n_slug r <> slug.
Proof.
  unfold clashes. intros H Hr Hne Hs. pose proof (exists_row_false _ _ _ _ H Hr) as E. cbn in E.
  rewrite bool_decide_eq_false_2, (proj2 (Z.eqb_eq _ _) Hs) in E by done. cbn in E. by bool_simpl.
Qed.
Lemma clashes_true m except systemID name slug :
  clashes m except systemID name slug = true ->
  exists id r, m !! id = Some r /\ except <> Some id /\ n_system r = systemID /\ (n_name r = name \/ n_slug r = slug).
Proof.
  unfold clashes. intros (id & r & Hr & H)%exists_row_spec. exists id, r. bool_cases; naive_solver.
Qed.

Lemma unique_insert m id r except :
  unique_rows m -> clashes m except (n_system r) (n_name r) (n_slug r) = false ->
  (forall i, except = Some i -> i = id) -> unique_rows (<[id := r]> m).
Proof.
  intros Hm Hc He id1 id2 r1 r2 H1 H2 Hs Hor.
  apply lookup_insert_Some in H1 as [[<- <-]|[N1 H1]]; apply lookup_insert_Some in H2 as [[<- <-]|[N2 H2]]; [done| | |].
  - destruct (clashes_false _ _ _ _ _ _ _ Hc H2) as [? ?]; [by intros ->%He|done|]. naive_solver.
  - destruct (clashes_false _ _ _ _ _ _ _ Hc H1) as [? ?]; [by intros ->%He|done|]. naive_solver.
  - by eapply Hm.
Qed.
(** Rows that keep their system, name and slug. *)
Lemma unique_same m m' :
  unique_rows m ->
  (forall id r', m' !! id = Some r' -> exists r, m !! id = Some r /\ n_system r = n_system r' /\ n_name r = n_name r' /\ n_slug r = n_slug r') ->
  unique_rows m'.
Proof.
  intros Hm H id1 id2 r1 r2 H1 H2 Hs Hor. destruct (H _ _ H1) as (a & A1 & A2 & A3 & A4), (H _ _ H2) as (b & B1 & B2 & B3 & B4).
  eapply Hm; [exact A1|exact B1|congruence|]. destruct Hor; [left|right]; congruence.
Qed.

Section Rows.
Context (U : unicode_tables) (document : Z -> option (Z * bool)) (system_exists : Z -> bool)
  (scan : list rel_key -> list rel_key).

Lemma find_named_Some m systemID name slug id :
  find_named m systemID name slug = Some id ->
  exists r, m !! id = Some r /\ n_system r = systemID /\
    (n_name r = name \/ (n_slug r = slug /\ forall id' r', m !! id' = Some r' -> n_system r' = systemID -> n_name r' <> name)).
Proof.
  unfold find_named. destruct (first_where _ m) as [i|] eqn:E.
  - intros [= ->]. apply first_where_Some in E as (r & Hr & H). bool_simpl. exists r. auto.
  - intros (r & Hr & H)%first_where_Some. bool_simpl. exists r. split_and!; try done. right. split; [done|].
    intros id' r' Hr' Hs Hn. pose proof (first_where_None _ _ _ _ E Hr') as F. cbn in F.
    rewrite (proj2 (Z.eqb_eq _ _) Hs), bool_decide_eq_true_2 in F by done. done.
Qed.
Lemma find_named_exact m systemID name slug id r :
  unique_rows m -> m !! id = Some r -> n_system r = systemID -> n_name r = name -> find_named m systemID name slug = Some id.
Proof.
  intros Hm Hr Hs Hn. unfold find_named. destruct (first_where _ m) as [i|] eqn:E.
  - apply first_where_Some in E as (r' & Hr' & H). bool_simpl. f_equal. eapply Hm; [exact Hr'|exact Hr|congruence|].
    left. congruence.
  - pose proof (first_where_None _ _ _ _ E Hr) as F. cbn in F.
    by rewrite (proj2 (Z.eqb_eq _ _) Hs), bool_decide_eq_true_2 in F by done.
Qed.
Lemma find_named_slug m systemID name slug id r :
  unique_rows m -> m !! id = Some r -> n_system r = systemID -> n_slug r = slug ->
  (forall id' r', m !! id' = Some r' -> n_system r' = systemID -> n_name r' <> name) ->
  find_named m systemID name slug = Some id.
Proof.
  intros Hm Hr Hs Hn Hno. unfold find_named. destruct (first_where _ m) as [i|] eqn:E.
  - apply first_where_Some in E as (r' & Hr' & H). bool_simpl. by destruct (Hno _ _ Hr').
  - destruct (first_where _ m) as [i|] eqn:E' in |- *.
    + apply first_where_Some in E' as (r' & Hr' & H). bool_simpl. f_equal. eapply Hm; [exact Hr'|exact Hr|congruence|].
      right. congruence.
    + pose proof (first_where_None _ _ _ _ E' Hr) as F. cbn in F.
      by rewrite (proj2 (Z.eqb_eq _ _) Hs), bool_decide_eq_true_2 in F by done.
Qed.

Lemma rows_with table f t : rows_of table (with_rows table f t) = f (rows_of table t).
Proof. by destruct table. Qed.

Lemma Upsert_Ok systemID table name now t id t' :
  UpsertByName U system_exists systemID table name now t = Ok (id, t') ->
  exists m, t' = with_rows table (fun _ => alter (stamp now) id m) t /\
    ((m = rows_of table t /\ find_named m systemID (TrimSpace name) (Make U (TrimSpace name)) = Some id) \/
     (clashes (rows_of table t) None systemID (TrimSpace name) (Make U (TrimSpace name)) = false /\
      system_exists systemID = true /\ id = next_rowid (rows_of table t) /\
      m = <[id := MkNamed systemID (TrimSpace name) (Make U (TrimSpace name)) None now now]> (rows_of table t))).
Proof.
  unfold UpsertByName. set (n := TrimSpace name). set (sl := Make U n). intros H. guards_in H.
  apply bind_Ok in H as (t1 & H1 & H). destruct (find_named _ _ _ _) as [i|] eqn:E; [|done].
  injection H as -> <-. destruct (clashes _ _ _ _ _) eqn:Ec.
  - injection H1 as <-. exists (rows_of table t). split; [by destruct table|]. by left.
  - guards_in H1. injection H1 as <-. rewrite rows_with in E.
    exists (<[next_rowid (rows_of table t) := MkNamed systemID n sl None now now]> (rows_of table t)).
    assert (id = next_rowid (rows_of table t)) as ->.
    { apply find_named_Some in E as (r & Hr & Hs & Hor). apply lookup_insert_Some in Hr as [[<- _]|[Hne Hr]]; [done|].
      destruct (clashes_false _ _ _ _ _ _ _ Ec Hr) as [Hn Hsl]; [done|done|]. destruct Hor as [?|[? _]]; done. }
    split; [by destruct table|]. right. by split_and!.
Qed.

(** Upserting a name returns the row of that exact name, else the row of its slug, else
    one new row; no other row changes, and doing it again returns the same row. *)
Theorem UpsertByName_spec systemID table name now t id t' :
  unique_rows (rows_of table t) -> UpsertByName U system_exists systemID table name now t = Ok (id, t') ->
  exists r, rows_of table t' !! id = Some r /\ n_system r = systemID /\
    (n_name r = TrimSpace name \/ n_slug r = Make U (TrimSpace name)) /\
    match rows_of table t !! id with
    | Some r0 => r = stamp now r0
    | None => r = MkNamed systemID (TrimSpace name) (Make U (TrimSpace name)) None now now
    end /\
    (forall id', id' <> id -> rows_of table t' !! id' = rows_of table t !! id') /\ unique_rows (rows_of table t') /\
    forall now', exists t'', UpsertByName U system_exists systemID table name now' t' = Ok (id, t'').
Proof.
  intros Hu H. assert (Hne : TrimSpace name <> "").
  { unfold UpsertByName in H. guards_in H. by bool_simpl. }
  apply Upsert_Ok in H as (m & -> & Hm). rewrite rows_with.
  assert (Hm' : unique_rows m /\ find_named m systemID (TrimSpace name) (Make U (TrimSpace name)) = Some id /\
            forall id', id' <> id -> m !! id' = rows_of table t !! id').
  { destruct Hm as [[-> Hf]|(Hc & _ & Hid & ->)]; [done|].
    assert (Hu' : unique_rows (<[id := MkNamed systemID (TrimSpace name) (Make U (TrimSpace name)) None now now]> (rows_of table t))).
    { by eapply unique_insert. }
    split_and!; [done| |intros; by rewrite lookup_insert_ne].
    eapply find_named_exact; [done|apply lookup_insert_eq|done|done]. }
  destruct Hm' as (Hum & Hf & Hother).
  destruct (find_named_Some _ _ _ _ _ Hf) as (r & Hr & Hs & Hor).
  assert (Hu2 : unique_rows (alter (stamp now) id m)).
  { eapply unique_same; [exact Hum|]. intros i r'. rewrite lookup_alter_Some. intros [(-> & r1 & H1 & ->)|[_ H1]]; eauto. }
  exists (stamp now r). rewrite lookup_alter_eq, Hr. split_and!; try done.
  - destruct Hor as [?|[? _]]; auto.
  - destruct Hm as [[-> Hf']|(Hc & _ & -> & ->)]; [by rewrite Hr|].
    rewrite next_rowid_None. rewrite lookup_insert_eq in Hr. by injection Hr as <-.
  - intros id' Hid'. rewrite lookup_alter_ne by done. by apply Hother.
  - intros now'. unfold UpsertByName. rewrite bool_decide_eq_false_2 by done. rewrite rows_with.
    set (m2 := alter (stamp now) id m).
    assert (Hf2 : find_named m2 systemID (TrimSpace name) (Make U (TrimSpace name)) = Some id).
    { assert (Hr2 : m2 !! id = Some (stamp now r)) by (unfold m2; by rewrite lookup_alter_eq, Hr).
      destruct Hor as [Hn|[Hsl Hno]]; [by eapply find_named_exact|].
      eapply find_named_slug; [done|exact Hr2|done|done|]. intros i r' Hi. unfold m2 in Hi. apply lookup_alter_Some in Hi as [(-> & r1 & H1 & ->)|[_ H1]]; cbn; eauto. }
    assert (clashes m2 None systemID (TrimSpace name) (Make U (TrimSpace name)) = true) as ->.
    { unfold clashes. apply exists_row_spec. exists id, (stamp now r). unfold m2. rewrite lookup_alter_eq, Hr. split; [done|].
      apply andb_true_iff. split; [apply andb_true_iff; split; [done|by apply Z.eqb_eq]|].
      apply orb_true_iff. destruct Hor as [Hn|[Hsl _]]; [left|right]; by apply bool_decide_eq_true_2. }
    cbn [mbind result_bind]. rewrite rows_with. fold m2. rewrite Hf2. eauto.
Qed.

(** * The invariant *)

Definition rel_ok (corrs : gmap Z named) (k : rel_key) : Prop :=
  valid_role k.2 = true /\ exists y b x, document k.1.1 = Some (y, b) /\ corrs !! k.1.2 = Some x /\ n_system x = y.
Definition tag_ok (tgs : gmap Z named) (k : Z * Z) : Prop :=
  exists y b x, document k.1 = Some (y, b) /\ tgs !! k.2 = Some x /\ n_system x = y.
Definition parents_ok (m : gmap Z named) : Prop :=
  forall id r p, m !! id = Some r -> n_parent r = Some p -> exists rp, m !! p = Some rp /\ n_system rp = n_system r.

(** Names and slugs are unique in each system; every relation has a valid role and joins a
    document with a row of its own system; so does every tagging; a tag's parent exists in
    the tag's system. *)
Record tax_wf (t : tables) : Prop := {
  wf_tags : unique_rows (tags t);
  wf_corrs : unique_rows (correspondents t);
  wf_rels : forall k, is_Some (document_correspondents t !! k) -> rel_ok (correspondents t) k;
  wf_dts : forall k, is_Some (document_tags t !! k) -> tag_ok (tags t) k;
  wf_parents : parents_ok (tags t);
}.

(** Relations and taggings change within what the two tables allow. *)
Lemma wf_joins t t' :
  tax_wf t -> tags t' = tags t -> correspondents t' = correspondents t ->
  (forall k, is_Some (document_correspondents t' !! k) -> is_Some (document_correspondents t !! k) \/ rel_ok (correspondents t) k) ->
  (forall k, is_Some (document_tags t' !! k) -> is_Some (document_tags t !! k) \/ tag_ok (tags t) k) -> tax_wf t'.
Proof using.
  intros [W1 W2 W3 W4 W5] Et Ec Hr Hd. split; rewrite ?Et, ?Ec; try done.
  - intros k [?|?]%Hr; [by apply W3|done].
  - intros k [?|?]%Hd; [by apply W4|done].
Qed.
Lemma wf_rel_op t t' :
  tax_wf t -> tags t' = tags t -> correspondents t' = correspondents t -> document_tags t' = document_tags t ->
  (forall k, is_Some (document_correspondents t' !! k) -> is_Some (document_correspondents t !! k) \/ rel_ok (correspondents t) k) ->
  tax_wf t'.
Proof using. intros W Et Ec Ed H. eapply wf_joins; try done. rewrite Ed. auto. Qed.

Lemma rel_ok_guard t doc corr role :
  valid_role role = true -> same_system document t doc corr = true -> is_Some (document doc) -> rel_ok (correspondents t) (doc, corr, role).
Proof using.
  intros Hr Hs [[y b] Hd]. split; [done|]. unfold same_system in Hs. bool_simpl. rewrite Hd in Hs. cbn in Hs.
  destruct (correspondents t !! corr) as [x|] eqn:E; [|done]. injection Hs as ->. cbn. eauto 10.
Qed.

Lemma Append_keys doc corr role t t' :
  AppendCorrespondent document doc corr role t = Ok t' ->
  same_rest t t' /\ document_tags t' = document_tags t /\
  (forall k, is_Some (document_correspondents t' !! k) -> is_Some (document_correspondents t !! k) \/ rel_ok (correspondents t) k).
Proof using.
  unfold AppendCorrespondent. intros H. guards_in H; bool_simpl.
  - injection H as <-. split_and!; try done. auto.
  - injection H as <-. split_and!; try done. intros k. cbn. rewrite lookup_insert_is_Some.
    intros [<-|[_ ?]]; [right|by left]. by apply rel_ok_guard.
Qed.

Lemma place_all_rest doc role from l t :
  same_rest t (place_all doc role from l t) /\ document_tags (place_all doc role from l t) = document_tags t.
Proof using.
  revert from t; induction l as [|c l IH]; intros from t; cbn [place_all]; [done|].
  destruct (IH (from + 1) (place doc role from c t)) as [H1 H2]. unfold place in *. case_bool_decide; [done|].
  split; [etrans; [|exact H1]; done|by rewrite H2].
Qed.

Lemma SetPrimary_wf doc corr t t' : SetPrimaryCorrespondent document doc corr t = Ok t' -> tax_wf t -> tax_wf t'.
Proof using.
  unfold SetPrimaryCorrespondent. destruct (corr <=? 0).
  - intros [= <-] W. eapply wf_rel_op; try done. intros k. unfold ClearPrimaryCorrespondents. cbn.
    rewrite map_filter_dec. destruct (document_correspondents t !! k); [by left; eexists|by intros []].
  - intros H W. apply bind_Ok in H as (t1 & Ha & H). injection H as <-.
    set (l := corr :: filter (fun c => c <> corr) (in_order t1 doc "sender")).
    destruct (place_all_rest doc "sender" 0 l t1) as [(P1 & P2 & _) P3].
    pose proof (Append_Ok _ _ _ _ _ _ Ha) as (_ & _ & _ & _ & Hc & _).
    apply Append_keys in Ha as ((A1 & A2 & _) & A3 & A4).
    assert (Hl : forall c, c ∈ l -> is_Some (document_correspondents t1 !! (doc, c, "sender"))).
    { intros c [->|Hin]%elem_of_cons; [done|]. apply list_elem_of_filter in Hin as [_ Hin]. by apply in_order_elem. }
    change (place_all doc "sender" (0 + 1) (filter (fun c => c <> corr) (in_order t1 doc "sender")) (place doc "sender" 0 corr t1))
      with (place_all doc "sender" 0 l t1).
    eapply wf_rel_op; [exact W|congruence|congruence|congruence|].
    intros [[d c] r] Hk. apply A4.
    destruct (decide (d = doc /\ r = "sender" /\ c ∈ l)) as [(-> & -> & Hin)|Hno]; [by apply Hl|].
    rewrite place_all_other in Hk; [done|]. intros c' Hin [= -> -> ->]. by apply Hno.
Qed.

Lemma remove_relations_wf doc f t : tax_wf t -> tax_wf (remove_relations doc f t).
Proof using.
  intros W. eapply wf_rel_op; try done. intros k. rewrite remove_relations_lookup. destruct (_ && _); [by intros []|by left].
Qed.
Lemma RemoveRole_wf doc corr role t b t' : RemoveCorrespondentRole doc corr role t = Ok (b, t') -> tax_wf t -> tax_wf t'.
Proof using.
  unfold RemoveCorrespondentRole. intros H W. guards_in H; injection H as _ <-; [|done].
  eapply wf_rel_op; try done. intros k. cbn. destruct (decide (k = (doc, corr, role))) as [->|].
  - rewrite lookup_delete_eq. by intros [].
  - rewrite lookup_delete_ne by done. by left.
Qed.
Lemma Remove_wf doc ids t t' : RemoveCorrespondents doc ids t = Ok t' -> tax_wf t -> tax_wf t'.
Proof using.
  unfold RemoveCorrespondents. intros H W. guards_in H; injection H as <-; by apply remove_relations_wf.
Qed.

Lemma copy_rows_wf to rows t t' :
  copy_rows document to rows t = Ok t' -> tax_wf t -> (forall x, x ∈ rows -> valid_role x.1.2 = true) -> tax_wf t'.
Proof using.
  revert t; induction rows as [|[[[d c] r] p] rows IH]; intros t H W Hv; cbn [copy_rows] in H; [by injection H as <-|].
  guards_in H. bool_simpl. apply IH in H; [done| |by intros; apply Hv, list_elem_of_further].
  eapply wf_rel_op; try done. intros k. cbn. rewrite lookup_insert_is_Some. intros [<-|[_ ?]]; [right|by left].
  apply rel_ok_guard; [|done|done]. exact (Hv _ (list_elem_of_here _ _)).
Qed.
Lemma Copy_wf a b t t' : CopyCorrespondents document a b t = Ok t' -> tax_wf t -> tax_wf t'.
Proof using.
  intros H W. eapply copy_rows_wf; [exact H|done|]. intros [k p] Hx. apply list_elem_of_filter in Hx as [_ Hx].
  apply elem_of_map_to_list in Hx. destruct (wf_rels _ W k) as [Hr _]; [eauto|done].
Qed.

Lemma merge_docs_wf l from into t t' :
  merge_docs document scan l from into t = Ok t' -> from <> into -> tax_wf t -> tax_wf t'.
Proof using.
  intros H Hne W. apply merge_docs_keys in H as ((A1 & A2 & _) & A3 & G & K); [|done].
  eapply wf_rel_op; try done. intros [[d c] r] Hk.
  destruct (proj1 (K _) Hk) as [_ [Hold|(Ec & Hd & Hf)]]; [by left|]. right. cbn in Ec, Hd, Hf. subst c.
  destruct (wf_rels _ W _ Hf) as [Hr (y & b & x & Hdoc & _)]. apply rel_ok_guard; [done|by eapply G|by eexists].
Qed.
Lemma merge_tags_wf l from into t :
  tax_wf t -> (forall d, d ∈ l -> is_Some (document_tags t !! (d, from))) ->
  (n_system <$> tags t !! from = n_system <$> tags t !! into) -> tax_wf (merge_tags l from into t).
Proof using.
  intros W Hl Hs. unfold merge_tags.
  destruct (give_tags_rest l into t) as [B B'].
  destruct (drop_tags_rest l from (foldl (fun t doc => give_tag into doc t) t l)) as [C C'].
  assert (same_rest t (foldl (fun t doc => drop_doc_tag doc from t) (foldl (fun t doc => give_tag into doc t) t l) l)) as (E1 & E2 & _)
    by (etrans; [exact B|exact C]).
  eapply wf_joins; [exact W|done|done|rewrite C', B'; auto|].
  intros [d g]. rewrite drop_tags_lookup. case_bool_decide; [by intros []|]. rewrite give_tags_lookup. cbn [fst snd].
  case_bool_decide as E; [|by left]. intros _. destruct E as [Hd ->]. right.
  destruct (wf_dts _ W _ (Hl _ Hd)) as (y & b & x & Hdoc & Hx & Hy). cbn in *. rewrite Hx in Hs. cbn in Hs.
  destruct (tags t !! into) as [x'|] eqn:E; [|done]. injection Hs as Hs. exists y, b, x'. cbn. split_and!; [done|done|congruence].
Qed.

(** Same four tables. *)
Lemma wf_fields t t' :
  tags t' = tags t -> correspondents t' = correspondents t -> document_tags t' = document_tags t ->
  document_correspondents t' = document_correspondents t -> tax_wf t -> tax_wf t'.
Proof using. intros E1 E2 E3 E4 W. eapply wf_rel_op; try done. rewrite E4. auto. Qed.

Lemma delete_tag_wf id t : tax_wf t -> tax_wf (delete_tag_row id t).
Proof using.
  intros [W1 W2 W3 W4 W5]. destruct (delete_tag_row_spec id t) as (G1 & G2 & G3 & G4 & _).
  assert (Hrow : forall i r', (orphan id <$> delete id (tags t)) !! i = Some r' ->
            i <> id /\ exists r, tags t !! i = Some r /\ r' = orphan id r).
  { intros i r'. rewrite lookup_fmap. destruct (decide (i = id)) as [->|]; [by rewrite lookup_delete_eq|].
    rewrite lookup_delete_ne by done. destruct (tags t !! i) as [r|]; [|done]. intros [= <-]. eauto. }
  assert (Ho : forall r, n_system (orphan id r) = n_system r /\ n_name (orphan id r) = n_name r /\ n_slug (orphan id r) = n_slug r).
  { intros r. unfold orphan. by case_bool_decide. }
  split; rewrite ?G2, ?G3, ?G4; try done.
  - eapply unique_same; [exact W1|]. intros i r' (_ & r & Hr & ->)%Hrow. destruct (Ho r) as (? & ? & ?). eauto 10.
  - intros [d g]. rewrite G1. cbn. case_bool_decide as E; [by intros []|]. intros Hk.
    destruct (W4 _ Hk) as (y & b & x & Hd & Hx & Hy). cbn in *. exists y, b, (orphan id x). cbn.
    rewrite lookup_fmap, lookup_delete_ne, Hx by done. split_and!; [done|done|]. by rewrite (proj1 (Ho x)).
  - intros i r p (Hi & r0 & Hr0 & ->)%Hrow Hp. unfold orphan in Hp. case_bool_decide as E; [done|].
    destruct (W5 _ _ _ Hr0 Hp) as (rp & Hrp & Hs). exists (orphan id rp).
    rewrite lookup_fmap, lookup_delete_ne, Hrp by congruence. split; [done|]. by rewrite !(proj1 (Ho _)).
Qed.
Lemma delete_corr_wf id t : tax_wf t -> tax_wf (delete_corr_row id t).
Proof using.
  intros [W1 W2 W3 W4 W5]. destruct (delete_corr_row_spec id t) as (G1 & G2 & G3 & G4 & _).
  split; rewrite ?G2, ?G3, ?G4; try done.
  - eapply unique_same; [exact W2|]. intros i r' (_ & Hr)%lookup_delete_Some. eauto 10.
  - intros [[d c] r]. rewrite G1. cbn. case_bool_decide as E; [by intros []|]. intros Hk.
    destruct (W3 _ Hk) as (Hv & y & b & x & Hd & Hx & Hy). cbn in *. split; [done|]. cbn. rewrite lookup_delete_ne by done. eauto 10.
Qed.

(** Rows written in place keep their system and parent; a fresh row has no parent. *)
Lemma wf_named table m t :
  tax_wf t -> unique_rows m ->
  (forall id r, rows_of table t !! id = Some r -> exists r', m !! id = Some r' /\ n_system r' = n_system r) ->
  (forall id r', m !! id = Some r' -> n_parent r' = None \/
     exists r, rows_of table t !! id = Some r /\ n_system r = n_system r' /\ n_parent r = n_parent r') ->
  tax_wf (with_rows table (fun _ => m) t).
Proof using.
  intros [W1 W2 W3 W4 W5] Hu Hk Hp. destruct table; cbn in *; split; cbn; try done.
  - intros k Hd. destruct (W4 _ Hd) as (y & b & x & Hdoc & Hx & Hy). destruct (Hk _ _ Hx) as (x' & Hx' & Hs).
    exists y, b, x'. split_and!; [done|done|congruence].
  - intros id r p Hr Hpar. destruct (Hp _ _ Hr) as [?|(r0 & Hr0 & Hs & Hp0)]; [congruence|].
    destruct (W5 _ _ p Hr0) as (rp & Hrp & Hsp); [congruence|]. destruct (Hk _ _ Hrp) as (rp' & ? & ?).
    exists rp'. split; [done|congruence].
  - intros k Hd. destruct (W3 _ Hd) as (Hv & y & b & x & Hdoc & Hx & Hy). destruct (Hk _ _ Hx) as (x' & Hx' & Hs).
    split; [done|]. exists y, b, x'. split_and!; [done|done|congruence].
Qed.
Lemma wf_unique table t : tax_wf t -> unique_rows (rows_of table t).
Proof using. by intros []; destruct table. Qed.
Lemma with_rows_const table f t : with_rows table f t = with_rows table (fun _ => f (rows_of table t)) t.
Proof using. by destruct table. Qed.

Lemma wf_fresh table t r :
  tax_wf t -> clashes (rows_of table t) None (n_system r) (n_name r) (n_slug r) = false -> n_parent r = None ->
  tax_wf (with_rows table <[next_rowid (rows_of table t) := r]> t).
Proof using.
  intros W Hc Hp. rewrite with_rows_const. apply wf_named; [done|by eapply unique_insert; [apply wf_unique|..]| |].
  - intros id r0 H0. exists r0. split; [|done]. rewrite lookup_insert_ne; [done|]. intros <-. by rewrite next_rowid_None in H0.
  - intros id r' [[_ <-]|[_ Hr]]%lookup_insert_Some; eauto 10.
Qed.
Lemma wf_stamp table now id t : tax_wf t -> tax_wf (with_rows table (alter (stamp now) id) t).
Proof using.
  intros W. rewrite with_rows_const. apply wf_named; [done| | |].
  - eapply unique_same; [by apply wf_unique|]. intros i r' [(-> & r & Hr & ->)|[_ Hr]]%lookup_alter_Some; eauto 10.
  - intros i r Hr. destruct (decide (i = id)) as [->|]; [|rewrite lookup_alter_ne by done; eauto].
    rewrite lookup_alter_eq, Hr. by eexists.
  - intros i r' [(-> & r & Hr & ->)|[_ Hr]]%lookup_alter_Some; eauto 10.
Qed.

Lemma Upsert_wf systemID table name now t id t' :
  UpsertByName U system_exists systemID table name now t = Ok (id, t') -> tax_wf t -> tax_wf t'.
Proof using.
  intros (m & -> & Hm)%Upsert_Ok W. destruct Hm as [[-> _]|(Hc & _ & -> & ->)].
  - rewrite <- with_rows_const. by apply wf_stamp.
  - set (r := MkNamed _ _ _ _ _ _).
    pose proof (wf_stamp table now (next_rowid (rows_of table t)) _ (wf_fresh table t r W Hc eq_refl)) as Hw.
    rewrite with_rows_const, rows_with in Hw. by destruct table.
Qed.
Lemma create_wf table admin systemID name slug now t id t' :
  create_row U system_exists table admin systemID name slug now t = Ok (id, t') -> tax_wf t -> tax_wf t'.
Proof using.
  unfold create_row. intros H W. set (n := TrimSpace (default "" name)) in H. set (sl := if bool_decide _ then Make U n else _) in H.
  guards_in H. injection H as _ <-. by apply wf_fresh.
Qed.
Lemma update_wf table id now name slug t t' : update_row table id now name slug t = Ok t' -> tax_wf t -> tax_wf t'.
Proof using.
  unfold update_row. intros H W. destruct (rows_of table t !! id) as [r|] eqn:Er; [|done]. guards_in H. injection H as <-.
  rewrite with_rows_const. apply wf_named; [done| | |].
  - eapply unique_insert; [by apply wf_unique|exact Hc|by intros i [= ->]].
  - intros i r0 H0. destruct (decide (i = id)) as [->|]; [|rewrite lookup_insert_ne by done; eauto].
    rewrite lookup_insert_eq. eexists. split; [done|]. cbn. congruence.
  - intros i r' [[<- <-]|[_ Hr]]%lookup_insert_Some; right; [|eauto]. exists r. split; [done|]. done.
Qed.
Lemma set_parent_Ok may systemID id parent now t t' :
  set_parent_tx may systemID id parent now t = Ok t' ->
  exists r, tags t !! id = Some r /\ t' = with_tags <[id := set_parent parent now r]> t /\
    forall p, parent = Some p -> n_system <$> tags t !! p = Some (n_system r).
Proof using.
  unfold set_parent_tx. intros H. destruct may; [|done]. destruct (tags t !! id) as [r|] eqn:Er; [|by destruct parent; guards_in H].
  exists r. split; [done|]. destruct parent as [p|].
  - destruct (present KindTag systemID p t); [|done]. destruct (bool_decide _) eqn:E; [|done]. bool_simpl.
    injection H as <-. split; [done|]. by intros q [= <-].
  - injection H as <-. done.
Qed.
Lemma set_parent_wf may systemID id parent now t t' :
  set_parent_tx may systemID id parent now t = Ok t' -> tax_wf t -> tax_wf t'.
Proof using.
  intros (r & Er & -> & Hpar)%set_parent_Ok W.
  destruct W as [W1 W2 W3 W4 W5].
  set (m := <[id := set_parent parent now r]> (tags t)).
  assert (K : forall i x, tags t !! i = Some x -> exists x', m !! i = Some x' /\ n_system x' = n_system x).
  { intros i x Hx. unfold m. destruct (decide (i = id)) as [->|]; [rewrite lookup_insert_eq|rewrite lookup_insert_ne by done; eauto].
    eexists. split; [done|]. cbn. congruence. }
  split; cbn; try done; fold m.
  - eapply unique_same; [exact W1|]. intros i x [[<- <-]|[_ Hx]]%lookup_insert_Some; eauto 10.
  - intros k Hd. destruct (W4 _ Hd) as (y & b & x & Hdoc & Hx & Hy). destruct (K _ _ Hx) as (x' & ? & ?).
    exists y, b, x'. split_and!; [done|done|congruence].
  - intros i x p [[<- <-]|[_ Hx]]%lookup_insert_Some Hp.
    + specialize (Hpar p Hp). destruct (tags t !! p) as [rp|] eqn:Erp; [|done]. injection Hpar as Hs.
      destruct (K _ _ Erp) as (rp' & ? & ?). exists rp'. split; [done|]. cbn. congruence.
    + destruct (W5 _ _ _ Hx Hp) as (rp & Hrp & Hs). destruct (K _ _ Hrp) as (rp' & ? & ?). exists rp'. split; [done|congruence].
Qed.

Lemma enqueue_move_wf doc t t' : enqueue_move document doc t = Ok t' -> tax_wf t -> tax_wf t'.
Proof using.
  unfold enqueue_move. intros H. guards_in H. injection H as <-. destruct b; [done|]. by apply wf_fields.
Qed.
Lemma merge_tx_wf systemID kind from into t t' :
  merge_tx document scan systemID kind from into t = Ok t' -> tax_wf t -> tax_wf t'.
Proof using.
  unfold merge_tx. intros H W. guards_in H. apply andb_true_iff in Hc as [Hc Hne]. apply andb_true_iff in Hc as [Hf Hi].
  apply negb_true_iff, Z.eqb_neq in Hne. unfold present in Hf, Hi. bool_simpl.
  apply bind_Ok in H as (t1 & H1 & H). apply bind_Ok in H as (t2 & H2 & H). apply bind_Ok in H as (t3 & H3 & [= <-]).
  assert (tax_wf t1) as W1.
  { destruct kind.
    - assert (t1 = merge_tags (affectedDocs KindTag from t) from into t) as -> by (by injection H1).
      apply merge_tags_wf; [done|by intros d ?%affected_tag|]. cbn in Hf, Hi. congruence.
    - by eapply merge_docs_wf. }
  apply enqueue_moves_rest in H2 as (E1 & E2 & E3 & E4 & _).
  apply rewrite_refs_spec in H3 as (F1 & F2 & F3 & F4 & _).
  assert (tax_wf t3) by (eapply wf_fields; [| | | |exact W1]; congruence).
  destruct kind; [by apply delete_tag_wf|by apply delete_corr_wf].
Qed.
Lemma own_tag_wf id t : tax_wf t -> tax_wf (own_tag id t).
Proof using.
  unfold own_tag. generalize (affectedDocs KindTag id t). intros l; revert t; induction l as [|d l IH]; intros t W; [done|].
  cbn [foldl]. apply IH. destruct (document_tags t !! (d, id)) eqn:E; [|done].
  eapply wf_joins; try done; [by left|]. intros k. cbn. rewrite lookup_insert_is_Some. intros [<-|[_ ?]]; left; [by rewrite E|done].
Qed.

(** ** Every operation *)
Context (reads_variable : Z -> string -> bool).

Inductive tax_step (t t' : tables) : Prop :=
  | st_upsert systemID table name now id : UpsertByName U system_exists systemID table name now t = Ok (id, t') -> tax_step t t'
  | st_append doc corr role : AppendCorrespondent document doc corr role t = Ok t' -> tax_step t t'
  | st_primary doc corr : SetPrimaryCorrespondent document doc corr t = Ok t' -> tax_step t t'
  | st_remove_role doc corr role b : RemoveCorrespondentRole doc corr role t = Ok (b, t') -> tax_step t t'
  | st_remove doc ids : RemoveCorrespondents doc ids t = Ok t' -> tax_step t t'
  | st_copy a b : CopyCorrespondents document a b t = Ok t' -> tax_step t t'
  | st_merge systemID kind from into : merge_tx document scan systemID kind from into t = Ok t' -> tax_step t t'
  | st_create table admin systemID name slug now id :
      create_row U system_exists table admin systemID name slug now t = Ok (id, t') -> tax_step t t'
  | st_update_tag admin id now name slug color :
      UpdateTag document reads_variable admin id now name slug color t = Ok t' -> tax_step t t'
  | st_delete_tag admin systemID id : DeleteTag document reads_variable admin systemID id t = Ok t' -> tax_step t t'
  | st_delete_tags admin systemID ids : DeleteTags document reads_variable admin systemID ids t = Ok t' -> tax_step t t'
  | st_set_parent may systemID id parent now : set_parent_tx may systemID id parent now t = Ok t' -> tax_step t t'
  | st_update_corr may id now name slug other :
      UpdateCorrespondent document reads_variable may id now name slug other t = Ok t' -> tax_step t t'
  | st_delete_corr may id : DeleteCorrespondent document reads_variable may id t = Ok t' -> tax_step t t'
  | st_add may doc name role now corr :
      AddDocCorrespondent U document system_exists may doc name role now t = Ok (corr, t') -> tax_step t t'
  | st_remove_corr may doc corr role : RemoveDocCorrespondent document may doc corr role t = Ok t' -> tax_step t t'.

Lemma template_moves_wf variable wanted t : tax_wf t -> tax_wf (template_moves document reads_variable variable wanted t).
Proof using. by apply wf_fields. Qed.

Lemma Append_wf doc corr role t t' : AppendCorrespondent document doc corr role t = Ok t' -> tax_wf t -> tax_wf t'.
Proof using. intros ((A1 & A2 & _) & A3 & A4)%Append_keys W. by eapply wf_rel_op. Qed.

Lemma tax_step_wf t t' : tax_step t t' -> tax_wf t -> tax_wf t'.
Proof using.
  intros [systemID table name now id H|doc corr role H|doc corr H|doc corr role b H|doc ids H|a b H|systemID kind from into H
    |table admin systemID name slug now id H|admin id now name slug color H|admin systemID id H|admin systemID ids H
    |may systemID id parent now H|may id now name slug other H|may id H|may doc name role now corr H|may doc corr role H] W.
  - by eapply Upsert_wf.
  - by eapply Append_wf.
  - by eapply SetPrimary_wf.
  - by eapply RemoveRole_wf.
  - by eapply Remove_wf.
  - by eapply Copy_wf.
  - by eapply merge_tx_wf.
  - by eapply create_wf.
  - unfold UpdateTag in H. guards_in H. apply bind_Ok in H as (t1 & H1 & H). apply update_wf in H1; [|done].
    set (t2 := if bool_decide (name = None) && bool_decide (slug = None) then t1 else own_tag id t1) in H.
    assert (tax_wf t2) by (unfold t2; destruct (bool_decide (name = None) && bool_decide (slug = None)); [done|by apply own_tag_wf]).
    injection H as <-. destruct (renamed _ _); [by apply template_moves_wf|done].
  - unfold DeleteTag in H. guards_in H. injection H as <-. by apply delete_tag_wf, template_moves_wf.
  - unfold DeleteTags in H. guards_in H. injection H as <-.
    pose proof (template_moves_wf "tag_list" (fun doc => existsb (fun id => tagged t id doc) ids) t W) as W0.
    revert W0. generalize (template_moves document reads_variable "tag_list" (fun doc => existsb (fun id => tagged t id doc) ids) t).
    clear. induction ids as [|id ids IH]; intros t0 W0; [done|]. by apply IH, delete_tag_wf.
  - by eapply set_parent_wf.
  - unfold UpdateCorrespondent in H. guards_in H. apply bind_Ok in H as (t1 & H1 & H). apply update_wf in H1; [|done].
    injection H as <-. destruct (renamed _ _); [by apply template_moves_wf|done].
  - unfold DeleteCorrespondent in H. guards_in H. injection H as <-. by apply delete_corr_wf, template_moves_wf.
  - unfold AddDocCorrespondent in H. guards_in H. apply bind_Ok in H as ([c t1] & H1 & H).
    apply bind_Ok in H as (t2 & H2 & H). apply bind_Ok in H as (t3 & H3 & H). injection H as _ <-.
    eapply enqueue_move_wf; [exact H3|]. eapply Append_wf; [exact H2|]. by eapply Upsert_wf.
  - unfold RemoveDocCorrespondent in H. guards_in H. apply bind_Ok in H as ([b t1] & H1 & H). destruct b; [|done].
    eapply enqueue_move_wf; [exact H|]. by eapply RemoveRole_wf.
Qed.

(** C15: whatever the operations do, in any order and with any stale check before a merge or a
    move of a tag: names and slugs stay unique per system, and every relation, tagging and
    parent stays within one system. *)
Theorem taxonomy_invariant t t' : rtc tax_step t t' -> tax_wf t -> tax_wf t'.
Proof using. induction 1 as [|? ? ? H _ IH]; [done|]. intros W. by apply IH, (tax_step_wf _ _ H). Qed.
End Rows.
