(* ===== verification/SearchQuery.v ===== *)
(** The query language's data and canonical spelling ([core/searchquery/query.go]). *)
From S2P Require Import Prelude GoStd Utf8.

Definition MaxQueryBytes : Z := 1024.
Definition MaxTokens : Z := 64.
Definition MaxValueBytes : Z := 256.

Definition slen (s : string) : Z := Z.of_nat (String.length s).

Inductive TextField : Type := TextAnywhere | TextTitle | TextContent.
#[export] Instance TextField_eq_dec : EqDecision TextField.
Proof. solve_decision. Defined.

Inductive Operator : Type := OpEqual | OpGreater | OpGreaterEqual | OpLess | OpLessEqual.
#[export] Instance Operator_eq_dec : EqDecision Operator.
Proof. solve_decision. Defined.

(** [string(op)]. *)
Definition op_string (op : Operator) : string :=
  match op with
  | OpEqual => "=" | OpGreater => ">" | OpGreaterEqual => ">="
  | OpLess => "<" | OpLessEqual => "<="
  end.

Inductive ClauseKind : Type := ClauseText | ClauseFilter.
#[export] Instance ClauseKind_eq_dec : EqDecision ClauseKind.
Proof. solve_decision. Defined.

Record Clause : Type := MkClause {
  Kind : ClauseKind;
  Negated : bool;
  Position : Z;
  Text : string;
  Field : TextField;
  Prefix : bool;
  Filter : string;
  Op : Operator;
  Value : string;
  Quoted : bool;
  FieldValue : string;
  FieldValueQuoted : bool;
}.
#[export] Instance Clause_eq_dec : EqDecision Clause.
Proof. solve_decision. Defined.

Definition Query : Type := list Clause.

(** What an error says; the texts that quote the input keep it as argument.  The
    last two have no text in the code: the one is a run-time panic of an index
    expression, the other marks a loop that was given too little fuel. *)
Inductive message : Type :=
  | QueryTooLong | NotUTF8 | ControlCharacter | TooManyTokens | QuotedTooLong
  | EscapeAtEnd | UnterminatedQuote | GroupingUnsupported | RawFTSUnsupported
  | ValueTooLong | InvalidToken
  | NotSeparated | NegationNeedsTerm | ExpectedTerm | EmptyValue
  | OperatorUnsupported (op : string) | UnknownFilter (name : string)
  | FilterRequiresValue (name : string) | InvalidComparison
  | FilterRequiresValueAfter (name : string) (op : Operator)
  | ComparisonUnsupported (name : string) | FilterInvalidValue (name : string)
  | FilterEmptyValue (name : string) | FieldOperatorMisplaced | FieldNeedsComparison
  | FieldNeedsValue | FieldInvalidValue | FieldEmptyValue
  | IndexOutOfRange | OutOfFuel.
#[export] Instance message_eq_dec : EqDecision message.
Proof. solve_decision. Defined.

Record Error : Type := MkError {
  Message : message;
  err_Position : Z;
  err_Filter : string;
  Suggestions : list string;
}.

Definition queryError (position : Z) (m : message) : Error := MkError m position "" [].
Definition filterError (position : Z) (filter : string) (m : message) (suggestions : list string)
  : Error := MkError m position filter suggestions.

Definition FilterNames : list string :=
  ["jd"; "tag"; "from"; "sensitivity"; "lang"; "title"; "content"; "field"; "has-field";
   "asn"; "added"; "date"; "date-role"; "is"; "version"].

Definition IsFilterName (name : string) : bool := existsb (String.eqb name) FilterNames.

(** [isQuerySpace]. *)
Definition isQuerySpace (r : Z) : bool := IsSpace r.

(** Backslash, double quote, colon, less, greater, equals, parentheses, star,
    caret, braces. *)
Definition special_runes : list Z := [92; 34; 58; 60; 62; 61; 40; 41; 42; 94; 123; 125].

Definition needs_escape (first : bool) (r : Z) : bool :=
  isQuerySpace r || bool_decide (r ∈ special_runes) || (first && (r =? 45)).

(** The loop of [escapeBare] over the runes of its argument. *)
Fixpoint escape_runes (first : bool) (rs : list Z) : string :=
  match rs with
  | [] => ""
  | r :: rs =>
      (if needs_escape first r then String "\" "" else "") +:+ encode_rune r
        +:+ escape_runes false rs
  end.
Definition escapeBare (value : string) : string := escape_runes true (runes value).

(** The replacer that puts a backslash before backslashes and double quotes: both
    patterns are single bytes, so every byte is replaced on its own. *)
Definition quote_char : ascii := "034"%char.
Fixpoint escape_quoted (s : string) : string :=
  match s with
  | EmptyString => ""
  | String c s =>
      if bool_decide (c = "\"%char) || bool_decide (c = quote_char)
      then String "\" (String c (escape_quoted s))
      else String c (escape_quoted s)
  end.
Definition quoted_value (v : string) : string :=
  String quote_char (escape_quoted v +:+ String quote_char "").

(** [writeValue]. *)
Definition write_value (value : string) (quoted : bool) : string :=
  if quoted then quoted_value value else escapeBare value.

Definition field_prefix (f : TextField) : string :=
  match f with TextAnywhere => "" | TextTitle => "title:" | TextContent => "content:" end.

Definition normalize_clause (c : Clause) : string :=
  (if Negated c then "-" else "") +:+
  match Kind c with
  | ClauseText => field_prefix (Field c) +:+ write_value (Text c) (negb (Prefix c))
  | ClauseFilter =>
      Filter c +:+ ":" +:+
      if bool_decide (Filter c = "field") then
        write_value (Value c) (Quoted c) +:+ op_string (Op c)
          +:+ write_value (FieldValue c) (FieldValueQuoted c)
      else
        (if bool_decide (Op c = OpEqual) then "" else op_string (Op c))
          +:+ write_value (Value c) (Quoted c)
  end.

(** [strings.Join]. *)
Fixpoint join (sep : string) (parts : list string) : string :=
  match parts with
  | [] => ""
  | [p] => p
  | p :: parts => p +:+ sep +:+ join sep parts
  end.

Definition Normalize (q : Query) : string := join " " (normalize_clause <$> q).

(** [strings.ContainsAny] of space, tab, carriage return, line feed. *)
Definition contains_blank (s : string) : bool :=
  negb (all_bytes (fun c => negb (bool_decide (byte_val c ∈ [32; 9; 13; 10]))) s).

Definition FormatFilter (name value : string) : string :=
  Normalize [MkClause ClauseFilter false 0 "" TextAnywhere false name OpEqual value
               (contains_blank value) "" false].
