(* ===== verification/SearchLex.v ===== *)
(** The query lexer ([core/searchquery/lexer.go]).  [rest] is [input[pos:]]
    throughout; the loops are given the input's length as fuel, and each
    iteration consumes at least one byte. *)
From S2P Require Import Prelude GoStd Utf8 SearchQuery.

Inductive tokenKind : Type := tokenWord | tokenQuoted | tokenColon | tokenMinus | tokenComparison.
#[export] Instance tokenKind_eq_dec : EqDecision tokenKind.
Proof. solve_decision. Defined.

Record token : Type := Token {
  t_kind : tokenKind;
  t_text : string;
  t_start : Z;
  t_end : Z;
}.
#[export] Instance token_eq_dec : EqDecision token.
Proof. solve_decision. Defined.

Definition forbidden_control (r : Z) : bool := IsControl r && negb (isQuerySpace r).

(** The rune after a backslash, for both scanners: its position is that of the
    byte after the backslash. *)
Definition scan_escaped (pos : Z) (rest : string) : result Error (Z * nat) :=
  fail_if bool_decide (rest = "") with queryError (pos - 1) EscapeAtEnd in
  let '(escaped, size) := decode_rune rest in
  fail_if forbidden_control escaped with queryError pos ControlCharacter in
  Ok (escaped, size).

Fixpoint scan_quoted_loop (fuel : nat) (start pos : Z) (rest value : string)
    : result Error (string * Z * string) :=
  match fuel with
  | O => Err (queryError pos OutOfFuel)
  | S fuel =>
      fail_if bool_decide (rest = "") with queryError start UnterminatedQuote in
      let '(r, size) := decode_rune rest in
      let pos' := pos + Z.of_nat size in
      let rest' := sdrop size rest in
      if r =? 34 then
        fail_if MaxValueBytes <? slen value with queryError start QuotedTooLong in
        Ok (value, pos', rest')
      else if r =? 92 then
        '(escaped, escapedSize) ← scan_escaped pos' rest';
        let value := value +:+ encode_rune escaped in
        fail_if MaxValueBytes <? slen value with queryError start QuotedTooLong in
        scan_quoted_loop fuel start (pos' + Z.of_nat escapedSize) (sdrop escapedSize rest') value
      else
        fail_if forbidden_control r with queryError pos ControlCharacter in
        let value := value +:+ encode_rune r in
        fail_if MaxValueBytes <? slen value with queryError start QuotedTooLong in
        scan_quoted_loop fuel start pos' rest' value
  end.

(** [scanQuoted]: [rest] starts with the opening quote. *)
Definition scanQuoted (start : Z) (rest : string) : result Error (string * Z * string) :=
  scan_quoted_loop (S (String.length rest)) start (start + 1) (sdrop 1 rest) "".

(** The runes that end a bare word. *)
Definition word_break (r : Z) : bool :=
  isQuerySpace r || (r =? 58) || (r =? 34) || (r =? 62) || (r =? 60) || (r =? 61).

Definition word_done (start pos : Z) (rest value : string) : result Error (string * Z * string) :=
  fail_if bool_decide (value = "") with queryError start InvalidToken in
  Ok (value, pos, rest).

Fixpoint scan_word_loop (fuel : nat) (start pos : Z) (rest value : string)
    : result Error (string * Z * string) :=
  match fuel with
  | O => Err (queryError pos OutOfFuel)
  | S fuel =>
      if bool_decide (rest = "") then word_done start pos rest value
      else
        let '(r, size) := decode_rune rest in
        let pos' := pos + Z.of_nat size in
        let rest' := sdrop size rest in
        if word_break r then word_done start pos rest value
        else
          fail_if IsControl r with queryError pos ControlCharacter in
          fail_if (r =? 40) || (r =? 41) with queryError pos GroupingUnsupported in
          fail_if (r =? 42) || (r =? 94) || (r =? 123) || (r =? 125)
            with queryError pos RawFTSUnsupported in
          if r =? 92 then
            '(escaped, escapedSize) ← scan_escaped pos' rest';
            let value := value +:+ encode_rune escaped in
            fail_if MaxValueBytes <? slen value with queryError start ValueTooLong in
            scan_word_loop fuel start (pos' + Z.of_nat escapedSize) (sdrop escapedSize rest') value
          else
            let value := value +:+ encode_rune r in
            fail_if MaxValueBytes <? slen value with queryError start ValueTooLong in
            scan_word_loop fuel start pos' rest' value
  end.

Definition scanWord (start : Z) (rest : string) : result Error (string * Z * string) :=
  scan_word_loop (S (String.length rest)) start start rest "".

(** One token from [rest], which starts with the rune [r] of [size] bytes that is
    neither space nor control: the token and the input after it. *)
Definition lex_token (r : Z) (size : nat) (pos : Z) (rest : string) (clauseStart : bool)
    : result Error (token * string) :=
  let pos' := pos + Z.of_nat size in
  let rest' := sdrop size rest in
  if (r =? 45) && clauseStart then Ok (Token tokenMinus "-" pos pos', rest')
  else if r =? 58 then Ok (Token tokenColon ":" pos pos', rest')
  else if (r =? 62) || (r =? 60) || (r =? 61) then
    if has_prefix rest' "=" && negb (r =? 61)
    then Ok (Token tokenComparison (encode_rune r +:+ "=") pos (pos' + 1), sdrop 1 rest')
    else Ok (Token tokenComparison (encode_rune r) pos pos', rest')
  else if r =? 34 then
    '(value, stop, rest') ← scanQuoted pos rest;
    Ok (Token tokenQuoted value pos stop, rest')
  else
    '(value, stop, rest') ← scanWord pos rest;
    Ok (Token tokenWord value pos stop, rest').

Fixpoint lex_loop (fuel : nat) (pos : Z) (rest : string) (clauseStart : bool)
    (tokens : list token) : result Error (list token) :=
  if bool_decide (rest = "") then Ok tokens
  else
    match fuel with
    | O => Err (queryError pos OutOfFuel)
    | S fuel =>
        let '(r, size) := decode_rune rest in
        if isQuerySpace r then
          lex_loop fuel (pos + Z.of_nat size) (sdrop size rest) true tokens
        else
          fail_if IsControl r with queryError pos ControlCharacter in
          '(t, rest') ← lex_token r size pos rest clauseStart;
          let tokens := tokens ++ [t] in
          fail_if MaxTokens <? Z.of_nat (length tokens) with queryError pos TooManyTokens in
          lex_loop fuel (t_end t) rest' false tokens
    end.

Definition lex (input : string) : result Error (list token) :=
  fail_if MaxQueryBytes <? slen input with queryError MaxQueryBytes QueryTooLong in
  require valid_string input else queryError 0 NotUTF8 in
  lex_loop (String.length input) 0 input true [].

(** * Progress and fuel *)

Lemma decode_rune_size s r n :
  s <> "" -> decode_rune s = (r, n) -> (1 <= n <= String.length s)%nat.
Proof.
  intros Hs Hd. destruct (decode_sound _ _ _ Hs Hd) as [[_ ->]|(Hr & -> & Heq)].
  - destruct s; [done|cbn; lia].
  - pose proof (rune_len_pos r). apply (f_equal String.length) in Heq.
    rewrite append_length, rune_len_encode in Heq by done. lia.
Qed.

(** An error that the code itself can return. *)
Definition real_error (e : Error) : Prop :=
  Message e <> OutOfFuel /\ Message e <> IndexOutOfRange.

(** The answer of a scan from [rest]: real errors only, and what is left is what
    the reported position says. *)
Definition scan_sound (strict : bool) (pos : Z) (rest : string)
    (res : result Error (string * Z * string)) : Prop :=
  match res with
  | Ok (v, stop, rest') =>
      (if strict then (String.length rest' < String.length rest)%nat
       else (String.length rest' <= String.length rest)%nat) /\
      stop = pos + slen rest - slen rest'
  | Err e => real_error e
  end.

Lemma scan_sound_sdrop strict strict' pos n rest res :
  (1 <= n <= String.length rest)%nat ->
  scan_sound strict' (pos + Z.of_nat n) (sdrop n rest) res -> scan_sound strict pos rest res.
Proof.
  intros Hn. destruct res as [[[v stop] rest']|e]; cbn; [|done].
  unfold slen. rewrite sdrop_length. destruct strict, strict'; lia.
Qed.

Lemma scan_escaped_cases pos rest :
  match scan_escaped pos rest with
  | Ok (r, n) => decode_rune rest = (r, n) /\ rest <> "" /\ forbidden_control r = false
  | Err e => real_error e
  end.
Proof.
  unfold scan_escaped. case_bool_decide; [done|].
  destruct (decode_rune rest) as [r n]. destruct (forbidden_control r) eqn:E; done.
Qed.

Lemma scan_quoted_loop_sound fuel start pos rest value :
  (String.length rest < fuel)%nat ->
  scan_sound false pos rest (scan_quoted_loop fuel start pos rest value).
Proof.
  revert pos rest value; induction fuel as [|fuel IH]; intros pos rest value Hf; [lia|].
  cbn [scan_quoted_loop]. case_bool_decide as Hne; [done|].
  destruct (decode_rune rest) as [r n] eqn:Hd.
  pose proof (decode_rune_size _ _ _ Hne Hd) as Hn. cbn zeta.
  assert (Hl : String.length (sdrop n rest) = (String.length rest - n)%nat) by apply sdrop_length.
  destruct (r =? 34).
  { destruct (_ <? _); [done|]. cbn. unfold slen. rewrite Hl. lia. }
  destruct (r =? 92).
  - pose proof (scan_escaped_cases (pos + Z.of_nat n) (sdrop n rest)) as He.
    destruct (scan_escaped _ _) as [[r' n']|e]; cbn; [|done].
    destruct He as (Hd' & Hne' & _). pose proof (decode_rune_size _ _ _ Hne' Hd') as Hn'.
    destruct (_ <? _); [done|].
    apply (scan_sound_sdrop _ false _ n); [lia|].
    apply (scan_sound_sdrop _ false _ n'); [lia|]. apply IH. rewrite !sdrop_length. lia.
  - destruct (forbidden_control r); [done|]. destruct (_ <? _); [done|].
    apply (scan_sound_sdrop _ false _ n); [lia|]. apply IH. lia.
Qed.

Lemma scan_word_loop_sound fuel start pos rest value :
  (String.length rest < fuel)%nat ->
  scan_sound (bool_decide (value = "")) pos rest (scan_word_loop fuel start pos rest value).
Proof.
  revert pos rest value; induction fuel as [|fuel IH]; intros pos rest value Hf; [lia|].
  cbn [scan_word_loop].
  assert (Hdone : scan_sound (bool_decide (value = "")) pos rest (word_done start pos rest value)).
  { unfold word_done. case_bool_decide; [done|]. cbn. lia. }
  destruct (bool_decide (rest = "")) eqn:Hne; [exact Hdone|]. bool_simpl.
  destruct (decode_rune rest) as [r n] eqn:Hd.
  pose proof (decode_rune_size _ _ _ Hne Hd) as Hn. cbn zeta.
  assert (Hl : String.length (sdrop n rest) = (String.length rest - n)%nat) by apply sdrop_length.
  destruct (word_break r); [exact Hdone|]. destruct (IsControl r); [done|].
  destruct (_ || _); [done|]. destruct (_ || _); [done|].
  destruct (r =? 92).
  - pose proof (scan_escaped_cases (pos + Z.of_nat n) (sdrop n rest)) as He.
    destruct (scan_escaped _ _) as [[r' n']|e]; cbn; [|done].
    destruct He as (Hd' & Hne' & _). pose proof (decode_rune_size _ _ _ Hne' Hd') as Hn'.
    destruct (_ <? _); [done|].
    eapply (scan_sound_sdrop _ false _ n); [lia|].
    eapply (scan_sound_sdrop _ _ _ n'); [lia|]. apply IH. rewrite !sdrop_length. lia.
  - destruct (_ <? _); [done|].
    eapply (scan_sound_sdrop _ _ _ n); [lia|]. apply IH. lia.
Qed.

Lemma lex_token_sound r n pos rest cs :
  rest <> "" -> decode_rune rest = (r, n) ->
  match lex_token r n pos rest cs with
  | Ok (t, rest') =>
      (String.length rest' < String.length rest)%nat /\
      t_start t = pos /\ t_end t = pos + slen rest - slen rest'
  | Err e => real_error e
  end.
Proof.
  intros Hne Hd. pose proof (decode_rune_size _ _ _ Hne Hd) as Hn.
  assert (Hl : String.length (sdrop n rest) = (String.length rest - n)%nat) by apply sdrop_length.
  unfold lex_token. cbn zeta.
  destruct (_ && cs); [unfold slen; cbn; rewrite Hl; lia|].
  destruct (r =? 58); [unfold slen; cbn; rewrite Hl; lia|].
  destruct ((r =? 62) || (r =? 60) || (r =? 61)).
  { destruct (has_prefix _ _) eqn:Ep; cbn [andb]; [destruct (negb _)|];
      unfold slen; cbn; rewrite ?sdrop_length, ?Hl; try lia.
    apply has_prefix_spec in Ep as (t & Ht). rewrite append_cons, append_nil_l in Ht.
    rewrite Ht in Hl |- *. cbn in *. lia. }
  destruct (r =? 34).
  - unfold scanQuoted.
    pose proof (scan_quoted_loop_sound (S (String.length rest)) pos (pos + 1) (sdrop 1 rest) "")
      as H. rewrite sdrop_length in H. specialize (H ltac:(lia)).
    destruct (scan_quoted_loop _ _ _ _ _) as [[[v e] rest']|e]; [|done].
    unfold scan_sound, slen in *. rewrite sdrop_length in H. cbn. lia.
  - unfold scanWord.
    pose proof (scan_word_loop_sound (S (String.length rest)) pos pos rest "" ltac:(lia)) as H.
    rewrite bool_decide_true in H by done.
    destruct (scan_word_loop _ _ _ _ _) as [[[v e] rest']|e]; cbn in *; [|done].
    unfold slen in *. lia.
Qed.

Lemma lex_loop_fuel_irrelevant f f' pos rest cs toks :
  (String.length rest <= f)%nat -> (String.length rest <= f')%nat ->
  lex_loop f pos rest cs toks = lex_loop f' pos rest cs toks.
Proof.
  revert f' pos rest cs toks; induction f as [|f IH]; intros f' pos rest cs toks Hf Hf'.
  { destruct rest; cbn in Hf; [|lia]. by destruct f'. }
  destruct f' as [|f']; [destruct rest; cbn in Hf'; [done|lia]|].
  cbn [lex_loop]. case_bool_decide as Hne; [done|].
  destruct (decode_rune rest) as [r n] eqn:Hd.
  pose proof (decode_rune_size _ _ _ Hne Hd) as Hn.
  destruct (isQuerySpace r); [apply IH; rewrite sdrop_length; lia|].
  destruct (IsControl r); [done|].
  pose proof (lex_token_sound r n pos rest cs Hne Hd) as Ht.
  destruct (lex_token r n pos rest cs) as [[t rest']|e]; cbn; [|done].
  destruct (_ <? _); [done|]. apply IH; lia.
Qed.

(** The loop with exactly the fuel that [lex] gives it. *)
Definition lex_from (pos : Z) (rest : string) (cs : bool) (toks : list token)
    : result Error (list token) := lex_loop (String.length rest) pos rest cs toks.

Lemma lex_from_unfold pos rest cs toks :
  lex_from pos rest cs toks =
  if bool_decide (rest = "") then Ok toks
  else
    let '(r, size) := decode_rune rest in
    if isQuerySpace r then lex_from (pos + Z.of_nat size) (sdrop size rest) true toks
    else
      fail_if IsControl r with queryError pos ControlCharacter in
      '(t, rest') ← lex_token r size pos rest cs;
      let toks := toks ++ [t] in
      fail_if MaxTokens <? Z.of_nat (length toks) with queryError pos TooManyTokens in
      lex_from (t_end t) rest' false toks.
Proof.
  unfold lex_from at 1. rewrite (lex_loop_fuel_irrelevant _ (S (String.length rest))) by lia.
  cbn [lex_loop]. case_bool_decide as Hne; [done|].
  destruct (decode_rune rest) as [r n] eqn:Hd.
  pose proof (decode_rune_size _ _ _ Hne Hd) as Hn.
  destruct (isQuerySpace r).
  { apply lex_loop_fuel_irrelevant; rewrite sdrop_length; lia. }
  destruct (IsControl r); [done|].
  pose proof (lex_token_sound r n pos rest cs Hne Hd) as Ht.
  destruct (lex_token r n pos rest cs) as [[t rest']|e]; cbn; [|done].
  destruct (_ <? _); [done|]. apply lex_loop_fuel_irrelevant; lia.
Qed.

(** Induction on the input that is left. *)
Lemma string_length_ind (P : string -> Prop) :
  (forall s, (forall s', (String.length s' < String.length s)%nat -> P s') -> P s) -> forall s, P s.
Proof.
  intros H s. remember (String.length s) as n eqn:Hn. revert s Hn.
  induction (lt_wf n) as [n _ IH]; intros s ->. apply H. intros s' Hs'. by eapply IH.
Qed.

(** Consecutive tokens do not overlap and lie within the input. *)
Fixpoint spans_ok (lo : Z) (toks : list token) (hi : Z) : Prop :=
  match toks with
  | [] => lo <= hi
  | t :: toks => lo <= t_start t /\ t_start t < t_end t /\ spans_ok (t_end t) toks hi
  end.

Lemma spans_ok_weaken lo lo' toks hi : lo' <= lo -> spans_ok lo toks hi -> spans_ok lo' toks hi.
Proof. destruct toks; cbn; [lia|]. intros ? (? & ? & ?). split_and!; [lia|lia|done]. Qed.

Lemma lex_from_sound pos rest cs toks :
  match lex_from pos rest cs toks with
  | Ok all => exists new, all = toks ++ new /\ spans_ok pos new (pos + slen rest) /\
                (Z.of_nat (length toks) <= MaxTokens -> Z.of_nat (length all) <= MaxTokens)
  | Err e => real_error e
  end.
Proof.
  revert pos cs toks; induction rest as [rest IH] using string_length_ind; intros pos cs toks.
  rewrite lex_from_unfold. case_bool_decide as Hne.
  { exists []. rewrite app_nil_r. subst. unfold slen. cbn. split_and!; [done|lia|done]. }
  destruct (decode_rune rest) as [r n] eqn:Hd.
  pose proof (decode_rune_size _ _ _ Hne Hd) as Hn.
  destruct (isQuerySpace r).
  { assert (Hlt : (String.length (sdrop n rest) < String.length rest)%nat)
      by (rewrite sdrop_length; lia).
    specialize (IH _ Hlt (pos + Z.of_nat n) true toks).
    destruct (lex_from _ _ _ _) as [all|e]; [|done]. destruct IH as (new & -> & Hs & Hl).
    exists new. split_and!; [done| |done]. unfold slen in *. rewrite sdrop_length in Hs.
    replace (pos + Z.of_nat n + Z.of_nat (String.length rest - n))
      with (pos + Z.of_nat (String.length rest)) in Hs by lia.
    eapply spans_ok_weaken; [|exact Hs]. lia. }
  destruct (IsControl r); [done|].
  pose proof (lex_token_sound r n pos rest cs Hne Hd) as Ht.
  destruct (lex_token r n pos rest cs) as [[t rest']|e]; cbn; [|done].
  destruct Ht as (Hlt & Hst & Hen). destruct (_ <? _) eqn:Hm; [done|].
  specialize (IH _ Hlt (t_end t) false (toks ++ [t])).
  destruct (lex_from _ _ _ _) as [all|e]; [|done]. destruct IH as (new & -> & Hs & Hl).
  exists (t :: new). rewrite <- app_assoc. split_and!; [done| |].
  - cbn. unfold slen in *. split_and!; [lia|lia|].
    replace (pos + Z.of_nat (String.length rest))
      with (t_end t + Z.of_nat (String.length rest')) by lia. done.
  - intros _. bool_simpl. rewrite <- app_assoc in Hl. by apply Hl.
Qed.

(** * Contents of the tokens *)

Definition valid_runes (rs : list Z) : Prop := Forall (fun r => valid_rune r = true) rs.
Definition plain_runes (rs : list Z) : Prop := Forall (fun r => forbidden_control r = false) rs.

(** A value the scanners can return: valid UTF-8, at most 256 bytes, and no control
    character but white space. *)
Record value_ok (v : string) : Prop := ValueOk {
  vo_valid : valid_string v = true;
  vo_plain : plain_runes (runes v);
  vo_size : slen v <= MaxValueBytes;
}.

Lemma value_ok_runes v :
  value_ok v <-> exists rs, v = encode_runes rs /\ valid_runes rs /\ plain_runes rs /\
                    slen (encode_runes rs) <= MaxValueBytes.
Proof.
  split.
  - intros [Hv Hp Hs]. apply valid_string_spec in Hv as (rs & Hrs & ->).
    rewrite runes_encode in Hp by done. by exists rs.
  - intros (rs & -> & Hrs & Hp & Hs). split; [|by rewrite runes_encode|done].
    apply valid_string_spec. by exists rs.
Qed.

Lemma decode_cons r t :
  valid_rune r = true ->
  decode_rune (encode_rune r +:+ t) = (r, rune_len r) /\
  sdrop (rune_len r) (encode_rune r +:+ t) = t.
Proof.
  intros Hr. split; [by apply decode_encode|].
  rewrite <- (rune_len_encode r Hr). apply sdrop_append.
Qed.

Lemma encode_runes_snoc vs r : encode_runes vs +:+ encode_rune r = encode_runes (vs ++ [r]).
Proof. rewrite encode_runes_app. cbn. by rewrite append_nil_r. Qed.

Lemma encode_runes_nonempty r rs t : encode_runes (r :: rs) +:+ t <> "".
Proof. cbn. rewrite <- append_assoc. apply encode_rune_nonempty. Qed.

Lemma scan_escaped_runes pos r rs :
  valid_rune r = true ->
  scan_escaped pos (encode_runes (r :: rs)) =
    if forbidden_control r then Err (queryError pos ControlCharacter) else Ok (r, rune_len r).
Proof.
  intros Hr. unfold scan_escaped. cbn [encode_runes].
  rewrite bool_decide_false by apply encode_rune_nonempty. by rewrite decode_encode.
Qed.

(** A scan of valid input returns acceptable runes and leaves valid input. *)
Definition scan_runes_ok (nonempty : bool) (res : result Error (string * Z * string)) : Prop :=
  match res with
  | Ok (v, _, rest') => exists us rs', v = encode_runes us /\ valid_runes us /\ plain_runes us /\
      slen v <= MaxValueBytes /\ (nonempty = true -> v <> "") /\
      rest' = encode_runes rs' /\ valid_runes rs'
  | Err _ => True
  end.

Section ScanRunes.
Context (start : Z).

(** The state of both scanners: what is collected and what is left. *)
Record scan_state_ok (vs rs : list Z) : Prop := ScanState {
  ss_vs : valid_runes vs;
  ss_plain : plain_runes vs;
  ss_size : slen (encode_runes vs) <= MaxValueBytes;
  ss_rs : valid_runes rs;
}.

Lemma scan_state_push vs r rs m nonempty k :
  scan_state_ok vs (r :: rs) -> forbidden_control r = false ->
  (scan_state_ok (vs ++ [r]) rs -> scan_runes_ok nonempty k) ->
  scan_runes_ok nonempty
    (fail_if MaxValueBytes <? slen (encode_runes vs +:+ encode_rune r) with m in k).
Proof.
  intros [H1 H2 H3 H4] Hr Hk. destruct (_ <? _) eqn:E; [done|]. bool_simpl. apply Hk.
  apply Forall_cons in H4 as [H4 H5]. rewrite encode_runes_snoc in E.
  split; [by apply Forall_app; auto|by apply Forall_app; auto|done|done].
Qed.

Lemma scan_state_done vs rs e nonempty :
  scan_state_ok vs rs -> (nonempty = true -> encode_runes vs <> "") ->
  scan_runes_ok nonempty (Ok (encode_runes vs, e, encode_runes rs)).
Proof. intros [H1 H2 H3 H4] Hne. exists vs, rs. split_and!; done. Qed.

Lemma scan_quoted_runes fuel pos rs vs :
  scan_state_ok vs rs ->
  scan_runes_ok false (scan_quoted_loop fuel start pos (encode_runes rs) (encode_runes vs)).
Proof.
  revert pos rs vs; induction fuel as [|fuel IH]; intros pos rs vs Hok; [done|].
  cbn [scan_quoted_loop]. destruct rs as [|r rs]; [cbn; done|]. cbn [encode_runes].
  pose proof (ss_rs _ _ Hok) as Hv. apply Forall_cons in Hv as [Hr Hv].
  rewrite bool_decide_false by apply encode_rune_nonempty.
  destruct (decode_cons r (encode_runes rs) Hr) as [-> ->]. cbn zeta.
  assert (Hok' : scan_state_ok vs rs) by (destruct Hok; by split).
  destruct (r =? 34).
  { destruct (_ <? _); [done|]. by apply scan_state_done. }
  destruct (r =? 92).
  - destruct rs as [|r' rs]; [cbn; done|]. apply Forall_cons in Hv as [Hr' Hv].
    rewrite scan_escaped_runes by done. destruct (forbidden_control r') eqn:Hf; [done|]. cbn.
    eapply scan_state_push; [exact Hok'|done|]. intros Hok2.
    destruct (decode_cons r' (encode_runes rs) Hr') as [_ ->]. rewrite encode_runes_snoc. by apply IH.
  - destruct (forbidden_control r) eqn:Hf; [done|].
    eapply scan_state_push; [exact Hok|done|]. intros Hok2. rewrite encode_runes_snoc. by apply IH.
Qed.

Lemma scan_word_runes fuel pos rs vs :
  scan_state_ok vs rs ->
  scan_runes_ok true (scan_word_loop fuel start pos (encode_runes rs) (encode_runes vs)).
Proof.
  revert pos rs vs; induction fuel as [|fuel IH]; intros pos rs vs Hok; [done|].
  cbn [scan_word_loop].
  assert (Hdone : scan_runes_ok true (word_done start pos (encode_runes rs) (encode_runes vs))).
  { unfold word_done. case_bool_decide; [done|]. by apply scan_state_done. }
  destruct rs as [|r rs]; [exact Hdone|].
  pose proof (ss_rs _ _ Hok) as Hv. apply Forall_cons in Hv as [Hr Hv].
  cbn [encode_runes] in *. rewrite (bool_decide_false (_ = "")) by apply encode_rune_nonempty.
  destruct (decode_cons r (encode_runes rs) Hr) as [-> ->]. cbn zeta.
  assert (Hok' : scan_state_ok vs rs) by (destruct Hok; by split).
  destruct (word_break r) eqn:Hb; [exact Hdone|].
  destruct (IsControl r) eqn:Hc; [done|]. destruct (_ || _); [done|]. destruct (_ || _); [done|].
  destruct (r =? 92).
  - destruct rs as [|r' rs]; [cbn; done|]. apply Forall_cons in Hv as [Hr' Hv].
    rewrite scan_escaped_runes by done. destruct (forbidden_control r') eqn:Hf; [done|]. cbn.
    eapply scan_state_push; [exact Hok'|done|]. intros Hok2.
    destruct (decode_cons r' (encode_runes rs) Hr') as [_ ->]. rewrite encode_runes_snoc. by apply IH.
  - eapply scan_state_push; [exact Hok|by unfold forbidden_control; rewrite Hc|]. intros Hok2.
    rewrite encode_runes_snoc. by apply IH.
Qed.
End ScanRunes.

Definition token_ok (t : token) : Prop :=
  match t_kind t with
  | tokenWord => value_ok (t_text t) /\ t_text t <> ""
  | tokenQuoted => value_ok (t_text t)
  | tokenComparison => exists op, t_text t = op_string op
  | tokenColon => t_text t = ":"
  | tokenMinus => t_text t = "-"
  end.

Lemma encode_byte r : 0 <= r < 128 -> encode_runes [r] = String (chr r) "".
Proof. intros H. cbn. by rewrite encode_ascii, append_nil_r. Qed.

Lemma slen_nonneg s : 0 <= slen s.
Proof. unfold slen. lia. Qed.

Lemma slen_append s t : slen (s +:+ t) = slen s + slen t.
Proof. unfold slen. rewrite append_length. lia. Qed.

(** A byte test is the rune test for ASCII. *)
Lemma has_prefix_ascii_rune r rs b :
  valid_rune r = true -> 0 <= b < 128 ->
  has_prefix (encode_runes (r :: rs)) (String (chr b) "") = true -> r = b.
Proof.
  intros Hr Hb Hp. apply has_prefix_spec in Hp as (t & Ht).
  pose proof (decode_encode r (encode_runes rs) Hr) as Hd.
  change (encode_runes (r :: rs)) with (encode_rune r +:+ encode_runes rs) in Ht.
  rewrite Ht, append_cons in Hd. cbn in Hd. rewrite byte_val_chr in Hd by lia.
  destruct (Z.ltb_spec b 128); [|lia]. by injection Hd.
Qed.

Lemma lex_token_tokens r pos rs cs :
  valid_runes (r :: rs) -> IsControl r = false ->
  match lex_token r (rune_len r) pos (encode_runes (r :: rs)) cs with
  | Ok (t, rest') => token_ok t /\ exists rs', rest' = encode_runes rs' /\ valid_runes rs'
  | Err _ => True
  end.
Proof.
  intros Hv Hc. apply Forall_cons in Hv as [Hr Hv]. unfold lex_token. cbn zeta.
  destruct (decode_cons r (encode_runes rs) Hr) as [_ Hsd].
  change (encode_runes (r :: rs)) with (encode_rune r +:+ encode_runes rs).
  assert (Hst : forall ws : list Z, valid_runes ws -> scan_state_ok [] ws) by (intros; split; [constructor|constructor|by vm_compute|done]).
  rewrite Hsd.
  destruct (_ && cs); [split; [done|by exists rs]|].
  destruct (r =? 58); [split; [done|by exists rs]|].
  destruct ((r =? 62) || (r =? 60) || (r =? 61)) eqn:Hop.
  { destruct (has_prefix (encode_runes rs) "=") eqn:Ep; cbn [andb].
    - destruct rs as [|r' rs]; [done|]. apply Forall_cons in Hv as [Hr' Hv].
      assert (r' = 61) as -> by (eapply has_prefix_ascii_rune; [done| |exact Ep]; lia).
      assert (H61 : sdrop 1 (encode_runes (61 :: rs)) = encode_runes rs)
        by by apply (decode_cons 61 (encode_runes rs)).
      destruct (negb (r =? 61)) eqn:E; bool_cases; try lia; subst; split;
        try (exists (61 :: rs); split; [done|by constructor]); try (by exists rs);
        first [by exists OpGreaterEqual|by exists OpLessEqual|by exists OpEqual].
    - bool_cases; subst; split; try (by exists rs);
        first [by exists OpGreater|by exists OpLess|by exists OpEqual]. }
  destruct (r =? 34) eqn:Eq.
  - apply Z.eqb_eq in Eq. subst r. unfold scanQuoted.
    replace (sdrop 1 (encode_rune 34 +:+ encode_runes rs)) with (encode_runes rs)
      by (symmetry; apply Hsd).
    pose proof (scan_quoted_runes pos (S (String.length (encode_rune 34 +:+ encode_runes rs)))
      (pos + 1) rs [] (Hst _ Hv)) as H.
    destruct (scan_quoted_loop _ _ _ _ _) as [[[v e] rest']|e]; cbn in *; [|done].
    destruct H as (us & rs' & -> & H1 & H2 & H3 & _ & -> & H4). split; [|by exists rs'].
    apply value_ok_runes. by exists us.
  - unfold scanWord.
    pose proof (scan_word_runes pos (S (String.length (encode_rune r +:+ encode_runes rs)))
      pos (r :: rs) [] (Hst _ (Forall_cons_2 _ _ _ Hr Hv))) as H.
    destruct (scan_word_loop _ _ _ _ _) as [[[v e] rest']|e]; cbn in *; [|done].
    destruct H as (us & rs' & -> & H1 & H2 & H3 & H5 & -> & H4). split; [|by exists rs'].
    split; [apply value_ok_runes; by exists us|]. by apply H5.
Qed.

Lemma lex_loop_tokens f pos rs cs toks all :
  valid_runes rs -> Forall token_ok toks ->
  lex_loop f pos (encode_runes rs) cs toks = Ok all -> Forall token_ok all.
Proof.
  revert pos rs cs toks; induction f as [|f IH]; intros pos rs cs toks Hv Ht H.
  { cbn in H. destruct (bool_decide _); [|done]. by injection H as <-. }
  cbn [lex_loop] in H. destruct rs as [|r rs]; [by injection H as <-|].
  pose proof (encode_rune_nonempty r (encode_runes rs)) as Hne.
  rewrite bool_decide_false in H by exact Hne.
  pose proof Hv as Hv'. apply Forall_cons in Hv' as [Hr Hv'].
  destruct (decode_cons r (encode_runes rs) Hr) as [Hd Hsd].
  change (encode_runes (r :: rs)) with (encode_rune r +:+ encode_runes rs) in H.
  rewrite Hd, Hsd in H. destruct (isQuerySpace r); [by eapply IH|].
  destruct (IsControl r) eqn:Hc; [done|].
  pose proof (lex_token_tokens r pos rs cs Hv Hc) as Htok.
  change (encode_runes (r :: rs)) with (encode_rune r +:+ encode_runes rs) in Htok.
  destruct (lex_token _ _ _ _ _) as [[t rest']|e]; cbn in H; [|done].
  destruct Htok as (Htok & rs' & -> & Hrs'). destruct (_ <? _); [done|].
  eapply IH; [exact Hrs'| |exact H]. apply Forall_app. auto.
Qed.

(** What [lex] returns: at most 64 tokens with acceptable texts, in order and
    apart from each other within the input. *)
Lemma lex_ok input toks :
  lex input = Ok toks ->
  Forall token_ok toks /\ Z.of_nat (length toks) <= MaxTokens /\
  spans_ok 0 toks (slen input) /\ slen input <= MaxQueryBytes /\ valid_string input = true.
Proof.
  unfold lex. intros H. guards_in H. bool_simpl.
  pose proof (lex_from_sound 0 input true []) as Hs. unfold lex_from in Hs. rewrite H in Hs.
  destruct Hs as (new & -> & Hs & Hl).
  split_and!; try done; [|by apply Hl].
  pose proof Hc0 as Hv. apply valid_string_spec in Hv as (rs & Hrs & ->).
  by eapply (lex_loop_tokens _ _ rs).
Qed.

Lemma lex_real_error input e : lex input = Err e -> real_error e.
Proof.
  unfold lex. intros H. destruct (_ <? _); [by injection H as <-|].
  destruct (valid_string input); [|by injection H as <-].
  pose proof (lex_from_sound 0 input true []) as Hs. unfold lex_from in Hs. by rewrite H in Hs.
Qed.

(** * Lexing canonical spellings *)

(** What may follow a bare word. *)
Definition ends_word (tail : string) : Prop :=
  tail = "" \/ word_break (fst (decode_rune tail)) = true.

Lemma special_in r : r ∈ special_runes <->
  r = 92 \/ r = 34 \/ r = 58 \/ r = 60 \/ r = 62 \/ r = 61 \/ r = 40 \/ r = 41 \/ r = 42 \/
  r = 94 \/ r = 123 \/ r = 125.
Proof. unfold special_runes. rewrite !elem_of_cons, elem_of_nil. tauto. Qed.

Lemma needs_escape_false first r :
  needs_escape first r = false ->
  isQuerySpace r = false /\ ~ (r ∈ special_runes) /\ (first = true -> r <> 45).
Proof.
  unfold needs_escape. intros H. bool_simpl. split_and!; try done.
  intros ->. cbn in *. by bool_simpl.
Qed.

Lemma scan_escaped_cons pos r t :
  valid_rune r = true -> forbidden_control r = false ->
  scan_escaped pos (encode_rune r +:+ t) = Ok (r, rune_len r).
Proof.
  intros Hr Hf. unfold scan_escaped. rewrite bool_decide_false by apply encode_rune_nonempty.
  rewrite decode_encode by done. by rewrite Hf.
Qed.

Lemma sdrop_1 c t : sdrop 1 (String c t) = t.
Proof. apply (sdrop_append (String c "") t). Qed.

Lemma slen_cons c t : slen (String c t) = 1 + slen t.
Proof. unfold slen. cbn [String.length]. lia. Qed.

Lemma decode_backslash t : decode_rune (String "\" t) = (92, 1%nat).
Proof. reflexivity. Qed.

Lemma slen_encode r : valid_rune r = true -> slen (encode_rune r) = Z.of_nat (rune_len r).
Proof. intros Hr. unfold slen. by rewrite rune_len_encode. Qed.

Lemma slen_encode_app vs r rs :
  slen (encode_runes (vs ++ [r])) <= slen (encode_runes (vs ++ r :: rs)).
Proof.
  replace (vs ++ r :: rs) with ((vs ++ [r]) ++ rs) by by rewrite <- app_assoc.
  rewrite (encode_runes_app (vs ++ [r])), slen_append. pose proof (slen_nonneg (encode_runes rs)). lia.
Qed.

(** Two scan results that differ in how the end position is written. *)
Ltac scan_end :=
  match goal with |- Ok (_, ?p, _) = Ok (_, ?q, _) => replace q with p by lia; reflexivity end.

Lemma scan_word_escape rs fuel start pos vs first tail :
  valid_runes rs -> plain_runes rs -> slen (encode_runes (vs ++ rs)) <= MaxValueBytes ->
  ends_word tail -> (String.length (escape_runes first rs +:+ tail) < fuel)%nat ->
  encode_runes (vs ++ rs) <> "" ->
  scan_word_loop fuel start pos (escape_runes first rs +:+ tail) (encode_runes vs) =
    Ok (encode_runes (vs ++ rs), pos + slen (escape_runes first rs), tail).
Proof.
  intros Hv Hp. revert fuel pos vs first.
  induction rs as [|r rs IH]; intros fuel pos vs first Hsz Hend Hf Hne;
    (destruct fuel as [|fuel]; [lia|]).
  - rewrite app_nil_r in *. cbn [escape_runes] in *. rewrite append_nil_l in *.
    replace (pos + slen "") with pos by (unfold slen; cbn; lia).
    assert (Hd : word_done start pos tail (encode_runes vs) = Ok (encode_runes vs, pos, tail))
      by (unfold word_done; by rewrite bool_decide_false).
    cbn [scan_word_loop]. case_bool_decide as Ht; [exact Hd|].
    destruct Hend as [|Hend]; [done|]. destruct (decode_rune tail) as [r n]. cbn in Hend.
    by rewrite Hend.
  - apply Forall_cons in Hv as [Hr Hv]. apply Forall_cons in Hp as [Hpr Hp].
    pose proof (slen_encode_app vs r rs) as Hle.
    assert (Hle' : slen (encode_runes vs +:+ encode_rune r) <= MaxValueBytes)
      by (rewrite encode_runes_snoc; lia).
    assert (Hpush : vs ++ r :: rs = (vs ++ [r]) ++ rs) by by rewrite <- app_assoc.
    assert (Hlen : (0 < String.length (encode_rune r))%nat)
      by (rewrite rune_len_encode by done; apply rune_len_pos).
    cbn [escape_runes] in *. destruct (needs_escape first r) eqn:En.
    + rewrite <- !append_assoc, append_cons, append_nil_l in *.
      cbn [scan_word_loop]. rewrite bool_decide_false by done. rewrite decode_backslash. cbn zeta.
      cbn [String.length] in Hf. rewrite append_length in Hf.
      rewrite sdrop_1.
      rewrite scan_escaped_cons by done. cbn -[encode_runes escape_runes].
      destruct (decode_cons r (escape_runes false rs +:+ tail) Hr) as [_ ->].
      rewrite (proj2 (Z.ltb_ge _ _)) by lia. rewrite encode_runes_snoc, Hpush in *.
      rewrite IH; try done; [|lia].
      rewrite !slen_append, slen_encode by done. change (slen "\") with 1. scan_end.
    + apply needs_escape_false in En as (Hsp & Hspec & _). rewrite special_in in Hspec.
      rewrite append_nil_l, <- !append_assoc in *.
      cbn [scan_word_loop]. rewrite bool_decide_false by apply encode_rune_nonempty.
      destruct (decode_cons r (escape_runes false rs +:+ tail) Hr) as [-> ->]. cbn zeta.
      assert (Hb : word_break r = false).
      { unfold word_break. rewrite Hsp. repeat (rewrite (proj2 (Z.eqb_neq _ _)) by lia). done. }
      assert (Hc : IsControl r = false).
      { unfold forbidden_control in Hpr. rewrite Hsp, andb_true_r in Hpr. done. }
      rewrite Hb, Hc. repeat (rewrite (proj2 (Z.eqb_neq _ _)) by lia). cbn [orb].
      rewrite (proj2 (Z.ltb_ge _ _)) by lia. rewrite encode_runes_snoc, Hpush in *.
      rewrite append_length in Hf. rewrite IH; try done; [|lia].
      rewrite slen_append, slen_encode by done. scan_end.
Qed.

(** Bytes beyond ASCII are never escaped. *)
Definition high_bytes (s : string) : bool := all_bytes (fun c => 128 <=? byte_val c) s.

Lemma encode_high r : valid_rune r = true -> 128 <= r -> high_bytes (encode_rune r) = true.
Proof.
  intros Hr Hlo. unfold encode_rune. rewrite Hr. unfold valid_rune in Hr.
  assert (0 <= r <= 1114111) by (bool_cases; lia).
  rewrite (proj2 (Z.ltb_ge _ _)) by lia.
  unfold high_bytes. destruct (r <? 2048) eqn:E1; [|destruct (r <? 65536) eqn:E2]; bool_simpl;
    cbn [all_bytes]; rune_arith; done.
Qed.

Lemma escape_quoted_high s t : high_bytes s = true -> escape_quoted (s +:+ t) = s +:+ escape_quoted t.
Proof.
  induction s as [|c s IH]; intros H; [done|]. cbn in H. bool_simpl.
  rewrite !append_cons. cbn [escape_quoted]. rewrite IH by done.
  assert (Hq : forall d, byte_val d < 128 -> c <> d) by (intros d Hd ->; lia).
  rewrite !bool_decide_false; [done|apply Hq; by vm_compute|apply Hq; by vm_compute].
Qed.

Lemma escape_quoted_encode r t :
  valid_rune r = true ->
  escape_quoted (encode_rune r +:+ t) =
    (if (r =? 92) || (r =? 34) then String "\" "" else "") +:+ encode_rune r +:+ escape_quoted t.
Proof.
  intros Hr. destruct (Z_lt_le_dec r 128) as [Hlo|Hhi].
  - assert (0 <= r) by (unfold valid_rune in Hr; bool_cases; lia).
    rewrite encode_ascii, append_cons, append_nil_l by lia. cbn [escape_quoted].
    assert (Hc : forall z, 0 <= z < 128 -> bool_decide (chr r = chr z) = (r =? z)).
    { intros z Hz. destruct (Z.eqb_spec r z) as [->|Hn]; [by rewrite bool_decide_true|].
      apply bool_decide_false. intros Heq. apply Hn.
      rewrite <- (byte_val_chr r), <- (byte_val_chr z) by lia. by rewrite Heq. }
    change "\"%char with (chr 92). change quote_char with (chr 34).
    rewrite !Hc by lia. destruct (_ || _); by rewrite ?append_cons, ?append_nil_l.
  - rewrite escape_quoted_high by by apply encode_high.
    by rewrite !(proj2 (Z.eqb_neq _ _)) by lia.
Qed.

Lemma scan_quoted_escape rs fuel start pos vs tail :
  valid_runes rs -> plain_runes rs -> slen (encode_runes (vs ++ rs)) <= MaxValueBytes ->
  (String.length (escape_quoted (encode_runes rs)) < fuel)%nat ->
  scan_quoted_loop fuel start pos (escape_quoted (encode_runes rs) +:+ String quote_char tail)
      (encode_runes vs) =
    Ok (encode_runes (vs ++ rs), pos + slen (escape_quoted (encode_runes rs)) + 1, tail).
Proof.
  intros Hv Hp. revert fuel pos vs.
  induction rs as [|r rs IH]; intros fuel pos vs Hsz Hf; (destruct fuel as [|fuel]; [lia|]).
  - rewrite app_nil_r in *. change (escape_quoted (encode_runes [])) with "".
    rewrite append_nil_l. cbn [scan_quoted_loop]. rewrite bool_decide_false by done.
    change (decode_rune (String quote_char tail)) with (34, 1%nat). cbn beta iota zeta.
    rewrite sdrop_1. cbn [Z.eqb Pos.eqb].
    rewrite (proj2 (Z.ltb_ge _ _)) by lia. change (slen "") with 0. scan_end.
  - apply Forall_cons in Hv as [Hr Hv]. apply Forall_cons in Hp as [Hpr Hp].
    pose proof (slen_encode_app vs r rs) as Hle.
    assert (Hle' : slen (encode_runes vs +:+ encode_rune r) <= MaxValueBytes)
      by (rewrite encode_runes_snoc; lia).
    assert (Hpush : vs ++ r :: rs = (vs ++ [r]) ++ rs) by by rewrite <- app_assoc.
    assert (Hlen : (0 < String.length (encode_rune r))%nat)
      by (rewrite rune_len_encode by done; apply rune_len_pos).
    change (encode_runes (r :: rs)) with (encode_rune r +:+ encode_runes rs) in *.
    rewrite escape_quoted_encode in * by done.
    destruct ((r =? 92) || (r =? 34)) eqn:En.
    + rewrite <- !append_assoc, !append_cons, !append_nil_l in *.
      cbn [scan_quoted_loop]. rewrite bool_decide_false by done. rewrite decode_backslash. cbn zeta.
      cbn [String.length] in Hf. rewrite append_length in Hf. rewrite sdrop_1.
      rewrite scan_escaped_cons by done. cbn -[encode_runes escape_quoted].
      destruct (decode_cons r (escape_quoted (encode_runes rs) +:+ String quote_char tail) Hr)
        as [_ ->].
      rewrite (proj2 (Z.ltb_ge _ _)) by lia. rewrite encode_runes_snoc, Hpush in *.
      rewrite IH; try done; [|lia].
      rewrite slen_cons, !slen_append, slen_encode by done. scan_end.
    + rewrite !append_nil_l, <- !append_assoc in *. bool_simpl.
      cbn [scan_quoted_loop]. rewrite bool_decide_false by apply encode_rune_nonempty.
      destruct (decode_cons r (escape_quoted (encode_runes rs) +:+ String quote_char tail) Hr)
        as [-> ->]. cbn zeta.
      repeat (rewrite (proj2 (Z.eqb_neq _ _)) by lia). rewrite Hpr.
      rewrite (proj2 (Z.ltb_ge _ _)) by lia. rewrite encode_runes_snoc, Hpush in *.
      rewrite append_length in Hf. rewrite IH; try done; [|lia].
      rewrite slen_append, slen_encode by done. scan_end.
Qed.

(** One more token fits. *)
Definition room (toks : list token) : Prop := Z.of_nat (length toks) < MaxTokens.

Lemma lex_from_token pos rest cs toks r n t rest' :
  rest <> "" -> decode_rune rest = (r, n) -> isQuerySpace r = false -> IsControl r = false ->
  lex_token r n pos rest cs = Ok (t, rest') -> room toks ->
  lex_from pos rest cs toks = lex_from (t_end t) rest' false (toks ++ [t]).
Proof.
  intros Hne Hd Hsp Hc Ht Hroom. rewrite lex_from_unfold, bool_decide_false by done.
  rewrite Hd, Hsp, Hc, Ht. cbn -[lex_from]. rewrite (proj2 (Z.ltb_ge _ _)); [done|].
  unfold room in Hroom. rewrite length_app. cbn [length]. lia.
Qed.

Lemma lex_end pos cs toks : lex_from pos "" cs toks = Ok toks.
Proof. reflexivity. Qed.

Lemma lex_space pos rest cs toks :
  lex_from pos (String " " rest) cs toks = lex_from (pos + 1) rest true toks.
Proof.
  rewrite lex_from_unfold. change (decode_rune (String " " rest)) with (32, 1%nat).
  cbn beta iota zeta. by rewrite sdrop_1.
Qed.

Lemma lex_minus pos rest toks :
  room toks ->
  lex_from pos (String "-" rest) true toks =
  lex_from (pos + 1) rest false (toks ++ [Token tokenMinus "-" pos (pos + 1)]).
Proof.
  intros Hr. apply (lex_from_token _ _ _ _ 45 1 (Token tokenMinus "-" pos (pos + 1)) rest);
    done.
Qed.

Lemma lex_colon pos rest cs toks :
  room toks ->
  lex_from pos (String ":" rest) cs toks =
  lex_from (pos + 1) rest false (toks ++ [Token tokenColon ":" pos (pos + 1)]).
Proof.
  intros Hr. apply (lex_from_token _ _ _ _ 58 1 (Token tokenColon ":" pos (pos + 1)) rest);
    done.
Qed.

Lemma lex_op op pos rest cs toks :
  room toks -> has_prefix rest "=" = false ->
  lex_from pos (op_string op +:+ rest) cs toks =
  lex_from (pos + slen (op_string op)) rest false
    (toks ++ [Token tokenComparison (op_string op) pos (pos + slen (op_string op))]).
Proof.
  intros Hr Hp.
  assert (Htok : forall r, decode_rune (op_string op +:+ rest) = (r, 1%nat) ->
    isQuerySpace r = false -> IsControl r = false -> op_string op +:+ rest <> "" ->
    lex_token r 1 pos (op_string op +:+ rest) cs =
      Ok (Token tokenComparison (op_string op) pos (pos + slen (op_string op)), rest) ->
    lex_from pos (op_string op +:+ rest) cs toks =
    lex_from (pos + slen (op_string op)) rest false
      (toks ++ [Token tokenComparison (op_string op) pos (pos + slen (op_string op))])).
  { intros r Hd H1 H2 H3 H4.
    apply (lex_from_token _ _ _ _ r 1
      (Token tokenComparison (op_string op) pos (pos + slen (op_string op))) rest); done. }
  destruct op; [apply (Htok 61)|apply (Htok 62)|apply (Htok 62)|apply (Htok 60)|apply (Htok 60)];
    try reflexivity; try done; unfold lex_token; cbn [op_string];
    rewrite !append_cons, append_nil_l, !sdrop_1; cbn beta iota zeta;
    rewrite ?Hp; try reflexivity.
  all: change (has_prefix (String "=" rest) "=") with true; rewrite ?sdrop_1;
    replace (pos + slen _) with (pos + Z.of_nat 1 + 1) by (unfold slen; cbn; lia); reflexivity.
Qed.

Lemma escapeBare_runes rs : valid_runes rs -> escapeBare (encode_runes rs) = escape_runes true rs.
Proof. intros H. unfold escapeBare. by rewrite runes_encode. Qed.

Lemma lex_word v pos tail cs toks :
  value_ok v -> v <> "" -> ends_word tail -> room toks ->
  lex_from pos (escapeBare v +:+ tail) cs toks =
  lex_from (pos + slen (escapeBare v)) tail false
    (toks ++ [Token tokenWord v pos (pos + slen (escapeBare v))]).
Proof.
  intros Hv Hne Hend Hroom. apply value_ok_runes in Hv as (rs & -> & Hrs & Hp & Hsz).
  rewrite escapeBare_runes by done.
  assert (Hscan : scanWord pos (escape_runes true rs +:+ tail) =
    Ok (encode_runes rs, pos + slen (escape_runes true rs), tail))
    by (apply (scan_word_escape rs _ _ _ []); auto; lia).
  assert (Hhead : exists r n, decode_rune (escape_runes true rs +:+ tail) = (r, n) /\
    escape_runes true rs +:+ tail <> "" /\ isQuerySpace r = false /\ IsControl r = false /\
    r <> 45 /\ r <> 58 /\ r <> 62 /\ r <> 60 /\ r <> 61 /\ r <> 34).
  { destruct rs as [|r rs]; [done|]. cbn [escape_runes].
    apply Forall_cons in Hrs as [Hr Hrs]. apply Forall_cons in Hp as [Hpr Hp].
    destruct (needs_escape true r) eqn:En; rewrite <- !append_assoc.
    - exists 92, 1%nat. rewrite append_cons. done.
    - apply needs_escape_false in En as (Hsp & Hspec & H45). rewrite special_in in Hspec.
      specialize (H45 eq_refl). rewrite append_nil_l. exists r, (rune_len r).
      rewrite decode_encode by done. unfold forbidden_control in Hpr.
      rewrite Hsp, andb_true_r in Hpr. split_and!; try done; try lia. apply encode_rune_nonempty. }
  destruct Hhead as (r & n & Hd & Hne' & Hsp & Hc & H1 & H2 & H3 & H4 & H5 & H6).
  apply (lex_from_token _ _ _ _ r n (Token tokenWord (encode_runes rs) pos
    (pos + slen (escape_runes true rs))) tail); try done.
  unfold lex_token. repeat (rewrite (proj2 (Z.eqb_neq _ _)) by lia). cbn -[slen scanWord].
  by rewrite Hscan.
Qed.

Lemma lex_quoted v pos tail cs toks :
  value_ok v -> room toks ->
  lex_from pos (quoted_value v +:+ tail) cs toks =
  lex_from (pos + slen (quoted_value v)) tail false
    (toks ++ [Token tokenQuoted v pos (pos + slen (quoted_value v))]).
Proof.
  intros Hv Hroom. apply value_ok_runes in Hv as (rs & -> & Hrs & Hp & Hsz).
  set (v := encode_runes rs) in *.
  assert (Hscan : scanQuoted pos (quoted_value v +:+ tail) =
    Ok (v, pos + slen (quoted_value v), tail)).
  { unfold scanQuoted, quoted_value.
    rewrite !append_cons, <- append_assoc, append_cons, append_nil_l, sdrop_1.
    pose proof (scan_quoted_escape rs (S (String.length (String quote_char (escape_quoted v +:+
      String quote_char tail)))) pos (pos + 1) [] tail Hrs Hp Hsz) as H.
    fold v in H. cbn [encode_runes app] in H. rewrite H.
    - rewrite slen_cons, slen_append. change (slen (String quote_char "")) with 1. scan_end.
    - cbn [String.length]. rewrite append_length. lia. }
  apply (lex_from_token _ _ _ _ 34 1 (Token tokenQuoted v pos (pos + slen (quoted_value v))) tail);
    try done.
  change (lex_token 34 1 pos (quoted_value v +:+ tail) cs) with
    ('(value, stop, rest') ← scanQuoted pos (quoted_value v +:+ tail);
     Ok (Token tokenQuoted value pos stop, rest')).
  by rewrite Hscan.
Qed.

(** Both spellings of a value. *)
Lemma lex_value v quoted pos tail cs toks :
  value_ok v -> v <> "" -> (quoted = false -> ends_word tail) -> room toks ->
  lex_from pos (write_value v quoted +:+ tail) cs toks =
  lex_from (pos + slen (write_value v quoted)) tail false
    (toks ++ [Token (if quoted then tokenQuoted else tokenWord) v pos
                (pos + slen (write_value v quoted))]).
Proof.
  intros Hv Hne Hend Hr. destruct quoted; [by apply lex_quoted|by apply lex_word; auto].
Qed.

Lemma write_value_not_equals v quoted tail :
  value_ok v -> v <> "" -> has_prefix (write_value v quoted +:+ tail) "=" = false.
Proof.
  intros Hv Hne. destruct quoted; [done|].
  apply value_ok_runes in Hv as (rs & -> & Hrs & _). cbn [write_value].
  rewrite escapeBare_runes by done. destruct rs as [|r rs]; [done|]. cbn [escape_runes].
  apply Forall_cons in Hrs as [Hr Hrs].
  destruct (needs_escape true r) eqn:En; rewrite <- !append_assoc; [done|].
  rewrite append_nil_l. apply needs_escape_false in En as (_ & Hspec & _).
  destruct (has_prefix _ "=") eqn:E; [|done]. destruct Hspec. rewrite special_in.
  apply has_prefix_spec in E as (t & Ht).
  pose proof (decode_encode r (escape_runes false rs +:+ tail) Hr) as Hd. rewrite Ht in Hd.
  rewrite append_cons in Hd. cbn in Hd. injection Hd as <- _. vm_compute; tauto.
Qed.
