(* ===== verification/SearchParse.v ===== *)
(** The query parser ([core/searchquery/parser.go]) and its round trip with the
    canonical spelling. *)
From S2P Require Import Prelude GoStd Utf8 SearchQuery SearchLex.

Definition parseOperator (value : string) : option Operator :=
  if bool_decide (value = "=") then Some OpEqual
  else if bool_decide (value = ">") then Some OpGreater
  else if bool_decide (value = ">=") then Some OpGreaterEqual
  else if bool_decide (value = "<") then Some OpLess
  else if bool_decide (value = "<=") then Some OpLessEqual
  else None.

Definition isUnsupportedOperator (value : string) : bool :=
  existsb (String.eqb value) ["OR"; "AND"; "NOT"; "NEAR"].

Definition matchingFilterNames (value : string) : list string :=
  filter (fun name => has_prefix name value || has_prefix value name = true) FilterNames.

Definition is_value_token (t : token) : bool :=
  bool_decide (t_kind t = tokenWord) || bool_decide (t_kind t = tokenQuoted).

(** [clause] as [parseClause] has filled it before the first token's value. *)
Definition base_clause (negated : bool) (position : Z) : Clause :=
  MkClause ClauseText negated position "" TextAnywhere true "" OpEqual "" false "" false.

(** The value of a [field:] filter: operator and field value follow. *)
Definition parse_field_value (tokens : list token) (index : nat) (name : string)
    (value : token) (op : Operator) (clause : Clause) : result Error (Clause * nat) :=
  fail_if bool_decide (op <> OpEqual)
    with filterError (t_start value) name FieldOperatorMisplaced [] in
  let operatorIndex := S index in
  match tokens !! operatorIndex with
  | None => Err (filterError (t_start value) name FieldNeedsComparison [])
  | Some opTok =>
      fail_if bool_decide (t_kind opTok <> tokenComparison)
        with filterError (t_start value) name FieldNeedsComparison [] in
      match parseOperator (t_text opTok) with
      | None => Err (filterError (t_start opTok) name InvalidComparison [])
      | Some fieldOperator =>
          let fieldValueIndex := S operatorIndex in
          match tokens !! fieldValueIndex with
          | None => Err (filterError (t_start opTok) name FieldNeedsValue [])
          | Some fieldValue =>
              require is_value_token fieldValue
                else filterError (t_start fieldValue) name FieldInvalidValue [] in
              fail_if bool_decide (t_text fieldValue = "")
                with filterError (t_start fieldValue) name FieldEmptyValue [] in
              Ok (MkClause ClauseFilter (Negated clause) (Position clause) (Text clause)
                    (Field clause) false name fieldOperator (t_text value)
                    (bool_decide (t_kind value = tokenQuoted)) (t_text fieldValue)
                    (bool_decide (t_kind fieldValue = tokenQuoted)),
                  S fieldValueIndex)
          end
      end
  end.

(** The optional comparison operator after the colon: the operator and the index
    of the token after it. *)
Definition parse_comparison (tokens : list token) (index : nat) (nameToken : token)
    : result Error (Operator * nat) :=
  let name := t_text nameToken in
  match tokens !! index with
  | None => Err (filterError (t_start nameToken) name (FilterRequiresValue name) [])
  | Some t =>
      if bool_decide (t_kind t = tokenComparison) then
        match parseOperator (t_text t) with
        | None => Err (filterError (t_start t) name InvalidComparison [])
        | Some op =>
            match tokens !! S index with
            | None => Err (filterError (t_start nameToken) name (FilterRequiresValueAfter name op) [])
            | Some _ => Ok (op, S index)
            end
        end
      else Ok (OpEqual, index)
  end.

Definition comparable_filter (name : string) : bool :=
  existsb (String.eqb name) ["added"; "date"; "asn"].

Definition parseFilter (tokens : list token) (index : nat) (nameToken : token) (clause : Clause)
    : result Error (Clause * nat) :=
  let name := t_text nameToken in
  require IsFilterName name
    else filterError (t_start nameToken) name (UnknownFilter name) (matchingFilterNames name) in
  '(op, index) ← parse_comparison tokens (S (S index)) nameToken;
  fail_if bool_decide (op <> OpEqual) && negb (comparable_filter name)
    with filterError (from_option t_start 0 (tokens !! pred index)) name
           (ComparisonUnsupported name) [] in
  match tokens !! index with
  | None => Err (queryError 0 IndexOutOfRange)
  | Some value =>
      require is_value_token value
        else filterError (t_start value) name (FilterInvalidValue name) [] in
      fail_if bool_decide (t_text value = "")
        with filterError (t_start value) name (FilterEmptyValue name) [] in
      if bool_decide (name = "field") then
        parse_field_value tokens index name value op clause
      else if bool_decide (name = "title") || bool_decide (name = "content") then
        Ok (MkClause ClauseText (Negated clause) (Position clause) (t_text value)
              (if bool_decide (name = "title") then TextTitle else TextContent)
              (bool_decide (t_kind value = tokenWord)) (Filter clause) (Op clause)
              (Value clause) (Quoted clause) (FieldValue clause) (FieldValueQuoted clause),
            S index)
      else
        Ok (MkClause ClauseFilter (Negated clause) (Position clause) (Text clause)
              (Field clause) false name op (t_text value)
              (bool_decide (t_kind value = tokenQuoted)) (FieldValue clause)
              (FieldValueQuoted clause),
            S index)
  end.

(** A colon that directly follows the word. *)
Definition followed_by_colon (tokens : list token) (index : nat) (word : token) : bool :=
  match tokens !! S index with
  | Some t => bool_decide (t_kind t = tokenColon) && (t_start t =? t_end word)
  | None => false
  end.

(** The clause's first value, after an optional minus sign. *)
Definition parse_term (tokens : list token) (index : nat) (valueToken : token) (clause : Clause)
    : result Error (Clause * nat) :=
  require is_value_token valueToken else queryError (t_start valueToken) ExpectedTerm in
  fail_if bool_decide (t_text valueToken = "") with queryError (t_start valueToken) EmptyValue in
  if bool_decide (t_kind valueToken = tokenWord) && followed_by_colon tokens index valueToken then
    parseFilter tokens index valueToken clause
  else
    fail_if bool_decide (t_kind valueToken = tokenWord)
            && isUnsupportedOperator (t_text valueToken)
      with queryError (t_start valueToken) (OperatorUnsupported (t_text valueToken)) in
    Ok (MkClause ClauseText (Negated clause) (Position clause) (t_text valueToken)
          (Field clause) (bool_decide (t_kind valueToken = tokenWord)) (Filter clause)
          (Op clause) (Value clause) (Quoted clause) (FieldValue clause)
          (FieldValueQuoted clause),
        S index).

Definition parseClause (tokens : list token) (index : nat) : result Error (Clause * nat) :=
  match tokens !! index with
  | None => Err (queryError 0 IndexOutOfRange)
  | Some first =>
      if bool_decide (t_kind first = tokenMinus) then
        match tokens !! S index with
        | None => Err (queryError (t_start first) NegationNeedsTerm)
        | Some valueToken => parse_term tokens (S index) valueToken (base_clause true (t_start first))
        end
      else parse_term tokens index first (base_clause false (t_start first))
  end.

(** The clause that ended at [next] touches the token after it. *)
Definition touches (tokens : list token) (next : nat) : option Z :=
  match tokens !! next with
  | None => None
  | Some t =>
      if bool_decide (t_end <$> tokens !! pred next = Some (t_start t))
      then Some (t_start t) else None
  end.

Fixpoint parse_loop (fuel : nat) (tokens : list token) (index : nat) (q : Query)
    : result Error Query :=
  if (length tokens <=? index)%nat then Ok q
  else
    match fuel with
    | O => Err (queryError 0 OutOfFuel)
    | S fuel =>
        '(clause, next) ← parseClause tokens index;
        let q := q ++ [clause] in
        match touches tokens next with
        | Some pos => Err (queryError pos NotSeparated)
        | None => parse_loop fuel tokens next q
        end
    end.

Definition Parse (input : string) : result Error Query :=
  tokens ← lex input;
  parse_loop (length tokens) tokens 0 [].

(** * Well-formed queries *)

Definition wf_value (v : string) : Prop := value_ok v /\ v <> "".

(** The clauses that [Parse] produces: the fields that a kind does not use have
    their zero value, values are acceptable texts, a bare word is no operator of
    other search languages, and only some filters compare. *)
Definition wf_clause (c : Clause) : Prop :=
  match Kind c with
  | ClauseText =>
      wf_value (Text c) /\ Filter c = "" /\ Op c = OpEqual /\ Value c = "" /\
      Quoted c = false /\ FieldValue c = "" /\ FieldValueQuoted c = false /\
      (Field c = TextAnywhere -> Prefix c = true -> isUnsupportedOperator (Text c) = false)
  | ClauseFilter =>
      IsFilterName (Filter c) = true /\ Filter c <> "title" /\ Filter c <> "content" /\
      Text c = "" /\ Field c = TextAnywhere /\ Prefix c = false /\ wf_value (Value c) /\
      (if bool_decide (Filter c = "field") then wf_value (FieldValue c)
       else FieldValue c = "" /\ FieldValueQuoted c = false /\
            (Op c = OpEqual \/ comparable_filter (Filter c) = true))
  end.

Definition set_position (p : Z) (c : Clause) : Clause :=
  MkClause (Kind c) (Negated c) p (Text c) (Field c) (Prefix c) (Filter c) (Op c) (Value c)
    (Quoted c) (FieldValue c) (FieldValueQuoted c).

(** * The tokens of a canonical spelling *)

(** A token still without a position: kind, text and spelling. *)
Record piece : Type := Piece { p_kind : tokenKind; p_text : string; p_spelling : string }.

Definition value_piece (v : string) (quoted : bool) : piece :=
  Piece (if quoted then tokenQuoted else tokenWord) v (write_value v quoted).
Definition name_piece (name : string) : piece := Piece tokenWord name name.
Definition colon_piece : piece := Piece tokenColon ":" ":".
Definition minus_piece : piece := Piece tokenMinus "-" "-".
Definition op_piece (op : Operator) : piece :=
  Piece tokenComparison (op_string op) (op_string op).

Definition text_pieces (f : TextField) : list piece :=
  match f with
  | TextAnywhere => []
  | TextTitle => [name_piece "title"; colon_piece]
  | TextContent => [name_piece "content"; colon_piece]
  end.

Definition body_pieces (c : Clause) : list piece :=
  match Kind c with
  | ClauseText => text_pieces (Field c) ++ [value_piece (Text c) (negb (Prefix c))]
  | ClauseFilter =>
      [name_piece (Filter c); colon_piece] ++
      if bool_decide (Filter c = "field") then
        [value_piece (Value c) (Quoted c); op_piece (Op c);
         value_piece (FieldValue c) (FieldValueQuoted c)]
      else
        (if bool_decide (Op c = OpEqual) then [] else [op_piece (Op c)])
          ++ [value_piece (Value c) (Quoted c)]
  end.

Definition clause_pieces (c : Clause) : list piece :=
  (if Negated c then [minus_piece] else []) ++ body_pieces c.

Fixpoint spell (ps : list piece) : string :=
  match ps with [] => "" | p :: ps => p_spelling p +:+ spell ps end.

Fixpoint place (pos : Z) (ps : list piece) : list token :=
  match ps with
  | [] => []
  | p :: ps =>
      Token (p_kind p) (p_text p) pos (pos + slen (p_spelling p))
        :: place (pos + slen (p_spelling p)) ps
  end.

Lemma spell_app ps ps' : spell (ps ++ ps') = spell ps +:+ spell ps'.
Proof. induction ps as [|p ps IH]; [done|]. cbn [spell app]. by rewrite IH, append_assoc. Qed.

Lemma place_app pos ps ps' : place pos (ps ++ ps') = place pos ps ++ place (pos + slen (spell ps)) ps'.
Proof.
  revert pos; induction ps as [|p ps IH]; intros pos; cbn [place spell app].
  - by rewrite Z.add_0_r.
  - rewrite IH, slen_append. by rewrite Z.add_assoc.
Qed.

Lemma place_length pos ps : length (place pos ps) = length ps.
Proof. revert pos; induction ps as [|p ps IH]; intros pos; [done|]. cbn. by rewrite IH. Qed.

Lemma normalize_clause_spell c : normalize_clause c = spell (clause_pieces c).
Proof.
  unfold normalize_clause, clause_pieces, body_pieces. rewrite spell_app.
  f_equal; [by destruct (Negated c)|].
  destruct (Kind c).
  - rewrite spell_app. f_equal; [by destruct (Field c)|]. cbn. by rewrite append_nil_r.
  - rewrite spell_app. cbn [spell p_spelling name_piece colon_piece].
    rewrite append_nil_r, <- append_assoc. do 2 f_equal.
    case_bool_decide; [cbn; by rewrite append_nil_r|].
    rewrite spell_app. f_equal; [by case_bool_decide; cbn; rewrite ?append_nil_r|].
    cbn. by rewrite append_nil_r.
Qed.

(** How a piece is lexed: what must follow it, and that it is then one token. *)
Definition lexes (p : piece) (cs : bool) (tail : string) : Prop :=
  forall pos toks, room toks ->
    lex_from pos (p_spelling p +:+ tail) cs toks =
    lex_from (pos + slen (p_spelling p)) tail false
      (toks ++ [Token (p_kind p) (p_text p) pos (pos + slen (p_spelling p))]).

Fixpoint lexes_all (ps : list piece) (cs : bool) (tail : string) : Prop :=
  match ps with
  | [] => True
  | p :: ps => lexes p cs (spell ps +:+ tail) /\ lexes_all ps false tail
  end.

Lemma lex_pieces ps cs tail pos toks :
  lexes_all ps cs tail -> ps <> [] ->
  Z.of_nat (length toks) + Z.of_nat (length ps) <= MaxTokens ->
  lex_from pos (spell ps +:+ tail) cs toks =
  lex_from (pos + slen (spell ps)) tail false (toks ++ place pos ps).
Proof.
  revert cs pos toks; induction ps as [|p ps IH]; intros cs pos toks Hl Hne Hroom; [done|].
  destruct Hl as [Hp Hl]. cbn [spell place length] in *. rewrite <- append_assoc.
  rewrite Hp by (unfold room; lia). destruct ps as [|p' ps].
  - cbn [spell place]. by rewrite append_nil_l, append_nil_r.
  - rewrite (IH false); [|done|done|rewrite length_app; cbn [length] in *; lia].
    rewrite <- app_assoc, slen_append, Z.add_assoc. done.
Qed.

(** [wf_value] as a test, and the bare texts that are their own spelling. *)
Definition good_value (v : string) : bool :=
  valid_string v && forallb (fun r => negb (forbidden_control r)) (runes v)
  && (slen v <=? MaxValueBytes) && negb (String.eqb v "").

Lemma good_value_ok v : good_value v = true -> wf_value v.
Proof.
  unfold good_value. intros H. bool_simpl. split; [split|]; try done.
  - apply Forall_forall. intros r Hr.
    match goal with H : forallb _ _ = true |- _ => rewrite forallb_forall in H;
      apply negb_true_iff, H end. by apply list_elem_of_In.
  - by apply String.eqb_neq.
Qed.

Definition plain_name (v : string) : bool := good_value v && String.eqb (escapeBare v) v.

Lemma plain_name_ok v : plain_name v = true -> wf_value v /\ escapeBare v = v.
Proof.
  unfold plain_name. intros H. bool_simpl. split; [by apply good_value_ok|by apply String.eqb_eq].
Qed.

Lemma filter_names_plain : forallb plain_name FilterNames = true.
Proof. vm_compute. reflexivity. Qed.

Lemma filter_name_ok name :
  IsFilterName name = true -> wf_value name /\ escapeBare name = name.
Proof.
  intros H. apply plain_name_ok. unfold IsFilterName in H.
  apply existsb_exists in H as (n & Hin & Heq). apply String.eqb_eq in Heq as ->.
  pose proof filter_names_plain as Hall. rewrite forallb_forall in Hall. by apply Hall.
Qed.

Lemma ends_word_char c tail : (byte_val c ∈ [32; 58; 34; 62; 60; 61]) -> ends_word (String c tail).
Proof.
  intros H. right. unfold decode_rune.
  assert (Hlt : (byte_val c <? 128) = true)
    by (repeat (apply elem_of_cons in H as [->|H]; [done|]); by apply not_elem_of_nil in H).
  rewrite Hlt. cbn [fst].
  repeat (apply elem_of_cons in H as [->|H]; [done|]). by apply not_elem_of_nil in H.
Qed.

Lemma ends_word_op op tail : ends_word (op_string op +:+ tail).
Proof. destruct op; apply ends_word_char; vm_compute; set_solver. Qed.

Lemma lexes_value v quoted cs tail :
  wf_value v -> (quoted = false -> ends_word tail) -> lexes (value_piece v quoted) cs tail.
Proof. intros [Hv Hne] Hend pos toks Hr. cbn. by apply lex_value. Qed.

Lemma lexes_name name cs tail :
  IsFilterName name = true -> lexes (name_piece name) cs (String ":" tail).
Proof.
  intros Hn pos toks Hr. apply filter_name_ok in Hn as [[Hv Hne] He]. cbn.
  pose proof (lex_word name pos (String ":" tail) cs toks Hv Hne) as H.
  rewrite He in H. apply H; [|done]. apply ends_word_char. vm_compute. set_solver.
Qed.

Lemma lexes_colon cs tail : lexes colon_piece cs tail.
Proof. intros pos toks Hr. cbn. by apply lex_colon. Qed.

Lemma lexes_op op cs tail : has_prefix tail "=" = false -> lexes (op_piece op) cs tail.
Proof. intros Hp pos toks Hr. cbn. by apply lex_op. Qed.

Lemma lexes_minus tail : lexes minus_piece true tail.
Proof. intros pos toks Hr. cbn. by apply lex_minus. Qed.

Lemma lexes_body c cs tail : wf_clause c -> ends_word tail -> lexes_all (body_pieces c) cs tail.
Proof.
  unfold wf_clause, body_pieces. intros H Hend. destruct (Kind c).
  - destruct H as (Hv & _). destruct (Field c); cbn [text_pieces app lexes_all spell].
    + split; [|done]. by apply lexes_value.
    + split_and!; [by apply lexes_name|apply lexes_colon|by apply lexes_value|done].
    + split_and!; [by apply lexes_name|apply lexes_colon|by apply lexes_value|done].
  - destruct H as (Hn & _ & _ & _ & _ & _ & Hv & Hrest). cbn [app lexes_all spell].
    split; [by apply lexes_name|]. split; [apply lexes_colon|].
    destruct (bool_decide (Filter c = "field")); cbn [lexes_all spell p_spelling value_piece op_piece].
    + split_and!; [|apply lexes_op; rewrite <- append_assoc; by apply write_value_not_equals; apply Hrest
                   |by apply lexes_value|done].
      apply lexes_value; [done|]. intros _. rewrite <- append_assoc. apply ends_word_op.
    + case_bool_decide; cbn [app lexes_all spell p_spelling value_piece].
      * split; [|done]. by apply lexes_value.
      * split_and!; [|by apply lexes_value|done]. apply lexes_op. rewrite <- append_assoc.
        by apply write_value_not_equals; apply Hv.
Qed.

Lemma lexes_clause c tail : wf_clause c -> ends_word tail -> lexes_all (clause_pieces c) true tail.
Proof.
  intros Hw Hend. unfold clause_pieces.
  destruct (Negated c); cbn [app lexes_all spell]; [split; [apply lexes_minus|]|]; by apply lexes_body.
Qed.

Lemma body_pieces_nonempty c : body_pieces c <> [].
Proof. unfold body_pieces. destruct (Kind c); [destruct (Field c)|]; done. Qed.

Lemma clause_pieces_nonempty c : clause_pieces c <> [].
Proof. unfold clause_pieces. destruct (Negated c); [done|]. apply body_pieces_nonempty. Qed.

(** ** A whole query *)

Definition query_tokens (q : Query) : Z :=
  foldr (fun c n => Z.of_nat (length (clause_pieces c)) + n) 0 q.

Fixpoint place_query (pos : Z) (q : Query) : list token :=
  match q with
  | [] => []
  | c :: q => place pos (clause_pieces c) ++ place_query (pos + slen (normalize_clause c) + 1) q
  end.

Lemma query_tokens_nonneg q : 0 <= query_tokens q.
Proof. unfold query_tokens. induction q; cbn [foldr]; lia. Qed.

Lemma lex_query q pos toks :
  Forall wf_clause q -> Z.of_nat (length toks) + query_tokens q <= MaxTokens ->
  lex_from pos (Normalize q) true toks = Ok (toks ++ place_query pos q).
Proof.
  intros Hq. revert pos toks; induction Hq as [|c q Hc Hq IH]; intros pos toks Hroom.
  { rewrite app_nil_r. apply lex_end. }
  change (query_tokens (c :: q)) with (Z.of_nat (length (clause_pieces c)) + query_tokens q) in Hroom.
  pose proof (query_tokens_nonneg q).
  unfold Normalize in *. cbn [fmap list_fmap join place_query].
  destruct q as [|c' q].
  - cbn [place_query fmap list_fmap]. rewrite app_nil_r, normalize_clause_spell.
    rewrite <- (append_nil_r (spell _)).
    rewrite (lex_pieces _ _ "");
      [apply lex_end|apply lexes_clause; [done|by left]|apply clause_pieces_nonempty|lia].
  - cbn [fmap list_fmap]. rewrite normalize_clause_spell at 1.
    set (rest := join " " _). cbn [fmap list_fmap] in IH. fold rest in IH.
    rewrite append_cons, append_nil_l.
    rewrite (lex_pieces _ _ (String " " rest)); [|apply lexes_clause; [done|]| |lia];
      [|apply ends_word_char; vm_compute; set_solver|apply clause_pieces_nonempty].
    rewrite lex_space, IH by (rewrite length_app, place_length; lia).
    by rewrite <- app_assoc, normalize_clause_spell.
Qed.

(** * Parsing canonical tokens *)

(** The tokens after the ones placed up to [stop] start beyond it. *)
Definition apart (stop : Z) (post : list token) : Prop :=
  match post with [] => True | t :: _ => stop < t_start t end.

Lemma parseOperator_string op : parseOperator (op_string op) = Some op.
Proof. by destruct op. Qed.


Lemma lookup_placed {A} (pre l : list A) k : (pre ++ l) !! (k + length pre)%nat = l !! k.
Proof. rewrite lookup_app_r by lia. f_equal. lia. Qed.

(** Reads a token of the tail that starts at index [length pre]. *)
Ltac read_tokens :=
  repeat match goal with
  | |- context [(?pre ++ ?l) !! length ?pre] =>
      rewrite (lookup_placed pre l 0 : _ !! length pre = _)
  | |- context [(?pre ++ ?l) !! S (length ?pre)] =>
      rewrite (lookup_placed pre l 1 : _ !! S (length pre) = _)
  | |- context [(?pre ++ ?l) !! S (S (length ?pre))] =>
      rewrite (lookup_placed pre l 2 : _ !! S (S (length pre)) = _)
  | |- context [(?pre ++ ?l) !! S (S (S (length ?pre)))] =>
      rewrite (lookup_placed pre l 3 : _ !! S (S (S (length pre))) = _)
  | |- context [(?pre ++ ?l) !! S (S (S (S (length ?pre))))] =>
      rewrite (lookup_placed pre l 4 : _ !! S (S (S (S (length pre)))) = _)
  end.

Lemma value_token_kind (quoted : bool) v s e :
  is_value_token (Token (if quoted then tokenQuoted else tokenWord) v s e) = true.
Proof. by destruct quoted. Qed.

Lemma quoted_kind (quoted : bool) :
  bool_decide ((if quoted then tokenQuoted else tokenWord) = tokenQuoted) = quoted.
Proof. by destruct quoted. Qed.
Lemma word_kind (quoted : bool) :
  bool_decide ((if quoted then tokenQuoted else tokenWord) = tokenWord) = negb quoted.
Proof. by destruct quoted. Qed.
Lemma not_comparison (quoted : bool) :
  bool_decide ((if quoted then tokenQuoted else tokenWord) = tokenComparison) = false.
Proof. by destruct quoted. Qed.

(** A canonical filter, its name at index [length pre]. *)
Lemma parse_filter_body pre post c pos negated position :
  wf_clause c -> Kind c = ClauseFilter ->
  let tokens := pre ++ place pos (body_pieces c) ++ post in
  let nameToken := Token tokenWord (Filter c) pos (pos + slen (Filter c)) in
  parseFilter tokens (length pre) nameToken (base_clause negated position) =
    Ok (MkClause ClauseFilter negated position (Text c) (Field c) (Prefix c) (Filter c) (Op c)
          (Value c) (Quoted c) (FieldValue c) (FieldValueQuoted c),
        (length (body_pieces c) + length pre)%nat).
Proof.
  intros Hw Hk. cbn zeta. unfold wf_clause, body_pieces in *. rewrite Hk in *.
  destruct Hw as (Hn & Ht & Hc & -> & -> & -> & [Hv Hvne] & Hrest).
  unfold parseFilter. cbn [t_text base_clause]. rewrite Hn.
  destruct (bool_decide (Filter c = "field")) eqn:Ef; cbn [app place].
  - destruct Hrest as [_ Hfne]. unfold parse_comparison. read_tokens. cbn -[bool_decide slen].
    rewrite not_comparison. cbn -[bool_decide slen]. rewrite (bool_decide_false (OpEqual <> _)) by auto.
    cbn [andb]. read_tokens. cbn -[bool_decide slen].
    rewrite value_token_kind, (bool_decide_false (Value c = "")) by done.
    unfold parse_field_value. cbn -[bool_decide slen].
    rewrite (bool_decide_false (OpEqual <> _)) by auto. read_tokens. cbn -[bool_decide slen].
    rewrite (bool_decide_false (tokenComparison <> _)) by auto.
    rewrite parseOperator_string. read_tokens. cbn -[bool_decide slen].
    rewrite value_token_kind, (bool_decide_false (FieldValue c = "")), !quoted_kind by done. done.
  - destruct Hrest as (-> & -> & Hop). apply bool_decide_eq_false in Ef.
    destruct (bool_decide (Op c = OpEqual)) eqn:Eo; cbn [app place].
    + apply bool_decide_eq_true in Eo. unfold parse_comparison. read_tokens.
      cbn -[bool_decide slen]. rewrite not_comparison. cbn -[bool_decide slen].
      rewrite (bool_decide_false (OpEqual <> _)) by auto. cbn [andb]. read_tokens.
      cbn -[bool_decide slen].
      rewrite value_token_kind, !bool_decide_false, quoted_kind, Eo by done. done.
    + apply bool_decide_eq_false in Eo. unfold parse_comparison. read_tokens.
      cbn -[bool_decide slen comparable_filter]. rewrite (bool_decide_true (tokenComparison = _)) by done.
      rewrite parseOperator_string. read_tokens. cbn -[bool_decide slen comparable_filter].
      destruct Hop as [|Hop]; [done|]. rewrite Hop. cbn [negb]. rewrite andb_false_r.
      read_tokens. cbn -[bool_decide slen comparable_filter].
      rewrite value_token_kind, !bool_decide_false, quoted_kind by done. done.
Qed.

(** [title:] and [content:]. *)
Lemma parse_text_filter pre post c pos negated position :
  wf_clause c -> Kind c = ClauseText -> Field c <> TextAnywhere ->
  let name := if bool_decide (Field c = TextTitle) then "title" else "content" in
  let tokens := pre ++ place pos (body_pieces c) ++ post in
  let nameToken := Token tokenWord name pos (pos + slen name) in
  parseFilter tokens (length pre) nameToken (base_clause negated position) =
    Ok (MkClause ClauseText negated position (Text c) (Field c) (Prefix c) (Filter c) (Op c)
          (Value c) (Quoted c) (FieldValue c) (FieldValueQuoted c),
        (length (body_pieces c) + length pre)%nat).
Proof.
  intros Hw Hk Hf. cbn zeta. unfold wf_clause, body_pieces in *. rewrite Hk in *.
  destruct Hw as ([Hv Hvne] & -> & -> & -> & -> & -> & -> & _).
  assert (Hname : forall name, name = "title" \/ name = "content" ->
    IsFilterName name = true /\ bool_decide (name = "field") = false /\
    bool_decide (name = "title") || bool_decide (name = "content") = true)
    by (intros ? [->| ->]; by vm_compute).
  assert (Hp : text_pieces (Field c) = [name_piece (if bool_decide (Field c = TextTitle)
    then "title" else "content"); colon_piece]) by by destruct (Field c).
  assert (Hfield : (if bool_decide ((if bool_decide (Field c = TextTitle) then "title" else "content")
    = "title") then TextTitle else TextContent) = Field c) by by destruct (Field c).
  assert (Hnm : (if bool_decide (Field c = TextTitle) then "title" else "content") = "title" \/
    (if bool_decide (Field c = TextTitle) then "title" else "content") = "content")
    by (destruct (Field c); auto).
  set (name := if bool_decide (Field c = TextTitle) then "title" else "content") in *.
  destruct (Hname name Hnm) as (H1 & H2 & H3). clearbody name. clear Hname Hnm. rewrite Hp. unfold parseFilter. cbn [t_text base_clause]. rewrite H1.
  cbn [app place]. unfold parse_comparison. read_tokens. cbn -[bool_decide slen].
  rewrite not_comparison. cbn -[bool_decide slen]. rewrite (bool_decide_false (OpEqual <> _)) by auto.
  cbn [andb]. read_tokens. cbn -[bool_decide slen].
  rewrite value_token_kind, (bool_decide_false (Text c = "")), word_kind, negb_involutive by done.
  rewrite H2, H3, Hfield. done.
Qed.

Lemma not_followed pre post word pos :
  apart (t_end word) post ->
  followed_by_colon (pre ++ [Token (t_kind word) pos (t_start word) (t_end word)] ++ post)
    (length pre) word = false.
Proof.
  intros H. unfold followed_by_colon. cbn [app]. read_tokens. cbn.
  destruct post as [|t post]; [done|]. cbn in *. apply andb_false_iff. right.
  apply Z.eqb_neq. lia.
Qed.

Lemma filter_followed pre post name pos ps :
  followed_by_colon (pre ++ place pos (name_piece name :: colon_piece :: ps) ++ post) (length pre)
    (Token tokenWord name pos (pos + slen name)) = true.
Proof.
  unfold followed_by_colon. cbn [place app]. read_tokens. cbn -[slen]. by rewrite Z.eqb_refl.
Qed.

Lemma parse_body pre post c pos negated position :
  wf_clause c -> apart (pos + slen (spell (body_pieces c))) post ->
  let tokens := pre ++ place pos (body_pieces c) ++ post in
  exists first rest, place pos (body_pieces c) = first :: rest /\
    t_kind first <> tokenMinus /\ t_start first = pos /\
    parse_term tokens (length pre) first (base_clause negated position) =
      Ok (MkClause (Kind c) negated position (Text c) (Field c) (Prefix c) (Filter c) (Op c)
            (Value c) (Quoted c) (FieldValue c) (FieldValueQuoted c),
          (length (body_pieces c) + length pre)%nat).
Proof.
  intros Hw Hpost. cbn zeta. destruct (Kind c) eqn:Hk.
  - destruct (decide (Field c = TextAnywhere)) as [Hf|Hf].
    + unfold wf_clause, body_pieces in *. rewrite Hk, Hf in *.
      destruct Hw as ([Hv Hvne] & -> & -> & -> & -> & -> & -> & Hop).
      cbn [text_pieces app place] in *. eexists _, _. split; [done|].
      split; [by destruct (Prefix c)|]. split; [done|].
      unfold parse_term. cbn [value_piece p_kind p_text p_spelling t_kind t_text t_start].
      rewrite value_token_kind, (bool_decide_false (Text c = "")), word_kind, negb_involutive by done.
      cbn [spell p_spelling value_piece] in Hpost. rewrite append_nil_r in Hpost.
      pose proof (not_followed pre post (Token (if negb (Prefix c) then tokenQuoted else tokenWord)
        (Text c) pos (pos + slen (write_value (Text c) (negb (Prefix c))))) (Text c) Hpost) as Hnf.
      cbn [t_kind t_start t_end app] in Hnf. rewrite Hnf, andb_false_r.
      destruct (Prefix c) eqn:Hpx; cbn [andb]; [rewrite Hop by done|]; cbn; done.
    + set (name := if bool_decide (Field c = TextTitle) then "title" else "content").
      assert (Hb : body_pieces c =
        [name_piece name; colon_piece; value_piece (Text c) (negb (Prefix c))]).
      { unfold body_pieces, name. rewrite Hk. by destruct (Field c). }
      pose proof (parse_text_filter pre post c pos negated position Hw Hk Hf) as H.
      cbn zeta in H. fold name in H. rewrite Hb in *.
      eexists _, _. split; [done|]. split; [done|]. split; [done|].
      unfold parse_term. cbn [name_piece p_kind p_text p_spelling t_kind].
      rewrite filter_followed. cbn [t_text t_start]. rewrite bool_decide_false by (unfold name; by case_bool_decide).
      cbn [is_value_token t_kind]. exact H.
  - pose proof (parse_filter_body pre post c pos negated position Hw Hk) as H. cbn zeta in H.
    assert (Hb : exists ps, body_pieces c = name_piece (Filter c) :: colon_piece :: ps).
    { unfold body_pieces. rewrite Hk. by eexists. }
    assert (Hn : Filter c <> "").
    { unfold wf_clause in Hw. rewrite Hk in Hw. destruct Hw as [Hn _].
      apply filter_name_ok in Hn as [[_ Hn] _]. done. }
    destruct Hb as [ps Hb]. rewrite Hb in *.
    eexists _, _. split; [done|]. split; [done|]. split; [done|].
    unfold parse_term. cbn [name_piece p_kind p_text p_spelling t_kind].
    rewrite filter_followed. cbn [t_text t_start]. rewrite bool_decide_false by done.
    cbn [is_value_token t_kind]. exact H.
Qed.

Lemma parse_clause pre post c pos :
  wf_clause c -> apart (pos + slen (spell (clause_pieces c))) post ->
  parseClause (pre ++ place pos (clause_pieces c) ++ post) (length pre) =
    Ok (set_position pos c, (length (clause_pieces c) + length pre)%nat).
Proof.
  intros Hw Hpost. unfold parseClause, clause_pieces, set_position in *.
  destruct (Negated c) eqn:Hneg; cbn [app place spell minus_piece p_spelling p_kind p_text] in *.
  - read_tokens. cbn [lookup list_lookup]. rewrite bool_decide_true by done. read_tokens.
    rewrite slen_append, Z.add_assoc in Hpost.
    destruct (parse_body (pre ++ [Token tokenMinus "-" pos (pos + slen "-")]) post c
                (pos + slen "-") true pos Hw Hpost) as (first & rest & Hp & _ & _ & H).
    rewrite <- app_assoc in H. cbn [app] in H. rewrite length_app in H.
    rewrite Nat.add_comm in H. cbn [length Nat.add] in H.
    rewrite Hp. rewrite Hp in H. cbn -[slen parse_term base_clause]. cbn -[slen parse_term base_clause] in H.
    rewrite H. do 2 f_equal. lia.
  - destruct (parse_body pre post c pos false pos Hw Hpost) as (first & rest & Hp & Hk & Hs & H).
    cbn zeta in H. rewrite Hp in *. read_tokens. cbn [app lookup list_lookup].
    rewrite bool_decide_false, Hs by done. exact H.
Qed.

Fixpoint set_positions (pos : Z) (q : Query) : Query :=
  match q with
  | [] => []
  | c :: q => set_position pos c :: set_positions (pos + slen (normalize_clause c) + 1) q
  end.

Lemma place_last pos ps :
  ps <> [] -> exists l t, place pos ps = l ++ [t] /\ t_end t = pos + slen (spell ps).
Proof.
  revert pos; induction ps as [|p ps IH]; intros pos Hne; [done|]. cbn [place spell].
  destruct ps as [|p' ps].
  - exists [], (Token (p_kind p) (p_text p) pos (pos + slen (p_spelling p))).
    cbn [spell place]. by rewrite append_nil_r.
  - destruct (IH (pos + slen (p_spelling p))) as (l & t & -> & Ht); [done|].
    eexists (_ :: l), t. split; [done|]. rewrite Ht, slen_append. lia.
Qed.

Lemma not_touching pre post pos ps :
  ps <> [] -> apart (pos + slen (spell ps)) post ->
  touches (pre ++ place pos ps ++ post) (length ps + length pre) = None.
Proof.
  intros Hne Hpost. unfold touches.
  rewrite lookup_placed. rewrite lookup_app_r by by rewrite place_length.
  rewrite place_length, Nat.sub_diag. destruct post as [|t post]; [done|]. cbn [lookup list_lookup].
  destruct (place_last pos ps Hne) as (l & u & Hp & Hu).
  assert (Hlen : length ps = S (length l)).
  { rewrite <- (place_length pos ps), Hp, length_app. cbn. lia. }
  rewrite Hlen. cbn [Nat.add pred]. rewrite lookup_placed, Hp, <- app_assoc.
  rewrite lookup_app_r, Nat.sub_diag by lia. cbn [app lookup list_lookup fmap option_fmap option_map].
  rewrite bool_decide_false; [done|]. intros [= Heq]. cbn in Hpost. lia.
Qed.

Lemma apart_next pos c q : apart (pos + slen (spell (clause_pieces c)))
  (place_query (pos + slen (normalize_clause c) + 1) q).
Proof.
  destruct q as [|c' q]; [done|]. cbn [place_query].
  destruct (place _ (clause_pieces c')) as [|t l] eqn:Hp; [|].
  - apply (f_equal length) in Hp. rewrite place_length in Hp. cbn in Hp.
    by destruct (clause_pieces_nonempty c'), (clause_pieces c').
  - cbn. destruct (clause_pieces c'); [done|]. cbn in Hp. injection Hp as <- <-.
    cbn [t_start]. rewrite normalize_clause_spell. lia.
Qed.

Lemma parse_query q pre pos acc fuel :
  Forall wf_clause q -> (length (place_query pos q) <= fuel)%nat ->
  parse_loop fuel (pre ++ place_query pos q) (length pre) acc = Ok (acc ++ set_positions pos q).
Proof.
  intros Hq. revert pre pos acc fuel.
  induction Hq as [|c q Hc Hq IH]; intros pre pos acc fuel Hfuel; cbn [place_query set_positions] in *.
  { rewrite !app_nil_r. unfold parse_loop. destruct fuel; by rewrite Nat.leb_refl. }
  rewrite length_app, place_length in Hfuel.
  assert (Hpos : (0 < length (clause_pieces c))%nat).
  { pose proof (clause_pieces_nonempty c). destruct (clause_pieces c); [done|cbn; lia]. }
  destruct fuel as [|fuel]; [lia|]. cbn [parse_loop].
  rewrite (proj2 (Nat.leb_gt _ _)) by (rewrite !length_app, place_length; lia).
  rewrite (parse_clause pre _ c pos Hc (apart_next pos c q)). cbn [mbind result_bind].
  rewrite (not_touching _ _ _ _ (clause_pieces_nonempty c) (apart_next pos c q)).
  pose proof (IH (pre ++ place pos (clause_pieces c)) (pos + slen (normalize_clause c) + 1)
    (acc ++ [set_position pos c]) fuel) as H.
  rewrite length_app, place_length, <- !app_assoc in H. cbn [app] in H.
  rewrite Nat.add_comm. apply H. lia.
Qed.

Lemma set_positions_normalize pos q : Normalize (set_positions pos q) = Normalize q.
Proof.
  unfold Normalize. f_equal. revert pos; induction q as [|c q IH]; intros pos; [done|].
  cbn [set_positions fmap list_fmap]. by rewrite IH.
Qed.

(** The canonical spelling is itself valid UTF-8. *)
Definition valid_utf8 (s : string) : Prop := exists rs, s = encode_runes rs /\ valid_runes rs.

Lemma valid_utf8_nil : valid_utf8 "".
Proof. exists []. split; [done|constructor]. Qed.

Lemma valid_utf8_app s t : valid_utf8 s -> valid_utf8 t -> valid_utf8 (s +:+ t).
Proof.
  intros (rs & -> & Hr) (ts & -> & Ht). exists (rs ++ ts).
  rewrite encode_runes_app. split; [done|]. by apply Forall_app.
Qed.

Lemma valid_utf8_ascii s : all_bytes (fun c => byte_val c <? 128) s = true -> valid_utf8 s.
Proof.
  induction s as [|c s IH]; intros H; [apply valid_utf8_nil|]. cbn in H. bool_simpl.
  pose proof (byte_val_range c). rewrite <- (append_nil_l s), <- append_cons.
  apply valid_utf8_app; [|by apply IH]. exists [byte_val c].
  rewrite encode_byte, chr_byte_val by lia. split; [done|].
  constructor; [|constructor]. unfold valid_rune. apply orb_true_iff. left.
  apply andb_true_iff. split; [apply Z.leb_le|apply Z.ltb_lt]; lia.
Qed.

Lemma valid_utf8_rune r : valid_rune r = true -> valid_utf8 (encode_rune r).
Proof. intros Hr. exists [r]. cbn. rewrite append_nil_r. split; [done|by repeat constructor]. Qed.

#[local] Hint Resolve valid_utf8_app valid_utf8_rune : suchi.

Lemma escape_runes_utf8 first rs : valid_runes rs -> valid_utf8 (escape_runes first rs).
Proof.
  intros Hrs; revert first; induction Hrs as [|r rs Hr _ IH]; intros first; [apply valid_utf8_nil|].
  cbn [escape_runes]. destruct (needs_escape first r); eauto using valid_utf8_ascii with suchi.
Qed.

Lemma escape_quoted_utf8 rs : valid_runes rs -> valid_utf8 (escape_quoted (encode_runes rs)).
Proof.
  intros Hrs; induction Hrs as [|r rs Hr _ IH]; [apply valid_utf8_nil|]. cbn [encode_runes].
  rewrite escape_quoted_encode by done.
  destruct (_ || _); eauto using valid_utf8_ascii with suchi.
Qed.

Lemma write_value_utf8 v quoted : value_ok v -> valid_utf8 (write_value v quoted).
Proof.
  intros Hv. apply value_ok_runes in Hv as (rs & -> & Hrs & _). destruct quoted; cbn [write_value].
  - unfold quoted_value. rewrite <- (append_nil_l (escape_quoted _ +:+ _)), <- append_cons.
    apply valid_utf8_app; [by apply valid_utf8_ascii|].
    apply valid_utf8_app; [by apply escape_quoted_utf8|by apply valid_utf8_ascii].
  - rewrite escapeBare_runes by done. by apply escape_runes_utf8.
Qed.

Lemma normalize_clause_utf8 c : wf_clause c -> valid_utf8 (normalize_clause c).
Proof.
  intros Hw. unfold wf_clause, normalize_clause in *.
  apply valid_utf8_app; [by apply valid_utf8_ascii; destruct (Negated c)|].
  destruct (Kind c).
  - destruct Hw as ([Hv _] & _). apply valid_utf8_app; [|by apply write_value_utf8].
    by apply valid_utf8_ascii; destruct (Field c).
  - destruct Hw as (Hn & _ & _ & _ & _ & _ & [Hv _] & Hrest).
    apply filter_name_ok in Hn as [[Hn _] He].
    apply valid_utf8_app; [rewrite <- He; by apply (write_value_utf8 _ false)|].
    apply valid_utf8_app; [by apply valid_utf8_ascii|].
    destruct (bool_decide (Filter c = "field")).
    + destruct Hrest as [Hf _]. apply valid_utf8_app; [by apply write_value_utf8|].
      apply valid_utf8_app; [by apply valid_utf8_ascii; destruct (Op c)|by apply write_value_utf8].
    + apply valid_utf8_app; [|by apply write_value_utf8; apply Hv].
      case_bool_decide; apply valid_utf8_ascii; [done|by destruct (Op c)].
Qed.

Lemma Normalize_utf8 q : Forall wf_clause q -> valid_utf8 (Normalize q).
Proof.
  unfold Normalize. induction 1 as [|c q Hc Hq IH]; [apply valid_utf8_nil|]. rewrite fmap_cons. cbn [join].
  destruct (normalize_clause <$> q) as [|p ps]; [by apply normalize_clause_utf8|].
  apply valid_utf8_app; [by apply normalize_clause_utf8|].
  apply valid_utf8_app; [by apply valid_utf8_ascii|]. exact IH.
Qed.

(** * What the parser returns *)

(** The answer of a parsing step at [index]: a well-formed clause and progress,
    or an error of the code. *)
Definition step_sound (index : nat) (res : result Error (Clause * nat)) : Prop :=
  match res with
  | Ok (c, next) => wf_clause c /\ (index < next)%nat
  | Err e => real_error e
  end.

Lemma value_token_wf t :
  token_ok t -> is_value_token t = true -> t_text t <> "" -> wf_value (t_text t).
Proof.
  unfold token_ok, is_value_token. intros Ht Hv Hne.
  destruct (t_kind t); try discriminate; [by destruct Ht|by split].
Qed.

Lemma tokens_ok_lookup tokens i t : Forall token_ok tokens -> tokens !! i = Some t -> token_ok t.
Proof. rewrite Forall_lookup. eauto. Qed.

Lemma parse_field_value_sound tokens index name value op clause :
  Forall token_ok tokens -> token_ok value -> is_value_token value = true -> t_text value <> "" ->
  name = "field" -> Text clause = "" -> Field clause = TextAnywhere ->
  step_sound index (parse_field_value tokens index name value op clause).
Proof.
  intros Htok Hv Hval Hne -> Htext Hfield. unfold parse_field_value. cbn zeta.
  destruct (bool_decide (op <> OpEqual)); [done|].
  destruct (tokens !! S index) as [t|] eqn:Et; [|done].
  destruct (bool_decide (t_kind t <> tokenComparison)); [done|].
  destruct (parseOperator (t_text t)) as [fop|]; [|done].
  destruct (tokens !! S (S index)) as [fv|] eqn:Ef; [|done].
  destruct (is_value_token fv) eqn:Efv; [|done].
  destruct (bool_decide (t_text fv = "")) eqn:Efe; [done|]. bool_simpl.
  cbn [step_sound]. split; [|lia]. unfold wf_clause. cbn -[bool_decide].
  rewrite bool_decide_true by done.
  split_and!; try done; apply value_token_wf; eauto using tokens_ok_lookup.
Qed.

Lemma parse_comparison_sound tokens index nameToken :
  match parse_comparison tokens index nameToken with
  | Ok (op, i) => (index <= i)%nat /\ is_Some (tokens !! i)
  | Err e => real_error e
  end.
Proof.
  unfold parse_comparison. destruct (tokens !! index) as [t|] eqn:Et; [|done].
  destruct (bool_decide _); [|split; [lia|by eexists]].
  destruct (parseOperator _) as [op|]; [|done].
  destruct (tokens !! S index) as [t'|] eqn:Et'; [|done]. split; [lia|by eexists].
Qed.

Lemma parseFilter_sound tokens index nameToken clause :
  Forall token_ok tokens -> clause = base_clause (Negated clause) (Position clause) ->
  step_sound index (parseFilter tokens index nameToken clause).
Proof.
  intros Htok Hbase. unfold parseFilter. cbn zeta. set (name := t_text nameToken).
  destruct (IsFilterName name) eqn:Hn; [|done].
  pose proof (parse_comparison_sound tokens (S (S index)) nameToken) as Hc.
  destruct (parse_comparison _ _ _) as [[op i]|e]; cbn [mbind result_bind]; [|done].
  destruct Hc as (Hi & value & Hval). rewrite Hval.
  destruct (_ && _) eqn:Hop; [done|]. destruct (is_value_token value) eqn:Hv; [|done].
  destruct (bool_decide (t_text value = "")) eqn:Hne; [done|]. bool_simpl.
  assert (Hwf : wf_value (t_text value)) by eauto using value_token_wf, tokens_ok_lookup.
  destruct (bool_decide (name = "field")) eqn:Ef.
  { bool_simpl.
    pose proof (parse_field_value_sound tokens i name value op clause Htok
      (tokens_ok_lookup _ _ _ Htok Hval) Hv Hne Ef) as H.
    rewrite Hbase in H at 1 2. specialize (H eq_refl eq_refl).
    destruct (parse_field_value _ _ _ _ _ _) as [[c next]|e]; [|done].
    destruct H as [H1 H2]. split; [done|lia]. }
  destruct (bool_decide (name = "title") || bool_decide (name = "content")) eqn:Et;
    (split; [|lia]); unfold wf_clause; cbn -[bool_decide]; rewrite Hbase; cbn -[bool_decide].
  - split_and!; try done. by case_bool_decide.
  - rewrite Ef. bool_simpl. split_and!; try done. bool_cases; [left|right; done].
    match goal with H : ~ _ <> _ |- _ => by apply dec_stable in H end.
Qed.

Lemma parse_term_sound tokens index t clause :
  Forall token_ok tokens -> tokens !! index = Some t ->
  clause = base_clause (Negated clause) (Position clause) ->
  step_sound index (parse_term tokens index t clause).
Proof.
  intros Htok Ht Hbase. unfold parse_term. destruct (is_value_token t) eqn:Hv; [|done].
  destruct (bool_decide (t_text t = "")) eqn:Hne; [done|]. bool_simpl.
  destruct (_ && followed_by_colon _ _ _); [by apply parseFilter_sound|].
  destruct (_ && isUnsupportedOperator _) eqn:Hop; [done|]. split; [|lia].
  unfold wf_clause. rewrite Hbase. cbn -[bool_decide].
  split_and!; try done; [eauto using value_token_wf, tokens_ok_lookup|..].
  intros _ Hk. rewrite Hk in Hop. exact Hop.
Qed.

Lemma parseClause_sound tokens index :
  Forall token_ok tokens -> (index < length tokens)%nat ->
  step_sound index (parseClause tokens index).
Proof.
  intros Htok Hi. unfold parseClause.
  destruct (tokens !! index) as [first|] eqn:Ef; [|by apply lookup_ge_None in Ef; lia].
  destruct (bool_decide _); [|by apply parse_term_sound].
  destruct (tokens !! S index) as [t|] eqn:Et; [|done].
  pose proof (parse_term_sound tokens (S index) t (base_clause true (t_start first)) Htok Et eq_refl).
  destruct (parse_term _ _ _ _) as [[c next]|e]; [|done]. cbn in *. intuition lia.
Qed.

Lemma parse_loop_sound fuel tokens index q :
  Forall token_ok tokens -> (length tokens <= index + fuel)%nat -> Forall wf_clause q ->
  match parse_loop fuel tokens index q with
  | Ok q' => Forall wf_clause q'
  | Err e => real_error e
  end.
Proof.
  intros Htok. revert index q; induction fuel as [|fuel IH]; intros index q Hf Hq; cbn [parse_loop].
  { rewrite (proj2 (Nat.leb_le _ _)) by lia. done. }
  destruct (length tokens <=? index)%nat eqn:Hl; [done|]. bool_simpl.
  pose proof (parseClause_sound tokens index Htok Hl) as Hc.
  destruct (parseClause tokens index) as [[c next]|e]; cbn [mbind result_bind]; [|done].
  destruct Hc as [Hc Hnext]. destruct (touches tokens next); [done|].
  apply IH; [lia|]. apply Forall_app. auto.
Qed.

Lemma Parse_cases input :
  match Parse input with Ok q => Forall wf_clause q | Err e => real_error e end.
Proof.
  unfold Parse. destruct (lex input) as [tokens|e] eqn:El; cbn [mbind result_bind].
  - apply lex_ok in El as (Htok & _). by apply parse_loop_sound; [|lia|].
  - by apply (lex_real_error input).
Qed.

Lemma set_positions_erase pos q : set_position 0 <$> set_positions pos q = set_position 0 <$> q.
Proof.
  revert pos; induction q as [|c q IH]; intros pos; [done|].
  cbn [set_positions]. rewrite !fmap_cons. by rewrite IH.
Qed.

(** * Properties *)

(** C32: the parser is total: on every byte string it ends within its fuel, indexes
    no token out of range, and answers with well-formed clauses (texts that are
    valid UTF-8 of at most 256 bytes without control characters, known filter
    names, comparisons only where they are supported) or with a genuine error. *)
Theorem Parse_total input :
  (exists q, Parse input = Ok q /\ Forall wf_clause q) \/
  (exists e, Parse input = Err e /\ Message e <> OutOfFuel /\ Message e <> IndexOutOfRange).
Proof.
  pose proof (Parse_cases input) as H.
  destruct (Parse input) as [q|e]; [left; by exists q|right; by exists e].
Qed.

(** C21: a well-formed query whose canonical spelling fits the limits parses back
    to itself, positions aside, and its spelling is unchanged by the trip. *)
Theorem Parse_Normalize q :
  Forall wf_clause q -> slen (Normalize q) <= MaxQueryBytes -> query_tokens q <= MaxTokens ->
  exists q', Parse (Normalize q) = Ok q' /\ set_position 0 <$> q' = set_position 0 <$> q /\
    Normalize q' = Normalize q.
Proof.
  intros Hq Hsize Htok. exists (set_positions 0 q).
  assert (Hlex : lex (Normalize q) = Ok (place_query 0 q)).
  { unfold lex. rewrite (proj2 (Z.ltb_ge _ _)) by done.
    rewrite (proj2 (valid_string_spec _)).
    - apply (lex_query q 0 [] Hq). cbn. exact Htok.
    - destruct (Normalize_utf8 q Hq) as (rs & ? & ?). by exists rs. }
  split_and!.
  - unfold Parse. rewrite Hlex. cbn [mbind result_bind].
    apply (parse_query q [] 0 [] _ Hq). lia.
  - apply set_positions_erase.
  - apply set_positions_normalize.
Qed.

(** What the lexer returns: at most 64 tokens, each a non-empty piece of the
    input, in order and without overlap, with texts of at most 256 bytes. *)
Theorem lex_bounds input toks :
  lex input = Ok toks ->
  Z.of_nat (length toks) <= 64 /\ slen input <= 1024 /\ spans_ok 0 toks (slen input) /\
  Forall (fun t => slen (t_text t) <= 256) toks.
Proof.
  intros H. apply lex_ok in H as (Htok & Hlen & Hspan & Hsize & _). split_and!; try done.
  eapply Forall_impl; [exact Htok|]. intros t Ht. unfold token_ok in Ht.
  destruct (t_kind t).
  - by destruct Ht as [[_ _ Ht] _].
  - by destruct Ht as [_ _ Ht].
  - by rewrite Ht.
  - by rewrite Ht.
  - destruct Ht as [op ->]. by destruct op.
Qed.

(** * Witnesses *)

(** title:-a, a negated comparison, and a quoted custom field. *)
Definition w_query : Query :=
  [MkClause ClauseText false 0 "-a" TextTitle true "" OpEqual "" false "" false;
   MkClause ClauseFilter true 0 "" TextAnywhere false "added" OpGreaterEqual "2024-01-31" false "" false;
   MkClause ClauseFilter false 0 "" TextAnywhere false "field" OpLess "Due \Date" true "x=y" false].

Lemma w_query_wf : Forall wf_clause w_query.
Proof.
  assert (Hv : forall v, good_value v = true -> wf_value v) by apply good_value_ok.
  repeat apply Forall_cons_2; [..|apply Forall_nil_2]; unfold wf_clause; cbn -[bool_decide];
    [|rewrite bool_decide_false by done|rewrite bool_decide_true by done];
    split_and!; try done; try (apply Hv; vm_compute; reflexivity). by right.
Qed.

Lemma Parse_Normalize_witness :
  exists q', Parse (Normalize w_query) = Ok q' /\ Normalize q' = Normalize w_query.
Proof.
  destruct (Parse_Normalize w_query) as (q' & H1 & _ & H2).
  - apply w_query_wf.
  - vm_compute. discriminate.
  - vm_compute. discriminate.
  - exists q'. split; [exact H1|exact H2].
Defined.

Lemma lex_bounds_witness : spans_ok 0
  [Token tokenWord "a" 0 1; Token tokenColon ":" 1 2; Token tokenWord "b" 2 3] 3.
Proof.
  destruct (lex_bounds "a:b"
    [Token tokenWord "a" 0 1; Token tokenColon ":" 1 2; Token tokenWord "b" 2 3])
    as (_ & _ & H & _); [vm_compute; reflexivity|exact H].
Defined.

(** A query at the size limit with [n] clauses of [title:-aaa...]. *)
Fixpoint repeat_char (c : ascii) (n : nat) : string :=
  match n with O => "" | S n => String c (repeat_char c n) end.
Definition long_query : string :=
  join " " (repeat ("title:-" +:+ repeat_char "a"%char 248) 3 ++ ["title:-" +:+ repeat_char "a"%char 249]).

(** The canonical spelling escapes a leading minus sign, so it can be longer than
    the query it came from: this query of 1024 bytes parses, and its spelling does
    not. *)
Lemma Normalize_can_outgrow_limit :
  slen long_query = 1024 /\
  match Parse long_query with
  | Ok q => Parse (Normalize q) = Err (queryError MaxQueryBytes QueryTooLong)
  | Err _ => False
  end.
Proof. split; vm_compute; reflexivity. Qed.
