(* ===== verification/SearchCompile.v ===== *)
(** Resolution of filters against the archive ([core/searchquery/resolve.go]) and
    compilation to SQL predicates ([core/searchquery/compile.go]).

    The resolver's lookups, 64-bit floats with their parser, and the tables of
    package [unicode] are parameters; a compiled predicate is its SQL text and the
    arguments bound to its placeholders. *)
From S2P Require Import Prelude GoStd Utf8 GoTime Amount SearchQuery.

(** * Resolution *)

Record Candidate : Type := MkCandidate { cand_ID : Z; cand_Label : string; cand_DataType : string }.

Inductive resolve_message : Type :=
  | HasFieldEquality | NoMatch (filter value : string) | Ambiguous (filter value : string)
  | RequiresNumber (value : string) | RequiresDate (value : string) | BoolEquality
  | RequiresBool (value : string) | OnlyEquality (value : string) | DocumentLinkValues
  | UnsupportedFieldType (ty : string) | AsnNoneComparison | AsnInteger
  | UnknownSensitivity (value : string) | LanguageCode | AddedDate (value : string)
  | DateSortValue (value : string) | UnknownDateRole (value : string)
  | UnknownIs (value : string) | VersionNegated | UnknownVersion (value : string)
  | VersionConflict | UnresolvedFilter (name : string).

Inductive resolve_error : Type :=
  | BackendError (msg : string)
  | FilterError (position : Z) (filter : string) (m : resolve_message) (suggestions : list string).

(** The [Resolver] interface: one call's answer each. *)
Record Resolver : Type := MkResolver {
  resolve_call : string -> string -> result resolve_error (list Candidate);
  inbox_call : result resolve_error Z;
}.

Record ResolvedClause (F : Type) : Type := MkResolved {
  rc : Clause;
  ID : Z;
  Timestamp : Z;
  Integer : Z;
  Number : F;
  Boolean : bool;
  FieldDataType : string;
}.
Arguments MkResolved {F}. Arguments rc {F}. Arguments ID {F}. Arguments Timestamp {F}.
Arguments Integer {F}. Arguments Number {F}. Arguments Boolean {F}. Arguments FieldDataType {F}.

(** [strings.ToLower] as far as its ASCII results go: the two other runes that it
    maps into ASCII are U+0130 and U+212A; results with other runes are compared
    only with ASCII words. *)
Definition lower_rune (r : Z) : Z :=
  if (65 <=? r) && (r <=? 90) then r + 32
  else if r =? 304 then 105 else if r =? 8490 then 107 else r.
Definition ToLower (s : string) : string := encode_runes (lower_rune <$> runes s).

(** [strings.EqualFold(value, "none")]: n, o and e fold with their capitals only. *)
Definition lower_ascii (s : string) : string :=
  encode_runes ((fun r => if (65 <=? r) && (r <=? 90) then r + 32 else r) <$> runes s).
Definition is_none (value : string) : bool := bool_decide (lower_ascii value = "none").

Definition one_of (l : list string) (v : string) : bool := existsb (String.eqb v) l.

Definition validSensitivity : string -> bool :=
  one_of ["public"; "internal"; "confidential"; "restricted"].

Definition is_letter_rune (r : Z) : bool :=
  (97 <=? r) && (r <=? 122) || (65 <=? r) && (r <=? 90).
Definition validLanguage (value : string) : bool :=
  (2 <=? slen value) && (slen value <=? 3) && forallb is_letter_rune (runes value).

Definition version_modes : list string := ["latest"; "all"; "older"].
Definition is_values : list string := ["inbox"; "trash"; "encrypted"; "dated"; "processing"].

(** [clause.Value = v]. *)
Definition with_value (v : string) (c : Clause) : Clause :=
  MkClause (Kind c) (Negated c) (Position c) (Text c) (Field c) (Prefix c) (Filter c) (Op c) v
    (Quoted c) (FieldValue c) (FieldValueQuoted c).

Section Search.
Context {F : Type} (zero_float : F) (ParseFloat : string -> option F) (opp_float : F -> F).
Context (IsLetter IsCurrency : Z -> bool).

Definition resolved_clause : Type := ResolvedClause F.

Definition plain_item (c : Clause) : resolved_clause := MkResolved c 0 0 0 zero_float false "".
Definition set_id (id : Z) (i : resolved_clause) : resolved_clause :=
  MkResolved (rc i) id (Timestamp i) (Integer i) (Number i) (Boolean i) (FieldDataType i).
Definition set_timestamp (t : Z) (i : resolved_clause) : resolved_clause :=
  MkResolved (rc i) (ID i) t (Integer i) (Number i) (Boolean i) (FieldDataType i).
Definition set_integer (n : Z) (i : resolved_clause) : resolved_clause :=
  MkResolved (rc i) (ID i) (Timestamp i) n (Number i) (Boolean i) (FieldDataType i).
Definition set_number (x : F) (i : resolved_clause) : resolved_clause :=
  MkResolved (rc i) (ID i) (Timestamp i) (Integer i) x (Boolean i) (FieldDataType i).
Definition set_boolean (b : bool) (i : resolved_clause) : resolved_clause :=
  MkResolved (rc i) (ID i) (Timestamp i) (Integer i) (Number i) b (FieldDataType i).
Definition set_type (t : string) (i : resolved_clause) : resolved_clause :=
  MkResolved (rc i) (ID i) (Timestamp i) (Integer i) (Number i) (Boolean i) t.
Definition set_value (v : string) (i : resolved_clause) : resolved_clause :=
  MkResolved (with_value v (rc i)) (ID i) (Timestamp i) (Integer i) (Number i) (Boolean i)
    (FieldDataType i).

Definition fail (c : Clause) (m : resolve_message) (s : list string) : resolve_error :=
  FilterError (Position c) (Filter c) m s.

(** The comparison value of [field:], by the field's data type. *)
Definition resolve_field (c : Clause) (item : resolved_clause) : result resolve_error resolved_clause :=
  let ty := FieldDataType item in
  if one_of ["number"; "monetary"] ty then
    match ParseFloat (FieldValue c) with
    | Some x => Ok (set_number x item)
    | None =>
        if bool_decide (ty = "monetary") then
          match ParseAmount IsLetter IsCurrency ParseFloat opp_float (FieldValue c) with
          | Ok x => Ok (set_number x item)
          | Err _ => Err (fail c (RequiresNumber (Value c)) [])
          end
        else Err (fail c (RequiresNumber (Value c)) [])
    end
  else if bool_decide (ty = "date") then
    match parse_date (FieldValue c) with
    | Some day => Ok (set_timestamp (date_unix day) item)
    | None => Err (fail c (RequiresDate (Value c)) [])
    end
  else if bool_decide (ty = "bool") then
    fail_if bool_decide (Op c <> OpEqual) with fail c BoolEquality [] in
    let v := ToLower (FieldValue c) in
    if one_of ["true"; "yes"; "1"] v then Ok (set_boolean true item)
    else if one_of ["false"; "no"; "0"] v then Ok (set_boolean false item)
    else Err (fail c (RequiresBool (Value c)) ["yes"; "no"])
  else if one_of ["text"; "url"; "select"; "multi"] ty then
    fail_if bool_decide (Op c <> OpEqual) with fail c (OnlyEquality (Value c)) [] in
    Ok item
  else if bool_decide (ty = "documentlink") then Err (fail c DocumentLinkValues [])
  else Err (fail c (UnsupportedFieldType ty) []).

(** The filters that name an object of the archive. *)
Definition resolve_object (resolver : Resolver) (c : Clause) : result resolve_error resolved_clause :=
  fail_if bool_decide (Filter c = "has-field") && bool_decide (Op c <> OpEqual)
    with fail c HasFieldEquality [] in
  candidates ← resolve_call resolver (Filter c) (Value c);
  match candidates with
  | [] => Err (fail c (NoMatch (Filter c) (Value c)) [])
  | [cand] =>
      let item := set_id (cand_ID cand) (plain_item c) in
      if bool_decide (Filter c = "field")
      then resolve_field c (set_type (cand_DataType cand) item) else Ok item
  | _ => Err (fail c (Ambiguous (Filter c) (Value c)) (cand_Label <$> candidates))
  end.

Definition resolve_asn (c : Clause) : result resolve_error resolved_clause :=
  if is_none (Value c) then
    fail_if bool_decide (Op c <> OpEqual) with fail c AsnNoneComparison [] in
    Ok (set_value "none" (plain_item c))
  else
    match ParseInt (Value c) with
    | Ok n => Ok (set_integer n (plain_item c))
    | Err _ => Err (fail c AsnInteger ["none"])
    end.

(** One clause; the version mode chosen so far goes in and out ([""] is none). *)
Definition resolve_clause (resolver : Resolver) (versionMode : string) (c : Clause)
    : result resolve_error (resolved_clause * string) :=
  let keep (r : result resolve_error resolved_clause) := (fun i => (i, versionMode)) <$> r in
  if bool_decide (Kind c = ClauseText) then keep (Ok (plain_item c))
  else if one_of ["jd"; "tag"; "from"; "has-field"; "field"] (Filter c) then
    keep (resolve_object resolver c)
  else if bool_decide (Filter c = "asn") then keep (resolve_asn c)
  else if bool_decide (Filter c = "sensitivity") then
    require validSensitivity (Value c)
      else fail c (UnknownSensitivity (Value c)) ["public"; "internal"; "confidential"; "restricted"]
      in keep (Ok (plain_item c))
  else if bool_decide (Filter c = "lang") then
    require validLanguage (Value c) else fail c LanguageCode [] in
    keep (Ok (set_value (ToLower (Value c)) (plain_item c)))
  else if bool_decide (Filter c = "added") then
    match parse_date (Value c) with
    | Some day => keep (Ok (set_timestamp (date_unix day) (plain_item c)))
    | None => Err (fail c (AddedDate (Value c)) [])
    end
  else if bool_decide (Filter c = "date") then
    require ValidateSortValue (Value c) else fail c (DateSortValue (Value c)) [] in
    keep (Ok (plain_item c))
  else if bool_decide (Filter c = "date-role") then
    let v := ToLower (Value c) in
    require ValidDateRole v else fail c (UnknownDateRole (Value c)) DateRoles in
    keep (Ok (set_value v (plain_item c)))
  else if bool_decide (Filter c = "is") then
    if bool_decide (Value c = "inbox") then
      id ← inbox_call resolver; keep (Ok (set_id id (plain_item c)))
    else
      require one_of is_values (Value c) else fail c (UnknownIs (Value c)) is_values in
      keep (Ok (plain_item c))
  else if bool_decide (Filter c = "version") then
    fail_if Negated c with fail c VersionNegated version_modes in
    require one_of version_modes (Value c) else fail c (UnknownVersion (Value c)) version_modes in
    fail_if bool_decide (versionMode <> "") && bool_decide (versionMode <> Value c)
      with fail c VersionConflict [] in
    Ok (plain_item c, Value c)
  else Err (fail c (UnresolvedFilter (Filter c)) []).

Fixpoint resolve_loop (resolver : Resolver) (versionMode : string) (q : Query)
    : result resolve_error (list resolved_clause) :=
  match q with
  | [] => Ok []
  | c :: q =>
      '(item, versionMode) ← resolve_clause resolver versionMode c;
      items ← resolve_loop resolver versionMode q;
      Ok (item :: items)
  end.

Definition Resolve (q : Query) (resolver : Resolver) : result resolve_error (list resolved_clause) :=
  resolve_loop resolver "" q.

(** * Compilation *)

Inductive arg : Type := AInt (z : Z) | AStr (s : string) | AFloat (x : F).

Record Predicate : Type := MkPredicate { SQL : string; Args : list arg }.

Record FieldPresence : Type := MkPresence { fp_FieldID : Z; fp_Negated : bool }.

Record Plan : Type := MkPlan {
  Match : string;
  TrigramMatch : string;
  TextPredicates : list Predicate;
  Predicates : list Predicate;
  HasTrashFilter : bool;
  SelectsTrash : bool;
  VersionMode : string;
  VersionExplicit : bool;
  PlanFieldPresence : list FieldPresence;
}.

(** [unicode.In] over the scripts written without spaces. *)
Context (in_unspaced_script : Z -> bool).

Definition UnspacedScript (text : string) : bool := existsb in_unspaced_script (runes text).

Definition quote : string := String quote_char "".
(** A text as an FTS5 string: quotes doubled, in quotes. *)
Definition fts_string (text : string) : string :=
  quote +:+ replace_all quote_char (quote +:+ quote) text +:+ quote.

Definition in_field (f : TextField) (value : string) : string :=
  match f with
  | TextTitle => "title : " +:+ value
  | TextContent => "content : " +:+ value
  | TextAnywhere => value
  end.

Definition compileTrigramText (c : Clause) : string :=
  if (RuneCountInString (Text c) <? 3)%nat then ""
  else in_field (Field c) (fts_string (Text c)).

Definition compileText (c : Clause) : string :=
  in_field (Field c) (fts_string (Text c) +:+ if Prefix c then "*" else "").

Definition membership_columns (f : TextField) : list string :=
  match f with
  | TextTitle => ["title"] | TextContent => ["content"] | TextAnywhere => ["title"; "content"]
  end.

Definition compileTextMembership (c : Clause) (negated : bool) : Predicate :=
  let sql := "SELECT rowid FROM documents_fts WHERE documents_fts MATCH ?" in
  let args := [AStr (compileText c)] in
  let trigram := compileTrigramText c in
  if bool_decide (trigram <> "") || negb (UnspacedScript (Text c)) then
    let '(sql, args) :=
      if bool_decide (trigram <> "") then
        (sql +:+ " UNION SELECT rowid FROM documents_trigram WHERE documents_trigram MATCH ?",
         args ++ [AStr trigram])
      else (sql, args) in
    MkPredicate ("d.id " +:+ (if negated then "NOT IN" else "IN") +:+ " (" +:+ sql +:+ ")") args
  else
    let columns := membership_columns (Field c) in
    let conditions := ("d.id IN (" +:+ sql +:+ ")") ::
      ((fun column => "COALESCE(instr(d." +:+ column +:+ ", ?) > 0, 0)") <$> columns) in
    let membership := "(" +:+ join " OR " conditions +:+ ")" in
    MkPredicate (if negated then "NOT " +:+ membership else membership)
      (args ++ ((fun _ => AStr (Text c)) <$> columns)).

Definition negate (negated : bool) (sql : string) : string :=
  if negated then "NOT " +:+ sql else sql.
Definition negate_paren (negated : bool) (sql : string) : string :=
  if negated then "NOT (" +:+ sql +:+ ")" else sql.

Definition compileAdded (i : resolved_clause) : Predicate :=
  let column := "COALESCE(d.added_at, d.created_at)" in
  let start := Timestamp i in
  let next := wrap_i64 (start + 24 * 60 * 60) in
  let '(sql, args) :=
    match Op (rc i) with
    | OpEqual => (column +:+ " >= ? AND " +:+ column +:+ " < ?", [AInt start; AInt next])
    | OpGreater => (column +:+ " >= ?", [AInt next])
    | OpGreaterEqual => (column +:+ " >= ?", [AInt start])
    | OpLess => (column +:+ " < ?", [AInt start])
    | OpLessEqual => (column +:+ " < ?", [AInt next])
    end in
  MkPredicate (negate_paren (Negated (rc i)) sql) args.

Definition accepted_fact : string :=
  "EXISTS (SELECT 1 FROM document_intelligence sq_di WHERE sq_di.document_id = d.id AND sq_di.status = 'accepted'".

Definition compileDate (i : resolved_clause) : Predicate :=
  let sql := accepted_fact +:+ " AND sq_di.intelligence_type = 'date' AND sq_di.sort_value "
               +:+ op_string (Op (rc i)) +:+ " ?)" in
  MkPredicate (negate (Negated (rc i)) sql) [AStr (Value (rc i))].

Definition compileCustomField (i : resolved_clause) : Predicate :=
  let prefix := "SELECT 1 FROM document_custom_field_values sq_cfv WHERE sq_cfv.document_id = d.id AND sq_cfv.field_id = ?" in
  let ty := FieldDataType i in
  let '(tail, value) :=
    if one_of ["number"; "monetary"] ty then
      (" AND sq_cfv.value_number " +:+ op_string (Op (rc i)) +:+ " ?", AFloat (Number i))
    else if bool_decide (ty = "date") then
      (" AND sq_cfv.value_date " +:+ op_string (Op (rc i)) +:+ " ?", AInt (Timestamp i))
    else if bool_decide (ty = "bool") then
      (" AND sq_cfv.value_bool = ?", AInt (if Boolean i then 1 else 0))
    else if bool_decide (ty = "multi") then
      (" AND EXISTS (SELECT 1 FROM json_each(sq_cfv.value_text) WHERE value = ? COLLATE NOCASE)",
       AStr (FieldValue (rc i)))
    else (" AND sq_cfv.value_text = ? COLLATE NOCASE", AStr (FieldValue (rc i))) in
  MkPredicate (negate (Negated (rc i)) ("EXISTS (" +:+ prefix +:+ tail +:+ ")")) [AInt (ID i); value].

Definition compileASN (i : resolved_clause) : Predicate :=
  if bool_decide (Value (rc i) = "none") then
    MkPredicate (if Negated (rc i) then "d.archive_serial_number IS NOT NULL"
                 else "d.archive_serial_number IS NULL") []
  else
    MkPredicate (negate_paren (Negated (rc i))
        ("d.archive_serial_number " +:+ op_string (Op (rc i)) +:+ " ?")) [AInt (Integer i)].

(** A pair of texts, the first for the negated clause. *)
Definition either (i : resolved_clause) (negated plain : string) (args : list arg) : Predicate :=
  MkPredicate (if Negated (rc i) then negated else plain) args.

(** [None] is the panic on a value that resolution would have refused. *)
Definition compileIs (i : resolved_clause) : option Predicate :=
  let v := Value (rc i) in
  if bool_decide (v = "inbox") then
    Some (either i "d.jd_category_id != ?" "d.jd_category_id = ?" [AInt (ID i)])
  else if bool_decide (v = "trash") then
    Some (either i "d.trashed_at IS NULL" "d.trashed_at IS NOT NULL" [])
  else if bool_decide (v = "encrypted") then
    Some (either i "COALESCE(d.encryption_state, '') != 'encrypted'"
            "d.encryption_state = 'encrypted'" [])
  else if bool_decide (v = "dated") then
    Some (MkPredicate (negate (Negated (rc i)) (accepted_fact +:+ ")")) [])
  else if bool_decide (v = "processing") then
    Some (MkPredicate (negate (Negated (rc i))
      "EXISTS (SELECT 1 FROM jobs sq_j WHERE sq_j.doc_id = d.id AND sq_j.state IN ('pending', 'running') AND sq_j.kind IN ('post-ingest', 'post-classify'))") [])
  else None.

Definition linked (table alias column : string) : string :=
  "EXISTS (SELECT 1 FROM " +:+ table +:+ " " +:+ alias +:+ " WHERE " +:+ alias
    +:+ ".document_id = d.id AND " +:+ alias +:+ "." +:+ column +:+ " = ?)".

Definition compileFilter (i : resolved_clause) : option Predicate :=
  let f := Filter (rc i) in
  let v := Value (rc i) in
  if bool_decide (f = "jd") then
    Some (either i "d.jd_category_id != ?" "d.jd_category_id = ?" [AInt (ID i)])
  else if bool_decide (f = "tag") then
    Some (MkPredicate (negate (Negated (rc i)) (linked "document_tags" "sq_dt" "tag_id")) [AInt (ID i)])
  else if bool_decide (f = "from") then
    Some (MkPredicate (negate (Negated (rc i))
            (linked "document_correspondents" "sq_dc" "correspondent_id")) [AInt (ID i)])
  else if bool_decide (f = "field") then Some (compileCustomField i)
  else if bool_decide (f = "asn") then Some (compileASN i)
  else if bool_decide (f = "sensitivity") then
    Some (either i "COALESCE(d.sensitivity, '') != ?" "d.sensitivity = ?" [AStr v])
  else if bool_decide (f = "lang") then
    Some (either i "d.languages NOT LIKE ?" "d.languages LIKE ?" [AStr ("%," +:+ v +:+ ",%")])
  else if bool_decide (f = "added") then Some (compileAdded i)
  else if bool_decide (f = "date") then Some (compileDate i)
  else if bool_decide (f = "date-role") then
    Some (MkPredicate (negate (Negated (rc i))
      (accepted_fact +:+ " AND sq_di.intelligence_type = 'date' AND sq_di.role = ?)")) [AStr v])
  else if bool_decide (f = "is") then compileIs i
  else None.

(** The loop's state: the plan so far, the positive texts, and the conditions of
    the accepted-date EXISTS with the index reserved for it. *)
Record compile_state : Type := CompileState {
  cs_plan : Plan;
  cs_text : list string;
  cs_trigram : list string;
  cs_date_index : option nat;
  cs_date_where : list string;
  cs_date_args : list arg;
}.

Definition empty_plan : Plan := MkPlan "" "" [] [] false false "latest" false [].
Definition initial_state : compile_state :=
  CompileState empty_plan [] [] None
    ["sq_di.document_id = d.id"; "sq_di.status = 'accepted'"; "sq_di.intelligence_type = 'date'"] [].

Definition set_plan (f : Plan -> Plan) (s : compile_state) : compile_state :=
  CompileState (f (cs_plan s)) (cs_text s) (cs_trigram s) (cs_date_index s) (cs_date_where s)
    (cs_date_args s).
Definition add_predicate (p : Predicate) (pl : Plan) : Plan :=
  MkPlan (Match pl) (TrigramMatch pl) (TextPredicates pl) (Predicates pl ++ [p])
    (HasTrashFilter pl) (SelectsTrash pl) (VersionMode pl) (VersionExplicit pl) (PlanFieldPresence pl).
Definition add_text_predicate (p : Predicate) (pl : Plan) : Plan :=
  MkPlan (Match pl) (TrigramMatch pl) (TextPredicates pl ++ [p]) (Predicates pl)
    (HasTrashFilter pl) (SelectsTrash pl) (VersionMode pl) (VersionExplicit pl) (PlanFieldPresence pl).
Definition set_version (v : string) (pl : Plan) : Plan :=
  MkPlan (Match pl) (TrigramMatch pl) (TextPredicates pl) (Predicates pl)
    (HasTrashFilter pl) (SelectsTrash pl) v true (PlanFieldPresence pl).
Definition add_presence (p : FieldPresence) (pl : Plan) : Plan :=
  MkPlan (Match pl) (TrigramMatch pl) (TextPredicates pl) (Predicates pl)
    (HasTrashFilter pl) (SelectsTrash pl) (VersionMode pl) (VersionExplicit pl)
    (PlanFieldPresence pl ++ [p]).
Definition set_trash (selects : bool) (pl : Plan) : Plan :=
  MkPlan (Match pl) (TrigramMatch pl) (TextPredicates pl) (Predicates pl)
    true selects (VersionMode pl) (VersionExplicit pl) (PlanFieldPresence pl).

(** A positive accepted-date clause joins the one EXISTS. *)
Definition add_date (i : resolved_clause) (s : compile_state) : compile_state :=
  let s := match cs_date_index s with
           | Some _ => s
           | None => CompileState (add_predicate (MkPredicate "" []) (cs_plan s)) (cs_text s)
                       (cs_trigram s) (Some (length (Predicates (cs_plan s)))) (cs_date_where s)
                       (cs_date_args s)
           end in
  let condition := if bool_decide (Filter (rc i) = "date")
                   then "sq_di.sort_value " +:+ op_string (Op (rc i)) +:+ " ?"
                   else "sq_di.role = ?" in
  CompileState (cs_plan s) (cs_text s) (cs_trigram s) (cs_date_index s)
    (cs_date_where s ++ [condition]) (cs_date_args s ++ [AStr (Value (rc i))]).

Definition compile_clause (s : compile_state) (i : resolved_clause) : option compile_state :=
  let c := rc i in
  if bool_decide (Kind c = ClauseText) then
    let predicate := compileTextMembership c (Negated c) in
    if Negated c then Some (set_plan (add_predicate predicate) s)
    else
      let trigram := compileTrigramText c in
      Some (CompileState (add_text_predicate predicate (cs_plan s)) (cs_text s ++ [compileText c])
        (if bool_decide (trigram <> "") then cs_trigram s ++ [trigram] else cs_trigram s)
        (cs_date_index s) (cs_date_where s) (cs_date_args s))
  else if bool_decide (Filter c = "version") then Some (set_plan (set_version (Value c)) s)
  else if bool_decide (Filter c = "has-field") then
    Some (set_plan (add_presence (MkPresence (ID i) (Negated c))) s)
  else if negb (Negated c) && (bool_decide (Filter c = "date") || bool_decide (Filter c = "date-role"))
  then Some (add_date i s)
  else
    predicate ← compileFilter i;
    let s := set_plan (add_predicate predicate) s in
    Some (if bool_decide (Filter c = "is") && bool_decide (Value c = "trash")
          then set_plan (set_trash (negb (Negated c))) s else s).

Fixpoint compile_loop (s : compile_state) (q : list resolved_clause) : option compile_state :=
  match q with
  | [] => Some s
  | i :: q => s ← compile_clause s i; compile_loop s q
  end.

Definition date_predicate (s : compile_state) : Predicate :=
  MkPredicate ("EXISTS (SELECT 1 FROM document_intelligence sq_di WHERE "
    +:+ join " AND " (cs_date_where s) +:+ ")") (cs_date_args s).

Definition finish_plan (s : compile_state) : Plan :=
  let pl := cs_plan s in
  MkPlan (join " AND " (cs_text s)) (join " AND " (cs_trigram s)) (TextPredicates pl)
    (match cs_date_index s with
     | Some n => <[n := date_predicate s]> (Predicates pl)
     | None => Predicates pl
     end)
    (HasTrashFilter pl) (SelectsTrash pl) (VersionMode pl) (VersionExplicit pl) (PlanFieldPresence pl).

(** [Compile]; [None] is its panic on a clause that was not resolved. *)
Definition Compile (q : list resolved_clause) : option Plan :=
  finish_plan <$> compile_loop initial_state q.

End Search.

(** * Lemmas *)

Lemma count_byte_app c s t : count_byte c (s +:+ t) = (count_byte c s + count_byte c t)%nat.
Proof.
  induction s as [|d s IH]; [done|]. rewrite append_cons. cbn [count_byte]. rewrite IH. lia.
Qed.

Definition placeholder : ascii := "?"%char.

Lemma count_join c sep parts :
  count_byte c sep = 0%nat ->
  count_byte c (join sep parts) = sum_list (count_byte c <$> parts).
Proof.
  intros Hs. induction parts as [|p parts IH]; [done|]. rewrite fmap_cons.
  destruct parts as [|p' parts]; [cbn; lia|].
  change (join sep (p :: p' :: parts)) with (p +:+ sep +:+ join sep (p' :: parts)).
  rewrite !count_byte_app, Hs, IH. done.
Qed.

Section Theory.
Context {F : Type} (zero_float : F) (ParseFloat : string -> option F) (opp_float : F -> F).
Context (IsLetter IsCurrency : Z -> bool) (in_unspaced_script : Z -> bool).
(** Every placeholder of the text has its argument. *)
Definition balanced (p : @Predicate F) : Prop := count_byte placeholder (SQL p) = length (Args p).

(** What resolution guarantees to compilation. *)
Definition compilable (i : @resolved_clause F) : Prop :=
  Kind (rc i) = ClauseText \/
  one_of ["jd"; "tag"; "from"; "has-field"; "field"; "asn"; "sensitivity"; "lang"; "added"; "date";
          "date-role"; "version"] (Filter (rc i)) = true \/
  Filter (rc i) = "is" /\ one_of is_values (Value (rc i)) = true.

Lemma one_of_In l v : one_of l v = true <-> In v l.
Proof.
  unfold one_of. rewrite existsb_exists. split.
  - intros (x & Hx & Heq). apply String.eqb_eq in Heq as ->. done.
  - intros H. exists v. by rewrite String.eqb_refl.
Qed.

Lemma one_of_app l v : forall l', one_of l v = true -> (forall x, In x l -> In x l') -> one_of l' v = true.
Proof. intros l' H Hsub. apply one_of_In. apply Hsub. by apply one_of_In. Qed.

Ltac count_strings :=
  rewrite ?count_byte_app;
  repeat match goal with |- context [count_byte placeholder (op_string ?op)] =>
    replace (count_byte placeholder (op_string op)) with 0%nat by by destruct op end;
  reflexivity.

Lemma balanced_either i a b (args : list (@arg F)) :
  count_byte placeholder a = length args -> count_byte placeholder b = length args ->
  balanced (either i a b args).
Proof. intros Ha Hb. unfold balanced, either. cbn [SQL Args]. by destruct (Negated _). Qed.

Lemma balanced_negate n sql (args : list (@arg F)) :
  count_byte placeholder sql = length args -> balanced (MkPredicate (negate n sql) args).
Proof. intros H. unfold balanced, negate. cbn [SQL Args]. destruct n; [|done]. rewrite count_byte_app. exact H. Qed.

Lemma balanced_negate_paren n sql (args : list (@arg F)) :
  count_byte placeholder sql = length args -> balanced (MkPredicate (negate_paren n sql) args).
Proof.
  intros H. unfold balanced, negate_paren. cbn [SQL Args]. destruct n; [|done].
  rewrite !count_byte_app, H. change (count_byte placeholder "NOT (") with 0%nat.
  change (count_byte placeholder ")") with 0%nat. lia.
Qed.

Lemma compileTextMembership_balanced c n : balanced (compileTextMembership in_unspaced_script c n).
Proof.
  unfold compileTextMembership, balanced. destruct (bool_decide _ || _).
  - destruct (bool_decide _); cbn [SQL Args]; destruct n; count_strings.
  - cbn [SQL Args]. assert (H : forall sql, count_byte placeholder (if n then "NOT " +:+ sql else sql)
      = count_byte placeholder sql) by (intros sql; destruct n; [by rewrite count_byte_app|done]).
    rewrite H. clear H. destruct (Field c); cbn [membership_columns fmap list_fmap join]; count_strings.
Qed.

Lemma compileIs_total (i : @resolved_clause F) :
  one_of is_values (Value (rc i)) = true -> exists p, compileIs i = Some p /\ balanced p.
Proof.
  rewrite one_of_In. unfold compileIs. intros H. cbn in H.
  repeat destruct H as [<-|H]; [..|done]; repeat (rewrite bool_decide_false by done);
    rewrite bool_decide_true by done; eexists; split; try reflexivity;
    try (apply balanced_either; reflexivity); apply balanced_negate; reflexivity.
Qed.

Lemma compileCustomField_balanced (i : @resolved_clause F) : balanced (compileCustomField i).
Proof.
  unfold compileCustomField.
  repeat match goal with |- context [if ?b then (_, _) else _] => destruct b end;
    apply balanced_negate; count_strings.
Qed.

Lemma compileFilter_total (i : @resolved_clause F) :
  compilable i -> Kind (rc i) = ClauseFilter -> Filter (rc i) <> "version" ->
  Filter (rc i) <> "has-field" -> exists p, compileFilter i = Some p /\ balanced p.
Proof.
  intros [Hk|[H|[Hf H]]] Hkind Hv Hh; [congruence| |].
  - rewrite one_of_In in H. unfold compileFilter. cbn zeta. cbn in H.
    repeat destruct H as [H|H]; try done; try (by destruct Hv); try (by destruct Hh);
      rewrite <- H; repeat (rewrite bool_decide_false by done);
      rewrite bool_decide_true by done; eexists; (split; [reflexivity|]);
      try (apply balanced_either; reflexivity); try (apply balanced_negate; reflexivity).
    + apply compileCustomField_balanced.
    + unfold compileASN. destruct (bool_decide _).
      * by destruct (Negated _).
      * apply balanced_negate_paren. count_strings.
    + unfold compileAdded. destruct (Op (rc i)); apply balanced_negate_paren; reflexivity.
    + apply balanced_negate. unfold accepted_fact. count_strings.
  - unfold compileFilter. rewrite Hf. repeat (rewrite bool_decide_false by done).
    rewrite bool_decide_true by done. by apply compileIs_total.
Qed.

(** The state's predicates are balanced, and so is the date condition it collects. *)
Record state_balanced (s : @compile_state F) : Prop := StateBalanced {
  sb_text : Forall balanced (TextPredicates (cs_plan s));
  sb_preds : Forall balanced (Predicates (cs_plan s));
  sb_date : sum_list (count_byte placeholder <$> cs_date_where s) = length (cs_date_args s);
}.

Lemma add_date_balanced (i : @resolved_clause F) s : state_balanced s -> state_balanced (add_date i s).
Proof.
  intros [H1 H2 H3].
  assert (Hc : forall n, n = 0%nat -> (sum_list (count_byte placeholder <$> cs_date_where s ++
      [if bool_decide (Filter (rc i) = "date")
       then "sq_di.sort_value " +:+ op_string (Op (rc i)) +:+ " ?" else "sq_di.role = ?"]) + n)%nat =
    length (cs_date_args s ++ [@AStr F (Value (rc i))])).
  { intros n ->. rewrite fmap_app, sum_list_with_app, length_app, H3. cbn [fmap list_fmap length].
    rewrite Nat.add_0_r. f_equal. destruct (bool_decide _); [|reflexivity].
    cbn [sum_list_with]. unfold id. count_strings. }
  specialize (Hc 0%nat eq_refl). rewrite Nat.add_0_r in Hc.
  unfold add_date. destruct (cs_date_index s); split; cbn; try done.
  apply Forall_app. split; [done|by constructor].
Qed.

Lemma compile_clause_total s (i : @resolved_clause F) :
  compilable i -> state_balanced s ->
  exists s', compile_clause in_unspaced_script s i = Some s' /\ state_balanced s'.
Proof.
  intros Hi Hs. pose proof Hs as [H1 H2 H3]. unfold compile_clause.
  destruct (bool_decide (Kind (rc i) = ClauseText)) eqn:Hk.
  { destruct (Negated (rc i)); eexists; (split; [reflexivity|]); split; cbn; try done;
      apply Forall_app; split; try done; constructor; [apply compileTextMembership_balanced|done|
        apply compileTextMembership_balanced|done]. }
  bool_simpl. destruct (bool_decide (Filter (rc i) = "version")) eqn:Hv.
  { eexists. split; [reflexivity|]. by split. }
  destruct (bool_decide (Filter (rc i) = "has-field")) eqn:Hh.
  { eexists. split; [reflexivity|]. by split. }
  bool_simpl. destruct (negb _ && _).
  { eexists. split; [reflexivity|]. by apply add_date_balanced. }
  destruct (compileFilter_total i Hi) as (p & -> & Hp); try done.
  { by destruct (Kind (rc i)). }
  cbn [mbind option_bind]. eexists. split; [reflexivity|].
  destruct (_ && _); split; cbn; try done; apply Forall_app; split; try done; by constructor.
Qed.

Lemma compile_loop_total s (q : list (@resolved_clause F)) :
  Forall compilable q -> state_balanced s ->
  exists s', compile_loop in_unspaced_script s q = Some s' /\ state_balanced s'.
Proof.
  intros Hq; revert s; induction Hq as [|i q Hi _ IH]; intros s Hs; [by exists s|].
  destruct (compile_clause_total s i Hi Hs) as (s' & Hs' & Hb). cbn [compile_loop].
  rewrite Hs'. cbn [mbind option_bind]. by apply IH.
Qed.

Lemma date_predicate_balanced (s : @compile_state F) : state_balanced s -> balanced (date_predicate s).
Proof.
  intros [_ _ H]. unfold balanced, date_predicate. cbn [SQL Args].
  rewrite !count_byte_app, (count_join _ " AND ") by reflexivity. rewrite H.
  repeat match goal with |- context [count_byte placeholder (String ?c ?t)] =>
    change (count_byte placeholder (String c t)) with 0%nat end. lia.
Qed.

(** ** Resolved clauses compile *)

Definition known_filter (f : string) : Prop :=
  one_of ["jd"; "tag"; "from"; "has-field"; "field"; "asn"; "sensitivity"; "lang"; "added"; "date";
          "date-role"; "version"] f = true.

Lemma resolve_field_rc c (item item' : @resolved_clause F) :
  resolve_field ParseFloat opp_float IsLetter IsCurrency c item = Ok item' -> rc item' = rc item.
Proof.
  unfold resolve_field. cbn zeta. intros H. split_flow_in H; by injection H as <-.
Qed.

Lemma resolve_object_rc r c (item : @resolved_clause F) :
  resolve_object zero_float ParseFloat opp_float IsLetter IsCurrency r c = Ok item -> rc item = c.
Proof.
  unfold resolve_object. destruct (_ && _); [done|]. intros H. inv_ok H.
  destruct a as [|cand [|? ?]]; try done. cbn zeta in H.
  destruct (bool_decide _); [|by injection H as <-]. by apply resolve_field_rc in H.
Qed.

Lemma resolve_clause_compilable r v c (item : @resolved_clause F) v' :
  resolve_clause zero_float ParseFloat opp_float IsLetter IsCurrency r v c = Ok (item, v') ->
  compilable item.
Proof.
  unfold resolve_clause. cbn zeta. destruct (bool_decide (Kind c = ClauseText)) eqn:Hk.
  { bool_simpl. intros [= <- <-]. by left. }
  assert (Hknown : forall i : @resolved_clause F, known_filter (Filter (rc i)) -> compilable i)
    by (intros i Hi; right; by left).
  destruct (one_of _ (Filter c)) eqn:Ho.
  { intros H. apply fmap_Ok in H as (a & Ha & [= -> _]). apply resolve_object_rc in Ha.
    apply Hknown. rewrite Ha. eapply one_of_app; [exact Ho|]. cbn. tauto. }
  destruct (bool_decide (Filter c = "asn")) eqn:E1.
  { bool_simpl. intros H. apply fmap_Ok in H as (a & Ha & [= -> _]). apply Hknown.
    unfold resolve_asn in Ha. split_flow_in Ha; injection Ha as <-; cbn; by rewrite E1. }
  destruct (bool_decide (Filter c = "sensitivity")) eqn:E2.
  { bool_simpl. destruct (validSensitivity _); [|done]. intros [= <- _]. apply Hknown. cbn. by rewrite E2. }
  destruct (bool_decide (Filter c = "lang")) eqn:E3.
  { bool_simpl. destruct (validLanguage _); [|done]. intros [= <- _]. apply Hknown. cbn. by rewrite E3. }
  destruct (bool_decide (Filter c = "added")) eqn:E4.
  { bool_simpl. destruct (parse_date _); [|done]. intros [= <- _]. apply Hknown. cbn. by rewrite E4. }
  destruct (bool_decide (Filter c = "date")) eqn:E5.
  { bool_simpl. destruct (ValidateSortValue _); [|done]. intros [= <- _]. apply Hknown. cbn. by rewrite E5. }
  destruct (bool_decide (Filter c = "date-role")) eqn:E6.
  { bool_simpl. destruct (ValidDateRole _); [|done]. intros [= <- _]. apply Hknown. cbn. by rewrite E6. }
  destruct (bool_decide (Filter c = "is")) eqn:E7.
  { bool_simpl. right. right. destruct (bool_decide (Value c = "inbox")) eqn:Ei.
    - bool_simpl. inv_ok H. injection H as <- _. cbn. by rewrite E7, Ei.
    - destruct (one_of is_values (Value c)) eqn:Ev; [|done]. injection H as <- _. cbn. by rewrite E7. }
  destruct (bool_decide (Filter c = "version")) eqn:E8; [|done].
  bool_simpl. intros H. split_flow_in H. injection H as <- _. apply Hknown. cbn. by rewrite E8.
Qed.

Lemma resolve_loop_compilable r v q items :
  resolve_loop zero_float ParseFloat opp_float IsLetter IsCurrency r v q = Ok items ->
  Forall compilable items.
Proof.
  revert v items; induction q as [|c q IH]; intros v items H.
  { injection H as <-. constructor. }
  cbn [resolve_loop] in H. inv_ok H. destruct a as [item v']. cbn in H. inv_ok H.
  injection H as <-. constructor; [by eapply resolve_clause_compilable|by eapply IH].
Qed.

(** ** The SQL text depends on the query's shape only *)

(** The same kinds, fields, filters and operators; user-supplied texts, numbers,
    dates and object ids may differ, except where a value is itself a keyword of the
    language ([is:trash], [asn:none]) or selects the index that can find it. *)
Record same_shape (i i' : @resolved_clause F) : Prop := SameShape {
  sh_kind : Kind (rc i) = Kind (rc i');
  sh_negated : Negated (rc i) = Negated (rc i');
  sh_field : Field (rc i) = Field (rc i');
  sh_filter : Filter (rc i) = Filter (rc i');
  sh_op : Op (rc i) = Op (rc i');
  sh_type : FieldDataType i = FieldDataType i';
  sh_trigram : bool_decide (compileTrigramText (rc i) <> "") =
               bool_decide (compileTrigramText (rc i') <> "");
  sh_script : UnspacedScript in_unspaced_script (Text (rc i)) =
              UnspacedScript in_unspaced_script (Text (rc i'));
  sh_is : Filter (rc i) = "is" -> Value (rc i) = Value (rc i');
  sh_none : bool_decide (Value (rc i) = "none") = bool_decide (Value (rc i') = "none");
}.

Definition same_sql (p p' : @Predicate F) : Prop := SQL p = SQL p'.

Lemma compileTextMembership_shape (i i' : @resolved_clause F) n :
  same_shape i i' ->
  same_sql (compileTextMembership in_unspaced_script (rc i) n)
           (compileTextMembership in_unspaced_script (rc i') n).
Proof.
  intros [_ _ Hf _ _ _ Ht Hs _ _]. unfold same_sql, compileTextMembership. cbn zeta. rewrite Ht, Hs, Hf.
  destruct (bool_decide (compileTrigramText (rc i') <> "")); cbn [orb]; [done|].
  by destruct (negb _).
Qed.

Lemma compileFilter_shape (i i' : @resolved_clause F) :
  same_shape i i' ->
  match compileFilter i, compileFilter i' with
  | Some p, Some p' => same_sql p p'
  | None, None => True
  | _, _ => False
  end.
Proof.
  intros [_ Hn _ Hf Ho Ht _ _ Hi Hnone].
  unfold compileFilter, compileIs, compileCustomField, compileASN, compileAdded, compileDate, either,
    same_sql. cbn zeta. rewrite <- Hf, Hn, Ho, Ht, Hnone.
  destruct (bool_decide (Filter (rc i) = "jd")); [done|].
  destruct (bool_decide (Filter (rc i) = "tag")); [done|].
  destruct (bool_decide (Filter (rc i) = "from")); [done|].
  destruct (bool_decide (Filter (rc i) = "field")).
  { repeat match goal with |- context [if ?b then (_, _) else _] => destruct b end; done. }
  destruct (bool_decide (Filter (rc i) = "asn")).
  { destruct (bool_decide (Value (rc i') = "none")); reflexivity. }
  destruct (bool_decide (Filter (rc i) = "sensitivity")); [done|].
  destruct (bool_decide (Filter (rc i) = "lang")); [done|].
  destruct (bool_decide (Filter (rc i) = "added")).
  { destruct (Op (rc i')); done. }
  destruct (bool_decide (Filter (rc i) = "date")); [done|].
  destruct (bool_decide (Filter (rc i) = "date-role")); [done|].
  destruct (bool_decide (Filter (rc i) = "is")) eqn:Eis; [|done]. bool_simpl.
  rewrite <- (Hi Eis).
  repeat match goal with |- context [if bool_decide ?P then Some _ else _] =>
    destruct (bool_decide P); [done|] end. done.
Qed.

Record sim (s s' : @compile_state F) : Prop := Sim {
  sim_text : Forall2 same_sql (TextPredicates (cs_plan s)) (TextPredicates (cs_plan s'));
  sim_preds : Forall2 same_sql (Predicates (cs_plan s)) (Predicates (cs_plan s'));
  sim_index : cs_date_index s = cs_date_index s';
  sim_where : cs_date_where s = cs_date_where s';
}.

Lemma add_date_sim (i i' : @resolved_clause F) s s' :
  same_shape i i' -> sim s s' -> sim (add_date i s) (add_date i' s').
Proof.
  intros [_ _ _ Hf Ho _ _ _ _ _] [H1 H2 H3 H4]. unfold add_date.
  rewrite <- H3, Hf, Ho. destruct (cs_date_index s) eqn:E.
  - split; cbn; try done; congruence.
  - split; cbn; try done; [|by apply Forall2_length in H2; congruence|congruence].
    apply Forall2_app; [done|by repeat constructor].
Qed.

Lemma compile_clause_sim (i i' : @resolved_clause F) s s' :
  same_shape i i' -> sim s s' ->
  match compile_clause in_unspaced_script s i, compile_clause in_unspaced_script s' i' with
  | Some t, Some t' => sim t t'
  | None, None => True
  | _, _ => False
  end.
Proof.
  intros Hsh Hsim. pose proof Hsh as [Hk Hn Hfd Hf Ho Ht Htr Hsc Hi Hnone].
  pose proof Hsim as [H1 H2 H3 H4]. unfold compile_clause. cbn zeta. rewrite <- Hk, <- Hn, <- Hf.
  destruct (bool_decide (Kind (rc i) = ClauseText)).
  { destruct (Negated (rc i)); split; cbn; try done; apply Forall2_app; try done;
      (constructor; [by apply compileTextMembership_shape|constructor]). }
  destruct (bool_decide (Filter (rc i) = "version")); [by split|].
  destruct (bool_decide (Filter (rc i) = "has-field")); [by split|].
  destruct (negb _ && _); [by apply add_date_sim|].
  pose proof (compileFilter_shape i i' Hsh) as Hc.
  destruct (compileFilter i) as [p|], (compileFilter i') as [p'|]; cbn [mbind option_bind]; try done.
  assert (Hadd : Forall2 same_sql (Predicates (cs_plan s) ++ [p]) (Predicates (cs_plan s') ++ [p']))
    by (apply Forall2_app; [done|by repeat constructor]).
  destruct (bool_decide (Filter (rc i) = "is")) eqn:E; cbn [andb]; [|split; cbn; done].
  bool_simpl. rewrite <- (Hi E).
  destruct (bool_decide (Value (rc i) = "trash")); split; cbn; done.
Qed.

Lemma compile_loop_sim (q q' : list (@resolved_clause F)) s s' :
  Forall2 same_shape q q' -> sim s s' ->
  match compile_loop in_unspaced_script s q, compile_loop in_unspaced_script s' q' with
  | Some t, Some t' => sim t t'
  | None, None => True
  | _, _ => False
  end.
Proof.
  intros Hq; revert s s'; induction Hq as [|i i' q q' Hi _ IH]; intros s s' Hs; [done|].
  cbn [compile_loop]. pose proof (compile_clause_sim i i' s s' Hi Hs) as Hc.
  destruct (compile_clause _ s i) as [t|], (compile_clause _ s' i') as [t'|]; cbn [mbind option_bind];
    try done. by apply IH.
Qed.

Lemma Forall2_same_sql_map l l' : Forall2 same_sql l l' -> SQL <$> l = SQL <$> l'.
Proof. induction 1 as [|p p' l l' Hp _ IH]; [done|]. rewrite !fmap_cons. by rewrite Hp, IH. Qed.

(** * Properties *)

(** Whatever resolves also compiles (the compiler's panics are unreachable),
    and in every predicate each placeholder has exactly one argument. *)
Theorem Resolve_Compile q resolver items :
  Resolve zero_float ParseFloat opp_float IsLetter IsCurrency q resolver = Ok items ->
  exists plan, Compile in_unspaced_script items = Some plan /\
    Forall balanced (TextPredicates plan) /\ Forall balanced (Predicates plan).
Proof.
  intros H. apply resolve_loop_compilable in H.
  destruct (compile_loop_total initial_state items H) as (s & Hs & Hb).
  { by repeat constructor. }
  unfold Compile. rewrite Hs. eexists. split; [reflexivity|]. cbn. split; [apply Hb|].
  destruct (cs_date_index s); [|apply Hb]. apply Forall_insert; [apply Hb|].
  by apply date_predicate_balanced.
Qed.

(** No text of the user reaches the SQL: two resolved queries of the same shape
    compile to the same statements, whatever their words, values, dates and ids. *)
Theorem Compile_shape (q q' : list (@resolved_clause F)) plan :
  Forall2 same_shape q q' -> Compile in_unspaced_script q = Some plan ->
  exists plan', Compile in_unspaced_script q' = Some plan' /\
    SQL <$> TextPredicates plan = SQL <$> TextPredicates plan' /\
    SQL <$> Predicates plan = SQL <$> Predicates plan'.
Proof.
  intros Hq H. unfold Compile in *.
  pose proof (compile_loop_sim q q' initial_state initial_state Hq) as Hs.
  destruct (compile_loop _ _ q) as [s|]; [|done]. injection H as <-.
  destruct (compile_loop _ _ q') as [s'|]; [|by destruct Hs].
  destruct Hs as [H1 H2 H3 H4]; [by split|]. eexists. split; [reflexivity|]. cbn.
  split; [by apply Forall2_same_sql_map|]. rewrite <- H3.
  destruct (cs_date_index s); apply Forall2_same_sql_map; [|done].
  apply Forall2_insert; [done|]. unfold same_sql, date_predicate. cbn. by rewrite H4.
Qed.

End Theory.

(** * Witnesses *)

Definition w_resolver : Resolver :=
  MkResolver (fun _ value => Ok [MkCandidate 7 value "date"]) (Ok 3).
Definition w_search (day : string) : Query :=
  [MkClause ClauseText false 0 "invoice" TextAnywhere true "" OpEqual "" false "" false;
   MkClause ClauseFilter true 8 "" TextAnywhere false "field" OpLess "Due" true day false;
   MkClause ClauseFilter false 30 "" TextAnywhere false "date" OpGreaterEqual day false "" false;
   MkClause ClauseFilter false 40 "" TextAnywhere false "is" OpEqual "trash" false "" false].

Definition w_resolve (day : string) : result resolve_error (list (@resolved_clause Z)) :=
  Resolve 0 (fun _ => None) Z.opp (fun _ => false) (fun _ => false) (w_search day) w_resolver.
Definition w_items (day : string) : list (@resolved_clause Z) :=
  match w_resolve day with Ok items => items | Err _ => [] end.

Lemma Resolve_Compile_witness :
  exists plan, Compile (fun _ => false) (w_items "2024-02-29") = Some plan /\
    Forall balanced (Predicates plan) /\ SelectsTrash plan = true.
Proof.
  destruct (Resolve_Compile 0 (fun _ => None) Z.opp (fun _ => false) (fun _ => false)
    (fun _ => false) (w_search "2024-02-29") w_resolver (w_items "2024-02-29"))
    as (plan & Hp & _ & Hb).
  - vm_compute. reflexivity.
  - exists plan. split; [exact Hp|]. split; [exact Hb|].
    vm_compute in Hp. injection Hp as <-. reflexivity.
Defined.

Lemma Compile_shape_witness :
  exists plan plan', Compile (fun _ => false) (w_items "2024-02-29") = Some plan /\
    Compile (fun _ => false) (w_items "1999-12-31") = Some plan' /\
    SQL <$> Predicates plan = SQL <$> Predicates plan'.
Proof.
  assert (Hsome : exists plan, Compile (fun _ => false) (w_items "2024-02-29") = Some plan)
    by (eexists; vm_compute; reflexivity).
  destruct Hsome as (plan & Hp).
  destruct (Compile_shape (fun _ => false) (w_items "2024-02-29") (w_items "1999-12-31") plan)
    as (plan' & Hp' & _ & H).
  - repeat apply Forall2_cons_2; try apply Forall2_nil_2; split; vm_compute; reflexivity || discriminate.
  - exact Hp.
  - exists plan, plan'. split; [exact Hp|]. split; [exact Hp'|exact H].
Defined.
