(* ===== verification/SearchComplete.v ===== *)
(** Completion at the end of a query ([core/searchquery/complete.go]). *)
From S2P Require Import Prelude GoStd Utf8 SearchQuery.

Record CompletionContext : Type := MkContext {
  ctx_Start : nat;
  ctx_Filter : string;
  ctx_Prefix : string;
  ctx_FilterName : bool;
  ctx_Negated : bool;
}.

(** [activeTokenStart]: the loop over the runes with its three variables. *)
Fixpoint token_start_loop (rs : list (nat * Z * nat)) (start : nat) (quoted escaped : bool) : nat :=
  match rs with
  | [] => start
  | (index, r, _) :: rs =>
      if escaped then token_start_loop rs start quoted false
      else if r =? 92 then token_start_loop rs start quoted true
      else if r =? 34 then token_start_loop rs start (negb quoted) false
      else token_start_loop rs
             (if negb quoted && isQuerySpace r then (index + rune_len r)%nat else start) quoted false
  end.
Definition activeTokenStart (input : string) : nat :=
  token_start_loop (range_string input) 0 false false.

(** [unescapedColon]: [None] is -1. *)
Fixpoint colon_loop (rs : list (nat * Z * nat)) (escaped : bool) : option nat :=
  match rs with
  | [] => None
  | (index, r, _) :: rs =>
      if escaped then colon_loop rs false
      else if r =? 92 then colon_loop rs true
      else if r =? 58 then Some index
      else colon_loop rs false
  end.
Definition unescapedColon (value : string) : option nat := colon_loop (range_string value) false.

Fixpoint unescape_loop (rs : list Z) (escaped : bool) : string :=
  match rs with
  | [] => ""
  | r :: rs =>
      if escaped then encode_rune r +:+ unescape_loop rs false
      else if r =? 92 then unescape_loop rs true
      else if r =? 34 then ""
      else encode_rune r +:+ unescape_loop rs false
  end.
Definition unescapeCompletionPrefix (value : string) : string := unescape_loop (runes value) false.

Definition isLowerASCII (value : string) : bool :=
  forallb (fun r => (97 <=? r) && (r <=? 122)) (runes value) && bool_decide (value <> "").

(** [strings.TrimPrefix]. *)
Definition trim_prefix (s p : string) : string :=
  if has_prefix s p then sdrop (String.length p) s else s.

Definition CompletionAtEnd (input : string) : option CompletionContext :=
  if bool_decide (input = "") || (MaxQueryBytes <? slen input) then None
  else
    let start := activeTokenStart input in
    let active := sdrop start input in
    if bool_decide (active = "") then None
    else
      let negated := has_prefix active "-" in
      let active := if negated then sdrop 1 active else active in
      if bool_decide (active = "") then None
      else
        match unescapedColon active with
        | None =>
            if negb (isLowerASCII active) then None
            else if existsb (fun name => has_prefix name active) FilterNames
            then Some (MkContext start "" active true negated)
            else None
        | Some colon =>
            let name := stake colon active in
            if negb (IsFilterName name) then None
            else
              let value := trim_prefix (sdrop (S colon) active) (String quote_char "") in
              Some (MkContext start name (unescapeCompletionPrefix value) false negated)
        end.

(** [ApplyCompletion]; [None] is the slice panic on a start beyond the input. *)
Definition ApplyCompletion (input : string) (context : CompletionContext) (token : string)
    : option string :=
  if (ctx_Start context <=? String.length input)%nat then
    Some (stake (ctx_Start context) input
          +:+ (if ctx_Negated context then "-" +:+ token else token))
  else None.

(** * Lemmas *)

Lemma range_loop_within skip pos s i r n :
  (i, r, n) ∈ range_loop skip pos s -> (pos <= i)%nat /\ (i + n <= pos + String.length s)%nat /\
    (1 <= n)%nat /\ exists t, decode_rune t = (r, n) /\ t <> "".
Proof.
  revert skip pos; induction s as [|c s IH]; intros skip pos H; [by apply not_elem_of_nil in H|].
  cbn [range_loop] in H. destruct skip as [|k].
  - destruct (decode_rune (String c s)) as [r' n'] eqn:Hd. apply elem_of_cons in H as [[= -> -> ->]|H].
    + assert (Hne : String c s <> "") by done.
      destruct (decode_sound _ _ _ Hne Hd) as [[-> ->]|(Hr & -> & Heq)].
      * cbn [String.length]. split_and!; try lia. by exists (String c s).
      * pose proof (rune_len_pos r'). apply (f_equal String.length) in Heq.
        rewrite append_length, rune_len_encode in Heq by done. cbn [String.length] in *.
        split_and!; try lia. by exists (String c s).
    + apply IH in H as (H1 & H2 & H3 & H4). cbn [String.length]. split_and!; try done; lia.
  - apply IH in H as (H1 & H2 & H3 & H4). cbn [String.length]. split_and!; try done; lia.
Qed.

(** A space is its own encoding, so its width is [utf8.RuneLen]. *)
Lemma space_width t r n : decode_rune t = (r, n) -> t <> "" -> isQuerySpace r = true -> n = rune_len r.
Proof.
  intros Hd Hne Hs. destruct (decode_sound _ _ _ Hne Hd) as [[-> ->]|(_ & -> & _)]; [|done].
  by vm_compute in Hs.
Qed.

Lemma token_start_le rs start q e n :
  (start <= n)%nat ->
  (forall i r w, (i, r, w) ∈ rs -> isQuerySpace r = true -> (i + rune_len r <= n)%nat) ->
  (token_start_loop rs start q e <= n)%nat.
Proof.
  revert start q e; induction rs as [|[[i r] w] rs IH]; intros start q e Hs Hall; cbn; [done|].
  assert (Hall' : forall i r w, (i, r, w) ∈ rs -> isQuerySpace r = true -> (i + rune_len r <= n)%nat)
    by (intros i' r' w' Hin; eapply Hall; by right).
  destruct e; [by apply IH|]. destruct (r =? 92); [by apply IH|]. destruct (r =? 34); [by apply IH|].
  apply IH; [|done]. destruct (negb q && isQuerySpace r) eqn:E; [|done]. bool_simpl.
  eapply Hall; [by left|done].
Qed.

Lemma activeTokenStart_le input : (activeTokenStart input <= String.length input)%nat.
Proof.
  apply token_start_le; [lia|]. intros i r w Hin Hs.
  apply range_loop_within in Hin as (_ & Hw & _ & t & Hd & Hne).
  rewrite <- (space_width t r w Hd Hne Hs). cbn in Hw. exact Hw.
Qed.

(** * Properties *)

(** Completing never fails and only replaces the active token: the context's
    start lies in the input, applying a completion keeps everything before it, puts
    back the minus sign of a negated token, and appends the chosen token.  A name
    completion is offered only for a proper part of some filter's name, and a value
    completion only after a known filter. *)
Theorem completion_sound input ctx token :
  CompletionAtEnd input = Some ctx ->
  ApplyCompletion input ctx token =
    Some (stake (ctx_Start ctx) input +:+ (if ctx_Negated ctx then "-" else "") +:+ token) /\
  (exists active, input = stake (ctx_Start ctx) input
      +:+ (if ctx_Negated ctx then "-" else "") +:+ active /\ active <> "" /\
    if ctx_FilterName ctx
    then ctx_Prefix ctx = active /\ exists name, In name FilterNames /\ has_prefix name active = true
    else IsFilterName (ctx_Filter ctx) = true /\
         has_prefix active (ctx_Filter ctx) = true).
Proof.
  unfold CompletionAtEnd. cbn zeta. intros H.
  pose proof (activeTokenStart_le input) as Hle.
  set (start := activeTokenStart input) in *. clearbody start.
  destruct (_ || _); [done|]. destruct (bool_decide (sdrop start input = "")); [done|].
  set (neg := has_prefix (sdrop start input) "-") in *.
  set (active := if neg then sdrop 1 (sdrop start input) else sdrop start input) in *.
  destruct (bool_decide (active = "")) eqn:Hne; [done|]. bool_simpl.
  assert (Hin : input = stake start input +:+ (if neg then "-" else "") +:+ active).
  { rewrite <- (stake_sdrop start input) at 1. f_equal. unfold active.
    destruct neg eqn:En; [|done]. unfold neg in En. apply has_prefix_spec in En as (t & Ht).
    rewrite Ht. f_equal. }
  assert (Hctx : ctx_Start ctx = start /\ ctx_Negated ctx = neg /\
    if ctx_FilterName ctx
    then ctx_Prefix ctx = active /\ exists name, In name FilterNames /\ has_prefix name active = true
    else IsFilterName (ctx_Filter ctx) = true /\ has_prefix active (ctx_Filter ctx) = true).
  { destruct (unescapedColon active) as [colon|].
    - destruct (IsFilterName (stake colon active)) eqn:En; [|done]. injection H as <-. cbn.
      split_and!; try done. rewrite <- (stake_sdrop colon active) at 1. apply has_prefix_append.
    - destruct (isLowerASCII active); [|done]. cbn [negb] in H.
      destruct (existsb _ _) eqn:Ex; [|done]. injection H as <-. cbn.
      apply existsb_exists in Ex as (name & ? & ?). split_and!; try done. by exists name. }
  clearbody neg. destruct Hctx as (Hst & Hng & Hrest). rewrite Hst, Hng. split.
  - unfold ApplyCompletion. rewrite Hst, Hng, (proj2 (Nat.leb_le _ _) Hle). by destruct neg.
  - exists active. split; [exact Hin|]. split; [exact Hne|exact Hrest].
Qed.

Lemma completion_sound_witness :
  exists ctx, CompletionAtEnd "paid -sen" = Some ctx /\
    ApplyCompletion "paid -sen" ctx "sensitivity:" = Some "paid -sensitivity:".
Proof.
  exists (MkContext 5 "" "sen" true true).
  assert (H : CompletionAtEnd "paid -sen" = Some (MkContext 5 "" "sen" true true))
    by (vm_compute; reflexivity).
  split; [exact H|].
  destruct (completion_sound _ _ "sensitivity:" H) as [-> _]. reflexivity.
Defined.
