(* ===== verification/Principal.v ===== *)
(** Authenticated actors ([plugin-api/principal.go]), token scopes
    ([core/auth/scope.go]), the route policy for API tokens
    ([core/httpx/token_scopes.go], [distro/app/serve_token_policy.go]) and the
    read-only guard of the public demo ([core/httpx/demo_readonly.go]).

    A request is its method, its decoded path, the encoded path when it differs, and
    the value of the query parameter [raw]; the route pattern that [net/http]'s
    multiplexer selects for a request depends on every route of the program and is a
    parameter. *)
From S2P Require Import Prelude GoStd.

Record Principal : Type := MkPrincipal {
  p_Kind : string;
  p_UserID : Z;
  p_TokenID : Z;
  p_TokenSystemID : Z;
  p_TokenSource : string;
  p_Email : string;
  p_Display : string;
  p_Role : string;
  p_Scopes : list string;
  p_AuthNBy : string;
  p_SessionID : string;
  p_AuthExpiresAt : Z;
}.
#[export] Instance Principal_eq_dec : EqDecision Principal.
Proof. solve_decision. Defined.

Definition ScopeDocumentsRead : string := "documents:read".
Definition ScopeDocumentsWrite : string := "documents:write".
Definition ScopeDemoCorpusRead : string := "demo:corpus-read".
Definition ScopeEventsRead : string := "events:read".

Definition IsKnownScope (scope : string) : bool :=
  existsb (String.eqb scope) [ScopeDocumentsRead; ScopeDocumentsWrite; ScopeEventsRead].

(** A nil principal is [None]. *)
Definition HasScope (p : option Principal) (need : string) : bool :=
  match p with
  | None => false
  | Some p =>
      if bool_decide (p_Kind p = "user") || bool_decide (p_Kind p = "demo-anon") then true
      else existsb (String.eqb need) (p_Scopes p)
  end.

(** What a middleware answers: an error status with its code, or the next handler. *)
Inductive verdict : Type := Next | Refuse (status : Z) (code : string).
#[export] Instance verdict_eq_dec : EqDecision verdict.
Proof. solve_decision. Defined.

Definition RequireScope (p : option Principal) (need : string) : verdict :=
  match p with
  | None => Refuse 401 "unauthorized"
  | Some _ => if HasScope p need then Next else Refuse 403 "insufficient_scope"
  end.

Definition isAPITokenPrincipal (p : option Principal) : bool :=
  match p with
  | None => false
  | Some p => bool_decide (p_Kind p = "token") || bool_decide (p_Kind p = "demo-scratch")
  end.

Record request : Type := Request {
  Method : string;
  Path : string;
  RawPath : string;
  raw : string; (* r.URL.Query().Get("raw") *)
}.

(** [EnforceTokenScopes]: the resolver answers the scope of a route, or refuses. *)
Definition EnforceTokenScopes (resolve : request -> option string) (p : option Principal)
    (r : request) : verdict :=
  if negb (isAPITokenPrincipal p) then Next
  else
    match resolve r with
    | None => Refuse 403 "token_route_forbidden"
    | Some scope =>
        if negb (bool_decide (scope = "")) && negb (HasScope p scope)
        then Refuse 403 "insufficient_scope" else Next
    end.

(** * The demo guard *)

Definition demoAnonPrincipalKind : string := "demo-anon".
Definition demoScratchPrincipalKind : string := "demo-scratch".

Definition safe_method (m : string) : bool := existsb (String.eqb m) ["GET"; "HEAD"; "OPTIONS"].
Definition demo_session_path (path : string) : bool :=
  existsb (String.eqb path)
    ["/api/demo/session"; "/login"; "/api/login"; "/api/token/"; "/api/logout"].

Definition isScratchDocumentMutation (path : string) : bool :=
  bool_decide (path = "/api/documents/") || has_prefix path "/api/documents/".

Definition kind_is (p : option Principal) (kind : string) : bool :=
  match p with Some p => bool_decide (p_Kind p = kind) | None => false end.

Definition DemoReadOnly (p : option Principal) (r : request) : verdict :=
  if safe_method (Method r) then Next
  else if demo_session_path (Path r) then Next
  else if kind_is p demoAnonPrincipalKind then
    if negb (bool_decide (Path r = "/api/demo/session/upgrade"))
    then Refuse 403 "demo_upgrade_required" else Next
  else if kind_is p demoScratchPrincipalKind && isScratchDocumentMutation (Path r) then Next
  else Refuse 403 "demo_read_only".

(** * The token policy *)

Definition unscoped_routes : list string :=
  ["GET /api/handshake"; "POST /api/login"; "POST /api/token/";
   "POST /api/mobile/pairing/exchange"; "POST /api/logout"; "GET /api/demo/mode";
   "POST /api/demo/session"; "POST /api/demo/session/upgrade"; "GET /api/whoami";
   "GET /metrics"; "GET /healthz"; "GET /readyz"; "GET /s/{token}"; "POST /s/{token}";
   "GET /s/{token}/{doc_id}/download"].

Definition read_routes : list string :=
  ["GET /api/documents/"; "GET /api/documents/{id}"; "GET /api/documents/{id}/thumb";
   "GET /api/documents/{id}/similar"; "GET /api/documents/{id}/correspondents/";
   "GET /api/documents/{id}/versions/"; "GET /api/documents/{id}/preview";
   "GET /api/documents/{id}/download"; "GET /preview/{id}"; "GET /download/{id}";
   "GET /api/tasks/"; "GET /api/tags/"; "GET /api/correspondents/"; "GET /api/custom_fields/";
   "GET /api/search/"; "GET /api/autocomplete/"; "GET /api/chat/status"; "POST /api/chat";
   "GET /api/intelligence/schema"; "GET /api/intelligence/"; "GET /api/languages/";
   "GET /api/saved_views/"; "GET /api/trash/"; "GET /api/share_links/";
   "GET /api/approvals/definitions/{slug}"; "GET /api/approvals/runs/{id}";
   "GET /api/jd/categories/"; "GET /api/jd/systems"; "GET /api/jd/resolve"; "GET /api/stats/"].

Definition write_routes : list string :=
  ["POST /api/documents/"; "PATCH /api/documents/{id}"; "DELETE /api/documents/{id}";
   "POST /api/documents/{id}/restore"; "POST /api/documents/bulk_edit";
   "POST /api/documents/{id}/correspondents/";
   "DELETE /api/documents/{id}/correspondents/{cid}/{role}"; "POST /api/documents/{id}/versions/";
   "PUT /api/documents/{id}/custom_fields/{field}"; "DELETE /api/documents/{id}/custom_fields/{field}";
   "POST /api/documents/{id}/notes/"; "PATCH /api/documents/{id}/notes/{note}";
   "DELETE /api/documents/{id}/notes/{note}"; "GET /api/documents/pending-decryption";
   "POST /api/documents/{id}/decrypt"; "POST /api/documents/decrypt-batch";
   "POST /api/intelligence/extract"; "POST /api/intelligence/resolve"; "DELETE /api/trash/{id}";
   "DELETE /api/trash/"; "POST /api/saved_views/"; "PATCH /api/saved_views/{id}";
   "DELETE /api/saved_views/{id}"; "POST /api/share_links/"; "DELETE /api/share_links/{id}";
   "POST /api/approvals/definitions/{slug}/start"; "POST /api/approvals/tasks/{task_id}/resolve";
   "POST /api/approvals/definitions"; "POST /api/approvals/runs/{id}/cancel"].

(** [tokenRouteScopes]: the map from patterns to scopes. *)
Definition tokenRouteScopes : gmap string string :=
  list_to_map (((fun p => (p, "")) <$> unscoped_routes)
    ++ ((fun p => (p, ScopeDocumentsRead)) <$> read_routes)
    ++ ((fun p => (p, ScopeDocumentsWrite)) <$> write_routes)
    ++ [("GET /api/events/", ScopeEventsRead)]).

(** [strings.Trim(path, "/")] and [tokenPathDepth]. *)
Fixpoint trim_left (c : ascii) (s : string) : string :=
  match s with
  | EmptyString => ""
  | String d s' => if bool_decide (d = c) then trim_left c s' else s
  end.
Definition trim_byte (c : ascii) (s : string) : string :=
  rev_string (trim_left c (rev_string (trim_left c s) "")) "".
Fixpoint count_slashes (s : string) : nat :=
  match s with
  | EmptyString => 0
  | String d s => (if bool_decide (d = "/"%char) then 1 else 0) + count_slashes s
  end.
Definition tokenPathDepth (path : string) : nat :=
  let path := trim_byte "/"%char path in
  if bool_decide (path = "") then 0 else S (count_slashes path).

Section TokenPolicy.
Context (mux : request -> string). (* the pattern of mux.Handler *)

Definition with_path (path : string) (r : request) : request := Request (Method r) path "" (raw r).

(** [exactTokenPattern]: [""] is no pattern. *)
Definition exactTokenPattern (r : request) : string :=
  let pattern := mux r in
  match tokenRouteScopes !! pattern with
  | None => ""
  | Some _ =>
      let path := match last_index " "%char pattern with
                  | Some i => sdrop (S i) pattern
                  | None => pattern
                  end in
      if has_suffix path "/" && negb (tokenPathDepth path =? tokenPathDepth (Path r))%nat
      then "" else pattern
  end.

Definition tokenRequestPattern (r : request) : string :=
  let pattern := exactTokenPattern r in
  if negb (bool_decide (pattern = "")) then pattern
  else if negb (has_prefix (Path r) "/api/") then ""
  else exactTokenPattern
         (with_path (if has_suffix (Path r) "/" then trim_suffix (Path r) "/"
                     else Path r +:+ "/") r).

Definition scratch_pages : list string := ["GET /app/"; "GET /app"; "GET /{$}"; "GET /login"].

(** [tokenScopeResolver]: [None] refuses the route. *)
Definition tokenScopeResolver (p : option Principal) (r : request) : option string :=
  if kind_is p "demo-scratch" && existsb (String.eqb (mux r)) scratch_pages
  then Some ""
  else
    let pattern := tokenRequestPattern r in
    match tokenRouteScopes !! pattern with
    | None => None
    | Some scope =>
        if (bool_decide (pattern = "GET /api/documents/{id}/download")
            || bool_decide (pattern = "GET /download/{id}")) && bool_decide (raw r = "1")
        then None else Some scope
    end.

(** * Lemmas *)

Lemma route_scope pattern scope :
  tokenRouteScopes !! pattern = Some scope ->
  (scope = "" /\ In pattern unscoped_routes) \/ (scope = ScopeDocumentsRead /\ In pattern read_routes) \/
  (scope = ScopeDocumentsWrite /\ In pattern write_routes) \/
  (scope = ScopeEventsRead /\ pattern = "GET /api/events/").
Proof.
  unfold tokenRouteScopes. intros H. apply elem_of_list_to_map_2 in H.
  rewrite !elem_of_app, !list_elem_of_fmap in H.
  destruct H as [(x & [= -> ->] & Hx)|[(x & [= -> ->] & Hx)|[(x & [= -> ->] & Hx)|H]]];
    try (apply list_elem_of_In in Hx; auto).
  apply elem_of_cons in H as [[= -> ->]|H]; [auto 6|by apply not_elem_of_nil in H].
Qed.

#[local] Opaque tokenRouteScopes.

(** The patterns of the read scope start with GET, [POST /api/chat] apart. *)
Lemma read_routes_safe :
  forallb (fun p => has_prefix p "GET " || String.eqb p "POST /api/chat") read_routes = true.
Proof. vm_compute. reflexivity. Qed.

Lemma unscoped_routes_sessions :
  forallb (fun p => has_prefix p "GET " || existsb (String.eqb p)
    ["POST /api/login"; "POST /api/token/"; "POST /api/mobile/pairing/exchange"; "POST /api/logout";
     "POST /api/demo/session"; "POST /api/demo/session/upgrade"; "POST /s/{token}"]) unscoped_routes = true.
Proof. vm_compute. reflexivity. Qed.

(** C22: what a token can reach is bounded by its scopes: an API token passes only on
    a route of the allowlist, with the route's scope when it has one; raw downloads
    are refused; and a token without the write scope passes only on GET routes, on
    the chat and share-link queries, and on the session endpoints. *)
Theorem token_boundary p r :
  isAPITokenPrincipal (Some p) = true ->
  p_Kind p = "token" ->
  EnforceTokenScopes (tokenScopeResolver (Some p)) (Some p) r = Next ->
  exists pattern scope,
    pattern = tokenRequestPattern r /\ tokenRouteScopes !! pattern = Some scope /\
    (scope = "" \/ In scope (p_Scopes p)) /\
    (pattern = "GET /api/documents/{id}/download" \/ pattern = "GET /download/{id}" -> raw r <> "1") /\
    (~ In ScopeDocumentsWrite (p_Scopes p) ->
       has_prefix pattern "GET " = true \/
       In pattern ["POST /api/chat"; "POST /api/login"; "POST /api/token/";
         "POST /api/mobile/pairing/exchange"; "POST /api/logout"; "POST /api/demo/session";
         "POST /api/demo/session/upgrade"; "POST /s/{token}"]).
Proof.
  intros Htok Hkind H. unfold EnforceTokenScopes in H. rewrite Htok in H. cbn [negb] in H.
  unfold tokenScopeResolver in H. cbn [kind_is] in H. rewrite Hkind in H.
  change (bool_decide ("token" = "demo-scratch")) with false in H. cbn [andb] in H.
  destruct (tokenRouteScopes !! tokenRequestPattern r) as [scope|] eqn:E; [|discriminate H].
  destruct (_ && bool_decide (raw r = "1")) eqn:Eraw; [discriminate H|].
  exists (tokenRequestPattern r), scope. split; [reflexivity|]. split; [exact E|].
  assert (Hscope : scope = "" \/ In scope (p_Scopes p)).
  { destruct (bool_decide (scope = "")) eqn:Es; bool_simpl; [by left|right].
    cbn [negb andb] in H.
    destruct (HasScope (Some p) scope) eqn:Hs; [|discriminate H].
    unfold HasScope in Hs. rewrite Hkind in Hs.
    change (existsb (String.eqb scope) (p_Scopes p) = true) in Hs.
    apply existsb_exists in Hs as (x & Hx & Heq). by apply String.eqb_eq in Heq as ->. }
  split; [exact Hscope|]. split.
  - intros [Hp|Hp] Hraw; rewrite Hp, Hraw in Eraw; vm_compute in Eraw; discriminate Eraw.
  - intros Hnw. apply route_scope in E as [[-> Hin]|[[-> Hin]|[[-> Hin]|[-> ->]]]].
    + pose proof unscoped_routes_sessions as Hall. rewrite forallb_forall in Hall.
      specialize (Hall _ Hin). apply orb_true_iff in Hall as [|Hex]; [by left|right].
      apply existsb_exists in Hex as (x & Hx & Heq). apply String.eqb_eq in Heq as ->. by right.
    + pose proof read_routes_safe as Hall. rewrite forallb_forall in Hall.
      specialize (Hall _ Hin). apply orb_true_iff in Hall as [|Heq]; [by left|right].
      apply String.eqb_eq in Heq as ->. by left.
    + destruct Hscope as [Hs|Hs]; [discriminate Hs|by destruct (Hnw Hs)].
    + by left.
Qed.
End TokenPolicy.

(** On a demo instance the guard lets a request through only if it cannot change
    the archive: safe methods, the session endpoints, the upgrade of an anonymous
    visitor, and a scratch identity's requests below [/api/documents/]. *)
Theorem DemoReadOnly_spec p r :
  DemoReadOnly p r = Next <->
  safe_method (Method r) = true \/ demo_session_path (Path r) = true \/
  (kind_is p "demo-anon" = true /\ Path r = "/api/demo/session/upgrade") \/
  (kind_is p "demo-scratch" = true /\ has_prefix (Path r) "/api/documents/" = true).
Proof.
  unfold DemoReadOnly, isScratchDocumentMutation, demoAnonPrincipalKind, demoScratchPrincipalKind.
  destruct (safe_method (Method r)); [tauto|]. destruct (demo_session_path (Path r)); [tauto|].
  assert (Hpre : bool_decide (Path r = "/api/documents/") || has_prefix (Path r) "/api/documents/"
    = has_prefix (Path r) "/api/documents/").
  { case_bool_decide as Hp; [|done]. by rewrite Hp. }
  rewrite Hpre. destruct (kind_is p "demo-anon") eqn:Ha.
  - assert (Hs : kind_is p "demo-scratch" = false).
    { destruct p as [p|]; [|done]. cbn in *. bool_simpl. by rewrite Ha. }
    rewrite Hs. destruct (bool_decide (Path r = "/api/demo/session/upgrade")) eqn:E; bool_simpl; cbn.
    + split; [|done]. intros _. right. right. left. done.
    + split; [done|]. intros [H|[H|[[_ H]|[H _]]]]; done.
  - destruct (kind_is p "demo-scratch"), (has_prefix _ _); cbn; split; try done;
      try (intros [H|[H|[[H _]|[H1 H2]]]]; done). intros _. right. right. right. done.
Qed.

(** * Witness *)
Lemma token_boundary_witness :
  exists pattern, tokenRequestPattern (fun _ => "GET /api/tags/") (Request "GET" "/api/tags" "" "") = pattern /\
    tokenRouteScopes !! pattern = Some ScopeDocumentsRead.
Proof.
  destruct (token_boundary (fun _ => "GET /api/tags/")
    (MkPrincipal "token" 4 9 1 "" "" "" "member" [ScopeDocumentsRead] "" "" 0)
    (Request "GET" "/api/tags" "" "")) as (pattern & scope & Hp & Hs & _).
  - reflexivity.
  - reflexivity.
  - vm_compute. reflexivity.
  - exists pattern. split; [by rewrite Hp|]. rewrite Hp. vm_compute. reflexivity.
Defined.
