(* ===== verification/Systems.v ===== *)
(** Filing systems ([core/jd/systems]): identity, entry and filing addresses.
    The directory holds the [users], [jd_systems] and [jd_system_members] tables;
    the constraints and triggers of [core/db/migrations/0001_baseline.sql] on
    [jd_systems] are part of the operations that write it.  A failed statement
    rolls its transaction back, so an operation returns the new directory or an
    error. *)
From S2P Require Import Prelude GoStd Utf8 Sqlite.

Definition DefaultID : Z := 1.

(** A row of [jd_systems]; nullable columns are options. *)
Record jd_system : Type := JdSystem {
  code : string;
  name : string;
  taxonomy : string;
  inbox_category_id : option Z;
  preset_id : option string;
  preset_version : option Z;
  preset_sha256 : option string;
  authoring_json : option string;
  created_at : Z;
  updated_at : Z;
}.
#[export] Instance jd_system_eq_dec : EqDecision jd_system.
Proof. solve_decision. Defined.

(** The columns of [users] that the modelled statements read. *)
Record user : Type := User {
  u_email : string;
  u_role : string;
  u_disabled : bool;
}.
#[export] Instance user_eq_dec : EqDecision user.
Proof. solve_decision. Defined.

Record directory : Type := Directory {
  users : gmap Z user;
  jd_systems : gmap Z jd_system;
  jd_system_members : gset (Z * Z); (* (system_id, user_id) *)
}.

Definition with_systems (f : gmap Z jd_system -> gmap Z jd_system) (d : directory) : directory :=
  Directory (users d) (f (jd_systems d)) (jd_system_members d).

(** [System], the row as Go reads it: [scan] of the COALESCEd columns. *)
Record System : Type := MkSystem {
  ID : Z; Code : string; Name : string; Taxonomy : string; InboxCategoryID : Z;
  PresetID : string; PresetVersion : Z; PresetSHA256 : string; AuthoringJSON : string;
  CreatedAt : Z; UpdatedAt : Z;
}.

Inductive sys_error : Type :=
  | ErrNoRows                        (* sql.ErrNoRows *)
  | ErrInvalid (message : string)    (* errors.New *)
  | ErrConstraint (message : string) (* a CHECK, UNIQUE or trigger of the schema *).
#[export] Instance sys_error_eq_dec : EqDecision sys_error.
Proof. solve_decision. Defined.

Definition scan (id : Z) (r : jd_system) : System :=
  MkSystem id (code r) (name r) (taxonomy r) (default 0 (inbox_category_id r))
    (default "" (preset_id r)) (default 0 (preset_version r)) (default "" (preset_sha256 r))
    (default "" (authoring_json r)) (created_at r) (updated_at r).

(** * Codes, names and addresses *)

Definition byte_in (lo hi : ascii) (c : ascii) : bool :=
  (byte_val lo <=? byte_val c) && (byte_val c <=? byte_val hi).

Definition ValidCode (code : string) : bool :=
  match code with
  | String a (String b (String c EmptyString)) =>
      byte_in "A" "Z" a && byte_in "0" "9" b && byte_in "0" "9" c
  | _ => false
  end.

Definition validName (name : string) : bool :=
  valid_string name && negb (bool_decide (TrimSpace name = "")) && (RuneCountInString name <=? 80)%nat.

Definition Address (systemCode : string) (categoryCode : Z) : string :=
  if negb (ValidCode systemCode) || (categoryCode <? 0) || (99 <? categoryCode) then ""
  else stake 3 systemCode +:+
       String "." (String (digit_chr (Z.quot categoryCode 10))
         (String (digit_chr (Z.rem categoryCode 10)) "")).

Record FilingAddress : Type := MkFilingAddress { SystemCode : string; CategoryCode : Z }.
#[export] Instance FilingAddress_eq_dec : EqDecision FilingAddress.
Proof. solve_decision. Defined.

(** [ErrBadAddress] is [ErrInvalid "invalid filing address"]. *)
Definition ErrBadAddress : sys_error := ErrInvalid "invalid filing address".

Definition ParseAddress (value : string) : result sys_error FilingAddress :=
  match sdrop 3 value with
  | String dot (String d4 (String d5 EmptyString)) =>
      fail_if negb (ValidCode (stake 3 value)) || negb (bool_decide (dot = "."%char))
              || negb (is_digit d4) || negb (is_digit d5) with ErrBadAddress in
      Ok (MkFilingAddress (stake 3 value) (digit_val d4 * 10 + digit_val d5))
  | _ => Err ErrBadAddress
  end.

(** * Reads *)

Definition Get (d : directory) (id : Z) : result sys_error System :=
  match jd_systems d !! id with Some r => Ok (scan id r) | None => Err ErrNoRows end.

(** The [code] column is unique, so the query has at most one row. *)
Definition ByCode (d : directory) (code' : string) : result sys_error System :=
  require ValidCode code' else ErrNoRows in
  match filter (fun '(_, r) => code r = code') (map_to_list (jd_systems d)) with
  | (id, r) :: _ => Ok (scan id r)
  | [] => Err ErrNoRows
  end.

Definition Introduced (d : directory) : result sys_error bool :=
  match jd_systems d !! DefaultID with
  | Some r => Ok (negb (bool_decide (code r = "")))
  | None => Err ErrNoRows
  end.

Definition CanEnter (d : directory) (userID systemID : Z) : bool :=
  match jd_systems d !! systemID, users d !! userID with
  | Some _, Some u =>
      negb (u_disabled u) && (bool_decide (u_role u = "admin")
        || bool_decide ((systemID, userID) ∈ jd_system_members d))
  | _, _ => false
  end.

(** [SELECT id FROM jd_systems ORDER BY id]. *)
Definition IDs (d : directory) : list Z :=
  merge_sort Z.le ((map_to_list (jd_systems d)).*1).

(** * Writes *)

(** The CHECK constraints of a row. *)
Definition check_row (id : Z) (r : jd_system) : bool :=
  ((bool_decide (id = 1) && bool_decide (code r = "")) || ValidCode (code r))
  && ((1 <=? sql_length (name r))%nat && (sql_length (name r) <=? 80)%nat
      && (0 <? sql_length (sql_trim (name r)))%nat)
  && (bool_decide (taxonomy r = "jd") || bool_decide (taxonomy r = "flat")).

(** [UNIQUE(code)] for a row written at [id]. *)
Definition code_taken (d : directory) (id : Z) (c : string) : bool :=
  exists_row (fun id' r => negb (id' =? id) && bool_decide (code r = c)) (jd_systems d).

Definition Create (now : Z) (code' name taxonomy : string) (d : directory)
    : result sys_error (Z * directory) :=
  fail_if negb (ValidCode code') || negb (validName name)
          || (negb (bool_decide (taxonomy = "jd")) && negb (bool_decide (taxonomy = "flat")))
    with ErrInvalid "invalid filing system" in
  let id := next_rowid (jd_systems d) in
  let r := JdSystem code' name taxonomy None None None None None now now in
  (* jd_systems_identity_insert, then the row's own constraints *)
  fail_if exists_row (fun _ r => bool_decide (code r = code')) (jd_systems d)
    with ErrConstraint "system identity is permanent" in
  fail_if negb (check_row id r) with ErrConstraint "CHECK" in
  Ok (id, with_systems (<[id := r]>) d).

(** [update] runs [UPDATE jd_systems SET ... WHERE id=?]: no row is [ErrNoRows],
    [trigger] is the schema's BEFORE UPDATE trigger on the old and the new row. *)
Definition update (trigger : jd_system -> jd_system -> option string) (set : jd_system -> jd_system)
    (systemID : Z) (d : directory) : result sys_error directory :=
  match jd_systems d !! systemID with
  | None => Err ErrNoRows
  | Some old =>
      match trigger old (set old) with
      | Some message => Err (ErrConstraint message)
      | None =>
          fail_if code_taken d systemID (code (set old)) with ErrConstraint "UNIQUE" in
          fail_if negb (check_row systemID (set old)) with ErrConstraint "CHECK" in
          Ok (with_systems (<[systemID := set old]>) d)
      end
  end.

Definition set_inbox (categoryID now : Z) (r : jd_system) : jd_system :=
  JdSystem (code r) (name r) (taxonomy r) (Some categoryID) (preset_id r) (preset_version r)
    (preset_sha256 r) (authoring_json r) (created_at r) now.
Definition set_name (name : string) (now : Z) (r : jd_system) : jd_system :=
  JdSystem (code r) name (taxonomy r) (inbox_category_id r) (preset_id r) (preset_version r)
    (preset_sha256 r) (authoring_json r) (created_at r) now.
Definition set_code (code : string) (now : Z) (r : jd_system) : jd_system :=
  JdSystem code (name r) (taxonomy r) (inbox_category_id r) (preset_id r) (preset_version r)
    (preset_sha256 r) (authoring_json r) (created_at r) now.

(** [jd_systems_inbox_update]; [protected] tells whether a category is a
    protected one of the system ([jd_categories] belongs to the taxonomy). *)
Definition inbox_trigger (protected : Z -> Z -> bool) (systemID : Z) (_ new : jd_system) : option string :=
  match inbox_category_id new with
  | Some c => if protected systemID c then None
              else Some "Inbox must be a protected category in its system"
  | None => None
  end.

(** [jd_systems_identity_update]. *)
Definition identity_trigger (old new : jd_system) : option string :=
  if negb (bool_decide (code old = "")) && negb (bool_decide (code new = code old))
  then Some "system identity is immutable" else None.

Definition no_trigger (_ _ : jd_system) : option string := None.

Definition SetInbox (protected : Z -> Z -> bool) (systemID categoryID now : Z) (d : directory)
    : result sys_error directory :=
  update (inbox_trigger protected systemID) (set_inbox categoryID now) systemID d.

Definition Rename (systemID : Z) (name : string) (now : Z) (d : directory) : result sys_error directory :=
  require validName name else ErrInvalid "system name must contain 1 to 80 characters" in
  update no_trigger (set_name name now) systemID d.

Definition SetCode (systemID : Z) (code : string) (now : Z) (d : directory) : result sys_error directory :=
  require ValidCode code else ErrInvalid "invalid system code" in
  update identity_trigger (set_code code now) systemID d.

(** * Lemmas *)

Lemma ValidCode_3 c : ValidCode c = true -> String.length c = 3%nat.
Proof. destruct c as [|a [|b [|d [|? ?]]]]; try discriminate. done. Qed.

Lemma ValidCode_nonempty c : ValidCode c = true -> c <> "".
Proof. by intros H ->. Qed.

Lemma is_digit_chr c : is_digit c = true -> digit_chr (digit_val c) = c.
Proof.
  intros H. unfold digit_chr, digit_val.
  replace (48 + (byte_val c - 48)) with (byte_val c) by lia. apply chr_byte_val.
Qed.

(** The two digits of a category code below 100. *)
Lemma two_digits n : 0 <= n <= 99 -> n = Z.quot n 10 * 10 + Z.rem n 10 /\
  0 <= Z.quot n 10 <= 9 /\ 0 <= Z.rem n 10 <= 9.
Proof.
  intros H. rewrite Z.quot_div_nonneg, Z.rem_mod_nonneg by lia.
  pose proof (Z.div_mod n 10). pose proof (Z.mod_pos_bound n 10).
  pose proof (Z.div_lt_upper_bound n 10 10). pose proof (Z.div_pos n 10). lia.
Qed.

Lemma two_digits_join a b : 0 <= a <= 9 -> 0 <= b <= 9 ->
  Z.quot (a * 10 + b) 10 = a /\ Z.rem (a * 10 + b) 10 = b.
Proof.
  intros Ha Hb. rewrite Z.quot_div_nonneg, Z.rem_mod_nonneg by lia.
  rewrite Z.add_comm, Z.div_add, Z.mod_add, Z.div_small, Z.mod_small by lia. lia.
Qed.

Lemma stake_3_append c s : String.length c = 3%nat -> stake 3 (c +:+ s) = c /\ sdrop 3 (c +:+ s) = s.
Proof.
  intros H. destruct c as [|a [|b [|d [|? ?]]]]; try discriminate H. by destruct s.
Qed.

(** Well-formed tables: the constraints hold of every row, codes are unique and the
    original archive exists. *)
Record systems_wf (d : directory) : Prop := {
  sw_rows : forall id r, jd_systems d !! id = Some r -> check_row id r = true;
  sw_unique : forall id id' r r', jd_systems d !! id = Some r -> jd_systems d !! id' = Some r' ->
    code r = code r' -> id = id';
  sw_original : is_Some (jd_systems d !! DefaultID);
}.

Lemma systems_wf_insert d id r :
  systems_wf d -> check_row id r = true -> code_taken d id (code r) = false ->
  systems_wf (with_systems (<[id := r]>) d).
Proof.
  intros W Hr Ht.
  assert (Hne : forall id' r', id' <> id -> jd_systems d !! id' = Some r' -> code r' <> code r).
  { intros id' r' Hid Hl Hc. pose proof (exists_row_false _ _ _ _ Ht Hl) as Hf. cbv beta in Hf. bool_cases; [lia|done]. }
  split; unfold with_systems; cbn [jd_systems].
  - intros id' r' [[<- <-]|[_ Hl]]%lookup_insert_Some; [done|by eapply sw_rows].
  - intros i1 i2 r1 r2 [[<- <-]|[N1 H1]]%lookup_insert_Some [[<- <-]|[N2 H2]]%lookup_insert_Some Hc.
    + done.
    + destruct (Hne _ _ (not_eq_sym N2) H2). done.
    + destruct (Hne _ _ (not_eq_sym N1) H1). done.
    + by eapply sw_unique.
  - destruct (decide (DefaultID = id)) as [<-|Hid]; [rewrite lookup_insert_eq; eauto|].
    rewrite lookup_insert_ne by congruence. apply W.
Qed.

Lemma code_taken_spec d id c :
  code_taken d id c = false <->
  forall id' r', jd_systems d !! id' = Some r' -> code r' = c -> id' = id.
Proof.
  unfold code_taken. split.
  - intros H id' r' Hl Hc. pose proof (exists_row_false _ _ _ _ H Hl). cbn in *. bool_cases; done.
  - intros H. destruct (exists_row _ _) eqn:E; [|done]. apply exists_row_spec in E as (id' & r' & Hl & Hf).
    bool_simpl. rewrite (H _ _ Hl) in * by done. done.
Qed.

Lemma update_Ok trigger set id d d' :
  update trigger set id d = Ok d' <->
  exists old, jd_systems d !! id = Some old /\ trigger old (set old) = None /\
    code_taken d id (code (set old)) = false /\ check_row id (set old) = true /\
    d' = with_systems (<[id := set old]>) d.
Proof.
  unfold update. split.
  - destruct (jd_systems d !! id) as [old|]; [|done]. intros H.
    exists old. destruct (trigger old (set old)); [done|]. guards_in H. injection H as <-.
    bool_simpl. done.
  - intros (old & -> & -> & -> & -> & ->). done.
Qed.

(** ** Steps *)
Section Steps.
Context (protected : Z -> Z -> bool).

Inductive sys_step (d : directory) : directory -> Prop :=
  | step_Create now c n t id d' : Create now c n t d = Ok (id, d') -> sys_step d d'
  | step_SetInbox id cat now d' : SetInbox protected id cat now d = Ok d' -> sys_step d d'
  | step_Rename id n now d' : Rename id n now d = Ok d' -> sys_step d d'
  | step_SetCode id c now d' : SetCode id c now d = Ok d' -> sys_step d d'.

(** What a step does to a row that exists: its identity and its taxonomy stay, the
    original archive's empty code may be replaced. *)
Definition keeps (id : Z) (r r' : jd_system) : Prop :=
  taxonomy r' = taxonomy r /\ created_at r' = created_at r /\
  (code r' = code r \/ (id = DefaultID /\ code r = "" /\ ValidCode (code r') = true)).

Lemma keeps_insert d id old r :
  jd_systems d !! id = Some old -> keeps id old r ->
  forall i ri, jd_systems d !! i = Some ri ->
    exists r', jd_systems (with_systems (<[id := r]>) d) !! i = Some r' /\ keeps i ri r'.
Proof.
  intros Hold Hk i ri Hi. cbn [with_systems jd_systems]. destruct (decide (id = i)) as [<-|Hne].
  - rewrite Hold in Hi. injection Hi as <-. exists r. by rewrite lookup_insert_eq.
  - exists ri. rewrite lookup_insert_ne by done. split; [done|]. unfold keeps. auto.
Qed.

Lemma keeps_trans id r1 r2 r3 : keeps id r1 r2 -> keeps id r2 r3 -> keeps id r1 r3.
Proof.
  intros (T1 & C1 & K1) (T2 & C2 & K2). split; [congruence|]. split; [congruence|].
  destruct K1 as [K1|(D1 & E1 & V1)], K2 as [K2|(D2 & E2 & V2)].
  - left; congruence.
  - right. split_and!; congruence.
  - right. split_and!; congruence.
  - exfalso. apply (ValidCode_nonempty _ V1 E2).
Qed.

Lemma sys_step_sound d d' :
  systems_wf d -> sys_step d d' ->
  systems_wf d' /\ users d' = users d /\ jd_system_members d' = jd_system_members d /\
  forall id r, jd_systems d !! id = Some r -> exists r', jd_systems d' !! id = Some r' /\ keeps id r r'.
Proof.
  intros W St. destruct St as [now c n t id d1 H|id cat now d1 H|id n now d1 H|id c now d1 H].
  - unfold Create in H. cbn zeta in H. guards_in H. injection H as <- <-. bool_simpl.
    set (nid := next_rowid (jd_systems d)) in *.
    assert (Hno : code_taken d nid c = false).
    { apply code_taken_spec. intros id' r' Hl Hr.
      pose proof (exists_row_false _ _ _ _ Hc0 Hl) as Hf. cbv beta in Hf. bool_simpl. done. }
    split; [|split; [done|split; [done|]]].
    + apply systems_wf_insert; done.
    + intros i ri Hi. exists ri. cbn [with_systems jd_systems].
      rewrite lookup_insert_ne by (intros <-; unfold nid in Hi; rewrite next_rowid_None in Hi; discriminate Hi).
      split; [done|]. unfold keeps. auto.
  - apply update_Ok in H as (old & Hl & _ & Ht & Hr & ->).
    split; [by apply systems_wf_insert|]. split; [done|]. split; [done|].
    apply (keeps_insert _ _ _ _ Hl). unfold keeps. auto.
  - unfold Rename in H. guards_in H. apply update_Ok in H as (old & Hl & _ & Ht & Hr & ->).
    split; [by apply systems_wf_insert|]. split; [done|]. split; [done|].
    apply (keeps_insert _ _ _ _ Hl). unfold keeps. auto.
  - unfold SetCode in H. guards_in H. apply update_Ok in H as (old & Hl & Hi & Ht & Hr & ->).
    split; [by apply systems_wf_insert|]. split; [done|]. split; [done|].
    apply (keeps_insert _ _ _ _ Hl). unfold keeps. split; [done|]. split; [done|].
    unfold identity_trigger in Hi. cbn in Hi. guards_in Hi. bool_cases; [right|left; done].
    clear Hr.
    pose proof (sw_rows _ W _ _ Hl) as Ho. unfold check_row in Ho. bool_simpl.
    assert (He : code old = "") by done. rewrite He in *. bool_cases; try discriminate; split_and!; done.
Qed.

(** * Properties *)

(** C37: over any sequence of the package's writes the directory stays well formed (the
    schema's constraints hold, codes are unique, the original archive exists), nobody's
    membership changes, no system disappears, and a system's code is permanent: only
    the original archive's empty code is ever replaced, and then by a valid one. *)
Theorem systems_permanent d d' :
  systems_wf d -> rtc sys_step d d' ->
  systems_wf d' /\ jd_system_members d' = jd_system_members d /\
  forall id r, jd_systems d !! id = Some r -> exists r', jd_systems d' !! id = Some r' /\ keeps id r r'.
Proof.
  intros W R. induction R as [d|d d1 d' S R IH].
  - split; [done|]. split; [done|]. intros id r H. exists r. split; [done|]. unfold keeps. auto.
  - destruct (sys_step_sound _ _ W S) as (W1 & _ & M1 & K1). destruct (IH W1) as (W' & M' & K').
    split; [done|]. split; [congruence|]. intros id r H.
    destruct (K1 _ _ H) as (r1 & H1 & Hk1). destruct (K' _ _ H1) as (r' & H' & Hk').
    exists r'. split; [done|]. by eapply keeps_trans.
Qed.
End Steps.

(** An address parses exactly when it is the printed address of a system code and a
    category code, and then gives those two back. *)
Theorem ParseAddress_Address v a :
  ParseAddress v = Ok a <-> v <> "" /\ Address (SystemCode a) (CategoryCode a) = v.
Proof.
  unfold ParseAddress, Address. split.
  - intros H. destruct (sdrop 3 v) as [|dot [|d4 [|d5 [|? ?]]]] eqn:Ed; try discriminate H.
    pose proof (stake_sdrop 3 v) as Hv. rewrite Ed in Hv. remember (stake 3 v) as c eqn:Ec.
    clear Ec Ed. guards_in H. injection H as <-. bool_simpl. cbn [SystemCode CategoryCode]. subst dot v.
    pose proof (digit_val_range d4 ltac:(done)). pose proof (digit_val_range d5 ltac:(done)).
    destruct (two_digits_join (digit_val d4) (digit_val d5)) as [Hq Hr]; [lia|lia|].
    match goal with Hv : ValidCode _ = true |- _ => rewrite Hv; pose proof (ValidCode_3 _ Hv) as Hlen end.
    rewrite Hq, Hr, !is_digit_chr by done.
    rewrite (proj2 (Z.ltb_ge _ _)), (proj2 (Z.ltb_ge _ _)) by lia. cbn [negb orb].
    destruct (stake_3_append c "" Hlen) as [Hs _]. rewrite append_nil_r in Hs. rewrite Hs.
    split; [|done]. destruct c; [discriminate Hlen|]. rewrite append_cons. discriminate.
  - intros [Hne H]. destruct (_ || _) eqn:Hg; [congruence|]. bool_simpl.
    destruct a as [c n]. cbn [SystemCode CategoryCode] in *.
    pose proof (two_digits n ltac:(lia)) as (Hn & Hq & Hr).
    pose proof (ValidCode_3 c ltac:(done)) as Hlen.
    assert (Hs : stake 3 c = c) by (destruct (stake_3_append c "" Hlen) as [Hs _]; by rewrite append_nil_r in Hs).
    rewrite Hs in H. destruct (stake_3_append c (String "." (String (digit_chr (Z.quot n 10))
      (String (digit_chr (Z.rem n 10)) ""))) Hlen) as [E1 E2].
    rewrite <- H, E1, E2. destruct (digit_chr_val _ Hq) as [D1 V1]. destruct (digit_chr_val _ Hr) as [D2 V2].
    match goal with Hv : ValidCode c = true |- _ => rewrite Hv end.
    rewrite D1, D2, V1, V2, bool_decide_true by done. cbn [negb orb]. by rewrite <- Hn.
Qed.

(** * Witnesses *)
Definition original : jd_system := JdSystem "" "Archive" "jd" None None None None None 0 0.
Definition directory0 : directory := Directory ∅ {[1 := original]} ∅.

Lemma systems_permanent_witness :
  systems_wf directory0 /\
  exists d, rtc (sys_step (fun _ _ => true)) directory0 d /\
    systems_wf d /\ (code <$> jd_systems d !! 1) = Some "A00".
Proof.
  assert (W : systems_wf directory0).
  { split; unfold directory0; cbn [jd_systems].
    - intros id r H. apply lookup_singleton_Some in H as [<- <-]. vm_compute. reflexivity.
    - intros id id' r r' H H' _. apply lookup_singleton_Some in H as [<- _].
      by apply lookup_singleton_Some in H' as [<- _].
    - exists original. reflexivity. }
  split; [exact W|].
  assert (R : rtc (sys_step (fun _ _ => true)) directory0
    (with_systems (<[1 := set_code "A00" 7 original]>) directory0)).
  { apply rtc_once. eapply step_SetCode with (id := 1) (c := "A00") (now := 7). vm_compute. reflexivity. }
  eexists. split; [exact R|]. split.
  - exact (proj1 (systems_permanent (fun _ _ => true) _ _ W R)).
  - reflexivity.
Defined.
