(* ===== verification/RenderTarget.v ===== *)
(** Where a document's link goes ([core/render/view/view.go], [subscriber.go], and the
    layout preview of [core/api/taxonomy_crud.go]): the template and its values, the path
    they make, and which documents a renamed value concerns. *)
From S2P Require Import Prelude GoStd Utf8 GoTime FilePath Paths Mime Systems.
From S2P Require Jobs.

Definition DefaultTemplateJD : string :=
  "{{ jd.area.code_start }}-{{ jd.area.code_end }} {{ jd.area.name }}/{{ jd.category.code }} {{ jd.category.name }}/{{ created_year }}/{{ created }} {{ title }}__{{ doc_pk }}".
Definition DefaultTemplateFlat : string :=
  "{{ correspondent }}/{{ created_year }}/{{ created }} {{ title }}__{{ doc_pk }}".

Inductive view_error : Type :=
  | ErrNoRows | ErrNoTemplate | ErrRender (e : path_error) | ErrRelative | ErrTraversal | ErrEmptyPath | ErrReserved
  | ErrEscape | ErrParent | ErrHash | ErrClaimed (path : string) | ErrForeignKey | ErrNotDocument | ErrForeign | ErrNotExist.
#[export] Instance view_error_eq_dec : EqDecision view_error.
Proof. solve_decision. Defined.

(** The row the query of [buildContext] reads for a live document. *)
Record docrow : Type := MkDocrow {
  title : string; correspondent : option string; storagePathTpl : option string; storagePathName : option string;
  archiveBlob : option string; originalBlob : string; originalMIME : string; created : Z; added : option Z;
  asn : option Z; ownerEmail : string; jdCode : Z; jdName : string; areaStart : Z; areaEnd : Z; areaName : string;
  systemCode : string; systemName : string; mode : string;
}.

Definition nsToStr (s : option string) : string := default "" s.
Definition niInt (n : option Z) : Z := default 0 n.
Definition niInt64AsStr (n : option Z) : string := match n with Some n => FormatInt n | None => "" end.
Definition unixToISODate (u : Z) : string := if u =? 0 then "" else format_unix u.

Section Target.
Context (to_lower : string -> string) (formats : registry).

(** The template a document selects, as [buildContext] and [EnqueueTemplateMoves] do. *)
Definition selected_template (tpl : option string) (mode : string) : string :=
  if bool_decide (default "" tpl = "") then
    if bool_decide (mode = "flat") then DefaultTemplateFlat else DefaultTemplateJD
  else default "" tpl.
Definition context_of (docID : Z) (r : docrow) (tags : list string) : Context :=
  MkContext (title r) docID (nsToStr (correspondent r)) (nsToStr (storagePathName r)) tags
    (unixToISODate (created r)) (unixToISODate (niInt (added r))) (ownerEmail r) (niInt64AsStr (asn r))
    (areaStart r) (areaEnd r) (areaName r) (jdCode r) (jdName r) (systemCode r) (systemName r)
    (Address (systemCode r) (jdCode r)).
Definition with_created (c : Context) (v : string) : Context :=
  MkContext (Title c) (DocPK c) (Correspondent c) (StoragePath c) (Tags c) v (Added c) (Owner c) (ASN c)
    (JDAreaCodeStart c) (JDAreaCodeEnd c) (JDAreaName c) (JDCategoryCode c) (JDCategoryName c)
    (JDSystemCode c) (JDSystemName c) (JDAddress c).
(** The fallbacks of a default template: no correspondent directory without a correspondent,
    the added date for the created one, and "undated" without either. *)
Definition default_fallbacks (mode : string) (tpl : string) (c : Context) : string * Context :=
  let flat := bool_decide (mode = "flat") in
  let tpl := if flat && bool_decide (Correspondent c = "") then trim_prefix tpl "{{ correspondent }}/" else tpl in
  let c := if bool_decide (Created c = "") then with_created c (Added c) else c in
  if bool_decide (Created c = "") then
    (if flat then replace_first tpl "{{ created_year }}/" "" else tpl, with_created c "undated")
  else (tpl, c).
Definition buildContext (docID : Z) (r : docrow) (tags : list string) : string * Context * string * string :=
  let tpl := selected_template (storagePathTpl r) (mode r) in
  let c := context_of docID r tags in
  let '(blobHash, ext) :=
    if bool_decide (default "" (archiveBlob r) = "") then (originalBlob r, Extension to_lower formats (originalMIME r))
    else (default "" (archiveBlob r), ".pdf") in
  let '(tpl, c) := if bool_decide (default "" (storagePathTpl r) = "") then default_fallbacks (mode r) tpl c else (tpl, c) in
  (tpl, c, blobHash, ext).

Definition safeRelative (relative : string) : result view_error unit :=
  fail_if bool_decide (relative = "") || IsAbs relative || Contains relative "\" with ErrRelative in
  fail_if bool_decide (".." ∈ Split relative "/"%char) with ErrTraversal in Ok ().
Definition from_render {A} (r : result path_error A) : result view_error A :=
  match r with Ok a => Ok a | Err e => Err (ErrRender e) end.

(** [resolveTarget] up to the checks on the file system. *)
Definition target_path (tpl : string) (c : Context) (ext : string) : result view_error string :=
  fail_if bool_decide (tpl = "") with ErrNoTemplate in
  rendered ← from_render (Render tpl c);
  _ ← safeRelative rendered;
  let rendered := SanitizePath rendered in
  fail_if bool_decide (rendered = "") with ErrEmptyPath in
  let rendered := rendered +:+ ext in
  if bool_decide (JDSystemCode c = "") then Ok rendered
  else fail_if IsIndexPath rendered with ErrReserved in Ok (join_path (JDSystemCode c) rendered).

(** * Blobs *)

Definition hash_byte (c : ascii) : bool := is_digit c || (97 <=? byte_val c) && (byte_val c <=? 102).
Definition validHash (s : string) : bool := (String.length s =? 64)%nat && all_bytes hash_byte s.
Definition shards (sum : string) : string :=
  stake 2 sum +:+ "/" +:+ stake 2 (sdrop 2 sum) +:+ "/" +:+ stake 2 (sdrop 4 sum) +:+ "/" +:+ sum.
(** [CAS.Path]; [dir] is the clean absolute data directory. *)
Definition cas_path (dir sum : string) : result view_error string :=
  require validHash sum else ErrHash in Ok (dir +:+ "/blobs/sha256/" +:+ shards sum).
Definition MatchesCASLink (link hash : string) : bool :=
  validHash hash && IsAbs link && bool_decide (Clean link = link) &&
  (has_suffix link ("/blobs/sha256/" +:+ shards hash) ||
   has_suffix link ("/blobs/sha256/" +:+ stake 2 hash +:+ "/" +:+ stake 2 (sdrop 2 hash) +:+ "/" +:+ hash)).

(** * Documents a renamed value concerns *)

(** A row of [EnqueueTemplateMoves]: the document, its system, the storage path's template
    or "" and the system's taxonomy. *)
Record candidate : Type := MkCandidate { c_doc : Z; c_system : Z; c_template : string; c_taxonomy : string }.
Definition template_targets (variable : string) (rows : list candidate) : list (Z * Z) :=
  (fun c => (c_doc c, c_system c)) <$>
    List.filter (fun c => UsesVariable (selected_template (Some (c_template c)) (c_taxonomy c)) variable) rows.
Fixpoint enqueue_all (now : Z) (targets : list (Z * Z)) (s : Jobs.store) : result Jobs.enqueue_error Jobs.store :=
  match targets with
  | [] => Ok s
  | (docID, systemID) :: targets => s ← Jobs.Enqueue now "render" docID systemID "{}" s; enqueue_all now targets s
  end.
Definition EnqueueTemplateMoves (now : Z) (variable : string) (rows : list candidate) (s : Jobs.store) :=
  enqueue_all now (template_targets variable rows) s.
(** [EnqueueMove]; [doc] is the document's row: its system and whether it is trashed. *)
Definition EnqueueMove (now docID : Z) (doc : option (Z * bool)) (s : Jobs.store)
    : option (result Jobs.enqueue_error Jobs.store) :=
  match doc with
  | None => None
  | Some (systemID, trashed) => Some (if trashed : bool then Ok s else Jobs.Enqueue now "render" docID systemID "{}" s)
  end.
End Target.

(** * The preview of a layout *)

Inductive preview_error : Type :=
  | PreviewRender (e : path_error) | PreviewExtension (ext : string) | PreviewAbsolute | PreviewEmpty | PreviewReserved.

Definition sample_context : Context :=
  MkContext "March electricity bill" 1842 "City Energy" "Household bills" ["utilities"; "electricity"]
    "2026-03-02" "2026-03-03" "archive@example.com" "4021" 10 19 "Home" 13 "Utilities" "S01" "Home archive" "S01.13".
Definition renderedLayoutExtension (template : string) : string :=
  let component := Base (TrimSpace template) in
  let component := match LastIndex component "}}" with Some e => sdrop (e + 2) component | None => component end in
  Ext (TrimSpace component).
Definition previewRenderedLayout (template : string) : result preview_error (string * bool) :=
  let template := TrimSpace template in
  match Render template sample_context with
  | Err e => Err (PreviewRender e)
  | Ok rendered =>
      let ext := renderedLayoutExtension template in
      fail_if (1 <? String.length ext)%nat with PreviewExtension ext in
      fail_if IsAbs rendered with PreviewAbsolute in
      let rendered := SanitizePath rendered in
      fail_if bool_decide (TrimSpace rendered = "") || bool_decide (rendered = ".") with PreviewEmpty in
      fail_if IsIndexPath rendered with PreviewReserved in
      Ok (rendered +:+ ".pdf", UsesVariable template "asn")
  end.

(** * Paths stay inside *)

(** What the code concatenates to a cleaned path: nothing, or a dot and letters. *)
Definition plain_ext (ext : string) : bool :=
  match ext with
  | EmptyString => true
  | String d w => bool_decide (d = "."%char) && negb (bool_decide (w = "")) &&
                  all_bytes (fun c => in_range 97 122 (byte_val c) || is_digit c) w
  end.

Lemma cut_last c (s : string) : exists cs, Split s c = cs ++ [default "" (last (Split s c))].
Proof.
  destruct (exists_last (Split_ne c s)) as (cs & x & E). exists cs. rewrite E. by rewrite last_snoc.
Qed.

(** Appending plain bytes to a path changes its last component only. *)
Lemma split_append c cur s t : no_byte c t = true ->
  exists cs x, split_loop c cur s = cs ++ [x] /\ split_loop c cur (s +:+ t) = cs ++ [x +:+ t].
Proof.
  intros Ht. revert cur; induction s as [|d s IH]; intros cur.
  - exists [], (rev_string cur ""). split; [done|]. rewrite append_nil_l. by apply split_plain.
  - rewrite append_cons. cbn [split_loop]. case_bool_decide.
    + destruct (IH "") as (cs & x & -> & ->). by exists (rev_string cur "" :: cs), x.
    + apply IH.
Qed.
Lemma Split_append c s t : no_byte c t = true -> exists cs x, Split s c = cs ++ [x] /\ Split (s +:+ t) c = cs ++ [x +:+ t].
Proof. apply split_append. Qed.

Lemma plain_ext_bytes ext : plain_ext ext = true -> no_byte "/"%char ext = true /\ all_bytes safe_byte ext = true /\ ext <> ".".
Proof.
  destruct ext as [|d w]; [done|]. cbn [plain_ext]. intros [[->%bool_decide_eq_true Hne]%andb_true_iff Hw]%andb_true_iff.
  apply negb_true_iff, bool_decide_eq_false in Hne.
  assert (G : forall f, (forall c, in_range 97 122 (byte_val c) || is_digit c = true -> f c = true) -> all_bytes f w = true).
  { intros f Hf. clear Hne. induction w as [|c w IH]; [done|]. cbn in Hw |- *. apply andb_true_iff in Hw as [Hc Hw].
    by rewrite Hf, IH by done. }
  split_and!.
  - unfold no_byte. cbn. apply G. intros c Hc. apply negb_true_iff, bool_decide_eq_false. intros ->. done.
  - cbn. apply G. intros c Hc. unfold safe_byte, is_digit, in_range in *. lia.
  - congruence.
Qed.

(** The extensions of the registry are plain. *)
Lemma registry_ext to_lower formats mime : init to_lower = Some formats -> plain_ext (Extension to_lower formats mime) = true.
Proof.
  intros H. unfold Extension, Lookup. destruct (formatsByMIME formats !! _) as [f|] eqn:E; [cbn|done]. revert E.
  assert (G : forall defs r, Forall (fun d => plain_ext (d_extension d) = true) defs ->
    map_Forall (fun _ f => plain_ext (f_extension f) = true) (formatsByMIME r) ->
    forall r', init_loop to_lower defs r = Some r' -> map_Forall (fun _ f => plain_ext (f_extension f) = true) (formatsByMIME r')).
  { induction defs as [|d defs IH]; intros r Hd Hr r'; cbn [init_loop]; [by intros [= <-]|].
    apply Forall_cons in Hd as [Hd Hds]. destruct (negb _); [done|]. destruct (bool_decide _); [done|].
    destruct (init_extensions _ _ _); [|done]. apply IH; [done|]. cbn. by apply map_Forall_insert_2. }
  unfold init in H. apply G in H; [intros E; exact (H _ _ E)| |].
  - apply Forall_forall. intros d Hd. assert (F : forallb (fun d => plain_ext (d_extension d)) formatDefinitions = true) by (vm_compute; done).
    rewrite forallb_forall in F. by apply F, list_elem_of_In.
  - apply map_Forall_empty.
Qed.

Lemma append_ext_dots s ext : plain_ext ext = true -> ".." ∉ Split s "/"%char -> ".." ∉ Split (s +:+ ext) "/"%char.
Proof.
  intros He Hs. destruct (plain_ext_bytes ext He) as (Hn & _ & _). destruct (Split_append _ s ext Hn) as (cs & x & E1 & E2).
  rewrite E2. rewrite E1 in Hs. rewrite elem_of_app in Hs |- *. intros [H|H]; [by auto|]. apply list_elem_of_singleton in H.
  destruct ext as [|d w].
  - rewrite append_nil_r in H. apply Hs. right. rewrite H. by apply list_elem_of_singleton.
  - cbn [plain_ext] in He. apply andb_true_iff in He as [He Hw]. apply andb_true_iff in He as [He Hne].
    apply bool_decide_eq_true in He as ->. apply negb_true_iff, bool_decide_eq_false in Hne.
    destruct x as [|a x]; [|destruct x as [|b x]].
    + injection H as H. subst w. by vm_compute in Hw.
    + rewrite append_cons, append_nil_l in H. injection H as _ H. congruence.
    + rewrite !append_cons in H. injection H as _ _ H. by destruct x.
Qed.

Lemma split_code code s : no_byte "/"%char code = true -> Split (code +:+ "/" +:+ s) "/"%char = code :: Split s "/"%char.
Proof. intros H. change (code +:+ "/" +:+ s) with (code +:+ String "/" s). by rewrite Split_app, Split_plain. Qed.

Lemma valid_code_bytes code : ValidCode code = true ->
  no_byte "/"%char code = true /\ all_bytes safe_byte code = true /\ kept code = true /\ code <> ".." /\ IsAbs code = false.
Proof.
  destruct code as [|a [|b [|c [|]]]]; try done. cbn [ValidCode]. unfold byte_in.
  intros [[Ha Hb]%andb_true_iff Hc]%andb_true_iff. change (byte_val "A") with 65 in Ha. change (byte_val "Z") with 90 in Ha.
  change (byte_val "0") with 48 in Hb, Hc. change (byte_val "9") with 57 in Hb, Hc.
  assert (N : forall c, 48 <= byte_val c <= 90 -> negb (bool_decide (c = "/"%char)) = true /\ safe_byte c = true).
  { intros d Hd. split; [apply negb_true_iff, bool_decide_eq_false; intros ->; by vm_compute in Hd; destruct Hd|unfold safe_byte; lia]. }
  destruct (N a ltac:(lia)) as [A1 A2], (N b ltac:(lia)) as [B1 B2], (N c ltac:(lia)) as [C1 C2].
  split_and!.
  - unfold no_byte. cbn. by rewrite A1, B1, C1.
  - cbn. by rewrite A2, B2, C2.
  - unfold kept. by rewrite !bool_decide_false by done.
  - done.
  - unfold IsAbs. cbn. destruct (bool_decide_reflect ("/"%char = a)) as [<-|]; [done|done].
Qed.

(** The text [target_path] appends its extension to. *)
Lemma target_text tpl c ext p :
  target_path tpl c ext = Ok p -> plain_ext ext = true ->
  exists t, IsAbs t = false /\ t <> "" /\ ".." ∉ Split t "/"%char /\ all_bytes safe_byte t = true /\
    p = (if bool_decide (JDSystemCode c = "") then t else join_path (JDSystemCode c) t) /\
    (JDSystemCode c <> "" -> IsIndexPath t = false).
Proof.
  unfold target_path. case_bool_decide; [done|]. intros (text & _ & ([] & _ & H2)%bind_Ok)%bind_Ok Hext.
  destruct (bool_decide_reflect (SanitizePath text = "")) as [|Hne]; [done|].
  destruct (sanitized_path text) as (Hb & Ha & _ & Hd). destruct (plain_ext_bytes ext Hext) as (_ & He & _).
  exists (SanitizePath text +:+ ext). split_and!.
  - unfold IsAbs in *. destruct (SanitizePath text); [done|]. rewrite append_cons. cbn in *. exact Ha.
  - by destruct (SanitizePath text).
  - by apply append_ext_dots.
  - by rewrite all_bytes_app, Hb, He.
  - case_bool_decide; [by injection H2|]. destruct (IsIndexPath _); [done|by injection H2].
  - intros Hc. rewrite (bool_decide_false (JDSystemCode c = "")) in H2 by done. by destruct (IsIndexPath _).
Qed.

Lemma join_components code t :
  ValidCode code = true -> IsAbs t = false -> ".." ∉ Split t "/"%char -> t <> "" ->
  join_path code t = Join (code :: components t) "/" /\ Split (join_path code t) "/"%char = code :: components t.
Proof.
  intros Hc Ha Hd Ht. destruct (valid_code_bytes code Hc) as (Hn & Hs & Hk & Hcd & Hca).
  unfold join_path. rewrite bool_decide_false by done. pose proof (split_code code t Hn) as Hsp.
  assert (Hcomp : components (code +:+ "/" +:+ t) = code :: components t).
  { unfold components. rewrite Hsp. cbn [List.filter]. by rewrite Hk. }
  assert (Habs : IsAbs (code +:+ "/" +:+ t) = false).
  { unfold IsAbs in *. destruct code; [done|]. rewrite append_cons. exact Hca. }
  assert (Hdd : ".." ∉ Split (code +:+ "/" +:+ t) "/"%char) by (rewrite Hsp, not_elem_of_cons; done).
  split.
  - rewrite Clean_relative, Hcomp by done. by rewrite bool_decide_false.
  - rewrite Split_Clean by (done || by rewrite Hcomp). done.
Qed.

(** Wherever a template and a document's values put a link, the path is relative, has
    no component ".." and no control, backslash or DEL byte, so joined to the render
    directory it stays inside.  In a system with a code the path is clean, begins with the
    code, and what follows is not in the index directory. *)
Theorem target_path_inside tpl c ext p :
  target_path tpl c ext = Ok p -> plain_ext ext = true -> JDSystemCode c = "" \/ ValidCode (JDSystemCode c) = true ->
  IsAbs p = false /\ ".." ∉ Split p "/"%char /\ all_bytes safe_byte p = true /\
  (JDSystemCode c <> "" ->
     is_clean p = true /\ exists rest, Split p "/"%char = JDSystemCode c :: rest /\
       (rest <> [] -> IsIndexPath (Join rest "/") = false)).
Proof.
  intros H Hext Hcode. destruct (target_text _ _ _ _ H Hext) as (t & Ha & Ht & Hd & Hb & -> & Hi).
  case_bool_decide as Ec; [by split_and!|]. destruct Hcode as [|Hcode]; [done|].
  destruct (valid_code_bytes _ Hcode) as (Hn & Hs & Hk & Hcd & Hca).
  destruct (join_components _ t Hcode Ha Hd Ht) as [Hj Hsp].
  pose proof (components_plain t Hd) as Hp.
  assert (Hclean : is_clean (join_path (JDSystemCode c) t) = true).
  { apply is_clean_spec. rewrite Hsp. constructor; [done|]. eapply Forall_impl; [exact Hp|]. by intros ? (_ & ? & ?). }
  split_and!.
  - by apply is_clean_relative.
  - by apply is_clean_dots.
  - rewrite Hj. apply Join_bytes; [done|]. constructor; [done|]. apply (Split_bytes _ "/"%char) in Hb.
    rewrite Forall_forall in Hb |- *. intros x Hx. apply Hb. unfold components in Hx.
    by apply list_elem_of_In, filter_In in Hx as [?%list_elem_of_In _].
  - intros _. split; [done|]. exists (components t). split; [done|]. intros Hne.
    specialize (Hi Ec). unfold IsIndexPath in *. rewrite (Clean_relative t), bool_decide_false in Hi by done.
    rewrite Clean_id; [exact Hi|]. apply is_clean_spec.
    rewrite Split_Join; [|done|eapply Forall_impl; [exact Hp|by intros ? (? & ? & ?)]].
    eapply Forall_impl; [exact Hp|by intros ? (? & ? & ?)].
Qed.

(** * Renamed values *)

(** The names [UsesVariable] reports. *)
Fixpoint used_names (fuel : nat) (tpl : string) : list string :=
  match fuel with
  | O => []
  | S fuel =>
      match Index tpl "{{" with
      | None => []
      | Some o =>
          let tpl := sdrop (o + 2) tpl in
          match Index tpl "}}" with
          | None => []
          | Some c => TrimSpace (stake c tpl) :: used_names fuel (sdrop (c + 2) tpl)
          end
      end
  end.
Lemma uses_names fuel tpl name : uses_loop fuel tpl name = bool_decide (name ∈ used_names fuel tpl).
Proof.
  revert tpl; induction fuel as [|fuel IH]; intros tpl; cbn [uses_loop used_names]; [by rewrite bool_decide_false by apply not_elem_of_nil|].
  destruct (Index tpl "{{") as [o|]; [|by rewrite bool_decide_false by apply not_elem_of_nil]. cbv zeta.
  destruct (Index (sdrop (o + 2) tpl) "}}") as [c|]; [|by rewrite bool_decide_false by apply not_elem_of_nil].
  rewrite IH. apply eq_bool_prop_intro. rewrite orb_True, !bool_decide_spec, elem_of_cons. intuition.
Qed.

(** Two documents' values that differ in the value of one variable at most: the owner, the
    correspondent, the layout's name, the tags or the system's name. *)
Definition agree_except (v : string) (r : docrow) (tags : list string) (r' : docrow) (tags' : list string) : Prop :=
  title r = title r' /\ storagePathTpl r = storagePathTpl r' /\ archiveBlob r = archiveBlob r' /\
  originalBlob r = originalBlob r' /\ originalMIME r = originalMIME r' /\ created r = created r' /\ added r = added r' /\
  asn r = asn r' /\ jdCode r = jdCode r' /\ jdName r = jdName r' /\ areaStart r = areaStart r' /\ areaEnd r = areaEnd r' /\
  areaName r = areaName r' /\ systemCode r = systemCode r' /\ mode r = mode r' /\
  (v <> "owner" -> ownerEmail r = ownerEmail r') /\ (v <> "correspondent" -> correspondent r = correspondent r') /\
  (v <> "storage_path" -> storagePathName r = storagePathName r') /\ (v <> "tag_list" -> tags = tags') /\
  (v <> "jd.system.name" -> systemName r = systemName r').

Lemma values_agree v d r tags r' tags' name :
  agree_except v r tags r' tags' -> name <> v ->
  lookup_value name (templateValues (context_of d r tags)) = lookup_value name (templateValues (context_of d r' tags')) /\
  forall u, lookup_value name (templateValues (with_created (context_of d r tags) u)) =
    lookup_value name (templateValues (with_created (context_of d r' tags') u)).
Proof.
  unfold agree_except. intros H Hv. destruct_and! H. unfold context_of.
  repeat match goal with E : _ r = _ r' |- _ => rewrite E; clear E end.
  split; [|intros u]; cbn; repeat (case_bool_decide; [f_equal; first [reflexivity|f_equal; intuition congruence|intuition congruence]|]); done.
Qed.

(** Everything [target_path] computes depends on the used variables and on the code. *)
Lemma target_path_uses tpl c c' ext :
  JDSystemCode c = JDSystemCode c' ->
  (forall name, UsesVariable tpl name = true -> lookup_value name (templateValues c) = lookup_value name (templateValues c')) ->
  target_path tpl c ext = target_path tpl c' ext.
Proof.
  intros Hc H. unfold target_path. rewrite <- Hc.
  assert (E : Render tpl c = Render tpl c'); [|by rewrite E]. unfold Render. by rewrite (render_loop_uses _ _ (templateValues c') tpl "" H).
Qed.

Definition flat_variants : list string :=
  [DefaultTemplateFlat; trim_prefix DefaultTemplateFlat "{{ correspondent }}/";
   replace_first DefaultTemplateFlat "{{ created_year }}/" "";
   replace_first (trim_prefix DefaultTemplateFlat "{{ correspondent }}/") "{{ created_year }}/" ""].

Lemma flat_variant_names t v :
  t ∈ flat_variants -> v ∈ used_names (String.length t) t ->
  v ∈ used_names (String.length DefaultTemplateFlat) DefaultTemplateFlat.
Proof.
  intros Ht Hv.
  assert (K : forallb (fun n => bool_decide (n ∈ used_names (String.length DefaultTemplateFlat) DefaultTemplateFlat))
                (used_names (String.length t) t) = true).
  { unfold flat_variants in Ht. rewrite !elem_of_cons, elem_of_nil in Ht. destruct Ht as [->|[->|[->|[->|[]]]]]; vm_compute; reflexivity. }
  rewrite forallb_forall in K. apply list_elem_of_In in Hv. specialize (K _ Hv). by apply bool_decide_eq_true in K.
Qed.

(** The default template after the fallbacks uses no other variable. *)
Lemma fallback_names mode c v :
  UsesVariable (selected_template None mode) v = false ->
  UsesVariable (fst (default_fallbacks mode (selected_template None mode) c)) v = false.
Proof.
  unfold UsesVariable. rewrite !uses_names, !bool_decide_eq_false. unfold selected_template, default_fallbacks. cbn [default].
  destruct (bool_decide (mode = "flat")); cbn [andb]; change (bool_decide ("" = "")) with true; cbn match.
  - intros Hv Hin. apply Hv. refine (flat_variant_names _ _ _ Hin). clear. unfold flat_variants.
    repeat case_bool_decide; cbn [fst]; rewrite !elem_of_cons; auto 6.
  - by repeat case_bool_decide.
Qed.

Lemma fallback_created m t c :
  snd (default_fallbacks m t c) =
  with_created c (if bool_decide (Created c = "") then if bool_decide (Added c = "") then "undated" else Added c else Created c).
Proof.
  unfold default_fallbacks. destruct (bool_decide (Created c = "")) eqn:E; cbn [Created with_created].
  - by destruct (bool_decide (Added c = "")).
  - rewrite E. by destruct c.
Qed.

(** Where [resolveTarget] puts a document's link, and the blob it names. *)
Definition document_target (to_lower : string -> string) (formats : registry) (d : Z) (r : docrow) (tags : list string)
    : result view_error (string * string) :=
  let '(tpl, c, hash, ext) := buildContext to_lower formats d r tags in
  p ← target_path tpl c ext; Ok (p, hash).

Lemma fallback_template v d r tags r' tags' :
  let tpl := selected_template (storagePathTpl r) (mode r) in
  agree_except v r tags r' tags' -> UsesVariable tpl v = false -> default "" (storagePathTpl r) = "" ->
  fst (default_fallbacks (mode r) tpl (context_of d r tags)) = fst (default_fallbacks (mode r) tpl (context_of d r' tags')).
Proof.
  intros tpl Hag Hu Hd. unfold agree_except in Hag. destruct_and! Hag. subst tpl.
  unfold default_fallbacks, context_of. cbn [Correspondent Created Added].
  repeat match goal with E : _ r = _ r' |- _ => rewrite <- E; clear E end.
  destruct (bool_decide_reflect (mode r = "flat")) as [Hm|]; cbn [andb]; [|by repeat case_bool_decide].
  assert (E : correspondent r = correspondent r').
  { destruct (decide (v = "correspondent")) as [->|E]; [|by auto]. unfold selected_template in Hu.
    rewrite !bool_decide_true in Hu by done. by vm_compute in Hu. }
  rewrite <- E. by repeat case_bool_decide.
Qed.

(** Renaming a value re-renders every document it can move.  When a rename changes one
    variable's value, a document of the candidates that [EnqueueTemplateMoves] leaves out
    keeps its path and its blob, or keeps failing in the same way. *)
Theorem template_moves_complete to_lower formats v rows c r tags r' tags' :
  c ∈ rows -> (c_doc c, c_system c) ∉ template_targets v rows ->
  c_template c = default "" (storagePathTpl r) -> c_taxonomy c = mode r ->
  agree_except v r tags r' tags' ->
  document_target to_lower formats (c_doc c) r tags = document_target to_lower formats (c_doc c) r' tags'.
Proof.
  intros Hc Ht Hct Hcm Hag.
  assert (Hu : UsesVariable (selected_template (storagePathTpl r) (mode r)) v = false).
  { destruct (UsesVariable _ v) eqn:E; [|done]. exfalso. apply Ht. unfold template_targets. apply list_elem_of_fmap.
    exists c. split; [done|]. apply list_elem_of_In, filter_In. split; [by apply list_elem_of_In|].
    rewrite Hct, Hcm. unfold selected_template in *. cbn [default]. by destruct (storagePathTpl r). }
  pose proof (values_agree v (c_doc c) r tags r' tags') as Hval.
  assert (Hk : forall name tpl, UsesVariable tpl v = false -> UsesVariable tpl name = true -> name <> v) by congruence.
  unfold document_target, buildContext.
  assert (Hrow : storagePathTpl r = storagePathTpl r' /\ mode r = mode r' /\ archiveBlob r = archiveBlob r' /\
    originalBlob r = originalBlob r' /\ originalMIME r = originalMIME r' /\ systemCode r = systemCode r' /\
    unixToISODate (created r) = unixToISODate (created r') /\ unixToISODate (niInt (added r)) = unixToISODate (niInt (added r'))).
  { unfold agree_except in Hag. destruct_and! Hag. split_and!; congruence. }
  destruct Hrow as (<- & <- & <- & <- & <- & Hcode & Hcr & Had). destruct (if bool_decide _ then (originalBlob r, _) else _) as [hash ext].
  destruct (bool_decide_reflect (default "" (storagePathTpl r) = "")) as [Hd|Hd].
  - pose proof (fallback_template v (c_doc c) r tags r' tags' Hag Hu Hd) as Hf. pose proof (fallback_names (mode r) (context_of (c_doc c) r tags) v) as Hfn.
    assert (Esel : selected_template None (mode r) = selected_template (storagePathTpl r) (mode r)).
    { unfold selected_template. by rewrite Hd. }
    rewrite Esel in Hfn. specialize (Hfn Hu).
    pose proof (fallback_created (mode r) (selected_template (storagePathTpl r) (mode r))) as Hs.
    pose proof (Hs (context_of (c_doc c) r tags)) as H1. pose proof (Hs (context_of (c_doc c) r' tags')) as H2. clear Hs.
    destruct (default_fallbacks _ _ (context_of _ r tags)) as [t1 c1]. destruct (default_fallbacks _ _ (context_of _ r' tags')) as [t2 c2].
    cbn [fst snd] in *. subst t2 c1 c2. erewrite target_path_uses; [reflexivity|done|].
    intros name Hname. rewrite (proj2 (Hval name Hag (Hk _ _ Hfn Hname))). cbn [Created Added context_of]. by rewrite Hcr, Had.
  - erewrite target_path_uses; [reflexivity|done|]. intros name Hname. by apply Hval, (Hk _ _ Hu Hname).
Qed.

(** * The preview *)

(** Whether a template renders does not depend on the values, but for the length. *)
Lemma lookup_names (v1 v2 : list (string * string)) name :
  v1.*1 = v2.*1 -> is_Some (lookup_value name v1) -> is_Some (lookup_value name v2).
Proof.
  revert v2; induction v1 as [|[k x] v1 IH]; intros [|[k' x'] v2]; try done; try by intros _ [? ?].
  intros [= <- E]. cbn. case_bool_decide; [done|]. by apply IH.
Qed.
Lemma append_result out value : appendBounded out value = Err ErrTooLong \/ exists s, appendBounded out value = Ok s.
Proof. unfold appendBounded. case_match; eauto. Qed.
Lemma render_loop_values fuel v1 v2 tpl out1 out2 s :
  v1.*1 = v2.*1 -> render_loop fuel v1 tpl out1 = Ok s ->
  render_loop fuel v2 tpl out2 = Err ErrTooLong \/ exists s', render_loop fuel v2 tpl out2 = Ok s'.
Proof.
  intros Hk. revert tpl out1 out2; induction fuel as [|fuel IH]; intros tpl out1 out2; cbn [render_loop].
  - case_bool_decide; [eauto|done].
  - case_bool_decide; [eauto|]. cbv zeta. destruct (match Index tpl "}}" with Some _ => _ | None => _ end); [done|].
    destruct (Index tpl "{{") as [o|]; [|intros _; apply append_result].
    intros (a & _ & Hr)%bind_Ok. destruct (append_result out2 (stake o tpl)) as [->|[b ->]]; [by left|]. cbn [mbind result_bind].
    destruct (Index (sdrop (o + 2) tpl) "}}") as [c|]; [|done].
    case_bool_decide; [done|]. destruct (_ || _); [done|].
    destruct (lookup_value _ v1) as [x|] eqn:E; [|done].
    destruct (lookup_names v1 v2 _ Hk ltac:(by rewrite E)) as [y ->]. apply bind_Ok in Hr as (a' & _ & Hr).
    destruct (append_result b y) as [->|[b' ->]]; [by left|]. cbn [mbind result_bind]. by eapply IH.
Qed.

(** A layout the preview accepts renders for every document, or is refused for its
    length only: no value can make its syntax fail. *)
Theorem preview_renders template out c :
  previewRenderedLayout template = Ok out ->
  Render (TrimSpace template) c = Err ErrTooLong \/ exists s, Render (TrimSpace template) c = Ok s.
Proof.
  unfold previewRenderedLayout. cbv zeta. destruct (Render (TrimSpace template) sample_context) as [s|] eqn:E; [intros _|done].
  revert E. unfold Render. repeat (case_match; [done|]). by apply render_loop_values.
Qed.

(** A layout with a backslash: the preview shows the path with an underscore in its place,
    the renderer refuses every document. *)
Lemma backslash_layout c ext :
  previewRenderedLayout "Letters\{{ title }}" = Ok ("Letters_March electricity bill.pdf", false) /\
  (target_path "Letters\{{ title }}" c ext = Err ErrRelative \/ target_path "Letters\{{ title }}" c ext = Err (ErrRender ErrTooLong)).
Proof.
  split; [vm_compute; reflexivity|]. unfold target_path.
  assert (E : Render "Letters\{{ title }}" c = appendBounded "" ("Letters\" +:+ Title c +:+ "")).
  { change "Letters\{{ title }}" with (print_template [Lit "Letters\"; Var "title"]).
    rewrite render_print; [reflexivity|repeat constructor; cbn; eauto|done|apply Nat.leb_le; vm_compute; done|vm_compute; done]. }
  rewrite bool_decide_false, E by done. unfold appendBounded. destruct (_ <? _)%nat; [by right|left]. cbn [from_render mbind result_bind].
  assert (K : safeRelative ("" +:+ "Letters\" +:+ Title c +:+ "") = Err ErrRelative); [|by rewrite K].
  unfold safeRelative. assert (Contains ("" +:+ "Letters\" +:+ Title c +:+ "") "\" = true) as ->; [|by rewrite orb_true_r].
  apply Contains_spec. exists "Letters", (Title c +:+ ""). done.
Qed.

(** A document titled "." under the layout "{{ title }}", of a type without an extension:
    its link takes the name of the system's directory. *)
Example dot_title : target_path "{{ title }}" (MkContext "." 1 "" "" [] "" "" "" "" 10 19 "" 11 "" "S01" "" "") "" = Ok "S01".
Proof. vm_compute. reflexivity. Qed.

(** * Witnesses *)

Definition row0 : docrow :=
  MkDocrow "Lease" (Some "Stadtwerke") (Some "{{ correspondent }}/{{ title }}") (Some "By sender") None
    "0000000000000000000000000000000000000000000000000000000000000000" "application/pdf" 1767225600 None None "ada@example.com"
    11 "Rent" 10 19 "Home" "S01" "Home" "jd".
Definition row1 : docrow :=
  MkDocrow "Lease" (Some "Stadtwerke") (Some "{{ correspondent }}/{{ title }}") (Some "By sender") None
    "0000000000000000000000000000000000000000000000000000000000000000" "application/pdf" 1767225600 None None "bea@example.com"
    11 "Rent" 10 19 "Home" "S01" "Home" "jd".

Lemma target_path_inside_witness :
  target_path "{{ correspondent }}/../{{ title }}" (context_of 7 row0 []) ".pdf" = Err ErrTraversal /\
  target_path "{{ correspondent }}/{{ title }}" (context_of 7 row0 []) ".pdf" = Ok "S01/Stadtwerke/Lease.pdf" /\
  is_clean "S01/Stadtwerke/Lease.pdf" = true.
Proof.
  assert (H : target_path "{{ correspondent }}/{{ title }}" (context_of 7 row0 []) ".pdf" = Ok "S01/Stadtwerke/Lease.pdf") by (vm_compute; reflexivity).
  split_and!; [vm_compute; reflexivity|exact H|].
  apply (target_path_inside _ _ _ _ H); [reflexivity|right; reflexivity|discriminate].
Defined.

Lemma template_moves_complete_witness :
  template_targets "owner" [MkCandidate 7 2 "{{ correspondent }}/{{ title }}" "jd"] = [] /\
  template_targets "owner" [MkCandidate 7 2 "{{ owner }}/{{ title }}" "jd"] = [(7, 2)] /\
  document_target (fun s => s) (MkRegistry ∅ ∅) 7 row0 [] = document_target (fun s => s) (MkRegistry ∅ ∅) 7 row1 [].
Proof.
  split_and!; [vm_compute; reflexivity|vm_compute; reflexivity|].
  apply (template_moves_complete _ _ "owner" [MkCandidate 7 2 "{{ correspondent }}/{{ title }}" "jd"] (MkCandidate 7 2 "{{ correspondent }}/{{ title }}" "jd") row0 [] row1 []).
  - apply list_elem_of_here.
  - change (template_targets "owner" _) with (template_targets "owner" [MkCandidate 7 2 "{{ correspondent }}/{{ title }}" "jd"]).
    apply not_elem_of_nil.
  - reflexivity.
  - reflexivity.
  - unfold agree_except. split_and!; try reflexivity. intros H. by destruct H.
Defined.

Lemma preview_renders_witness :
  previewRenderedLayout "{{ correspondent }}/{{ title }}" = Ok ("City Energy/March electricity bill.pdf", false) /\
  exists s, Render "{{ correspondent }}/{{ title }}" (context_of 7 row0 []) = Ok s.
Proof.
  assert (H : previewRenderedLayout "{{ correspondent }}/{{ title }}" = Ok ("City Energy/March electricity bill.pdf", false)) by (vm_compute; reflexivity).
  split; [exact H|]. destruct (preview_renders _ _ (context_of 7 row0 []) H) as [E|E]; [|exact E].
  exfalso. vm_compute in E. discriminate E.
Defined.
