(* ===== verification/RenderJournal.v ===== *)
(** The journal of rendered links ([core/render/view/view.go], [view/pathclaim/pathclaim.go],
    and what [core/trash/trash.go] does to links): how the renderer publishes a document's
    link, what a crash leaves behind, and how claims on paths are decided.

    A call of the renderer is a program: a tree of atomic actions on the world (a read of
    the database, a write transaction, a walk over directories) between which anything
    else may happen. *)
From S2P Require Import Prelude GoStd Utf8 Sqlite FilePath Paths Mime Systems RenderTarget.

(** * The world *)

Record projection : Type := MkProjection { path : string; blob : string }.
#[export] Instance projection_eq_dec : EqDecision projection.
Proof. solve_decision. Defined.
Definition no_projection : projection := MkProjection "" "".

(** A row of [render_moves]: what it records, and the comparison keys of its two paths. *)
Inductive move_state : Type := Pending | Applied | Failed.
#[export] Instance move_state_eq_dec : EqDecision move_state.
Proof. solve_decision. Defined.
Record record : Type := MkRecord {
  document_id : Z; prev : projection; new : projection; state : move_state; applied_at : option Z;
}.
Record move : Type := MkMove { m_record : record; prev_path_key : option string; new_path_key : option string }.

(** A document with what its row joins to. *)
Record document : Type := MkDocument { d_row : docrow; d_tags : list string; d_trashed : bool }.

(** The entries under the render directory, by the names the file system knows them by. *)
Inductive node : Type := Dir | File | Symlink (target : string).
#[export] Instance node_eq_dec : EqDecision node.
Proof. solve_decision. Defined.
Abbreviation entry_tree := (gmap (list string) node).

(** [introduced] is what the first filing system's row says, if it is there;
    [last_document] is the highest id a document ever had (AUTOINCREMENT).  [abandoned] is
    not the program's: the entries a purge left behind for its clean-up. *)
Record world : Type := MkWorld {
  documents : gmap Z document; last_document : Z; introduced : option bool;
  moves : gmap Z move; tree : entry_tree; now : Z; abandoned : gset (list string);
}.
Definition with_documents (f : gmap Z document -> gmap Z document) (w : world) : world :=
  MkWorld (f (documents w)) (last_document w) (introduced w) (moves w) (tree w) (now w) (abandoned w).
Definition with_moves (f : gmap Z move -> gmap Z move) (w : world) : world :=
  MkWorld (documents w) (last_document w) (introduced w) (f (moves w)) (tree w) (now w) (abandoned w).
Definition with_tree (f : entry_tree -> entry_tree) (w : world) : world :=
  MkWorld (documents w) (last_document w) (introduced w) (moves w) (f (tree w)) (now w) (abandoned w).
Definition records (w : world) : gmap Z record := m_record <$> moves w.

(** * Programs *)

Inductive prog (A : Type) : Type :=
  | Ret (a : A)
  | Throw (e : view_error)
  | Act (B : Type) (f : world -> world * B) (k : B -> prog A).
Arguments Ret {A} a.
Arguments Throw {A} e.
Arguments Act {A B} f k.

Fixpoint prog_bind {A B} (p : prog A) (k : A -> prog B) : prog B :=
  match p with
  | Ret a => k a
  | Throw e => Throw e
  | Act f k' => Act f (fun b => prog_bind (k' b) k)
  end.
#[export] Instance prog_mret : MRet prog := fun _ => Ret.
#[export] Instance prog_mbind : MBind prog := fun _ _ k p => prog_bind p k.
(** The error of a call as a value. *)
Fixpoint attempt {A} (p : prog A) : prog (result view_error A) :=
  match p with
  | Ret a => Ret (Ok a)
  | Throw e => Ret (Err e)
  | Act f k => Act f (fun b => attempt (k b))
  end.
Definition lift {A} (r : result view_error A) : prog A := match r with Ok a => Ret a | Err e => Throw e end.
(** One action that may fail half way, and a transaction, which then changes nothing. *)
Definition walk {A} (f : world -> world * result view_error A) : prog A := Act f lift.
Definition tx {A} (f : world -> result view_error (world * A)) : prog A :=
  walk (fun w => match f w with Ok (w', a) => (w', Ok a) | Err e => (w, Err e) end).
Definition read {A} (f : world -> result view_error A) : prog A := tx (fun w => a ← f w; Ok (w, a)).

(** A call that nothing interrupts. *)
Fixpoint run {A} (p : prog A) (w : world) : world * result view_error A :=
  match p with
  | Ret a => (w, Ok a)
  | Throw e => (w, Err e)
  | Act f k => let '(w, b) := f w in run (k b) w
  end.

(** * Claims *)

(** The order [applied_at DESC, id DESC], with NULL last. *)
Definition older (x y : Z * record) : bool :=
  match applied_at (snd x), applied_at (snd y) with
  | Some s, Some t => (s <? t) || (s =? t) && (fst x <? fst y)
  | None, Some _ => true
  | Some _, None => false
  | None, None => fst x <? fst y
  end.
Fixpoint newest (l : list (Z * record)) : option (Z * record) :=
  match l with
  | [] => None
  | x :: l => match newest l with
              | Some y => Some (if older x y then y else x)
              | None => Some x
              end
  end.
Definition applied_of (d : Z) (x : Z * record) : bool :=
  bool_decide (document_id (snd x) = d) && bool_decide (state (snd x) = Applied).
Definition latest_applied (rs : gmap Z record) (d : Z) : option (Z * record) :=
  newest (List.filter (applied_of d) (map_to_list rs)).

(** The name the blob store gives a blob, and a link that names the blob [hash]. *)
Definition names_blob (data_dir hash link : string) : bool :=
  match cas_path data_dir hash with Ok src => bool_decide (link = src) | Err _ => false end || MatchesCASLink link hash.

Definition by_id (x y : Z * record) : Prop := fst x <= fst y.
#[export] Instance by_id_dec : RelDecision by_id.
Proof. intros x y. unfold by_id. apply _. Defined.

Section Renderer.
Context (to_lower : string -> string) (formats : registry).
Context (data_dir : string) (Key : string -> string) (fold_name : string -> string).

Definition fill_keys (m : move) : move :=
  match prev_path_key m, new_path_key m with
  | Some _, Some _ => m
  | _, _ => MkMove (m_record m) (Some (Key (path (prev (m_record m))))) (Some (Key (path (new (m_record m)))))
  end.
Definition fillMissingKeys (w : world) : world := with_moves (fmap fill_keys) w.
Definition ClaimedByOther (docID : Z) (relative : string) (w : world) : world * bool :=
  let w := fillMissingKeys w in
  let rs := records w in
  (w,
   exists_row (fun id m => bool_decide (new_path_key m = Some (Key relative)) && negb (document_id (m_record m) =? docID) &&
     (bool_decide (state (m_record m) = Pending)
      || bool_decide (fst <$> latest_applied rs (document_id (m_record m)) = Some id))) (moves w)
   || exists_row (fun id m => bool_decide (prev_path_key m = Some (Key relative)) && negb (document_id (m_record m) =? docID) &&
        bool_decide (state (m_record m) = Pending)) (moves w)).

(** * Paths in the tree *)

Definition entry (relative : string) : list string := fold_name <$> Split (Clean relative) "/"%char.
(** The proper prefixes of an entry but the root, outermost first. *)
Fixpoint prefixes (acc e : list string) : list (list string) :=
  match e with
  | [] | [_] => []
  | c :: e => (acc ++ [c]) :: prefixes (acc ++ [c]) e
  end.
Definition parents (e : list string) : list (list string) := prefixes [] e.
Definition is_dir (t : entry_tree) (e : list string) : bool := bool_decide (t !! e = Some Dir).

(** [filepath.Rel] of a path without "..", cleaned. *)
Definition underRoot (relative : string) : bool := negb (has_prefix (Clean relative) "..").

Definition checkDocumentPath (relative : string) : prog unit :=
  _ ← lift (safeRelative relative);
  let '(first, rest) := Cut relative "/"%char in
  introduced ← (if ValidCode first && IsIndexPath rest
                then read (fun w => match introduced w with Some b => Ok b | None => Err ErrNoRows end)
                else Ret false);
  if (introduced : bool) then Throw ErrReserved
  else if IsIndexPath relative then Throw ErrReserved
  else if negb (underRoot relative) || bool_decide (Clean relative = ".") then Throw ErrEscape
  else read (fun w =>
    require forallb (fun p => match tree w !! p with None | Some Dir => true | _ => false end) (parents (entry relative))
    else ErrParent in Ok ()).

(** The walk of [documentParent] along the parents of an entry. *)
Fixpoint enter (create : bool) (ps : list (list string)) (t : entry_tree) : entry_tree * result view_error unit :=
  match ps with
  | [] => (t, Ok ())
  | p :: ps =>
      let t := if create && bool_decide (t !! p = None) then <[p := Dir]> t else t in
      match t !! p with
      | Some Dir => enter create ps t
      | Some _ => (t, Err ErrParent)
      | None => (t, Err ErrNotExist)
      end
  end.
Definition documentParent (relative : string) (create : bool) : prog (list string) :=
  _ ← lift (safeRelative relative);
  _ ← (if create then checkDocumentPath relative else Ret ());
  let e := entry relative in
  walk (fun w => let '(t, r) := enter create (parents e) (tree w) in (with_tree (fun _ => t) w, _ ← r; Ok e)).

(** * Links *)

Definition journaled_blobs (docID : Z) (relative : string) (w : world) : list string :=
  let of_doc := List.filter (fun r => document_id r =? docID) ((map_to_list (records w)).*2) in
  (blob ∘ new <$> List.filter (fun r => bool_decide (path (new r) = relative)) of_doc) ++
  (blob ∘ prev <$> List.filter (fun r => bool_decide (path (prev r) = relative)) of_doc).
(** The loop over the query's hashes; an order other than the statement's matters only to
    a hash [cas_path] refuses. *)
Fixpoint prove_loop (link : string) (hashes : list string) : result view_error unit :=
  match hashes with
  | [] => Err ErrForeign
  | h :: hashes =>
      if bool_decide (h = "") then prove_loop link hashes
      else
        src ← cas_path data_dir h;
        if bool_decide (link = src) || MatchesCASLink link h then Ok () else prove_loop link hashes
  end.
Definition proveDocumentLink (docID : Z) (relative : string) (e : list string) (w : world) : result view_error unit :=
  match tree w !! e with
  | None => Err ErrNotExist
  | Some (Symlink link) =>
      prove_loop link
        (match documents w !! docID with
         | Some d => originalBlob (d_row d) :: match archiveBlob (d_row d) with Some a => [a] | None => [] end
         | None => []
         end ++ journaled_blobs docID relative w)
  | Some _ => Err ErrNotDocument
  end.
(** The parent is held open: an operation in a directory that is gone fails. *)
Definition parents_open (e : list string) (w : world) : bool := forallb (is_dir (tree w)) (parents e).
Definition replaceSymlink (src : string) (e : list string) (w : world) : result view_error world :=
  match tree w !! e with
  | None | Some (Symlink _) =>
      require parents_open e w else ErrNotExist in Ok (with_tree (fun t => <[e := Symlink src]> t) w)
  | Some _ => Err ErrNotDocument
  end.

Definition publish_tx (docID : Z) (relative src : string) (e : list string) (w : world) : result view_error (world * unit) :=
  require match documents w !! docID with Some d => negb (d_trashed d) | None => false end else ErrNoRows in
  let '(w, claimed) := ClaimedByOther docID relative w in
  fail_if claimed with ErrClaimed relative in
  _ ← match proveDocumentLink docID relative e w with Err ErrNotExist => Ok () | r => r end;
  w ← replaceSymlink src e w; Ok (w, ()).
Definition publishDocumentLink (docID : Z) (relative src : string) : prog unit :=
  e ← documentParent relative true; tx (publish_tx docID relative src e).

Definition remove_tx (docID : Z) (relative : string) (e : list string) (w : world) : result view_error (world * unit) :=
  let '(w, claimed) := ClaimedByOther docID relative w in
  if claimed then Ok (w, ())
  else _ ← proveDocumentLink docID relative e w; Ok (with_tree (delete e) w, ()).
Definition removeDocumentLink (docID : Z) (relative : string) : prog unit :=
  e ← documentParent relative false; tx (remove_tx docID relative e).

Definition sameEntry (a b : string) : prog bool :=
  if bool_decide (a = "") || bool_decide (b = "") || negb (bool_decide (Key a = Key b)) then Ret false
  else read (fun w => Ok (match tree w !! entry a, tree w !! entry b with
                          | Some _, Some _ => bool_decide (entry a = entry b)
                          | _, _ => false
                          end)).

(** * The journal *)

Record pendingMove : Type := MkPending { p_id : Z; previous : projection; next : projection }.

Definition resolveTarget (docID : Z) : prog (string * string) :=
  r ← read (fun w => match documents w !! docID with
                     | Some d => if d_trashed d then Err ErrNoRows else Ok (d_row d)
                     | None => Err ErrNoRows
                     end);
  tags ← read (fun w => Ok (match documents w !! docID with Some d => d_tags d | None => [] end));
  let '(tpl, c, blobHash, ext) := buildContext to_lower formats docID r tags in
  rendered ← lift (target_path tpl c ext);
  _ ← checkDocumentPath rendered;
  src ← lift (cas_path data_dir blobHash);
  Ret (rendered, src).

Definition lastAppliedProjection (docID : Z) : prog projection :=
  read (fun w => Ok (match latest_applied (records w) docID with Some (_, r) => new r | None => no_projection end)).

Definition pending_row (docID : Z) (previous next : projection) : move :=
  MkMove (MkRecord docID previous next Pending None) (Some (Key (path previous))) (Some (Key (path next))).
Definition record_tx (docID : Z) (previous next : projection) (w : world) : result view_error (world * pendingMove) :=
  let '(w, claimed) := ClaimedByOther docID (path next) w in
  fail_if claimed with ErrClaimed (path next) in
  require bool_decide (is_Some (documents w !! docID)) else ErrForeignKey in
  let id := next_rowid (moves w) in
  Ok (with_moves <[id := pending_row docID previous next]> w, MkPending id previous next).
Definition recordPending (docID : Z) (previous next : projection) : prog pendingMove := tx (record_tx docID previous next).

Definition pending_of (docID : Z) (w : world) : list pendingMove :=
  (fun x => MkPending (fst x) (prev (snd x)) (new (snd x))) <$>
    merge_sort by_id
      (List.filter (fun x => (document_id (snd x) =? docID) && bool_decide (state (snd x) = Pending)) (map_to_list (records w))).

(** The row [finishPending] leaves, and its transaction over the moves' ids. *)
Definition applied_row (current : projection) (t : Z) (m : move) : move :=
  MkMove (MkRecord (document_id (m_record m)) (prev (m_record m)) current Applied (Some t)) (prev_path_key m) (Some (Key (path current))).
Definition apply_tx (current : projection) (ms : list pendingMove) (w : world) : world :=
  with_moves (fun rows => foldl (fun rows m => alter (applied_row current (now w)) (p_id m) rows) rows ms) w.

Fixpoint remove_loop (docID : Z) (current : string) (olds : list projection) (removed : list string) : prog unit :=
  match olds with
  | [] => Ret ()
  | old :: olds =>
      if bool_decide (path old = "") || bool_decide (path old = current) || bool_decide (path old ∈ removed)
      then remove_loop docID current olds removed
      else
        same ← sameEntry (path old) current;
        if (same : bool) then remove_loop docID current olds removed
        else
          r ← attempt (removeDocumentLink docID (path old));
          match r with
          | Ok _ | Err ErrNotExist => remove_loop docID current olds (path old :: removed)
          | Err e => Throw e
          end
  end.

(** [latest] is the last of [ms]; the callers give one move at least. *)
Definition finishPending (docID : Z) (ms : list pendingMove) (latest : pendingMove) : prog unit :=
  '(rendered, src) ← resolveTarget docID;
  let current := MkProjection rendered (Base src) in
  ms ← (if bool_decide (next latest = current) then Ret ms
        else m ← recordPending docID (next latest) current; Ret (ms ++ [m]));
  _ ← publishDocumentLink docID (path current) src;
  _ ← remove_loop docID (path current) (ms ≫= fun m => [previous m; next m]) [];
  tx (fun w => Ok (apply_tx current ms w, ())).

Definition reconcileDocument (docID : Z) : prog unit :=
  ms ← read (fun w => Ok (pending_of docID w));
  match last ms with
  | None => Ret ()
  | Some latest => finishPending docID ms latest
  end.

Definition project (docID : Z) : prog string :=
  _ ← reconcileDocument docID;
  '(rendered, src) ← resolveTarget docID;
  let current := MkProjection rendered (Base src) in
  previous ← lastAppliedProjection docID;
  if bool_decide (previous = current) then
    _ ← publishDocumentLink docID (path current) src; Ret rendered
  else
    m ← recordPending docID previous current;
    _ ← finishPending docID [m] m;
    applied ← lastAppliedProjection docID;
    Ret (path applied).

(** [Render] and [Move] hold the renderer's lock around [project], [Reconcile] around the
    pending documents in order; a document's failure does not stop the others. *)
Definition Render_document (docID : Z) : prog string := project docID.
Definition Move (docID : Z) : prog unit := _ ← project docID; Ret ().
Definition pending_documents (w : world) : list Z :=
  merge_sort Z.le (elements (list_to_set (C := gset Z)
    (document_id ∘ snd <$> List.filter (fun x => bool_decide (state (snd x) = Pending)) (map_to_list (records w))))).
Fixpoint reconcile_all (ids : list Z) (failed : list view_error) : prog (list view_error) :=
  match ids with
  | [] => Ret failed
  | id :: ids =>
      r ← attempt (reconcileDocument id);
      reconcile_all ids (match r with Ok _ => failed | Err e => failed ++ [e] end)
  end.
Definition Reconcile : prog (list view_error) :=
  ids ← read (fun w => Ok (pending_documents w)); reconcile_all ids [].

(** * Purging *)

(** The paths a purge takes down for the clean-up: those its document claims. *)
Definition cleanup_paths (d : Z) (w : world) : list string :=
  let rs := records w in
  let own := List.filter (fun x => document_id (snd x) =? d) (map_to_list rs) in
  List.filter (fun p => negb (bool_decide (p = "")))
    ((path ∘ new ∘ snd <$> List.filter (fun x => bool_decide (state (snd x) = Pending)
        || bool_decide (fst <$> latest_applied rs d = Some (fst x))) own) ++
     (path ∘ prev ∘ snd <$> List.filter (fun x => bool_decide (state (snd x) = Pending)) own)).
Definition purge_hashes (d : Z) (p : string) (w : world) : list string :=
  List.filter (fun h => negb (bool_decide (h = "")))
    (match documents w !! d with
     | Some doc => [originalBlob (d_row doc); default "" (archiveBlob (d_row doc))]
     | None => []
     end ++ journaled_blobs d p w).
Definition candidates (ids : list Z) (w : world) : list Z :=
  List.filter (fun d => match documents w !! d with Some doc => d_trashed doc | None => false end) ids.
Definition purge_tx (ids : list Z) (w : world) : world * list (string * list string) :=
  let ds := candidates ids w in
  let ps := ds ≫= fun d => cleanup_paths d w in
  (MkWorld (filter (fun x => fst x ∉ ds) (documents w)) (last_document w) (introduced w)
     (filter (fun x => document_id (m_record (snd x)) ∉ ds) (moves w)) (tree w) (now w)
     (abandoned w ∪ list_to_set (entry <$> ps)),
   (fun p => (p, ds ≫= fun d => if bool_decide (p ∈ cleanup_paths d w) then purge_hashes d p w else [])) <$> remove_dups ps).

Definition removeMatchingLink (e : list string) (hashes : list string) (w : world) : result view_error (world * bool) :=
  match tree w !! e with
  | None => Err ErrNotExist
  | Some (Symlink link) =>
      if existsb (MatchesCASLink link) hashes
      then require parents_open e w else ErrNotExist in Ok (with_tree (delete e) w, true)
      else Err ErrForeign
  | Some _ => Err ErrNotDocument
  end.
Definition remove_rendered_tx (relative : string) (hashes : list string) (w : world) : result view_error (world * bool) :=
  let '(w, claimed) := ClaimedByOther 0 relative w in
  if claimed then Ok (w, false) else removeMatchingLink (entry relative) hashes w.
Definition removeRenderedLink (relative : string) (hashes : list string) : prog bool :=
  if bool_decide (relative = "") || IsAbs relative || bool_decide (Clean relative = ".")
     || bool_decide (Clean relative = "..") || has_prefix (Clean relative) "../" then Throw ErrEscape
  else
    _ ← walk (fun w => (w, snd (enter false (parents (entry relative)) (tree w))));
    tx (remove_rendered_tx relative hashes).
(** [cleanupRendered]: the links removed and the failures that are only counted. *)
Fixpoint cleanupRendered (rendered : list (string * list string)) (removed failures : nat) : prog (nat * nat) :=
  match rendered with
  | [] => Ret (removed, failures)
  | (relative, hashes) :: rendered =>
      r ← attempt (removeRenderedLink relative hashes);
      match r with
      | Ok b => cleanupRendered rendered (if (b : bool) then S removed else removed) failures
      | Err ErrNotExist => cleanupRendered rendered removed failures
      | Err _ => cleanupRendered rendered removed (S failures)
      end
  end.
Definition purge (ids : list Z) : prog (nat * nat) := rendered ← Act (purge_tx ids) Ret; cleanupRendered rendered 0 0.
End Renderer.
