(* ===== verification/RenderInvariant.v ===== *)
(** What the journal keeps true ([RenderJournal]): the invariant of the world, the changes
    others may make during a renderer call, and the logic in which the call's actions are
    shown to preserve the invariant. *)
From S2P Require Import Prelude GoStd Utf8 Sqlite FilePath Paths Mime Systems RenderTarget RenderJournal.

(** * The latest applied row *)

Lemma older_total x y : fst x <> fst y -> older x y = true \/ older y x = true.
Proof.
  unfold older. destruct (applied_at (snd x)) as [s|], (applied_at (snd y)) as [t|]; auto; intros H; [|lia].
  destruct (Z.lt_trichotomy s t) as [|[|]]; [left|destruct (Z.lt_trichotomy (fst x) (fst y)) as [|[|]]; [left|done|right]|right]; lia.
Qed.
Lemma older_trans x y z : older x y = true -> older y z = true -> older x z = true.
Proof. unfold older. destruct (applied_at (snd x)), (applied_at (snd y)), (applied_at (snd z)); try done; lia. Qed.
Lemma older_irrefl x : older x x = false.
Proof. unfold older. destruct (applied_at (snd x)); lia. Qed.

Lemma newest_None l : newest l = None <-> l = [].
Proof. destruct l as [|x l]; [done|]. cbn. by destruct (newest l). Qed.
Lemma newest_Some l x :
  (forall y z, y ∈ l -> z ∈ l -> fst y = fst z -> y = z) ->
  newest l = Some x -> x ∈ l /\ forall y, y ∈ l -> y = x \/ older y x = true.
Proof.
  revert x; induction l as [|z l IH]; intros x Hu; [done|]. cbn [newest].
  assert (Hu' : forall y z, y ∈ l -> z ∈ l -> fst y = fst z -> y = z) by (intros ????; apply Hu; by apply list_elem_of_further).
  destruct (newest l) as [y|] eqn:E.
  - destruct (IH y Hu' eq_refl) as [Hin Hmax]. destruct (older z y) eqn:Ez; intros [= <-].
    + split; [by apply list_elem_of_further|]. intros u [->|Hu2]%elem_of_cons; [by right|by apply Hmax].
    + split; [apply list_elem_of_here|]. intros u [->|Hu2]%elem_of_cons; [by left|].
      assert (Hyz : y = z \/ older y z = true).
      { destruct (decide (fst z = fst y)) as [Ef|Ef]; [left; symmetry; apply Hu; [apply list_elem_of_here|by apply list_elem_of_further|done]|].
        destruct (older_total z y Ef); [congruence|by right]. }
      destruct (Hmax u Hu2) as [->|Ho], Hyz as [->|Hyz]; [by left|by right|by right|right; by eapply older_trans].
  - apply newest_None in E as ->. intros [= <-]. split; [apply list_elem_of_here|]. intros u [->|Hu2]%elem_of_cons; [by left|].
    by apply not_elem_of_nil in Hu2.
Qed.

Definition applied_row_of (rs : gmap Z record) (d id : Z) (r : record) : Prop :=
  rs !! id = Some r /\ document_id r = d /\ state r = Applied.

Lemma in_applied rs d id r :
  (id, r) ∈ List.filter (applied_of d) (map_to_list rs) <-> applied_row_of rs d id r.
Proof.
  rewrite list_elem_of_In, filter_In, <- list_elem_of_In, elem_of_map_to_list. unfold applied_of, applied_row_of. cbn.
  rewrite andb_true_iff, !bool_decide_eq_true. done.
Qed.

Lemma latest_spec rs d id r :
  latest_applied rs d = Some (id, r) <->
  applied_row_of rs d id r /\
  forall id' r', applied_row_of rs d id' r' -> id' = id \/ older (id', r') (id, r) = true.
Proof.
  unfold latest_applied.
  assert (Hu : forall y z, y ∈ List.filter (applied_of d) (map_to_list rs) -> z ∈ List.filter (applied_of d) (map_to_list rs) -> fst y = fst z -> y = z).
  { intros [i x] [j y] Hx%in_applied Hy%in_applied. cbn. intros <-. destruct Hx as [Hx _], Hy as [Hy _]. congruence. }
  split.
  - intros H. destruct (newest_Some _ _ Hu H) as [Hin Hmax]. apply in_applied in Hin. split; [done|].
    intros id' r' H'%in_applied. destruct (Hmax _ H') as [[= -> ->]|Ho]; [by left|by right].
  - intros [Hin Hmax]. apply in_applied in Hin as Hin'. destruct (newest (List.filter (applied_of d) (map_to_list rs))) as [[i x]|] eqn:E.
    2: { apply newest_None in E. rewrite E in Hin'. by apply not_elem_of_nil in Hin'. }
    destruct (newest_Some _ _ Hu E) as [Hi Hm]. f_equal. apply in_applied in Hi.
    destruct (Hm _ Hin') as [->|Ho]; [done|].
    destruct (Hmax i x Hi) as [->|Ho']; [destruct Hi as [Hi _], Hin as [Hin _]; congruence|].
    pose proof (older_trans _ _ _ Ho Ho') as C. by rewrite older_irrefl in C.
Qed.

Lemma latest_in rs d id r : latest_applied rs d = Some (id, r) -> applied_row_of rs d id r.
Proof. by intros [H _]%latest_spec. Qed.

Lemma latest_None rs d : latest_applied rs d = None <-> forall id r, ~ applied_row_of rs d id r.
Proof.
  unfold latest_applied. rewrite newest_None. split.
  - intros E id r H%in_applied. rewrite E in H. by apply not_elem_of_nil in H.
  - intros H. destruct (List.filter (applied_of d) (map_to_list rs)) as [|[id r] l] eqn:E; [done|].
    destruct (H id r). apply in_applied. rewrite E. apply list_elem_of_here.
Qed.

(** Only a document's own applied rows decide which one is its latest. *)
Lemma latest_ext rs rs' d :
  (forall id r, applied_row_of rs d id r <-> applied_row_of rs' d id r) -> latest_applied rs d = latest_applied rs' d.
Proof.
  intros H. destruct (latest_applied rs' d) as [[id r]|] eqn:E.
  - apply latest_spec in E as [Hin Hmax]. apply latest_spec. split; [by apply H|]. intros id' r' H'%H. by apply Hmax.
  - apply latest_None. intros id r Hr%H. by apply (proj1 (latest_None rs' d) E id r).
Qed.

(** * Claims *)

(** What a document claims: the two sides of its pending rows and its latest applied one. *)
Definition claims (rs : gmap Z record) (d : Z) (pr : projection) : Prop :=
  exists id r, rs !! id = Some r /\ document_id r = d /\
    (state r = Pending /\ (new r = pr \/ prev r = pr) \/ fst <$> latest_applied rs d = Some id /\ new r = pr).
Definition pending_row_of (rs : gmap Z record) (d id : Z) (r : record) : Prop :=
  rs !! id = Some r /\ document_id r = d /\ state r = Pending.
Definition same_rows (rs rs' : gmap Z record) (d : Z) : Prop :=
  forall id r, document_id r = d -> rs !! id = Some r <-> rs' !! id = Some r.

Lemma same_latest rs rs' d : same_rows rs rs' d -> latest_applied rs d = latest_applied rs' d.
Proof. intros H. apply latest_ext. intros id r. unfold applied_row_of. split; intros (Hr & Hd & Hs); split_and!; by try apply H. Qed.
Lemma same_claims rs rs' d pr : same_rows rs rs' d -> claims rs d pr -> claims rs' d pr.
Proof.
  intros H (id & r & Hr & Hd & Hc). exists id, r. split_and!; [by apply H|done|]. by rewrite <- (same_latest _ _ _ H).
Qed.
Lemma same_rows_sym rs rs' d : same_rows rs rs' d -> same_rows rs' rs d.
Proof. intros H id r Hd. symmetry. by apply H. Qed.

Lemma latest_claims rs d id r : latest_applied rs d = Some (id, r) -> claims rs d (new r).
Proof.
  intros H. destruct (latest_in _ _ _ _ H) as (Hr & Hd & _). exists id, r. split_and!; [done|done|]. right. by rewrite H.
Qed.

Section Invariant.
Context (data_dir : string) (Key : string -> string) (fold_name : string -> string).
Abbreviation entry := (entry fold_name).

Definition document_link (link : string) : Prop := exists hash, names_blob data_dir hash link = true.

Definition key_ok (key : option string) (p : string) : Prop := key = None \/ key = Some (Key p).

Record Inv (w : world) : Prop := MkInv {
  inv_keys : forall id m, moves w !! id = Some m ->
    key_ok (prev_path_key m) (path (prev (m_record m))) /\ key_ok (new_path_key m) (path (new (m_record m)));
  inv_docs : forall id r, records w !! id = Some r -> is_Some (documents w !! document_id r);
  inv_ids : forall d x, documents w !! d = Some x -> d <= last_document w;
  inv_new : forall id r, records w !! id = Some r -> path (new r) <> "";
  inv_clock : forall d id r, applied_row_of (records w) d id r -> exists t, applied_at r = Some t /\ t <= now w;
  inv_order : forall d id r id' r', applied_row_of (records w) d id r -> pending_row_of (records w) d id' r' -> id < id';
  (* no two documents claim equivalent paths *)
  inv_disjoint : forall d d' pr pr', claims (records w) d pr -> claims (records w) d' pr' ->
    path pr <> "" -> path pr' <> "" -> Key (path pr) = Key (path pr') -> d = d';
  (* while a document has pending rows, one of them starts from its latest applied row *)
  inv_cover : forall d id r i p, latest_applied (records w) d = Some (id, r) -> pending_row_of (records w) d i p ->
    exists i' p', pending_row_of (records w) d i' p' /\ prev p' = new r;
  inv_tree : forall e n, tree w !! e = Some n -> Forall (fun p => tree w !! p = Some Dir) (parents e);
  (* no link is lost: each is claimed, by the blob it names, or was left to a clean-up *)
  inv_links : forall e link, tree w !! e = Some (Symlink link) -> document_link link ->
    e ∈ abandoned w \/
    exists d pr, claims (records w) d pr /\ path pr <> "" /\ entry (path pr) = e /\ names_blob data_dir (blob pr) link = true;
}.

(** What others do to the world during a call: rows disappear with their document only,
    and nobody but the renderer makes document links. *)
Record evolves (w w' : world) : Prop := MkEvolves {
  ev_fewer : forall id r, records w' !! id = Some r -> records w !! id = Some r;
  ev_kept : forall id r, records w !! id = Some r -> records w' !! id = Some r \/ documents w' !! document_id r = None;
  ev_gone : forall d, documents w !! d = None -> d <= last_document w -> documents w' !! d = None;
  ev_last : last_document w <= last_document w';
  ev_links : forall e link, document_link link -> tree w' !! e = Some (Symlink link) -> tree w !! e = Some (Symlink link);
}.

Lemma evolves_refl w : evolves w w.
Proof. constructor; auto. lia. Qed.
Lemma world_evolves_trans w1 w2 w3 : (forall d x, documents w1 !! d = Some x -> d <= last_document w1) ->
  (forall id r, records w1 !! id = Some r -> is_Some (documents w1 !! document_id r)) ->
  evolves w1 w2 -> evolves w2 w3 -> evolves w1 w3.
Proof.
  intros Hids Hdocs [F1 K1 G1 L1 T1] [F2 K2 G2 L2 T2]. constructor; [auto| | |lia|auto].
  - intros id r H. destruct (K1 _ _ H) as [H'|H']; [destruct (K2 _ _ H'); auto|]. right. apply G2; [done|].
    destruct (Hdocs _ _ H) as [x Hx]. specialize (Hids _ _ Hx). lia.
  - intros d Hd Hl. apply G2; [by apply G1|lia].
Qed.

(** A document that is gone never comes back; while it is there its rows stay. *)
Definition gone (d : Z) (w : world) : Prop := documents w !! d = None /\ d <= last_document w.
Lemma gone_evolves d w w' : gone d w -> evolves w w' -> gone d w'.
Proof. intros [H1 H2] E. split; [by apply (ev_gone _ _ E)|]. pose proof (ev_last _ _ E). lia. Qed.

Lemma rows_evolve d w w' : Inv w -> evolves w w' -> documents w' !! d = None \/ same_rows (records w) (records w') d.
Proof.
  intros I E. destruct (documents w' !! d) as [x|] eqn:Ed; [right|by left]. intros id r Hd. split.
  - intros H. destruct (ev_kept _ _ E _ _ H); [done|congruence].
  - apply (ev_fewer _ _ E).
Qed.
Lemma rows_evolve_gone d w w' : Inv w -> evolves w w' -> gone d w' \/ same_rows (records w) (records w') d.
Proof.
  intros I E. destruct (decide (d <= last_document w')) as [Hl|Hl].
  - destruct (rows_evolve d _ _ I E); [left; by split|by right].
  - right. intros id r Hd. split; [|apply (ev_fewer _ _ E)]. intros H. exfalso.
    destruct (inv_docs _ I _ _ H) as [x Hx]. pose proof (inv_ids _ I _ _ Hx). pose proof (ev_last _ _ E). subst d. lia.
Qed.
Lemma gone_rows d w : Inv w -> documents w !! d = None -> forall id r, records w !! id = Some r -> document_id r <> d.
Proof. intros I Hd id r Hr <-. destruct (inv_docs _ I _ _ Hr). congruence. Qed.

(** * A logic of calls *)

(** What an action may do: keep the invariant, leave alone every entry that is not a
    document link, and publish at most one document's projection, where no other document
    has an equivalent path. *)
Definition projected (w : world) (d : Z) : option projection := new ∘ snd <$> latest_applied (records w) d.
Definition keeps_foreign (w w' : world) : Prop :=
  forall e n, tree w !! e = Some n -> (forall link, n = Symlink link -> ~ document_link link) -> tree w' !! e = Some n.
Definition view_step (v v' : Z -> option projection) : Prop :=
  (forall d, v' d = v d) \/
  exists d pr, v' d = Some pr /\ (forall d', d' <> d -> v' d' = v d') /\
    forall d' pr', d' <> d -> v d' = Some pr' -> Key (path pr') <> Key (path pr).
Definition effect (w w' : world) : Prop := Inv w' /\ keeps_foreign w w' /\ view_step (projected w) (projected w').

(** [wp R p Q X w]: run from [w] with changes in [R] between its actions, the call [p] has
    allowed effects only, and ends with [Q], or [X] if it fails. *)
Section Logic.
Context (R : world -> world -> Prop) (R_evolves : forall w w', R w w' -> evolves w w') (R_refl : forall w, R w w).

Fixpoint wp {A} (p : prog A) (Q : A -> world -> Prop) (X : view_error -> world -> Prop) (w : world) : Prop :=
  match p with
  | Ret a => Q a w
  | Throw e => X e w
  | Act f k => effect w (fst (f w)) /\ forall w', R (fst (f w)) w' -> Inv w' -> wp (k (snd (f w))) Q X w'
  end.

Lemma wp_mono {A} (p : prog A) (Q Q' : A -> world -> Prop) (X X' : view_error -> world -> Prop) w :
  Inv w -> wp p Q X w -> (forall a w', Inv w' -> Q a w' -> Q' a w') -> (forall e w', Inv w' -> X e w' -> X' e w') -> wp p Q' X' w.
Proof.
  intros I H HQ HX. revert w I H; induction p as [a|e|B f k IH]; intros w I; cbn; [by apply HQ|by apply HX|].
  intros [E H]. split; [done|]. intros w' Hr I'. by apply IH, H.
Qed.

Lemma wp_bind {A B} (p : prog A) (k : A -> prog B) Q X w :
  wp p (fun a w' => wp (k a) Q X w') X w -> wp (p ≫= k) Q X w.
Proof.
  change (p ≫= k) with (prog_bind p k). revert w; induction p as [a|e|C f k' IH]; intros w; cbn; [done|done|].
  intros [E H]. split; [done|]. intros w' Hr I'. by apply IH, H.
Qed.

Lemma wp_attempt {A} (p : prog A) Q X w :
  wp p (fun a w' => Q (Ok a) w') (fun e w' => Q (Err e) w') w -> wp (attempt p) Q X w.
Proof.
  revert w; induction p as [a|e|C f k IH]; intros w; cbn; [done|done|]. intros [E H]. split; [done|]. intros w' Hr I'. by apply IH, H.
Qed.

Lemma effect_refl w : Inv w -> effect w w.
Proof. intros I. split_and!; [done|by intros ???|by left]. Qed.

(** A read, and a lifted result. *)
Lemma wp_read {A} (f : world -> result view_error A) Q X w :
  Inv w -> (forall w', R w w' -> Inv w' -> match f w with Ok a => Q a w' | Err e => X e w' end) -> wp (read f) Q X w.
Proof.
  intros I H. unfold read, tx, walk. cbn. destruct (f w) as [a|e]; cbn; (split; [by apply effect_refl|]); intros w' Hr I'; by apply H.
Qed.
Lemma wp_lift {A} (r : result view_error A) Q X w :
  match r with Ok a => Q a w | Err e => X e w end -> wp (lift r) Q X w.
Proof. by destruct r. Qed.
Lemma wp_tx {A} (f : world -> result view_error (world * A)) Q X w :
  Inv w ->
  match f w with
  | Ok (w1, a) => effect w w1 /\ forall w', R w1 w' -> Inv w' -> Q a w'
  | Err e => forall w', R w w' -> Inv w' -> X e w'
  end -> wp (tx f) Q X w.
Proof.
  intros I H. unfold tx, walk. cbn. destruct (f w) as [[w1 a]|e]; cbn.
  - destruct H as [E H]. split; [done|]. intros w' Hr I'. by apply H.
  - split; [by apply effect_refl|]. intros w' Hr I'. by apply H.
Qed.

(** A call run without interruption meets its postcondition. *)
Lemma wp_run {A} (p : prog A) Q X w :
  Inv w -> wp p Q X w ->
  Inv (fst (run p w)) /\ match run p w with (w', Ok a) => Q a w' | (w', Err e) => X e w' end.
Proof.
  revert w; induction p as [a|e|B f k IH]; intros w I; cbn; [done|done|]. intros [E H]. destruct (f w) as [w1 b]; cbn in *.
  apply IH; [apply E|]. apply H; [apply R_refl|apply E].
Qed.
End Logic.
End Invariant.
