(* ===== verification/RenderSteps.v ===== *)
(** The renderer's actions preserve the invariant ([RenderInvariant]): the claim check, the
    row that journals a publication, the link itself, the removal of old links, and the
    transaction that settles the journal. *)
From S2P Require Import Prelude GoStd Utf8 Sqlite FilePath Paths Mime Systems RenderTarget RenderJournal RenderInvariant.

(** * Entries and their parents *)

Lemma elem_prefixes acc e p : p ∈ prefixes acc e <-> exists c s, c <> [] /\ s <> [] /\ e = c ++ s /\ p = acc ++ c.
Proof.
  revert acc; induction e as [|x e IH]; intros acc; cbn [prefixes].
  - split; [by intros ?%not_elem_of_nil|]. by intros (c & s & Hc & _ & E & _); destruct c.
  - destruct e as [|y e].
    + split; [by intros ?%not_elem_of_nil|]. intros (c & s & Hc & Hs & E & _). by destruct c as [|? [|]], s.
    + rewrite elem_of_cons, IH. split.
      * intros [->|(c & s & Hc & Hs & E & ->)]; [exists [x], (y :: e); done|].
        exists (x :: c), s. rewrite E, <- app_assoc. done.
      * intros (c & s & Hc & Hs & E & ->). destruct c as [|x' c]; [done|]. injection E as <- E. destruct c as [|z c]; [by left|right].
        exists (z :: c), s. rewrite E, <- app_assoc. done.
Qed.
Lemma elem_parents e p : p ∈ parents e <-> p <> [] /\ exists s, s <> [] /\ e = p ++ s.
Proof. unfold parents. rewrite elem_prefixes. cbn. firstorder (subst; eauto). Qed.
Lemma parents_snoc acc c p : p ∈ parents (acc ++ [c]) -> p ∈ parents acc \/ p = acc /\ acc <> [].
Proof.
  rewrite !elem_parents. intros (Hp & s & Hs & E). destruct (exists_last Hs) as (s' & y & ->). rewrite app_assoc in E.
  apply app_inj_tail in E as [-> _]. destruct s' as [|z s']; [right; by rewrite app_nil_r|left].
  split; [done|]. by exists (z :: s').
Qed.

Definition closed_tree (t : entry_tree) : Prop := forall e n, t !! e = Some n -> Forall (fun p => t !! p = Some Dir) (parents e).

Lemma closed_insert t e n : closed_tree t -> Forall (fun p => t !! p = Some Dir) (parents e) ->
  t !! e = None \/ (exists l, t !! e = Some (Symlink l)) -> closed_tree (<[e := n]> t).
Proof.
  intros Ht He Hn e' n' H. apply Forall_forall. intros p Hp.
  assert (Hd : t !! p = Some Dir).
  { apply lookup_insert_Some in H as [[<- _]|[_ H]]; [by eapply Forall_forall in He|]. specialize (Ht _ _ H). by eapply Forall_forall in Ht. }
  change (<[e := n]> t !! p = Some Dir). rewrite lookup_insert_ne; [done|]. intros ->. destruct Hn as [Hn|[l Hn]]; congruence.
Qed.
Lemma closed_delete t e l : closed_tree t -> t !! e = Some (Symlink l) -> closed_tree (delete e t).
Proof.
  intros Ht He e' n' [Hne H]%lookup_delete_Some. apply Forall_forall. intros p Hp.
  specialize (Ht _ _ H). eapply Forall_forall in Ht; [|done]. change (delete e t !! p = Some Dir). rewrite lookup_delete_ne; [done|]. congruence.
Qed.

(** The walk adds directories only, and in the end the parents are directories. *)
Lemma enter_spec create acc e t :
  closed_tree t -> Forall (fun p => t !! p = Some Dir) (parents acc) -> acc = [] \/ t !! acc = Some Dir ->
  let '(t', r) := enter create (prefixes acc e) t in
  closed_tree t' /\ (forall p n, t !! p = Some n -> t' !! p = Some n) /\
  (forall p n, t' !! p = Some n -> t !! p = Some n \/ n = Dir) /\
  match r with
  | Ok _ => Forall (fun p => t' !! p = Some Dir) (prefixes acc e)
  | Err err => err = ErrNotExist -> exists p, p ∈ prefixes acc e /\ t' !! p = None
  end.
Proof.
  revert acc t; induction e as [|c e IH]; intros acc t Ht Hacc Hd; [cbn; eauto|]. cbn [prefixes]. destruct e as [|c' e]; [cbn; eauto|].
  set (p := acc ++ [c]). change (enter create (p :: prefixes p (c' :: e)) t) with
    (let t := if create && bool_decide (t !! p = None) then <[p := Dir]> t else t in
     match t !! p with
     | Some Dir => enter create (prefixes p (c' :: e)) t
     | Some _ => (t, Err ErrParent) | None => (t, Err ErrNotExist) end).
  assert (Hp : Forall (fun q => t !! q = Some Dir) (parents p)).
  { apply Forall_forall. intros q [Hq|[-> Hne]]%parents_snoc; [by eapply Forall_forall in Hacc|]. by destruct Hd. }
  set (t1 := if create && _ then _ else t).
  assert (H1 : closed_tree t1 /\ (forall q n, t !! q = Some n -> t1 !! q = Some n) /\ (forall q n, t1 !! q = Some n -> t !! q = Some n \/ n = Dir)).
  { subst t1. destruct create; cbn; [|eauto]. case_bool_decide as E; [|eauto]. split_and!.
    - apply closed_insert; auto.
    - intros q n Hq. rewrite lookup_insert_ne; congruence.
    - intros q n. rewrite lookup_insert_Some. naive_solver. }
  destruct H1 as (Hc1 & Hk1 & Hn1). cbv zeta. destruct (t1 !! p) as [[| |l]|] eqn:E.
  - assert (Hp1 : Forall (fun q => t1 !! q = Some Dir) (parents p)) by (eapply Forall_impl; [exact Hp|]; cbn; auto).
    specialize (IH p t1 Hc1 Hp1 (or_intror E)). destruct (enter create _ t1) as [t' r]. destruct IH as (Hc & Hk & Hn & Hr).
    split_and!; [done|auto| |].
    + intros q n Hq. destruct (Hn _ _ Hq) as [?|?]; [by apply Hn1|by right].
    + destruct r; [constructor; [by apply Hk|done]|]. intros Hne. destruct (Hr Hne) as (q & Hq & Hq'). exists q. split; [by apply list_elem_of_further|done].
  - split_and!; done.
  - split_and!; done.
  - split_and!; try done. intros _. exists p. split; [apply list_elem_of_here|done].
Qed.
Lemma enter_same ps t : fst (enter false ps t) = t.
Proof. induction ps as [|p ps IH]; [done|]. cbn. by destruct (t !! p) as [[]|]. Qed.

Lemma records_lookup w id r : records w !! id = Some r <-> exists m, moves w !! id = Some m /\ m_record m = r.
Proof.
  unfold records. rewrite lookup_fmap, fmap_Some. split; intros (m & Hm & E); by exists m.
Qed.

Section Steps.
Context (data_dir : string) (Key : string -> string) (fold_name : string -> string).
Abbreviation entry := (entry fold_name).
Abbreviation Inv := (Inv data_dir Key fold_name).
Abbreviation effect := (effect data_dir Key fold_name).
Abbreviation document_link := (document_link data_dir).
Abbreviation fillMissingKeys := (fillMissingKeys Key).
Abbreviation ClaimedByOther := (ClaimedByOther Key).

(** * The claim check *)

Lemma fill_record m : m_record (fill_keys Key m) = m_record m.
Proof. unfold fill_keys. by destruct (prev_path_key m), (new_path_key m). Qed.
Lemma fill_records w : records (fillMissingKeys w) = records w.
Proof.
  unfold records, fillMissingKeys, with_moves. cbn. rewrite <- map_fmap_compose. apply map_fmap_ext. intros i m _. apply fill_record.
Qed.
Lemma fill_lookup w id m : moves (fillMissingKeys w) !! id = Some m -> exists m', moves w !! id = Some m' /\ m = fill_keys Key m'.
Proof. unfold fillMissingKeys, with_moves. cbn. rewrite lookup_fmap, fmap_Some. done. Qed.
Lemma fill_keyed w id m : Inv w -> moves (fillMissingKeys w) !! id = Some m ->
  prev_path_key m = Some (Key (path (prev (m_record m)))) /\ new_path_key m = Some (Key (path (new (m_record m)))).
Proof.
  intros I (m' & Hm & ->)%fill_lookup. destruct (inv_keys _ _ _ _ I _ _ Hm) as [H1 H2]. rewrite fill_record.
  unfold fill_keys. destruct H1 as [E1|E1], H2 as [E2|E2]; rewrite E1; rewrite ?E2; cbn; auto.
Qed.

(** Changing nothing but the keys of the journal. *)
Lemma Inv_rekey w (f : gmap Z move -> gmap Z move) :
  Inv w -> records (with_moves f w) = records w ->
  (forall id m, f (moves w) !! id = Some m ->
     key_ok Key (prev_path_key m) (path (prev (m_record m))) /\ key_ok Key (new_path_key m) (path (new (m_record m)))) ->
  Inv (with_moves f w).
Proof. intros [] Hr Hk. constructor; rewrite ?Hr; auto. Qed.
Lemma Inv_fill w : Inv w -> Inv (fillMissingKeys w).
Proof.
  intros I. apply Inv_rekey; [done|apply fill_records|]. intros id m Hm. destruct (fill_keyed w id m I Hm). unfold key_ok. auto.
Qed.
Lemma effect_fill w : Inv w -> effect w (fillMissingKeys w).
Proof. intros I. split_and!; [by apply Inv_fill|by intros ???|left]. intros d. unfold projected. by rewrite fill_records. Qed.

(** The check finds exactly the other documents' claims on an equivalent path. *)
Lemma claimed_spec w d p :
  Inv w ->
  exists b, ClaimedByOther d p w = (fillMissingKeys w, b) /\
    (b = true <-> exists d' pr, d' <> d /\ claims (records w) d' pr /\ Key (path pr) = Key p).
Proof.
  intros I. eexists. split; [reflexivity|]. rewrite fill_records, orb_true_iff, !exists_row_spec. split.
  - intros [(id & m & Hm & H)|(id & m & Hm & H)]; destruct (fill_keyed w id m I Hm) as [K1 K2];
      apply fill_lookup in Hm as (m' & Hm & ->); rewrite fill_record in *; bool_simpl.
    + exists (document_id (m_record m')), (new (m_record m')). split_and!; [done| |congruence].
      exists id, (m_record m'). split_and!; [apply records_lookup; eauto|done|].
      apply orb_true_iff in H0 as [?|?]; bool_simpl; [left; auto|right; auto].
    + exists (document_id (m_record m')), (prev (m_record m')). split_and!; [done| |congruence].
      exists id, (m_record m'). split_and!; [apply records_lookup; eauto|done|]. left; auto.
  - intros (d' & pr & Hd & (id & r & Hr & Hdoc & Hc) & Hk). apply records_lookup in Hr as (m & Hm & <-).
    assert (Hf : moves (fillMissingKeys w) !! id = Some (fill_keys Key m)).
    { unfold fillMissingKeys, with_moves. cbn. by rewrite lookup_fmap, Hm. }
    destruct (fill_keyed w id _ I Hf) as [K1 K2]. rewrite fill_record in *.
    assert (Hne : negb (document_id (m_record m) =? d) = true) by (apply negb_true_iff, Z.eqb_neq; congruence).
    destruct Hc as [[Hs [Hp|Hp]]|[Hl Hp]].
    + left. exists id, (fill_keys Key m). split; [done|]. rewrite K2, fill_record, Hne, Hp, Hs, Hk, !bool_decide_true by done. done.
    + right. exists id, (fill_keys Key m). split; [done|]. rewrite K1, fill_record, Hne, Hp, Hs, Hk, !bool_decide_true by done. done.
    + left. exists id, (fill_keys Key m). split; [done|]. rewrite K2, fill_record, Hne, Hp, Hk, Hdoc, Hl by done.
      rewrite !(bool_decide_true (Some _ = Some _)) by done. by rewrite orb_true_r.
Qed.

(** * Journaling a publication *)

Lemma insert_latest rs id r d : rs !! id = None -> state r = Pending -> latest_applied (<[id := r]> rs) d = latest_applied rs d.
Proof.
  intros Hn Hs. apply latest_ext. intros i x. unfold applied_row_of. rewrite lookup_insert_Some. split.
  - intros ([[_ <-]|[_ H]] & Hd & Ha); [congruence|done].
  - intros (H & Hd & Ha). split_and!; [right; split; [congruence|done]|done|done].
Qed.
Lemma insert_claims rs id d pr nx d' q :
  rs !! id = None ->
  claims (<[id := MkRecord d pr nx Pending None]> rs) d' q <-> claims rs d' q \/ d' = d /\ (nx = q \/ pr = q).
Proof.
  intros Hn. unfold claims. setoid_rewrite insert_latest; [|done|done]. split.
  - intros (i & r & [[<- <-]|[Hne H]]%lookup_insert_Some & Hd & Hc).
    + cbn in *. destruct Hc as [[_ Hc]|[Hl _]]; [by right|]. exfalso. destruct (latest_applied rs d') as [[j x]|] eqn:E; [|done].
      injection Hl as ->. destruct (latest_in _ _ _ _ E). congruence.
    + left. by exists i, r.
  - intros [(i & r & H & Hc)|[-> Hc]].
    + exists i, r. split; [|done]. rewrite lookup_insert_ne by congruence. done.
    + exists id, (MkRecord d pr nx Pending None). rewrite lookup_insert_eq. split_and!; [done|done|]. by left.
Qed.
Lemma insert_pending rs id d pr nx d' i p :
  rs !! id = None ->
  pending_row_of (<[id := MkRecord d pr nx Pending None]> rs) d' i p <->
  pending_row_of rs d' i p \/ d' = d /\ i = id /\ p = MkRecord d pr nx Pending None.
Proof.
  intros Hn. unfold pending_row_of. rewrite lookup_insert_Some. split.
  - intros ([[<- <-]|[_ H]] & Hd & Hs); [by right|by left].
  - intros [(H & Hd & Hs)|(-> & -> & ->)]; [split_and!; [right; split; [congruence|done]|done|done]|by split_and!; [left|..]].
Qed.
Lemma insert_applied rs id d pr nx d' i r :
  rs !! id = None -> applied_row_of (<[id := MkRecord d pr nx Pending None]> rs) d' i r <-> applied_row_of rs d' i r.
Proof.
  intros Hn. unfold applied_row_of. rewrite lookup_insert_Some. split.
  - by intros ([[_ <-]|[_ H]] & Hd & Hs).
  - intros (H & Hd & Hs). split_and!; [right; split; [congruence|done]|done|done].
Qed.

Lemma next_record_fresh w : records w !! next_rowid (moves w) = None.
Proof. unfold records. by rewrite lookup_fmap, next_rowid_None. Qed.
Lemma record_below w id r : records w !! id = Some r -> id < next_rowid (moves w).
Proof. intros (m & Hm & _)%records_lookup. by eapply next_rowid_fresh. Qed.

(** The row may be added when it starts from what its document already claims. *)
Definition starts_from (w : world) (d : Z) (pr : projection) : Prop :=
  (path pr = "" \/ exists q, claims (records w) d q /\ path q = path pr) /\
  ((exists i p, pending_row_of (records w) d i p) \/
   forall id r, latest_applied (records w) d = Some (id, r) -> new r = pr).

Lemma record_effect w d pr nx w' m :
  Inv w -> record_tx Key d pr nx w = Ok (w', m) -> path nx <> "" -> starts_from w d pr ->
  effect w w' /\ m = MkPending (p_id m) pr nx /\ records w !! p_id m = None /\
  records w' = <[p_id m := MkRecord d pr nx Pending None]> (records w) /\
  is_Some (documents w !! d) /\ documents w' = documents w /\ tree w' = tree w /\ last_document w' = last_document w.
Proof.
  intros I H Hnx [Hpr Hst]. unfold record_tx in H. destruct (claimed_spec w d (path nx) I) as (b & Hb & Hc). rewrite Hb in H.
  destruct b; [done|]. assert (Hfree : forall d' q, claims (records w) d' q -> Key (path q) = Key (path nx) -> d' = d).
  { intros d' q Hq Hk. destruct (decide (d' = d)) as [|Hd]; [done|]. exfalso. enough (false = true) by done. apply Hc. eauto. }
  clear Hc. destruct (bool_decide_reflect (is_Some (documents (fillMissingKeys w) !! d))) as [Hdoc|]; [|done].
  injection H as <- <-. cbn [p_id]. set (id := next_rowid (moves (fillMissingKeys w))).
  pose proof (next_record_fresh (fillMissingKeys w)) as Hf. fold id in Hf. rewrite fill_records in Hf.
  pose proof (fun i r => record_below (fillMissingKeys w) i r) as Hbelow. rewrite fill_records in Hbelow. fold id in Hbelow.
  set (w1 := with_moves _ _).
  assert (Hr : records w1 = <[id := MkRecord d pr nx Pending None]> (records w)).
  { rewrite <- (fill_records w). unfold w1, records, with_moves. cbn. by rewrite fmap_insert. }
  assert (Hpq : forall d' q, claims (records w) d' q -> path q <> "" -> path pr <> "" -> Key (path q) = Key (path pr) -> d' = d).
  { intros d' q Hq Hq' Hpr' Hk. destruct Hpr as [|(q0 & Hq0 & E)]; [done|]. apply (inv_disjoint _ _ _ _ I _ _ _ _ Hq Hq0); congruence. }
  split_and!; try done. split_and!.
  - destruct I as [Ik Id Ii In Ic Io Idj Icv It Il]. constructor; rewrite ?Hr; auto.
    + intros i x. unfold w1, with_moves. cbn. rewrite lookup_insert_Some. intros [[_ <-]|[_ Hx]].
      * unfold key_ok. cbn. auto.
      * destruct (fill_keyed w i x ltac:(by constructor) Hx). unfold key_ok. auto.
    + intros i r [[_ <-]|[_ Hx]]%lookup_insert_Some; [done|by eapply Id].
    + intros i r [[_ <-]|[_ Hx]]%lookup_insert_Some; [done|by eapply In].
    + intros d' i r Ha%insert_applied; [by eapply Ic|done].
    + intros d' i r i' r' Ha%insert_applied Hp%insert_pending; [|done|done]. destruct Hp as [Hp|(_ & -> & _)]; [by eapply Io|].
      by apply (Hbelow i r), Ha.
    + intros d1 d2 q1 q2 H1%insert_claims H2%insert_claims E1 E2 Ek; [|done|done].
      destruct H1 as [H1|[-> [<-|<-]]], H2 as [H2|[-> [<-|<-]]]; try done.
      * by eapply Idj.
      * by eapply Hfree.
      * by eapply Hpq.
      * symmetry. by eapply Hfree.
      * symmetry. by eapply Hpq.
    + intros d' i r i' p. rewrite insert_latest by done. intros Hl Hp%insert_pending; [|done].
      assert (Hold : (exists j p', pending_row_of (records w) d' j p') \/ d' = d /\ forall i r, latest_applied (records w) d = Some (i, r) -> new r = pr).
      { destruct Hp as [Hp|(-> & _)]; [left; eauto|]. destruct Hst as [?|Hst]; [by left|by right]. }
      destruct Hold as [(j & p' & Hp')|[-> Hst']].
      * destruct (Icv _ _ _ _ _ Hl Hp') as (j' & p'' & ? & ?). exists j', p''. split; [|done]. apply insert_pending; [done|by left].
      * exists id, (MkRecord d pr nx Pending None). split; [apply insert_pending; [done|by right]|]. symmetry. by eapply Hst'.
    + intros e l He Hl. destruct (Il e l He Hl) as [|(d' & q & Hq & ?)]; [by left|right]. exists d', q. split; [|done].
      apply insert_claims; [done|by left].
  - by intros ???.
  - left. intros d'. unfold projected. by rewrite Hr, insert_latest.
Qed.

(** * The tree *)

Lemma Inv_tree w t :
  Inv w -> closed_tree t ->
  (forall e link, t !! e = Some (Symlink link) -> document_link link -> tree w !! e = Some (Symlink link) \/
     exists d pr, claims (records w) d pr /\ path pr <> "" /\ entry (path pr) = e /\ names_blob data_dir (blob pr) link = true) ->
  Inv (with_tree (fun _ => t) w).
Proof.
  intros I Ht Hl. destruct I as [? ? ? ? ? ? ? ? ? Il]. constructor; try done. intros e link He Hd.
  destruct (Hl e link He Hd) as [H|H]; [by apply Il|by right].
Qed.
Lemma effect_tree w t :
  Inv (with_tree (fun _ => t) w) -> keeps_foreign data_dir w (with_tree (fun _ => t) w) -> effect w (with_tree (fun _ => t) w).
Proof. intros I K. split_and!; [done|done|by left]. Qed.

Lemma enter_effect create e w :
  Inv w -> let '(t, r) := enter create (parents e) (tree w) in effect w (with_tree (fun _ => t) w).
Proof.
  intros I. pose proof (enter_spec create [] e (tree w) (inv_tree _ _ _ _ I) (Forall_nil_2 _) (or_introl eq_refl)) as H.
  change (prefixes [] e) with (parents e) in H. destruct (enter create (parents e) (tree w)) as [t r]. destruct H as (Hc & Hk & Hn & _).
  apply effect_tree; [|intros p n Hp _; by apply Hk]. apply Inv_tree; [done|done|]. intros p l Hp _. left. by destruct (Hn _ _ Hp).
Qed.

(** * The link *)

Lemma prove_loop_Ok link hs : prove_loop data_dir link hs = Ok () -> exists h, h ∈ hs /\ names_blob data_dir h link = true.
Proof.
  induction hs as [|h hs IH]; [done|]. cbn [prove_loop]. case_bool_decide.
  - intros Hp. destruct (IH Hp) as (h' & ? & ?). exists h'. split; [by apply list_elem_of_further|done].
  - intros (src & Hs & Hp)%bind_Ok. destruct (_ || _) eqn:E.
    + exists h. split; [apply list_elem_of_here|]. unfold names_blob. by rewrite Hs.
    + destruct (IH Hp) as (h' & ? & ?). exists h'. split; [by apply list_elem_of_further|done].
Qed.
Lemma prove_Ok d p e w : proveDocumentLink data_dir d p e w = Ok () ->
  exists link, tree w !! e = Some (Symlink link) /\ document_link link.
Proof.
  unfold proveDocumentLink. destruct (tree w !! e) as [[| |link]|]; try done. intros (h & _ & H)%prove_loop_Ok.
  exists link. split; [done|]. by exists h.
Qed.

Lemma prove_loop_exists link hs : prove_loop data_dir link hs <> Err ErrNotExist.
Proof.
  induction hs as [|h hs IH]; [done|]. cbn. case_bool_decide; [done|]. unfold cas_path.
  destruct (validHash h); [cbn|done]. by destruct (_ || _).
Qed.
Lemma prove_NotExist d p e w : proveDocumentLink data_dir d p e w = Err ErrNotExist -> tree w !! e = None.
Proof. unfold proveDocumentLink. destruct (tree w !! e) as [[| |link]|]; try done. by intros ?%prove_loop_exists. Qed.

Definition live_doc (d : Z) (w : world) : bool := match documents w !! d with Some x => negb (d_trashed x) | None => false end.

Lemma publish_effect w d p h src w' u :
  Inv w -> publish_tx data_dir Key d p src (entry p) w = Ok (w', u) -> p <> "" ->
  claims (records w) d (MkProjection p h) -> names_blob data_dir h src = true ->
  effect w w' /\ records w' = records w /\ documents w' = documents w /\ last_document w' = last_document w /\ live_doc d w = true /\
  tree w' = <[entry p := Symlink src]> (tree w).
Proof.
  intros I H Hp Hc Hn. unfold publish_tx in H. fold (live_doc d w) in H. destruct (live_doc d w); [|done].
  destruct (claimed_spec w d p I) as (b & Hb & _). rewrite Hb in H. destruct b; [done|]. set (w1 := fillMissingKeys w) in *.
  assert (I1 : Inv w1) by by apply Inv_fill. assert (Hr1 : records w1 = records w) by apply fill_records.
  apply bind_Ok in H as ([] & Hprove & H). apply bind_Ok in H as (w2 & H2 & H). injection H as <- <-.
  unfold replaceSymlink in H2.
  assert (Hpar : parents_open (entry p) w1 = true -> Forall (fun q => tree w1 !! q = Some Dir) (parents (entry p))).
  { unfold parents_open. rewrite forallb_forall, Forall_forall. intros G q Hq. apply list_elem_of_In, G in Hq.
    by apply bool_decide_eq_true in Hq. }
  assert (Hold : tree w1 !! entry p = None \/ exists l, tree w1 !! entry p = Some (Symlink l) /\ document_link l).
  { destruct (proveDocumentLink data_dir d p (entry p) w1) as [[]|e] eqn:Epr.
    - right. by apply prove_Ok in Epr.
    - destruct e; try done. left. by eapply prove_NotExist. }
  assert (Hopen : parents_open (entry p) w1 = true /\ w2 = with_tree (fun t => <[entry p := Symlink src]> t) w1).
  { destruct Hold as [E|(l & E & _)]; rewrite E in H2; (destruct (parents_open _ _); [|done]); by injection H2. }
  destruct Hopen as [Hopen ->]. apply Hpar in Hopen. clear Hprove H2.
  assert (It : closed_tree (tree w1)) by exact (inv_tree _ _ _ _ I1).
  change (with_tree (fun t => <[entry p := Symlink src]> t) w1) with (with_tree (fun _ => <[entry p := Symlink src]> (tree w1)) w1).
  assert (E2 : effect w1 (with_tree (fun _ => <[entry p := Symlink src]> (tree w1)) w1)).
  { apply effect_tree.
    - apply Inv_tree; [done|apply closed_insert; [done|done|destruct Hold as [?|(l & ? & _)]; eauto]|].
      intros e l [[<- [= <-]]|[_ He]]%lookup_insert_Some Hl; [right|by left]. exists d, (MkProjection p h).
      rewrite Hr1. done.
    - intros e n He Hf. cbn. rewrite lookup_insert_ne; [done|]. intros <-. destruct Hold as [?|(l & Hl & Hl')]; [congruence|].
      rewrite Hl in He. injection He as <-. by destruct (Hf l). }
  split_and!; try done. destruct E2 as (? & ? & V). split_and!; [done|done|]. left. intros d'. unfold projected.
  change (records (with_tree _ w1)) with (records w1). by rewrite Hr1.
Qed.

Lemma remove_effect w d p w' u :
  Inv w -> remove_tx data_dir Key d p (entry p) w = Ok (w', u) ->
  effect w w' /\ records w' = records w /\ documents w' = documents w /\ last_document w' = last_document w /\
  (forall e, e <> entry p -> tree w' !! e = tree w !! e) /\
  (tree w' !! entry p = None \/ exists d' pr, d' <> d /\ claims (records w) d' pr /\ Key (path pr) = Key p).
Proof.
  intros I H. unfold remove_tx in H. destruct (claimed_spec w d p I) as (b & Hb & Hc). rewrite Hb in H.
  assert (I1 : Inv (fillMissingKeys w)) by by apply Inv_fill. destruct b.
  - injection H as <- _. split_and!; try done; [by apply effect_fill|apply fill_records|right; by apply Hc].
  - apply bind_Ok in H as ([] & (l & Hl & Hd)%prove_Ok & H). injection H as <- _.
    assert (E2 : effect (fillMissingKeys w) (with_tree (fun _ => delete (entry p) (tree w)) (fillMissingKeys w))).
    { apply effect_tree.
      - apply Inv_tree; [done|eapply closed_delete; [exact (inv_tree _ _ _ _ I)|done]|]. intros e link [_ He]%lookup_delete_Some _. by left.
      - intros e n He Hf. cbn. rewrite lookup_delete_ne; [done|]. intros <-. rewrite Hl in He. injection He as <-. by destruct (Hf l). }
    split_and!; try done.
    + destruct E2 as (? & ? & V). split_and!; [done|done|]. left. intros d'. unfold projected.
      change (records (with_tree _ _)) with (records (fillMissingKeys w)). by rewrite fill_records.
    + apply fill_records.
    + intros e He. cbn. by rewrite lookup_delete_ne.
    + left. cbn. by rewrite lookup_delete_eq.
Qed.

(** * Settling the journal *)

(** The moves a call holds are the pending rows of its document. *)
Definition listed (w : world) (d : Z) (ms : list pendingMove) : Prop :=
  (forall m, m ∈ ms -> exists r, pending_row_of (records w) d (p_id m) r /\ prev r = previous m /\ new r = next m) /\
  (forall id r, pending_row_of (records w) d id r -> exists m, m ∈ ms /\ p_id m = id).
Definition settled (w : world) (d : Z) : Prop := forall id r, ~ pending_row_of (records w) d id r.

Section Apply.
Context (w : world) (d : Z) (ms : list pendingMove) (cur : projection).
Context (I : Inv w) (L : listed w d ms) (Hne : ms <> []) (Hp : path cur <> "").

Definition settle (r : record) : record := MkRecord (document_id r) (prev r) cur Applied (Some (now w)).

Lemma fold_lookup l (rows : gmap Z move) id :
  foldl (fun (rows : gmap Z move) m => alter (applied_row Key cur (now w)) (p_id m) rows) rows l !! id =
  if decide (id ∈ p_id <$> l) then applied_row Key cur (now w) <$> rows !! id else rows !! id.
Proof.
  revert rows; induction l as [|m l IH]; intros rows; cbn [foldl]; [done|]. rewrite IH. cbn [fmap list_fmap].
  destruct (decide (id = p_id m)) as [->|Hd].
  - rewrite lookup_alter_eq, (decide_True (P := _ ∈ _ :: _)) by apply list_elem_of_here.
    case_decide; [|done]. by destruct (rows !! p_id m).
  - rewrite lookup_alter_ne by done. destruct (decide (id ∈ p_id <$> l)) as [H|H].
    + rewrite decide_True; [done|]. by apply list_elem_of_further.
    + rewrite decide_False; [done|]. by rewrite not_elem_of_cons.
Qed.

Lemma listed_ids id r : records w !! id = Some r -> id ∈ p_id <$> ms <-> pending_row_of (records w) d id r.
Proof.
  intros Hr. rewrite list_elem_of_fmap. split.
  - intros (m & -> & Hm). destruct (proj1 L m Hm) as (r' & Hr' & _). destruct Hr' as (E & ? & ?). split_and!; congruence.
  - intros Hpr. destruct (proj2 L _ _ Hpr) as (m & Hm & <-). eauto.
Qed.
Abbreviation w' := (apply_tx Key cur ms w).

Lemma apply_records id r' :
  records w' !! id = Some r' <->
  (exists r, pending_row_of (records w) d id r /\ r' = settle r) \/
  (records w !! id = Some r' /\ ~ pending_row_of (records w) d id r').
Proof.
  rewrite records_lookup. unfold apply_tx, with_moves. cbn [moves]. setoid_rewrite fold_lookup. split.
  - intros (m' & Hm & <-). case_decide as Hin.
    + apply fmap_Some in Hm as (m & Hm & ->). assert (Hr : records w !! id = Some (m_record m)) by (apply records_lookup; eauto).
      left. exists (m_record m). split; [by apply listed_ids|done].
    + assert (Hr : records w !! id = Some (m_record m')) by (apply records_lookup; eauto). right. split; [done|].
      intros H. apply Hin. by eapply listed_ids.
  - intros [(r & Hpr & ->)|[Hr Hn]].
    + assert (Hr := proj1 Hpr). apply (listed_ids _ _ Hr) in Hpr as Hin. apply records_lookup in Hr as (m & Hm & <-).
      exists (applied_row Key cur (now w) m). rewrite decide_True, Hm by done. done.
    + apply records_lookup in Hr as Hr'. destruct Hr' as (m & Hm & <-). exists m. rewrite decide_False, Hm; [done|].
      intros Hin. by apply Hn, listed_ids.
Qed.
Lemma apply_pending d' id r : pending_row_of (records w') d' id r <-> d' <> d /\ pending_row_of (records w) d' id r.
Proof.
  unfold pending_row_of at 1. rewrite apply_records. split.
  - intros ([(x & _ & ->)|[Hr Hn]] & Hd & Hs); [done|]. split; [|done]. intros ->. by apply Hn.
  - intros [Hne' (Hr & Hd & Hs)]. split_and!; [right|done|done]. split; [done|]. intros (_ & Hd' & _). congruence.
Qed.
Lemma apply_applied d' id r :
  applied_row_of (records w') d' id r <->
  applied_row_of (records w) d' id r \/ d' = d /\ exists x, pending_row_of (records w) d id x /\ r = settle x.
Proof.
  unfold applied_row_of at 1. rewrite apply_records. split.
  - intros ([(x & Hx & ->)|[Hr Hn]] & Hd & Hs); [right|by left]. split; [|eauto]. cbn in Hd. destruct Hx as (_ & ? & _). congruence.
  - intros [(Hr & Hd & Hs)|(-> & x & Hx & ->)].
    + split_and!; [right|done|done]. split; [done|]. intros (_ & _ & Hs'). congruence.
    + split_and!; [left; eauto|apply Hx|done].
Qed.
Lemma apply_other d' : d' <> d -> same_rows (records w) (records w') d'.
Proof.
  intros Hd id r Hr. rewrite apply_records. split.
  - intros H. right. split; [done|]. intros (_ & Hd' & _). congruence.
  - intros [(x & Hx & ->)|[H _]]; [|done]. cbn in Hr. destruct Hx as (_ & ? & _). congruence.
Qed.
Lemma apply_latest : exists id r, latest_applied (records w') d = Some (id, r) /\ new r = cur.
Proof.
  assert (Hm0 : exists m0, m0 ∈ ms) by (destruct ms; [done|eexists; apply list_elem_of_here]).
  destruct Hm0 as [m0 Hm0]. destruct (proj1 L m0 Hm0) as (x0 & Hx0 & _).
  destruct (latest_applied (records w') d) as [[id r]|] eqn:El.
  2: { exfalso. apply (proj1 (latest_None _ _) El (p_id m0) (settle x0)), apply_applied. right. eauto. }
  exists id, r. split; [done|]. apply latest_spec in El as [Hin Hmax]. apply apply_applied in Hin as [Hin|(_ & x & _ & ->)]; [|done].
  exfalso. destruct (inv_clock _ _ _ _ I _ _ _ Hin) as (t & Ht & Hle). pose proof (inv_order _ _ _ _ I _ _ _ _ _ Hin Hx0) as Hlt.
  destruct (Hmax (p_id m0) (settle x0)) as [Heq|Ho]; [apply apply_applied; right; eauto|lia|].
  unfold older in Ho. cbn in Ho. rewrite Ht in Ho. lia.
Qed.
Lemma apply_claims q : claims (records w') d q -> q = cur.
Proof.
  destruct apply_latest as (id & r & Hl & Hn). intros (i & x & Hx & Hd & [[Hs _]|[Hi <-]]).
  - exfalso. destruct (proj1 (apply_pending d i x) (conj Hx (conj Hd Hs))). done.
  - rewrite Hl in Hi. injection Hi as <-. destruct (latest_in _ _ _ _ Hl) as (Hr & _). congruence.
Qed.

Context (Hclaim : exists q, claims (records w) d q /\ path q = path cur).
(* every old path of a move is the current entry or holds no document link *)
Context (Hold : forall old, old ∈ (ms ≫= fun m => [previous m; next m]) -> path old <> "" ->
  entry (path old) = entry (path cur) \/ forall link, document_link link -> tree w !! entry (path old) <> Some (Symlink link)).
Context (Hnew : forall link, tree w !! entry (path cur) = Some (Symlink link) -> document_link link -> names_blob data_dir (blob cur) link = true).

Lemma apply_old q : claims (records w) d q -> path q <> "" ->
  entry (path q) = entry (path cur) \/ forall link, document_link link -> tree w !! entry (path q) <> Some (Symlink link).
Proof.
  assert (Hside : forall id r, pending_row_of (records w) d id r -> new r = q \/ prev r = q -> path q <> "" ->
    entry (path q) = entry (path cur) \/ forall link, document_link link -> tree w !! entry (path q) <> Some (Symlink link)).
  { intros id r Hr Hq Hne'. destruct (proj2 L id r Hr) as (m & Hm & Hid). destruct (proj1 L m Hm) as (r2 & Hr2 & Ep & En).
    assert (r2 = r) as -> by (destruct Hr, Hr2; congruence). apply Hold; [|done]. apply list_elem_of_bind. exists m. split; [|done].
    rewrite !elem_of_cons. destruct Hq as [<-| <-]; auto. }
  intros (id & r & Hr & Hd & [[Hs Hq]|[Hl Hq]]) Hne'; [by eapply Hside|].
  destruct (latest_applied (records w) d) as [[i x]|] eqn:E; [|done]. injection Hl as ->.
  destruct (latest_in _ _ _ _ E) as (Hx & _). assert (x = r) as -> by congruence.
  assert (Hm0 : exists m0, m0 ∈ ms) by (destruct ms; [done|eexists; apply list_elem_of_here]).
  destruct Hm0 as [m0 Hm0]. destruct (proj1 L m0 Hm0) as (x0 & Hx0 & _).
  destruct (inv_cover _ _ _ _ I _ _ _ _ _ E Hx0) as (j & p' & Hp' & Hpv). eapply Hside; [exact Hp'| |done]. right. congruence.
Qed.

Lemma apply_claimed d' q : claims (records w') d' q ->
  exists q0, claims (records w) d' q0 /\ path q0 = path q.
Proof.
  intros Hq. destruct (decide (d' = d)) as [->|Hd].
  - by apply apply_claims in Hq as ->.
  - exists q. split; [|done]. by eapply same_claims; [apply same_rows_sym, apply_other|].
Qed.
Lemma apply_cur : claims (records w') d cur.
Proof. destruct apply_latest as (id & r & Hl & <-). by eapply latest_claims. Qed.

Lemma apply_Inv : Inv w'.
Proof.
  constructor.
  - intros id m'. unfold apply_tx, with_moves. cbn. rewrite fold_lookup. case_decide; [|apply (inv_keys _ _ _ _ I)].
    intros (m & Hm & ->)%fmap_Some. split; [apply (inv_keys _ _ _ _ I _ _ Hm)|right; done].
  - intros id r [(x & Hx & ->)|[Hr _]]%apply_records; [destruct Hx as (Hr & _)|]; exact (inv_docs _ _ _ _ I _ _ Hr).
  - exact (inv_ids _ _ _ _ I).
  - intros id r [(x & Hx & ->)|[Hr _]]%apply_records; [done|]. by eapply (inv_new _ _ _ _ I).
  - intros d' id r [H|(_ & x & _ & ->)]%apply_applied; [by eapply (inv_clock _ _ _ _ I)|]. exists (now w). split; [done|cbn; lia].
  - intros d' id r id' r' [H|(-> & _)]%apply_applied [Hd Hp']%apply_pending; [by eapply (inv_order _ _ _ _ I)|done].
  - intros d1 d2 q1 q2 (p1 & H1 & E1)%apply_claimed (p2 & H2 & E2)%apply_claimed N1 N2 Ek.
    apply (inv_disjoint _ _ _ _ I _ _ _ _ H1 H2); congruence.
  - intros d' id r i x Hl [Hd Hx]%apply_pending. pose proof (apply_other d' Hd) as S. rewrite <- (same_latest _ _ _ S) in Hl.
    destruct (inv_cover _ _ _ _ I _ _ _ _ _ Hl Hx) as (j & p' & Hj & E). exists j, p'. split; [by apply apply_pending|done].
  - exact (inv_tree _ _ _ _ I).
  - intros e link He Hl. destruct (inv_links _ _ _ _ I e link He Hl) as [|(d' & q & Hq & Hn & <- & Hb)]; [by left|right].
    destruct (decide (d' = d)) as [->|Hd].
    + exists d, cur. split; [apply apply_cur|]. split; [done|]. destruct (apply_old q Hq Hn) as [E|Hno]; [|by destruct (Hno link)].
      split; [done|]. apply Hnew; [by rewrite <- E|done].
    + exists d', q. split; [|done]. by eapply same_claims; [apply apply_other|].
Qed.

Lemma apply_effect : effect w w' /\ projected w' d = Some cur /\ settled w' d.
Proof.
  destruct apply_latest as (id & r & Hl & Hn).
  assert (Hcur : projected w' d = Some cur) by (unfold projected; rewrite Hl; cbn; by rewrite Hn).
  split_and!; [|done|by intros i x [Hd _]%apply_pending].
  split_and!; [apply apply_Inv|by intros ???|right]. exists d, cur. split_and!; [done| |].
  - intros d' Hd. unfold projected. by rewrite (same_latest _ _ _ (apply_other d' Hd)).
  - intros d' pr' Hd Hpr Ek. unfold projected in Hpr. apply fmap_Some in Hpr as ([i x] & Hx & ->). cbn in *.
    destruct Hclaim as (q & Hq & Eq). apply Hd. apply latest_claims in Hx as Hc.
    apply (inv_disjoint _ _ _ _ I _ _ _ _ Hc Hq); [|congruence|congruence].
    destruct (latest_in _ _ _ _ Hx) as (Hx' & _). by eapply (inv_new _ _ _ _ I).
Qed.
End Apply.
End Steps.
