(* ===== verification/RenderCalls.v ===== *)
(** The renderer's calls keep the invariant whatever happens between their actions, and
    settle what they began ([RenderSteps]). *)
From S2P Require Import Prelude GoStd Utf8 Sqlite FilePath Paths Mime Systems RenderTarget RenderJournal RenderInvariant RenderSteps.

(** * Blob names *)

Lemma hash_no_slash s : all_bytes hash_byte s = true -> no_byte "/"%char s = true.
Proof.
  unfold no_byte. induction s as [|c s IH]; [done|]. cbn. intros [Hc Hs]%andb_true_iff. rewrite IH, andb_true_r by done.
  apply negb_true_iff, bool_decide_eq_false. intros ->. done.
Qed.
Lemma trim_no_slash s t : no_byte "/"%char s = true -> s <> "" -> trim_slashes (t +:+ String "/" s) = t +:+ String "/" s.
Proof.
  intros Hn Hs. unfold trim_slashes.
  assert (R : forall a b acc, rev_string (a +:+ b) acc = rev_string b (rev_string a acc)).
  { induction a as [|c a IH]; intros b acc; [done|]. cbn. by rewrite append_cons; cbn; rewrite IH. }
  assert (RR : forall a acc, rev_string (rev_string a acc) "" = rev_string acc "" +:+ a).
  { induction a as [|c a IH]; intros acc; cbn; [by rewrite append_nil_r|]. rewrite IH. cbn.
    by rewrite (rev_string_acc acc (String c "")), <- append_assoc. }
  assert (T : forall u, (exists c v, rev_string u "" = String c v /\ c <> "/"%char) -> rev_string (TrimLeft "/"%char (rev_string u "")) "" = u).
  { intros u (c & v & E & Hc). rewrite E. cbn [TrimLeft]. rewrite bool_decide_false by done. rewrite <- E, RR. done. }
  apply T. change (String "/" s) with ("/" +:+ s). rewrite !R. cbn [rev_string].
  assert (G : forall s acc, no_byte "/"%char s = true -> s <> "" -> exists c v, rev_string s acc = String c v /\ c <> "/"%char).
  { clear. induction s as [|c s IH]; intros acc Hn Hs; [done|]. unfold no_byte in *. cbn in Hn |- *.
    apply andb_true_iff in Hn as [Hc Hn]. apply negb_true_iff, bool_decide_eq_false in Hc.
    destruct s as [|d s]; [cbn; eauto|]. by apply IH. }
  by apply G.
Qed.
(** [filepath.Base] of a blob's path is its hash. *)
Lemma Base_cas_path dir h src : cas_path dir h = Ok src -> Base src = h /\ names_blob dir h src = true.
Proof.
  intros E. assert (E' := E). unfold cas_path in E. destruct (validHash h) eqn:V; [|done]. injection E as E.
  unfold validHash in V. apply andb_true_iff in V as [Hl Hb]. apply Nat.eqb_eq in Hl. split.
  - assert (Hne : h <> "") by (intros ->; done). apply hash_no_slash in Hb.
    assert (Es : exists t, src = t +:+ String "/" h).
    { exists (dir +:+ "/blobs/sha256/" +:+ stake 2 h +:+ "/" +:+ stake 2 (sdrop 2 h) +:+ "/" +:+ stake 2 (sdrop 4 h)).
      rewrite <- E. unfold shards. rewrite <- !append_assoc. done. }
    destruct Es as [t ->]. unfold Base. rewrite bool_decide_false by (by destruct t). rewrite trim_no_slash by done.
    rewrite bool_decide_false by (by destruct t). by rewrite Split_app, (Split_plain _ h), last_snoc.
  - unfold names_blob. by rewrite E', bool_decide_true.
Qed.

Section Calls.
Context (to_lower : string -> string) (formats : registry).
Context (data_dir : string) (Key : string -> string) (fold_name : string -> string).
Context (Key_empty : forall p, Key p = Key "" -> p = "").
Abbreviation entry := (entry fold_name).
Abbreviation Inv := (Inv data_dir Key fold_name).
Abbreviation effect := (effect data_dir Key fold_name).
Abbreviation document_link := (document_link data_dir).
Abbreviation evolves := (evolves data_dir).
Context (R : world -> world -> Prop) (R_evolves : forall w w', R w w' -> evolves w w').
Abbreviation wp := (wp data_dir Key fold_name R).

Lemma ev_trans w1 w2 w3 : Inv w1 -> evolves w1 w2 -> evolves w2 w3 -> evolves w1 w3.
Proof. intros I. apply world_evolves_trans; [exact (inv_ids _ _ _ _ I)|exact (inv_docs _ _ _ _ I)]. Qed.

(** Nothing else happens during the call. *)
Definition quiet : Prop := forall w w', R w w' -> w' = w.

(** * Paths *)

Lemma safeRelative_path p u : safeRelative p = Ok u -> p <> "".
Proof. unfold safeRelative. intros H ->. done. Qed.

Lemma wp_check p (Q : unit -> world -> Prop) (X : view_error -> world -> Prop) w :
  Inv w -> (forall w', evolves w w' -> Inv w' -> p <> "" -> (quiet -> w' = w) -> Q () w') ->
  (forall e w', evolves w w' -> Inv w' -> X e w') -> wp (checkDocumentPath fold_name p) Q X w.
Proof.
  intros I HQ HX. unfold checkDocumentPath. apply wp_bind, wp_lift. destruct (safeRelative p) as [u|e] eqn:E; [|apply HX; [apply evolves_refl|done]].
  apply safeRelative_path in E. destruct (Cut p "/"%char) as [first rest]. apply wp_bind.
  assert (G : forall (b : bool) w', evolves w w' -> Inv w' -> (quiet -> w' = w) ->
    wp (if b then Throw ErrReserved else if IsIndexPath p then Throw ErrReserved
        else if negb (underRoot p) || bool_decide (Clean p = ".") then Throw ErrEscape
        else read (fun w => require forallb (fun q => match tree w !! q with None | Some Dir => true | _ => false end) (parents (entry p))
                            else ErrParent in Ok ())) Q X w').
  { intros b w' Ev I' Hq. destruct b; [by apply HX|]. destruct (IsIndexPath p); [by apply HX|]. destruct (_ || _); [by apply HX|].
    apply wp_read; [done|]. intros w2 Hr I2. assert (E2 : evolves w w2) by (eapply ev_trans; [done..|by apply R_evolves]).
    destruct (forallb _ _); [|by apply HX]. apply HQ; [done..|]. intros q. by rewrite (q _ _ Hr), Hq. }
  destruct (_ && _).
  - apply wp_read; [done|]. intros w' Hr I'. assert (Ev := R_evolves _ _ Hr). destruct (introduced w); [|by apply HX].
    apply G; [done..|]. intros q. by apply q.
  - apply G; [apply evolves_refl|done|done].
Qed.

Lemma enter_evolves create e w : Inv w ->
  evolves w (with_tree (fun _ => fst (enter create (parents e) (tree w))) w).
Proof.
  intros I. pose proof (enter_spec create [] e (tree w) (inv_tree _ _ _ _ I) (Forall_nil_2 _) (or_introl eq_refl)) as H.
  change (prefixes [] e) with (parents e) in H. destruct (enter create (parents e) (tree w)) as [t r]. destruct H as (_ & _ & Hn & _).
  constructor; cbn; auto; [lia|]. intros p l _ Hp. by destruct (Hn _ _ Hp).
Qed.

Definition no_link (e : list string) (w : world) : Prop := forall link, document_link link -> tree w !! e <> Some (Symlink link).
Lemma no_link_evolves e w w' : no_link e w -> evolves w w' -> no_link e w'.
Proof. intros H Ev link Hl Ht. by apply (H link Hl), (ev_links _ _ _ Ev). Qed.

Lemma wp_parent create p (Q : list string -> world -> Prop) (X : view_error -> world -> Prop) w :
  Inv w ->
  (forall w', evolves w w' -> Inv w' -> p <> "" ->
     (quiet -> w' = with_tree (fun _ => fst (enter create (parents (entry p)) (tree w))) w) -> Q (entry p) w') ->
  (forall e w', evolves w w' -> Inv w' -> (create = false -> quiet -> w' = w) ->
     (create = false -> e = ErrNotExist -> no_link (entry p) w') -> X e w') ->
  wp (documentParent fold_name p create) Q X w.
Proof.
  intros I HQ HX. unfold documentParent. apply wp_bind, wp_lift. destruct (safeRelative p) as [u|e] eqn:E.
  2: { apply HX; [apply evolves_refl|done|done|]. unfold safeRelative in E. intros _ ->. by repeat (case_match; try done). }
  apply safeRelative_path in E. apply wp_bind.
  assert (G : forall w', evolves w w' -> Inv w' -> (quiet -> w' = w) ->
    wp (walk (fun w0 => let '(t, r) := enter create (parents (entry p)) (tree w0) in (with_tree (fun _ => t) w0, _ ← r; Ok (entry p)))) Q X w').
  { intros w1 Ev1 I1 Hq1. unfold walk. cbn. pose proof (enter_effect data_dir Key fold_name create (entry p) w1 I1) as Hef.
    pose proof (enter_evolves create (entry p) w1 I1) as Hev.
    pose proof (enter_spec create [] (entry p) (tree w1) (inv_tree _ _ _ _ I1) (Forall_nil_2 _) (or_introl eq_refl)) as Hs.
    change (prefixes [] (entry p)) with (parents (entry p)) in Hs.
    destruct (enter create (parents (entry p)) (tree w1)) as [t r] eqn:Et. cbn in *. split; [done|]. intros w2 Hr I2.
    assert (E2 : evolves w w2) by (eapply ev_trans; [done..|eapply ev_trans; [done..|by apply R_evolves]]).
    assert (Hq2 : quiet -> w2 = with_tree (fun _ => fst (enter create (parents (entry p)) (tree w))) w).
    { intros q. rewrite (q _ _ Hr). specialize (Hq1 q). subst w1. by rewrite Et. }
    destruct r as [u'|e]; cbn; [by apply HQ|]. apply HX; [done|done| |].
    - intros -> q. rewrite (Hq2 q), enter_same. by destruct w.
    - intros -> ->. destruct Hs as (Hc & _ & _ & Hr').
      destruct (Hr' eq_refl) as (x & Hx & Hn). eapply no_link_evolves; [|by apply R_evolves]. intros link _ Hl. cbn in Hl.
      specialize (Hc _ _ Hl). eapply Forall_forall in Hc; [|done]. cbn in Hc. congruence. }
  destruct create.
  - apply wp_check; [done|intros; by apply G|]. intros e w' ??. by apply HX.
  - apply G; [apply evolves_refl|done|done].
Qed.

(** * The target *)

(** What [resolveTarget] finds when nothing changes meanwhile. *)
Definition current_target (w : world) (d : Z) : result view_error (projection * string) :=
  match documents w !! d with
  | Some x =>
      if d_trashed x then Err ErrNoRows
      else
        '(p, h) ← document_target to_lower formats d (d_row x) (d_tags x);
        src ← cas_path data_dir h;
        Ok (MkProjection p h, src)
  | None => Err ErrNoRows
  end.

Lemma wp_resolve d (Q : string * string -> world -> Prop) (X : view_error -> world -> Prop) w :
  Inv w ->
  (forall w' cur src, evolves w w' -> Inv w' -> path cur <> "" -> blob cur = Base src -> names_blob data_dir (blob cur) src = true ->
     (quiet -> w' = w /\ current_target w d = Ok (cur, src)) -> Q (path cur, src) w') ->
  (forall e w', evolves w w' -> Inv w' -> X e w') ->
  wp (resolveTarget to_lower formats data_dir fold_name d) Q X w.
Proof.
  intros I HQ HX. unfold resolveTarget. apply wp_bind, wp_read; [done|]. intros w1 Hr1 I1. assert (Ev1 := R_evolves _ _ Hr1).
  destruct (documents w !! d) as [x|] eqn:Ed; [|by apply HX]. destruct (d_trashed x) eqn:Et; [by apply HX|].
  apply wp_bind, wp_read; [done|]. intros w2 Hr2 I2. assert (Ev2 := ev_trans _ _ _ I Ev1 (R_evolves _ _ Hr2)).
  destruct (buildContext _ _ _ _ _) as [[[tpl c] hash] ext] eqn:Eb. apply wp_bind, wp_lift.
  destruct (target_path tpl c ext) as [p|e] eqn:Ep; [|by apply HX].
  apply wp_bind, wp_check; [done| |intros; apply HX; [by eapply ev_trans|done]].
  intros w3 Ev3 I3 Hp Hq3. apply wp_bind, wp_lift. destruct (cas_path data_dir hash) as [src|e] eqn:Ec.
  2: { apply HX; [by eapply ev_trans|done]. }
  destruct (Base_cas_path _ _ _ Ec) as [Hb Hn].
  change (Q (path (MkProjection p hash), src) w3). apply HQ; [by eapply ev_trans|done|done|done|done|].
  intros q. rewrite (Hq3 q). assert (w2 = w) as -> by (rewrite (q _ _ Hr2); by apply q). assert (w1 = w) as -> by by apply q.
  split; [done|]. unfold current_target. rewrite Ed, Et in *. unfold document_target. rewrite Eb, Ep. cbn. by rewrite Ec.
Qed.

(** * What a call holds between its actions *)

Section Held.
Context (d : Z) (ms : list pendingMove) (cur : projection).

(** The ids name rows of the document only, and while the document is there the moves are
    its pending rows and the target is claimed. *)
Definition held (w : world) : Prop :=
  (forall m r, m ∈ ms -> records w !! p_id m = Some r -> document_id r = d) /\
  (gone d w \/ listed w d ms /\ claims (records w) d cur).

Lemma listed_same w w' l : same_rows (records w) (records w') d -> listed w d l -> listed w' d l.
Proof.
  intros S [L1 L2]. split.
  - intros m Hm. destruct (L1 m Hm) as (r & (Hr & Hd & Hs) & E). exists r. split; [|done]. split_and!; [by apply S|done|done].
  - intros id r (Hr & Hd & Hs). apply (L2 id r). split_and!; [by apply S|done|done].
Qed.
Lemma held_evolves w w' : Inv w -> evolves w w' -> held w -> held w'.
Proof.
  intros I Ev [H1 H2]. split; [intros m r Hm Hr; by eapply H1, (ev_fewer _ _ _ Ev)|].
  destruct H2 as [H2|[L C]]; [left; by eapply gone_evolves|].
  destruct (rows_evolve_gone _ _ _ d _ _ I Ev) as [|S]; [by left|right]. split; [by eapply listed_same|by eapply same_claims].
Qed.
Lemma held_same w w' : records w' = records w -> documents w' = documents w -> last_document w' = last_document w -> held w -> held w'.
Proof. unfold held, gone, listed. intros -> -> ->. done. Qed.

(** The target's entry holds no document link but the one just made. *)
Definition linked (src : string) (w : world) : Prop :=
  forall link, tree w !! entry (path cur) = Some (Symlink link) -> document_link link -> link = src.
Lemma linked_evolves src w w' : evolves w w' -> linked src w -> linked src w'.
Proof. intros Ev H link Ht Hl. by apply H, Hl; apply (ev_links _ _ _ Ev). Qed.

Lemma wp_publish src (Q : unit -> world -> Prop) (X : view_error -> world -> Prop) w :
  Inv w -> held w -> path cur <> "" -> names_blob data_dir (blob cur) src = true ->
  (forall w', Inv w' -> held w' -> linked src w' ->
     (quiet -> documents w' = documents w /\ records w' = records w /\ tree w' !! entry (path cur) = Some (Symlink src)) -> Q () w') ->
  (forall e w', Inv w' -> X e w') -> wp (publishDocumentLink data_dir Key fold_name d (path cur) src) Q X w.
Proof.
  intros I H Hp Hn HQ HX. unfold publishDocumentLink. apply wp_bind, wp_parent; [done| |by auto]. intros w1 Ev1 I1 _ Hq1.
  assert (H1 := held_evolves _ _ I Ev1 H). apply wp_tx; [done|]. destruct (publish_tx _ _ _ _ _ _ w1) as [[w2 u]|e] eqn:E; [|by auto].
  assert (Hlive : live_doc d w1 = true).
  { unfold publish_tx in E. fold (live_doc d w1) in E. by destruct (live_doc d w1). }
  assert (Hc : listed w1 d ms /\ claims (records w1) d cur).
  { destruct (proj2 H1) as [[Hg _]|Hc]; [|done]. unfold live_doc in Hlive. by rewrite Hg in Hlive. }
  destruct Hc as [_ Hc]. replace cur with (MkProjection (path cur) (blob cur)) in Hc by (by destruct cur).
  destruct (publish_effect data_dir Key fold_name w1 d _ _ src w2 u I1 E Hp Hc Hn) as (Hef & Hr & Hd & Hl & _ & Ht).
  split; [done|]. intros w3 Hr3 I3. assert (Ev3 := R_evolves _ _ Hr3). destruct u. apply HQ; [done| | |].
  - eapply held_evolves; [apply Hef|done|]. by eapply held_same.
  - eapply linked_evolves; [done|]. intros link. rewrite Ht, lookup_insert_eq. by intros [= <-].
  - intros q. rewrite (q _ _ Hr3). specialize (Hq1 q). subst w1. rewrite Hd, Hr, Ht, lookup_insert_eq. done.
Qed.

(** ** Removing old links *)

Abbreviation olds := (ms ≫= fun m => [previous m; next m]).
Definition clear (old : projection) (w : world) : Prop :=
  path old = "" \/ entry (path old) = entry (path cur) \/ no_link (entry (path old)) w.
Lemma clear_kept old w w' : (forall e, no_link e w -> no_link e w') -> clear old w -> clear old w'.
Proof. intros H [?|[?|?]]; [by left|by right; left|right; right; by apply H]. Qed.

Lemma listed_claims w old : listed w d ms -> old ∈ olds -> claims (records w) d old.
Proof.
  intros [L _] (m & Ho & Hm)%list_elem_of_bind. destruct (L m Hm) as (r & (Hr & Hd & Hs) & Ep & En).
  exists (p_id m), r. split_and!; [done|done|]. left. split; [done|]. rewrite !elem_of_cons in Ho.
  destruct Ho as [->|[->|Ho]]; [by right|by left|by apply not_elem_of_nil in Ho].
Qed.

(** Names of one entry are spelled with equivalent keys, as far as the moves go. *)
Definition aligned : Prop :=
  forall old, old ∈ olds -> path old <> "" -> entry (path old) = entry (path cur) -> Key (path old) = Key (path cur).

Lemma wp_same a (Q : bool -> world -> Prop) (X : view_error -> world -> Prop) w :
  Inv w ->
  (forall b w', evolves w w' -> Inv w' -> (b = true -> entry a = entry (path cur)) ->
     (quiet -> w' = w /\ (b = false -> a <> "" -> path cur <> "" -> Key a = Key (path cur) ->
        is_Some (tree w !! entry (path cur)) -> entry a <> entry (path cur))) -> Q b w') ->
  wp (sameEntry Key fold_name a (path cur)) Q X w.
Proof.
  intros I HQ. unfold sameEntry. destruct (_ || _) eqn:E.
  - apply HQ; [apply evolves_refl|done|done|]. intros _. split; [done|]. intros _ Ha Hb Hk.
    rewrite !orb_true_iff, negb_true_iff, !bool_decide_eq_true, bool_decide_eq_false in E. by destruct E as [[?|?]|?].
  - apply wp_read; [done|]. intros w' Hr I'. apply HQ; [by apply R_evolves|done| |].
    + destruct (tree w !! entry a), (tree w !! entry (path cur)); try done. by intros ?%bool_decide_eq_true.
    + intros q. split; [by apply q|]. intros Hf _ _ _ [n Hn] He. rewrite He, Hn in Hf. by rewrite bool_decide_true in Hf.
Qed.

Lemma remove_tx_missing w p : remove_tx data_dir Key d p (entry p) w = Err ErrNotExist -> tree w !! entry p = None.
Proof.
  unfold remove_tx. destruct (ClaimedByOther Key d p w) as [w1 b] eqn:E. unfold ClaimedByOther in E. injection E as E _.
  destruct b; [done|]. intros [H|([] & _ & H)]%bind_Err; [|done]. apply prove_NotExist in H. by rewrite <- E in H.
Qed.

Lemma wp_remove p (Q : result view_error unit -> world -> Prop) (X : view_error -> world -> Prop) w :
  Inv w -> held w -> p <> "" -> (exists old, old ∈ olds /\ path old = p) ->
  (forall r w', Inv w' -> held w' -> (forall src, linked src w -> linked src w') ->
     (gone d w -> gone d w') -> (forall e, no_link e w -> no_link e w') ->
     (r = Ok () \/ r = Err ErrNotExist -> gone d w' \/ no_link (entry p) w') ->
     (quiet -> documents w' = documents w /\ records w' = records w /\ forall e, e <> entry p -> tree w' !! e = tree w !! e) -> Q r w') ->
  wp (attempt (removeDocumentLink data_dir Key fold_name d p)) Q X w.
Proof.
  intros I H Hp (old & Hold & Ep) HQ. apply wp_attempt. unfold removeDocumentLink. apply wp_bind, wp_parent; [done| |].
  - intros w1 Ev1 I1 _ Hq1. assert (H1 := held_evolves _ _ I Ev1 H). apply wp_tx; [done|].
    destruct (remove_tx _ _ _ _ _ w1) as [[w2 u]|e] eqn:E.
    + destruct (remove_effect data_dir Key fold_name w1 d p w2 u I1 E) as (Hef & Hr & Hd & Hl & Ht & Hn).
      split; [done|]. intros w3 Hr3 I3. assert (Ev3 := R_evolves _ _ Hr3). destruct u.
      assert (Hfew : forall e link, document_link link -> tree w2 !! e = Some (Symlink link) -> tree w1 !! e = Some (Symlink link)).
      { intros e link _ He. destruct (decide (e = entry p)) as [->|Hne]; [|by rewrite <- Ht].
        unfold remove_tx in E. destruct (ClaimedByOther Key d p w1) as [w1' b] eqn:Ec. unfold ClaimedByOther in Ec. injection Ec as Ec _.
        destruct b; [injection E as <-; by rewrite <- Ec in He|]. apply bind_Ok in E as ([] & _ & E). injection E as <-.
        cbn in He. by rewrite lookup_delete_eq in He. }
      assert (Hheld : held w2) by by eapply held_same.
      assert (Hgg : gone d w2 -> gone d w3) by (intros G; by eapply gone_evolves).
      apply HQ; [done|by eapply held_evolves; [apply Hef| |]| | | | |].
      * intros src Hs. eapply linked_evolves; [done|]. intros link Hlk Hdl. exact (linked_evolves _ _ _ Ev1 Hs link (Hfew _ _ Hdl Hlk) Hdl).
      * intros G. apply Hgg. apply (gone_evolves _ _ _ _ G) in Ev1 as [? ?]. split; [by rewrite Hd|by rewrite Hl].
      * intros e He. eapply no_link_evolves; [|done]. intros link Hdl He'. apply (no_link_evolves _ _ _ He Ev1 link Hdl), (Hfew _ _ Hdl He').
      * intros _. destruct Hn as [Hn|(d' & pr & Hd' & Hc & Hk)].
        -- right. eapply no_link_evolves; [|done]. intros link _. by rewrite Hn.
        -- left. destruct (proj2 H1) as [Hg|[L _]]; [eapply gone_evolves; [|done]; unfold gone; by rewrite Hd, Hl|].
           exfalso. apply Hd'. apply (inv_disjoint _ _ _ _ I1 _ _ _ _ Hc (listed_claims _ _ L Hold)); rewrite ?Ep; [|done|done].
           intros E0. rewrite E0 in Hk. symmetry in Hk. by apply Key_empty in Hk.
      * intros q. rewrite (q _ _ Hr3), Hd, Hr. specialize (Hq1 q). rewrite enter_same in Hq1. subst w1. split_and!; [done|done|].
        intros e He. by rewrite Ht.
    + intros w3 Hr3 I3. assert (Ev3 := R_evolves _ _ Hr3). apply HQ; [done|exact (held_evolves _ _ I1 Ev3 H1)| | | | |].
      * intros src Hs. exact (linked_evolves _ _ _ Ev3 (linked_evolves _ _ _ Ev1 Hs)).
      * intros G. eapply gone_evolves; [|done]. by eapply gone_evolves.
      * intros e' He. exact (no_link_evolves _ _ _ (no_link_evolves _ _ _ He Ev1) Ev3).
      * intros [?|[= ->]]; [done|]. right. eapply no_link_evolves; [|done]. intros link _. by rewrite (remove_tx_missing _ _ E).
      * intros q. rewrite (q _ _ Hr3). specialize (Hq1 q). rewrite enter_same in Hq1. by subst w1.
  - intros e w1 Ev1 I1 Hq1 Hno. apply HQ; [done|exact (held_evolves _ _ I Ev1 H)| | | | |].
    + intros src. by apply linked_evolves.
    + intros G. by eapply gone_evolves.
    + intros e' He. exact (no_link_evolves _ _ _ He Ev1).
    + intros [?|[= ->]]; [done|right]. by apply Hno.
    + intros q. by rewrite (Hq1 eq_refl q).
Qed.

Lemma wp_remove_loop src l : forall removed (Q : unit -> world -> Prop) (X : view_error -> world -> Prop) w,
  Inv w -> held w -> linked src w -> path cur <> "" -> (forall old, old ∈ l -> old ∈ olds) ->
  (forall p, p ∈ removed -> gone d w \/ no_link (entry p) w) ->
  (forall w', Inv w' -> held w' -> linked src w' -> (gone d w -> gone d w') -> (forall e, no_link e w -> no_link e w') ->
     (gone d w' \/ forall old, old ∈ l -> clear old w') ->
     (quiet -> documents w' = documents w /\ records w' = records w /\
        (aligned -> tree w !! entry (path cur) = Some (Symlink src) -> tree w' !! entry (path cur) = Some (Symlink src))) -> Q () w') ->
  (forall e w', Inv w' -> X e w') -> wp (remove_loop data_dir Key fold_name d (path cur) l removed) Q X w.
Proof.
  induction l as [|old l IH]; intros removed Q X w I H Hs Hc Hl Hrem HQ HX; cbn [remove_loop].
  { apply HQ; try done. right. intros o Ho. by apply not_elem_of_nil in Ho. }
  assert (Hl' : forall o, o ∈ l -> o ∈ olds) by (intros o Ho; apply Hl; by apply list_elem_of_further).
  (* the rest of the loop, once the first old path is clear *)
  assert (G : forall rem w1, Inv w1 -> held w1 -> linked src w1 -> (gone d w -> gone d w1) -> (forall e, no_link e w -> no_link e w1) ->
    (gone d w1 \/ clear old w1) -> (forall p, p ∈ rem -> gone d w1 \/ no_link (entry p) w1) ->
    (quiet -> documents w1 = documents w /\ records w1 = records w /\
        (aligned -> tree w !! entry (path cur) = Some (Symlink src) -> tree w1 !! entry (path cur) = Some (Symlink src))) ->
    wp (remove_loop data_dir Key fold_name d (path cur) l rem) Q X w1).
  { intros rem w1 I1 H1 Hs1 Hg1 Hn1 Hc1 Hrem1 Hq1. apply IH; [done..| |done]. intros w2 I2 H2 Hs2 Hg2 Hn2 Hc2 Hq2.
    apply HQ; [done..|by auto|by auto| |].
    - destruct Hc1 as [Hc1|Hc1]; [left; by apply Hg2|]. destruct Hc2 as [Hc2|Hc2]; [by left|right].
      intros o [->|Ho]%elem_of_cons; [by eapply clear_kept|by apply Hc2].
    - intros q. destruct (Hq1 q) as (? & ? & K1), (Hq2 q) as (? & ? & K2). split_and!; [congruence|congruence|by auto]. }
  destruct (_ || _) eqn:E.
  { apply G; try done. rewrite !orb_true_iff, !bool_decide_eq_true in E. destruct E as [[E|E]|E].
    - right. by left.
    - right. right. left. by rewrite E.
    - destruct (Hrem _ E); [by left|right; right; by right]. }
  rewrite !orb_false_iff, !bool_decide_eq_false in E. destruct E as [[Ho _] _].
  apply wp_bind, wp_same; [done|]. intros b w1 Ev1 I1 Hb Hq1. assert (H1 := held_evolves _ _ I Ev1 H).
  assert (Hs1 := linked_evolves _ _ _ Ev1 Hs).
  assert (Hg1 : gone d w -> gone d w1) by (intros; by eapply gone_evolves).
  assert (Hn1 : forall e, no_link e w -> no_link e w1) by (intros e He; by eapply no_link_evolves).
  assert (Hrem1 : forall p, p ∈ removed -> gone d w1 \/ no_link (entry p) w1) by (intros p Hp; destruct (Hrem p Hp); auto).
  destruct b.
  { apply G; [done..| |done|]; [right; right; left; by apply Hb|]. intros q. by destruct (Hq1 q) as [-> _]. }
  apply wp_bind, wp_remove; [done|done|done|exists old; split; [apply Hl, list_elem_of_here|done]|].
  intros r w2 I2 H2 Hs2 Hg2 Hn2 Hr Hq2.
  assert (K : r = Ok () \/ r = Err ErrNotExist -> wp (remove_loop data_dir Key fold_name d (path cur) l (path old :: removed)) Q X w2).
  { intros Hrr. specialize (Hr Hrr). apply G; [done|done|by apply Hs2|by auto|by auto| | |].
    - destruct Hr; [by left|right; right; by right].
    - intros p [->|Hp]%elem_of_cons; [done|]. destruct (Hrem1 p Hp); auto.
    - intros q. destruct (Hq1 q) as [-> Hq1'], (Hq2 q) as (? & ? & Ht). split_and!; [done|done|]. intros Ha Hpres.
      rewrite Ht; [done|]. intros Ee. symmetry in Ee. assert (Hin : old ∈ olds) by (apply Hl, list_elem_of_here).
      apply Hq1' in Ee; [done|done|done|done|by apply Ha|by rewrite Hpres]. }
  destruct r as [[]|[]]; try (by apply HX); apply K; auto.
Qed.

(** ** Settling *)

Lemma settled_evolves w w' : evolves w w' -> settled w d -> settled w' d.
Proof. intros Ev H id r (Hr & ?). apply (H id r). split; [by apply (ev_fewer _ _ _ Ev)|done]. Qed.

Lemma apply_gone w : (forall m, m ∈ ms -> moves w !! p_id m = None) -> apply_tx Key cur ms w = w.
Proof.
  intros H. unfold apply_tx, with_moves. destruct w as [docs last intro mvs t n ab]. cbn in *. f_equal. apply map_eq. intros id.
  rewrite (fold_lookup Key (MkWorld docs last intro mvs t n ab) cur). case_decide as Hin; [|done].
  apply list_elem_of_fmap in Hin as (m & -> & Hm). by rewrite H.
Qed.

Lemma wp_settle src (Q : unit -> world -> Prop) (X : view_error -> world -> Prop) w :
  Inv w -> held w -> ms <> [] -> linked src w -> names_blob data_dir (blob cur) src = true -> path cur <> "" ->
  (gone d w \/ forall old, old ∈ olds -> clear old w) ->
  (forall w', Inv w' -> settled w' d ->
     (quiet -> documents w' = documents w /\ tree w' = tree w /\ (is_Some (documents w !! d) -> projected w' d = Some cur)) -> Q () w') ->
  wp (tx (fun w => Ok (apply_tx Key cur ms w, ()))) Q X w.
Proof.
  intros I H Hne Hs Hn Hp Hold HQ. apply wp_tx; [done|].
  assert (G : gone d w \/ listed w d ms /\ claims (records w) d cur /\ forall old, old ∈ olds -> clear old w).
  { destruct (proj2 H) as [|[? ?]]; [by left|]. destruct Hold; [by left|by right]. }
  destruct G as [G|(L & C & Ho)].
  - rewrite apply_gone.
    2: { intros m Hm. destruct (moves w !! p_id m) as [x|] eqn:E; [|done]. exfalso.
         assert (Hr : records w !! p_id m = Some (m_record x)) by (apply records_lookup; eauto).
         apply (gone_rows _ _ _ d w I (proj1 G) _ _ Hr). by eapply (proj1 H). }
    split; [by apply effect_refl|]. intros w' Hr I'. assert (Ev := R_evolves _ _ Hr). apply HQ; [done| |].
    + intros id r (Hr' & Hd & _). by apply (gone_rows _ _ _ d w' I' (proj1 (gone_evolves _ _ _ _ G Ev)) _ _ Hr').
    + intros q. rewrite (q _ _ Hr). split_and!; [done|done|]. destruct G as [G _]. rewrite G. by intros [? ?].
  - destruct (apply_effect data_dir Key fold_name w d ms cur I L Hne Hp) as (Hef & Hpr & Hse).
    + eauto.
    + intros old Hin Hne'. destruct (Ho old Hin) as [|[|]]; [done|by left|by right].
    + intros link Ht Hl. by rewrite (Hs link Ht Hl).
    + split; [done|]. intros w' Hr I'. assert (Ev := R_evolves _ _ Hr). apply HQ; [done|by eapply settled_evolves|].
      intros q. by rewrite (q _ _ Hr).
Qed.
End Held.

(** * Calls *)

Lemma wp_record d pr nx (Q : pendingMove -> world -> Prop) (X : view_error -> world -> Prop) w :
  Inv w -> path nx <> "" -> (gone d w \/ starts_from w d pr) ->
  (forall m w1 w', Inv w1 -> Inv w' -> evolves w1 w' -> (quiet -> w' = w1) ->
     m = MkPending (p_id m) pr nx -> records w !! p_id m = None ->
     records w1 = <[p_id m := MkRecord d pr nx Pending None]> (records w) ->
     documents w1 = documents w -> tree w1 = tree w -> last_document w1 = last_document w -> Q m w') ->
  (forall e w', Inv w' -> X e w') -> wp (recordPending Key d pr nx) Q X w.
Proof.
  intros I Hn Hst HQ HX. unfold recordPending. apply wp_tx; [done|].
  destruct (record_tx Key d pr nx w) as [[w1 m]|e] eqn:E; [|by auto].
  assert (Hst' : starts_from w d pr).
  { destruct Hst as [[Hg _]|?]; [|done]. exfalso. unfold record_tx in E. destruct (ClaimedByOther Key d (path nx) w) as [w2 b] eqn:Ec.
    unfold ClaimedByOther in Ec. injection Ec as Ec _. destruct b; [done|]. rewrite bool_decide_false in E; [done|].
    rewrite <- Ec. cbn. rewrite Hg. by intros [? ?]. }
  destruct (record_effect data_dir Key fold_name w d pr nx w1 m I E Hn Hst') as (Hef & Hm & Hf & Hr & _ & Hd & Ht & Hl).
  split; [done|]. intros w' Hr' I'. eapply HQ; [apply Hef|done|by apply R_evolves|intros q; by apply q|done..].
Qed.

(** The moves a call starts from. *)
Definition holds_moves (d : Z) (ms : list pendingMove) (w : world) : Prop :=
  (forall m r, m ∈ ms -> records w !! p_id m = Some r -> document_id r = d) /\ (gone d w \/ listed w d ms).
Definition well_spelled (w : world) (d : Z) (cur : projection) : Prop :=
  forall q, claims (records w) d q -> path q <> "" -> entry (path q) = entry (path cur) -> Key (path q) = Key (path cur).

Lemma holds_evolves d ms w w' : Inv w -> evolves w w' -> holds_moves d ms w -> holds_moves d ms w'.
Proof.
  intros I Ev [H1 H2]. split; [intros m r Hm Hr; by eapply H1, (ev_fewer _ _ _ Ev)|].
  destruct H2 as [H2|L]; [left; by eapply gone_evolves|]. destruct (rows_evolve_gone _ _ _ d _ _ I Ev); [by left|right; by eapply listed_same].
Qed.
Lemma last_in {A} (l : list A) x : last l = Some x -> x ∈ l.
Proof. intros H. apply last_Some in H as [l' ->]. apply elem_of_app. right. by apply list_elem_of_singleton. Qed.

Lemma listed_snoc w w1 d ms m pr nx :
  listed w d ms -> m = MkPending (p_id m) pr nx -> records w !! p_id m = None ->
  records w1 = <[p_id m := MkRecord d pr nx Pending None]> (records w) -> listed w1 d (ms ++ [m]).
Proof.
  intros [L1 L2] Hm Hn Hr. split.
  - intros m' [Hm'|Hm']%elem_of_app.
    + destruct (L1 m' Hm') as (r & Hp & E). exists r. split; [|done]. rewrite Hr. apply insert_pending; [done|by left].
    + apply list_elem_of_singleton in Hm' as ->. exists (MkRecord d pr nx Pending None). rewrite Hr. split; [apply insert_pending; [done|by right]|].
      rewrite Hm. done.
  - intros id r Hp. rewrite Hr in Hp. apply insert_pending in Hp as [Hp|(_ & -> & _)]; [| |done].
    + destruct (L2 id r Hp) as (m' & Hm' & E). exists m'. split; [apply elem_of_app; by left|done].
    + exists m. split; [apply elem_of_app; right; by apply list_elem_of_singleton|done].
Qed.

(** What a settled call leaves when nothing interrupted it. *)
Definition published (w w' : world) (d : Z) (cur : projection) (src : string) : Prop :=
  current_target w d = Ok (cur, src) /\ documents w' = documents w /\ projected w' d = Some cur /\
  (well_spelled w d cur -> tree w' !! entry (path cur) = Some (Symlink src)).

Lemma target_live w d t : current_target w d = Ok t -> is_Some (documents w !! d).
Proof. unfold current_target. destruct (documents w !! d); [eauto|done]. Qed.

(** The second half of [finishPending], once the target is among the moves. *)
Lemma wp_publish_all d ms cur src (Q : unit -> world -> Prop) (X : view_error -> world -> Prop) w :
  Inv w -> held d ms cur w -> ms <> [] -> path cur <> "" -> names_blob data_dir (blob cur) src = true ->
  (forall w', Inv w' -> settled w' d ->
     (quiet -> documents w' = documents w /\ (is_Some (documents w !! d) -> projected w' d = Some cur) /\
        (aligned ms cur -> tree w' !! entry (path cur) = Some (Symlink src))) -> Q () w') ->
  (forall e w', Inv w' -> X e w') ->
  wp (_ ← publishDocumentLink data_dir Key fold_name d (path cur) src;
      _ ← remove_loop data_dir Key fold_name d (path cur) (ms ≫= fun m => [previous m; next m]) [];
      tx (fun w => Ok (apply_tx Key cur ms w, ()))) Q X w.
Proof.
  intros I H Hne Hp Hn HQ HX. apply wp_bind. eapply wp_publish; [done|exact H|done|done| |done]. intros w1 I1 H1 Hs1 Hq1.
  apply wp_bind. eapply wp_remove_loop; [done|exact H1|exact Hs1|done|done| | |done].
  { intros p Hp'. by apply not_elem_of_nil in Hp'. }
  intros w2 I2 H2 Hs2 _ _ Hc2 Hq2. eapply wp_settle; [done|exact H2|done|exact Hs2|done|done|done|].
  intros w3 I3 Hse Hq3. apply HQ; [done|done|]. intros q. destruct (Hq1 q) as (D1 & R1 & T1), (Hq2 q) as (D2 & R2 & T2), (Hq3 q) as (D3 & T3 & P3).
  split_and!; [congruence|intros Hd; apply P3; congruence|]. intros Ha. rewrite T3. by apply T2.
Qed.

Lemma wp_finish d ms latest (Q : unit -> world -> Prop) (X : view_error -> world -> Prop) w :
  Inv w -> holds_moves d ms w -> last ms = Some latest ->
  (forall w', Inv w' -> settled w' d -> (quiet -> exists cur src, published w w' d cur src) -> Q () w') ->
  (forall e w', Inv w' -> X e w') ->
  wp (finishPending to_lower formats data_dir Key fold_name d ms latest) Q X w.
Proof.
  intros I H Hlast HQ HX. unfold finishPending. apply wp_bind, wp_resolve; [done| |by auto].
  intros w1 cur src Ev1 I1 Hp Hb Hn Hq1. assert (H1 := holds_evolves _ _ _ _ I Ev1 H). apply last_in in Hlast.
  rewrite <- Hb. replace (MkProjection (path cur) (blob cur)) with cur by (by destruct cur).
  assert (Hlc : listed w1 d ms -> claims (records w1) d (next latest)).
  { intros L. apply (listed_claims d ms w1 (next latest) L). apply list_elem_of_bind. exists latest. split; [|done]. rewrite !elem_of_cons. auto. }
  assert (Hal : quiet -> forall ms', (forall old, old ∈ (ms' ≫= fun m => [previous m; next m]) -> old = cur \/ old ∈ (ms ≫= fun m => [previous m; next m])) ->
    well_spelled w d cur -> aligned ms' cur).
  { intros q ms' Hms W old Ho Hne He. destruct (Hms old Ho) as [->|Ho']; [done|]. destruct (Hq1 q) as [-> Ht].
    destruct (proj2 H) as [[Hg _]|L]; [destruct (target_live _ _ _ Ht) as [? Hx]; congruence|]. by apply W; [apply (listed_claims d ms w)| |]. }
  destruct (bool_decide_reflect (next latest = cur)) as [Elc|Nlc].
  - apply wp_bind. cbn. eapply wp_publish_all; [done| |by intros ->; apply not_elem_of_nil in Hlast|done|done| |done].
    + split; [apply H1|]. destruct (proj2 H1) as [|L]; [by left|right]. split; [done|]. rewrite <- Elc. by apply Hlc.
    + intros w2 I2 Hse Hq2. apply HQ; [done..|]. intros q. destruct (Hq2 q) as (D & P & T), (Hq1 q) as [-> Ht].
      exists cur, src. split_and!; [done|done|by apply P, (target_live _ _ _ Ht)|]. intros W. apply T, Hal; auto.
  - apply wp_bind, wp_bind. apply wp_record; [done|done| | |done].
    { destruct (proj2 H1) as [|L]; [by left|right]. split; [right; exists (next latest); split; [by apply Hlc|done]|left].
      destruct (proj1 L _ Hlast) as (r & Hr & _). eauto. }
    intros m w2 w3 I2 I3 Ev3 Hq3 Hm Hf Hr Hd Ht Hl. cbn.
    eapply wp_publish_all; [done| |by destruct ms|done|done| |done].
    + eapply held_evolves; [exact I2|exact Ev3|]. split.
      * intros m' r [Hm'|Hm']%elem_of_app Hr'; rewrite Hr in Hr'; apply lookup_insert_Some in Hr' as [[E <-]|[_ Hr']]; try done.
        -- by eapply (proj1 H1).
        -- apply list_elem_of_singleton in Hm' as ->. congruence.
      * destruct (proj2 H1) as [G|L]; [left; destruct G; split; congruence|right].
        split; [by eapply listed_snoc|]. rewrite Hr. apply insert_claims; [done|right; split; [done|by left]].
    + intros w4 I4 Hse Hq4. apply HQ; [done..|]. intros q. destruct (Hq4 q) as (D & P & T), (Hq1 q) as [-> Htg]. rewrite (Hq3 q) in *.
      exists cur, src. split_and!; [done|congruence|apply P; rewrite Hd; by eapply target_live|]. intros W. apply T, Hal; [done| |done].
      intros old. rewrite bind_app, elem_of_app. intros [Ho|Ho]; [by right|]. rewrite Hm in Ho. cbn in Ho.
      rewrite !elem_of_cons in Ho. destruct Ho as [->|[->|Ho]]; [|by left|by apply not_elem_of_nil in Ho].
      right. apply list_elem_of_bind. exists latest. split; [|done]. rewrite !elem_of_cons. auto.
Qed.

(** * [reconcileDocument], [project] and [Reconcile] *)

Lemma pending_of_spec w d m :
  m ∈ pending_of d w <-> exists r, pending_row_of (records w) d (p_id m) r /\ prev r = previous m /\ new r = next m.
Proof.
  unfold pending_of. rewrite list_elem_of_fmap. unfold pending_row_of. split.
  - intros ([id r] & -> & H). rewrite merge_sort_Permutation in H. apply list_elem_of_In, filter_In in H as [H Hf].
    apply list_elem_of_In, elem_of_map_to_list in H. cbn in *. bool_simpl. exists r. done.
  - intros (r & (Hr & Hd & Hs) & Ep & En). exists (p_id m, r). split; [destruct m; cbn in *; congruence|].
    rewrite merge_sort_Permutation. apply list_elem_of_In, filter_In. split; [by apply list_elem_of_In, elem_of_map_to_list|]. cbn.
    by rewrite Hd, Z.eqb_refl, Hs, bool_decide_true.
Qed.
Lemma pending_listed w d : listed w d (pending_of d w).
Proof.
  split; [intros m Hm; by apply pending_of_spec|]. intros id r Hr. exists (MkPending id (prev r) (new r)). split; [|done].
  apply pending_of_spec. by exists r.
Qed.

Lemma wp_reconcile d (Q : unit -> world -> Prop) (X : view_error -> world -> Prop) w :
  Inv w ->
  (forall w', Inv w' -> settled w' d -> (quiet -> settled w d /\ w' = w \/ exists cur src, published w w' d cur src) -> Q () w') ->
  (forall e w', Inv w' -> X e w') ->
  wp (reconcileDocument to_lower formats data_dir Key fold_name d) Q X w.
Proof.
  intros I HQ HX. unfold reconcileDocument. apply wp_bind, wp_read; [done|]. intros w1 Hr1 I1. assert (Ev := R_evolves _ _ Hr1).
  pose proof (pending_listed w d) as L. destruct (last (pending_of d w)) as [latest|] eqn:El.
  - eapply wp_finish; [done| |done| |done].
    + eapply holds_evolves; [exact I|exact Ev|]. split; [|by right]. intros m r Hm Hr. destruct (proj1 L m Hm) as (r' & (? & ? & _) & _). congruence.
    + intros w2 I2 Hse Hq. apply HQ; [done..|]. intros q. right. rewrite <- (q _ _ Hr1). by apply Hq.
  - apply last_None in El. assert (Hse : settled w d).
    { intros id r Hr. destruct (proj2 L id r Hr) as (m & Hm & _). rewrite El in Hm. by apply not_elem_of_nil in Hm. }
    cbn. apply HQ; [done|exact (settled_evolves _ _ _ Ev Hse)|]. intros q. left. split; [done|by apply q].
Qed.

Lemma target_documents w w' d : documents w' = documents w -> current_target w' d = current_target w d.
Proof. unfold current_target. by intros ->. Qed.

Lemma wp_last_applied d (Q : projection -> world -> Prop) (X : view_error -> world -> Prop) w :
  Inv w ->
  (forall w', evolves w w' -> Inv w' -> (quiet -> w' = w) -> Q (default no_projection (projected w d)) w') ->
  wp (lastAppliedProjection d) Q X w.
Proof.
  intros I HQ. unfold lastAppliedProjection. apply wp_read; [done|]. intros w' Hr I'.
  replace (match latest_applied (records w) d with Some (_, r) => new r | None => no_projection end) with (default no_projection (projected w d))
    by (unfold projected; by destruct (latest_applied (records w) d) as [[]|]).
  apply HQ; [by apply R_evolves|done|]. intros q. by apply q.
Qed.

(** Without pending rows a new row starts from the latest applied one. *)
Lemma settled_starts w w' d : Inv w -> evolves w w' -> settled w d ->
  gone d w' \/ starts_from w' d (default no_projection (projected w d)) /\
    (forall pr, projected w d = Some pr -> claims (records w') d pr).
Proof.
  intros I Ev Hse. destruct (rows_evolve_gone _ _ _ d _ _ I Ev) as [|S]; [by left|right]. unfold projected.
  rewrite (same_latest _ _ _ S).
  assert (Hc : forall id r, latest_applied (records w') d = Some (id, r) -> claims (records w') d (new r)) by (intros; by eapply latest_claims).
  destruct (latest_applied (records w') d) as [[id r]|] eqn:El; cbn; split.
  - split; [right; exists (new r); split; [by eapply Hc|done]|right]. intros i x E. rewrite El in E. by injection E as _ <-.
  - intros pr [= <-]. by eapply Hc.
  - split; [by left|right]. intros i x E. by rewrite El in E.
  - done.
Qed.

Lemma wp_project d (Q : string -> world -> Prop) (X : view_error -> world -> Prop) w :
  Inv w ->
  (forall p w', Inv w' -> (quiet -> exists cur src, published w w' d cur src /\ p = path cur /\ settled w' d) -> Q p w') ->
  (forall e w', Inv w' -> X e w') ->
  wp (project to_lower formats data_dir Key fold_name d) Q X w.
Proof.
  intros I HQ HX. unfold project. apply wp_bind, wp_reconcile; [done| |done]. intros w1 I1 Hse1 Hq1.
  apply wp_bind, wp_resolve; [done| |by auto]. intros w2 cur src Ev2 I2 Hp Hb Hn Hq2. assert (Hse2 := settled_evolves _ _ _ Ev2 Hse1).
  rewrite <- Hb. replace (MkProjection (path cur) (blob cur)) with cur by (by destruct cur).
  apply wp_bind, wp_last_applied; [done|]. intros w3 Ev3 I3 Hq3. assert (Hse3 := settled_evolves _ _ _ Ev3 Hse2).
  pose proof (settled_starts _ _ d I2 Ev3 Hse2) as Hst.
  (* in a quiet call the target is the starting world's *)
  assert (Hq : quiet -> w3 = w1 /\ documents w1 = documents w /\ current_target w d = Ok (cur, src)).
  { intros q. destruct (Hq2 q) as [-> Ht]. rewrite (Hq3 q).
    assert (Hd : documents w1 = documents w) by (destruct (Hq1 q) as [[_ ->]|(c & s & _ & ? & _)]; done).
    split_and!; [done|done|]. by rewrite <- (target_documents _ _ d Hd). }
  destruct (bool_decide_reflect (default no_projection (projected w2 d) = cur)) as [Ec|Nc].
  - assert (Hpr : projected w2 d = Some cur).
    { destruct (projected w2 d) as [pr|]; [by cbn in Ec; subst|]. by rewrite <- Ec in Hp. }
    apply wp_bind. eapply (wp_publish d [] cur); [done| |done|done| |done].
    + split; [intros m r Hm; by apply not_elem_of_nil in Hm|]. destruct Hst as [|[_ Hc]]; [by left|right]. split; [|by apply Hc].
      split; [intros m Hm; by apply not_elem_of_nil in Hm|]. intros id r Hr. by destruct (Hse3 id r).
    + intros w4 I4 _ _ Hq4. cbn. apply HQ; [done|]. intros q. destruct (Hq4 q) as (D & Rr & T), (Hq q) as (-> & Hd & Ht).
      exists cur, src. split_and!; [|done|intros id r Hr; apply (Hse1 id r); by rewrite Rr in Hr].
      split_and!; [done|congruence| |done]. unfold projected in *. rewrite Rr. destruct (Hq2 q) as [E2 _]. by rewrite E2 in Hpr.
  - apply wp_bind, wp_record; [done|done|destruct Hst as [|[? _]]; [by left|by right]| |done].
    intros m w4 w5 I4 I5 Ev5 Hq5 Hm Hf Hr Hd Ht Hl. apply wp_bind.
    eapply (wp_finish d [m] m); [done| |done| |done].
    + eapply holds_evolves; [exact I4|exact Ev5|]. assert (L : listed w4 d [m]).
      { apply (listed_snoc w3 w4 d [] m _ _ ltac:(split; [intros ? H0; by apply not_elem_of_nil in H0|intros id r Hpr; by destruct (Hse3 id r)]) Hm Hf Hr). }
      split; [|by right]. intros m' r Hm' Hr'. destruct (proj1 L m' Hm') as (r' & (? & ? & _) & _). congruence.
    + intros w6 I6 Hse6 Hq6. apply wp_bind, wp_last_applied; [done|]. intros w7 Ev7 I7 Hq7. cbn. apply HQ; [done|]. intros q.
      destruct (Hq q) as (-> & Hd1 & Htg), (Hq6 q) as (cur' & src' & Ht' & Hd' & Hp' & Hw'). rewrite (Hq7 q), (Hq5 q) in *.
      rewrite (target_documents w1 w4 d Hd), (target_documents _ _ d Hd1), Htg in Ht'. injection Ht' as <- <-.
      exists cur, src. rewrite Hp'. split_and!; [|done|done]. split_and!; [done|congruence|done|]. intros W. apply Hw'.
      destruct (Hq1 q) as [[_ ->]|(c & s & Hpub)].
      2: { destruct Hpub as (Htc & _ & Hpc & _). rewrite Htg in Htc. injection Htc as <- _. destruct (Hq2 q) as [-> _].
           rewrite Hpc in Nc. done. }
      intros x Hx Hxn Hxe. rewrite Hr in Hx. apply insert_claims in Hx as [Hx|(_ & [<-|<-])]; [by apply W|done| |done].
      destruct (Hq2 q) as [-> _]. destruct (projected w d) as [pr|] eqn:Epr; [|done]. apply W; [|done|done].
      unfold projected in Epr. apply fmap_Some in Epr as ([i r] & Hl' & ->). by eapply latest_claims.
Qed.

Lemma wp_reconcile_all ids : forall failed (Q : list view_error -> world -> Prop) (X : view_error -> world -> Prop) w,
  Inv w -> (forall l w', Inv w' -> Q l w') -> wp (reconcile_all to_lower formats data_dir Key fold_name ids failed) Q X w.
Proof.
  induction ids as [|id ids IH]; intros failed Q X w I HQ; cbn [reconcile_all]; [by apply HQ|].
  apply wp_bind, wp_attempt, wp_reconcile; [done| |]; intros; by apply IH.
Qed.
Lemma wp_Reconcile (Q : list view_error -> world -> Prop) (X : view_error -> world -> Prop) w :
  Inv w -> (forall l w', Inv w' -> Q l w') -> wp (Reconcile to_lower formats data_dir Key fold_name) Q X w.
Proof. intros I HQ. unfold Reconcile. apply wp_bind, wp_read; [done|]. intros w' _ I'. by apply wp_reconcile_all. Qed.
End Calls.
