(* ===== verification/RenderView.v ===== *)
(** The rendered view as a whole ([RenderJournal], [RenderCalls]): any interleaving of the
    renderer's calls, abandoned at any point, with edits, trashing, purges and their
    clean-up, and with what else happens in the directory; and the abstract view it
    implements. *)
From S2P Require Import Prelude GoStd Utf8 Sqlite FilePath Paths Mime Systems RenderTarget RenderJournal RenderInvariant RenderSteps RenderCalls.

Section View.
Context (to_lower : string -> string) (formats : registry).
Context (data_dir : string) (Key : string -> string) (fold_name : string -> string).
Abbreviation entry := (entry fold_name).
Abbreviation Inv := (Inv data_dir Key fold_name).
Abbreviation document_link := (document_link data_dir).
Abbreviation evolves := (evolves data_dir).

(** * The others *)

Inductive others (w : world) : world -> Prop :=
  | edit d old x : documents w !! d = Some old -> others w (with_documents <[d := x]> w)
  | add_document x :
      others w (MkWorld (<[last_document w + 1 := x]> (documents w)) (last_document w + 1) (introduced w) (moves w) (tree w) (now w) (abandoned w))
  | purge_documents ids : others w (fst (purge_tx fold_name ids w))
  | clean_up relative hashes w' removed : remove_rendered_tx Key fold_name relative hashes w = Ok (w', removed) -> others w w'
  | tick t : now w <= t -> others w (MkWorld (documents w) (last_document w) (introduced w) (moves w) (tree w) t (abandoned w))
  | introduce b : others w (MkWorld (documents w) (last_document w) b (moves w) (tree w) (now w) (abandoned w))
  | foreign t : closed_tree t ->
      (forall e link, t !! e = Some (Symlink link) -> document_link link -> tree w !! e = Some (Symlink link)) ->
      others w (with_tree (fun _ => t) w).

Lemma cleanup_claims w d pr : claims (records w) d pr -> path pr <> "" -> path pr ∈ cleanup_paths d w.
Proof.
  intros (id & r & Hr & Hd & Hc) Hp. unfold cleanup_paths. apply list_elem_of_In, filter_In.
  split; [apply list_elem_of_In|by apply negb_true_iff, bool_decide_eq_false].
  assert (Hown : (id, r) ∈ List.filter (fun x => document_id (snd x) =? d) (map_to_list (records w))).
  { apply list_elem_of_In, filter_In. split; [by apply list_elem_of_In, elem_of_map_to_list|]. cbn. by apply Z.eqb_eq. }
  apply elem_of_app. destruct Hc as [[Hs [<-|<-]]|[Hl <-]]; [left|right|left]; apply list_elem_of_fmap; exists (id, r);
    (split; [done|]); apply list_elem_of_In, filter_In; (split; [by apply list_elem_of_In|]); cbn [fst snd].
  - by rewrite Hs, bool_decide_true.
  - by rewrite Hs, bool_decide_true.
  - by rewrite Hl, (bool_decide_true (Some id = Some id)), orb_true_r.
Qed.

Lemma purge_records ids w id r :
  records (fst (purge_tx fold_name ids w)) !! id = Some r <-> records w !! id = Some r /\ document_id r ∉ candidates ids w.
Proof.
  rewrite !records_lookup. cbn. split.
  - intros (m & [Hm Hn]%map_lookup_filter_Some & <-). split; [by exists m|done].
  - intros [(m & Hm & <-) Hn]. exists m. split; [by apply map_lookup_filter_Some|done].
Qed.
Lemma purge_others_rows ids w d : d ∉ candidates ids w -> same_rows (records w) (records (fst (purge_tx fold_name ids w))) d.
Proof. intros Hd id r Hr. rewrite purge_records. subst d. tauto. Qed.
Lemma purge_no_rows ids w d id r : d ∈ candidates ids w -> records (fst (purge_tx fold_name ids w)) !! id = Some r -> document_id r <> d.
Proof. intros Hd [_ Hn]%purge_records <-. done. Qed.

Lemma purge_Inv ids w : Inv w -> Inv (fst (purge_tx fold_name ids w)).
Proof.
  intros I. set (w' := fst _). pose proof (purge_records ids w) as Hr. pose proof (purge_others_rows ids w) as S. pose proof (purge_no_rows ids w) as N.
  fold w' in Hr, S, N.
  assert (Hown : forall d id r, records w' !! id = Some r -> document_id r = d -> same_rows (records w) (records w') d).
  { intros d id r H Hd. apply S. intros Hin. by apply (N _ _ _ Hin H). }
  assert (Hcl : forall d q, claims (records w') d q -> claims (records w) d q).
  { intros d q (id & r & H & Hd & Hc). eapply same_claims; [exact (same_rows_sym _ _ _ (Hown _ _ _ H Hd))|]. by exists id, r. }
  constructor.
  - intros id m Hm. cbn in Hm. apply map_lookup_filter_Some in Hm as [Hm _]. exact (inv_keys _ _ _ _ I _ _ Hm).
  - intros id r [H Hn]%Hr. destruct (inv_docs _ _ _ _ I _ _ H) as [x Hx]. exists x. cbn. by apply map_lookup_filter_Some.
  - intros d x Hx. cbn in Hx. apply map_lookup_filter_Some in Hx as [Hx _]. exact (inv_ids _ _ _ _ I _ _ Hx).
  - intros id r [H _]%Hr. by eapply (inv_new _ _ _ _ I).
  - intros d id r (H & Hd & Hs). apply Hr in H as [H _]. by apply (inv_clock _ _ _ _ I d id r).
  - intros d id r id' r' (H & Hd & Hs) (H' & Hd' & Hs'). apply Hr in H as [H _], H' as [H' _]. by apply (inv_order _ _ _ _ I d id r id' r').
  - intros d d' q q' H1%Hcl H2%Hcl. by apply (inv_disjoint _ _ _ _ I).
  - intros d id r i p Hl (Hp & Hd & Hs). pose proof (Hown _ _ _ Hp Hd) as Sd. rewrite <- (same_latest _ _ _ Sd) in Hl.
    destruct (inv_cover _ _ _ _ I d id r i p Hl) as (j & p' & (Hj & Hjd & Hjs) & E).
    + split_and!; [by apply Sd|done|done].
    + exists j, p'. split; [|done]. split_and!; [by apply Sd|done|done].
  - exact (inv_tree _ _ _ _ I).
  - intros e link He Hl. destruct (inv_links _ _ _ _ I e link He Hl) as [Ha|(d & q & Hq & Hp & Hen & Hb)].
    + left. cbn. set_solver.
    + destruct (decide (d ∈ candidates ids w)) as [Hd|Hd].
      * left. cbn. apply elem_of_union. right. apply elem_of_list_to_set, list_elem_of_fmap. exists (path q). split; [done|].
        apply list_elem_of_bind. exists d. split; [by apply cleanup_claims|done].
      * right. exists d, q. split; [|done]. eapply same_claims; [by apply S|done].
Qed.
Lemma purge_evolves ids w : evolves w (fst (purge_tx fold_name ids w)).
Proof.
  constructor.
  - intros id r [H _]%purge_records. done.
  - intros id r H. destruct (decide (document_id r ∈ candidates ids w)) as [Hin|Hn]; [right|left; by apply purge_records].
    cbn. apply map_lookup_filter_None. right. intros x _. cbn. tauto.
  - intros d Hd _. cbn. apply map_lookup_filter_None. by left.
  - cbn. lia.
  - done.
Qed.

(** The clean-up removes document links only. *)
Lemma clean_up_effect relative hashes w w' removed :
  Inv w -> remove_rendered_tx Key fold_name relative hashes w = Ok (w', removed) ->
  Inv w' /\ evolves w w' /\ keeps_foreign data_dir w w' /\ records w' = records w.
Proof.
  intros I H. unfold remove_rendered_tx in H. destruct (claimed_spec data_dir Key fold_name w 0 relative I) as (b & Hb & _). rewrite Hb in H.
  assert (I1 : Inv (fillMissingKeys Key w)) by by apply Inv_fill.
  assert (Hr : records (fillMissingKeys Key w) = records w) by apply fill_records.
  assert (E1 : evolves w (fillMissingKeys Key w)) by (constructor; rewrite ?Hr; cbn; auto; lia).
  destruct b; [injection H as <- _; split_and!; [done|done|by intros ???|done]|].
  unfold removeMatchingLink in H. destruct (tree (fillMissingKeys Key w) !! entry relative) as [[| |link]|] eqn:Et; try done.
  destruct (existsb _ _) eqn:Ex; [|done]. destruct (parents_open _ _); [|done]. injection H as <- _.
  assert (Hl : document_link link).
  { apply existsb_exists in Ex as (h & _ & Hm). exists h. unfold names_blob. by rewrite Hm, orb_true_r. }
  change (with_tree (delete (entry relative)) (fillMissingKeys Key w)) with
    (with_tree (fun _ => delete (entry relative) (tree (fillMissingKeys Key w))) (fillMissingKeys Key w)).
  split_and!.
  - apply Inv_tree; [done|eapply closed_delete; [exact (inv_tree _ _ _ _ I1)|done]|]. intros e l [_ He]%lookup_delete_Some _. by left.
  - eapply world_evolves_trans; [exact (inv_ids _ _ _ _ I)|exact (inv_docs _ _ _ _ I)|exact E1|]. constructor; [done|by left|done|done|].
    intros e l _ He. cbn in He. by apply lookup_delete_Some in He as [_ He].
  - intros e n He Hf. cbn. rewrite lookup_delete_ne; [done|]. intros <-. cbn in Et. rewrite Et in He. injection He as <-. by destruct (Hf link).
  - exact Hr.
Qed.

Lemma others_kept w w' : Inv w -> others w w' -> Inv w' /\ evolves w w'.
Proof.
  intros I []; [..|].
  - split.
    + destruct I. constructor; try done.
      * intros id r Hr. cbn. rewrite lookup_insert_is_Some. destruct (decide (d = document_id r)); [by left|right; eauto].
      * intros i y Hy. cbn in *. apply lookup_insert_Some in Hy as [[<- _]|[_ Hy]]; eauto.
    + constructor; [done|by left| |done|done]. intros i Hi _. cbn. rewrite lookup_insert_None. split; [done|]. intros ->. congruence.
  - split.
    + destruct I. constructor; try done.
      * intros id r Hr. cbn. rewrite lookup_insert_is_Some. destruct (decide (last_document w + 1 = document_id r)); [by left|right; eauto].
      * intros i y Hy. cbn in *. apply lookup_insert_Some in Hy as [[<- _]|[_ Hy]]; [lia|]. specialize (inv_ids _ _ Hy). lia.
    + constructor; [done|by left| |cbn; lia|done]. intros i Hi Hl. cbn. rewrite lookup_insert_None. split; [done|lia].
  - split; [by apply purge_Inv|apply purge_evolves].
  - destruct (clean_up_effect _ _ _ _ _ I H) as (? & ? & _). done.
  - split; [|by constructor; [|left|..]]. destruct I. constructor; try done.
    intros d id r Ha. destruct (inv_clock _ _ _ Ha) as (t' & ? & ?). exists t'. split; [done|cbn; lia].
  - split; [|by constructor; [|left|..]]. by destruct I.
  - split; [apply Inv_tree; [done|done|by left; auto]|]. constructor; [done|by left|done|done|]. auto.
Qed.

(** * Interleavings *)

(** A job's [Move], or the reconciliation at start. *)
Inductive call : Type := CallMove (d : Z) | CallReconcile.
Definition program (c : call) : prog unit :=
  match c with
  | CallMove d => Move to_lower formats data_dir Key fold_name d
  | CallReconcile => _ ← Reconcile to_lower formats data_dir Key fold_name; Ret ()
  end.

(** The renderer's lock admits one call at a time.  A call may stop anywhere: it returns,
    fails, is cancelled, or the process dies. *)
Inductive step : world * option (prog unit) -> world * option (prog unit) -> Prop :=
  | step_call w c : step (w, None) (w, Some (program c))
  | step_act w B (f : world -> world * B) (k : B -> prog unit) : step (w, Some (Act f k)) (fst (f w), Some (k (snd (f w))))
  | step_stop w p : step (w, Some p) (w, None)
  | step_others w w' r : others w w' -> step (w, r) (w', r).

Context (Key_empty : forall p, Key p = Key "" -> p = "").

Abbreviation safe := (wp data_dir Key fold_name evolves).
Definition good (s : world * option (prog unit)) : Prop :=
  Inv (fst s) /\
  match snd s with
  | None => True
  | Some p => forall w', evolves (fst s) w' -> Inv w' -> safe p (fun _ _ => True) (fun _ _ => True) w'
  end.

Lemma program_safe c w : Inv w -> safe (program c) (fun _ _ => True) (fun _ _ => True) w.
Proof.
  intros I. assert (E : forall w w', evolves w w' -> evolves w w') by done. destruct c as [d|]; unfold program, Move.
  - apply (wp_bind data_dir Key fold_name). apply (wp_project to_lower formats data_dir Key fold_name Key_empty evolves E); done.
  - apply (wp_bind data_dir Key fold_name). apply (wp_Reconcile to_lower formats data_dir Key fold_name Key_empty evolves E); done.
Qed.

Lemma good_step s s' : good s -> step s s' -> good s'.
Proof.
  intros [I G] H. destruct H as [w c|w B f k|w p|w w' r H]; cbn in *.
  - split; [done|]. intros w' _ I'. by apply program_safe.
  - destruct (G w (evolves_refl _ _) I) as [[I1 _] Hk]. split; [done|]. intros w' Ev I'. by apply Hk.
  - done.
  - destruct (others_kept _ _ I H) as [I' Ev]. split; [done|]. destruct r as [p|]; [|done]. intros w2 Ev2 I2. apply G; [|done].
    eapply world_evolves_trans; [exact (inv_ids _ _ _ _ I)|exact (inv_docs _ _ _ _ I)|exact Ev|exact Ev2].
Qed.
Lemma good_steps s s' : good s -> rtc step s s' -> good s'.
Proof. intros G H. induction H as [|s1 s2 s3 H1 _ IH]; [done|]. by apply IH, (good_step s1). Qed.

(** * The abstract view *)

(** The specification: a map from documents to the projection each has published.  A call
    publishes one document where no other has an equivalent path; a purge forgets. *)
Inductive spec_step (v v' : Z -> option projection) : Prop :=
  | spec_view : view_step Key v v' -> spec_step v v'
  | spec_forget : (forall d, v' d = v d \/ v' d = None) -> spec_step v v'.

Lemma purge_projected ids w d : projected (fst (purge_tx fold_name ids w)) d = projected w d \/ projected (fst (purge_tx fold_name ids w)) d = None.
Proof.
  unfold projected. destruct (decide (d ∈ candidates ids w)) as [Hd|Hd].
  - right. apply fmap_None, latest_None. intros id r (Hr & Hdoc & _). by eapply purge_no_rows.
  - left. by rewrite (same_latest _ _ _ (purge_others_rows _ _ _ Hd)).
Qed.

Lemma step_refines s s' : good s -> step s s' -> spec_step (projected (fst s)) (projected (fst s')).
Proof.
  intros [I G] H. destruct H as [w c|w B f k|w p|w w' r H]; cbn in *.
  - by apply spec_view; left.
  - destruct (G w (evolves_refl _ _) I) as [(_ & _ & V) _]. by apply spec_view.
  - by apply spec_view; left.
  - destruct H as [d old x Hx|x|ids|relative hashes w' removed H|t Ht|b|t Hc Hl]; try by apply spec_view; left.
    + apply spec_forget. intros d. apply purge_projected.
    + destruct (clean_up_effect _ _ _ _ _ I H) as (_ & _ & _ & Hr). apply spec_view. left. intros d. unfold projected. by rewrite Hr.
Qed.

(** An archive before its first render. *)
Lemma fresh_Inv docs last intro t : map_Forall (fun d _ => d <= last) docs -> Inv (MkWorld docs last intro ∅ ∅ t ∅).
Proof.
  intros H. assert (E : forall i, records (MkWorld docs last intro ∅ ∅ t ∅) !! i = None).
  { intros i. unfold records. cbn. by rewrite fmap_empty, lookup_empty. }
  constructor.
  - intros id m Hm. cbn in Hm. by rewrite lookup_empty in Hm.
  - intros id r Hr. by rewrite E in Hr.
  - intros d x Hx. by apply (H d x).
  - intros id r Hr. by rewrite E in Hr.
  - intros d id r (Hr & _). by rewrite E in Hr.
  - intros d id r id' r' (Hr & _). by rewrite E in Hr.
  - intros d d' pr pr' (id & r & Hr & _). by rewrite E in Hr.
  - intros d id r i p _ (Hr & _). by rewrite E in Hr.
  - intros e n He. cbn in He. by rewrite lookup_empty in He.
  - intros e link He. cbn in He. by rewrite lookup_empty in He.
Qed.

(** C18: the journal protects the view.  Over any interleaving of renderer calls stopped
    anywhere, edits, trashing, purges with or without their clean-up, and foreign changes
    in the directory, no two documents claim equivalent paths, and every document link on
    disk is claimed by a document, at that entry and for the blob the link names, unless a
    purge left it behind. *)
Theorem view_invariant w0 w r :
  Inv w0 -> rtc step (w0, None) (w, r) ->
  (forall d d' pr pr', claims (records w) d pr -> claims (records w) d' pr' -> path pr <> "" -> path pr' <> "" ->
     Key (path pr) = Key (path pr') -> d = d') /\
  (forall e link, tree w !! e = Some (Symlink link) -> document_link link ->
     e ∈ abandoned w \/
     exists d pr, claims (records w) d pr /\ entry (path pr) = e /\ names_blob data_dir (blob pr) link = true).
Proof.
  intros I H. assert (I' : Inv w) by by apply (good_steps (w0, None) (w, r)). split; [apply (inv_disjoint _ _ _ _ I')|].
  intros e link He Hl. destruct (inv_links _ _ _ _ I' e link He Hl) as [?|(d & pr & ? & _ & ? & ?)]; [by left|right]. by exists d, pr.
Qed.

(** C24: files, directories and links of others stay.  Whatever happened before, no action
    of a renderer call and no clean-up of a purge removes or replaces an entry that is not
    a link to a blob of the archive. *)
Theorem foreign_untouched w0 w r :
  Inv w0 -> rtc step (w0, None) (w, r) ->
  (forall B (f : world -> world * B) k, r = Some (Act f k) -> keeps_foreign data_dir w (fst (f w))) /\
  (forall relative hashes w' removed, remove_rendered_tx Key fold_name relative hashes w = Ok (w', removed) -> keeps_foreign data_dir w w').
Proof.
  intros I H. assert (G : good (w, r)) by by apply (good_steps (w0, None) (w, r)). destruct G as [I' G]. cbn in *. split.
  - intros B f k ->. destruct (G w (evolves_refl _ _) I') as [(_ & K & _) _]. exact K.
  - intros relative hashes w' removed Hc. by destruct (clean_up_effect _ _ _ _ _ I' Hc) as (_ & _ & K & _).
Qed.

(** C19: the journal implements the abstract view.  Every step of the archive either leaves
    the map from documents to published projections as it is, publishes one document where
    no other has an equivalent path, or forgets purged documents; and whenever no row is
    pending, the document links on disk are those of the map, except what purges left. *)
Theorem view_refines w0 w r :
  Inv w0 -> rtc step (w0, None) (w, r) ->
  rtc spec_step (projected w0) (projected w) /\
  (forall d d' pr pr', projected w d = Some pr -> projected w d' = Some pr' -> Key (path pr) = Key (path pr') -> d = d') /\
  ((forall d, settled w d) -> forall e link, tree w !! e = Some (Symlink link) -> document_link link ->
     e ∈ abandoned w \/
     exists d pr, projected w d = Some pr /\ entry (path pr) = e /\ names_blob data_dir (blob pr) link = true).
Proof.
  intros I H. assert (I' : Inv w) by by apply (good_steps (w0, None) (w, r)). split_and!.
  - assert (Hs : forall s s', rtc step s s' -> good s -> rtc spec_step (projected (fst s)) (projected (fst s'))).
    { induction 1 as [s|s1 s2 s3 H1 H2 IH]; intros G; [done|]. eapply rtc_l; [by apply step_refines|]. by apply IH, (good_step s1). }
    by apply (Hs (w0, None) (w, r)).
  - intros d d' pr pr' H1 H2. unfold projected in *. apply fmap_Some in H1 as ([i x] & H1 & ->), H2 as ([j y] & H2 & ->).
    apply latest_in in H1 as Hx, H2 as Hy. apply latest_claims in H1, H2. destruct Hx as [Hx _], Hy as [Hy _].
    apply (inv_disjoint _ _ _ _ I' _ _ _ _ H1 H2); by eapply (inv_new _ _ _ _ I').
  - intros Hs e link He Hl. destruct (inv_links _ _ _ _ I' e link He Hl) as [?|(d & pr & (id & x & Hx & Hd & Hc) & _ & ? & ?)]; [by left|right].
    exists d, pr. split; [|done]. destruct Hc as [[Hp _]|[Hlt <-]]; [by destruct (Hs d id x)|].
    unfold projected. destruct (latest_applied (records w) d) as [[i y]|] eqn:E; [|done]. injection Hlt as ->.
    destruct (latest_in _ _ _ _ E) as (Hy & _). assert (x = y) as -> by congruence. done.
Qed.

End View.

(** * Concrete archives *)

Section Examples.
Abbreviation spell := (fun s : string => s).
Abbreviation formats0 := (MkRegistry ∅ ∅).
Definition blob_a : string := "aaaaaaaaaaaaaaaaaaaaaaaaaaaaaaaaaaaaaaaaaaaaaaaaaaaaaaaaaaaaaaaa".
Definition blob_b : string := "bbbbbbbbbbbbbbbbbbbbbbbbbbbbbbbbbbbbbbbbbbbbbbbbbbbbbbbbbbbbbbbb".
(** A document of 2026 in Home, of a type without an extension. *)
Definition sample (code title tpl blob : string) (trashed : bool) : document :=
  MkDocument (MkDocrow title None (Some tpl) (Some "Shared") None blob "" 1767225600 None None "ada@example.com"
    11 "Rent" 10 19 "Home" code "Home" "jd") [] trashed.
Definition archive (docs : list (Z * document)) (t : Z) : world :=
  MkWorld (list_to_map docs) 9 (Some true) ∅ ∅ t ∅.
Definition run_project (d : Z) (w : world) : world * result view_error string :=
  run (project spell formats0 "/data" spell spell d) w.
Definition link_to (blob : string) : node := Symlink ("/data/blobs/sha256/" +:+ shards blob).
Definition set_document (d : Z) (x : document) : world -> world := with_documents <[d := x]>.
Definition set_clock (t : Z) (w : world) : world :=
  MkWorld (documents w) (last_document w) (introduced w) (moves w) (tree w) t (abandoned w).
Abbreviation at_path := (fun (w : world) (p : string) => tree w !! entry spell p).

Definition two_documents : world :=
  archive [(1, sample "S01" "Lease" "Shared/{{ created_year }}" blob_a false);
           (2, sample "S01" "Deposit" "Shared/{{ created_year }}" blob_b false)] 1000.
(** Document 1 is published, trashed and purged, and the process stops before the
    clean-up. *)
Definition purged : world :=
  fst (purge_tx spell [1] (set_document 1 (sample "S01" "Lease" "Shared/{{ created_year }}" blob_a true) (fst (run_project 1 two_documents)))).

(** A path whose link a purge did not clean up is lost to every other document.  While
    the purged document was there the path was refused as claimed; after a purge that
    stopped before its clean-up the path is unclaimed, but the link is foreign to the
    other document: its calls fail and leave everything as it is, for ever. *)
Theorem stale_link_blocks :
  snd (run_project 2 (fst (run_project 1 two_documents))) = Err (ErrClaimed "S01/Shared/2026") /\
  at_path purged "S01/Shared/2026" = Some (link_to blob_a) /\
  snd (ClaimedByOther spell 2 "S01/Shared/2026" purged) = false /\
  let w := fst (run_project 2 purged) in
  snd (run_project 2 purged) = Err ErrForeign /\ run_project 2 w = (w, Err ErrForeign).
Proof. vm_compute. repeat split. Qed.

(** A clock that went back: the new link is published and the old one removed, but the
    latest applied row is the old one, so the call returns the old path and the document
    claims a path where nothing is. *)
Lemma clock_back :
  let w := set_clock 500 (set_document 1 (sample "S01" "Contract" "{{ title }}" blob_a false)
             (fst (run_project 1 (archive [(1, sample "S01" "Lease" "{{ title }}" blob_a false)] 1000)))) in
  snd (run_project 1 w) = Ok "S01/Lease" /\
  at_path (fst (run_project 1 w)) "S01/Contract" = Some (link_to blob_a) /\
  at_path (fst (run_project 1 w)) "S01/Lease" = None /\
  projected (fst (run_project 1 w)) 1 = Some (MkProjection "S01/Lease" blob_a).
Proof. vm_compute. repeat split. Qed.

(** In the single archive without a system code a layout loses its "." component: the call
    removes the link it has just made, and reports success. *)
Lemma dot_component_unlinks :
  let w := set_document 1 (sample "" "Lease" "Letters/{{ title }}" blob_a false)
             (fst (run_project 1 (archive [(1, sample "" "Lease" "Letters/./{{ title }}" blob_a false)] 1000))) in
  at_path w "Letters/Lease" = Some (link_to blob_a) /\
  snd (run_project 1 w) = Ok "Letters/Lease" /\
  at_path (fst (run_project 1 w)) "Letters/Lease" = None.
Proof. vm_compute. repeat split. Qed.

(** * Witnesses *)

Lemma two_documents_Inv : Inv "/data" spell spell two_documents.
Proof.
  apply fresh_Inv. intros d x Hx. apply elem_of_list_to_map_2 in Hx. rewrite !elem_of_cons, elem_of_nil in Hx.
  destruct Hx as [[= -> _]|[[= -> _]|[]]]; done.
Qed.
Abbreviation steps := (step spell formats0 "/data" spell spell).
Lemma spell_empty : forall p, spell p = spell "" -> p = "".
Proof. done. Qed.

(** A call that runs to its end, as steps. *)
Lemma run_steps {A} (p : prog A) (k : A -> prog unit) w :
  rtc steps (w, Some (p ≫= k)) (fst (run p w), match snd (run p w) with Ok a => Some (k a) | Err e => Some (Throw e) end).
Proof.
  change (p ≫= k) with (prog_bind p k). revert w; induction p as [a|e|B f k' IH]; intros w; cbn; [done|done|].
  eapply rtc_l; [apply step_act|]. destruct (f w) as [w1 b]. apply IH.
Qed.
Lemma project_steps d w : rtc steps (w, None) (fst (run_project d w), None).
Proof.
  eapply rtc_l; [apply (step_call _ _ _ _ _ _ (CallMove d))|]. etrans; [apply (run_steps (project spell formats0 "/data" spell spell d) (fun _ => Ret ()))|].
  fold (run_project d w). apply rtc_once. destruct (snd _); apply step_stop.
Qed.

Lemma view_invariant_witness :
  let w := fst (run_project 1 two_documents) in
  at_path w "S01/Shared/2026" = Some (link_to blob_a) /\
  exists d pr, claims (records w) d pr /\ entry spell (path pr) = ["S01"; "Shared"; "2026"] /\
    names_blob "/data" (blob pr) ("/data/blobs/sha256/" +:+ shards blob_a) = true.
Proof.
  split; [vm_compute; reflexivity|].
  destruct (proj2 (view_invariant spell formats0 "/data" spell spell spell_empty two_documents (fst (run_project 1 two_documents)) None
    two_documents_Inv (project_steps 1 two_documents)) ["S01"; "Shared"; "2026"] ("/data/blobs/sha256/" +:+ shards blob_a)) as [H|H].
  - vm_compute. reflexivity.
  - exists blob_a. vm_compute. reflexivity.
  - exfalso. vm_compute in H. discriminate H.
  - exact H.
Defined.

(** The same archive with a file of somebody else's in the directory. *)
Definition with_notes : world := with_tree (fun _ => {[ ["notes.txt"] := File ]}) two_documents.
Definition notes_purged : world :=
  fst (purge_tx spell [1] (set_document 1 (sample "S01" "Lease" "Shared/{{ created_year }}" blob_a true) (fst (run_project 1 with_notes)))).
Lemma notes_steps : rtc steps (two_documents, None) (notes_purged, None).
Proof.
  eapply rtc_l.
  { apply step_others, (foreign "/data" spell spell two_documents {[ ["notes.txt"] := File ]}).
    - intros e n He. apply lookup_singleton_Some in He as [<- _]. constructor.
    - intros e l He _. by apply lookup_singleton_Some in He as [_ He]. }
  etrans; [apply (project_steps 1)|]. unfold notes_purged. eapply rtc_l; [|apply rtc_once, step_others, purge_documents].
  apply step_others. eapply (edit _ _ _ _ 1 (sample "S01" "Lease" "Shared/{{ created_year }}" blob_a false)). vm_compute. reflexivity.
Qed.

Lemma foreign_untouched_witness :
  exists w', remove_rendered_tx spell spell "S01/Shared/2026" [blob_a] notes_purged = Ok (w', true) /\
    at_path w' "S01/Shared/2026" = None /\ tree w' !! ["notes.txt"] = Some File.
Proof.
  destruct (remove_rendered_tx spell spell "S01/Shared/2026" [blob_a] notes_purged) as [[w' b]|e] eqn:E.
  2: { exfalso. vm_compute in E. discriminate E. }
  assert (Hb : b = true) by (vm_compute in E; injection E as _ <-; reflexivity). subst b.
  exists w'. split_and!; [reflexivity|vm_compute in E; injection E as <-; reflexivity|].
  apply (proj2 (foreign_untouched spell formats0 "/data" spell spell spell_empty two_documents notes_purged None two_documents_Inv notes_steps)
    "S01/Shared/2026" [blob_a] w' true E ["notes.txt"] File); [vm_compute; reflexivity|discriminate].
Defined.

Lemma view_refines_witness :
  projected (fst (run_project 1 two_documents)) 1 = Some (MkProjection "S01/Shared/2026" blob_a) /\
  rtc (spec_step spell) (projected two_documents) (projected (fst (run_project 1 two_documents))).
Proof.
  split; [vm_compute; reflexivity|].
  apply (view_refines spell formats0 "/data" spell spell spell_empty two_documents (fst (run_project 1 two_documents)) None
    two_documents_Inv (project_steps 1 two_documents)).
Defined.

Lemma spell_clean a b : is_clean a = true -> is_clean b = true -> entry spell a = entry spell b -> spell a = spell b.
Proof.
  intros Ha Hb E. unfold entry in E. rewrite !list_fmap_id, !Clean_id in E by done.
  rewrite <- (Join_Split "/"%char a), <- (Join_Split "/"%char b). by f_equal.
Qed.
End Examples.
