(* ===== verification/Authz.v ===== *)
(** The decision layer ([core/authz]): who may do what to an object.  [can] and the
    batched [canDocuments] decide one object and many, [DocVisibilityWhereAlias]
    restricts listings, [Store] keeps groups, memberships and grants.

    The tables are finite maps.  A query the schema refuses ([owner_id] of a table that
    has no such column) answers [ErrNoColumn]; other database failures are left out.
    A WHERE predicate is a [clause]: [render] gives the text and the arguments the code
    builds (up to white space), [holds] what the text says of a row. *)
From S2P Require Import Prelude GoStd Sqlite Systems.

(** * Permissions, kinds and actors *)

Definition PermView : Z := 1.
Definition PermChange : Z := 2.
Definition PermDelete : Z := 4.
Definition PermAll : Z := Z.lor (Z.lor PermView PermChange) PermDelete.

Definition KindDocument : string := "document".
Definition KindTag : string := "tag".
Definition KindCorrespondent : string := "correspondent".
Definition KindRenderedLayout : string := "rendered_layout".

Record Principal : Type := MkPrincipal {
  UserID : Z;
  Role : string;
  Kind : string;
  Groups : list Z;
  SystemID : Z;
  TokenSystemID : Z;
}.

Definition KindDemoAnon : string := "demo-anon".
Definition KindDemoScratch : string := "demo-scratch".
Definition DemoCorpusOwnerEmail : string := "corpus@demo.suchi.page".

Definition is_demo (p : Principal) : bool :=
  bool_decide (Kind p = KindDemoAnon) || bool_decide (Kind p = KindDemoScratch).

(** * Tables *)

Record document : Type := Document { d_system : Z; d_owner : Z }.

(** The key of [object_acls]: object kind and id, principal kind and id. *)
Definition acl_key : Type := string * Z * string * Z.
Record acl : Type := Acl {
  acl_id : Z;
  perm_bits : Z;
  acl_created_at : Z;
  created_by : Z;
}.
Record Group : Type := MkGroup {
  g_name : string;
  g_description : string;
  g_created_at : Z;
  g_updated_at : Z;
}.
#[export] Instance acl_eq_dec : EqDecision acl.
Proof. solve_decision. Defined.
#[export] Instance Group_eq_dec : EqDecision Group.
Proof. solve_decision. Defined.

Record db : Type := DB {
  dir : directory;
  documents : gmap Z document;
  tags : gmap Z Z;           (* id to system_id *)
  correspondents : gmap Z Z;
  storage_paths : gmap Z Z;
  object_acls : gmap acl_key acl;
  groups : gmap Z Group;
  group_members : gmap (Z * Z) Z; (* (group_id, user_id) to created_at *)
}.
Definition with_acls (f : gmap acl_key acl -> gmap acl_key acl) (d : db) : db :=
  DB (dir d) (documents d) (tags d) (correspondents d) (storage_paths d) (f (object_acls d))
     (groups d) (group_members d).
Definition with_groups (f : gmap Z Group -> gmap Z Group) (d : db) : db :=
  DB (dir d) (documents d) (tags d) (correspondents d) (storage_paths d) (object_acls d)
     (f (groups d)) (group_members d).
Definition with_members (f : gmap (Z * Z) Z -> gmap (Z * Z) Z) (d : db) : db :=
  DB (dir d) (documents d) (tags d) (correspondents d) (storage_paths d) (object_acls d)
     (groups d) (f (group_members d)).

Inductive authz_error : Type :=
  | ErrObjectNotFound
  | ErrPrincipalNotFound
  | ErrInvalidPermission
  | ErrDenied (kind : string) (id want have : Z)
  | ErrNoRows                       (* sql.ErrNoRows *)
  | ErrNoColumn (table col : string) (* the statement does not prepare *)
  | ErrConstraint (message : string)
  | ErrMessage (message : string)   (* errors.New *)
  | ErrActiveGrants (n : nat).
#[export] Instance authz_error_eq_dec : EqDecision authz_error.
Proof. solve_decision. Defined.

Definition objectTableFor (kind : string) : option string :=
  if bool_decide (kind = KindDocument) then Some "documents"
  else if bool_decide (kind = KindTag) then Some "tags"
  else if bool_decide (kind = KindCorrespondent) then Some "correspondents"
  else if bool_decide (kind = KindRenderedLayout) then Some "storage_paths"
  else None.

(** [SELECT system_id FROM table WHERE id = ?]. *)
Definition system_of (d : db) (table : string) (id : Z) : option Z :=
  if bool_decide (table = "documents") then d_system <$> documents d !! id
  else if bool_decide (table = "tags") then tags d !! id
  else if bool_decide (table = "correspondents") then correspondents d !! id
  else if bool_decide (table = "storage_paths") then storage_paths d !! id
  else None.

Definition ownerColumnFor (kind : string) : option (string * string) :=
  if bool_decide (kind = KindDocument) then Some ("owner_id", "documents")
  else if bool_decide (kind = KindCorrespondent) then Some ("owner_id", "correspondents")
  else if bool_decide (kind = KindRenderedLayout) then Some ("owner_id", "storage_paths")
  else None.

(** [SELECT col FROM table WHERE id = ?]: of the tables [ownerColumnFor] names, the
    schema gives the column to [documents] only. *)
Definition select_owner (d : db) (col table : string) (id : Z) : result authz_error Z :=
  if bool_decide (table = "documents") then
    match documents d !! id with Some r => Ok (d_owner r) | None => Err ErrNoRows end
  else Err (ErrNoColumn table col).

Definition loadOwner (d : db) (kind : string) (id : Z) : option Z :=
  match ownerColumnFor kind with
  | None => None
  | Some (col, table) => match select_owner d col table id with Ok owner => Some owner | Err _ => None end
  end.

(** * Predicates *)
Inductive clause : Type :=
  | Never
  | SystemIs (id : Z)
  | DemoSystem
  | MayEnter (userID : Z)
  | Corpus
  | OwnerOrCorpus (userID : Z)
  | OwnerOrGranted (userID : Z) (groups : list Z)
  | AllOf (parts : list clause)
  | AndThen (boundary rest : clause).

(** Bound arguments. *)
Inductive arg : Type := AInt (v : Z) | AText (s : string).

Fixpoint placeholders_loop (n : nat) : string :=
  match n with O => "" | S n' => ", ?" +:+ placeholders_loop n' end.
Definition placeholders (n : nat) : string :=
  match n with O => "" | S n' => "?" +:+ placeholders_loop n' end.

Fixpoint join (sep : string) (l : list string) : string :=
  match l with
  | [] => ""
  | [s] => s
  | s :: l' => s +:+ sep +:+ join sep l'
  end.

Definition corpus_text (alias : string) : string :=
  alias +:+ ".owner_id IN (SELECT id FROM users WHERE email = ? AND role = 'admin')".

(** The principals of a grant: the user, and the groups when there are some. *)
Definition principals_text (acl : string) (groups : list Z) : string :=
  "(" +:+ acl +:+ ".principal_kind = 'user' AND " +:+ acl +:+ ".principal_id = ?)" +:+
  match groups with
  | [] => ""
  | _ => " OR (" +:+ acl +:+ ".principal_kind = 'group' AND " +:+ acl +:+ ".principal_id IN ("
         +:+ placeholders (length groups) +:+ "))"
  end.

Fixpoint render (alias : string) (c : clause) : string * list arg :=
  match c with
  | Never => ("1=0", [])
  | SystemIs id => (alias +:+ ".system_id = ?", [AInt id])
  | DemoSystem =>
      (alias +:+ ".system_id = 1 AND EXISTS (SELECT 1 FROM jd_systems WHERE id = 1 AND code = '')", [])
  | MayEnter userID =>
      ("EXISTS ( SELECT 1 FROM users u WHERE u.id = ? AND u.disabled = 0 AND (u.role = 'admin' OR EXISTS ( SELECT 1 FROM jd_system_members m WHERE m.user_id = u.id AND m.system_id = "
         +:+ alias +:+ ".system_id )) )", [AInt userID])
  | Corpus => (corpus_text alias, [AText DemoCorpusOwnerEmail])
  | OwnerOrCorpus userID =>
      ("(" +:+ alias +:+ ".owner_id = ? OR " +:+ corpus_text alias +:+ ")",
       [AInt userID; AText DemoCorpusOwnerEmail])
  | OwnerOrGranted userID groups =>
      (alias +:+ ".owner_id = ? OR EXISTS ( SELECT 1 FROM object_acls a WHERE a.object_kind = 'document' AND a.object_id = "
         +:+ alias +:+ ".id AND (a.perm_bits & 1) = 1 AND (" +:+ principals_text "a" groups +:+ ") )",
       [AInt userID; AInt userID] ++ (AInt <$> groups))
  | AllOf parts =>
      let rendered := render alias <$> parts in
      ("(" +:+ join ") AND (" rendered.*1 +:+ ")", concat rendered.*2)
  | AndThen boundary rest =>
      let b := render alias boundary in let r := render alias rest in
      (b.1 +:+ " AND (" +:+ r.1 +:+ ")", b.2 ++ r.2)
  end.

Definition DemoCorpusVisibilityWhereAlias (userID : Z) : clause :=
  if userID =? 0 then Corpus else OwnerOrCorpus userID.

Definition systemBoundaryWhereAlias (p : Principal) : clause :=
  AllOf
    ((if SystemID p =? 0 then [] else [SystemIs (SystemID p)])
     ++ (if TokenSystemID p =? 0 then [] else [SystemIs (TokenSystemID p)])
     ++ [if is_demo p then DemoSystem else MayEnter (UserID p)]).

Definition docVisibilityWhereAlias (p : Principal) : clause :=
  let boundary := systemBoundaryWhereAlias p in
  if is_demo p then AndThen boundary (DemoCorpusVisibilityWhereAlias (UserID p))
  else if UserID p <=? 0 then Never
  else if bool_decide (Role p = "admin") then boundary
  else AndThen boundary (OwnerOrGranted (UserID p) (Groups p)).

Definition set_SystemID (systemID : Z) (p : Principal) : Principal :=
  MkPrincipal (UserID p) (Role p) (Kind p) (Groups p) systemID (TokenSystemID p).

Definition DocVisibilityWhereAlias (p : Principal) (systemID : Z) : clause :=
  if (systemID <=? 0) || (negb (SystemID p =? 0) && negb (SystemID p =? systemID)) then Never
  else docVisibilityWhereAlias (set_SystemID systemID p).

Definition DocVisibilityIntrinsicWhereAlias (p : Principal) : clause :=
  docVisibilityWhereAlias (set_SystemID 0 p).

(** ** What a predicate says of a row: its id, its system and its owner *)
Record row : Type := Row { row_id : Z; row_system : Z; row_owner : option Z }.

(** [EXISTS (SELECT 1 FROM users u WHERE u.id = ? AND u.disabled = 0 AND ...)]. *)
Definition may_enter (d : directory) (userID systemID : Z) : bool :=
  match users d !! userID with
  | Some u => negb (u_disabled u) && (bool_decide (u_role u = "admin")
                || bool_decide ((systemID, userID) ∈ jd_system_members d))
  | None => false
  end.

Definition original_unnamed (d : directory) : bool :=
  match jd_systems d !! 1 with Some r => bool_decide (code r = "") | None => false end.

(** [owner IN (SELECT id FROM users WHERE email = ? AND role = 'admin')]. *)
Definition corpus_owner (d : directory) (owner : Z) : bool :=
  match users d !! owner with
  | Some u => bool_decide (u_email u = DemoCorpusOwnerEmail) && bool_decide (u_role u = "admin")
  | None => false
  end.

(** The grants of an object that name the user or one of the groups. *)
Definition names (userID : Z) (groups : list Z) (key : acl_key) : bool :=
  let '(_, _, principal_kind, principal_id) := key in
  (bool_decide (principal_kind = "user") && (principal_id =? userID))
  || (bool_decide (principal_kind = "group") && existsb (Z.eqb principal_id) groups).
Definition on_object (kind : string) (id : Z) (key : acl_key) : bool :=
  let '(object_kind, object_id, _, _) := key in
  bool_decide (object_kind = kind) && (object_id =? id).

Definition holds_leaf (d : db) (r : row) (c : clause) : bool :=
  match c with
  | SystemIs id => row_system r =? id
  | DemoSystem => (row_system r =? 1) && original_unnamed (dir d)
  | MayEnter userID => may_enter (dir d) userID (row_system r)
  | Corpus => match row_owner r with Some o => corpus_owner (dir d) o | None => false end
  | OwnerOrCorpus userID =>
      match row_owner r with Some o => (o =? userID) || corpus_owner (dir d) o | None => false end
  | OwnerOrGranted userID groups =>
      bool_decide (row_owner r = Some userID)
      || exists_row (fun key a => on_object "document" (row_id r) key && (Z.land (perm_bits a) 1 =? 1)
                                  && names userID groups key) (object_acls d)
  | _ => false
  end.
Fixpoint holds (d : db) (r : row) (c : clause) : bool :=
  match c with
  | AllOf parts => forallb (holds d r) parts
  | AndThen b c' => holds d r b && holds d r c'
  | _ => holds_leaf d r c
  end.

(** * Decisions *)

Definition ObjectSystemID (d : db) (kind : string) (id : Z) : result authz_error Z :=
  match objectTableFor kind with
  | None => Err ErrNoRows
  | Some table => match system_of d table id with Some s => Ok s | None => Err ErrNoRows end
  end.

(** [SELECT 1 FROM table d WHERE d.id = ? AND boundary]; the boundary reads no owner. *)
Definition objectBoundary (d : db) (p : Principal) (kind : string) (id : Z) : bool :=
  match objectTableFor kind with
  | None => false
  | Some table =>
      match system_of d table id with
      | None => false
      | Some s => holds d (Row id s None) (systemBoundaryWhereAlias p)
      end
  end.

(** The OR of the [perm_bits] of the grants on the object that name the actor. *)
Definition acl_rows (d : db) (kind : string) (id userID : Z) (groups : list Z) : list Z :=
  (fun x => perm_bits x.2) <$>
    filter (fun x => on_object kind id x.1 && names userID groups x.1 = true) (map_to_list (object_acls d)).
Definition effectivePerms (d : db) (kind : string) (id : Z) (p : Principal) : Z :=
  foldl Z.lor 0 (acl_rows d kind id (UserID p) (Groups p)).

Definition demoObjectVisible (d : db) (p : Principal) (kind : string) (id : Z) : bool :=
  match ownerColumnFor kind with
  | None => true
  | Some _ =>
      match loadOwner d kind id with
      | None => false
      | Some owner =>
          if bool_decide (Kind p = KindDemoScratch) && (owner =? UserID p) then true
          else corpus_owner (dir d) owner
      end
  end.

Definition can (d : db) (p : Principal) (kind : string) (id want : Z) : result authz_error unit :=
  let denied := Err (ErrDenied kind id want 0) in
  if negb (objectBoundary d p kind id) then denied
  else if is_demo p && (want =? PermView) && demoObjectVisible d p kind id then Ok tt
  else if bool_decide (Kind p = KindDemoAnon) then denied
  else if UserID p =? 0 then denied
  else if bool_decide (Role p = "admin") then Ok tt
  else if bool_decide (loadOwner d kind id = Some (UserID p)) then Ok tt
  else
    let have := effectivePerms d kind id p in
    if Z.land have want =? want then Ok tt else Err (ErrDenied kind id want have).

(** The rows of the batch query: the requested documents within the boundary, joined
    with their grants; a document without one gives a row of no bits. *)
Definition batch_rows (d : db) (p : Principal) (unique : list Z) : list (Z * Z * Z) :=
  concat ((fun id =>
    match documents d !! id with
    | Some r =>
        if holds d (Row id (d_system r) (Some (d_owner r))) (systemBoundaryWhereAlias p) then
          match acl_rows d KindDocument id (UserID p) (Groups p) with
          | [] => [(id, d_owner r, 0)]
          | bits => (fun b => (id, d_owner r, b)) <$> bits
          end
        else []
    | None => []
    end) <$> unique).

(** One row of the loop: the decisions and the bits gathered so far. *)
Definition batch_row (p : Principal) (acc : gmap Z bool * gmap Z Z) (r : Z * Z * Z) : gmap Z bool * gmap Z Z :=
  let '(decisions, have) := acc in
  let '(id, owner, bits) := r in
  (if bool_decide (Role p = "admin") || (owner =? UserID p) then <[id := true]> decisions else decisions,
   <[id := Z.lor (default 0 (have !! id)) bits]> have).

Definition batch_final (want : Z) (have : gmap Z Z) (decisions : gmap Z bool) (id : Z) : gmap Z bool :=
  if negb (default false (decisions !! id)) && (Z.land (default 0 (have !! id)) want =? want)
  then <[id := true]> decisions else decisions.

(** The first loop of [canDocuments]: the distinct ids in order, all undecided. *)
Definition dedup_step (acc : gmap Z bool * list Z) (id : Z) : gmap Z bool * list Z :=
  match acc.1 !! id with
  | Some _ => acc
  | None => (<[id := false]> acc.1, acc.2 ++ [id])
  end.

Definition canDocuments (d : db) (p : Principal) (ids : list Z) (want : Z) : gmap Z bool :=
  let '(decisions, unique) := foldl dedup_step (∅, []) ids in
  match unique with
  | [] => decisions
  | _ =>
      let batchableWant := (want =? PermView) || (want =? PermChange) || (want =? PermDelete) in
      if is_demo p || negb batchableWant then
        foldl (fun decisions id =>
                 if is_ok (can d p KindDocument id want) then <[id := true]> decisions else decisions)
              decisions unique
      else if UserID p =? 0 then decisions
      else
        let '(decisions, have) := foldl (batch_row p) (decisions, ∅) (batch_rows d p unique) in
        foldl (batch_final want have) decisions unique
  end.

(** The groups of a user, as handlers load them into the principal. *)
Definition loadGroups (d : db) (userID : Z) : list Z :=
  if userID =? 0 then []
  else (fun x => x.1.1) <$> filter (fun x => x.1.2 = userID) (map_to_list (group_members d)).

(** * The store *)

(** [Grant], the projected row. *)
Record Grant_row : Type := MkGrant {
  gr_ID : Z; ObjectKind : string; ObjectID : Z; PrincipalKind : string; PrincipalID : Z;
  PermBits : Z; gr_CreatedAt : Z; CreatedBy : Z;
}.

Definition rowExists {A} (m : gmap Z A) (id : Z) : bool := bool_decide (is_Some (m !! id)).

(** Group names are unique; [except] is the row being written. *)
Definition name_taken (d : db) (except : Z) (n : string) : bool :=
  exists_row (fun id g => negb (id =? except) && bool_decide (g_name g = n)) (groups d).

Definition GetGroup (d : db) (id : Z) : result authz_error (Z * Group) :=
  match groups d !! id with Some g => Ok (id, g) | None => Err ErrNoRows end.

Definition CreateGroup (now : Z) (name description : string) (d : db)
    : result authz_error ((Z * Group) * db) :=
  fail_if bool_decide (name = "") with ErrMessage "authz: group name required" in
  let id := next_rowid (groups d) in
  fail_if name_taken d id name with ErrConstraint "groups.name" in
  let d := with_groups <[id := MkGroup name description now now]> d in
  g ← GetGroup d id; mret (g, d).

Definition UpdateGroup (now id : Z) (name description : string) (d : db)
    : result authz_error ((Z * Group) * db) :=
  fail_if bool_decide (name = "") with ErrMessage "authz: group name required" in
  match groups d !! id with
  | None => Err ErrNoRows
  | Some old =>
      fail_if name_taken d id name with ErrConstraint "groups.name" in
      let d := with_groups <[id := MkGroup name description (g_created_at old) now]> d in
      g ← GetGroup d id; mret (g, d)
  end.

Definition group_grants (d : db) (id : Z) : nat :=
  length (filter (fun x => let '(_, _, principal_kind, principal_id) := x.1 in
      bool_decide (principal_kind = "group") && (principal_id =? id) = true) (map_to_list (object_acls d))).

(** Deleting the group's row deletes its memberships (ON DELETE CASCADE). *)
Definition DeleteGroup (id : Z) (d : db) : result authz_error db :=
  let grants := group_grants d id in
  fail_if (0 <? grants)%nat with ErrActiveGrants grants in
  require rowExists (groups d) id else ErrNoRows in
  Ok (with_members (filter (fun x => x.1.1 <> id)) (with_groups (delete id) d)).

Definition AddMember (now groupID userID : Z) (d : db) : result authz_error db :=
  fail_if (groupID <=? 0) || (userID <=? 0) with ErrPrincipalNotFound in
  require rowExists (groups d) groupID else ErrPrincipalNotFound in
  require rowExists (users (dir d)) userID else ErrPrincipalNotFound in
  Ok (match group_members d !! (groupID, userID) with
      | Some _ => d
      | None => with_members <[(groupID, userID) := now]> d
      end).

Definition RemoveMember (groupID userID : Z) (d : db) : result authz_error db :=
  match group_members d !! (groupID, userID) with
  | None => Err ErrNoRows
  | Some _ => Ok (with_members (delete (groupID, userID)) d)
  end.

Definition ValidatePermBits (bits : Z) : result authz_error unit :=
  if (bits =? PermView) || (bits =? Z.lor PermView PermChange) || (bits =? PermAll)
  then Ok tt else Err ErrInvalidPermission.

Definition next_acl_id (m : gmap acl_key acl) : Z :=
  1 + foldr (fun x acc => Z.max (acl_id x.2) acc) 0 (map_to_list m).

Definition getGrant (d : db) (key : acl_key) : result authz_error Grant_row :=
  let '(objectKind, objectID, principalKind, principalID) := key in
  match object_acls d !! key with
  | Some a => Ok (MkGrant (acl_id a) objectKind objectID principalKind principalID (perm_bits a)
                    (acl_created_at a) (created_by a))
  | None => Err ErrNoRows
  end.

Definition grant_key (g : Grant_row) : acl_key := (ObjectKind g, ObjectID g, PrincipalKind g, PrincipalID g).

(** [INSERT ... ON CONFLICT DO UPDATE SET perm_bits]: a new row's [created_by] must be a
    user. *)
Definition upsert_acl (now actorUserID : Z) (key : acl_key) (bits : Z) (d : db) : result authz_error db :=
  match object_acls d !! key with
  | Some a => Ok (with_acls <[key := Acl (acl_id a) bits (acl_created_at a) (created_by a)]> d)
  | None =>
      require rowExists (users (dir d)) actorUserID else ErrConstraint "created_by" in
      Ok (with_acls <[key := Acl (next_acl_id (object_acls d)) bits now actorUserID]> d)
  end.

Definition Grant (now actorUserID : Z) (g : Grant_row) (d : db) : result authz_error (Grant_row * db) :=
  fail_if bool_decide (ObjectKind g = "") || (ObjectID g =? 0) || bool_decide (PrincipalKind g = "")
          || (PrincipalID g =? 0) with ErrMessage "authz: object + principal required for grant" in
  _ ← ValidatePermBits (PermBits g);
  require bool_decide (is_Some (objectTableFor (ObjectKind g))) else ErrObjectNotFound in
  fail_if negb (bool_decide (PrincipalKind g = "user")) && negb (bool_decide (PrincipalKind g = "group"))
    with ErrPrincipalNotFound in
  match ObjectSystemID d (ObjectKind g) (ObjectID g) with
  | Err _ => Err ErrObjectNotFound
  | Ok systemID =>
      fail_if negb (bool_decide (PrincipalKind g = "group")) && negb (CanEnter (dir d) (PrincipalID g) systemID)
        with ErrPrincipalNotFound in
      require (if bool_decide (PrincipalKind g = "group") then rowExists (groups d) (PrincipalID g)
               else rowExists (users (dir d)) (PrincipalID g)) else ErrPrincipalNotFound in
      d ← upsert_acl now actorUserID (grant_key g) (PermBits g) d;
      r ← getGrant d (grant_key g);
      mret (r, d)
  end.

Definition objectExists (d : db) (kind : string) (id : Z) : bool :=
  match objectTableFor kind with
  | None => false
  | Some table => (0 <? id) && bool_decide (is_Some (system_of d table id))
  end.

Definition Revoke (objectKind : string) (objectID : Z) (principalKind : string) (principalID : Z) (d : db)
    : result authz_error db :=
  fail_if negb (bool_decide (is_Some (objectTableFor objectKind))) || (objectID <=? 0) with ErrObjectNotFound in
  fail_if (negb (bool_decide (principalKind = "user")) && negb (bool_decide (principalKind = "group")))
          || (principalID <=? 0) with ErrPrincipalNotFound in
  require objectExists d objectKind objectID else ErrObjectNotFound in
  require (if bool_decide (principalKind = "group") then rowExists (groups d) principalID
           else rowExists (users (dir d)) principalID) else ErrPrincipalNotFound in
  Ok (with_acls (delete (objectKind, objectID, principalKind, principalID)) d).

(** Who may inspect or change the grants of an object. *)
Definition canManage (d : db) (actor : Principal) (kind : string) (objectID : Z) : result authz_error bool :=
  if negb (objectBoundary d actor kind objectID) then Err ErrObjectNotFound
  else if bool_decide (Role actor = "admin") then Ok true
  else
    match ownerColumnFor kind with
    | None => Ok false
    | Some (col, table) =>
        if UserID actor <=? 0 then Ok false
        else owner ← select_owner d col table objectID; mret (owner =? UserID actor)
    end.

(** * Capabilities *)
Definition KnownCapabilities : list string :=
  ["archive_chat"; "archive_intelligence"; "mailboxes"; "share_links"; "share_views"].

Definition cap_set : Type := gset string.
Definition Has (s : cap_set) (c : string) : bool := bool_decide (c ∈ s).
Definition Add (s : cap_set) (c : string) : cap_set := {[c]} ∪ s.
Definition string_le (a b : string) : Prop := String.leb a b = true.
#[export] Instance string_le_dec a b : Decision (string_le a b).
Proof. unfold string_le. apply _. Defined.
(** [slices.Sort] of the elements. *)
Definition Slice (s : cap_set) : list string := merge_sort string_le (elements s).
Definition Diff (s prior : cap_set) : cap_set * cap_set :=
  (foldl (fun added c => if Has prior c then added else Add added c) ∅ (elements s),
   foldl (fun removed c => if Has s c then removed else Add removed c) ∅ (elements prior)).
Fixpoint parse_wire (out : cap_set) (raw : list string) : result string cap_set :=
  match raw with
  | [] => Ok out
  | r :: raw' =>
      require existsb (String.eqb r) KnownCapabilities else "unknown capability: " +:+ r in
      parse_wire (Add out r) raw'
  end.
Definition ParseWire (raw : list string) : result string cap_set := parse_wire ∅ raw.
