(* ===== verification/AuthzFacts.v ===== *)
(** What the decision layer guarantees: the boundary no role or grant crosses, the
    agreement of the batched decisions and of the listing predicates with [can], the
    balance of the predicates' placeholders, delegation, and the effect of the store's
    operations on grants and groups. *)
From S2P Require Import Prelude GoStd Sqlite Systems Authz.

(** * Lemmas *)

(** ** Bits *)
Lemma lor_fold_testbit l a i :
  Z.testbit (foldl Z.lor a l) i = Z.testbit a i || existsb (fun b => Z.testbit b i) l.
Proof.
  revert a. induction l as [|b l IH]; intros a; cbn; [by rewrite orb_false_r|].
  by rewrite IH, Z.lor_spec, orb_assoc.
Qed.

Lemma land_sub_spec a want :
  (Z.land a want =? want) = true <->
  forall i, 0 <= i -> Z.testbit want i = true -> Z.testbit a i = true.
Proof.
  rewrite Z.eqb_eq. split.
  - intros H i _ Hi. rewrite <- H, Z.land_spec in Hi. by apply andb_true_iff in Hi as [].
  - intros H. apply Z.bits_inj'. intros i Hi. rewrite Z.land_spec.
    destruct (Z.testbit want i) eqn:E; [|by rewrite andb_false_r]. by rewrite H.
Qed.

Lemma land_1 b : (Z.land b 1 =? 1) = Z.testbit b 0.
Proof.
  apply eq_true_iff_eq. rewrite land_sub_spec. split.
  - intros H. apply H; [lia|reflexivity].
  - intros H i Hi Hw. destruct (decide (i = 0)) as [->|Hne]; [done|].
    rewrite (Z.bits_above_log2 1 i) in Hw by (cbn; lia). discriminate Hw.
Qed.

Lemma and_cong (A B C D : Prop) : (A <-> C) -> (B <-> D) -> (A /\ B <-> C /\ D).
Proof. tauto. Qed.

(** ** The boundary *)
Definition boundary_ok (d : db) (p : Principal) (s : Z) : Prop :=
  (SystemID p = 0 \/ SystemID p = s) /\ (TokenSystemID p = 0 \/ TokenSystemID p = s) /\
  (if is_demo p then s = 1 /\ original_unnamed (dir d) = true
   else exists u, users (dir d) !! UserID p = Some u /\ u_disabled u = false /\
     (u_role u = "admin" \/ (s, UserID p) ∈ jd_system_members (dir d))).

Lemma may_enter_spec d userID s :
  may_enter d userID s = true <->
  exists u, users d !! userID = Some u /\ u_disabled u = false /\
    (u_role u = "admin" \/ (s, userID) ∈ jd_system_members d).
Proof.
  unfold may_enter. split.
  - destruct (users d !! userID) as [u|]; [|done]. intros H. exists u. bool_cases; auto.
  - intros (u & -> & -> & H). cbn [negb andb]. apply orb_true_iff.
    rewrite !bool_decide_eq_true. exact H.
Qed.

Lemma holds_boundary d p r :
  holds d r (systemBoundaryWhereAlias p) = true <-> boundary_ok d p (row_system r).
Proof.
  unfold systemBoundaryWhereAlias, boundary_ok. cbn [holds]. rewrite !forallb_app, !andb_true_iff.
  apply and_cong; [|apply and_cong].
  - destruct (Z.eqb_spec (SystemID p) 0); cbn; rewrite ?andb_true_r, ?Z.eqb_eq; intuition lia.
  - destruct (Z.eqb_spec (TokenSystemID p) 0); cbn; rewrite ?andb_true_r, ?Z.eqb_eq; intuition lia.
  - destruct (is_demo p); cbn; rewrite andb_true_r; [|apply may_enter_spec].
    by rewrite andb_true_iff, Z.eqb_eq.
Qed.

Lemma objectBoundary_spec d p kind id :
  objectBoundary d p kind id = true <->
  exists s, ObjectSystemID d kind id = Ok s /\ boundary_ok d p s.
Proof.
  unfold objectBoundary, ObjectSystemID. destruct (objectTableFor kind) as [t|].
  - destruct (system_of d t id) as [s|].
    + rewrite holds_boundary. cbn. split; [eauto|]. by intros (s' & [= <-] & H).
    + split; [done|]. by intros (s' & [=] & _).
  - split; [done|]. by intros (s' & [=] & _).
Qed.

Lemma ObjectSystemID_document d id s :
  ObjectSystemID d KindDocument id = Ok s <-> exists r, documents d !! id = Some r /\ d_system r = s.
Proof.
  unfold ObjectSystemID. change (objectTableFor KindDocument) with (Some "documents").
  unfold system_of. rewrite bool_decide_true by done.
  destruct (documents d !! id) as [r|]; cbn; split.
  - intros [= <-]. eauto.
  - by intros (r' & [= <-] & ->).
  - done.
  - by intros (r' & [=] & _).
Qed.

Lemma document_boundary d p id r :
  documents d !! id = Some r ->
  objectBoundary d p KindDocument id
  = holds d (Row id (d_system r) (Some (d_owner r))) (systemBoundaryWhereAlias p).
Proof.
  intros Hr. apply eq_true_iff_eq. rewrite objectBoundary_spec, holds_boundary. cbn [row_system].
  split.
  - intros (s & Hs & Hb). apply ObjectSystemID_document in Hs as (r' & Hr' & <-). by rewrite Hr in Hr'; injection Hr' as <-.
  - intros Hb. exists (d_system r). split; [|done]. apply ObjectSystemID_document. eauto.
Qed.

Lemma document_boundary_None d p id :
  documents d !! id = None -> objectBoundary d p KindDocument id = false.
Proof.
  intros Hr. destruct (objectBoundary _ _ _ _) eqn:E; [|done].
  apply objectBoundary_spec in E as (s & Hs & _). apply ObjectSystemID_document in Hs as (r & Hr' & _).
  congruence.
Qed.

Lemma loadOwner_document d id :
  loadOwner d KindDocument id = d_owner <$> documents d !! id.
Proof.
  unfold loadOwner, select_owner. change (ownerColumnFor KindDocument) with (Some ("owner_id", "documents")).
  cbn iota. rewrite bool_decide_true by done. by destruct (documents d !! id).
Qed.

(** ** Grants *)
Lemma acl_rows_bit d kind id u gs i :
  existsb (fun b => Z.testbit b i) (acl_rows d kind id u gs) = true <->
  exists key a, object_acls d !! key = Some a /\ on_object kind id key = true /\
    names u gs key = true /\ Z.testbit (perm_bits a) i = true.
Proof.
  rewrite existsb_exists. unfold acl_rows. split.
  - intros (b & Hb & Hi). apply list_elem_of_In, list_elem_of_fmap in Hb as ((key, a) & -> & Hx).
    apply list_elem_of_filter in Hx as [Hn Hx]. apply elem_of_map_to_list in Hx. cbn in *.
    apply andb_true_iff in Hn as []. eauto 6.
  - intros (key & a & Hl & Ho & Hn & Hi). exists (perm_bits a). split; [|done].
    apply list_elem_of_In, list_elem_of_fmap. exists (key, a). split; [done|].
    apply list_elem_of_filter. cbn. rewrite Ho, Hn. split; [done|]. by apply elem_of_map_to_list.
Qed.

Lemma effectivePerms_bit d kind id p i :
  Z.testbit (effectivePerms d kind id p) i = true <->
  exists key a, object_acls d !! key = Some a /\ on_object kind id key = true /\
    names (UserID p) (Groups p) key = true /\ Z.testbit (perm_bits a) i = true.
Proof.
  unfold effectivePerms. rewrite lor_fold_testbit, Z.testbit_0_l, orb_false_l. apply acl_rows_bit.
Qed.

(** [can] for an ordinary actor. *)
Lemma can_member d p kind id want :
  is_demo p = false ->
  is_ok (can d p kind id want) =
  objectBoundary d p kind id && negb (UserID p =? 0)
  && (bool_decide (Role p = "admin") || bool_decide (loadOwner d kind id = Some (UserID p))
      || (Z.land (effectivePerms d kind id p) want =? want)).
Proof.
  intros Hd. unfold can. rewrite Hd. unfold is_demo in Hd. apply orb_false_iff in Hd as [Ha _]. rewrite Ha.
  cbn [andb]. destruct (objectBoundary _ _ _ _); [|done]. cbn [negb andb].
  destruct (UserID p =? 0); [done|]. cbn [negb andb].
  destruct (bool_decide (Role p = "admin")); [done|].
  destruct (bool_decide (loadOwner _ _ _ = _)); [done|]. cbn [orb].
  by destruct (Z.land _ _ =? _).
Qed.

(** ** The batch *)
Lemma dedup_spec ids m u :
  (forall id, m !! id = if bool_decide (id ∈ u) then Some false else None) ->
  let r := foldl dedup_step (m, u) ids in
  (forall id, r.1 !! id = if bool_decide (id ∈ r.2) then Some false else None) /\
  (forall id, id ∈ r.2 <-> id ∈ u \/ id ∈ ids).
Proof.
  revert m u. induction ids as [|x ids IH]; intros m u Hm; cbn zeta.
  - split; [exact Hm|]. intros id. rewrite elem_of_nil. cbn. tauto.
  - cbn [foldl]. destruct (m !! x) as [v|] eqn:E.
    + replace (dedup_step (m, u) x) with (m, u) by (unfold dedup_step; cbn [fst]; by rewrite E).
      destruct (IH m u Hm) as [I1 I2]. split; [exact I1|]. intros id. rewrite I2, elem_of_cons.
      rewrite Hm in E. destruct (bool_decide (x ∈ u)) eqn:Eu; [|done]. bool_simpl.
      split; [tauto|]. intros [H|[->|H]]; auto.
    + replace (dedup_step (m, u) x) with (<[x := false]> m, u ++ [x])
        by (unfold dedup_step; cbn [fst snd]; by rewrite E).
      destruct (IH (<[x := false]> m) (u ++ [x])) as [I1 I2].
      * intros id. destruct (decide (x = id)) as [<-|Hne].
        -- rewrite lookup_insert_eq, bool_decide_true; [done|]. apply elem_of_app. right. by apply list_elem_of_singleton.
        -- rewrite lookup_insert_ne by done. rewrite Hm.
           rewrite (bool_decide_ext (id ∈ u ++ [x]) (id ∈ u)); [done|].
           rewrite elem_of_app, list_elem_of_singleton. intuition congruence.
      * split; [exact I1|]. intros id. rewrite I2, elem_of_app, list_elem_of_singleton, elem_of_cons. tauto.
Qed.

Lemma fold_decide (f : Z -> bool) u (m : gmap Z bool) id :
  foldl (fun m x => if f x then <[x := true]> m else m) m u !! id
  = if bool_decide (id ∈ u) && f id then Some true else m !! id.
Proof.
  revert m. induction u as [|x u IH]; intros m; cbn [foldl]; [by rewrite bool_decide_false by apply not_elem_of_nil|].
  rewrite IH. destruct (decide (id = x)) as [->|Hne].
  - rewrite (bool_decide_true (x ∈ x :: u)) by apply list_elem_of_here. cbn [andb].
    destruct (f x); [|by rewrite andb_false_r]. rewrite andb_true_r, lookup_insert_eq. by destruct (bool_decide _).
  - rewrite (bool_decide_ext (id ∈ x :: u) (id ∈ u)) by (rewrite elem_of_cons; tauto).
    destruct (_ && _); [done|]. destruct (f x); [by rewrite lookup_insert_ne by done|done].
Qed.

Lemma fold_batch_final want have u D id :
  foldl (batch_final want have) D u !! id
  = if bool_decide (id ∈ u) && (Z.land (default 0 (have !! id)) want =? want) then Some true else D !! id.
Proof.
  revert D. induction u as [|x u IH]; intros D; cbn [foldl]; [by rewrite bool_decide_false by apply not_elem_of_nil|].
  rewrite IH. unfold batch_final. destruct (decide (id = x)) as [->|Hne].
  - rewrite (bool_decide_true (x ∈ x :: u)) by apply list_elem_of_here. cbn [andb].
    destruct (Z.land _ _ =? _); [|by rewrite !andb_false_r]. rewrite !andb_true_r.
    destruct (D !! x) as [[]|] eqn:E; simpl; rewrite ?lookup_insert_eq, ?E; by destruct (bool_decide _).
  - rewrite (bool_decide_ext (id ∈ x :: u) (id ∈ u)) by (rewrite elem_of_cons; tauto).
    destruct (bool_decide _ && _); [done|]. destruct (_ && _); [by rewrite lookup_insert_ne by done|done].
Qed.

Lemma fold_batch_rows p rows D H id :
  let acc := foldl (batch_row p) (D, H) rows in
  acc.1 !! id = (if existsb (fun r => (r.1.1 =? id) && (bool_decide (Role p = "admin") || (r.1.2 =? UserID p))) rows
                 then Some true else D !! id) /\
  forall i, Z.testbit (default 0 (acc.2 !! id)) i
    = Z.testbit (default 0 (H !! id)) i || existsb (fun r => (r.1.1 =? id) && Z.testbit r.2 i) rows.
Proof.
  revert D H. induction rows as [|[[x o] b] rows IH]; intros D H; cbn zeta; cbn [foldl existsb].
  - split; [done|]. intros i. by rewrite orb_false_r.
  - cbn [batch_row]. destruct (IH (if bool_decide (Role p = "admin") || (o =? UserID p) then <[x := true]> D else D)
      (<[x := Z.lor (default 0 (H !! x)) b]> H)) as [I1 I2]. split.
    + rewrite I1. cbn [fst snd]. destruct (existsb _ rows); [by rewrite orb_true_r|]. rewrite orb_false_r.
      destruct (Z.eqb_spec x id) as [->|Hne]; cbn [andb].
      * destruct (_ || _); [by rewrite lookup_insert_eq|done].
      * destruct (_ || _); [by rewrite lookup_insert_ne by done|done].
    + intros i. rewrite I2. cbn [fst snd]. destruct (Z.eqb_spec x id) as [->|Hne]; cbn [andb orb].
      * rewrite lookup_insert_eq. simpl. by rewrite Z.lor_spec, orb_assoc.
      * by rewrite lookup_insert_ne by done.
Qed.

(** The rows of one document in the batch query. *)
Definition in_batch (d : db) (p : Principal) (id : Z) (r : document) : Prop :=
  documents d !! id = Some r /\ objectBoundary d p KindDocument id = true.

Lemma batch_rows_spec d p u id f :
  existsb (fun r => (r.1.1 =? id) && f r.1.2 r.2) (batch_rows d p u) = true <->
  id ∈ u /\ exists r, in_batch d p id r /\
    exists b, b ∈ (match acl_rows d KindDocument id (UserID p) (Groups p) with [] => [0] | l => l end) /\
      f (d_owner r) b = true.
Proof.
  rewrite existsb_exists. unfold batch_rows. split.
  - intros ([[x o] b] & Hin & Hf). cbn in Hf. apply andb_true_iff in Hf as [->%Z.eqb_eq Hf].
    apply in_concat in Hin as (l & Hl & Hb). apply list_elem_of_In, list_elem_of_fmap in Hl as (y & -> & Hy).
    destruct (documents d !! y) as [r|] eqn:Er; [|done]. destruct (holds _ _ _) eqn:Eh; [|done].
    rewrite <- document_boundary in Eh by done.
    assert (Hrow : y = id /\ d_owner r = o /\
      b ∈ (match acl_rows d KindDocument y (UserID p) (Groups p) with [] => [0] | l => l end)).
    { destruct (acl_rows _ _ _ _ _) as [|b0 l0].
      - destruct Hb as [[= <- <- <-]|[]]. split_and!; [done|done|]. by apply list_elem_of_singleton.
      - apply list_elem_of_In, list_elem_of_fmap in Hb as (b' & [= <- <- <-] & Hb). done. }
    destruct Hrow as (-> & <- & Hb'). split; [done|]. exists r. split; [by split|]. eauto.
  - intros (Hu & r & (Er & Eh) & b & Hb & Hf). exists (id, d_owner r, b). cbn [fst snd]. rewrite Z.eqb_refl. split; [|done].
    apply in_concat. rewrite (document_boundary _ _ _ _ Er) in Eh.
    eexists. split; [apply list_elem_of_In, list_elem_of_fmap; exists id; split; [reflexivity|done]|].
    rewrite Er, Eh. destruct (acl_rows _ _ _ _ _) as [|b0 l0].
    + apply list_elem_of_singleton in Hb as ->. by left.
    + apply list_elem_of_In, list_elem_of_fmap. eauto.
Qed.

Lemma batch_bits d p u id i :
  existsb (fun r => (r.1.1 =? id) && Z.testbit r.2 i) (batch_rows d p u) = true <->
  id ∈ u /\ objectBoundary d p KindDocument id = true /\ Z.testbit (effectivePerms d KindDocument id p) i = true.
Proof.
  rewrite (batch_rows_spec d p u id (fun _ b => Z.testbit b i)).
  unfold effectivePerms. rewrite lor_fold_testbit, Z.testbit_0_l, orb_false_l, existsb_exists. split.
  - intros (Hu & r & (Hr & Hb) & b & Hin & Hi). split_and!; [done|done|].
    destruct (acl_rows _ _ _ _ _) as [|b0 l0].
    + apply list_elem_of_singleton in Hin as ->. by rewrite Z.testbit_0_l in Hi.
    + exists b. split; [by apply list_elem_of_In|done].
  - intros (Hu & Hb & b & Hin & Hi). split; [done|].
    destruct (documents d !! id) as [r|] eqn:Er; [|by rewrite document_boundary_None in Hb].
    exists r. split; [by split|]. exists b. split; [|done].
    destruct (acl_rows _ _ _ _ _); [done|]. by apply list_elem_of_In.
Qed.

Lemma batch_owner d p u id :
  existsb (fun r => (r.1.1 =? id) && (bool_decide (Role p = "admin") || (r.1.2 =? UserID p))) (batch_rows d p u) = true <->
  id ∈ u /\ objectBoundary d p KindDocument id = true /\
  (bool_decide (Role p = "admin") || bool_decide (loadOwner d KindDocument id = Some (UserID p)) = true).
Proof.
  rewrite (batch_rows_spec d p u id (fun o _ => bool_decide (Role p = "admin") || (o =? UserID p))).
  rewrite loadOwner_document. split.
  - intros (Hu & r & (Hr & Hb) & b & _ & Hf). split_and!; [done|done|]. rewrite Hr. cbn.
    bool_cases; [by rewrite bool_decide_true by done|]. subst. by rewrite (bool_decide_true (Some _ = _)), orb_true_r by congruence.
  - intros (Hu & Hb & Hf). split; [done|].
    destruct (documents d !! id) as [r|] eqn:Er; [|by rewrite document_boundary_None in Hb].
    exists r. split; [by split|]. cbn in Hf.
    assert (Hg : bool_decide (Role p = "admin") || (d_owner r =? UserID p) = true).
    { apply orb_true_iff in Hf as [->|Hf]; [done|]. bool_simpl. injection Hf as ->. by rewrite Z.eqb_refl, orb_true_r. }
    destruct (acl_rows _ _ _ _ _) as [|b0 l0]; [exists 0|exists b0]; (split; [apply list_elem_of_here|done]).
Qed.

Lemma canDocuments_member d p u m id want :
  is_demo p = false -> UserID p <> 0 -> id ∈ u -> m !! id = Some false ->
  let acc := foldl (batch_row p) (m, ∅) (batch_rows d p u) in
  want <> 0 -> 0 <= want ->
  foldl (batch_final want acc.2) acc.1 u !! id = Some (is_ok (can d p KindDocument id want)).
Proof.
  intros Hd Hu Hid Hm acc Hw Hpos. destruct (fold_batch_rows p (batch_rows d p u) m ∅ id) as [B1 B2].
  fold acc in B1, B2. rewrite fold_batch_final, bool_decide_true by done. cbn [andb].
  rewrite can_member by done. rewrite (proj2 (Z.eqb_neq _ _) Hu). cbn [negb]. rewrite andb_true_r.
  assert (Hbits : (Z.land (default 0 (acc.2 !! id)) want =? want) =
    objectBoundary d p KindDocument id && (Z.land (effectivePerms d KindDocument id p) want =? want)).
  { apply eq_true_iff_eq. rewrite andb_true_iff, !land_sub_spec. split.
    - intros H. assert (Hb : exists i, 0 <= i /\ Z.testbit want i = true).
      { exists (Z.log2 want). split; [apply Z.log2_nonneg|]. apply Z.bit_log2. lia. }
      destruct Hb as (i0 & Hi0 & Hw0).
      assert (Hall : forall i, 0 <= i -> Z.testbit want i = true -> objectBoundary d p KindDocument id = true /\
        Z.testbit (effectivePerms d KindDocument id p) i = true).
      { intros i Hi Hwi. specialize (H i Hi Hwi). rewrite B2, lookup_empty in H. simpl in H.
        rewrite Z.testbit_0_l, orb_false_l in H. by apply batch_bits in H as (_ & H1 & H2). }
      split; [by apply (Hall i0)|]. intros i Hi Hwi. by apply Hall.
    - intros [Hb H] i Hi Hwi. rewrite B2, lookup_empty. simpl. rewrite Z.testbit_0_l, orb_false_l.
      apply batch_bits. auto. }
  rewrite Hbits, B1, Hm. destruct (existsb _ _) eqn:Eo.
  - apply batch_owner in Eo as (_ & -> & ->). destruct (Z.land (effectivePerms _ _ _ _) _ =? _); reflexivity.
  - assert (Ho : objectBoundary d p KindDocument id && (bool_decide (Role p = "admin")
      || bool_decide (loadOwner d KindDocument id = Some (UserID p))) = false).
    { apply not_true_is_false. intros [H1 H2]%andb_true_iff.
      rewrite (proj2 (batch_owner d p u id)) in Eo by auto. discriminate Eo. }
    destruct (objectBoundary _ _ _ _); cbn [andb] in *; [|done]. rewrite Ho. cbn [orb].
    destruct (Z.land (effectivePerms _ _ _ _) _ =? _); reflexivity.
Qed.

(** ** Listings *)
Lemma is_demo_system p s : is_demo (set_SystemID s p) = is_demo p.
Proof. done. Qed.

Lemma granted_view d p id :
  exists_row (fun key a => on_object "document" id key && (Z.land (perm_bits a) 1 =? 1)
                           && names (UserID p) (Groups p) key) (object_acls d)
  = (Z.land (effectivePerms d KindDocument id p) PermView =? PermView).
Proof.
  apply eq_true_iff_eq. unfold PermView. rewrite land_1, effectivePerms_bit, exists_row_spec.
  unfold KindDocument.
  split; intros (key & a & H); exists key, a.
  - destruct H as [Hl H]. rewrite land_1 in H. bool_simpl. auto.
  - destruct H as (Hl & H1 & H2 & H3). rewrite land_1, H1, H2, H3. auto.
Qed.

(** The listing predicate of an ordinary actor is [can] for viewing. *)
Lemma visibility_member d p id r :
  documents d !! id = Some r -> is_demo p = false -> 0 <= UserID p ->
  holds d (Row id (d_system r) (Some (d_owner r))) (docVisibilityWhereAlias p)
  = is_ok (can d p KindDocument id PermView).
Proof.
  intros Hr Hd Hu. rewrite can_member, (document_boundary _ _ _ _ Hr) by done.
  unfold docVisibilityWhereAlias. rewrite Hd.
  destruct (Z.leb_spec (UserID p) 0) as [Hle|Hgt].
  { rewrite (proj2 (Z.eqb_eq (UserID p) 0)) by lia. cbn [negb]. by rewrite andb_false_r. }
  rewrite (proj2 (Z.eqb_neq (UserID p) 0)) by lia. cbn [negb]. rewrite andb_true_r.
  destruct (bool_decide (Role p = "admin")); [by rewrite andb_true_r|]. cbn [orb].
  rewrite loadOwner_document, Hr, <- granted_view. reflexivity.
Qed.

(** For a demo visitor the listing shows no more than [can] allows; an anonymous one
    sees all of it. *)
Lemma visibility_demo d p id r :
  documents d !! id = Some r -> is_demo p = true -> (Kind p = KindDemoAnon -> UserID p = 0) ->
  let visible := holds d (Row id (d_system r) (Some (d_owner r))) (docVisibilityWhereAlias p) in
  (visible = true -> is_ok (can d p KindDocument id PermView) = true) /\
  (Kind p = KindDemoAnon -> is_ok (can d p KindDocument id PermView) = visible).
Proof.
  intros Hr Hd Hanon. cbn zeta. unfold docVisibilityWhereAlias, can. rewrite Hd.
  rewrite (document_boundary _ _ _ _ Hr). change (PermView =? PermView) with true.
  destruct (holds d _ (systemBoundaryWhereAlias p)) eqn:Hb; cbn [negb];
    [|by change (holds d ?r (AndThen ?b ?c)) with (holds d r b && holds d r c); rewrite Hb].
  assert (Hv : holds d (Row id (d_system r) (Some (d_owner r)))
      (AndThen (systemBoundaryWhereAlias p) (DemoCorpusVisibilityWhereAlias (UserID p)))
    = (negb (UserID p =? 0) && (d_owner r =? UserID p)) || corpus_owner (dir d) (d_owner r)).
  { change (holds d ?r (AndThen ?b ?c)) with (holds d r b && holds d r c). rewrite Hb.
    unfold DemoCorpusVisibilityWhereAlias. by destruct (UserID p =? 0). }
  rewrite Hv. clear Hv Hb. unfold demoObjectVisible. rewrite loadOwner_document, Hr.
  change (ownerColumnFor KindDocument) with (Some ("owner_id", "documents")).
  change (d_owner <$> Some r) with (Some (d_owner r)). cbv iota beta.
  destruct (bool_decide (Kind p = KindDemoAnon)) eqn:Ha; bool_simpl.
  - rewrite (Hanon Ha), Z.eqb_refl, Ha. rewrite (bool_decide_false (KindDemoAnon = KindDemoScratch)) by done.
    cbn [negb andb orb]. by destruct (corpus_owner _ _).
  - split; [|done]. unfold is_demo in Hd. rewrite (bool_decide_false _ Ha) in Hd. cbn [orb] in Hd. rewrite Hd.
    cbn [andb]. destruct (d_owner r =? UserID p); [done|]. rewrite andb_false_r. cbn [orb]. by intros ->.
Qed.

(** ** Placeholders *)
Fixpoint count_marks (s : string) : nat :=
  match s with
  | EmptyString => 0
  | String c s' => (if bool_decide (c = "?"%char) then 1 else 0) + count_marks s'
  end.

Lemma count_marks_app s t : count_marks (s +:+ t) = (count_marks s + count_marks t)%nat.
Proof. induction s as [|c s IH]; [done|]. rewrite append_cons. cbn. rewrite IH. lia. Qed.

Lemma count_placeholders n : count_marks (placeholders n) = n.
Proof.
  destruct n as [|n]; [done|]. unfold placeholders. rewrite count_marks_app. change (count_marks "?") with 1%nat.
  cbn [Nat.add]. f_equal. induction n as [|n IH]; [done|]. cbn [placeholders_loop].
  rewrite count_marks_app, IH. done.
Qed.

Lemma count_marks_join sep l :
  count_marks sep = 0%nat -> count_marks (join sep l) = sum_list (count_marks <$> l).
Proof.
  intros Hs. induction l as [|s l IH]; [done|]. destruct l as [|s' l]; [cbn; lia|].
  change (join sep (s :: s' :: l)) with (s +:+ sep +:+ join sep (s' :: l)).
  rewrite !count_marks_app, Hs, IH. done.
Qed.

Ltac count_literals :=
  repeat match goal with |- context [count_marks (String ?c ?t)] =>
    let n := eval vm_compute in (count_marks (String c t)) in
    change (count_marks (String c t)) with n end.

Definition balanced (alias : string) (c : clause) : Prop :=
  count_marks (render alias c).1 = length (render alias c).2.

Lemma balanced_leaf alias c :
  count_marks alias = 0%nat ->
  match c with AllOf _ | AndThen _ _ => False | _ => True end -> balanced alias c.
Proof.
  intros Ha Hc. unfold balanced. destruct c; try done; cbn [render fst snd length];
    unfold corpus_text, principals_text; rewrite ?count_marks_app, ?Ha; try reflexivity.
  rewrite !length_app, length_fmap. destruct groups as [|g gs]; [reflexivity|].
  rewrite ?count_marks_app, count_placeholders. count_literals. cbn [length]. lia.
Qed.

Lemma balanced_AllOf alias parts :
  (forall c, c ∈ parts -> balanced alias c) -> balanced alias (AllOf parts).
Proof.
  intros H. unfold balanced. cbn [render fst snd]. rewrite !count_marks_app, count_marks_join by done.
  change (count_marks "(") with 0%nat. change (count_marks ")") with 0%nat. rewrite Nat.add_0_r. cbn [Nat.add].
  induction parts as [|c parts IH]; [done|]. cbn. rewrite length_app. f_equal.
  - apply H. apply list_elem_of_here.
  - apply IH. intros c' Hc. apply H. by apply list_elem_of_further.
Qed.

Lemma balanced_AndThen alias b c : balanced alias b -> balanced alias c -> balanced alias (AndThen b c).
Proof.
  intros Hb Hc. unfold balanced. cbn [render fst snd]. rewrite !count_marks_app, length_app, Hb, Hc.
  change (count_marks " AND (") with 0%nat. change (count_marks ")") with 0%nat. lia.
Qed.

Lemma balanced_boundary alias p : count_marks alias = 0%nat -> balanced alias (systemBoundaryWhereAlias p).
Proof.
  intros Ha. apply balanced_AllOf. intros c Hc. apply balanced_leaf; [done|].
  apply elem_of_app in Hc as [Hc|Hc]; [|apply elem_of_app in Hc as [Hc|Hc]].
  - destruct (_ =? _); [by apply not_elem_of_nil in Hc|]. by apply list_elem_of_singleton in Hc as ->.
  - destruct (_ =? _); [by apply not_elem_of_nil in Hc|]. by apply list_elem_of_singleton in Hc as ->.
  - apply list_elem_of_singleton in Hc as ->. by destruct (is_demo p).
Qed.

(** * Properties: decisions *)

(** C2: no role, ownership, grant or demo exception crosses the boundary: whatever is
    allowed lies in a system the actor selected, the token's system, and, for accounts,
    a system the enabled account may enter; demo visitors stay in the unnamed original
    archive. Beyond the boundary an ordinary member needs ownership, or a grant for
    every requested bit. *)
Theorem can_boundary d p kind id want :
  can d p kind id want = Ok tt ->
  exists s, ObjectSystemID d kind id = Ok s /\ boundary_ok d p s /\
    (is_demo p = false -> UserID p <> 0) /\
    (is_demo p = false -> Role p <> "admin" -> loadOwner d kind id <> Some (UserID p) ->
       forall i, 0 <= i -> Z.testbit want i = true ->
         exists key a, object_acls d !! key = Some a /\ on_object kind id key = true /\
           names (UserID p) (Groups p) key = true /\ Z.testbit (perm_bits a) i = true).
Proof.
  intros H. assert (Hb : objectBoundary d p kind id = true).
  { unfold can in H. by destruct (objectBoundary d p kind id). }
  pose proof Hb as (s & Hs & Hok)%objectBoundary_spec. exists s. split; [done|]. split; [done|].
  assert (Hm : is_demo p = false -> UserID p <> 0 /\ (bool_decide (Role p = "admin")
    || bool_decide (loadOwner d kind id = Some (UserID p)) || (Z.land (effectivePerms d kind id p) want =? want)) = true).
  { intros Hd. pose proof (can_member d p kind id want Hd) as Hc. rewrite H, Hb in Hc. cbn [is_ok andb] in Hc.
    symmetry in Hc. apply andb_true_iff in Hc as [Hc1 Hc2]. bool_simpl. auto. }
  split; [intros Hd; by apply Hm|]. intros Hd Hrole Hown i Hi Hw. destruct (Hm Hd) as [_ Hc].
  rewrite (bool_decide_false _ Hrole), (bool_decide_false _ Hown) in Hc. cbn [orb] in Hc.
  apply effectivePerms_bit. rewrite land_sub_spec in Hc. by apply Hc.
Qed.

(** The batched decision, id by id. *)
Lemma canDocuments_decides d p ids want id :
  canDocuments d p ids want !! id =
  if bool_decide (id ∈ ids) then Some (is_ok (can d p KindDocument id want)) else None.
Proof.
  unfold canDocuments. destruct (dedup_spec ids ∅ []) as [D1 D2].
  { intros i. rewrite bool_decide_false by apply not_elem_of_nil. apply lookup_empty. }
  destruct (foldl dedup_step (∅, []) ids) as [m u]. cbn [fst snd] in *.
  assert (Hiff : bool_decide (id ∈ ids) = bool_decide (id ∈ u)).
  { apply bool_decide_ext. rewrite D2, elem_of_nil. tauto. }
  rewrite Hiff. specialize (D1 id).
  destruct u as [|x u]. { rewrite D1. by rewrite bool_decide_false by apply not_elem_of_nil. }
  remember (x :: u) as l eqn:El. clear El x u.
  destruct (is_demo p || _) eqn:Eb.
  { rewrite (fold_decide (fun id => is_ok (can d p KindDocument id want))), D1.
    destruct (bool_decide (id ∈ l)); [|done]. cbn [andb]. by destruct (is_ok _). }
  apply orb_false_iff in Eb as [Hd Hw]. apply negb_false_iff in Hw.
  destruct (UserID p =? 0) eqn:Eu.
  { rewrite D1, can_member, Eu by done. cbn [negb]. rewrite andb_false_r. by destruct (bool_decide _). }
  bool_simpl. destruct (foldl (batch_row p) _ _) as [D H] eqn:Ef.
  destruct (bool_decide (id ∈ l)) eqn:Ein; bool_simpl.
  - pose proof (canDocuments_member d p l m id want Hd Eu Ein D1) as Hc. cbn zeta in Hc. rewrite Ef in Hc.
    apply Hc; unfold PermView, PermChange, PermDelete in Hw; bool_cases; lia.
  - rewrite fold_batch_final, bool_decide_false by done. cbn [andb].
    destruct (fold_batch_rows p (batch_rows d p l) m ∅ id) as [B1 _]. rewrite Ef in B1. cbn [fst] in B1.
    rewrite B1, D1. destruct (existsb _ _) eqn:Eo; [|done].
    apply batch_owner in Eo as (Hin & _). by destruct (Ein Hin).
Qed.

(** C26: the batched decision is the single one: for every list of document ids, actor and
    mask, [canDocuments] answers for exactly the listed ids, and for each what [can]
    answers. *)
Theorem canDocuments_can d p ids want id :
  canDocuments d p ids want !! id =
  if bool_decide (id ∈ ids) then Some (is_ok (can d p KindDocument id want)) else None.
Proof. apply canDocuments_decides. Qed.

(** C31: listings agree with decisions: the predicate of a selected system holds of a
    document exactly when the actor, addressing that system, may view the document; a
    demo scratch visitor is listed nothing it could not open. *)
Theorem visibility_can d p systemID id r :
  documents d !! id = Some r -> 0 <= UserID p -> (Kind p = KindDemoAnon -> UserID p = 0) ->
  let doc := Row id (d_system r) (Some (d_owner r)) in
  let opens q := is_ok (can d q KindDocument id PermView) in
  (holds d doc (DocVisibilityIntrinsicWhereAlias p) = true -> opens (set_SystemID 0 p) = true) /\
  (holds d doc (DocVisibilityWhereAlias p systemID) = true ->
     0 < systemID /\ d_system r = systemID /\ opens (set_SystemID systemID p) = true) /\
  (Kind p <> KindDemoScratch ->
     holds d doc (DocVisibilityIntrinsicWhereAlias p) = opens (set_SystemID 0 p) /\
     (0 < systemID -> SystemID p = 0 \/ SystemID p = systemID ->
        holds d doc (DocVisibilityWhereAlias p systemID) = opens (set_SystemID systemID p))).
Proof.
  intros Hr Hu Hanon. cbn zeta.
  assert (Hany : forall s, let q := set_SystemID s p in
    (holds d (Row id (d_system r) (Some (d_owner r))) (docVisibilityWhereAlias q) = true ->
       is_ok (can d q KindDocument id PermView) = true) /\
    (Kind p <> KindDemoScratch ->
       holds d (Row id (d_system r) (Some (d_owner r))) (docVisibilityWhereAlias q)
       = is_ok (can d q KindDocument id PermView))).
  { intros s q. destruct (is_demo p) eqn:Hd.
    - destruct (visibility_demo d q id r Hr Hd Hanon) as [V1 V2]. split; [exact V1|].
      intros Hk. symmetry. apply V2. unfold is_demo in Hd. rewrite (bool_decide_false _ Hk), orb_false_r in Hd.
      by bool_simpl.
    - rewrite (visibility_member d q id r Hr Hd Hu). done. }
  unfold DocVisibilityIntrinsicWhereAlias, DocVisibilityWhereAlias. split; [apply Hany|]. split.
  - destruct (_ || _) eqn:Eg; [done|]. intros H. bool_simpl. split; [lia|].
    pose proof (proj1 (Hany systemID) H) as Hopen. split; [|exact Hopen].
    destruct (can d _ KindDocument id PermView) as [[]|] eqn:Ec; [|done].
    apply can_boundary in Ec as (s & Hs & (B1 & _) & _). apply ObjectSystemID_document in Hs as (r' & Hr' & <-).
    rewrite Hr in Hr'. injection Hr' as <-. cbn [SystemID set_SystemID] in B1. destruct B1; lia.
  - intros Hk. split; [by apply Hany|]. intros Hs Hsel. destruct (_ || _) eqn:Eg; [|by apply Hany].
    exfalso. bool_cases; lia.
Qed.

(** Every listing predicate binds exactly one argument per placeholder, for every
    actor, system, number of groups and placeholder-free alias. *)
Theorem visibility_balanced alias p systemID :
  count_marks alias = 0%nat ->
  balanced alias (DocVisibilityWhereAlias p systemID) /\
  balanced alias (DocVisibilityIntrinsicWhereAlias p).
Proof.
  intros Ha. assert (Hdoc : forall q, balanced alias (docVisibilityWhereAlias q)).
  { intros q. unfold docVisibilityWhereAlias. pose proof (balanced_boundary alias q Ha) as Hb.
    destruct (is_demo q).
    - apply balanced_AndThen; [done|]. unfold DemoCorpusVisibilityWhereAlias.
      destruct (_ =? _); by apply balanced_leaf.
    - destruct (_ <=? _); [done|]. destruct (bool_decide _); [done|].
      apply balanced_AndThen; [done|]. by apply balanced_leaf. }
  split; [|apply Hdoc]. unfold DocVisibilityWhereAlias. destruct (_ || _); [done|apply Hdoc].
Qed.

(** * Properties: the store *)

Lemma upsert_acl_Ok now actor key bits d d' :
  upsert_acl now actor key bits d = Ok d' ->
  exists a, perm_bits a = bits /\ d' = with_acls <[key := a]> d.
Proof.
  unfold upsert_acl. intros H. guards_in H; injection H as <-; eexists; (split; [|reflexivity]); done.
Qed.

Lemma ValidatePermBits_Ok bits :
  ValidatePermBits bits = Ok tt <-> bits = 1 \/ bits = 3 \/ bits = 7.
Proof.
  unfold ValidatePermBits. change (Z.lor PermView PermChange) with 3. change PermAll with 7. unfold PermView.
  destruct (Z.eqb_spec bits 1), (Z.eqb_spec bits 3), (Z.eqb_spec bits 7); cbn; intuition congruence.
Qed.

(** The boundary reads no grant. *)
Lemma objectBoundary_acls f d p kind id :
  objectBoundary (with_acls f d) p kind id = objectBoundary d p kind id.
Proof. apply eq_true_iff_eq. rewrite !objectBoundary_spec. done. Qed.

(** What a successful grant checked. *)
Lemma Grant_Ok now actor g d row d' :
  Grant now actor g d = Ok (row, d') ->
  ValidatePermBits (PermBits g) = Ok tt /\ is_Some (objectTableFor (ObjectKind g)) /\
  (PrincipalKind g = "user" /\ is_Some (users (dir d) !! PrincipalID g) \/
   PrincipalKind g = "group" /\ is_Some (groups d !! PrincipalID g)) /\
  (exists s, ObjectSystemID d (ObjectKind g) (ObjectID g) = Ok s /\
     (PrincipalKind g = "user" -> CanEnter (dir d) (PrincipalID g) s = true)) /\
  (exists a, perm_bits a = PermBits g /\ d' = with_acls <[grant_key g := a]> d) /\
  PermBits row = PermBits g.
Proof.
  unfold Grant. intros H. guards_in H. apply bind_Ok in H as (v & Hv & H). destruct v.
  guards_in H. apply bind_Ok in H as (d1 & Hd1 & H). apply bind_Ok in H as (r & Hr & H).
  injection H as <- <-. apply upsert_acl_Ok in Hd1 as (x & Hx & ->).
  split; [done|]. bool_simpl. split; [done|]. unfold rowExists in *.
  assert (Hg : getGrant (with_acls <[grant_key g := x]> d) (grant_key g) = Ok r) by done.
  unfold getGrant, grant_key in Hg. cbn [with_acls object_acls] in Hg. rewrite lookup_insert_eq in Hg.
  injection Hg as <-. cbn [PermBits].
  destruct (bool_decide (PrincipalKind g = "group")) eqn:Ek; bool_simpl.
  - split; [right; by bool_simpl|]. split; [|eauto]. eexists. split; [done|]. congruence.
  - assert (Hu : PrincipalKind g = "user").
    { bool_cases; done. }
    split; [left; by bool_simpl|]. split; [|eauto]. eexists. split; [done|]. intros _. by bool_cases.
Qed.

(** A grant takes effect exactly: it replaces the row of its key and no other, carries
    one of the three levels, names an existing principal who may enter the object's
    system, lets a user act up to its bits, and revoking it leaves the tables without
    that row and otherwise as they were, so granting a fresh key is undone. *)
Theorem Grant_Revoke now actor g d row d' :
  Grant now actor g d = Ok (row, d') -> 0 < ObjectID g -> 0 < PrincipalID g ->
  (PermBits g = 1 \/ PermBits g = 3 \/ PermBits g = 7) /\ PermBits row = PermBits g /\
  (forall key, key <> grant_key g -> object_acls d' !! key = object_acls d !! key) /\
  (forall p want, PrincipalKind g = "user" -> UserID p = PrincipalID g -> is_demo p = false ->
     objectBoundary d p (ObjectKind g) (ObjectID g) = true -> Z.land (PermBits g) want = want ->
     can d' p (ObjectKind g) (ObjectID g) want = Ok tt) /\
  exists d'', Revoke (ObjectKind g) (ObjectID g) (PrincipalKind g) (PrincipalID g) d' = Ok d'' /\
    object_acls d'' = delete (grant_key g) (object_acls d) /\
    (object_acls d !! grant_key g = None -> d'' = d).
Proof.
  intros H Ho Hp. apply Grant_Ok in H as (Hbits & Hkind & Hprin & (s & Hs & Henter) & (a & Ha & ->) & Hrow).
  split; [by apply ValidatePermBits_Ok|]. split; [done|]. split.
  { intros key Hk. cbn [with_acls object_acls]. by rewrite lookup_insert_ne. }
  split.
  - intros p want Huser Hid Hd Hb Hw.
    assert (Hok : is_ok (can (with_acls <[grant_key g := a]> d) p (ObjectKind g) (ObjectID g) want) = true).
    { rewrite can_member by done. rewrite objectBoundary_acls, Hb.
      rewrite Hid, (proj2 (Z.eqb_neq _ _)) by lia. cbn [negb andb]. apply orb_true_iff. right.
      apply land_sub_spec. intros i Hi Hwi. apply effectivePerms_bit. exists (grant_key g), a.
      cbn [with_acls object_acls]. rewrite lookup_insert_eq. split; [done|].
      unfold on_object, names, grant_key. rewrite Huser, Hid, !bool_decide_true, !Z.eqb_refl by done.
      split_and!; [done|done|]. rewrite Ha. rewrite <- Hw, Z.land_spec in Hwi. by apply andb_true_iff in Hwi as []. }
    destruct (can _ p _ _ _) as [[]|]; [done|discriminate Hok].
  - exists (with_acls (delete (grant_key g)) (with_acls <[grant_key g := a]> d)). split_and!.
    + unfold Revoke. rewrite bool_decide_true by done. rewrite !(proj2 (Z.leb_gt _ _)) by lia.
      assert (Hex : objectExists (with_acls <[grant_key g := a]> d) (ObjectKind g) (ObjectID g) = true).
      { unfold objectExists. change (system_of (with_acls _ d)) with (system_of d). unfold ObjectSystemID in Hs.
        destruct (objectTableFor _) as [t|]; [|done]. destruct (system_of d t (ObjectID g)); [|done].
        rewrite (proj2 (Z.ltb_lt _ _)) by lia. reflexivity. }
      rewrite Hex. unfold rowExists. cbn [with_acls groups dir].
      unfold grant_key. destruct Hprin as [[-> Hx]|[-> Hx]]; cbn; rewrite (bool_decide_true (is_Some _) Hx); reflexivity.
    + cbn [with_acls object_acls]. by rewrite delete_insert_eq.
    + intros Hf. destruct d. unfold with_acls. cbn in *. rewrite delete_insert_id by done. reflexivity.
Qed.

(** The tables of groups, memberships and grants are consistent. *)
Record store_wf (d : db) : Prop := {
  st_bits : forall key a, object_acls d !! key = Some a -> ValidatePermBits (perm_bits a) = Ok tt;
  st_kinds : forall k i pk pid a, object_acls d !! (k, i, pk, pid) = Some a ->
    is_Some (objectTableFor k) /\
    (pk = "user" /\ is_Some (users (dir d) !! pid) \/ pk = "group" /\ is_Some (groups d !! pid));
  st_members : forall g u t, group_members d !! (g, u) = Some t ->
    is_Some (groups d !! g) /\ is_Some (users (dir d) !! u);
  st_names : forall i j g h, groups d !! i = Some g -> groups d !! j = Some h ->
    g_name g = g_name h -> i = j;
  st_nonempty : forall i g, groups d !! i = Some g -> g_name g <> "";
}.

Inductive store_step (d : db) : db -> Prop :=
  | do_Grant now actor g row d' : Grant now actor g d = Ok (row, d') -> store_step d d'
  | do_Revoke k i pk pid d' : Revoke k i pk pid d = Ok d' -> store_step d d'
  | do_CreateGroup now n desc g d' : CreateGroup now n desc d = Ok (g, d') -> store_step d d'
  | do_UpdateGroup now i n desc g d' : UpdateGroup now i n desc d = Ok (g, d') -> store_step d d'
  | do_DeleteGroup i d' : DeleteGroup i d = Ok d' -> store_step d d'
  | do_AddMember now g u d' : AddMember now g u d = Ok d' -> store_step d d'
  | do_RemoveMember g u d' : RemoveMember g u d = Ok d' -> store_step d d'.

Lemma group_grants_0 d id :
  group_grants d id = 0%nat -> forall k i a, object_acls d !! (k, i, "group", id) = Some a -> False.
Proof.
  unfold group_grants. intros H k i a Hl. apply length_zero_iff_nil in H.
  assert (Hin : ((k, i, "group", id), a) ∈ filter (fun x => let '(_, _, principal_kind, principal_id) := x.1 in
      bool_decide (principal_kind = "group") && (principal_id =? id) = true) (map_to_list (object_acls d))).
  { apply list_elem_of_filter. cbn. rewrite Z.eqb_refl. split; [done|]. by apply elem_of_map_to_list. }
  rewrite H in Hin. by apply not_elem_of_nil in Hin.
Qed.

Lemma name_taken_spec d id n j g :
  name_taken d id n = false -> groups d !! j = Some g -> g_name g = n -> j = id.
Proof.
  intros H Hl Hn. pose proof (exists_row_false _ _ _ _ H Hl) as Hf. cbv beta in Hf. bool_cases; done.
Qed.

(** Writing a group's row under a free, nonempty name. *)
Lemma put_group_wf d id g :
  store_wf d -> g_name g <> "" -> name_taken d id (g_name g) = false -> store_wf (with_groups <[id := g]> d).
Proof.
  intros W Hne Ht.
  assert (Hkeep : forall j, is_Some (groups d !! j) -> is_Some (<[id := g]> (groups d) !! j)).
  { intros j Hj. destruct (decide (id = j)) as [<-|Hd]; [rewrite lookup_insert_eq; eauto|by rewrite lookup_insert_ne]. }
  split; cbn [with_groups object_acls groups group_members dir].
  - apply (st_bits _ W).
  - intros k i pk pid a Hl. destruct (st_kinds _ W _ _ _ _ _ Hl) as [H1 [H2|[H2 H3]]]; auto.
  - intros j u t Hl. destruct (st_members _ W _ _ _ Hl). auto.
  - intros i j gi gj [[<- <-]|[Ni Hi]]%lookup_insert_Some [[<- <-]|[Nj Hj]]%lookup_insert_Some Hn.
    + done.
    + symmetry. by eapply name_taken_spec.
    + by eapply name_taken_spec.
    + by eapply st_names.
  - intros i gi [[<- <-]|[Ni Hi]]%lookup_insert_Some; [done|by eapply st_nonempty].
Qed.

Lemma delete_group_wf d id :
  store_wf d -> group_grants d id = 0%nat ->
  store_wf (with_members (filter (fun x => x.1.1 <> id)) (with_groups (delete id) d)).
Proof.
  intros W Hg. split; cbn [with_members with_groups object_acls groups group_members dir].
  - apply (st_bits _ W).
  - intros k i pk pid a Hl. destruct (st_kinds _ W _ _ _ _ _ Hl) as [H1 [H2|[-> H3]]]; [auto|].
    split; [done|]. right. split; [done|]. rewrite lookup_delete_ne; [done|].
    intros ->. by eapply group_grants_0.
  - intros g u t Hl. apply map_lookup_filter_Some in Hl as [Hl Hne]. cbn in Hne.
    destruct (st_members _ W _ _ _ Hl). by rewrite lookup_delete_ne.
  - intros i j gi gj [_ Hi]%lookup_delete_Some [_ Hj]%lookup_delete_Some. by apply (st_names _ W).
  - intros i g [_ Hi]%lookup_delete_Some. by apply (st_nonempty _ W) in Hi.
Qed.

Lemma grant_wf d now actor g row d' : store_wf d -> Grant now actor g d = Ok (row, d') -> store_wf d'.
Proof.
  intros W H. apply Grant_Ok in H as (Hb & Hk & Hp & _ & (a & Ha & ->) & _).
  split; cbn [with_acls object_acls groups group_members dir]; try apply W.
  - intros key b [[<- <-]|[_ Hl]]%lookup_insert_Some; [by rewrite Ha|by apply (st_bits _ W) in Hl].
  - intros k i pk pid b [[Heq <-]|[_ Hl]]%lookup_insert_Some; [|by eapply st_kinds].
    unfold grant_key in Heq. injection Heq as <- <- <- <-. auto.
Qed.


(** Only administrators and a document's owner manage its grants, whatever grants
    exist; the exact answer for every kind of object: for correspondents and folder
    layouts, whose tables have no owner column, a member gets the failed statement's
    error in place of a refusal. *)
Theorem canManage_spec d p kind id :
  canManage d p kind id =
  (if negb (objectBoundary d p kind id) then Err ErrObjectNotFound
   else if bool_decide (Role p = "admin") then Ok true
   else if UserID p <=? 0 then Ok false
   else if bool_decide (kind = KindDocument) then
     Ok (bool_decide (loadOwner d kind id = Some (UserID p)))
   else if bool_decide (kind = KindCorrespondent) then Err (ErrNoColumn "correspondents" "owner_id")
   else if bool_decide (kind = KindRenderedLayout) then Err (ErrNoColumn "storage_paths" "owner_id")
   else Ok false) /\
  forall f, canManage (with_acls f d) p kind id = canManage d p kind id.
Proof.
  split.
  - unfold canManage. destruct (objectBoundary d p kind id) eqn:Hb; [|done]. cbn [negb].
    destruct (bool_decide (Role p = "admin")); [done|].
    destruct (bool_decide (kind = KindDocument)) eqn:Ed; bool_simpl.
    + subst kind. change (ownerColumnFor KindDocument) with (Some ("owner_id", "documents")).
      destruct (UserID p <=? 0); [done|]. rewrite loadOwner_document.
      apply objectBoundary_spec in Hb as (s & Hs & _). apply ObjectSystemID_document in Hs as (r & Hr & _).
      unfold select_owner. rewrite bool_decide_true, Hr by done. cbn. f_equal. apply eq_true_iff_eq.
      rewrite Z.eqb_eq, bool_decide_eq_true. split; [by intros ->|by intros [= ->]].
    + unfold ownerColumnFor. rewrite (bool_decide_false _ Ed).
      destruct (bool_decide (kind = KindCorrespondent)); [by destruct (UserID p <=? 0)|].
      destruct (bool_decide (kind = KindRenderedLayout)); by destruct (UserID p <=? 0).
  - intros f. unfold canManage. rewrite objectBoundary_acls. done.
Qed.

(** * Properties: capabilities *)

#[export] Instance string_le_total : Total string_le.
Proof. intros a b. unfold string_le. apply String.leb_total. Qed.
#[export] Instance string_le_antisymm : AntiSymm (=) string_le.
Proof. intros a b. apply String.leb_antisym. Qed.
Lemma string_le_cons c s d t :
  string_le (String c s) (String d t) <->
    (N_of_ascii c < N_of_ascii d)%N \/ (N_of_ascii c = N_of_ascii d /\ string_le s t).
Proof.
  unfold string_le, String.leb. cbn. unfold Ascii.compare.
  destruct (N.compare_spec (N_of_ascii c) (N_of_ascii d)) as [E|E|E]; intuition (try lia; try done).
Qed.
#[export] Instance string_le_trans : Transitive string_le.
Proof.
  intros a. induction a as [|c a IH]; intros [|d b] [|e x]; try done. rewrite !string_le_cons.
  intros [?|[? H1]] [?|[? H2]]; [left; lia..|right]. split; [lia|]. by eapply IH.
Qed.

Lemma fold_add_spec (f : string -> bool) l out c :
  c ∈ foldl (fun out x => if f x then out else Add out x) out l <-> c ∈ out \/ (c ∈ l /\ f c = false).
Proof.
  revert out. induction l as [|x l IH]; intros out; cbn [foldl].
  - rewrite elem_of_nil. tauto.
  - rewrite IH, elem_of_cons. destruct (f x) eqn:E.
    + split; [tauto|]. intros [H|[[->|H] Hf]]; [tauto|congruence|tauto].
    + unfold Add. rewrite elem_of_union, elem_of_singleton. split.
      * intros [[->|H]|H]; tauto.
      * intros [H|[[->|H] Hf]]; tauto.
Qed.

Lemma parse_wire_spec out raw r :
  parse_wire out raw = Ok r <-> (forall x, x ∈ raw -> x ∈ KnownCapabilities) /\ r = list_to_set raw ∪ out.
Proof.
  revert out. induction raw as [|x raw IH]; intros out.
  - split.
    + intros [= <-]. split; [by intros x ?%not_elem_of_nil|set_solver].
    + intros [_ ->]. cbn [parse_wire list_to_set]. f_equal. set_solver.
  - cbn [parse_wire]. assert (Hx : existsb (String.eqb x) KnownCapabilities = true <-> x ∈ KnownCapabilities).
    { rewrite existsb_exists, list_elem_of_In. split.
      - intros (y & Hy & He). by apply String.eqb_eq in He as ->.
      - intros Hin. exists x. split; [done|apply String.eqb_refl]. }
    destruct (existsb _ _) eqn:E.
    + rewrite IH. split.
      * intros [Hall ->]. split; [|cbn; unfold Add; set_solver].
        intros y [->|Hy]%elem_of_cons; [by apply Hx|by apply Hall].
      * intros [Hall ->]. split; [|cbn; unfold Add; set_solver]. intros y Hy. apply Hall. by apply list_elem_of_further.
    + split; [done|]. intros [Hall _]. discriminate (proj2 Hx (Hall _ (list_elem_of_here _ _))).
Qed.

Lemma Slice_in s c : c ∈ Slice s <-> c ∈ s.
Proof. unfold Slice. by rewrite (merge_sort_Permutation string_le (elements s)), elem_of_elements. Qed.
Lemma Diff_sets s prior : Diff s prior = (s ∖ prior, prior ∖ s).
Proof.
  unfold Diff. f_equal; apply set_eq; intros c; rewrite fold_add_spec, elem_of_elements, elem_of_empty;
    unfold Has; rewrite bool_decide_eq_false, elem_of_difference; tauto.
Qed.

(** Capability sets: [Diff] splits exactly what was added and what was removed, the
    wire order is sorted and without repetitions, the wire parser accepts exactly the
    known slugs and yields their set, so a known set survives printing and parsing. *)
Theorem capabilities_laws (s prior : cap_set) raw out :
  Diff s prior = (s ∖ prior, prior ∖ s) /\
  Sorted string_le (Slice s) /\ NoDup (Slice s) /\ (forall c, c ∈ Slice s <-> c ∈ s) /\
  (ParseWire raw = Ok out <-> (forall r, r ∈ raw -> r ∈ KnownCapabilities) /\ out = list_to_set raw) /\
  ((forall c, c ∈ s -> c ∈ KnownCapabilities) -> ParseWire (Slice s) = Ok s).
Proof.
  assert (Hperm : Permutation (Slice s) (elements s)) by apply merge_sort_Permutation.
  assert (Hin := Slice_in s).
  split_and!.
  - apply Diff_sets.
  - apply (Sorted_merge_sort string_le).
  - rewrite Hperm. apply NoDup_elements.
  - exact Hin.
  - unfold ParseWire. rewrite parse_wire_spec. by rewrite (right_id_L ∅ (∪)).
  - intros Hk. apply parse_wire_spec. split; [intros x Hx; by apply Hk, Hin|].
    rewrite (right_id_L ∅ (∪)). apply set_eq. intros c. by rewrite elem_of_list_to_set, Hin.
Qed.

(** * Witnesses *)
Definition users0 : gmap Z user :=
  {[1 := User "root@x" "admin" false; 2 := User "ann@x" "member" false; 3 := User "bob@x" "member" false]}.
Definition db0 : db :=
  DB (Directory users0 {[1 := original]} {[(1, 2); (1, 3)]})
     {[10 := Document 1 2]} ∅ {[20 := 1]} ∅ ∅ {[5 := MkGroup "staff" "" 0 0]} {[(5, 3) := 0]}.
Definition ann : Principal := MkPrincipal 2 "member" "user" [] 0 0.
Definition bob : Principal := MkPrincipal 3 "member" "user" [5] 0 0.
Definition share : Grant_row := MkGrant 0 "document" 10 "user" 3 3 0 0.

Lemma can_boundary_witness : ObjectSystemID db0 KindDocument 10 = Ok 1 /\ boundary_ok db0 ann 1.
Proof.
  destruct (can_boundary db0 ann KindDocument 10 PermAll) as (s & Hs & Hb & _).
  - vm_compute. reflexivity.
  - assert (E : ObjectSystemID db0 KindDocument 10 = Ok 1) by (vm_compute; reflexivity).
    rewrite E in Hs. injection Hs as <-. split; [exact E|exact Hb].
Defined.

Lemma visibility_can_witness :
  holds db0 (Row 10 1 (Some 2)) (DocVisibilityWhereAlias ann 1) = true /\
  is_ok (can db0 (set_SystemID 1 ann) KindDocument 10 PermView) = true.
Proof.
  assert (H : holds db0 (Row 10 1 (Some 2)) (DocVisibilityWhereAlias ann 1) = true) by (vm_compute; reflexivity).
  split; [exact H|].
  destruct (visibility_can db0 ann 1 10 (Document 1 2)) as (_ & Hv & _).
  - reflexivity.
  - cbn. lia.
  - discriminate.
  - exact (proj2 (proj2 (Hv H))).
Defined.

Lemma visibility_balanced_witness : balanced "d" (DocVisibilityWhereAlias bob 1).
Proof. apply (visibility_balanced "d" bob 1). reflexivity. Defined.

Lemma Grant_Revoke_witness :
  exists row d', Grant 7 2 share db0 = Ok (row, d') /\ can d' bob KindDocument 10 PermChange = Ok tt.
Proof.
  destruct (Grant 7 2 share db0) as [[row d']|e] eqn:E; [|vm_compute in E; discriminate E].
  exists row, d'. split; [reflexivity|].
  destruct (Grant_Revoke 7 2 share db0 row d' E) as (_ & _ & _ & Hcan & _); [cbn; lia|cbn; lia|].
  assert (Hb : objectBoundary db0 bob "document" 10 = true) by (vm_compute; reflexivity).
  exact (Hcan bob PermChange eq_refl eq_refl eq_refl Hb eq_refl).
Defined.

