(* ===== verification/TagTree.v ===== *)
(** The tree of tags: [SetTagParent] keeps it a tree as long as the walk reaches the root and
    nothing comes between the walk and the write; what happens otherwise.  Concrete runs of
    the taxonomy operations, and the grants a deleted tag leaves behind. *)
From S2P Require Import Prelude GoStd Sqlite Principal Systems Authz AuthzFacts Slug CustomField Taxonomy TaxonomyFacts TaxonomyInvariant.

(** [id] reaches a tag without a parent in [n] steps. *)
Inductive rooted (m : gmap Z named) : nat -> Z -> Prop :=
  | rooted_here id r : m !! id = Some r -> n_parent r = None -> rooted m 0 id
  | rooted_up n id r p : m !! id = Some r -> n_parent r = Some p -> rooted m n p -> rooted m (S n) id.
Definition forest (m : gmap Z named) : Prop := forall id, is_Some (m !! id) -> exists n, rooted m n id.

(** The walk never meets the tag when it ends at a root within its hops. *)
Lemma cycle_check_avoids t systemID id n p hops :
  rooted (tags t) n p -> (n < hops)%nat -> cycle_check hops systemID id p t = Ok tt ->
  forall r parent now, tags t !! id = Some r -> rooted (<[id := set_parent parent now r]> (tags t)) n p.
Proof.
  intros Hn; revert hops; induction Hn as [p r0 Hr0 Hp|n p r0 q Hr0 Hp _ IH]; intros hops Hh H r parent now Hid;
    (destruct hops as [|hops]; [lia|]); cbn [cycle_check] in H; rewrite Hr0, Hp in H; guards_in H; bool_simpl.
  - eapply rooted_here; [|exact Hp]. by rewrite lookup_insert_ne.
  - eapply rooted_up; [by rewrite lookup_insert_ne|exact Hp|]. apply (IH hops); [lia|done|done].
Qed.

Lemma rooted_insert m id r' n x :
  rooted m n x -> (exists k, rooted (<[id := r']> m) k id) -> exists k, rooted (<[id := r']> m) k x.
Proof.
  intros Hx Hid. induction Hx as [x r Hr Hp|n x r p Hr Hp _ [k IH]]; (destruct (decide (x = id)) as [->|]; [done|]).
  - exists 0%nat. eapply rooted_here; [by rewrite lookup_insert_ne|done].
  - exists (S k). eapply rooted_up; [by rewrite lookup_insert_ne|done|done].
Qed.

(** Moving a tag below a parent that is at most 127 steps from its root, or to the top,
    keeps the tags a forest. *)
Theorem SetTagParent_forest may systemID id parent now t t' :
  SetTagParent may systemID id parent now t = Ok t' -> forest (tags t) ->
  (forall p, parent = Some p -> exists n, (n < 128)%nat /\ rooted (tags t) n p) -> forest (tags t').
Proof.
  unfold SetTagParent. intros H Hf Hdepth. apply bind_Ok in H as ([] & Hcheck & H).
  apply set_parent_Ok in H as (r & Er & -> & _).
  cbn. assert (Hid : exists k, rooted (<[id := set_parent parent now r]> (tags t)) k id).
  { destruct parent as [p|].
    - destruct (Hdepth p eq_refl) as (n & Hn & Hp). cbn [check_parent] in Hcheck. destruct (p =? id); [done|].
      exists (S n). eapply (rooted_up _ n id _ p); [apply lookup_insert_eq|done|].
      by apply (cycle_check_avoids t systemID id n p MaxHops).
    - exists 0%nat. eapply rooted_here; [apply lookup_insert_eq|done]. }
  intros x Hx. destruct (decide (x = id)) as [->|Hne]; [done|]. rewrite lookup_insert_ne in Hx by done.
  destruct (Hf x Hx) as [n Hn]. by eapply rooted_insert.
Qed.

(** A set of tags whose parents stay in the set never reaches a root. *)
Definition parents_within (m : gmap Z named) (l : list Z) : bool :=
  forallb (fun x => match m !! x with
                    | Some r => match n_parent r with Some p => existsb (Z.eqb p) l | None => false end
                    | None => false end) l.
Lemma not_rooted m l n x : parents_within m l = true -> rooted m n x -> x ∉ l.
Proof.
  intros Hl. unfold parents_within in Hl. rewrite forallb_forall in Hl.
  induction 1 as [x r Hr Hp|n x r p Hr Hp _ IH]; intros Hx; apply list_elem_of_In in Hx;
    specialize (Hl _ Hx); rewrite Hr, Hp in Hl; [done|].
  apply IH. apply existsb_exists in Hl as (q & Hq & ->%Z.eqb_eq). by apply list_elem_of_In.
Qed.

(** * Examples *)
Definition tag_row (name : string) (parent : option Z) : named := MkNamed 1 name name parent 0 0.
Definition no_tables : tables := Tables ∅ ∅ ∅ ∅ ∅ ∅ ∅ ∅ [].
Definition two_tags : tables := with_tags (fun _ => {[1 := tag_row "a" None; 2 := tag_row "b" None]}) no_tables.

Lemma two_tags_forest : forest (tags two_tags).
Proof.
  intros id [r Hr]. exists 0%nat. eapply rooted_here; [exact Hr|].
  cbn in Hr. apply lookup_insert_Some in Hr as [[<- <-]|[_ Hr]]; [done|].
  by apply lookup_singleton_Some in Hr as [<- <-].
Qed.
Lemma SetTagParent_forest_witness :
  exists t', SetTagParent true 1 1 (Some 2) 5 two_tags = Ok t' /\ forest (tags t').
Proof.
  eexists. split; [vm_compute; reflexivity|].
  eapply (SetTagParent_forest true 1 1 (Some 2) 5 two_tags); [vm_compute; reflexivity|exact two_tags_forest|].
  intros p [= <-]. exists 0%nat. split; [lia|]. eapply rooted_here; vm_compute; reflexivity.
Defined.

(** Two requests that both walked before either wrote: each is fine, together a cycle. *)
Theorem race_cycle :
  check_parent 1 1 (Some 2) two_tags = Ok tt /\ check_parent 1 2 (Some 1) two_tags = Ok tt /\
  exists t1 t2, set_parent_tx true 1 1 (Some 2) 5 two_tags = Ok t1 /\ set_parent_tx true 1 2 (Some 1) 5 t1 = Ok t2 /\
    forest (tags two_tags) /\ ~ forest (tags t2).
Proof.
  split; [vm_compute; reflexivity|]. split; [vm_compute; reflexivity|].
  eexists _, _. split; [vm_compute; reflexivity|]. split; [vm_compute; reflexivity|]. split; [exact two_tags_forest|].
  intros Hf. destruct (Hf 1) as [n Hn]; [vm_compute; by eexists|].
  apply (not_rooted _ [1; 2]) in Hn; [|by vm_compute]. apply Hn. set_solver.
Qed.

(** A chain of 130 tags, each below the one before: the walk from the last stops after 128
    hops without meeting the first. *)
Definition chain : tables :=
  with_tags (fun _ => list_to_map ((fun k => let i := Z.of_nat k in
    (i, tag_row (FormatInt i) (if i =? 1 then None else Some (i - 1)))) <$> seq 1 130)) no_tables.
Fixpoint climbs (m : gmap Z named) (fuel : nat) (id : Z) : option nat :=
  match fuel with
  | O => None
  | S fuel' => match m !! id with
               | Some r => match n_parent r with None => Some O | Some p => S <$> climbs m fuel' p end
               | None => None
               end
  end.
Lemma climbs_rooted m fuel id n : climbs m fuel id = Some n -> rooted m n id.
Proof.
  revert id n; induction fuel as [|fuel IH]; intros id n H; [done|]. cbn [climbs] in H.
  destruct (m !! id) as [r|] eqn:Er; [|done]. destruct (n_parent r) as [p|] eqn:Ep.
  - destruct (climbs m fuel p) as [k|] eqn:Ek; [|done]. injection H as <-. eapply rooted_up; [done|done|by apply IH].
  - injection H as <-. by eapply rooted_here.
Qed.
Theorem deep_cycle :
  forest (tags chain) /\ exists t', SetTagParent true 1 1 (Some 130) 5 chain = Ok t' /\ ~ forest (tags t').
Proof.
  split.
  - intros id [r Hr].
    assert (Hall : forallb (fun x => bool_decide (is_Some (climbs (tags chain) 200 x.1))) (map_to_list (tags chain)) = true)
      by (vm_compute; reflexivity).
    rewrite forallb_forall in Hall. apply elem_of_map_to_list, list_elem_of_In in Hr. specialize (Hall _ Hr).
    apply bool_decide_eq_true in Hall as [n Hn]. exists n. by eapply climbs_rooted.
  - eexists. split; [vm_compute; reflexivity|]. intros Hf. destruct (Hf 1) as [n Hn]; [vm_compute; by eexists|].
    apply (not_rooted _ (Z.of_nat <$> seq 1 130)) in Hn; [|by vm_compute]. apply Hn.
    apply list_elem_of_In. by left.
Qed.

(** Senders in the order 1, 2, 9, 5, scanned as they were added (1, 2, 5, 9): after merging 1
    into 2 the last statement gives 5 and 9 the same position and 5 comes first. *)
Definition corr_row (name : string) : named := MkNamed 1 name name None 0 0.
Definition no_meta : meta := MkMeta "" "auto" 1 "" false "" 0 0 0 0 0 0 0.
Definition senders : tables :=
  Tables {[7 := no_meta]} ∅ {[1 := corr_row "a"; 2 := corr_row "b"; 5 := corr_row "e"; 9 := corr_row "i"]} ∅
    {[(7, 1, "sender") := 0; (7, 2, "sender") := 1; (7, 9, "sender") := 2; (7, 5, "sender") := 3]} ∅ ∅ ∅ [].
Definition doc7 (doc : Z) : option (Z * bool) := if doc =? 7 then Some (1, false) else None.
Definition as_added (rows : list rel_key) : list rel_key := filter (fun k => k ∈ rows) [(7, 1, "sender"); (7, 2, "sender"); (7, 5, "sender"); (7, 9, "sender")].
Theorem merge_reorders :
  in_order senders 7 "sender" = [1; 2; 9; 5] /\
  exists r t', Merge doc7 as_added (MkOptions 1 KindCorrespondent "a" "b" true) senders = Ok (r, t') /\
    in_order t' 7 "sender" = [2; 5; 9] /\
    document_correspondents t' !! (7, 5, "sender") = Some 2 /\ document_correspondents t' !! (7, 9, "sender") = Some 2.
Proof.
  split; [vm_compute; reflexivity|]. eexists _, _. split; [vm_compute; reflexivity|]. split_and!; vm_compute; reflexivity.
Qed.

(** * Grants on tags *)

(** The rows authorization reads, with the tags and correspondents of the taxonomy. *)
Definition with_taxonomy (t : tables) (d : Authz.db) : Authz.db :=
  DB (Authz.dir d) (Authz.documents d) (n_system <$> tags t) (n_system <$> correspondents t) (Authz.storage_paths d)
     (object_acls d) (groups d) (group_members d).

(** What a decision about a tag reads of the taxonomy is the system of that tag. *)
Lemma can_tag_reads t t' d p id want :
  n_system <$> tags t !! id = n_system <$> tags t' !! id ->
  can (with_taxonomy t d) p Authz.KindTag id want = can (with_taxonomy t' d) p Authz.KindTag id want.
Proof.
  intros H. assert (system_of (with_taxonomy t d) "tags" id = system_of (with_taxonomy t' d) "tags" id) as Hs.
  { unfold system_of. cbn. by rewrite !lookup_fmap. }
  assert (objectBoundary (with_taxonomy t d) p Authz.KindTag id = objectBoundary (with_taxonomy t' d) p Authz.KindTag id) as Hb.
  { apply eq_true_iff_eq. rewrite !objectBoundary_spec. unfold ObjectSystemID.
    change (objectTableFor Authz.KindTag) with (Some "tags"). cbv beta iota. by rewrite Hs. }
  unfold can. by rewrite Hb.
Qed.

(** A tag that gets the id of a deleted tag of its system, as the next one does when the
    newest was deleted, takes over every grant on it: each decision about the new tag is the
    one about the deleted tag. *)
Theorem recreated_tag_inherits U document reads_variable exists_ admin systemID id name slug now t t1 t2 d p want :
  DeleteTag document reads_variable admin systemID id t = Ok t1 ->
  create_row U exists_ TableTags admin systemID name slug now t1 = Ok (id, t2) ->
  can (with_taxonomy t2 d) p Authz.KindTag id want = can (with_taxonomy t d) p Authz.KindTag id want.
Proof.
  unfold DeleteTag, create_row. intros H1 H2. guards_in H1. injection H1 as <-.
  guards_in H2. injection H2 as Hid <-. apply can_tag_reads. cbn [rows_of with_rows with_tags tags].
  cbn [rows_of] in Hid. rewrite Hid, lookup_insert_eq. symmetry.
  unfold present in Hc0. by apply bool_decide_eq_true in Hc0.
Qed.

Definition bob_sees_tag2 (d : Authz.db) : Authz.db :=
  with_acls <[(Authz.KindTag, 2, "user", 3) := Acl 1 PermView 0 1]> d.
Lemma recreated_tag_inherits_witness :
  exists t1 t2, DeleteTag (fun _ => None) (fun _ _ => false) true 1 2 two_tags = Ok t1 /\
    create_row ascii_tables (fun _ => true) TableTags true 1 (Some "private") None 9 t1 = Ok (2, t2) /\
    can (with_taxonomy t1 (bob_sees_tag2 db0)) bob Authz.KindTag 2 PermView = Err (ErrDenied Authz.KindTag 2 PermView 0) /\
    can (with_taxonomy t2 (bob_sees_tag2 db0)) bob Authz.KindTag 2 PermView = Ok tt.
Proof.
  assert (forall t1 t2, DeleteTag (fun _ => None) (fun _ _ => false) true 1 2 two_tags = Ok t1 ->
    create_row ascii_tables (fun _ => true) TableTags true 1 (Some "private") None 9 t1 = Ok (2, t2) ->
    can (with_taxonomy t2 (bob_sees_tag2 db0)) bob Authz.KindTag 2 PermView = Ok tt) as Hcan.
  { intros t1 t2 H1 H2. rewrite (recreated_tag_inherits _ _ _ _ _ _ _ _ _ _ _ _ _ _ _ _ H1 H2). vm_compute. reflexivity. }
  eexists _, _. split; [vm_compute; reflexivity|]. split; [vm_compute; reflexivity|]. split; [vm_compute; reflexivity|].
  eapply Hcan; [vm_compute; reflexivity|vm_compute; reflexivity].
Defined.

(** * Runs *)

(** Taking the third sender first. *)
Lemma SetPrimary_spec_witness :
  exists t', SetPrimaryCorrespondent doc7 7 9 senders = Ok t' /\ in_order t' 7 "sender" = [9; 1; 2; 5].
Proof.
  eexists. split; [vm_compute; reflexivity|].
  destruct (SetPrimary_spec doc7 7 9 senders _ ltac:(lia) ltac:(vm_compute; reflexivity)) as (_ & -> & _). vm_compute. reflexivity.
Defined.

(** Tag 1 carries a rule and document 7; it is merged into tag 2. *)
Definition tagged_7 : tables :=
  Tables {[7 := no_meta]} (tags two_tags) ∅ {[(7, 1) := false]} ∅ {[3 := 1]}
    {[4 := MkTrigger 3 (Some 1) None]} {[5 := MkAction 3 "assign_tag" (Some {["tag_ids" := PList [PNumber (float_of_int 1)]]})]} [].

Abbreviation step := (tax_step ascii_tables doc7 (fun _ => true) as_added (fun _ _ => true)).
Lemma no_tables_wf : tax_wf doc7 no_tables.
Proof. split; [by intros ? ? ? ? H..|by intros k []|by intros k []|by intros ? ? ? H]. Qed.
Lemma two_tags_made : exists t, step no_tables t /\ step t two_tags.
Proof.
  exists (with_tags (fun _ => {[1 := tag_row "a" None]}) no_tables).
  split; [eapply (st_upsert _ _ _ _ _ _ _ 1 TableTags "a" 0 1)|eapply (st_upsert _ _ _ _ _ _ _ 1 TableTags "b" 0 2)]; vm_compute; reflexivity.
Qed.
Lemma two_tags_wf : tax_wf doc7 two_tags.
Proof. destruct two_tags_made as (t & H1 & H2). eapply tax_step_wf, tax_step_wf, no_tables_wf; done. Qed.

Lemma taxonomy_invariant_witness :
  exists t, rtc step no_tables t /\ tags t !! 1 = Some (MkNamed 1 "a" "a" (Some 2) 0 5) /\ tax_wf doc7 t.
Proof.
  destruct two_tags_made as (t & H1 & H2).
  assert (step two_tags (with_tags <[1 := MkNamed 1 "a" "a" (Some 2) 0 5]> two_tags)) as H3
    by (apply (st_set_parent _ _ _ _ _ _ _ true 1 1 (Some 2) 5); vm_compute; reflexivity).
  assert (rtc step no_tables (with_tags <[1 := MkNamed 1 "a" "a" (Some 2) 0 5]> two_tags)) as H
    by (eapply rtc_l, rtc_l, rtc_l, rtc_refl; done).
  eexists. split; [exact H|]. split; [vm_compute; reflexivity|].
  exact (taxonomy_invariant _ _ _ _ _ _ _ H no_tables_wf).
Defined.

Lemma UpsertByName_spec_witness :
  exists t', UpsertByName ascii_tables (fun _ => true) 1 TableTags " c " 9 two_tags = Ok (3, t') /\
    unique_rows (tags t') /\ exists t'', UpsertByName ascii_tables (fun _ => true) 1 TableTags " c " 10 t' = Ok (3, t'').
Proof.
  eexists. split; [vm_compute; reflexivity|].
  edestruct (UpsertByName_spec ascii_tables (fun _ => true) 1 TableTags " c " 9 two_tags 3) as (r & Hr & _ & _ & _ & _ & Hu & Hagain).
  - apply (wf_tags _ _ two_tags_wf).
  - vm_compute; reflexivity.
  - split; [exact Hu|apply Hagain].
Defined.
