(* ===== verification/Totp.v ===== *)
(** One-time codes and recovery codes ([plugins/local-auth/twofactor.go]).  HMAC-SHA1
    and SHA-256 are parameters; random bytes are arguments. *)
From S2P Require Import Prelude GoStd.

Definition totpDigits : nat := 6.
Definition totpPeriod : Z := 30. (* seconds *)
Definition totpSecretBytes : nat := 20.
Definition recoveryCodeCount : nat := 10.
Definition recoveryCodeBytes : nat := 15.
Definition recoveryCodeEncoded : nat := 24.

(** * Base 32 without padding (RFC 4648) *)
Definition base32_char (v : Z) : ascii := if v <? 26 then chr (65 + v) else chr (24 + v).
Definition byte_bits (c : ascii) : list bool :=
  (fun i => Z.testbit (byte_val c) i) <$> [7; 6; 5; 4; 3; 2; 1; 0].
Definition bits_val (bs : list bool) : Z := foldl (fun acc (b : bool) => 2 * acc + Z.b2z b) 0 bs.
Fixpoint base32_groups (bs : list bool) : string :=
  match bs with
  | [] => ""
  | [a] => String (base32_char (bits_val [a; false; false; false; false])) ""
  | [a; b] => String (base32_char (bits_val [a; b; false; false; false])) ""
  | [a; b; c] => String (base32_char (bits_val [a; b; c; false; false])) ""
  | [a; b; c; d] => String (base32_char (bits_val [a; b; c; d; false])) ""
  | a :: b :: c :: d :: e :: bs => String (base32_char (bits_val [a; b; c; d; e])) (base32_groups bs)
  end.
Fixpoint string_bits (s : string) : list bool :=
  match s with EmptyString => [] | String c s => byte_bits c ++ string_bits s end.
Definition EncodeToString (raw : string) : string := base32_groups (string_bits raw).

Section Codes.
Context (hmac_sha1 : string -> string -> string) (sha256 : string -> string).

(** * Time-based codes.  [None] is an index out of range or a division by zero. *)
Definition wrap_u32 (z : Z) : Z := z mod 4294967296.
Definition byte_at (s : string) (i : Z) : option Z :=
  if i <? 0 then None else byte_val <$> String.get (Z.to_nat i) s.
Definition PutUint64 (v : Z) : string :=
  foldr (fun k => String (chr (Z.land (Z.shiftr v (8 * k)) 255))) "" [7; 6; 5; 4; 3; 2; 1; 0].

Definition hotpValue (secret : string) (counter : Z) (digits : nat) : option Z :=
  let digest := hmac_sha1 secret (PutUint64 counter) in
  last ← byte_at digest (Z.of_nat (String.length digest) - 1);
  let offset := Z.land last 15 in
  b0 ← byte_at digest offset;
  b1 ← byte_at digest (offset + 1);
  b2 ← byte_at digest (offset + 2);
  b3 ← byte_at digest (offset + 3);
  let binaryCode := Z.lor (Z.lor (Z.lor (Z.shiftl (Z.land b0 127) 24) (Z.shiftl b1 16)) (Z.shiftl b2 8)) b3 in
  let modulus := Nat.iter digits (fun m => wrap_u32 (m * 10)) 1 in
  if modulus =? 0 then None else Some (binaryCode mod modulus).

(** The buffer of [hotpCode], filled from its end. *)
Fixpoint fill_digits (digits : nat) (value : Z) (acc : string) : string :=
  match digits with
  | O => acc
  | S digits => fill_digits digits (value / 10) (String (chr (value mod 10 + 48)) acc)
  end.
Definition hotpCode (secret : string) (counter : Z) (digits : nat) : option string :=
  value ← hotpValue secret counter digits; Some (fill_digits digits value "").

Fixpoint submitted_value (acc : Z) (s : string) : option Z :=
  match s with
  | EmptyString => Some acc
  | String c s => if is_digit c then submitted_value (wrap_u32 (acc * 10 + digit_val c)) s else None
  end.

(** One iteration over an offset: the greatest matching step so far. *)
Definition match_step (secret : string) (submitted current lastUsedStep : Z) (matched : option Z) (offset : Z)
    : option Z :=
  matched ← matched;
  let step := current + offset in
  if (0 <=? step) && (lastUsedStep <? step) then
    value ← hotpValue secret step totpDigits;
    Some (if (value =? submitted) && (matched <? step) then step else matched)
  else Some matched.

Definition matchTOTP (secret submitted : string) (now lastUsedStep : Z) : option (Z * bool) :=
  if negb (String.length secret =? totpSecretBytes)%nat || negb (String.length submitted =? totpDigits)%nat
  then Some (0, false)
  else match submitted_value 0 submitted with
  | None => Some (0, false)
  | Some submittedValue =>
      let current := Z.quot now totpPeriod in
      matched ← foldl (match_step secret submittedValue current lastUsedStep) (Some (-1)) [-1; 0; 1];
      Some (matched, 0 <=? matched)
  end.

(** * Recovery codes *)

(** [formatted] holds [recoveryCodeEncoded + 5] bytes; writing past them panics. *)
Fixpoint format_loop (i : nat) (canonical : string) : string :=
  match canonical with
  | EmptyString => ""
  | String c rest =>
      (if (0 <? i)%nat && (i mod 4 =? 0)%nat then "-" else "") +:+ String c (format_loop (S i) rest)
  end.
Definition formatRecoveryCode (canonical : string) : option string :=
  let out := format_loop 0 canonical in
  if (String.length out <=? recoveryCodeEncoded + 5)%nat then Some out else None.

(** The digests that are stored and the codes that are shown, from ten random strings. *)
Definition generateRecoveryCodes (raws : list string) : option (list string * list string) :=
  codes ← mapM (fun raw => formatRecoveryCode (EncodeToString raw)) raws;
  Some (codes, (fun raw => sha256 (EncodeToString raw)) <$> raws).

Inductive code_error : Type := ErrMalformedFactorCode.

Definition is_separator (c : ascii) : bool :=
  existsb (fun z => byte_val c =? z) [45; 32; 9; 13; 10].
Definition upper (c : ascii) : ascii :=
  if (97 <=? byte_val c) && (byte_val c <=? 122) then chr (byte_val c - 32) else c.
Definition base32_letter (c : ascii) : bool :=
  (65 <=? byte_val c) && (byte_val c <=? 90) || (50 <=? byte_val c) && (byte_val c <=? 55).

(** The loop of [recoveryCodeDigest]: the rest of [canonical] from index [n]. *)
Fixpoint canonical_from (n : nat) (s : string) : result code_error string :=
  match s with
  | EmptyString => require (n =? recoveryCodeEncoded)%nat else ErrMalformedFactorCode in Ok ""
  | String c s =>
      if is_separator c then canonical_from n s
      else
        let c := upper c in
        fail_if negb (base32_letter c) || (recoveryCodeEncoded <=? n)%nat with ErrMalformedFactorCode in
        rest ← canonical_from (S n) s; Ok (String c rest)
  end.
Definition recoveryCodeDigest (submitted : string) : result code_error string :=
  sha256 <$> canonical_from 0 submitted.
End Codes.

(** * Digits *)

Lemma digits_val_acc acc s :
  digits_val acc s = acc * 10 ^ Z.of_nat (String.length s) + digits_val 0 s.
Proof.
  revert acc. induction s as [|c s IH]; intros acc; cbn [digits_val String.length]; [lia|].
  rewrite IH, (IH (0 * 10 + _)), Nat2Z.inj_succ, Z.pow_succ_r by lia. lia.
Qed.

Lemma digits_val_bound s :
  all_bytes is_digit s = true -> 0 <= digits_val 0 s < 10 ^ Z.of_nat (String.length s).
Proof.
  induction s as [|c s IH]; intros Hs; cbn [digits_val String.length]; [cbn; lia|].
  cbn in Hs. bool_simpl. rewrite digits_val_acc, Nat2Z.inj_succ, Z.pow_succ_r by lia.
  pose proof (digit_val_range c ltac:(done)). specialize (IH ltac:(done)). nia.
Qed.

Lemma digits_val_inj s t :
  String.length s = String.length t -> all_bytes is_digit s = true -> all_bytes is_digit t = true ->
  digits_val 0 s = digits_val 0 t -> s = t.
Proof.
  revert t. induction s as [|c s IH]; intros [|d t] Hl Hs Ht Hv; try done.
  cbn in Hs, Ht, Hl. bool_simpl. injection Hl as Hl.
  cbn [digits_val] in Hv. rewrite (digits_val_acc (0 * 10 + digit_val c)), (digits_val_acc (0 * 10 + digit_val d)), Hl in Hv.
  pose proof (digits_val_bound s ltac:(done)) as Bs. pose proof (digits_val_bound t ltac:(done)) as Bt.
  rewrite Hl in Bs. assert (digit_val c = digit_val d) as Hcd by nia.
  f_equal; [apply byte_val_inj; unfold digit_val in Hcd; lia|]. apply IH; try done. nia.
Qed.

Lemma fill_digits_spec d v acc :
  0 <= v < 10 ^ Z.of_nat d ->
  exists ds, fill_digits d v acc = ds +:+ acc /\ String.length ds = d /\
    all_bytes is_digit ds = true /\ digits_val 0 ds = v.
Proof.
  revert v acc. induction d as [|d IH]; intros v acc Hv; cbn [fill_digits].
  { exists "". cbn in Hv. repeat split; try done. cbn. lia. }
  rewrite Nat2Z.inj_succ, Z.pow_succ_r in Hv by lia.
  destruct (IH (v / 10) (String (chr (v mod 10 + 48)) acc)) as (ds & -> & Hl & Hall & Hval).
  { split; [apply Z.div_pos; lia|apply Z.div_lt_upper_bound; lia]. }
  destruct (digit_chr_val (v mod 10)) as [Hd Hdv]; [pose proof (Z.mod_pos_bound v 10); lia|].
  unfold digit_chr in *. rewrite (Z.add_comm (v mod 10) 48) in *.
  exists (ds +:+ String (chr (48 + v mod 10)) ""). rewrite <- append_assoc, append_length, all_bytes_app, Hall, digits_val_app, Hval, Hl.
  cbn. rewrite Hd, Hdv. repeat split; [lia|]. pose proof (Z.div_mod v 10). lia.
Qed.

Lemma submitted_value_spec acc s :
  0 <= acc -> (acc + 1) * 10 ^ Z.of_nat (String.length s) <= 4294967296 ->
  submitted_value acc s = if all_bytes is_digit s then Some (digits_val acc s) else None.
Proof.
  revert acc. induction s as [|c s IH]; intros acc Ha Hb; cbn [submitted_value all_bytes digits_val]; [done|].
  destruct (is_digit c) eqn:Hc; [cbn [andb]|done].
  cbn [String.length] in Hb. rewrite Nat2Z.inj_succ, Z.pow_succ_r in Hb by lia.
  pose proof (digit_val_range c Hc). assert (0 < 10 ^ Z.of_nat (String.length s)) by (apply Z.pow_pos_nonneg; lia).
  unfold wrap_u32. rewrite Z.mod_small by nia. apply IH; nia.
Qed.

Lemma byte_at_Some s i : 0 <= i < Z.of_nat (String.length s) -> exists b, byte_at s i = Some b /\ 0 <= b < 256.
Proof.
  intros Hi. unfold byte_at. rewrite (proj2 (Z.ltb_ge _ _)) by lia.
  assert (Hn : (Z.to_nat i < String.length s)%nat) by lia. revert Hn. generalize (Z.to_nat i). clear.
  induction s as [|c s IH]; intros n Hn; cbn in *; [lia|].
  destruct n as [|n]; [eexists; split; [done|apply byte_val_range]|]. apply IH. lia.
Qed.

Lemma matchTOTP_later hmac_sha1 secret submitted now lastUsedStep m :
  matchTOTP hmac_sha1 secret submitted now lastUsedStep = Some (m, true) -> lastUsedStep < m.
Proof.
  assert (H : forall value cur offs m0 r,
    foldl (match_step hmac_sha1 secret value cur lastUsedStep) (Some m0) offs = Some r -> r = m0 \/ lastUsedStep < r).
  { intros value cur offs. induction offs as [|o offs IH]; intros m0 r; cbn [foldl]; [intros [= <-]; by left|].
    destruct (match_step _ _ _ _ _ _ o) as [m1|] eqn:E.
    2: { intros Hr. exfalso. clear -Hr. induction offs; [done|auto]. }
    intros Hr. destruct (IH _ _ Hr) as [->|?]; [|by right]. unfold match_step in E. cbn [mbind option_bind] in E.
    destruct (_ && _) eqn:Ew; [|injection E as <-; by left]. bool_simpl.
    destruct (hotpValue _ _ _ _); [cbn [mbind option_bind] in E|done]. injection E as <-.
    destruct (_ && _); [by right|by left]. }
  unfold matchTOTP. intros Hm. guards_in Hm. destruct (foldl _ _ _) as [r|] eqn:E; [cbn [mbind option_bind] in Hm|done].
  injection Hm as -> Hp. bool_simpl. apply H in E as [->|?]; lia.
Qed.

Section CodeFacts.
Context (hmac_sha1 : string -> string -> string) (sha256 : string -> string).
(** An HMAC-SHA1 has twenty bytes. *)
Hypothesis digest_20 : forall key message, String.length (hmac_sha1 key message) = 20%nat.

Lemma hotpValue_total secret c : exists v, hotpValue hmac_sha1 secret c totpDigits = Some v /\ 0 <= v < 10 ^ 6.
Proof.
  unfold hotpValue. rewrite digest_20.
  destruct (byte_at_Some (hmac_sha1 secret (PutUint64 c)) (Z.of_nat 20 - 1)) as (last & -> & Hl); [rewrite digest_20; lia|].
  cbn [mbind option_bind].
  assert (Ho : 0 <= Z.land last 15 <= 15).
  { change 15 with (Z.ones 4) at 1 2. rewrite Z.land_ones by lia. pose proof (Z.mod_pos_bound last (2 ^ 4)). lia. }
  repeat match goal with
  | |- context [byte_at ?d ?i] =>
      let b := fresh "b" in destruct (byte_at_Some d i) as (b & -> & ?); [rewrite digest_20; lia|]; cbn [mbind option_bind]
  end.
  change (Nat.iter totpDigits (fun m => wrap_u32 (m * 10)) 1) with (10 ^ 6).
  rewrite (proj2 (Z.eqb_neq (10 ^ 6) 0)) by lia. eexists. split; [done|]. apply Z.mod_pos_bound. lia.
Qed.

Lemma hotpCode_spec secret c s :
  hotpCode hmac_sha1 secret c totpDigits = Some s <->
  String.length s = totpDigits /\ all_bytes is_digit s = true /\
  hotpValue hmac_sha1 secret c totpDigits = Some (digits_val 0 s).
Proof.
  unfold hotpCode. destruct (hotpValue_total secret c) as (v & Hval & Hv). rewrite Hval. cbn [mbind option_bind].
  destruct (fill_digits_spec totpDigits v "") as (ds & -> & Hl & Hall & Hd); [exact Hv|]. rewrite append_nil_r.
  split.
  - intros [= <-]. by rewrite Hd.
  - intros (H1 & H2 & [= H3]). f_equal. apply digits_val_inj; try done; congruence.
Qed.

Definition matches (secret submitted : string) (lastUsedStep step : Z) : Prop :=
  0 <= step /\ lastUsedStep < step /\ hotpCode hmac_sha1 secret step totpDigits = Some submitted.

Lemma match_fold secret submitted cur lastUsedStep offs m0 :
  String.length submitted = totpDigits -> all_bytes is_digit submitted = true ->
  exists r, foldl (match_step hmac_sha1 secret (digits_val 0 submitted) cur lastUsedStep) (Some m0) offs = Some r /\
    m0 <= r /\ (r = m0 \/ exists o, o ∈ offs /\ r = cur + o /\ matches secret submitted lastUsedStep r) /\
    forall o, o ∈ offs -> matches secret submitted lastUsedStep (cur + o) -> cur + o <= r.
Proof.
  intros Hl Hd. revert m0. induction offs as [|o offs IH]; intros m0; cbn [foldl].
  { exists m0. split_and!; [done|lia|by left|]. intros o Ho. destruct (not_elem_of_nil _ Ho). }
  set (m1 := if decide (matches secret submitted lastUsedStep (cur + o)) then Z.max m0 (cur + o) else m0).
  assert (E : match_step hmac_sha1 secret (digits_val 0 submitted) cur lastUsedStep (Some m0) o = Some m1).
  { unfold match_step. cbn [mbind option_bind]. destruct (hotpValue_total secret (cur + o)) as (v & Hv & _).
    unfold m1, matches. rewrite Hv. cbn [mbind option_bind].
    destruct (Z.leb_spec 0 (cur + o)); [|rewrite decide_False by lia; done].
    destruct (Z.ltb_spec lastUsedStep (cur + o)); [|rewrite decide_False by lia; done]. cbn [andb].
    destruct (Z.eqb_spec v (digits_val 0 submitted)) as [->|Hne]; cbn [andb].
    - rewrite decide_True by (split_and!; [lia..|by apply hotpCode_spec]). destruct (Z.ltb_spec m0 (cur + o)); f_equal; lia.
    - rewrite decide_False; [done|]. intros (_ & _ & Hc). apply hotpCode_spec in Hc as (_ & _ & Hc). congruence. }
  rewrite E. destruct (IH m1) as (r & Hr & Hle & Hor & Hall). exists r. split; [done|].
  unfold m1 in *. destruct (decide (matches secret submitted lastUsedStep (cur + o))) as [Hm|Hm].
  - split_and!; [lia| |].
    + destruct Hor as [->|(o' & Ho' & H')]; [|right; exists o'; split; [by right|done]].
      destruct (Z.max_spec m0 (cur + o)) as [[? ->]|[? ->]]; [right; exists o; split; [by left|done]|by left].
    + intros o' [->|Ho']%elem_of_cons Hm'; [lia|by apply Hall].
  - split_and!; [lia| |].
    + destruct Hor as [->|(o' & Ho' & H')]; [by left|right; exists o'; split; [by right|done]].
    + intros o' [->|Ho']%elem_of_cons Hm'; [done|by apply Hall].
Qed.

(** A submitted code is accepted exactly when it is the code of a step of the window
    around the present, later than every step used before, and the greatest such step
    is the one that is spent; no submission makes the check panic. *)
Theorem matchTOTP_spec secret submitted now lastUsedStep m :
  0 <= now ->
  let window step := now / totpPeriod - 1 <= step <= now / totpPeriod + 1 /\ matches secret submitted lastUsedStep step in
  matchTOTP hmac_sha1 secret submitted now lastUsedStep <> None /\
  (matchTOTP hmac_sha1 secret submitted now lastUsedStep = Some (m, true) <->
   String.length secret = totpSecretBytes /\ window m /\ forall step, window step -> step <= m).
Proof.
  intros Hnow window. unfold matchTOTP. rewrite Z.quot_div_nonneg by (unfold totpPeriod; lia).
  unfold window. clear window. set (cur := now / totpPeriod). clearbody cur.
  set (window := fun step => cur - 1 <= step <= cur + 1 /\ matches secret submitted lastUsedStep step).
  change (cur - 1 <= m <= cur + 1 /\ matches secret submitted lastUsedStep m) with (window m).
  assert (Hw : forall step, window step -> String.length submitted = totpDigits /\ all_bytes is_digit submitted = true).
  { intros step (_ & _ & _ & Hc). by apply hotpCode_spec in Hc as (? & ? & _). }
  destruct (Nat.eqb_spec (String.length secret) totpSecretBytes) as [Hs|Hs]; cbn [negb orb].
  2: { split; [done|]. split; [done|intros (? & _); done]. }
  destruct (Nat.eqb_spec (String.length submitted) totpDigits) as [Hl|Hl]; cbn [negb].
  2: { split; [done|]. split; [done|intros (_ & H & _); by destruct (Hw _ H)]. }
  rewrite submitted_value_spec; [|lia|rewrite Hl; by vm_compute].
  destruct (all_bytes is_digit submitted) eqn:Hd.
  2: { split; [done|]. split; [done|intros (_ & H & _); by destruct (Hw _ H)]. }
  destruct (match_fold secret submitted cur lastUsedStep [-1; 0; 1] (-1) Hl Hd) as (r & Hr & Hge & Hor & Hall).
  rewrite Hr. cbn [mbind option_bind]. split; [done|].
  assert (Hall' : forall step, window step -> step <= r).
  { intros step (Hstep & Hm). replace step with (cur + (step - cur)) by lia. apply Hall.
    - rewrite !elem_of_cons, elem_of_nil. lia.
    - by replace (cur + (step - cur)) with step by lia. }
  split.
  - intros [= <- Hpos]. bool_simpl. destruct Hor as [?|(o & Ho & -> & Hm)]; [lia|]. split_and!; try done.
    split; [|done]. rewrite !elem_of_cons, elem_of_nil in Ho. lia.
  - intros (_ & Hm & Hmax). pose proof (Hall' _ Hm) as Hmr. destruct Hm as (Hr1 & Hr2 & Hr3 & Hr4).
    assert (r <= m).
    { destruct Hor as [->|(o & Ho & -> & Hmo)]; [lia|]. apply Hmax. split; [|done]. rewrite !elem_of_cons, elem_of_nil in Ho. lia. }
    assert (r = m) as -> by lia. f_equal. f_equal. by apply Z.leb_le.
Qed.
End CodeFacts.

(** * Recovery codes *)

(** What a typed code stands for: the separators dropped, the letters raised. *)
Fixpoint canonical (s : string) : string :=
  match s with
  | EmptyString => ""
  | String c s => if is_separator c then canonical s else String (upper c) (canonical s)
  end.

Ltac by_byte c := destruct c as [[] [] [] [] [] [] [] []]; vm_compute; done.

Lemma base32_letter_upper c : base32_letter c = true -> upper c = c /\ is_separator c = false.
Proof. by_byte c. Qed.

Lemma canonical_app s t : canonical (s +:+ t) = canonical s +:+ canonical t.
Proof.
  induction s as [|c s IH]; [done|]. rewrite append_cons. cbn [canonical]. destruct (is_separator c); [done|].
  by rewrite append_cons, IH.
Qed.

Lemma canonical_from_spec n s :
  (n <= recoveryCodeEncoded)%nat ->
  canonical_from n s =
    if (n + String.length (canonical s) =? recoveryCodeEncoded)%nat && all_bytes base32_letter (canonical s)
    then Ok (canonical s) else Err ErrMalformedFactorCode.
Proof.
  revert n. induction s as [|c s IH]; intros n Hn; cbn [canonical_from canonical].
  { cbn [String.length all_bytes]. rewrite Nat.add_0_r, andb_true_r. done. }
  destruct (is_separator c); [by apply IH|]. cbn [String.length all_bytes]. rewrite <- Nat.add_succ_comm.
  destruct (base32_letter (upper c)); cbn [negb orb andb]; [|by rewrite andb_false_r].
  destruct (Nat.leb_spec recoveryCodeEncoded n).
  - rewrite (proj2 (Nat.eqb_neq _ _)) by lia. done.
  - rewrite IH by lia. destruct (_ && _); done.
Qed.

Lemma base32_char_letter a b c d e : base32_letter (base32_char (bits_val [a; b; c; d; e])) = true.
Proof. by destruct a, b, c, d, e. Qed.

Lemma base32_groups_letters n bs :
  length bs = (5 * n)%nat ->
  all_bytes base32_letter (base32_groups bs) = true /\ String.length (base32_groups bs) = n.
Proof.
  revert bs. induction n as [|n IH]; intros bs Hl; [by destruct bs|].
  destruct bs as [|a [|b [|c [|d [|e bs]]]]]; cbn in Hl; try lia.
  cbn -[bits_val]. rewrite base32_char_letter. destruct (IH bs ltac:(lia)) as [-> ->]. done.
Qed.

Lemma string_bits_length s : length (string_bits s) = (8 * String.length s)%nat.
Proof. induction s as [|c s IH]; [done|]. cbn -[Nat.mul]. rewrite IH. lia. Qed.

Lemma canonical_letters s : all_bytes base32_letter s = true -> canonical s = s.
Proof.
  induction s as [|c s IH]; [done|]. cbn [all_bytes canonical]. intros H. bool_simpl.
  destruct (base32_letter_upper c ltac:(done)) as [-> ->]. by rewrite IH.
Qed.

Lemma canonical_format i s : all_bytes base32_letter s = true -> canonical (format_loop i s) = s.
Proof.
  revert i. induction s as [|c s IH]; intros i H; [done|]. cbn [all_bytes] in H. bool_simpl. cbn [format_loop].
  rewrite canonical_app. replace (canonical (if _ : bool then _ else _)) with "" by (by destruct (_ && _)).
  rewrite append_nil_l. cbn [canonical]. destruct (base32_letter_upper c ltac:(done)) as [-> ->]. by rewrite IH.
Qed.

Lemma format_length s : String.length s = recoveryCodeEncoded -> String.length (format_loop 0 s) = 29%nat.
Proof.
  intros H. do 24 (destruct s as [|? s]; [discriminate H|]). destruct s; [reflexivity|discriminate H].
Qed.

Lemma formatRecoveryCode_code raw :
  String.length raw = recoveryCodeBytes ->
  exists code, formatRecoveryCode (EncodeToString raw) = Some code /\ canonical code = EncodeToString raw /\
    String.length (EncodeToString raw) = recoveryCodeEncoded /\ all_bytes base32_letter (EncodeToString raw) = true.
Proof.
  intros Hr. unfold EncodeToString. destruct (base32_groups_letters recoveryCodeEncoded (string_bits raw)) as [Ha Hl].
  { by rewrite string_bits_length, Hr. }
  exists (format_loop 0 (base32_groups (string_bits raw))). unfold formatRecoveryCode.
  rewrite format_length by done. cbn [Nat.leb Nat.add recoveryCodeEncoded]. split_and!; try done. by apply canonical_format.
Qed.

(** A recovery code is recognised however it is typed: every generated code, with its
    separators moved or dropped and its letters in either case, has the digest that was
    stored for it, and a text has a digest exactly when it stands for twenty-four
    letters of the alphabet. *)
Theorem recovery_roundtrip sha256 raws :
  Forall (fun raw => String.length raw = recoveryCodeBytes) raws ->
  (exists codes digests, generateRecoveryCodes sha256 raws = Some (codes, digests) /\
    Forall2 (fun code digest => forall typed, canonical typed = canonical code ->
      recoveryCodeDigest sha256 typed = Ok digest) codes digests) /\
  forall typed, recoveryCodeDigest sha256 typed =
    if (String.length (canonical typed) =? recoveryCodeEncoded)%nat && all_bytes base32_letter (canonical typed)
    then Ok (sha256 (canonical typed)) else Err ErrMalformedFactorCode.
Proof.
  intros Hraws.
  assert (Hspec : forall typed, recoveryCodeDigest sha256 typed =
    if (String.length (canonical typed) =? recoveryCodeEncoded)%nat && all_bytes base32_letter (canonical typed)
    then Ok (sha256 (canonical typed)) else Err ErrMalformedFactorCode).
  { intros typed. unfold recoveryCodeDigest. rewrite canonical_from_spec by lia. cbn [Nat.add]. by destruct (_ && _). }
  split; [|exact Hspec]. unfold generateRecoveryCodes.
  assert (Hm : exists codes, mapM (fun raw => formatRecoveryCode (EncodeToString raw)) raws = Some codes /\
    Forall2 (fun code digest => forall typed, canonical typed = canonical code ->
      recoveryCodeDigest sha256 typed = Ok digest) codes ((fun raw => sha256 (EncodeToString raw)) <$> raws)).
  { induction Hraws as [|raw raws Hr Hraws (codes & Hc & Hf)]; [by exists []|].
    destruct (formatRecoveryCode_code raw Hr) as (code & Hcode & Hcan & Hl & Ha).
    exists (code :: codes). cbn. rewrite Hcode. cbn. rewrite Hc. split; [done|].
    constructor; [|exact Hf]. intros typed Ht. by rewrite Hspec, Ht, Hcan, Hl, Ha. }
  destruct Hm as (codes & -> & Hf). cbn. eauto.
Qed.

(** * Witnesses *)

Definition toy_hmac (key message : string) : string := stake 20 (message +:+ "....................").

Lemma stake_length n s : (n <= String.length s)%nat -> String.length (stake n s) = n.
Proof. revert s. induction n as [|n IH]; intros [|c s] Hn; cbn in *; try lia. by rewrite IH by lia. Qed.

Lemma toy_hmac_20 key message : String.length (toy_hmac key message) = 20%nat.
Proof. apply stake_length. rewrite append_length. cbn. lia. Qed.

Lemma matchTOTP_spec_witness :
  let secret := "01234567890123456789" in
  let code := default "" (hotpCode toy_hmac secret 4 totpDigits) in
  matchTOTP toy_hmac secret code 100 3 = Some (4, true) /\
  matchTOTP toy_hmac secret code 100 4 <> Some (4, true).
Proof.
  intros secret code. pose proof (matchTOTP_spec toy_hmac toy_hmac_20 secret code 100 3 4 ltac:(lia)) as [_ H].
  split; [vm_compute; reflexivity|]. vm_compute. discriminate.
Defined.

Lemma recovery_roundtrip_witness :
  exists codes digests, generateRecoveryCodes (fun s => s) ["fifteen bytes.."; "another fifteen"] = Some (codes, digests) /\
    recoveryCodeDigest (fun s => s) " mzux-izlf mv4c4..." = Err ErrMalformedFactorCode /\
    Forall2 (fun code digest => recoveryCodeDigest (fun s => s) code = Ok digest) codes digests.
Proof.
  destruct (recovery_roundtrip (fun s => s) ["fifteen bytes.."; "another fifteen"]) as [(codes & digests & Hg & Hf) Hspec].
  { repeat constructor. }
  exists codes, digests. split; [exact Hg|]. split; [vm_compute; reflexivity|].
  eapply Forall2_impl; [exact Hf|]. intros code digest H. by apply H.
Defined.
