(* ===== verification/Factor.v ===== *)
(** The second factor of local accounts ([plugins/local-auth/factor_auth.go], the write
    transactions of [twofactor_handlers.go] and [handlers.go], and [offline_reset.go]):
    preparing a submitted code against a snapshot, spending it in a later transaction,
    counting failures, enrolment, recovery codes and resets.

    [decide_factor] is what [prepareFactor] decides on the snapshot it is given; the
    write of a rejection and the spending of an accepted code are transactions of their
    own, so that other requests can come between.  Password hashing, the sealing key and
    random bytes are parameters or arguments; times are Unix seconds, durations
    nanoseconds. *)
From S2P Require Import Prelude GoStd Utf8 Sqlite Systems Principal Totp.

Definition Second : Z := 1000000000.
Definition factorFreeAttempts : Z := 5.
Definition factorFirstBlock : Z := 30 * Second.
Definition factorMaxBlock : Z := 3600 * Second.
Definition factorLockoutLimit : Z := 100.

Inductive factor_error : Type :=
  | ErrInvalidCredentials | ErrTwoFactorRequired | ErrFactorRejected | ErrFactorKeyMissing | ErrFactorLocked
  | ErrRateLimit (retryAfter : Z) | ErrOpen | ErrPanic
  | ErrSessionRequired | ErrAlreadyEnabled | ErrFactorDisabled | ErrTargetNotFound | ErrAdminRequired
  | ErrTokenSystemUnavailable | ErrResetUserNotFound | ErrConstraint (message : string).
#[export] Instance factor_error_eq_dec : EqDecision factor_error.
Proof. solve_decision. Defined.

(** * Tables *)

Record totp : Type := Totp {
  secret_ciphertext : string; last_used_step : Z; failed_attempts : Z; blocked_until : Z; enabled_at : Z;
}.
Record session : Type := Session { ss_user : Z; ss_created_at : Z; ss_expires_at : Z }.
Record api_token : Type := ApiToken {
  tk_system : Z; tk_user : Z; tk_name : string; tk_hash : string; tk_scopes : string; tk_created_at : Z;
}.
Record tables : Type := Tables {
  dir : directory;
  local_auth_totp : gmap Z totp;
  local_auth_recovery_codes : gset (Z * string);
  sessions : gmap string session;
  mobile_pairings : gset Z;
  api_tokens : gmap Z api_token;
}.
Definition with_totp (f : gmap Z totp -> gmap Z totp) (s : tables) : tables :=
  Tables (dir s) (f (local_auth_totp s)) (local_auth_recovery_codes s) (sessions s) (mobile_pairings s) (api_tokens s).
Definition with_codes (f : gset (Z * string) -> gset (Z * string)) (s : tables) : tables :=
  Tables (dir s) (local_auth_totp s) (f (local_auth_recovery_codes s)) (sessions s) (mobile_pairings s) (api_tokens s).
Definition with_sessions (f : gmap string session -> gmap string session) (s : tables) : tables :=
  Tables (dir s) (local_auth_totp s) (local_auth_recovery_codes s) (f (sessions s)) (mobile_pairings s) (api_tokens s).
Definition with_pairings (f : gset Z -> gset Z) (s : tables) : tables :=
  Tables (dir s) (local_auth_totp s) (local_auth_recovery_codes s) (sessions s) (f (mobile_pairings s)) (api_tokens s).
Definition with_tokens (f : gmap Z api_token -> gmap Z api_token) (s : tables) : tables :=
  Tables (dir s) (local_auth_totp s) (local_auth_recovery_codes s) (sessions s) (mobile_pairings s) (f (api_tokens s)).

(** * Failures *)

(** The loop of [factorBlockFor]: [n] doublings at most. *)
Fixpoint double_block (n : nat) (block : Z) : Z :=
  match n with
  | O => block
  | S n => if block <? factorMaxBlock then double_block n (block * 2) else block
  end.
Definition factorBlockFor (failures : Z) : Z :=
  if failures <? factorFreeAttempts then 0
  else Z.min (double_block (Z.to_nat (failures - factorFreeAttempts)) factorFirstBlock) factorMaxBlock.

Definition failed_at (now : Z) (t : totp) : totp :=
  let failures := failed_attempts t + 1 in
  let block := factorBlockFor failures in
  Totp (secret_ciphertext t) (last_used_step t) failures
    (if block =? 0 then blocked_until t else now + block / Second) (enabled_at t).

Definition rejectFactor (userID now : Z) (s : tables) : factor_error * tables :=
  match local_auth_totp s !! userID with
  | None => (ErrInvalidCredentials, s)
  | Some t =>
      let failures := failed_attempts t + 1 in
      let block := factorBlockFor failures in
      (if factorLockoutLimit <=? failures then ErrFactorLocked
       else if 0 <? block then ErrRateLimit (block / Second) else ErrInvalidCredentials,
       with_totp <[userID := failed_at now t]> s)
  end.

(** * Preparing a code *)

Inductive factorUse : Type :=
  | NoUse                                               (* requiresUsage is false *)
  | UseTOTP (ciphertext : string) (matchedStep : Z)
  | UseRecovery (digest : string).
#[export] Instance factorUse_eq_dec : EqDecision factorUse.
Proof. solve_decision. Defined.
Definition requiresUsage (use : factorUse) : bool := match use with NoUse => false | _ => true end.

Inductive decision : Type := Refused (e : factor_error) | Reject | Prepared (use : factorUse).

Section Factor.
Context (hmac_sha1 : string -> string -> string) (sha256 : string -> string)
  (secretKey : option (string -> option string)).        (* [Open] of the loaded key *)

(** [factorState] is the row of the account, if it has one. *)
Definition decide_factor (state : option totp) (submitted : string) (now : Z) : decision :=
  match state with
  | None => Prepared NoUse
  | Some t =>
      if bool_decide (submitted = "") then Refused ErrTwoFactorRequired
      else if factorLockoutLimit <=? failed_attempts t then Refused ErrFactorLocked
      else if now <? blocked_until t then Refused (ErrRateLimit (blocked_until t - now))
      else match secretKey with
      | None => Refused ErrFactorKeyMissing
      | Some open =>
          if (String.length submitted =? totpDigits)%nat then
            match open (secret_ciphertext t) with
            | None => Refused ErrOpen
            | Some secret =>
                match matchTOTP hmac_sha1 secret submitted now (last_used_step t) with
                | None => Refused ErrPanic
                | Some (step, ok) => if ok : bool then Prepared (UseTOTP (secret_ciphertext t) step) else Reject
                end
            end
          else match recoveryCodeDigest sha256 submitted with
               | Err _ => Reject
               | Ok digest => Prepared (UseRecovery digest)
               end
      end
  end.

Definition prepareFactor (userID : Z) (state : option totp) (submitted : string) (now : Z) (s : tables)
    : result factor_error factorUse * tables :=
  match decide_factor state submitted now with
  | Refused e => (Err e, s)
  | Reject => let '(e, s) := rejectFactor userID now s in (Err e, s)
  | Prepared use => (Ok use, s)
  end.

(** * Spending a code *)

Definition reset_failures (t : totp) : totp :=
  Totp (secret_ciphertext t) (last_used_step t) 0 0 (enabled_at t).
Definition use_step (step : Z) (t : totp) : totp :=
  Totp (secret_ciphertext t) step 0 0 (enabled_at t).

Definition consume (use : factorUse) (userID : Z) (s : tables) : result factor_error tables :=
  match use with
  | NoUse =>
      match local_auth_totp s !! userID with Some _ => Err ErrTwoFactorRequired | None => Ok s end
  | UseRecovery digest =>
      require bool_decide ((userID, digest) ∈ local_auth_recovery_codes s) else ErrFactorRejected in
      Ok (with_totp (alter reset_failures userID) (with_codes (fun c => c ∖ {[(userID, digest)]}) s))
  | UseTOTP ciphertext matchedStep =>
      match local_auth_totp s !! userID with
      | Some t =>
          require bool_decide (secret_ciphertext t = ciphertext) && (last_used_step t <? matchedStep)
            else ErrFactorRejected in
          Ok (with_totp <[userID := use_step matchedStep t]> s)
      | None => Err ErrFactorRejected
      end
  end.

(** A transaction that begins with [consume]; a spent code counts as a failure. *)
Definition commit_factor {A} (userID now : Z) (tx : tables -> result factor_error (A * tables)) (s : tables)
    : result factor_error A * tables :=
  match tx s with
  | Ok (a, s) => (Ok a, s)
  | Err ErrFactorRejected => let '(e, s) := rejectFactor userID now s in (Err e, s)
  | Err e => (Err e, s)
  end.

Definition VerifySecondFactor (userID now : Z) (code : string) (s : tables) : result factor_error unit * tables :=
  match local_auth_totp s !! userID with
  | None => (Ok tt, s)
  | Some t =>
      match prepareFactor userID (Some t) (TrimSpace code) now s with
      | (Err e, s) => (Err e, s)
      | (Ok use, s) => commit_factor userID now (fun s => s ← consume use userID s; Ok (tt, s)) s
      end
  end.

(** [factorErrorResponse]: status, code and seconds to wait. *)
Definition factorErrorResponse (e : factor_error) : Z * string * Z :=
  match e with
  | ErrRateLimit retryAfter => (429, "too_many_attempts", retryAfter)
  | ErrFactorLocked => (403, "two_factor_locked", 0)
  | ErrTwoFactorRequired => (401, "two_factor_required", 0)
  | ErrInvalidCredentials => (401, "invalid_credentials", 0)
  | _ => (500, "server_error", 0)
  end.

(** * Sessions and tokens *)

Record PreparedSession : Type := MkPrepared { digest : string; createdAt : Z; expiresAt : Z }.

Definition insert_session (p : PreparedSession) (userID : Z) (s : tables) : result factor_error tables :=
  fail_if bool_decide (is_Some (sessions s !! digest p)) with ErrConstraint "sessions.id" in
  require bool_decide (is_Some (users (dir s) !! userID)) else ErrConstraint "FOREIGN KEY" in
  Ok (with_sessions <[digest p := Session userID (createdAt p) (expiresAt p)]> s).
Definition delete_sessions (userID : Z) (s : tables) : Z * tables :=
  (Z.of_nat (size (filter (fun x => ss_user x.2 = userID) (sessions s))),
   with_sessions (filter (fun x => ss_user x.2 <> userID)) s).
Definition Rotate (p : PreparedSession) (userID : Z) (s : tables) : result factor_error (Z * tables) :=
  let '(revoked, s) := delete_sessions userID s in
  s ← insert_session p userID s; Ok (revoked, s).

Record preparedAPIToken : Type := MkPreparedToken { pt_hash : string; pt_name : string; pt_scopes : string; pt_createdAt : Z }.
Definition insert_token (p : preparedAPIToken) (userID systemID : Z) (s : tables) : result factor_error tables :=
  require CanEnter (dir s) userID systemID else ErrTokenSystemUnavailable in
  fail_if exists_row (fun _ t => bool_decide (tk_hash t = pt_hash p)) (api_tokens s) with ErrConstraint "api_tokens.token_hash" in
  Ok (with_tokens (fun m => <[next_rowid m :=
        ApiToken systemID userID (pt_name p) (pt_hash p) (pt_scopes p) (pt_createdAt p)]> m) s).

(** The write transactions of [LoginHandler] and [TokenHandler]. *)
Definition login_tx (p : PreparedSession) (use : factorUse) (userID : Z) (s : tables) : result factor_error (unit * tables) :=
  s ← consume use userID s;
  s ← insert_session p userID (with_sessions (filter (fun x => ~ ss_expires_at x.2 <= createdAt p)) s);
  Ok (tt, s).
Definition token_tx (p : preparedAPIToken) (systemID : Z) (use : factorUse) (userID : Z) (s : tables)
    : result factor_error (unit * tables) :=
  s ← consume use userID s; s ← insert_token p userID systemID s; Ok (tt, s).

(** [verifyCredentials]: the enabled account with the email and its factor row; whether
    the password is its password is a parameter. *)
Context (to_lower : string -> string) (password_ok : Z -> string -> bool).

Definition verifyCredentials (email password : string) (s : tables) : result factor_error (Z * option totp) :=
  let email := to_lower (TrimSpace email) in
  match filter (fun x => u_email x.2 = email /\ u_disabled x.2 = false) (map_to_list (users (dir s))) with
  | [] => Err ErrInvalidCredentials
  | (userID, _) :: _ =>
      require password_ok userID password else ErrInvalidCredentials in
      Ok (userID, local_auth_totp s !! userID)
  end.
Definition prepareCredentials (now : Z) (email password code : string) (s : tables)
    : result factor_error (Z * factorUse) * tables :=
  match verifyCredentials email password s with
  | Err e => (Err e, s)
  | Ok (userID, state) =>
      let '(r, s) := prepareFactor userID state code now s in (pair userID <$> r, s)
  end.
Definition LoginHandler (now : Z) (email password code : string) (p : PreparedSession) (s : tables)
    : result factor_error unit * tables :=
  match prepareCredentials now email password code s with
  | (Err e, s) => (Err e, s)
  | (Ok (userID, use), s) => commit_factor userID now (login_tx p use userID) s
  end.
Definition TokenHandler (now : Z) (email password code : string) (p : preparedAPIToken) (systemID : Z) (s : tables)
    : result factor_error unit * tables :=
  match prepareCredentials now email password code s with
  | (Err e, s) => (Err e, s)
  | (Ok (userID, use), s) => commit_factor userID now (token_tx p systemID use userID) s
  end.

(** * Enrolment, recovery codes and resets *)

(** [requireFactorSession]: a live browser session of this origin, outside the demo. *)
Definition requireFactorSession (demoMode mutation same_origin has_authorization : bool) (now : Z)
    (p : option Principal) : option Principal :=
  if demoMode || mutation && negb same_origin then None
  else match p with
  | Some p =>
      if bool_decide (p_Kind p = "user") && (p_TokenID p =? 0) && negb (bool_decide (p_SessionID p = ""))
         && (now <? p_AuthExpiresAt p) && negb has_authorization then Some p else None
  | None => None
  end.

Definition requireActiveSession (now : Z) (p : Principal) (s : tables) : bool :=
  match sessions s !! p_SessionID p with
  | Some x => (ss_user x =? p_UserID p) && (now <? ss_expires_at x)
  | None => false
  end.

Fixpoint insertRecoveryCodes (userID : Z) (digests : list string) (s : tables) : result factor_error tables :=
  match digests with
  | [] => Ok s
  | d :: digests =>
      fail_if bool_decide ((userID, d) ∈ local_auth_recovery_codes s) with ErrConstraint "PRIMARY KEY" in
      insertRecoveryCodes userID digests (with_codes (union {[(userID, d)]}) s)
  end.
Definition delete_codes (userID : Z) (s : tables) : tables := with_codes (filter (fun x => x.1 <> userID)) s.
Definition delete_totp (userID : Z) (s : tables) : tables := with_totp (delete userID) s.

Record enrollmentPayload : Type := MkPayload { pl_user : Z; pl_session : string; pl_secret : string; pl_expires_at : Z }.

(** The checks of [EnableTwoFactor] before its transaction, on the opened token: the
    step whose code the user typed. *)
Definition check_enrollment (now : Z) (p : Principal) (payload : option enrollmentPayload) (code : string) : result factor_error Z :=
  match payload with
  | None => Err ErrInvalidCredentials
  | Some pl =>
      fail_if negb (pl_user pl =? p_UserID p) || negb (bool_decide (pl_session pl = p_SessionID p))
              || (pl_expires_at pl <=? now) with ErrInvalidCredentials in
      match matchTOTP hmac_sha1 (pl_secret pl) code now (-1) with
      | Some (step, true) => Ok step
      | Some (_, false) => Err ErrInvalidCredentials
      | None => Err ErrPanic
      end
  end.

Definition enable_tx (now : Z) (p : Principal) (ciphertext : string) (matchedStep : Z) (digests : list string)
    (prepared : PreparedSession) (s : tables) : result factor_error tables :=
  let userID := p_UserID p in
  require requireActiveSession now p s else ErrSessionRequired in
  fail_if bool_decide (is_Some (local_auth_totp s !! userID)) with ErrAlreadyEnabled in
  fail_if matchedStep <? 0 with ErrConstraint "last_used_step" in
  require bool_decide (is_Some (users (dir s) !! userID)) else ErrConstraint "FOREIGN KEY" in
  let s := with_totp <[userID := Totp ciphertext matchedStep 0 0 now]> s in
  s ← insertRecoveryCodes userID digests (delete_codes userID s);
  '(_, s) ← Rotate prepared userID s;
  Ok (with_pairings (fun m => m ∖ {[userID]}) s).

(** The transaction of [changeTwoFactor]: new digests, or [None] to disable. *)
Definition change_tx (now : Z) (p : Principal) (operation : option (list string)) (prepared : PreparedSession)
    (use : factorUse) (s : tables) : result factor_error (unit * tables) :=
  let userID := p_UserID p in
  require requireActiveSession now p s else ErrSessionRequired in
  s ← consume use userID s;
  require requiresUsage use else ErrFactorDisabled in
  let s := delete_codes userID s in
  s ← match operation with
      | None =>
          require bool_decide (is_Some (local_auth_totp s !! userID)) else ErrFactorDisabled in
          Ok (delete_totp userID s)
      | Some digests => insertRecoveryCodes userID digests s
      end;
  '(_, s) ← Rotate prepared userID s;
  Ok (tt, s).

(** The transaction of [AdminResetTwoFactor]. *)
Definition admin_reset_tx (now : Z) (p : Principal) (targetID : Z) (use : factorUse) (s : tables)
    : result factor_error (unit * tables) :=
  require requireActiveSession now p s else ErrSessionRequired in
  match users (dir s) !! p_UserID p with
  | None => Err ErrSessionRequired
  | Some u =>
      fail_if u_disabled u with ErrSessionRequired in
      require bool_decide (u_role u = "admin") else ErrAdminRequired in
      require bool_decide (is_Some (users (dir s) !! targetID)) else ErrTargetNotFound in
      require bool_decide (is_Some (local_auth_totp s !! targetID)) else ErrFactorDisabled in
      s ← consume use (p_UserID p) s;
      Ok (tt, (delete_sessions targetID (delete_totp targetID (delete_codes targetID s))).2)
  end.

(** [ResetTwoFactor], the offline command. *)
Definition ResetTwoFactor (email : string) (s : tables) : result factor_error (Z * bool * Z * tables) :=
  let email := to_lower (TrimSpace email) in
  fail_if bool_decide (email = "") with ErrResetUserNotFound in
  match filter (fun x => u_email x.2 = email) (map_to_list (users (dir s))) with
  | [] => Err ErrResetUserNotFound
  | (userID, _) :: _ =>
      let wasEnabled := bool_decide (is_Some (local_auth_totp s !! userID)) in
      let '(revoked, s) := delete_sessions userID (delete_totp userID (delete_codes userID s)) in
      Ok (userID, wasEnabled, revoked, s)
  end.
End Factor.
