(* ===== verification/FactorFacts.v ===== *)
(** What the second factor promises: a code is spent once whatever comes between its
    preparation and its use, the waiting time that a series of failures costs, and the
    effect of an accepted code that was prepared before the lock. *)
From S2P Require Import Prelude GoStd Utf8 Sqlite Systems Principal Totp Factor.

(** * Waiting times *)

Lemma double_block_spec n block :
  0 <= block -> Z.min (double_block n block) factorMaxBlock = Z.min (block * 2 ^ Z.of_nat n) factorMaxBlock.
Proof.
  revert block. induction n as [|n IH]; intros block Hb; cbn [double_block]; [by rewrite Z.mul_1_r|].
  rewrite Nat2Z.inj_succ, Z.pow_succ_r by lia.
  assert (0 < 2 ^ Z.of_nat n) by (apply Z.pow_pos_nonneg; lia).
  destruct (Z.ltb_spec block factorMaxBlock).
  - rewrite IH by lia. f_equal. lia.
  - rewrite !Z.min_r; [done| nia | nia].
Qed.

Lemma factorBlockFor_closed failures :
  factorBlockFor failures =
    if failures <? 5 then 0 else Z.min (factorFirstBlock * 2 ^ (failures - 5)) factorMaxBlock.
Proof.
  unfold factorBlockFor, factorFreeAttempts. destruct (Z.ltb_spec failures 5); [done|].
  rewrite double_block_spec by (unfold factorFirstBlock, Second; lia). by rewrite Z2Nat.id by lia.
Qed.

Lemma factorBlockFor_bounds failures :
  0 <= factorBlockFor failures <= factorMaxBlock /\ (factorBlockFor failures = 0 <-> failures < 5) /\
  factorBlockFor failures mod Second = 0.
Proof.
  rewrite factorBlockFor_closed. unfold factorMaxBlock, factorFirstBlock.
  destruct (Z.ltb_spec failures 5); [split; [unfold Second; lia|split; [lia|done]]|].
  assert (0 < 2 ^ (failures - 5)) by (apply Z.pow_pos_nonneg; lia).
  split; [unfold Second; nia|]. split; [unfold Second; split; [nia|lia]|].
  replace (Z.min (30 * Second * 2 ^ (failures - 5)) (3600 * Second))
    with (Z.min (30 * 2 ^ (failures - 5)) 3600 * Second) by (unfold Second; nia).
  by rewrite Z.mod_mul.
Qed.

(** The seconds that must pass before the n-th failure is counted. *)
Fixpoint wait (n : nat) : Z :=
  match n with O => 0 | S n => wait n + factorBlockFor (Z.of_nat n) / Second end.

Section Facts.
Context (hmac_sha1 : string -> string -> string) (sha256 : string -> string)
  (secretKey : option (string -> option string))
  (to_lower : string -> string) (password_ok : Z -> string -> bool).
Abbreviation decide_factor := (decide_factor hmac_sha1 sha256 secretKey).
Abbreviation VerifySecondFactor := (VerifySecondFactor hmac_sha1 sha256 secretKey).

(** * A code prepared now can be spent now *)

Lemma decide_use state submitted now use :
  decide_factor state submitted now = Prepared use ->
  match use with
  | NoUse => state = None
  | UseTOTP ciphertext step => exists t, state = Some t /\ secret_ciphertext t = ciphertext /\ last_used_step t < step /\
      failed_attempts t < factorLockoutLimit /\ blocked_until t <= now
  | UseRecovery _ => exists t, state = Some t /\ failed_attempts t < factorLockoutLimit /\ blocked_until t <= now
  end.
Proof.
  unfold Factor.decide_factor. destruct state as [t|]; [|by intros [= <-]]. intros H. split_flow_in H;
    injection H as <-; bool_simpl; eauto 10 using matchTOTP_later.
Qed.

(** The failures counted so far and when the next one can be counted, after a series of
    attempts that began at [t0] and whose latest was at [now]. *)
Definition paced (t0 now : Z) (t : totp) : Prop :=
  0 <= failed_attempts t <= factorLockoutLimit /\ t0 <= now /\
  t0 + wait (Z.to_nat (failed_attempts t)) <= now /\
  (5 <= failed_attempts t -> t0 + wait (Z.to_nat (failed_attempts t) + 1) <= blocked_until t).

Lemma paced_failed t0 now now' t :
  paced t0 now t -> now <= now' -> failed_attempts t < factorLockoutLimit -> blocked_until t <= now' ->
  paced t0 now' (failed_at now' t).
Proof.
  intros ((H0 & H1) & H2 & H3 & H4) Hle Hlt Hb. unfold paced, failed_at. cbn [failed_attempts blocked_until].
  replace (Z.to_nat (failed_attempts t + 1)) with (Z.to_nat (failed_attempts t) + 1)%nat by lia.
  assert (Hw : t0 + wait (Z.to_nat (failed_attempts t) + 1) <= now').
  { destruct (Z.le_gt_cases 5 (failed_attempts t)); [specialize (H4 ltac:(done)); lia|].
    rewrite Nat.add_1_r. cbn [wait]. rewrite Z2Nat.id by lia.
    destruct (factorBlockFor_bounds (failed_attempts t)) as (_ & [_ Hz] & _). rewrite Hz by lia.
    change (0 / Second) with 0. lia. }
  split_and!; [lia|lia|lia|done|].
  intros H5. destruct (factorBlockFor_bounds (failed_attempts t + 1)) as (_ & Hz & _).
  rewrite (proj2 (Z.eqb_neq _ _)) by (rewrite Hz; lia).
  rewrite (Nat.add_1_r (_ + 1)). cbn [wait]. rewrite Nat.add_1_r, Nat2Z.inj_succ, Z2Nat.id, <- Z.add_1_r by lia.
  rewrite Nat.add_1_r in Hw. lia.
Qed.

Lemma paced_later t0 now now' t : paced t0 now t -> now <= now' -> paced t0 now' t.
Proof. intros (H0 & H1 & H2 & H3) Hle. split_and!; try done; lia. Qed.

(** An attempt either is refused without a write, or counts one failure, or succeeds. *)
Lemma Verify_cases userID now code s t :
  local_auth_totp s !! userID = Some t ->
  match VerifySecondFactor userID now code s with
  | (Ok _, _) => True
  | (Err _, s') => s' = s \/
      (failed_attempts t < factorLockoutLimit /\ blocked_until t <= now /\
       s' = with_totp <[userID := failed_at now t]> s)
  end.
Proof.
  intros Ht. unfold Factor.VerifySecondFactor. rewrite Ht. unfold prepareFactor.
  destruct (decide_factor (Some t) (TrimSpace code) now) as [e| |use] eqn:Ed; [by left| |].
  - unfold rejectFactor. rewrite Ht. right. unfold Factor.decide_factor in Ed. split_flow_in Ed; bool_simpl; done.
  - apply decide_use in Ed. unfold commit_factor, consume. destruct use as [|c step|d].
    + done.
    + destruct Ed as (? & [= <-] & <- & _ & Hl & Hb). rewrite Ht.
      destruct (_ && _); cbn [mbind result_bind]; [done|]. unfold rejectFactor. rewrite Ht. by right.
    + destruct Ed as (? & [= <-] & Hl & Hb). destruct (bool_decide _); cbn [mbind result_bind]; [done|].
      unfold rejectFactor. rewrite Ht. by right.
Qed.

(** A series of attempts, all refused. *)
Inductive refused_series (userID : Z) : Z -> tables -> Z -> tables -> Prop :=
  | series_nil now s : refused_series userID now s now s
  | series_cons now now1 now2 code e s s1 s2 :
      refused_series userID now s now1 s1 -> now1 <= now2 ->
      VerifySecondFactor userID now2 code s1 = (Err e, s2) ->
      refused_series userID now s now2 s2.

(** What guessing costs, one attempt at a time: after any series of refused attempts
    that began with no failure counted, at most a hundred failures are counted, and the
    n-th was counted no earlier than the n-1 waits before it have passed: a hundred
    failures take at least three days and seventeen hours, whatever is submitted. *)
Theorem guess_budget userID t0 s now s' t :
  local_auth_totp s !! userID = Some t -> failed_attempts t = 0 ->
  refused_series userID t0 s now s' ->
  exists t', local_auth_totp s' !! userID = Some t' /\
    secret_ciphertext t' = secret_ciphertext t /\ last_used_step t' = last_used_step t /\
    0 <= failed_attempts t' <= 100 /\ t0 + wait (Z.to_nat (failed_attempts t')) <= now /\
    (failed_attempts t' = 100 -> t0 + 320610 <= now).
Proof.
  intros Ht H0 Hs.
  assert (H : exists t', local_auth_totp s' !! userID = Some t' /\
    secret_ciphertext t' = secret_ciphertext t /\ last_used_step t' = last_used_step t /\ paced t0 now t').
  { induction Hs as [now s|now now1 now2 code e s s1 s2 Hs IH Hle Hv].
    - exists t. split_and!; try done. unfold paced, factorLockoutLimit. rewrite H0.
      change (wait (Z.to_nat 0)) with 0. lia.
    - destruct (IH Ht) as (t1 & H1 & Hc & Hst & Hp). pose proof (Verify_cases userID now2 code s1 t1 H1) as Hcase.
      rewrite Hv in Hcase. destruct Hcase as [->|(Hl & Hb & ->)].
      + exists t1. split_and!; try done. by eapply paced_later.
      + exists (failed_at now2 t1). split_and!; try done; [cbn; by rewrite lookup_insert_eq|]. by eapply paced_failed. }
  destruct H as (t' & Ht' & Hc & Hst & (Hb & _ & Hw & _)). exists t'. unfold factorLockoutLimit in *.
  split_and!; try done; try lia. intros Heq. rewrite Heq in Hw.
  replace (wait (Z.to_nat 100)) with 320610 in Hw by (vm_compute; reflexivity). done.
Qed.

(** * Spending a code once *)

(** How the factor's tables may change when [fresh] strings are new: an enrolled
    secret keeps its ciphertext and its last step never decreases; codes only go. *)
Definition evolves (fresh : gset string) (s s' : tables) : Prop :=
  (forall u t', local_auth_totp s' !! u = Some t' ->
     (exists t, local_auth_totp s !! u = Some t /\ secret_ciphertext t' = secret_ciphertext t /\
        last_used_step t <= last_used_step t') \/ secret_ciphertext t' ∈ fresh) /\
  forall x, x ∈ local_auth_recovery_codes s' -> x ∈ local_auth_recovery_codes s \/ x.2 ∈ fresh.

Lemma evolves_same (fresh : gset string) s s' :
  local_auth_totp s' = local_auth_totp s -> local_auth_recovery_codes s' = local_auth_recovery_codes s ->
  evolves fresh s s'.
Proof. intros Ht Hc. split; [rewrite Ht; intros u t H; left; exists t; split_and!; done || lia|rewrite Hc; auto]. Qed.

Lemma evolves_trans (fresh : gset string) s1 s2 s3 : evolves fresh s1 s2 -> evolves fresh s2 s3 -> evolves fresh s1 s3.
Proof.
  intros [A1 A2] [B1 B2]. split.
  - intros u t3 H3. destruct (B1 _ _ H3) as [(t2 & H2 & Hc & Hl)|]; [|by right].
    destruct (A1 _ _ H2) as [(t1 & H1 & Hc1 & Hl1)|]; [|right; congruence].
    left. exists t1. split_and!; [done|congruence|lia].
  - intros x Hx. destruct (B2 _ Hx) as [H|]; [|by right]. by apply A2.
Qed.

Lemma evolves_totp (fresh : gset string) f userID (s : tables) :
  (forall t, secret_ciphertext (f t) = secret_ciphertext t /\ last_used_step t <= last_used_step (f t)) ->
  evolves fresh s (with_totp (alter f userID) s).
Proof.
  intros Hf. split; [|cbn; auto]. intros u t'. cbn. destruct (decide (u = userID)) as [->|Hne].
  - rewrite lookup_alter_eq. destruct (local_auth_totp s !! userID) as [t|]; [|done]. intros [= <-].
    left. exists t. split; [done|apply Hf].
  - rewrite lookup_alter_ne by done. intros H. left. exists t'. split_and!; done || lia.
Qed.

Lemma insert_alter userID t f s :
  local_auth_totp s !! userID = Some t -> with_totp <[userID := f t]> s = with_totp (alter f userID) s.
Proof.
  intros Ht. unfold with_totp. f_equal. apply map_eq. intros u. destruct (decide (u = userID)) as [->|Hne].
  - by rewrite lookup_insert_eq, lookup_alter_eq, Ht.
  - by rewrite lookup_insert_ne, lookup_alter_ne.
Qed.

Lemma evolves_fewer (fresh : gset string) (f : gset (Z * string) -> gset (Z * string)) (s : tables) :
  (forall c, f c ⊆ c) -> evolves fresh s (with_codes f s).
Proof.
  intros Hf. split; [intros u t H; left; exists t; split_and!; done || lia|].
  cbn. intros x Hx. left. by apply (Hf _ x Hx).
Qed.

Lemma reject_evolves (fresh : gset string) userID now s : evolves fresh s (rejectFactor userID now s).2.
Proof.
  unfold rejectFactor. destruct (local_auth_totp s !! userID) as [t|] eqn:Ht; cbn [snd]; [|by apply evolves_same].
  rewrite (insert_alter userID t (failed_at now) s Ht). apply evolves_totp. intros t0. cbn. split; [done|lia].
Qed.

Lemma consume_evolves (fresh : gset string) use userID s s' : consume use userID s = Ok s' -> evolves fresh s s'.
Proof.
  unfold consume. destruct use as [|c step|d].
  - destruct (_ !! _); [done|]. intros [= <-]. by apply evolves_same.
  - destruct (local_auth_totp s !! userID) as [t|] eqn:Ht; [|done].
    destruct (bool_decide _ && _) eqn:E; [|done]. intros [= <-]. bool_simpl.
    split; [|cbn; auto]. intros u t'. cbn. destruct (decide (u = userID)) as [->|Hne].
    + rewrite lookup_insert_eq. intros [= <-]. left. exists t. cbn. split_and!; done || lia.
    + rewrite lookup_insert_ne by done. intros Hu. left. exists t'. split_and!; done || lia.
  - destruct (bool_decide _); [|done]. intros [= <-].
    eapply evolves_trans; [|apply evolves_totp; intros t0; cbn; split; [done|]].
    + apply evolves_fewer. set_solver.
    + lia.
Qed.

Lemma codes_evolves (fresh : gset string) userID digests s s' :
  (forall d, d ∈ digests -> d ∈ fresh) -> insertRecoveryCodes userID digests s = Ok s' -> evolves fresh s s'.
Proof.
  revert s. induction digests as [|d digests IH]; intros s Hf; cbn [insertRecoveryCodes].
  { intros [= <-]. by apply evolves_same. }
  destruct (bool_decide _); [done|]. intros H. eapply evolves_trans; [|apply (IH _ ltac:(set_solver) H)].
  split; [intros u t Hu; left; exists t; split_and!; done || lia|].
  cbn. intros x [->%elem_of_singleton|Hx]%elem_of_union; [right; set_solver|by left].
Qed.

Lemma insert_session_same p userID s s' :
  insert_session p userID s = Ok s' ->
  local_auth_totp s' = local_auth_totp s /\ local_auth_recovery_codes s' = local_auth_recovery_codes s.
Proof. unfold insert_session. intros H. guards_in H. by injection H as <-. Qed.

Lemma Rotate_evolves (fresh : gset string) p userID s n s' : Rotate p userID s = Ok (n, s') -> evolves fresh s s'.
Proof.
  unfold Rotate, delete_sessions. intros H. apply bind_Ok in H as (s1 & H & [= _ <-]).
  apply insert_session_same in H as [? ?]. by apply evolves_same.
Qed.

Lemma delete_evolves (fresh : gset string) userID s :
  evolves fresh s (delete_codes userID s) /\ evolves fresh s (delete_totp userID s).
Proof.
  split; [apply evolves_fewer; set_solver|]. split; [|cbn; auto].
  intros u t. cbn. intros [_ H]%lookup_delete_Some. left. exists t. split_and!; done || lia.
Qed.

(** The transactions that begin by spending a code; the handlers of the last three check
    that the credentials are the session's. *)
Inductive spending : Type :=
  | Verify
  | Login (p : PreparedSession)
  | Token (p : preparedAPIToken) (systemID : Z)
  | Change (p : Principal) (operation : option (list string)) (prepared : PreparedSession)
  | AdminReset (p : Principal) (targetID : Z).
Definition spend (c : spending) (userID now : Z) (use : factorUse) (s : tables) : result factor_error (unit * tables) :=
  match c with
  | Verify => s ← consume use userID s; Ok (tt, s)
  | Login p => login_tx p use userID s
  | Token p systemID => token_tx p systemID use userID s
  | Change p operation prepared =>
      fail_if negb (p_UserID p =? userID) with ErrSessionRequired in change_tx now p operation prepared use s
  | AdminReset p targetID =>
      fail_if negb (p_UserID p =? userID) with ErrSessionRequired in admin_reset_tx now p targetID use s
  end.
Definition new_digests (c : spending) : list string := match c with Change _ (Some ds) _ => ds | _ => [] end.

Lemma spend_consumes c userID now use s s' :
  spend c userID now use s = Ok (tt, s') ->
  exists s1, consume use userID s = Ok s1 /\ evolves (list_to_set (new_digests c)) s1 s'.
Proof.
  intros H. destruct c as [|p|p sys|p op prepared|p target]; cbn [spend new_digests] in H |- *.
  - apply bind_Ok in H as (s1 & H1 & [= <-]). exists s1. split; [done|by apply evolves_same].
  - apply bind_Ok in H as (s1 & H1 & H). apply bind_Ok in H as (s2 & H2 & [= <-]). exists s1. split; [done|].
    apply insert_session_same in H2 as [? ?]. by apply evolves_same.
  - apply bind_Ok in H as (s1 & H1 & H). apply bind_Ok in H as (s2 & H2 & [= <-]). exists s1. split; [done|].
    unfold insert_token in H2. guards_in H2. injection H2 as <-. by apply evolves_same.
  - destruct (Z.eqb_spec (p_UserID p) userID) as [<-|]; [cbn [negb] in H|done]. unfold change_tx in H.
    destruct (requireActiveSession _ _ _); [|done]. apply bind_Ok in H as (s1 & H1 & H).
    destruct (requiresUsage use); [|done]. exists s1. split; [done|]. cbn zeta in H.
    apply bind_Ok in H as (s2 & H2 & H). apply bind_Ok in H as ([n s3] & H3 & [= <-]).
    eapply evolves_trans; [apply (proj1 (delete_evolves _ (p_UserID p) _))|]. eapply evolves_trans; [|by eapply Rotate_evolves].
    destruct op as [ds|].
    + eapply codes_evolves; [|exact H2]. intros d Hd. by apply elem_of_list_to_set.
    + destruct (bool_decide _); [|done]. injection H2 as <-. apply (proj2 (delete_evolves _ _ _)).
  - destruct (Z.eqb_spec (p_UserID p) userID) as [<-|]; [cbn [negb] in H|done]. unfold admin_reset_tx in H.
    destruct (requireActiveSession _ _ _); [|done]. destruct (users (dir s) !! p_UserID p) as [u|]; [|done].
    guards_in H. apply bind_Ok in H as (s1 & H1 & [= <-]). exists s1. split; [done|].
    eapply evolves_trans; [apply (proj1 (delete_evolves _ target _))|].
    eapply evolves_trans; [apply (proj2 (delete_evolves _ target _))|].
    by apply evolves_same.
Qed.

(** ** Interleavings.  [issued] collects the ciphertexts and digests that were ever
    stored: each is made from new random bytes. *)
Record world : Type := World { tb : tables; pending : list (Z * factorUse); issued : gset string }.

Inductive fstep : world -> world -> Prop :=
  | step_prepare w userID code now use :
      decide_factor (local_auth_totp (tb w) !! userID) code now = Prepared use ->
      fstep w (World (tb w) ((userID, use) :: pending w) (issued w))
  | step_reject w userID now :
      fstep w (World (rejectFactor userID now (tb w)).2 (pending w) (issued w))
  | step_spend w c userID now use s' :
      (userID, use) ∈ pending w -> list_to_set (new_digests c) ## issued w ->
      spend c userID now use (tb w) = Ok (tt, s') ->
      fstep w (World s' (pending w) (list_to_set (new_digests c) ∪ issued w))
  | step_enable w now p ciphertext matchedStep digests prepared s' :
      {[ciphertext]} ∪ list_to_set digests ## issued w ->
      enable_tx now p ciphertext matchedStep digests prepared (tb w) = Ok s' ->
      fstep w (World s' (pending w) ({[ciphertext]} ∪ list_to_set digests ∪ issued w))
  | step_reset w email r s' :
      ResetTwoFactor to_lower email (tb w) = Ok (r, s') -> fstep w (World s' (pending w) (issued w)).

Definition winv (w : world) : Prop :=
  (forall u t, local_auth_totp (tb w) !! u = Some t -> secret_ciphertext t ∈ issued w) /\
  forall x, x ∈ local_auth_recovery_codes (tb w) -> x.2 ∈ issued w.

(** A use that no later transaction accepts. *)
Definition spent (userID : Z) (use : factorUse) (w : world) : Prop :=
  match use with
  | NoUse => False
  | UseTOTP c step => c ∈ issued w /\
      forall t, local_auth_totp (tb w) !! userID = Some t -> secret_ciphertext t = c -> step <= last_used_step t
  | UseRecovery d => d ∈ issued w /\ (userID, d) ∉ local_auth_recovery_codes (tb w)
  end.

Lemma spent_refused userID use w : spent userID use w -> consume use userID (tb w) = Err ErrFactorRejected.
Proof.
  unfold spent, consume. destruct use as [|c step|d]; [done| |].
  - intros [_ H]. destruct (local_auth_totp (tb w) !! userID) as [t|]; [|done].
    destruct (decide (secret_ciphertext t = c)) as [Hc|Hc]; [|by rewrite bool_decide_false].
    rewrite bool_decide_true by done. rewrite (proj2 (Z.ltb_ge _ _)); [done|]. by apply H.
  - intros [_ H]. by rewrite bool_decide_false.
Qed.

Lemma consume_spent userID use w s :
  winv w -> consume use userID (tb w) = Ok s -> requiresUsage use = true ->
  spent userID use (World s (pending w) (issued w)).
Proof.
  intros [I1 I2] H Hu. destruct use as [|c step|d]; [done| |]; cbn in H.
  - destruct (local_auth_totp (tb w) !! userID) as [t|] eqn:Ht; [|done].
    destruct (bool_decide _ && _) eqn:E; [|done]. injection H as <-. bool_simpl. subst c.
    split; [by eapply I1|]. cbn. rewrite lookup_insert_eq. by intros t' [= <-] _.
  - destruct (bool_decide _) eqn:E; [|done]. injection H as <-. bool_simpl.
    split; [by apply (I2 _ E)|]. cbn. set_solver.
Qed.

Lemma evolves_world (fresh : gset string) w s' ps :
  evolves fresh (tb w) s' -> fresh ## issued w -> winv w ->
  winv (World s' ps (fresh ∪ issued w)) /\
  forall userID use, spent userID use w -> spent userID use (World s' ps (fresh ∪ issued w)).
Proof.
  intros [E1 E2] Hf [I1 I2]. split; [split; cbn|].
  - intros u t' H'. destruct (E1 _ _ H') as [(t & Ht & -> & _)|]; [|set_solver]. specialize (I1 _ _ Ht). set_solver.
  - intros x Hx. destruct (E2 _ Hx) as [H|H]; [specialize (I2 _ H)|]; set_solver.
  - intros userID use. unfold spent. destruct use as [|c step|d]; [done| |]; cbn.
    + intros [Hc H]. split; [set_solver|]. intros t' H' Heq.
      destruct (E1 _ _ H') as [(t & Ht & Hct & Hl)|]; [|set_solver].
      specialize (H t Ht ltac:(congruence)). lia.
    + intros [Hd H]. split; [set_solver|]. intros Hx. destruct (E2 _ Hx) as [|Hx']; [done|]. cbn in Hx'. set_solver.
Qed.

Lemma fstep_evolves w w' :
  fstep w w' -> exists fresh, evolves fresh (tb w) (tb w') /\ fresh ## issued w /\ issued w' = fresh ∪ issued w.
Proof.
  intros St. destruct St as [w u code now use Hd|w u now|w c u now use s' Hp Hf H|w now p ct st ds prepared s' Hf H|w email r s' H]; cbn.
  - exists ∅. split_and!; [by apply evolves_same|set_solver|set_solver].
  - exists ∅. split_and!; [apply reject_evolves|set_solver|set_solver].
  - exists (list_to_set (new_digests c)). split_and!; [|done|done].
    destruct (spend_consumes _ _ _ _ _ _ H) as (s1 & H1 & H2). eapply evolves_trans; [by eapply consume_evolves|done].
  - exists ({[ct]} ∪ list_to_set ds). split_and!; [|done|done]. unfold enable_tx in H.
    guards_in H. apply bind_Ok in H as (s1 & H1 & H). apply bind_Ok in H as ([n s2] & H2 & [= <-]).
    eapply (evolves_trans _ _ (with_totp <[p_UserID p := Totp ct st 0 0 now]> (tb w))).
    { split; [|cbn; auto]. intros u t. cbn. intros [(<- & <-)|(_ & Hu)]%lookup_insert_Some; [right; set_solver|].
      left. exists t. split_and!; done || lia. }
    eapply evolves_trans; [apply (proj1 (delete_evolves _ (p_UserID p) _))|].
    eapply evolves_trans; [eapply codes_evolves; [|exact H1]|].
    { intros d Hd. apply elem_of_union_r. by apply elem_of_list_to_set. }
    eapply evolves_trans; [by eapply Rotate_evolves|]. by apply evolves_same.
  - exists ∅. split_and!; [|set_solver|set_solver]. unfold ResetTwoFactor in H. guards_in H.
    injection H as _ <-. match goal with E : delete_sessions ?z _ = (_, _) |- _ => injection E as _ <-; rename z into u0 end.
    eapply evolves_trans; [apply (proj1 (delete_evolves _ u0 _))|].
    eapply evolves_trans; [apply (proj2 (delete_evolves _ u0 _))|]. by apply evolves_same.
Qed.

(** C40: a second factor is spent once: after a transaction has accepted a prepared code,
    whatever requests are prepared, refused, spent, enrolled, changed or reset in
    between, no transaction accepts that code again. *)
Theorem factor_single_use w c userID now use s1 w2 :
  winv w -> requiresUsage use = true ->
  list_to_set (new_digests c) ## issued w ->
  spend c userID now use (tb w) = Ok (tt, s1) ->
  rtc fstep (World s1 (pending w) (list_to_set (new_digests c) ∪ issued w)) w2 ->
  consume use userID (tb w2) = Err ErrFactorRejected /\
  forall c2 now2, is_ok (spend c2 userID now2 use (tb w2)) = false.
Proof.
  intros I Hu Hf H R.
  destruct (spend_consumes _ _ _ _ _ _ H) as (s0 & H0 & E).
  pose proof (consume_spent _ _ _ _ I H0 Hu) as Hsp.
  assert (I0 : winv (World s0 (pending w) (issued w))).
  { pose proof (evolves_world (∅ : gset string) w s0 (pending w) (consume_evolves ∅ _ _ _ _ H0) (disjoint_empty_l _) I) as [I0 _].
    assert (Q : forall X : gset string, ∅ ∪ X = X) by set_solver. rewrite Q in I0. exact I0. }
  destruct (evolves_world _ (World s0 (pending w) (issued w)) s1 (pending w) E Hf I0) as [I1 S1].
  specialize (S1 _ _ Hsp). cbn [issued pending tb] in *.
  assert (Hend : winv w2 /\ spent userID use w2).
  { remember (World s1 _ _) as w1 eqn:E1. assert (Hok : winv w1 /\ spent userID use w1) by (by subst).
    clear E1 I1 S1. induction R as [|x y z St R IH]; [done|]. apply IH. destruct Hok as [Ix Sx].
    destruct (fstep_evolves _ _ St) as (fresh & Ev & Hd & Hiss).
    destruct (evolves_world fresh x (tb y) (pending y) Ev Hd Ix) as [Iy Sy]. rewrite <- Hiss in *.
    destruct y as [ty py iy]. split; [exact Iy|by apply Sy]. }
  destruct Hend as [_ Hend]. pose proof (spent_refused _ _ _ Hend) as Hr. split; [exact Hr|].
  intros c2 now2. destruct (spend c2 userID now2 use (tb w2)) as [[[] s2]|] eqn:E2; [|done].
  destruct (spend_consumes _ _ _ _ _ _ E2) as (s3 & H3 & _). congruence.
Qed.

(** The lock is checked when a code is prepared, not when it is spent: a code accepted
    against a snapshot is accepted after any number of failures counted since, the
    hundredth included, and it clears their count and the wait. *)
Theorem stale_use_clears_lock userID code now use s t failures :
  local_auth_totp s !! userID = Some t ->
  decide_factor (Some t) code now = Prepared use ->
  (forall d, use = UseRecovery d -> (userID, d) ∈ local_auth_recovery_codes s) ->
  let s1 := foldl (fun s now => (rejectFactor userID now s).2) s failures in
  (exists t1, local_auth_totp s1 !! userID = Some t1 /\
     failed_attempts t1 = failed_attempts t + Z.of_nat (length failures) /\
     (100 <= failed_attempts t1 -> forall code2 now2, code2 <> "" ->
        decide_factor (Some t1) code2 now2 = Refused ErrFactorLocked)) /\
  (exists s2 t2, consume use userID s1 = Ok s2 /\ local_auth_totp s2 !! userID = Some t2 /\
     failed_attempts t2 = 0 /\ blocked_until t2 = 0).
Proof.
  intros Ht Hd Hrec s1.
  assert (H : exists t1, local_auth_totp s1 !! userID = Some t1 /\
    failed_attempts t1 = failed_attempts t + Z.of_nat (length failures) /\
    secret_ciphertext t1 = secret_ciphertext t /\ last_used_step t1 = last_used_step t /\
    local_auth_recovery_codes s1 = local_auth_recovery_codes s).
  { subst s1. clear Hd Hrec. revert s t Ht. induction failures as [|f failures IH]; intros s t Ht; cbn [foldl].
    - exists t. split_and!; try done. cbn. lia.
    - unfold rejectFactor at 2 4. rewrite Ht. cbn [snd].
      destruct (IH (with_totp <[userID := failed_at f t]> s) (failed_at f t)) as (t1 & H1 & H2 & H3 & H4 & H5).
      { cbn. by rewrite lookup_insert_eq. }
      exists t1. split_and!; try done. rewrite H2. cbn [failed_attempts failed_at length]. lia. }
  destruct H as (t1 & H1 & H2 & H3 & H4 & H5). split.
  - exists t1. split_and!; try done. intros Hl code2 now2 Hne. unfold Factor.decide_factor.
    rewrite bool_decide_false by done. unfold factorLockoutLimit. by rewrite (proj2 (Z.leb_le _ _)).
  - apply decide_use in Hd. destruct use as [|c step|d].
    + done.
    + destruct Hd as (? & [= <-] & Hc & Hstep & _). unfold consume. rewrite H1, H3, H4.
      rewrite bool_decide_true by done. rewrite (proj2 (Z.ltb_lt _ _)) by done. cbn [andb].
      eexists _, (use_step step t1). split; [done|]. cbn. by rewrite lookup_insert_eq.
    + unfold consume. rewrite H5, bool_decide_true by auto.
      eexists _, (reset_failures t1). split; [done|]. cbn. by rewrite lookup_alter_eq, H1.
Qed.
End Facts.

(** * Witnesses *)

Definition secret0 : string := "01234567890123456789".
Definition key0 : option (string -> option string) := Some (fun c => if bool_decide (c = "sealed") then Some secret0 else None).
Definition code4 : string := default "" (hotpCode toy_hmac secret0 4 totpDigits).
Definition row0 : totp := Totp "sealed" 3 0 0 50.
Definition tables0 : tables :=
  Tables (Directory {[1 := User "ann@example.org" "member" false]} ∅ ∅) {[1 := row0]} {[(1, "digest")]} ∅ ∅ ∅.
Definition world0 : world := World tables0 [] {["sealed"; "digest"]}.

Lemma world0_winv : winv world0.
Proof.
  split; cbn.
  - intros u t [<- <-]%lookup_singleton_Some. cbn. set_solver.
  - intros x ->%elem_of_singleton. cbn. set_solver.
Qed.

Lemma factor_single_use_witness :
  decide_factor toy_hmac (fun s => s) key0 (local_auth_totp tables0 !! 1) code4 100 = Prepared (UseTOTP "sealed" 4) /\
  exists s1, spend (Login (MkPrepared "sid" 100 200)) 1 100 (UseTOTP "sealed" 4) tables0 = Ok (tt, s1) /\
    consume (UseTOTP "sealed" 4) 1 (rejectFactor 1 101 s1).2 = Err ErrFactorRejected.
Proof.
  split; [vm_compute; reflexivity|].
  destruct (spend (Login (MkPrepared "sid" 100 200)) 1 100 (UseTOTP "sealed" 4) tables0) as [[[] s1]|e] eqn:E;
    [|vm_compute in E; discriminate E].
  exists s1. split; [reflexivity|].
  destruct (factor_single_use toy_hmac (fun s => s) key0 (fun s => s) (fun _ _ => true) world0 (Login (MkPrepared "sid" 100 200)) 1 100
    (UseTOTP "sealed" 4) s1 (World (rejectFactor 1 101 s1).2 [] (list_to_set [] ∪ issued world0))) as [H _].
  - exact world0_winv.
  - reflexivity.
  - apply disjoint_empty_l.
  - exact E.
  - apply rtc_once. exact (step_reject _ _ _ _ (World s1 [] (list_to_set [] ∪ issued world0)) 1 101).
  - exact H.
Defined.

Lemma guess_budget_witness :
  let s1 := (VerifySecondFactor toy_hmac (fun s => s) key0 1 100 "000000" tables0).2 in
  exists t', local_auth_totp s1 !! 1 = Some t' /\ failed_attempts t' <= 100 /\ wait 100 = 320610.
Proof.
  intros s1.
  destruct (guess_budget toy_hmac (fun s => s) key0 1 90 tables0 100 s1 row0) as (t' & H & _ & _ & Hb & _).
  - vm_compute. reflexivity.
  - reflexivity.
  - eapply series_cons with (now1 := 90) (code := "000000") (e := ErrInvalidCredentials); [apply series_nil|lia|].
    vm_compute. reflexivity.
  - exists t'. split; [exact H|]. split; [lia|vm_compute; reflexivity].
Defined.

Lemma stale_use_clears_lock_witness :
  let s1 := foldl (fun s now => (rejectFactor 1 now s).2) tables0 (repeat 100 100) in
  exists s2 t2, consume (UseTOTP "sealed" 4) 1 s1 = Ok s2 /\ local_auth_totp s2 !! 1 = Some t2 /\ failed_attempts t2 = 0.
Proof.
  intros s1.
  destruct (stale_use_clears_lock toy_hmac (fun s => s) key0 1 code4 100 (UseTOTP "sealed" 4) tables0 row0 (repeat 100 100))
    as [_ (s2 & t2 & H1 & H2 & H3 & _)].
  - vm_compute. reflexivity.
  - vm_compute. reflexivity.
  - intros d H. discriminate H.
  - exists s2, t2. split; [exact H1|]. split; [exact H2|exact H3].
Defined.
