(* ===== verification/ApprovalSpec.v ===== *)
(** Approval-flow definitions ([core/approvals/spec.go]): the states of a flow, the
    patterns of state keys and assignees, and structural validation.  A definition is
    stored as JSON by the standard library; the model stores the value itself. *)
From S2P Require Import Prelude GoStd.

Record State : Type := MkState {
  Kind : string;
  Assignee : string;
  Prompt : string;
  Choices : list string;
  TimeoutSec : Z;
  On : gmap string string;
  With : gmap string string; (* handler configuration, opaque to the runner *)
}.
Record Spec : Type := MkSpec {
  Start : string;
  States : gmap string State;
}.
#[export] Instance State_eq_dec : EqDecision State.
Proof. solve_decision. Defined.
#[export] Instance Spec_eq_dec : EqDecision Spec.
Proof. solve_decision. Defined.

(** * Patterns *)

Definition byte_between (lo hi c : ascii) : bool :=
  (byte_val lo <=? byte_val c) && (byte_val c <=? byte_val hi).
Definition is_lower (c : ascii) : bool := byte_between "a" "z" c.
Definition is_upper (c : ascii) : bool := byte_between "A" "Z" c.
Definition is_underscore (c : ascii) : bool := bool_decide (c = "_"%char).

(** [^F G{0,n}$]: one byte of a class, then at most [n] of another. *)
Definition first_then (first rest : ascii -> bool) (n : nat) (s : string) : bool :=
  match s with
  | EmptyString => false
  | String c s' => first c && all_bytes rest s' && (String.length s' <=? n)%nat
  end.

(** [^[a-zA-Z][a-zA-Z0-9_]{0,63}$]. *)
Definition stateKeyPattern : string -> bool :=
  first_then (fun c => is_lower c || is_upper c)
    (fun c => is_lower c || is_upper c || is_digit c || is_underscore c) 63.

(** [^(document_owner|user:[1-9][0-9]{0,18}|role:[a-z][a-z0-9_\-]{0,31})$]. *)
Definition assigneePattern (s : string) : bool :=
  bool_decide (s = "document_owner")
  || (has_prefix s "user:" && first_then (byte_between "1" "9") is_digit 18 (sdrop 5 s))
  || (has_prefix s "role:"
      && first_then is_lower
           (fun c => is_lower c || is_digit c || is_underscore c || bool_decide (c = "-"%char)) 31 (sdrop 5 s)).

(** * Validation *)
Inductive spec_error : Type :=
  | StartRequired | NoStates | StartMissing (key : string)
  | BadKey (key : string) | EmptyKind (key : string) | NegativeTimeout (key : string)
  | BadAssignee (key assignee : string) | ApproveNeedsAssignee (key : string)
  | ApproveNeedsChoice (key : string) | ChoiceUnmapped (key choice : string)
  | EndHasTransitions (key : string) | EmptyEvent (key : string)
  | UnknownTarget (key event next : string).
#[export] Instance spec_error_eq_dec : EqDecision spec_error.
Proof. solve_decision. Defined.

(** The first failing item of a list; Go visits a map in an unspecified order, so only
    the absence of an error is fixed, not which one is reported. *)
Fixpoint first_error {A} (f : A -> option spec_error) (l : list A) : option spec_error :=
  match l with
  | [] => None
  | x :: l' => match f x with Some e => Some e | None => first_error f l' end
  end.

Definition validate_approve (key : string) (st : State) : option spec_error :=
  if negb (bool_decide (Kind st = "approve")) then None
  else if bool_decide (Assignee st = "") then Some (ApproveNeedsAssignee key)
  else if bool_decide (Choices st = []) then Some (ApproveNeedsChoice key)
  else first_error (fun c => match On st !! c with Some _ => None | None => Some (ChoiceUnmapped key c) end)
         (Choices st).

Definition validate_targets (s : Spec) (key : string) (st : State) : option spec_error :=
  first_error (fun '(event, next) =>
      if bool_decide (event = "") then Some (EmptyEvent key)
      else match States s !! next with Some _ => None | None => Some (UnknownTarget key event next) end)
    (map_to_list (On st)).

Definition validate_state (s : Spec) (x : string * State) : option spec_error :=
  let '(key, st) := x in
  if negb (stateKeyPattern key) then Some (BadKey key)
  else if bool_decide (Kind st = "") then Some (EmptyKind key)
  else if TimeoutSec st <? 0 then Some (NegativeTimeout key)
  else if negb (bool_decide (Assignee st = "")) && negb (assigneePattern (Assignee st))
       then Some (BadAssignee key (Assignee st))
  else match validate_approve key st with
       | Some e => Some e
       | None =>
           if bool_decide (Kind st = "end") && negb (bool_decide (On st = ∅))
           then Some (EndHasTransitions key)
           else validate_targets s key st
       end.

(** [None]: the specification is consistent. *)
Definition Validate (s : Spec) : option spec_error :=
  if bool_decide (Start s = "") then Some StartRequired
  else if bool_decide (States s = ∅) then Some NoStates
  else match States s !! Start s with
       | None => Some (StartMissing (Start s))
       | Some _ => first_error (validate_state s) (map_to_list (States s))
       end.

(** * What validation guarantees *)
Record state_wf (s : Spec) (key : string) (st : State) : Prop := {
  wf_key : stateKeyPattern key = true;
  wf_kind : Kind st <> "";
  wf_timeout : 0 <= TimeoutSec st;
  wf_assignee : Assignee st = "" \/ assigneePattern (Assignee st) = true;
  wf_approve : Kind st = "approve" ->
    Assignee st <> "" /\ Choices st <> [] /\ forall c, c ∈ Choices st -> is_Some (On st !! c);
  wf_end : Kind st = "end" -> On st = ∅;
  wf_targets : forall event next, On st !! event = Some next -> event <> "" /\ is_Some (States s !! next);
}.
Record spec_wf (s : Spec) : Prop := {
  wf_start : is_Some (States s !! Start s);
  wf_start_key : Start s <> "";
  wf_states : forall key st, States s !! key = Some st -> state_wf s key st;
}.

Lemma first_error_None {A} (f : A -> option spec_error) l :
  first_error f l = None <-> forall x, x ∈ l -> f x = None.
Proof.
  induction l as [|x l IH]; cbn [first_error].
  - split; [by intros _ x ?%not_elem_of_nil|done].
  - destruct (f x) eqn:E.
    + split; [done|]. intros H. rewrite H in E by apply list_elem_of_here. discriminate E.
    + rewrite IH. split.
      * intros H y [->|Hy]%elem_of_cons; auto.
      * intros H y Hy. apply H. by apply list_elem_of_further.
Qed.

Lemma validate_approve_None key st :
  validate_approve key st = None <->
  (Kind st = "approve" -> Assignee st <> "" /\ Choices st <> [] /\ forall c, c ∈ Choices st -> is_Some (On st !! c)).
Proof.
  unfold validate_approve. destruct (bool_decide (Kind st = "approve")) eqn:Ek; bool_simpl; cbn [negb].
  - destruct (bool_decide (Assignee st = "")) eqn:Ea; bool_simpl; [split; [done|intros H; by destruct (H Ek)]|].
    destruct (bool_decide (Choices st = [])) eqn:Ec; bool_simpl; [split; [done|intros H; by destruct (H Ek) as (_ & ? & _)]|].
    rewrite first_error_None. split.
    + intros H _. split_and!; [done|done|]. intros c Hc. specialize (H c Hc). destruct (On st !! c); [eauto|done].
    + intros H c Hc. destruct (H Ek) as (_ & _ & Hm). by destruct (Hm c Hc) as [x ->].
  - split; [by intros _ Hk|done].
Qed.

Lemma validate_state_None s key st : validate_state s (key, st) = None <-> state_wf s key st.
Proof.
  unfold validate_state. split.
  - intros H. guards_in H.
    match goal with Ha : validate_approve _ _ = None |- _ => rewrite validate_approve_None in Ha end.
    unfold validate_targets in H. rewrite first_error_None in H. bool_simpl.
    split; try done.
    + bool_cases; auto.
    + intros Hk. bool_cases; done.
    + intros event next Hon. specialize (H (event, next)). cbn in H.
      specialize (H (proj2 (elem_of_map_to_list _ _ _) Hon)).
      destruct (bool_decide (event = "")) eqn:Ee; [done|]. bool_simpl. split; [done|].
      destruct (States s !! next); [eauto|done].
  - intros W. rewrite (wf_key _ _ _ W). cbn [negb]. rewrite (bool_decide_false _ (wf_kind _ _ _ W)).
    rewrite (proj2 (Z.ltb_ge _ _) (wf_timeout _ _ _ W)).
    assert (Ha : negb (bool_decide (Assignee st = "")) && negb (assigneePattern (Assignee st)) = false).
    { destruct (wf_assignee _ _ _ W) as [->| ->]; [done|]. by rewrite andb_false_r. }
    rewrite Ha, (proj2 (validate_approve_None key st) (wf_approve _ _ _ W)).
    assert (He : bool_decide (Kind st = "end") && negb (bool_decide (On st = ∅)) = false).
    { destruct (bool_decide (Kind st = "end")) eqn:Ek; [|done]. bool_simpl.
      by rewrite (bool_decide_true _ (wf_end _ _ _ W Ek)). }
    rewrite He. unfold validate_targets. apply first_error_None. intros (event, next) Hin.
    apply elem_of_map_to_list in Hin. destruct (wf_targets _ _ _ W _ _ Hin) as [Hne [x Hx]].
    by rewrite (bool_decide_false _ Hne), Hx.
Qed.

Lemma Validate_sound s : Validate s = None -> spec_wf s.
Proof.
  unfold Validate. intros H. guards_in H. rewrite first_error_None in H. bool_simpl.
  split; [eauto|done|]. intros key st Hl. apply validate_state_None. apply H. by apply elem_of_map_to_list.
Qed.

Lemma Validate_complete s : spec_wf s -> Validate s = None.
Proof.
  intros W. unfold Validate. destruct (wf_start _ W) as [st Hs]. rewrite (bool_decide_false _ (wf_start_key _ W)), Hs.
  rewrite (bool_decide_false (States s = ∅)) by (intros He; rewrite He in Hs; done).
  apply first_error_None. intros (key, st') Hin. apply validate_state_None.
  apply (wf_states _ W). by apply elem_of_map_to_list.
Qed.

(** Validation accepts exactly the consistent specifications: a start state that
    exists, well-formed keys and assignees, approve states whose every choice has a
    transition, terminal states without one, and no transition to an unknown state. *)
Theorem Validate_spec s : Validate s = None <-> spec_wf s.
Proof. split; [apply Validate_sound|apply Validate_complete]. Qed.
