(* ===== verification/Approvals.v ===== *)
(** The approval engine ([core/approvals]): definitions, runs, tasks and transitions
    ([store.go]), the runner ([runner.go]), the built-in handlers ([handler.go]), the
    timeout sweep ([sweeper.go]) and the job subscriber ([subscriber.go]).

    A write transaction is a function from the tables to new tables or an error, which
    rolls back.  Advancing a run reads a snapshot, calls the state's handler outside the
    writer and commits in a later transaction that checks the run's revision: [plan] is
    the first half, [commit] the second, so that other transactions can come between.
    Handlers other than the built-in ones, the assignee resolver, the freshness check of
    document-change proposals ([checkDocumentChange]) and the tables an effect may write
    ([W]) are parameters.  Queued advances are kept as their decoded payloads; the
    dispatcher that delivers them is in [Jobs]. *)
From S2P Require Import Prelude GoStd Sqlite Systems Principal ApprovalSpec.

(** * Variables of a run *)

(** A JSON value: an integer not yet stored, a number read back (a float64, by its
    integral part), anything else. *)
Inductive value : Type := VInt (n : Z) | VNumber (n : Z) | VOther (json : string).
#[export] Instance value_eq_dec : EqDecision value.
Proof. solve_decision. Defined.
Definition vars : Type := gmap string value.

(** The nearest float64 of an integer, ties to even. *)
Definition round_float (n : Z) : Z :=
  let a := Z.abs n in
  if a <=? 2 ^ 53 then n
  else
    let u := 2 ^ (Z.log2 a - 52) in
    let q := a / u in let r := a mod u in
    let q := if (2 * r <? u) || ((2 * r =? u) && Z.even q) then q else q + 1 in
    Z.sgn n * (q * u).
(** Writing to and reading back from [vars_json]. *)
Definition reload (v : value) : value :=
  match v with VInt n => VNumber (round_float n) | _ => v end.

(** [mergeVars]: the overrides win. *)
Definition mergeVars (base overrides : vars) : vars := overrides ∪ base.

(** [int64Var]; a float64 beyond int64 converts to the least one (amd64). *)
Definition int64Var (vs : vars) (key : string) : option Z :=
  match vs !! key with
  | Some (VInt n) => Some n
  | Some (VNumber n) => Some (if (MinInt64 <=? n) && (n <=? MaxInt64) then n else MinInt64)
  | _ => None
  end.

(** * Tables *)
Inductive run_status : Type := Running | Done | Failed | Cancelled.
Inductive task_status : Type := Open | Claimed | Resolved | Expired.
#[export] Instance run_status_eq_dec : EqDecision run_status.
Proof. solve_decision. Defined.
#[export] Instance task_status_eq_dec : EqDecision task_status.
Proof. solve_decision. Defined.

Record def : Type := MkDef {
  df_system : Z; df_slug : string; df_version : Z; df_spec : Spec; df_active : bool;
  df_created_at : Z; df_created_by : option Z;
}.
Record Run : Type := MkRun {
  SystemID : Z; DefID : Z; DocID : option Z; Status : run_status; CurrentState : string;
  Vars : vars; DeadlineAt : option Z; StateEnteredAt : Z; StartedBy : option Z;
  StartedAt : Z; EndedAt : option Z; revision : Z;
}.
Record Task : Type := MkTask {
  RunID : Z; StateKey : string; StateRevision : Z; t_Assignee : string; t_Prompt : string;
  t_Choices : list string; t_Status : task_status; t_DeadlineAt : option Z;
  ResolvedChoice : option string; ResolvedBy : option string; ResolvedAt : option Z;
  CreatedAt : Z; Proof_of : option Principal (* resolution_principal_json *);
}.
Record Transition : Type := MkTransition {
  tr_Run : Z; FromState : string; ToState : string; Trigger : string; Actor : option string;
  Payload : vars; OccurredAt : Z;
}.
(** A queued [approval:advance] job: its system and payload. *)
Record advance_job : Type := AdvanceJob { aj_system : Z; aj_run : Z; aj_trigger : string; aj_revision : Z }.

Record session : Type := Session { se_user : Z; se_expires_at : Z }.
Record api_token : Type := ApiToken { at_system : Z; at_user : Z; at_scopes : string; at_revoked : bool }.
Record document : Type := Document { doc_system : Z; doc_owner : Z; doc_trashed : bool }.

Inductive approval_error : Type :=
  | ErrNoDef | ErrNoRun | ErrNoTask | ErrTaskUnavailable | ErrBadTransition | ErrTaskResolved
  | ErrBadChoice | ErrRunTerminal | ErrUnknownHandler | ErrForbidden | ErrBadAssignee
  | ErrRoleUnresolved | ErrStaleProposal | ErrSpec (e : spec_error)
  | ErrConstraint (message : string) | ErrMessage (message : string).
#[export] Instance approval_error_eq_dec : EqDecision approval_error.
Proof. solve_decision. Defined.

(** The tables the engine works on; [world] is everything an effect may also write.
    [runs] and [tasks] are AUTOINCREMENT tables: their sequence never goes back. *)
Record store (W : Type) : Type := Store {
  dir : directory;
  sessions : gmap string session;
  api_tokens : gmap Z api_token;
  documents : gmap Z document;
  defs : gmap Z def;
  runs : gmap Z Run;
  tasks : gmap Z Task;
  transitions : list Transition;
  outbox : list advance_job;
  pending_sweeps : list Z;
  run_seq : Z;
  task_seq : Z;
  world : W;
}.
Arguments Store {W}.
Arguments dir {W}. Arguments sessions {W}. Arguments api_tokens {W}. Arguments documents {W}.
Arguments defs {W}. Arguments runs {W}. Arguments tasks {W}. Arguments transitions {W}.
Arguments outbox {W}. Arguments pending_sweeps {W}. Arguments run_seq {W}. Arguments task_seq {W}.
Arguments world {W}.

Section Engine.
Context {W : Type}.
Implicit Types s : store W.

Definition with_defs (f : gmap Z def -> gmap Z def) s : store W :=
  Store (dir s) (sessions s) (api_tokens s) (documents s) (f (defs s)) (runs s) (tasks s)
    (transitions s) (outbox s) (pending_sweeps s) (run_seq s) (task_seq s) (world s).
Definition with_runs (f : gmap Z Run -> gmap Z Run) s : store W :=
  Store (dir s) (sessions s) (api_tokens s) (documents s) (defs s) (f (runs s)) (tasks s)
    (transitions s) (outbox s) (pending_sweeps s) (run_seq s) (task_seq s) (world s).
Definition with_tasks (f : gmap Z Task -> gmap Z Task) s : store W :=
  Store (dir s) (sessions s) (api_tokens s) (documents s) (defs s) (runs s) (f (tasks s))
    (transitions s) (outbox s) (pending_sweeps s) (run_seq s) (task_seq s) (world s).
Definition with_transitions (f : list Transition -> list Transition) s : store W :=
  Store (dir s) (sessions s) (api_tokens s) (documents s) (defs s) (runs s) (tasks s)
    (f (transitions s)) (outbox s) (pending_sweeps s) (run_seq s) (task_seq s) (world s).
Definition with_outbox (f : list advance_job -> list advance_job) s : store W :=
  Store (dir s) (sessions s) (api_tokens s) (documents s) (defs s) (runs s) (tasks s)
    (transitions s) (f (outbox s)) (pending_sweeps s) (run_seq s) (task_seq s) (world s).
Definition with_sweeps (f : list Z -> list Z) s : store W :=
  Store (dir s) (sessions s) (api_tokens s) (documents s) (defs s) (runs s) (tasks s)
    (transitions s) (outbox s) (f (pending_sweeps s)) (run_seq s) (task_seq s) (world s).
(** An AUTOINCREMENT insert. *)
Definition add_run (r : Run) s : Z * store W :=
  let id := run_seq s + 1 in
  (id, Store (dir s) (sessions s) (api_tokens s) (documents s) (defs s) (<[id := r]> (runs s)) (tasks s)
         (transitions s) (outbox s) (pending_sweeps s) id (task_seq s) (world s)).
Definition add_task (t : Task) s : Z * store W :=
  let id := task_seq s + 1 in
  (id, Store (dir s) (sessions s) (api_tokens s) (documents s) (defs s) (runs s) (<[id := t]> (tasks s))
         (transitions s) (outbox s) (pending_sweeps s) (run_seq s) id (world s)).

(** * Definitions *)

Definition same_slug (systemID : Z) (slug : string) (d : def) : bool :=
  (df_system d =? systemID) && bool_decide (df_slug d = slug).

(** [SELECT COALESCE(MAX(version), 0) + 1]; versions are positive. *)
Definition next_version s (systemID : Z) (slug : string) : Z :=
  1 + foldr (fun x acc => if same_slug systemID slug x.2 then Z.max (df_version x.2) acc else acc) 0
        (map_to_list (defs s)).

Definition set_active (b : bool) (d : def) : def :=
  MkDef (df_system d) (df_slug d) (df_version d) (df_spec d) b (df_created_at d) (df_created_by d).

Definition positive (v : Z) : option Z := if 0 <? v then Some v else None.

(** The system is a foreign key. *)
Definition insertDef (now systemID : Z) (slug : string) (spec : Spec) (createdBy : Z) s
    : result approval_error (Z * store W) :=
  let version := next_version s systemID slug in
  let id := next_rowid (defs s) in
  require bool_decide (is_Some (jd_systems (dir s) !! systemID)) else ErrConstraint "system_id" in
  Ok (id, with_defs (fun m =>
         <[id := MkDef systemID slug version spec true now (positive createdBy)]>
           ((fun d => if same_slug systemID slug d && df_active d then set_active false d else d) <$> m)) s).

(** [ORDER BY version DESC LIMIT 1] over the active rows of the slug. *)
Definition later_def (a b : Z * def) : Z * def := if df_version a.2 <? df_version b.2 then b else a.
Definition activeDefBySlug s (systemID : Z) (slug : string) : result approval_error (Z * def) :=
  match filter (fun x => same_slug systemID slug x.2 && df_active x.2 = true) (map_to_list (defs s)) with
  | [] => Err ErrNoDef
  | x :: l => Ok (foldl later_def x l)
  end.

Definition defByID s (id : Z) : result approval_error def :=
  match defs s !! id with Some d => Ok d | None => Err ErrNoDef end.

(** * Runs, transitions and tasks *)

(** The triggers [approval_runs_definition_insert] and [approval_runs_document_insert]
    keep a run, its definition and its document in one system. *)
Definition insertRun (now systemID defID : Z) (docID : option Z) (start : string) (vs : vars)
    (deadline : option Z) (startedBy : Z) s : result approval_error (Z * store W) :=
  require bool_decide ((df_system <$> defs s !! defID) = Some systemID)
    else ErrConstraint "cross-system definition" in
  require match docID with
          | None => true
          | Some doc => bool_decide ((doc_system <$> documents s !! doc) = Some systemID)
          end else ErrConstraint "cross-system document" in
  Ok (add_run (MkRun systemID defID docID Running start (reload <$> vs) deadline now (positive startedBy)
                 now None 0) s).

Definition loadRun s (id : Z) : result approval_error Run :=
  match runs s !! id with Some r => Ok r | None => Err ErrNoRun end.

Definition update_run (f : Run -> Run) (id : Z) s : store W := with_runs (alter f id) s.

Definition moved (now : Z) (next : string) (vs : vars) (deadline : option Z) (r : Run) : Run :=
  MkRun (SystemID r) (DefID r) (DocID r) (Status r) next (reload <$> vs) deadline now (StartedBy r)
    (StartedAt r) (EndedAt r) (revision r + 1).
Definition updateRunState (now id : Z) (next : string) (vs : vars) (deadline : option Z) s : store W :=
  update_run (moved now next vs deadline) id s.

Definition ended (now : Z) (status : run_status) (r : Run) : Run :=
  MkRun (SystemID r) (DefID r) (DocID r) status (CurrentState r) (Vars r) (DeadlineAt r) (StateEnteredAt r)
    (StartedBy r) (StartedAt r) (Some now) (revision r).
Definition finalizeRun (now id : Z) (status : run_status) s : store W := update_run (ended now status) id s.

Definition set_deadline (deadline : option Z) (r : Run) : Run :=
  MkRun (SystemID r) (DefID r) (DocID r) (Status r) (CurrentState r) (Vars r) deadline (StateEnteredAt r)
    (StartedBy r) (StartedAt r) (EndedAt r) (revision r).
(** [revision = revision + 1, deadline_at = NULL]. *)
Definition bumped (r : Run) : Run :=
  MkRun (SystemID r) (DefID r) (DocID r) (Status r) (CurrentState r) (Vars r) None (StateEnteredAt r)
    (StartedBy r) (StartedAt r) (EndedAt r) (revision r + 1).

Definition insertTransition (now runID : Z) (from to trigger : string) (actor : option string)
    (payload : vars) s : store W :=
  with_transitions (fun l => l ++ [MkTransition runID from to trigger actor (reload <$> payload) now]) s.

Definition is_open (t : Task) : bool := bool_decide (t_Status t = Open) || bool_decide (t_Status t = Claimed).

Record TaskSpec : Type := MkTaskSpec {
  ts_Assignee : string; ts_Prompt : string; ts_Choices : list string; DeadlineIn : Z;
}.

(** The task of the run's current entry, and whether this call created it. *)
Definition task_of_entry (id : Z) (r : Run) (t : Task) : bool :=
  (RunID t =? id) && bool_decide (StateKey t = CurrentState r) && (StateRevision t =? revision r).
Definition insertTask (now id : Z) (r : Run) (spec : TaskSpec) (deadline : option Z) s
    : result approval_error (bool * store W) :=
  if exists_row (fun _ t => task_of_entry id r t) (tasks s) then Ok (false, s)
  else
    fail_if exists_row (fun _ t => (RunID t =? id) && bool_decide (StateKey t = CurrentState r) && is_open t) (tasks s)
      with ErrConstraint "idx_approval_tasks_open_state" in
    Ok (true, (add_task (MkTask id (CurrentState r) (revision r) (ts_Assignee spec) (ts_Prompt spec)
                           (ts_Choices spec) Open deadline None None None now None) s).2).

Definition loadTask s (id : Z) : result approval_error Task :=
  match tasks s !! id with Some t => Ok t | None => Err ErrNoTask end.

Definition expired (t : Task) : Task :=
  MkTask (RunID t) (StateKey t) (StateRevision t) (t_Assignee t) (t_Prompt t) (t_Choices t) Expired
    (t_DeadlineAt t) (ResolvedChoice t) (ResolvedBy t) (ResolvedAt t) (CreatedAt t) (Proof_of t).
Definition expireOpenTasksForRun (runID : Z) s : store W :=
  with_tasks (fmap (fun t => if (RunID t =? runID) && is_open t then expired t else t)) s.

Definition resolved (now : Z) (choice actor : string) (proof : Principal) (t : Task) : Task :=
  MkTask (RunID t) (StateKey t) (StateRevision t) (t_Assignee t) (t_Prompt t) (t_Choices t) Resolved
    (t_DeadlineAt t) (Some choice) (Some actor) (Some now) (CreatedAt t) (Some proof).

Definition markTaskResolved (now taskID : Z) (choice actor : string) (proof : Principal) s
    : result approval_error (store W) :=
  match tasks s !! taskID with
  | Some t => require is_open t else ErrTaskResolved in
              Ok (with_tasks (<[taskID := resolved now choice actor proof t]>) s)
  | None => Err ErrTaskResolved
  end.

(** The run is running in the task's entry and its document, if any, is live. *)
Definition ensureTaskRunActionable s (taskID : Z) : bool :=
  match tasks s !! taskID with
  | None => false
  | Some t =>
      match runs s !! RunID t with
      | None => false
      | Some r =>
          bool_decide (Status r = Running) && task_of_entry (RunID t) r t
          && match DocID r with
             | None => true
             | Some doc => match documents s !! doc with Some d => negb (doc_trashed d) | None => false end
             end
      end
  end.

Definition listOpenTasksForRun s (runID : Z) : list (Z * Task) :=
  filter (fun x => (RunID x.2 =? runID) && is_open x.2 = true) (map_to_list (tasks s)).

Definition GetRun s (id : Z) : result approval_error (Run * list (Z * Task)) :=
  r ← loadRun s id; mret (r, listOpenTasksForRun s id).

(** Permanent deletion of documents takes their runs along ([core/trash]); tasks and
    transitions cascade. *)
Definition purge_runs (docs : list Z) s : store W :=
  let doomed r := match DocID r with Some d => bool_decide (d ∈ docs) | None => false end in
  let gone id := match runs s !! id with Some r => doomed r | None => false end in
  with_transitions (filter (fun t => gone (tr_Run t) = false))
    (with_tasks (filter (fun x => gone (RunID x.2) = false))
      (with_runs (filter (fun x => doomed x.2 = false)) s)).

(** * The outbox *)
Definition enqueueAdvanceWithTrigger (runID : Z) (trigger : string) s : result approval_error (store W) :=
  let s := if bool_decide (trigger = "") then s else update_run bumped runID s in
  r ← loadRun s runID;
  mret (with_outbox (fun l => l ++ [AdvanceJob (SystemID r) runID trigger (revision r)]) s).
Definition enqueueAdvance (runID : Z) (trigger : string) s : result approval_error (store W) :=
  enqueueAdvanceWithTrigger runID trigger s.

(** * Actors *)

Fixpoint split_comma (s : string) : list string :=
  match s with
  | EmptyString => [""]
  | String c s' =>
      match split_comma s' with
      | x :: l => if bool_decide (c = ","%char) then "" :: x :: l else String c x :: l
      | [] => [String c ""] (* unreachable *)
      end
  end.

Definition set_Role (role : string) (p : Principal) : Principal :=
  MkPrincipal (p_Kind p) (p_UserID p) (p_TokenID p) (p_TokenSystemID p) (p_TokenSource p) (p_Email p)
    (p_Display p) role (p_Scopes p) (p_AuthNBy p) (p_SessionID p) (p_AuthExpiresAt p).
Definition set_Kind (kind : string) (p : Principal) : Principal :=
  MkPrincipal kind (p_UserID p) (p_TokenID p) (p_TokenSystemID p) (p_TokenSource p) (p_Email p)
    (p_Display p) (p_Role p) (p_Scopes p) (p_AuthNBy p) (p_SessionID p) (p_AuthExpiresAt p).
Definition set_Scopes (scopes : list string) (p : Principal) : Principal :=
  MkPrincipal (p_Kind p) (p_UserID p) (p_TokenID p) (p_TokenSystemID p) (p_TokenSource p) (p_Email p)
    (p_Display p) (p_Role p) scopes (p_AuthNBy p) (p_SessionID p) (p_AuthExpiresAt p).

Definition session_ok s (now : Z) (a : Principal) : bool :=
  match sessions s !! p_SessionID a with
  | Some se => (se_user se =? p_UserID a) && (now <? se_expires_at se)
  | None => false
  end.

(** The token's binding and, when the row is known, the scopes stored there. *)
Definition token_current s (a current : Principal) : result approval_error (Z * Principal) :=
  if bool_decide (p_Kind a = "token") || negb (p_TokenID a =? 0) then
    let current := set_Kind "token" current in
    let bound := if p_TokenSystemID a =? 0 then DefaultID else p_TokenSystemID a in
    if p_TokenID a =? 0 then Ok (bound, current)
    else match api_tokens s !! p_TokenID a with
         | Some t =>
             require (at_user t =? p_UserID a) && negb (at_revoked t) else ErrForbidden in
             require at_system t =? bound else ErrForbidden in
             Ok (bound, set_Scopes (split_comma (at_scopes t)) current)
         | None => Err ErrForbidden
         end
  else Ok (p_TokenSystemID a, current).

(** [currentActor]: the actor as of this transaction, or a refusal. *)
Definition currentActor (now : Z) s (actor : option Principal) (systemID : Z)
    : result approval_error (option Principal) :=
  match actor with
  | None => Ok None
  | Some a =>
      if (p_UserID a =? 0) && bool_decide (p_Kind a = "system") then Ok actor
      else match users (dir s) !! p_UserID a with
      | None => Err ErrForbidden
      | Some u =>
          require negb (u_disabled u) else ErrForbidden in
          let current := set_Role (u_role u) a in
          require (if bool_decide (p_SessionID a = "")
                   then negb (bool_decide (p_AuthNBy a = "local-auth") && bool_decide (p_Kind a = "user"))
                   else session_ok s now a) else ErrForbidden in
          fail_if negb (p_AuthExpiresAt a =? 0) && (p_AuthExpiresAt a <=? now) with ErrForbidden in
          fail_if bool_decide (p_AuthNBy a = "oidc") && bool_decide (p_SessionID a = "")
                  && (p_AuthExpiresAt a =? 0) with ErrForbidden in
          '(bound, current) ← token_current s a current;
          require HasScope (Some current) ScopeDocumentsWrite else ErrForbidden in
          fail_if negb (bound =? 0) && negb (bound =? systemID) with ErrForbidden in
          require CanEnter (dir s) (p_UserID a) systemID else ErrForbidden in
          Ok (Some current)
      end
  end.

Definition principalTag (p : Principal) : string :=
  if (bool_decide (p_Kind p = "token") || bool_decide (p_Kind p = "demo-scratch")) && negb (p_TokenID p =? 0)
  then "token:" +:+ FormatInt (p_TokenID p)
  else if negb (p_UserID p =? 0) then "user:" +:+ FormatInt (p_UserID p)
  else "system".

Definition actorMatchesAssignee (actor : Principal) (assignee : string) : bool :=
  if (5 <? String.length assignee)%nat && has_prefix assignee "user:" then
    match ParseInt (sdrop 5 assignee) with Ok id => p_UserID actor =? id | Err _ => false end
  else false.

(** Who resolved the task that a trigger answers: the latest one, by time and id. *)
Definition later_task (a b : Z * Task) : Z * Task :=
  let at_ t := default 0 (ResolvedAt t) in
  if (at_ a.2 <? at_ b.2) || ((at_ a.2 =? at_ b.2) && (a.1 <? b.1)) then b else a.
Definition resolvedActor s (runID : Z) (stateKey trigger : string) : option string :=
  if bool_decide (trigger = "") || bool_decide (trigger = "timeout") then None
  else match filter (fun x => (RunID x.2 =? runID) && bool_decide (StateKey x.2 = stateKey)
                && bool_decide (ResolvedChoice x.2 = Some trigger) && bool_decide (t_Status x.2 = Resolved) = true)
              (map_to_list (tasks s)) with
       | [] => None
       | x :: l => ResolvedBy (foldl later_task x l).2
       end.

(** * The runner's outer operations *)

Definition DocumentChangeSlug : string := "document-change".
Definition documentChangeKind : string := "apply_document_change".
Definition KindAdvance : string := "approval:advance".
Definition KindSweep : string := "approval:timeout-sweep".

Definition DocumentChangeSpec : Spec :=
  MkSpec "review"
    {["review" := MkState "approve" "document_owner" "Review suggested document metadata"
                    ["apply"; "reject"] 0 {["apply" := "apply"; "reject" := "end"]} ∅;
      "apply" := MkState documentChangeKind "" "" [] 0 {["success" := "end"]} ∅;
      "end" := MkState "end" "" "" [] 0 ∅ ∅]}.

Definition specUsesDocumentOwner (spec : Spec) : bool :=
  exists_row (fun _ st => bool_decide (Assignee st = "document_owner")) (States spec).
Definition specUsesDocumentChange (spec : Spec) : bool :=
  exists_row (fun _ st => bool_decide (Kind st = documentChangeKind)) (States spec).

Definition deadline_after (now secs : Z) : option Z := if 0 <? secs then Some (now + secs) else None.

(** [registered] tells which kinds have a handler. *)
Definition RegisterInTx (registered : string -> bool) (now systemID : Z) (spec : Spec) (slug : string)
    (actor : option Principal) s : result approval_error (Z * store W) :=
  fail_if bool_decide (slug = DocumentChangeSlug) || specUsesDocumentChange spec with ErrForbidden in
  current ← currentActor now s actor systemID;
  fail_if match current with
          | Some c => negb (p_UserID c =? 0) && negb (bool_decide (p_Role c = "admin"))
          | None => false
          end with ErrForbidden in
  match Validate spec with
  | Some e => Err (ErrSpec e)
  | None =>
      fail_if exists_row (fun _ st => negb (registered (Kind st))) (States spec) with ErrUnknownHandler in
      insertDef now systemID slug spec (match actor with Some a => p_UserID a | None => 0 end) s
  end.

Definition StartInTx (now systemID : Z) (slug : string) (docID : Z) (vs : vars) (actor : option Principal) s
    : result approval_error (Z * store W) :=
  _ ← currentActor now s actor systemID;
  '(defID, d) ← activeDefBySlug s systemID slug;
  let spec := df_spec d in
  fail_if bool_decide (slug = DocumentChangeSlug) || specUsesDocumentChange spec with ErrForbidden in
  match States spec !! Start spec with
  | None => Err (ErrMessage "start state missing")
  | Some startState =>
      fail_if specUsesDocumentOwner spec && (docID <=? 0)
        with ErrMessage "document_owner requires a document" in
      vs ← (if (0 <? docID) && specUsesDocumentOwner spec then
              match documents s !! docID with
              | Some doc => require doc_system doc =? systemID else ErrMessage "load document owner" in
                            Ok (<["owner_id" := VInt (doc_owner doc)]> vs)
              | None => Err (ErrMessage "load document owner")
              end
            else Ok vs);
      '(runID, s) ← insertRun now systemID defID (if docID =? 0 then None else Some docID) (Start spec) vs
                      (deadline_after now (TimeoutSec startState))
                      (match actor with Some a => p_UserID a | None => 0 end) s;
      s ← enqueueAdvance runID "" s;
      mret (runID, s)
  end.

(** What the task keeps of the resolving actor. *)
Definition resolution_proof (a : Principal) : Principal :=
  MkPrincipal (p_Kind a) (p_UserID a) (p_TokenID a) (p_TokenSystemID a) "" "" "" "" [] (p_AuthNBy a)
    (p_SessionID a) (p_AuthExpiresAt a).

(** [checkDocumentChange] on the proposal in a run's variables, for a reviewer or, when
    there is none, for the owner. *)
Context (change_check : store W -> Z -> vars -> option Principal -> result approval_error unit).

(** Applying a proposed change needs the canonical flow, in review, and a proposal that
    is still fresh; rejecting one does not. *)
Definition resolve_change (run : Run) (t : Task) (choice : string) (actor : Principal) s
    : result approval_error unit :=
  d ← defByID s (DefID run);
  if (bool_decide (df_slug d = DocumentChangeSlug) || specUsesDocumentChange (df_spec d))
     && bool_decide (choice = "apply") then
    match DocID run with
    | Some doc =>
        require bool_decide (df_slug d = DocumentChangeSlug) && bool_decide (df_spec d = DocumentChangeSpec)
                && bool_decide (StateKey t = "review") else ErrStaleProposal in
        change_check s doc (Vars run) (Some actor)
    | None => Err ErrStaleProposal
    end
  else Ok tt.

Definition ResolveInTx (now taskID : Z) (choice : string) (actor : option Principal) s
    : result approval_error (store W) :=
  t ← loadTask s taskID;
  run ← loadRun s (RunID t);
  actor ← currentActor now s actor (SystemID run);
  require is_open t else ErrTaskResolved in
  require existsb (String.eqb choice) (t_Choices t) else ErrBadChoice in
  match actor with
  | None => Err ErrForbidden
  | Some actor =>
      require bool_decide (p_Role actor = "admin") || actorMatchesAssignee actor (t_Assignee t)
        else ErrForbidden in
      require ensureTaskRunActionable s taskID else ErrTaskUnavailable in
      _ ← resolve_change run t choice actor s;
      s ← markTaskResolved now taskID choice (principalTag actor) (resolution_proof actor) s;
      enqueueAdvanceWithTrigger (RunID t) choice s
  end.

Definition CancelInTx (now runID : Z) (reason : string) (actor : option Principal) s
    : result approval_error (store W) :=
  run ← loadRun s runID;
  actor ← currentActor now s actor (SystemID run);
  fail_if match actor with
          | Some a => negb (p_UserID a =? 0) && negb (bool_decide (p_Role a = "admin"))
          | None => false
          end with ErrForbidden in
  require bool_decide (Status run = Running) else ErrRunTerminal in
  match actor with
  | None => Err ErrForbidden
  | Some a =>
      Ok (finalizeRun now runID Cancelled
           (expireOpenTasksForRun runID
             (insertTransition now runID (CurrentState run) (CurrentState run) "cancel" (Some (principalTag a))
                {["reason" := VOther reason]} s)))
  end.

(** [reconcileDocumentChangesInTx]: the running reviews whose document is gone, trashed
    or changed are cancelled. *)
Definition supersede (now id : Z) s : store W :=
  match runs s !! id with
  | None => s
  | Some r =>
      finalizeRun now id Cancelled
        (expireOpenTasksForRun id
          (insertTransition now id (CurrentState r) (CurrentState r) "superseded" None
             {["reason" := VOther "bound document state changed"]} s))
  end.
Definition in_review s (systemID : Z) (documentIDs : list Z) (r : Run) : bool :=
  bool_decide (df_slug <$> (defs s !! DefID r) = Some DocumentChangeSlug)
  && bool_decide (Status r = Running) && bool_decide (CurrentState r = "review")
  && ((systemID <=? 0) || (SystemID r =? systemID))
  && (bool_decide (documentIDs = []) || match DocID r with Some d => bool_decide (d ∈ documentIDs) | None => false end).
Definition stale_review s (r : Run) : result approval_error bool :=
  match DocID r with
  | None => Err (ErrMessage "doc_id is NULL") (* the row does not scan *)
  | Some doc =>
      match documents s !! doc with
      | None => Ok true
      | Some d =>
          if doc_trashed d then Ok true
          else match change_check s doc (Vars r) None with
               | Ok _ => Ok false
               | Err ErrStaleProposal | Err ErrForbidden => Ok true
               | Err e => Err e
               end
      end
  end.
Fixpoint reconcile_loop (now : Z) (l : list (Z * Run)) s : result approval_error (store W) :=
  match l with
  | [] => Ok s
  | (id, r) :: l' =>
      match stale_review s r with
      | Ok stale => reconcile_loop now l' (if stale then supersede now id s else s)
      | Err e => Err e
      end
  end.
Definition reconcileDocumentChangesInTx (now systemID : Z) (documentIDs : list Z) s
    : result approval_error (store W) :=
  reconcile_loop now (filter (fun x => in_review s systemID documentIDs x.2 = true) (map_to_list (runs s))) s.

(** * The timeout sweep *)
Definition due_runs (now : Z) s : list Z :=
  (filter (fun x => bool_decide (Status x.2 = Running)
             && match DeadlineAt x.2 with Some d => d <=? now | None => false end = true)
          (map_to_list (runs s))).*1.
Fixpoint sweep_loop (due : list Z) s : result approval_error (store W) :=
  match due with
  | [] => Ok s
  | id :: due' => s ← enqueueAdvanceWithTrigger id "timeout" (expireOpenTasksForRun id s); sweep_loop due' s
  end.
Definition sweep_tx (now : Z) s : result approval_error (store W) :=
  s ← reconcileDocumentChangesInTx now 0 [] s; sweep_loop (due_runs now s) s.

Definition SweepInterval : Z := 30.
Definition rescheduleSweep (now : Z) s : store W :=
  match pending_sweeps s with [] => with_sweeps (fun _ => [now + SweepInterval]) s | _ => s end.

(** The sweep and its rescheduling are two transactions. *)
Definition TimeoutSweep (now : Z) s : result approval_error (store W) :=
  s ← sweep_tx now s; mret (rescheduleSweep now s).
End Engine.
