(* ===== verification/ApprovalRunner.v ===== *)
(** Handlers and the advance of a run ([core/approvals/handler.go], [runner.go],
    [subscriber.go]).  [plan_advance] is what [advance] does on its snapshot: reading
    the run, calling the handler and deciding what to write; [commit] is the write
    transaction, which does nothing unless the run is still running at the revision the
    snapshot had. *)
From S2P Require Import Prelude GoStd Sqlite Systems Principal ApprovalSpec Approvals.

Section Runner.
Context {W : Type}.
Implicit Types s : store W.

Record HandlerResult : Type := MkResult {
  Event : string;
  res_Vars : vars;
  res_Task : option TaskSpec;
  Effect : option (Z -> store W -> result approval_error (store W)); (* at a time, in the transaction *)
}.
(** [Handle(ctx, run, state, trigger)]; a run comes with its id. *)
Definition Handler : Type := Z * Run -> State -> string -> result approval_error HandlerResult.
Definition registry : Type := gmap string Handler.

Definition RegisterHandler (kind : string) (h : Handler) (reg : registry) : registry := <[kind := h]> reg.

(** * Built-in handlers *)

Definition emit (event : string) : HandlerResult := MkResult event ∅ None None.

Definition systemHandler : Handler := fun _ _ trigger =>
  if bool_decide (trigger = "") then Ok (emit "success") else Ok (emit trigger).

Definition approveHandler : Handler := fun run state trigger =>
  if negb (bool_decide (trigger = "")) then Ok (emit trigger)
  else
    let task assignee :=
      MkResult "" ∅ (Some (MkTaskSpec assignee (Prompt state) (Choices state) (TimeoutSec state))) None in
    if bool_decide (Assignee state = "document_owner") then
      match int64Var (Vars run.2) "owner_id" with
      | None => Err ErrBadAssignee
      | Some ownerID =>
          fail_if ownerID <=? 0 with ErrBadAssignee in
          Ok (task ("user:" +:+ FormatInt ownerID))
      end
    else Ok (task (Assignee state)).

Definition endHandler : Handler := fun _ _ _ => Ok (emit "").

(** [New]: the built-in handlers, the document-change handler among them. *)
Definition New (documentChangeHandler : Handler) : registry :=
  RegisterHandler "end" endHandler
    (RegisterHandler documentChangeKind documentChangeHandler
      (RegisterHandler "approve" approveHandler (RegisterHandler "system" systemHandler ∅))).

(** [userOnlyResolver]. *)
Definition userOnlyResolver (assignee : string) : result approval_error (list Z) :=
  if has_prefix assignee "user:" then
    match ParseInt (sdrop 5 assignee) with
    | Ok n => fail_if n <=? 0 with ErrBadAssignee in Ok [n]
    | Err _ => Err ErrBadAssignee
    end
  else if has_prefix assignee "role:" then Err ErrRoleUnresolved
  else Err ErrBadAssignee.

(** * Advance *)
Inductive action : Type :=
  | Skip                                             (* nothing to do, or parked *)
  | Finish                                           (* an end state *)
  | AddTask (spec : TaskSpec) (deadline : option Z)
  | Move (res : HandlerResult) (trigger next : string) (final : bool) (vs : vars) (deadline : option Z).

(** What a snapshot decided: for which run, read as which row, to do what. *)
Record plan : Type := MkPlan { pl_id : Z; pl_run : Run; pl_action : action }.

Context (reg : registry) (resolver : string -> result approval_error (list Z)).

Definition task_deadline (now : Z) (spec : TaskSpec) (st : State) : option Z :=
  deadline_after now (if DeadlineIn spec =? 0 then TimeoutSec st else DeadlineIn spec).

(** The decision for a running run in a state. *)
Definition plan_state (now runID : Z) (run : Run) (spec : Spec) (trigger : string) (state : State)
    : result approval_error plan :=
  if bool_decide (Kind state = "end") then Ok (MkPlan runID run Finish)
  else match reg !! Kind state with
  | None => Err ErrUnknownHandler
  | Some h =>
      res ← h (runID, run) state trigger;
      match res_Task res with
      | Some task =>
          _ ← resolver (ts_Assignee task);
          mret (MkPlan runID run (AddTask task (task_deadline now task state)))
      | None =>
          if bool_decide (Event res = "") then Ok (MkPlan runID run Skip)
          else match On state !! Event res with
          | None => Err ErrBadTransition
          | Some next =>
              match States spec !! next with
              | None => Err ErrBadTransition
              | Some nextState =>
                  Ok (MkPlan runID run
                        (Move res trigger next (bool_decide (Kind nextState = "end"))
                           (mergeVars (Vars run) (res_Vars res)) (deadline_after now (TimeoutSec nextState))))
              end
          end
      end
  end.

(** [systemID = 0] and [rev = None] leave those checks out. *)
Definition plan_advance (now runID : Z) (trigger : string) (systemID : Z) (rev : option Z) s
    : result approval_error plan :=
  run ← loadRun s runID;
  fail_if negb (systemID =? 0) && negb (SystemID run =? systemID) with ErrForbidden in
  if match rev with Some v => negb (revision run =? v) | None => false end then Ok (MkPlan runID run Skip)
  else if negb (bool_decide (Status run = Running)) then Ok (MkPlan runID run Skip)
  else
    d ← defByID s (DefID run);
    match States (df_spec d) !! CurrentState run with
    | None => Err (ErrMessage "unknown state")
    | Some state => plan_state now runID run (df_spec d) trigger state
    end.

(** [writeCurrentRun]'s guard. *)
Definition is_current (runID : Z) (run : Run) s : bool :=
  match runs s !! runID with
  | Some r => bool_decide (Status r = Running) && (revision r =? revision run)
  | None => false
  end.

Definition commit_move (now runID : Z) (run : Run) (res : HandlerResult) (trigger next : string) (final : bool)
    (vs : vars) (deadline : option Z) s : result approval_error (store W) :=
  s ← match Effect res with Some f => f now s | None => Ok s end;
  let actor := resolvedActor s runID (CurrentState run) trigger in
  let s := insertTransition now runID (CurrentState run) next (Event res) actor (res_Vars res) s in
  let s := expireOpenTasksForRun runID s in
  let s := updateRunState now runID next vs deadline s in
  if final then Ok (finalizeRun now runID Done s) else enqueueAdvance runID "" s.

Definition commit (now : Z) (p : plan) s : result approval_error (store W) :=
  let '(MkPlan runID run act) := p in
  match act with
  | Skip => Ok s
  | _ =>
      if negb (is_current runID run s) then Ok s
      else match act with
      | Skip => Ok s
      | Finish => Ok (finalizeRun now runID Done (expireOpenTasksForRun runID s))
      | AddTask spec deadline =>
          '(created, s) ← insertTask now runID run spec deadline s;
          Ok (if created : bool then update_run (set_deadline deadline) runID s else s)
      | Move res trigger next final vs deadline =>
          commit_move now runID run res trigger next final vs deadline s
      end
  end.

(** [Advance] with nothing in between. *)
Definition advance (now runID : Z) (trigger : string) (systemID : Z) (rev : option Z) s
    : result approval_error (store W) :=
  p ← plan_advance now runID trigger systemID rev s; commit now p s.

(** * The subscriber *)

(** An [approval:advance] job's body; a missing field is [None] or zero. *)
Record body : Type := Body { b_run : Z; b_trigger : string; b_revision : option Z }.

Definition handle_advance (now eventSystem : Z) (b : body) s : result approval_error (store W) :=
  match b_revision b with
  | None => Err (ErrMessage "missing or invalid run, system, or revision")
  | Some rev =>
      fail_if (b_run b <=? 0) || (eventSystem <=? 0) || (rev <? 0)
        with ErrMessage "missing or invalid run, system, or revision" in
      match advance now (b_run b) (b_trigger b) eventSystem (Some rev) s with
      | Err ErrNoRun => Ok s
      | r => r
      end
  end.

Context (change_check : store W -> Z -> vars -> option Principal -> result approval_error unit).

(** [Subscriber.Handle]: by kind; the payload is decoded by the caller of the model. *)
Definition Handle (now : Z) (kind : string) (eventSystem : Z) (b : body) s : result approval_error (store W) :=
  if bool_decide (kind = KindSweep) then TimeoutSweep change_check now s
  else if bool_decide (kind = KindAdvance) then handle_advance now eventSystem b s
  else Err (ErrMessage "unknown kind").
End Runner.
Arguments HandlerResult : clear implicits.
Arguments Handler : clear implicits.
Arguments registry : clear implicits.
Arguments plan : clear implicits.
Arguments action : clear implicits.

(** Validation accepts a user id of nineteen digits beyond int64, which no resolver can
    parse: the advance of such a state fails for good. *)
Lemma assignee_beyond_int64 :
  assigneePattern "user:9999999999999999999" = true /\
  userOnlyResolver "user:9999999999999999999" = Err ErrBadAssignee.
Proof. split; vm_compute; reflexivity. Qed.
