(* ===== verification/ApprovalFacts.v ===== *)
(** What the approval engine guarantees of its tables: an invariant over every
    interleaving of transactions with advances planned on older snapshots. *)
From S2P Require Import Prelude GoStd Sqlite Systems Principal ApprovalSpec Approvals ApprovalRunner.

(** * The invariant *)

(** A transition follows the definition, or is the self-loop of a cancellation. *)
Definition edge_ok (spec : Spec) (t : Transition) : Prop :=
  (exists st, States spec !! FromState t = Some st /\ On st !! Trigger t = Some (ToState t)) \/
  (ToState t = FromState t /\ (Trigger t = "cancel" \/ Trigger t = "superseded")).

(** The states a log goes through. *)
Inductive replays (spec : Spec) : string -> list Transition -> string -> Prop :=
  | replays_nil q : replays spec q [] q
  | replays_cons t l q : edge_ok spec t -> replays spec (ToState t) l q -> replays spec (FromState t) (t :: l) q.

Lemma replays_app spec p l q l' r :
  replays spec p l q -> replays spec q l' r -> replays spec p (l ++ l') r.
Proof. induction 1; intros H'; [done|]. constructor; auto. Qed.

Section Facts.
Context {W : Type}.
Implicit Types s : store W.

Definition log_of s (id : Z) : list Transition := filter (fun t => tr_Run t = id) (transitions s).

Record run_ok s (id : Z) (r : Run) : Prop := {
  ro_id : id <= run_seq s;
  ro_rev : 0 <= revision r;
  ro_ended : EndedAt r = None <-> Status r = Running;
  ro_def : exists d, defs s !! DefID r = Some d /\ df_system d = SystemID r /\
    is_Some (States (df_spec d) !! CurrentState r) /\
    replays (df_spec d) (Start (df_spec d)) (log_of s id) (CurrentState r);
}.
Record task_ok s (id : Z) (t : Task) : Prop := {
  to_id : id <= task_seq s;
  to_run : exists r, runs s !! RunID t = Some r /\ 0 <= StateRevision t <= revision r /\
    (StateRevision t = revision r -> StateKey t = CurrentState r) /\
    (is_open t = true -> Status r = Running /\ StateRevision t = revision r);
}.
Record Inv s : Prop := {
  inv_def : forall id d, defs s !! id = Some d -> spec_wf (df_spec d);
  inv_active : forall i j d e, defs s !! i = Some d -> defs s !! j = Some e ->
    df_system d = df_system e -> df_slug d = df_slug e -> df_active d = true -> df_active e = true -> i = j;
  inv_run : forall id r, runs s !! id = Some r -> run_ok s id r;
  inv_task : forall id t, tasks s !! id = Some t -> task_ok s id t;
  inv_entry : forall i j t u, tasks s !! i = Some t -> tasks s !! j = Some u ->
    RunID t = RunID u -> StateRevision t = StateRevision u -> i = j;
  inv_log : forall t, t ∈ transitions s -> tr_Run t <= run_seq s;
}.

(** How tables may differ later: runs go forward and end for good, definitions keep
    their specifications, ids of rows are not used again. *)
Definition run_later (r r' : Run) : Prop :=
  SystemID r' = SystemID r /\ DefID r' = DefID r /\ revision r <= revision r' /\
  (revision r' = revision r -> CurrentState r' = CurrentState r) /\
  (Status r <> Running -> r' = r).
Record later s s' : Prop := {
  lt_runs : forall id r', id <= run_seq s -> runs s' !! id = Some r' ->
    exists r, runs s !! id = Some r /\ run_later r r';
  lt_defs : forall id d, defs s !! id = Some d ->
    exists d', defs s' !! id = Some d' /\ df_spec d' = df_spec d /\ df_system d' = df_system d;
  lt_seq : run_seq s <= run_seq s';
}.

Lemma run_later_refl r : run_later r r.
Proof. unfold run_later. split_and!; auto; lia. Qed.

Lemma run_later_trans r1 r2 r3 : run_later r1 r2 -> run_later r2 r3 -> run_later r1 r3.
Proof.
  intros (A1 & A2 & A3 & A4 & A5) (B1 & B2 & B3 & B4 & B5).
  split_and!; [congruence|congruence|lia| |].
  - intros H. rewrite B4, A4 by lia. done.
  - intros H. pose proof (A5 H) as ->. by apply B5.
Qed.

Lemma later_refl s : later s s.
Proof. split; [intros id r' _ H; eexists; split; [exact H|apply run_later_refl]|eauto|lia]. Qed.

Lemma later_trans s1 s2 s3 : later s1 s2 -> later s2 s3 -> later s1 s3.
Proof.
  intros [A1 A2 A3] [B1 B2 B3]. split; [|intros id d Hd|lia].
  - intros id r3 Hid H3. destruct (B1 id r3 ltac:(lia) H3) as (r2 & H2 & L2).
    destruct (A1 id r2 Hid H2) as (r1 & H1 & L1). exists r1. split; [done|]. by eapply run_later_trans.
  - destruct (A2 _ _ Hd) as (d2 & Hd2 & E1 & E2). destruct (B2 _ _ Hd2) as (d3 & Hd3 & E3 & E4).
    exists d3. split_and!; congruence.
Qed.

(** ** A change of one run *)

(** What a statement may do to tasks: keep their identity and close some. *)
Definition closes (g : Z -> Task -> Task) : Prop :=
  forall j t, RunID (g j t) = RunID t /\ StateKey (g j t) = StateKey t /\
    StateRevision (g j t) = StateRevision t /\ (is_open (g j t) = true -> is_open t = true).

Record run_change s s' (id : Z) (r r' : Run) (g : Z -> Task -> Task) (log : list Transition) : Prop := {
  rc_run : runs s !! id = Some r;
  rc_runs : runs s' = <[id := r']> (runs s);
  rc_defs : defs s' = defs s;
  rc_seqs : run_seq s' = run_seq s /\ task_seq s' = task_seq s;
  rc_tasks : forall j, tasks s' !! j = g j <$> tasks s !! j;
  rc_closes : closes g;
  rc_log : transitions s' = transitions s ++ log /\ forall t, t ∈ log -> tr_Run t = id;
}.

(** The conditions under which the change keeps the invariant. *)
Record change_ok s (id : Z) (r r' : Run) (g : Z -> Task -> Task) (log : list Transition) : Prop := {
  co_ids : SystemID r' = SystemID r /\ DefID r' = DefID r;
  co_rev : revision r <= revision r' /\ (revision r' = revision r -> CurrentState r' = CurrentState r);
  co_ended : EndedAt r' = None <-> Status r' = Running;
  co_open : forall j t, tasks s !! j = Some t -> RunID t = id -> is_open (g j t) = true ->
    Status r' = Running /\ revision r' = revision r;
  co_log : forall d, defs s !! DefID r = Some d ->
    is_Some (States (df_spec d) !! CurrentState r') /\
    replays (df_spec d) (CurrentState r) log (CurrentState r');
}.

Lemma log_of_app_same s s' id log :
  transitions s' = transitions s ++ log -> (forall t, t ∈ log -> tr_Run t = id) ->
  log_of s' id = log_of s id ++ log.
Proof.
  intros E H. unfold log_of. rewrite E, filter_app. clear E. f_equal.
  induction log as [|t l IH]; [done|]. rewrite filter_cons_True by apply H, list_elem_of_here.
  f_equal. apply IH. intros u Hu. apply H. by apply list_elem_of_further.
Qed.

Lemma log_of_app_other s s' id id' log :
  transitions s' = transitions s ++ log -> (forall t, t ∈ log -> tr_Run t = id) -> id' <> id ->
  log_of s' id' = log_of s id'.
Proof.
  intros E H Hne. unfold log_of. rewrite E, filter_app. rewrite <- (app_nil_r (filter _ (transitions s))) at 2.
  clear E. f_equal. induction log as [|t l IH]; [done|].
  rewrite filter_cons_False by (rewrite (H t) by apply list_elem_of_here; congruence).
  apply IH. intros u Hu. apply H. by apply list_elem_of_further.
Qed.

Lemma run_change_Inv s s' id r r' g log :
  Inv s -> run_change s s' id r r' g log -> change_ok s id r r' g log -> Inv s'.
Proof.
  intros I [Hr Hruns Hdefs [Hs1 Hs2] Htasks Hcl [Hlog Hlogid]] [[C1 C2] [C3 C4] C5 C6 C7].
  pose proof (inv_run _ I _ _ Hr) as [R1 R2 R3 (d & R4 & R5 & R6 & R7)].
  split.
  - rewrite Hdefs. apply (inv_def _ I).
  - rewrite Hdefs. apply (inv_active _ I).
  - intros i ri Hi. rewrite Hruns in Hi. apply lookup_insert_Some in Hi as [[<- <-]|[Hne Hi]].
    + destruct (C7 _ R4) as [C8 C9]. split; [lia|lia|done|]. exists d. rewrite Hdefs, C2, C1. split_and!; try done.
      rewrite (log_of_app_same s s' id log Hlog Hlogid). by eapply replays_app.
    + destruct (inv_run _ I _ _ Hi) as [Q1 Q2 Q3 (e & Q4 & Q5 & Q6 & Q7)].
      split; [lia|done|done|]. exists e. rewrite Hdefs, (log_of_app_other s s' id i log) by done. done.
  - intros j t' Ht'. rewrite Htasks in Ht'. destruct (tasks s !! j) as [t|] eqn:Ht; [|done].
    cbn in Ht'. injection Ht' as <-. destruct (inv_task _ I _ _ Ht) as [T1 (q & T2 & T3 & T4 & T5)].
    destruct (Hcl j t) as (G1 & G2 & G3 & G4). split; [lia|]. rewrite G1, G2, G3, Hruns.
    destruct (decide (RunID t = id)) as [Heq|Hne].
    + rewrite Heq, lookup_insert_eq. rewrite Heq, Hr in T2. injection T2 as <-. exists r'. split_and!; try done; try lia.
      * intros Hrev. rewrite C4 by lia. apply T4. lia.
      * intros Ho. destruct (C6 _ _ Ht Heq Ho) as [O1 O2]. split; [done|]. destruct (T5 (G4 Ho)). lia.
    + rewrite lookup_insert_ne by congruence. exists q. split_and!; try done; try lia. intros Ho. auto.
  - intros i j t u Hi Hj Hrun Hrev. rewrite Htasks in Hi, Hj.
    destruct (tasks s !! i) as [t0|] eqn:Ei; [|done]. destruct (tasks s !! j) as [u0|] eqn:Ej; [|done].
    cbn in Hi, Hj. injection Hi as <-. injection Hj as <-.
    destruct (Hcl i t0) as (G1 & _ & G3 & _). destruct (Hcl j u0) as (H1 & _ & H3 & _).
    eapply (inv_entry _ I); [exact Ei|exact Ej|congruence|congruence].
  - intros t Ht. rewrite Hlog in Ht. apply elem_of_app in Ht as [Ht|Ht].
    + apply (inv_log _ I) in Ht. lia.
    + rewrite (Hlogid _ Ht). lia.
Qed.

Lemma run_change_later s s' id r r' g log :
  run_change s s' id r r' g log -> change_ok s id r r' g log -> (Status r <> Running -> r' = r) -> later s s'.
Proof.
  intros [Hr Hruns Hdefs [Hs1 Hs2] _ _ _] [[C1 C2] [C3 C4] _ _ _] Hend. split; [|rewrite Hdefs; eauto|lia].
  intros i ri _ Hi. rewrite Hruns in Hi. apply lookup_insert_Some in Hi as [[<- <-]|[Hne Hi]].
  - exists r. split; [done|]. unfold run_later. auto.
  - exists ri. split; [done|apply run_later_refl].
Qed.

(** ** Frames *)
Definition tables_eq s s' : Prop :=
  defs s' = defs s /\ runs s' = runs s /\ tasks s' = tasks s /\ transitions s' = transitions s /\
  run_seq s' = run_seq s /\ task_seq s' = task_seq s.

Lemma tables_eq_Inv s s' : tables_eq s s' -> Inv s -> Inv s'.
Proof.
  intros (E1 & E2 & E3 & E4 & E5 & E6) I.
  split; rewrite ?E1, ?E2, ?E3, ?E4, ?E5, ?E6; try apply I.
  - intros id r H. destruct (inv_run _ I _ _ H) as [R1 R2 R3 R4].
    split; unfold log_of; rewrite ?E1, ?E4, ?E5; done.
  - intros id t H. destruct (inv_task _ I _ _ H) as [T1 T2]. split; rewrite ?E2, ?E6; done.
Qed.

Lemma same_runs_later s s' :
  defs s' = defs s -> runs s' = runs s -> run_seq s' = run_seq s -> later s s'.
Proof.
  intros E1 E2 E5. split; rewrite ?E1, ?E2, ?E5; [|eauto|lia].
  intros id r _ H. exists r. split; [done|apply run_later_refl].
Qed.

Lemma tables_eq_later s s' : tables_eq s s' -> later s s'.
Proof. intros (E1 & E2 & _ & _ & E5 & _). by apply same_runs_later. Qed.

(** ** The changes of one run that the code makes *)

Definition expire_of (id : Z) (_ : Z) (t : Task) : Task :=
  if (RunID t =? id) && is_open t then expired t else t.
Definition resolve_of (task now : Z) (choice actor : string) (proof : Principal) (j : Z) (t : Task) : Task :=
  if j =? task then resolved now choice actor proof t else t.

Lemma closes_expire id : closes (expire_of id).
Proof. intros j t. unfold expire_of. destruct (_ && _) eqn:E; [|done]. by apply andb_true_iff in E as [_ ->]. Qed.

Lemma closes_resolve task now c a p : closes (resolve_of task now c a p).
Proof. intros j t. unfold resolve_of. by destruct (j =? task). Qed.

Lemma closes_id : closes (fun _ t => t).
Proof. done. Qed.

Lemma expire_of_open id j t : RunID t = id -> is_open (expire_of id j t) = false.
Proof.
  intros <-. unfold expire_of. rewrite Z.eqb_refl. cbn [andb]. by destruct (is_open t) eqn:E.
Qed.

Lemma alter_run (m : gmap Z Run) f id r : m !! id = Some r -> alter f id m = <[id := f r]> m.
Proof.
  intros H. apply map_eq. intros i. destruct (decide (id = i)) as [<-|Hne].
  - by rewrite lookup_alter_eq, lookup_insert_eq, H.
  - by rewrite lookup_alter_ne, lookup_insert_ne.
Qed.

Lemma enqueue_trigger_Ok id trigger s r :
  runs s !! id = Some r -> trigger <> "" ->
  enqueueAdvanceWithTrigger id trigger s
  = Ok (with_outbox (fun l => l ++ [AdvanceJob (SystemID r) id trigger (revision r + 1)]) (update_run bumped id s)).
Proof.
  intros Hr Ht. unfold enqueueAdvanceWithTrigger. rewrite bool_decide_false by done.
  unfold loadRun. cbn [update_run with_runs runs]. by rewrite lookup_alter_eq, Hr.
Qed.

Lemma enqueue_empty_Ok id s r :
  runs s !! id = Some r ->
  enqueueAdvance id "" s = Ok (with_outbox (fun l => l ++ [AdvanceJob (SystemID r) id "" (revision r)]) s).
Proof. intros Hr. unfold enqueueAdvance, enqueueAdvanceWithTrigger, loadRun. by rewrite bool_decide_true, Hr by done. Qed.

Lemma no_log s s' id :
  transitions s' = transitions s ->
  transitions s' = transitions s ++ [] /\ forall t, t ∈ [] -> tr_Run t = id.
Proof. intros ->. rewrite app_nil_r. split; [done|]. by intros t ?%not_elem_of_nil. Qed.

(** Ending a run: cancelled, superseded or done, with or without a log entry. *)
Lemma end_change now id st r log s :
  runs s !! id = Some r -> (forall t, t ∈ log -> tr_Run t = id) ->
  run_change s (finalizeRun now id st (expireOpenTasksForRun id (with_transitions (fun l => l ++ log) s)))
    id r (ended now st r) (expire_of id) log.
Proof.
  intros Hr Hlog. split; try done.
  - cbn. by apply alter_run.
  - intros j. cbn. by rewrite lookup_fmap.
  - apply closes_expire.
Qed.

Lemma end_ok now id st r log s :
  Inv s -> runs s !! id = Some r -> st <> Running ->
  (forall d, defs s !! DefID r = Some d -> replays (df_spec d) (CurrentState r) log (CurrentState r)) ->
  change_ok s id r (ended now st r) (expire_of id) log.
Proof.
  intros I Hr Hst Hlog. split; cbn.
  - done.
  - done.
  - done.
  - intros j t _ Ht Ho. by rewrite expire_of_open in Ho.
  - intros d Hd. destruct (inv_run _ I _ _ Hr) as [_ _ _ (e & He & _ & Hs & _)].
    rewrite Hd in He. injection He as <-. auto.
Qed.

Lemma self_loop spec q trigger now id actor payload :
  trigger = "cancel" \/ trigger = "superseded" ->
  replays spec q [MkTransition id q q trigger actor payload now] q.
Proof.
  intros H. change q with (FromState (MkTransition id q q trigger actor payload now)) at 1.
  constructor; [right; auto|]. constructor.
Qed.

Lemma end_running now id st r log s :
  Inv s -> runs s !! id = Some r -> Status r = Running -> st <> Running -> (forall t, t ∈ log -> tr_Run t = id) ->
  (forall d, defs s !! DefID r = Some d -> replays (df_spec d) (CurrentState r) log (CurrentState r)) ->
  let s' := finalizeRun now id st (expireOpenTasksForRun id (with_transitions (fun l => l ++ log) s)) in
  Inv s' /\ later s s'.
Proof.
  intros I Hr Hrun Hst Hid Hlog. pose proof (end_change now id st r log s Hr Hid) as C.
  pose proof (end_ok now id st r log s I Hr Hst Hlog) as O. split; [by eapply run_change_Inv|].
  eapply run_change_later; [exact C|exact O|done].
Qed.

(** Superseding a running review. *)
Lemma supersede_ok now id r s :
  Inv s -> runs s !! id = Some r -> Status r = Running ->
  Inv (supersede now id s) /\ later s (supersede now id s).
Proof.
  intros I Hr Hrun. unfold supersede. rewrite Hr. unfold insertTransition.
  apply (end_running now id Cancelled r _ s I Hr Hrun); [done|by intros t ->%list_elem_of_singleton|].
  intros d _. apply self_loop. auto.
Qed.

(** A run superseded in a transaction: other than [self] and running. *)
Definition sup_step (self : option Z) s s' : Prop :=
  exists now id r, runs s !! id = Some r /\ Status r = Running /\ self <> Some id /\ s' = supersede now id s.

Lemma sup_steps_ok self s s' :
  Inv s -> rtc (sup_step self) s s' ->
  Inv s' /\ later s s' /\ (forall id, self = Some id -> runs s' !! id = runs s !! id).
Proof.
  intros I R. induction R as [s|s s1 s' (now & id & r & Hr & Hrun & Hne & ->) R IH].
  - split; [done|]. split; [apply later_refl|done].
  - destruct (supersede_ok now id r s I Hr Hrun) as [I1 L1]. destruct (IH I1) as (I' & L' & K').
    split; [done|]. split; [by eapply later_trans|]. intros i Hi. rewrite (K' i Hi).
    unfold supersede. rewrite Hr. cbn. rewrite lookup_alter_ne; [done|]. congruence.
Qed.

(** The reconciliation is such a sequence. *)
Lemma reconcile_loop_sup self check now l s s' :
  NoDup l.*1 -> (forall x, x ∈ l -> self <> Some x.1 /\ exists r, runs s !! x.1 = Some r /\ Status r = Running) ->
  reconcile_loop check now l s = Ok s' -> rtc (sup_step self) s s'.
Proof.
  revert s. induction l as [|[id r0] l IH]; intros s Hnd Hrun H; cbn [reconcile_loop] in H.
  - injection H as <-. constructor.
  - apply NoDup_cons in Hnd as [Hni Hnd]. destruct (Hrun (id, r0)) as (Hself & r & Hr & Hs); [apply list_elem_of_here|].
    destruct (stale_review check s r0) as [[]|]; [| |done].
    + apply rtc_l with (supersede now id s).
      { exists now, id, r. done. }
      apply IH; [done| |done]. intros x Hx. destruct (Hrun x) as (Hsx & rx & Hrx & Hst).
      { by apply list_elem_of_further. }
      split; [done|]. exists rx. split; [|done]. unfold supersede. cbn [fst] in Hr. rewrite Hr. cbn. rewrite lookup_alter_ne; [done|].
      intros ->. apply Hni. apply list_elem_of_fmap. by exists x.
    + apply IH; [done| |done]. intros x Hx. apply Hrun. by apply list_elem_of_further.
Qed.

(** A run that is not in review is left out. *)
Lemma reconcile_sup self check now sys docs s s' :
  (forall id r, self = Some id -> runs s !! id = Some r -> CurrentState r <> "review") ->
  reconcileDocumentChangesInTx check now sys docs s = Ok s' -> rtc (sup_step self) s s'.
Proof.
  intros Hself. unfold reconcileDocumentChangesInTx. apply reconcile_loop_sup.
  - eapply sublist_NoDup; [apply (NoDup_fst_map_to_list (runs s))|]. apply fmap_sublist, sublist_filter.
  - intros x Hx. apply list_elem_of_filter in Hx as [Hf Hx]. destruct x as [id r]. apply elem_of_map_to_list in Hx.
    unfold in_review in Hf. bool_simpl. split; [|by exists r]. intros E. by apply (Hself id r E Hx).
Qed.

(** Bumping the revision of a running run whose tasks are all closed by the change. *)
Lemma bump_ok id r g s :
  Inv s -> runs s !! id = Some r ->
  (forall j t, tasks s !! j = Some t -> RunID t = id -> is_open (g j t) = false) ->
  change_ok s id r (bumped r) g [].
Proof.
  intros I Hr Hg. destruct (inv_run _ I _ _ Hr) as [_ _ R3 (e & He & _ & Hs & _)]. split; cbn.
  - done.
  - split; [lia|intros H; lia].
  - exact R3.
  - intros j t Hj Ht Ho. by rewrite (Hg j t Hj Ht) in Ho.
  - intros d Hd. rewrite Hd in He. injection He as <-. split; [done|constructor].
Qed.

Definition due_item (id : Z) (r : Run) s : store W :=
  with_outbox (fun l => l ++ [AdvanceJob (SystemID r) id "timeout" (revision r + 1)])
    (update_run bumped id (expireOpenTasksForRun id s)).

Lemma due_item_ok id r s :
  Inv s -> runs s !! id = Some r -> Status r = Running ->
  Inv (due_item id r s) /\ later s (due_item id r s).
Proof.
  intros I Hr Hrun.
  assert (C : run_change s (due_item id r s) id r (bumped r) (expire_of id) []).
  { split; try done.
    - cbn. by apply alter_run.
    - intros j. cbn. by rewrite lookup_fmap.
    - apply closes_expire.
    - by apply no_log. }
  assert (O : change_ok s id r (bumped r) (expire_of id) []).
  { apply bump_ok; [done|done|]. intros j t _ Ht. by apply expire_of_open. }
  split; [by eapply run_change_Inv|]. by eapply run_change_later.
Qed.

Lemma sweep_loop_ok due s s' :
  Inv s -> NoDup due -> (forall id, id ∈ due -> exists r, runs s !! id = Some r /\ Status r = Running) ->
  sweep_loop due s = Ok s' -> Inv s' /\ later s s'.
Proof.
  revert s. induction due as [|id due IH]; intros s I Hnd Hrun H; cbn [sweep_loop] in H.
  - injection H as <-. split; [done|apply later_refl].
  - apply NoDup_cons in Hnd as [Hni Hnd]. destruct (Hrun id) as (r & Hr & Hs); [apply list_elem_of_here|].
    rewrite (enqueue_trigger_Ok id "timeout" (expireOpenTasksForRun id s) r) in H by done.
    change (sweep_loop due (due_item id r s) = Ok s') in H.
    destruct (due_item_ok id r s I Hr Hs) as [I1 L1].
    destruct (IH (due_item id r s) I1 Hnd) as [I2 L2]; [|done|split; [done|by eapply later_trans]].
    intros i Hi. destruct (Hrun i) as (ri & Hri & Hsi); [by apply list_elem_of_further|].
    exists ri. split; [|done]. cbn. rewrite lookup_alter_ne; [done|]. by intros ->.
Qed.

Lemma due_runs_running now s id :
  id ∈ due_runs now s -> exists r, runs s !! id = Some r /\ Status r = Running /\
    exists d, DeadlineAt r = Some d /\ d <= now.
Proof.
  unfold due_runs. intros H. apply list_elem_of_fmap in H as ([i r] & -> & H).
  apply list_elem_of_filter in H as [Hf H]. apply elem_of_map_to_list in H. exists r. split; [done|].
  cbn in Hf. destruct (DeadlineAt r) as [d|]; bool_simpl; [|done]. eauto.
Qed.

Lemma due_runs_NoDup now s : NoDup (due_runs now s).
Proof.
  eapply sublist_NoDup; [apply (NoDup_fst_map_to_list (runs s))|]. apply fmap_sublist, sublist_filter.
Qed.

Lemma sweep_tx_ok check now s s' : Inv s -> sweep_tx check now s = Ok s' -> Inv s' /\ later s s'.
Proof.
  intros I H. apply bind_Ok in H as (s1 & H1 & H). assert (R : rtc (sup_step None) s s1) by (by eapply reconcile_sup).
  destruct (sup_steps_ok None s s1 I R) as (I1 & L1 & _).
  destruct (sweep_loop_ok _ _ _ I1 (due_runs_NoDup now s1) ltac:(intros id Hid;
    destruct (due_runs_running _ _ _ Hid) as (r & Hr & Hs & _); eauto) H) as [I2 L2].
  split; [done|]. by eapply later_trans.
Qed.

(** ** Resolving *)

(** What a successful resolution checked and wrote. *)
Lemma ResolveInTx_Ok check now task choice actor s s' :
  Inv s -> ResolveInTx check now task choice actor s = Ok s' ->
  exists t r a, tasks s !! task = Some t /\ runs s !! RunID t = Some r /\
    currentActor now s actor (SystemID r) = Ok (Some a) /\
    is_open t = true /\ In choice (t_Choices t) /\
    (p_Role a = "admin" \/ actorMatchesAssignee a (t_Assignee t) = true) /\
    ensureTaskRunActionable s task = true /\ resolve_change check r t choice a s = Ok tt /\
    enqueueAdvanceWithTrigger (RunID t) choice
      (with_tasks (<[task := resolved now choice (principalTag a) (resolution_proof a) t]>) s) = Ok s'.
Proof.
  intros I H. apply bind_Ok in H as (t & Ht & H). apply bind_Ok in H as (r & Hr & H).
  apply bind_Ok in H as (oa & Ha & H). unfold loadTask in Ht. unfold loadRun in Hr.
  destruct (tasks s !! task) as [t0|] eqn:Et; [|done]. injection Ht as ->.
  destruct (runs s !! RunID t) as [r0|] eqn:Er; [|done]. injection Hr as ->.
  guards_in H. apply bind_Ok in H as (u & Hu & H). destruct u.
  apply bind_Ok in H as (s1 & Hm & H). unfold markTaskResolved in Hm. rewrite Et in Hm. guards_in Hm.
  injection Hm as <-. exists t, r, p. split_and!; try done.
  - apply existsb_exists in Hc0 as (x & Hx & Heq). by apply String.eqb_eq in Heq as ->.
  - bool_cases; auto.
Qed.

Lemma ensure_actionable s task t r :
  tasks s !! task = Some t -> runs s !! RunID t = Some r -> ensureTaskRunActionable s task = true ->
  Status r = Running /\ StateKey t = CurrentState r /\ StateRevision t = revision r.
Proof.
  intros Ht Hr H. unfold ensureTaskRunActionable in H. rewrite Ht, Hr in H. unfold task_of_entry in H.
  bool_simpl. auto.
Qed.

Definition resolve_item (task now : Z) (choice : string) (a : Principal) (t : Task) (r : Run) s : store W :=
  with_outbox (fun l => l ++ [AdvanceJob (SystemID r) (RunID t) choice (revision r + 1)])
    (update_run bumped (RunID t)
      (with_tasks (<[task := resolved now choice (principalTag a) (resolution_proof a) t]>) s)).

Lemma resolve_item_change task now choice a t r s :
  tasks s !! task = Some t -> runs s !! RunID t = Some r ->
  run_change s (resolve_item task now choice a t r s) (RunID t) r (bumped r)
    (resolve_of task now choice (principalTag a) (resolution_proof a)) [].
Proof.
  intros Ht Hr. split; try done.
  - cbn. by apply alter_run.
  - intros j. cbn. unfold resolve_of. destruct (Z.eqb_spec j task) as [->|Hne].
    + by rewrite lookup_insert_eq, Ht.
    + rewrite lookup_insert_ne by done. by destruct (tasks s !! j).
  - apply closes_resolve.
  - by apply no_log.
Qed.

(** The open tasks of a run are one. *)
Lemma open_unique s i j t u :
  Inv s -> tasks s !! i = Some t -> tasks s !! j = Some u -> RunID t = RunID u ->
  is_open t = true -> is_open u = true -> i = j.
Proof.
  intros I Hi Hj Hrun Ho Hu.
  destruct (inv_task _ I _ _ Hi) as [_ (r & Hr & _ & _ & T)]. destruct (inv_task _ I _ _ Hj) as [_ (q & Hq & _ & _ & U)].
  rewrite <- Hrun, Hr in Hq. injection Hq as <-. destruct (T Ho) as [_ E1]. destruct (U Hu) as [_ E2].
  eapply (inv_entry _ I); [exact Hi|exact Hj|done|congruence].
Qed.

Lemma resolve_item_ok task now choice a t r s :
  Inv s -> tasks s !! task = Some t -> runs s !! RunID t = Some r -> is_open t = true -> Status r = Running ->
  Inv (resolve_item task now choice a t r s) /\ later s (resolve_item task now choice a t r s).
Proof.
  intros I Ht Hr Ho Hrun. pose proof (resolve_item_change task now choice a t r s Ht Hr) as C.
  assert (O : change_ok s (RunID t) r (bumped r) (resolve_of task now choice (principalTag a) (resolution_proof a)) []).
  { apply bump_ok; [done|done|]. intros j u Hj Hu. unfold resolve_of. destruct (Z.eqb_spec j task) as [->|Hne]; [done|].
    destruct (is_open u) eqn:Eu; [|done]. destruct Hne. by eapply open_unique. }
  split; [by eapply run_change_Inv|]. by eapply run_change_later.
Qed.

Lemma ResolveInTx_ok check now task choice actor s s' :
  Inv s -> ResolveInTx check now task choice actor s = Ok s' -> choice <> "" ->
  exists t r a, tasks s !! task = Some t /\ runs s !! RunID t = Some r /\ s' = resolve_item task now choice a t r s /\
    Status r = Running /\ is_open t = true.
Proof.
  intros I H Hne. destruct (ResolveInTx_Ok _ _ _ _ _ _ _ I H) as (t & r & a & Ht & Hr & _ & Ho & _ & _ & He & _ & Hs).
  exists t, r, a. destruct (ensure_actionable _ _ _ _ Ht Hr He) as [Hrun _]. split_and!; try done.
  rewrite (enqueue_trigger_Ok (RunID t) choice _ r) in Hs by done. injection Hs as <-. done.
Qed.

(** ** Plans in flight *)

(** An effect run while the row is still in the planned state leaves the engine's tables
    alone, but for superseding running reviews of other runs (as [applyDocumentChange] does
    through the reconciliation). *)
Definition effect_law (run : Z * Run) (res : HandlerResult W) : Prop :=
  forall f now s s' r, Effect res = Some f -> f now s = Ok s' ->
    runs s !! run.1 = Some r -> CurrentState r = CurrentState run.2 ->
    exists s1, rtc (sup_step (Some run.1)) s s1 /\ tables_eq s1 s'.

Definition action_ok (d : def) (p : plan W) : Prop :=
  match pl_action p with
  | Move res trigger next final vs deadline =>
      effect_law (pl_id p, pl_run p) res /\
      exists st nst, States (df_spec d) !! CurrentState (pl_run p) = Some st /\ On st !! Event res = Some next /\
        States (df_spec d) !! next = Some nst /\ final = bool_decide (Kind nst = "end")
  | _ => True
  end.

Definition plan_ok s (p : plan W) : Prop :=
  pl_action p = Skip \/
  (pl_id p <= run_seq s /\ Status (pl_run p) = Running /\
   (forall r, runs s !! pl_id p = Some r -> run_later (pl_run p) r) /\
   exists d, defs s !! DefID (pl_run p) = Some d /\ action_ok d p).

Lemma plan_ok_later s s' p : plan_ok s p -> later s s' -> plan_ok s' p.
Proof.
  intros [H|(H1 & H2 & H3 & d & H4 & H5)] [L1 L2 L3]; [by left|right]. split_and!; [lia|done| |].
  - intros r' Hr'. destruct (L1 _ _ H1 Hr') as (r & Hr & L). eapply run_later_trans; [by apply H3|done].
  - destruct (L2 _ _ H4) as (d' & Hd' & Hs & _). exists d'. split; [done|].
    unfold action_ok in *. rewrite Hs. done.
Qed.

(** Handlers whose effects obey the law. *)
Class LawfulRegistry (reg : registry W) : Prop :=
  lawful : forall kind h run st trigger res,
    reg !! kind = Some h -> h run st trigger = Ok res -> effect_law run res.

Lemma plan_advance_ok reg resolver `{!LawfulRegistry reg} now id trigger sys rev s p :
  Inv s -> plan_advance reg resolver now id trigger sys rev s = Ok p -> plan_ok s p.
Proof.
  intros I H. apply bind_Ok in H as (run & Hr & H). unfold loadRun in Hr.
  destruct (runs s !! id) as [r|] eqn:Er; [|done]. injection Hr as ->.
  destruct (_ && _); [done|]. destruct (match rev with Some v => _ | None => _ end); [by injection H as <-; left|].
  destruct (negb (bool_decide (Status run = Running))) eqn:Es; [by injection H as <-; left|].
  apply bind_Ok in H as (d & Hd & H). unfold defByID in Hd.
  destruct (defs s !! DefID run) as [d0|] eqn:Ed; [|done]. injection Hd as ->. bool_simpl.
  destruct (States (df_spec d) !! CurrentState run) as [st|] eqn:Est; [|done].
  assert (Hok : forall act, action_ok d (MkPlan id run act) -> plan_ok s (MkPlan id run act)).
  { intros act Ha. right. cbn. split_and!; [by apply (inv_run _ I _ _ Er)|done| |eauto].
    intros r Hr. rewrite Er in Hr. injection Hr as <-. apply run_later_refl. }
  unfold plan_state in H. destruct (bool_decide (Kind st = "end")); [injection H as <-; by apply Hok|].
  destruct (reg !! Kind st) as [h|] eqn:Eh; [|done]. apply bind_Ok in H as (res & Hres & H).
  destruct (res_Task res) as [task|].
  - apply bind_Ok in H as (us & _ & H). injection H as <-. by apply Hok.
  - destruct (bool_decide (Event res = "")); [by injection H as <-; left|].
    destruct (On st !! Event res) as [next|] eqn:En; [|done].
    destruct (States (df_spec d) !! next) as [nst|] eqn:Enst; [|done]. injection H as <-.
    apply Hok. cbn. split; [by eapply (lawful _ _ (id, run))|]. exists st, nst. done.
Qed.

(** ** The commit *)
Lemma is_current_spec id run s :
  is_current id run s = true <-> exists r, runs s !! id = Some r /\ Status r = Running /\ revision r = revision run.
Proof.
  unfold is_current. destruct (runs s !! id) as [r|]; [|split; [done|by intros (r & [=] & _)]].
  rewrite andb_true_iff, bool_decide_eq_true, Z.eqb_eq. split; [eauto|]. by intros (r' & [= <-] & H).
Qed.

Lemma add_task_ok now id r spec deadline s s' created :
  Inv s -> runs s !! id = Some r -> Status r = Running ->
  insertTask now id r spec deadline s = Ok (created, s') -> Inv s' /\ later s s' /\ runs s' = runs s.
Proof.
  intros I Hr Hrun H. unfold insertTask in H.
  destruct (exists_row (fun _ t => task_of_entry id r t) (tasks s)) eqn:Ex.
  { injection H as _ <-. split; [done|]. split; [apply later_refl|done]. }
  guards_in H. injection H as _ <-. cbn [snd add_task]. split; [|split; [by apply same_runs_later|done]].
  assert (Hfresh : forall i t, tasks s !! i = Some t -> i <= task_seq s) by (intros i t Hi; by destruct (inv_task _ I _ _ Hi)).
  assert (Hno : forall i t, tasks s !! i = Some t -> RunID t = id -> StateRevision t <> revision r).
  { intros i t Hi Hid Hrev. pose proof (exists_row_false _ _ _ _ Ex Hi) as Hf. cbv beta in Hf.
    destruct (inv_task _ I _ _ Hi) as [_ (q & Hq & _ & Hk & _)]. rewrite Hid, Hr in Hq. injection Hq as <-.
    unfold task_of_entry in Hf. rewrite Hid, Hrev, (Hk Hrev), !Z.eqb_refl, bool_decide_true in Hf by done. done. }
  destruct (inv_run _ I _ _ Hr) as [_ R2 _ _]. split; cbn [defs runs tasks transitions run_seq task_seq].
  - apply (inv_def _ I).
  - apply (inv_active _ I).
  - intros i ri Hi. by destruct (inv_run _ I _ _ Hi).
  - intros i t [[<- <-]|[_ Hi]]%lookup_insert_Some.
    + split; cbn [task_seq]; [lia|]. exists r. cbn. split_and!; try done; lia.
    + destruct (inv_task _ I _ _ Hi) as [T1 T2]. split; cbn [task_seq]; [lia|done].
  - intros i j t u [[<- <-]|[Ni Hi]]%lookup_insert_Some [[<- <-]|[Nj Hj]]%lookup_insert_Some; cbn; intros Hid Hrev.
    + done.
    + exfalso. by eapply (Hno j u).
    + exfalso. by eapply (Hno i t).
    + by eapply (inv_entry _ I).
  - apply (inv_log _ I).
Qed.

Lemma set_deadline_ok id r deadline s :
  Inv s -> runs s !! id = Some r -> Status r = Running ->
  Inv (update_run (set_deadline deadline) id s) /\ later s (update_run (set_deadline deadline) id s).
Proof.
  intros I Hr Hrun.
  assert (C : run_change s (update_run (set_deadline deadline) id s) id r (set_deadline deadline r) (fun _ t => t) []).
  { split; try done.
    - cbn. by apply alter_run.
    - intros j. cbn. by destruct (tasks s !! j).
    - by apply no_log. }
  assert (O : change_ok s id r (set_deadline deadline r) (fun _ t => t) []).
  { destruct (inv_run _ I _ _ Hr) as [_ _ R3 (e & He & _ & Hs & _)]. split; cbn.
    - done.
    - done.
    - exact R3.
    - done.
    - intros d Hd. rewrite Hd in He. injection He as <-. split; [done|constructor]. }
  split; [by eapply run_change_Inv|]. by eapply run_change_later.
Qed.

Definition move_run (now : Z) (next : string) (final : bool) (vs : vars) (deadline : option Z) (r : Run) : Run :=
  let r' := moved now next vs deadline r in if final then ended now Done r' else r'.
Definition move_tables (now id : Z) (t : Transition) (next : string) (final : bool) (vs : vars) (deadline : option Z) s
    : store W :=
  let s := updateRunState now id next vs deadline (expireOpenTasksForRun id (with_transitions (fun l => l ++ [t]) s)) in
  if final then finalizeRun now id Done s else s.

Lemma move_ok now id t next final vs deadline r s d st nst :
  Inv s -> runs s !! id = Some r -> Status r = Running -> defs s !! DefID r = Some d ->
  States (df_spec d) !! CurrentState r = Some st -> On st !! Trigger t = Some next ->
  States (df_spec d) !! next = Some nst ->
  tr_Run t = id -> FromState t = CurrentState r -> ToState t = next ->
  let s' := move_tables now id t next final vs deadline s in
  Inv s' /\ later s s' /\ runs s' !! id = Some (move_run now next final vs deadline r).
Proof.
  intros I Hr Hrun Hd Hst Hon Hn Hid Hfrom Hto. cbn zeta.
  assert (Hm : runs (move_tables now id t next final vs deadline s) = <[id := move_run now next final vs deadline r]> (runs s)).
  { unfold move_tables. destruct final; cbn; [|by apply alter_run].
    rewrite (alter_run (runs s) _ id r Hr), (alter_run _ (ended now Done) id (moved now next vs deadline r)) by (apply lookup_insert_eq).
    by rewrite insert_insert_eq. }
  assert (C : run_change s (move_tables now id t next final vs deadline s) id r
      (move_run now next final vs deadline r) (expire_of id) [t]).
  { split; try done; unfold move_tables.
    - by destruct final.
    - by destruct final.
    - intros j. destruct final; cbn; by rewrite lookup_fmap.
    - apply closes_expire.
    - destruct final; (split; [done|by intros u ->%list_elem_of_singleton]). }
  assert (O : change_ok s id r (move_run now next final vs deadline r) (expire_of id) [t]).
  { destruct (inv_run _ I _ _ Hr) as [_ _ R3 _].
    assert (Hcur : CurrentState (move_run now next final vs deadline r) = next) by (unfold move_run; by destruct final).
    assert (Hrev : revision (move_run now next final vs deadline r) = revision r + 1) by (unfold move_run; by destruct final).
    split; rewrite ?Hcur, ?Hrev.
    - unfold move_run. by destruct final.
    - split; [lia|]. intros Hx. lia.
    - unfold move_run. destruct final; cbn; [split; done|exact R3].
    - intros j u _ Hu Ho. by rewrite expire_of_open in Ho.
    - intros e He. rewrite Hd in He. injection He as <-. split; [eauto|].
      rewrite <- Hfrom, <- Hto at 1. constructor; [left; rewrite Hfrom, Hto; eauto|]. rewrite Hto. constructor. }
  split; [by eapply run_change_Inv|]. split; [by eapply run_change_later|]. by rewrite Hm, lookup_insert_eq.
Qed.

(** A commit whose run moved on does nothing; otherwise it is the planned change. *)
Lemma commit_stale now p s :
  is_current (pl_id p) (pl_run p) s = false -> commit now p s = Ok s.
Proof. destruct p as [id run act]. cbn. intros ->. by destruct act. Qed.

Lemma commit_move_Ok now id run res trigger next final vs deadline s s' :
  commit_move now id run res trigger next final vs deadline s = Ok s' ->
  runs s !! id <> None ->
  exists s1 s2 t, (Effect res = None /\ s1 = s \/ exists f, Effect res = Some f /\ f now s = Ok s1) /\
    tr_Run t = id /\ FromState t = CurrentState run /\ ToState t = next /\ Trigger t = Event res /\
    s2 = move_tables now id t next final vs deadline s1 /\
    (s' = s2 \/ enqueueAdvance id "" s2 = Ok s').
Proof.
  intros H _. apply bind_Ok in H as (s1 & He & H).
  set (t := MkTransition id (CurrentState run) next (Event res)
    (resolvedActor s1 id (CurrentState run) trigger) (reload <$> res_Vars res) now).
  exists s1, (move_tables now id t next final vs deadline s1), t. split.
  { destruct (Effect res) as [f|]; [right; eauto|left]. by injection He as <-. }
  split_and!; [reflexivity..|]. unfold move_tables. unfold insertTransition in H.
  destruct final; [left; by injection H as <-|right; done].
Qed.

Lemma commit_ok now p s s' :
  Inv s -> plan_ok s p -> commit now p s = Ok s' -> Inv s' /\ later s s'.
Proof.
  intros I [Hskip|(P1 & P2 & P3 & d & P4 & P5)] H; destruct p as [id run act]; cbn [pl_id pl_run pl_action] in *.
  { rewrite Hskip in H. injection H as <-. split; [done|apply later_refl]. }
  destruct (is_current id run s) eqn:Ecur;
    [|rewrite (commit_stale now (MkPlan id run act) s Ecur) in H; injection H as <-; split; [done|apply later_refl]].
  pose proof Ecur as (r & Hr & Hrun & Hrev)%is_current_spec. destruct (P3 _ Hr) as (L1 & L2 & _ & L4 & _).
  specialize (L4 Hrev). unfold commit in H. rewrite Ecur in H. cbn [negb] in H.
  destruct act as [| |spec deadline|res trigger next final vs deadline].
  - injection H as <-. split; [done|apply later_refl].
  - injection H as <-. pose proof (end_running now id Done r [] s I Hr Hrun) as E. cbn zeta in E.
    assert (Es : with_transitions (fun l => l ++ []) s = s) by (destruct s; unfold with_transitions; cbn; by rewrite app_nil_r).
    rewrite Es in E. apply E; [done|by intros t ?%not_elem_of_nil|]. intros; constructor.
  - apply bind_Ok in H as ([created s1] & Hi & H). injection H as <-.
    assert (Hi' : insertTask now id r spec deadline s = Ok (created, s1)).
    { rewrite <- Hi. unfold insertTask, task_of_entry. by rewrite L4, Hrev. }
    destruct (add_task_ok _ _ _ _ _ _ _ _ I Hr Hrun Hi') as (I1 & A1 & Hruns).
    destruct created; [|done]. rewrite <- Hruns in Hr.
    destruct (set_deadline_ok id r deadline s1 I1 Hr Hrun) as [I2 A2]. split; [done|by eapply later_trans].
  - destruct P5 as (Hlaw & st & nst & Hst & Hon & Hn & Hfin). cbn [pl_id pl_run] in *.
    apply commit_move_Ok in H as (s1 & s2 & t & He & T1 & T2 & T3 & T4 & -> & Hs'); [|congruence].
    assert (H1 : Inv s1 /\ later s s1 /\ runs s1 !! id = Some r /\ defs s1 !! DefID r = Some d).
    { destruct He as [[_ ->]|(f & Hf & He)].
      - split_and!; [done|apply later_refl|done|congruence].
      - destruct (Hlaw _ _ _ _ _ Hf He Hr L4) as (s0 & R & Heq). cbn [fst] in R. destruct (sup_steps_ok _ _ _ I R) as (I0 & L0 & K0).
        split_and!; [by eapply tables_eq_Inv|eapply later_trans; [exact L0|by apply tables_eq_later]| |].
        + destruct Heq as (_ & -> & _). by rewrite K0.
        + destruct Heq as (-> & _). clear - R L2 P4. induction R as [s|s sa sb (n & i & q & Hq & _ & _ & ->) R IH]; [congruence|].
          apply IH. unfold supersede. rewrite Hq. exact P4. }
    destruct H1 as (I1 & A1 & Hr1 & Hd1).
    destruct (move_ok now id t next final vs deadline r s1 d st nst) as (I2 & A2 & Hr2); try done; try congruence.
    assert (Htab : tables_eq (move_tables now id t next final vs deadline s1) s').
    { destruct Hs' as [->|Hs']; [by split_and!|]. rewrite (enqueue_empty_Ok _ _ _ Hr2) in Hs'. injection Hs' as <-. by split_and!. }
    split; [by eapply tables_eq_Inv|]. eapply later_trans; [exact A1|]. eapply later_trans; [exact A2|by apply tables_eq_later].
Qed.

(** ** New definitions and runs, deletion *)

Lemma foldr_max_version l sys slug :
  forall id d, (id, d) ∈ l -> same_slug sys slug d = true ->
  df_version d <= foldr (fun (x : Z * def) acc => if same_slug sys slug x.2 then Z.max (df_version x.2) acc else acc) 0 l.
Proof.
  induction l as [|[i e] l IH]; intros id d Hin Hs; [by apply not_elem_of_nil in Hin|].
  cbn. apply elem_of_cons in Hin as [[= <- <-]|Hin].
  - rewrite Hs. lia.
  - specialize (IH _ _ Hin Hs). destruct (same_slug sys slug e); lia.
Qed.

Lemma next_version_above s sys slug id d :
  defs s !! id = Some d -> same_slug sys slug d = true -> df_version d < next_version s sys slug.
Proof.
  intros Hd Hs. unfold next_version. apply elem_of_map_to_list in Hd.
  pose proof (foldr_max_version _ sys slug _ _ Hd Hs). lia.
Qed.

Lemma same_slug_spec sys slug d : same_slug sys slug d = true <-> df_system d = sys /\ df_slug d = slug.
Proof. unfold same_slug. by rewrite andb_true_iff, Z.eqb_eq, bool_decide_eq_true. Qed.

(** The definitions after an insertion: the new one, the others, the slug's retired. *)
Lemma insertDef_lookup now sys slug spec by_ s id s' i d :
  insertDef now sys slug spec by_ s = Ok (id, s') -> defs s' !! i = Some d ->
  (i = id /\ df_system d = sys /\ df_slug d = slug /\ df_spec d = spec /\ df_active d = true /\
     df_version d = next_version s sys slug /\ defs s !! id = None) \/
  (i <> id /\ exists e, defs s !! i = Some e /\ df_spec d = df_spec e /\ df_system d = df_system e /\
     df_slug d = df_slug e /\ df_version d = df_version e /\
     df_active d = df_active e && negb (same_slug sys slug e)).
Proof.
  unfold insertDef. intros H Hd. cbn zeta in H. guards_in H. injection H as <- <-. cbn [with_defs defs] in Hd.
  apply lookup_insert_Some in Hd as [[<- <-]|[Hne Hd]].
  - left. split_and!; try done. apply next_rowid_None.
  - right. split; [done|]. rewrite lookup_fmap in Hd. destruct (defs s !! i) as [e|]; [|done].
    cbn in Hd. injection Hd as <-. exists e. split; [done|].
    destruct (same_slug sys slug e), (df_active e) eqn:Ea; cbn; rewrite ?Ea; done.
Qed.

Lemma insertDef_ok now sys slug spec by_ s id s' :
  Inv s -> spec_wf spec -> insertDef now sys slug spec by_ s = Ok (id, s') -> Inv s' /\ later s s'.
Proof.
  intros I Hw H.
  assert (Hother : forall i e, defs s !! i = Some e -> exists d, defs s' !! i = Some d /\ df_spec d = df_spec e /\ df_system d = df_system e).
  { intros i e He. pose proof H as H0. unfold insertDef in H0. cbn zeta in H0. guards_in H0. injection H0 as <- <-.
    cbn [with_defs defs]. rewrite lookup_insert_ne by (intros <-; by rewrite next_rowid_None in He).
    rewrite lookup_fmap, He. cbn. eexists. split; [reflexivity|]. by destruct (_ && _). }
  assert (Hrest : runs s' = runs s /\ tasks s' = tasks s /\ transitions s' = transitions s /\ run_seq s' = run_seq s /\ task_seq s' = task_seq s).
  { unfold insertDef in H. cbn zeta in H. guards_in H. by injection H as <- <-. }
  destruct Hrest as (E1 & E2 & E3 & E4 & E5). split; [split|split].
  - intros i d Hd. destruct (insertDef_lookup _ _ _ _ _ _ _ _ _ _ H Hd) as [(_ & _ & _ & -> & _)|(_ & e & He & -> & _)]; [done|].
    by apply (inv_def _ I) in He.
  - intros i j d e Hd He Hsys Hslug Ha Hb.
    destruct (insertDef_lookup _ _ _ _ _ _ _ _ _ _ H Hd) as [(-> & D1 & D2 & _)|(_ & d0 & Hd0 & _ & D1 & D2 & _ & D3)];
    destruct (insertDef_lookup _ _ _ _ _ _ _ _ _ _ H He) as [(-> & F1 & F2 & _)|(_ & e0 & He0 & _ & F1 & F2 & _ & F3)].
    + done.
    + exfalso. assert (Hs : same_slug sys slug e0 = true) by (apply same_slug_spec; split; congruence).
      rewrite Hs, andb_false_r in F3. congruence.
    + exfalso. assert (Hs : same_slug sys slug d0 = true) by (apply same_slug_spec; split; congruence).
      rewrite Hs, andb_false_r in D3. congruence.
    + rewrite Ha in D3. rewrite Hb in F3. symmetry in D3, F3. apply andb_true_iff in D3 as [D3 _], F3 as [F3 _].
      apply (inv_active _ I _ _ _ _ Hd0 He0); congruence.
  - rewrite E1. intros i r Hr. destruct (inv_run _ I _ _ Hr) as [R1 R2 R3 (d & R4 & R5 & R6 & R7)].
    split; rewrite ?E4; [done|done|done|]. destruct (Hother _ _ R4) as (d' & Hd' & S1 & S2).
    exists d'. unfold log_of in *. rewrite E3, S1, S2. done.
  - rewrite E2. intros i t Ht. destruct (inv_task _ I _ _ Ht). split; rewrite ?E1, ?E5; done.
  - rewrite E2. apply (inv_entry _ I).
  - rewrite E3, E4. apply (inv_log _ I).
  - intros i r' _ Hr. rewrite E1 in Hr. exists r'. split; [done|apply run_later_refl].
  - exact Hother.
  - lia.
Qed.

Lemma RegisterInTx_Ok registered now sys spec slug actor s id s' :
  RegisterInTx registered now sys spec slug actor s = Ok (id, s') ->
  spec_wf spec /\ exists by_, insertDef now sys slug spec by_ s = Ok (id, s').
Proof.
  unfold RegisterInTx. intros H. guards_in H. apply bind_Ok in H as (c & _ & H). guards_in H.
  split; [by apply Validate_sound|eauto].
Qed.

Lemma activeDefBySlug_Ok s sys slug id d :
  activeDefBySlug s sys slug = Ok (id, d) -> defs s !! id = Some d /\ same_slug sys slug d = true /\ df_active d = true.
Proof.
  unfold activeDefBySlug.
  set (l := filter (fun x => same_slug sys slug x.2 && df_active x.2 = true) (map_to_list (defs s))).
  assert (Hl : forall x, x ∈ l -> defs s !! x.1 = Some x.2 /\ same_slug sys slug x.2 = true /\ df_active x.2 = true).
  { intros [i e] Hx. apply list_elem_of_filter in Hx as [Hf Hx]. apply elem_of_map_to_list in Hx. by bool_simpl. }
  destruct l as [|x l']; [done|]. intros [= Hfold].
  assert (Hin : foldl later_def x l' ∈ x :: l').
  { clear Hl Hfold. revert x. induction l' as [|y l' IH]; intros x; cbn; [apply list_elem_of_here|].
    unfold later_def at 2. destruct (_ <? _).
    - apply list_elem_of_further, IH.
    - specialize (IH x). apply elem_of_cons in IH as [->|IH]; [apply list_elem_of_here|].
      by apply list_elem_of_further, list_elem_of_further. }
  apply Hl in Hin. by rewrite Hfold in Hin.
Qed.

Lemma insertRun_ok now sys defID doc start vs deadline by_ s id s' d :
  Inv s -> defs s !! defID = Some d -> start = Start (df_spec d) ->
  insertRun now sys defID doc start vs deadline by_ s = Ok (id, s') ->
  Inv s' /\ later s s' /\ exists r, runs s' !! id = Some r /\ Status r = Running.
Proof.
  intros I Hd -> H. unfold insertRun in H. guards_in H. injection H as <- <-. bool_simpl.
  assert (Hsys : df_system d = sys) by (rewrite Hd in Hc; by injection Hc).
  pose proof (wf_start _ (inv_def _ I _ _ Hd)) as Hstart.
  assert (Hnew : forall i r, runs s !! i = Some r -> i <> run_seq s + 1).
  { intros i r Hi. destruct (inv_run _ I _ _ Hi). lia. }
  split; [|split; [|eexists; cbn; by rewrite lookup_insert_eq]].
  - split; cbn [defs runs tasks transitions run_seq task_seq].
    + apply (inv_def _ I).
    + apply (inv_active _ I).
    + intros i r [[<- <-]|[Hne Hi]]%lookup_insert_Some.
      * split; cbn; [lia|lia|done|]. exists d. split_and!; try done.
        assert (Hlog : forall l, (forall t, t ∈ l -> tr_Run t <= run_seq s) -> filter (fun t => tr_Run t = run_seq s + 1) l = []).
        { induction l as [|t l IH]; intros Hl; [done|].
          rewrite filter_cons_False by (specialize (Hl t (list_elem_of_here _ _)); lia).
          apply IH. intros u Hu. apply Hl. by apply list_elem_of_further. }
        unfold log_of. cbn [transitions]. rewrite Hlog by apply (inv_log _ I). constructor.
      * destruct (inv_run _ I _ _ Hi) as [R1 R2 R3 R4]. split; cbn; [lia|done|done|done].
    + intros i t Hi. destruct (inv_task _ I _ _ Hi) as [T1 (r & T2 & T3)]. split; cbn; [done|].
      exists r. rewrite lookup_insert_ne by (symmetry; by eapply Hnew). done.
    + apply (inv_entry _ I).
    + intros t Ht. apply (inv_log _ I) in Ht. lia.
  - split; cbn; [|eauto|lia]. intros i r' Hi Hr. rewrite lookup_insert_ne in Hr by lia.
    exists r'. split; [done|apply run_later_refl].
Qed.

Lemma StartInTx_ok now sys slug doc vs actor s id s' :
  Inv s -> StartInTx now sys slug doc vs actor s = Ok (id, s') -> Inv s' /\ later s s'.
Proof.
  intros I H. apply bind_Ok in H as (c & _ & H). apply bind_Ok in H as ([defID d] & Hd & H).
  apply activeDefBySlug_Ok in Hd as [Hd _]. cbn zeta in H. guards_in H.
  apply bind_Ok in H as (vs' & _ & H). apply bind_Ok in H as ([rid s1] & H1 & H).
  apply bind_Ok in H as (s2 & H2 & H). injection H as <- <-.
  destruct (insertRun_ok _ _ _ _ _ _ _ _ _ _ _ _ I Hd eq_refl H1) as (I1 & L1 & r & Hr & _).
  rewrite (enqueue_empty_Ok _ _ _ Hr) in H2. injection H2 as <-.
  split; [eapply tables_eq_Inv; [|exact I1]; by split_and!|]. eapply later_trans; [exact L1|].
  by apply tables_eq_later.
Qed.

Lemma purge_ok docs s : Inv s -> Inv (purge_runs docs s) /\ later s (purge_runs docs s).
Proof.
  intros I. unfold purge_runs. cbn zeta.
  set (doomed := fun r => match DocID r with Some d => bool_decide (d ∈ docs) | None => false end).
  set (gone := fun id => match runs s !! id with Some r => doomed r | None => false end).
  assert (Hrun : forall i r, filter (fun x : Z * Run => doomed x.2 = false) (runs s) !! i = Some r <->
    runs s !! i = Some r /\ doomed r = false).
  { intros i r. apply map_lookup_filter_Some. }
  split; [split|split]; cbn [with_transitions with_tasks with_runs defs runs tasks transitions run_seq task_seq].
  - apply (inv_def _ I).
  - apply (inv_active _ I).
  - intros i r [Hi Hdoom]%Hrun. destruct (inv_run _ I _ _ Hi) as [R1 R2 R3 (d & R4 & R5 & R6 & R7)].
    split; [done|done|done|]. exists d. split_and!; try done.
    assert (Hlog : forall l : list Transition, filter (fun t => tr_Run t = i) (filter (fun t => gone (tr_Run t) = false) l)
      = filter (fun t => tr_Run t = i) l).
    { assert (Hg : gone i = false) by (unfold gone; by rewrite Hi).
      induction l as [|t l IH]; [done|]. destruct (decide (tr_Run t = i)) as [Ht|Ht].
      - rewrite (filter_cons_True _ t l) by (by rewrite Ht). rewrite !filter_cons_True by done. by rewrite IH.
      - rewrite (filter_cons_False (fun t => tr_Run t = i) t l) by done. rewrite <- IH.
        destruct (gone (tr_Run t)) eqn:Eg.
        + by rewrite filter_cons_False by (by rewrite Eg).
        + rewrite filter_cons_True by done. by rewrite filter_cons_False. }
    unfold log_of in *. cbn [with_transitions transitions with_tasks with_runs]. by rewrite Hlog.
  - intros i t [Hi Hg]%map_lookup_filter_Some. cbn in Hg.
    destruct (inv_task _ I _ _ Hi) as [T1 (r & T2 & T3)]. split; [done|]. exists r. split; [|done].
    apply Hrun. split; [done|]. unfold gone in Hg. by rewrite T2 in Hg.
  - intros i j t u [Hi _]%map_lookup_filter_Some [Hj _]%map_lookup_filter_Some. by apply (inv_entry _ I).
  - intros t [_ Ht]%list_elem_of_filter. by apply (inv_log _ I).
  - intros i r' _ [Hi _]%Hrun. exists r'. split; [done|apply run_later_refl].
  - eauto.
  - lia.
Qed.

Lemma CancelInTx_ok now id reason actor s s' :
  Inv s -> CancelInTx now id reason actor s = Ok s' -> Inv s' /\ later s s'.
Proof.
  intros I H. apply bind_Ok in H as (r & Hr & H). apply bind_Ok in H as (a & _ & H). guards_in H.
  injection H as <-. bool_simpl. unfold loadRun in Hr. destruct (runs s !! id) as [r0|] eqn:Er; [|done].
  injection Hr as ->. unfold insertTransition.
  apply (end_running now id Cancelled r _ s I Er); [done|done|by intros t ->%list_elem_of_singleton|].
  intros d _. apply self_loop. auto.
Qed.

Lemma resolve_any_ok check now task choice actor s s' :
  Inv s -> ResolveInTx check now task choice actor s = Ok s' -> Inv s' /\ later s s'.
Proof.
  intros I H. destruct (decide (choice = "")) as [->|Hne].
  - destruct (ResolveInTx_Ok _ _ _ _ _ _ _ I H) as (t & r & a & Ht & Hr & _ & Ho & _ & _ & _ & _ & Hs).
    change (enqueueAdvanceWithTrigger (RunID t) "") with (enqueueAdvance (W := W) (RunID t) "") in Hs.
    rewrite (enqueue_empty_Ok (RunID t) _ r) in Hs by done. injection Hs as <-.
    set (s1 := with_tasks _ s) in *.
    assert (C : run_change s s1 (RunID t) r r (resolve_of task now "" (principalTag a) (resolution_proof a)) []).
    { split; try done.
      - cbn. by rewrite insert_id.
      - intros j. cbn. unfold resolve_of. destruct (Z.eqb_spec j task) as [->|Hj].
        + by rewrite lookup_insert_eq, Ht.
        + rewrite lookup_insert_ne by done. by destruct (tasks s !! j).
      - apply closes_resolve.
      - by apply no_log. }
    assert (O : change_ok s (RunID t) r r (resolve_of task now "" (principalTag a) (resolution_proof a)) []).
    { destruct (inv_run _ I _ _ Hr) as [_ _ R3 (e & He & _ & Hs & _)]. split; try done.
      - intros j u Hj Hu Hop. unfold resolve_of in Hop. destruct (j =? task); [done|].
        destruct (inv_task _ I _ _ Hj) as [_ (q & Hq & _ & _ & T)]. rewrite Hu, Hr in Hq. injection Hq as <-.
        by destruct (T Hop).
      - intros d Hd. rewrite Hd in He. injection He as <-. split; [done|constructor]. }
    split; [eapply tables_eq_Inv; [|by eapply run_change_Inv]; by split_and!|].
    eapply later_trans; [by eapply run_change_later|]. by apply tables_eq_later.
  - destruct (ResolveInTx_ok _ _ _ _ _ _ _ I H Hne) as (t & r & a & Ht & Hr & -> & Hrun & Ho).
    by apply resolve_item_ok.
Qed.

(** ** The system: transactions and advances in flight *)
Section Steps.
Context (reg : registry W) `{!LawfulRegistry reg}.
Context (resolver : string -> result approval_error (list Z)).
Context (check : store W -> Z -> vars -> option Principal -> result approval_error unit).
Context (registered : string -> bool).

Inductive estep : store W * list (plan W) -> store W * list (plan W) -> Prop :=
  | e_register s ps now sys spec slug actor id s' :
      RegisterInTx registered now sys spec slug actor s = Ok (id, s') -> estep (s, ps) (s', ps)
  | e_start s ps now sys slug doc vs actor id s' :
      StartInTx now sys slug doc vs actor s = Ok (id, s') -> estep (s, ps) (s', ps)
  | e_resolve s ps now task choice actor s' :
      ResolveInTx check now task choice actor s = Ok s' -> estep (s, ps) (s', ps)
  | e_cancel s ps now id reason actor s' :
      CancelInTx now id reason actor s = Ok s' -> estep (s, ps) (s', ps)
  | e_sweep s ps now s' : sweep_tx check now s = Ok s' -> estep (s, ps) (s', ps)
  | e_reconcile s ps now sys docs s' :
      reconcileDocumentChangesInTx check now sys docs s = Ok s' -> estep (s, ps) (s', ps)
  | e_purge s ps docs : estep (s, ps) (purge_runs docs s, ps)
  | e_other s ps s' : tables_eq s s' -> estep (s, ps) (s', ps) (* accounts, documents, queue *)
  | e_plan s ps now id trigger sys rev p :
      plan_advance reg resolver now id trigger sys rev s = Ok p -> estep (s, ps) (s, p :: ps)
  | e_commit s ps now p s' : p ∈ ps -> commit now p s = Ok s' -> estep (s, ps) (s', ps)
  | e_drop s ps ps' : (forall p, p ∈ ps' -> p ∈ ps) -> estep (s, ps) (s, ps').

Definition sys_ok (x : store W * list (plan W)) : Prop := Inv x.1 /\ forall p, p ∈ x.2 -> plan_ok x.1 p.

Lemma estep_ok x y : sys_ok x -> estep x y -> sys_ok y /\ later x.1 y.1.
Proof.
  intros [I P] St.
  assert (Hstore : forall s', Inv s' /\ later x.1 s' -> sys_ok (s', x.2) /\ later x.1 s').
  { intros s' [I' L']. split; [|done]. split; [done|]. intros p Hp. eapply plan_ok_later; [by apply P|done]. }
  destruct St; cbn [fst snd] in *; try apply Hstore.
  - apply RegisterInTx_Ok in H as (Hw & b & H). by eapply insertDef_ok.
  - by eapply StartInTx_ok.
  - by eapply resolve_any_ok.
  - by eapply CancelInTx_ok.
  - by eapply sweep_tx_ok.
  - assert (R : rtc (sup_step None) s s') by (by eapply reconcile_sup).
    destruct (sup_steps_ok None s s' I R) as (I' & L' & _). done.
  - by apply purge_ok.
  - split; [by eapply tables_eq_Inv|by apply tables_eq_later].
  - split; [|apply later_refl]. split; [done|]. intros q [->|Hq]%elem_of_cons; [by eapply plan_advance_ok|by apply P].
  - eapply commit_ok; [done| |done]. by apply P.
  - split; [|apply later_refl]. split; [done|]. intros p Hp. apply P. by apply H.
Qed.

End Steps.
End Facts.
