(* ===== verification/ApprovalProps.v ===== *)
(** Consequences for a single run: redelivered work, decisions and timeouts, with the
    witnesses of the engine's properties. *)
From S2P Require Import Prelude GoStd Sqlite Systems Principal ApprovalSpec Approvals ApprovalRunner ApprovalFacts.

Section Props.
Context {W : Type}.
Implicit Types s : store W.

(** * Redelivery *)

Lemma move_tables_current now id t next final vs deadline run s r :
  runs s !! id = Some r -> revision r = revision run ->
  is_current id run (move_tables now id t next final vs deadline s) = false.
Proof.
  intros Hr Hrev. destruct (is_current _ _ _) eqn:E; [|done].
  apply is_current_spec in E as (q & Hq & _ & Hq2). exfalso. unfold move_tables in Hq.
  destruct final; cbn in Hq; rewrite ?lookup_alter_eq, Hr in Hq; injection Hq as <-; cbn in Hq2; lia.
Qed.

(** A run at the plan's revision is the only one a commit changes. *)
Lemma is_current_later id run s s' :
  id <= run_seq s -> (forall r, runs s !! id = Some r -> revision run <= revision r) ->
  is_current id run s = false -> later s s' -> is_current id run s' = false.
Proof.
  intros Hid Hge Hc L. destruct (is_current id run s') eqn:E; [|done].
  apply is_current_spec in E as (r' & Hr' & Hrun' & Hrev'). exfalso.
  destruct (lt_runs _ _ L id r' Hid Hr') as (r & Hr & _ & _ & L3 & _ & L5). specialize (Hge _ Hr).
  assert (Hs : Status r <> Running).
  { intros Hs. assert (Ht : is_current id run s = true) by (apply is_current_spec; exists r; split_and!; [done|done|lia]).
    congruence. }
  specialize (L5 Hs). subst r'. done.
Qed.

(** The run of a plan after its commit. *)
Lemma commit_current now p s s' :
  Inv s -> plan_ok s p -> commit now p s = Ok s' ->
  match pl_action p with Finish | Move _ _ _ _ _ _ => is_current (pl_id p) (pl_run p) s' = false | _ => True end.
Proof.
  intros I P H. destruct (is_current (pl_id p) (pl_run p) s) eqn:Ecur;
    [ |rewrite (commit_stale _ _ _ Ecur) in H; injection H as <-; by destruct (pl_action p)].
  pose proof Ecur as (r & Hr & Hrun & Hrev)%is_current_spec.
  destruct p as [id run act]. cbn [pl_id pl_run pl_action] in *. unfold commit in H. rewrite Ecur in H. cbn [negb] in H.
  destruct act as [| |spec deadline|res trigger next final vs deadline]; try done.
  - injection H as <-. unfold is_current. cbn. by rewrite lookup_alter_eq, Hr.
  - destruct P as [[=]|(_ & _ & P3 & d & _ & Hlaw & _)]. cbn [pl_id pl_run] in Hlaw, P3.
    destruct (P3 _ Hr) as (_ & _ & _ & L4 & _). specialize (L4 Hrev).
    apply commit_move_Ok in H as (s1 & s2 & t & He & _ & _ & _ & _ & -> & Hs'); [|congruence].
    assert (Hr1 : runs s1 !! id = Some r).
    { destruct He as [[_ ->]|(f & Hf & He)]; [done|]. destruct (Hlaw _ _ _ _ _ Hf He Hr L4) as (s0 & R & Heq). cbn [fst] in R.
      destruct (sup_steps_ok _ _ _ I R) as (_ & _ & K). destruct Heq as (_ & -> & _). by rewrite K. }
    pose proof (move_tables_current now id t next final vs deadline run s1 r Hr1 Hrev) as Hc.
    destruct Hs' as [->|Hs']; [done|].
    assert (Hq : exists q, runs (move_tables now id t next final vs deadline s1) !! id = Some q).
    { unfold move_tables. destruct final; cbn; rewrite ?lookup_alter_eq, Hr1; eauto. }
    destruct Hq as (q & Hq). rewrite (enqueue_empty_Ok _ _ _ Hq) in Hs'. injection Hs' as <-. exact Hc.
Qed.

(** C30: delivering work more than once is the same as delivering it once: committing the
    same plan again changes nothing, whenever that happens, and a transition or an
    ending that was committed is never applied again in any later state. *)
Theorem commit_once now now' p s s1 :
  Inv s -> plan_ok s p -> commit now p s = Ok s1 ->
  commit now' p s1 = Ok s1 /\
  (match pl_action p with AddTask _ _ => False | _ => True end ->
     forall s2, later s1 s2 -> commit now' p s2 = Ok s2).
Proof.
  intros I P H. pose proof (commit_current _ _ _ _ I P H) as Hc.
  destruct (commit_ok _ _ _ _ I P H) as [I1 L1].
  assert (Hlate : match pl_action p with Finish | Move _ _ _ _ _ _ => True | _ => False end ->
    forall s2, later s1 s2 -> commit now' p s2 = Ok s2).
  { intros Hact s2 L2. apply commit_stale.
    destruct (plan_ok_later _ _ _ P L1) as [Hs|(P1 & _ & P3 & _)]; [by rewrite Hs in Hact|].
    eapply is_current_later; [exact P1| | |exact L2].
    - intros r Hr. destruct (P3 _ Hr) as (_ & _ & L & _). exact L.
    - by destruct (pl_action p). }
  split.
  - destruct (pl_action p) as [| |spec deadline|res trigger next final vs deadline] eqn:Ea.
    + destruct p as [id run act]. cbn in Ea. by subst act.
    + apply Hlate; [done|apply later_refl].
    + destruct p as [id run act]. cbn in Ea. subst act. unfold commit in *.
      destruct (is_current id run s) eqn:Ecur; cbn [negb] in H; [|injection H as <-; by rewrite Ecur].
      apply bind_Ok in H as ([created s0] & Hi & H). injection H as <-.
      destruct (negb (is_current id run _)); [done|].
      assert (Hex : exists_row (fun _ t => task_of_entry id run t) (tasks s0) = true).
      { unfold insertTask in Hi. destruct (exists_row (fun _ t => task_of_entry id run t) (tasks s)) eqn:Ex.
        - by injection Hi as _ <-.
        - guards_in Hi. injection Hi as _ <-. cbn [snd add_task tasks]. apply exists_row_spec.
          eexists _, _. split; [apply lookup_insert_eq|]. unfold task_of_entry. cbn.
          by rewrite !Z.eqb_refl, bool_decide_true. }
      unfold insertTask. replace (tasks (if created then _ else s0)) with (tasks s0) by (by destruct created).
      by rewrite Hex.
    + apply Hlate; [done|apply later_refl].
  - intros Hact. destruct (pl_action p) eqn:Ea; try done; try by apply Hlate.
    intros s2 _. destruct p as [id run act]. cbn in Ea. by subst act.
Qed.

(** * Decisions *)

(** C29: what a decision needs and what it leaves: the actor is an enabled account (or the
    system itself) with a live session or token, the write scope and entry to the run's
    system, is an administrator or the task's assignee, and chose a listed choice; the
    task was open at the current entry of a running run whose document is live. The
    task is then resolved in the actor's name, the revision has moved and the deadline
    is gone, the advance is queued for that revision, and the task cannot be decided
    again. *)
Theorem ResolveInTx_spec check now task choice actor s s' :
  Inv s -> ResolveInTx check now task choice actor s = Ok s' -> choice <> "" ->
  exists t r a, tasks s !! task = Some t /\ runs s !! RunID t = Some r /\
    currentActor now s actor (SystemID r) = Ok (Some a) /\
    (p_Role a = "admin" \/ actorMatchesAssignee a (t_Assignee t) = true) /\ In choice (t_Choices t) /\
    (p_UserID a = 0 /\ p_Kind a = "system" \/
     CanEnter (dir s) (p_UserID a) (SystemID r) = true /\ HasScope (Some a) ScopeDocumentsWrite = true) /\
    is_open t = true /\ Status r = Running /\ StateKey t = CurrentState r /\ StateRevision t = revision r /\
    (forall doc, DocID r = Some doc -> exists d, documents s !! doc = Some d /\ doc_trashed d = false) /\
    tasks s' !! task = Some (resolved now choice (principalTag a) (resolution_proof a) t) /\
    runs s' !! RunID t = Some (bumped r) /\
    outbox s' = outbox s ++ [AdvanceJob (SystemID r) (RunID t) choice (revision r + 1)] /\
    forall now2 choice2 actor2, is_ok (ResolveInTx check now2 task choice2 actor2 s') = false.
Proof.
  intros I H Hne. destruct (ResolveInTx_Ok _ _ _ _ _ _ _ I H) as (t & r & a & Ht & Hr & Ha & Ho & Hin & Hauth & He & _ & Hs).
  rewrite (enqueue_trigger_Ok (RunID t) choice _ r) in Hs by done. injection Hs as <-.
  destruct (ensure_actionable _ _ _ _ Ht Hr He) as (Hrun & Hkey & Hrev).
  exists t, r, a. split_and!; try done.
  - unfold currentActor in Ha. destruct actor as [b|]; [|done].
    destruct ((p_UserID b =? 0) && bool_decide (p_Kind b = "system")) eqn:Esys.
    + injection Ha as ->. bool_simpl. by left.
    + right. guards_in Ha. apply bind_Ok in Ha as ([bound cur] & Htok & Ha). guards_in Ha. injection Ha as ->.
      assert (Hid : p_UserID a = p_UserID b).
      { unfold token_current in Htok. guards_in Htok; injection Htok as <- <-; done. }
      rewrite Hid. bool_simpl. done.
  - intros doc Hdoc. unfold ensureTaskRunActionable in He. rewrite Ht, Hr, Hdoc in He. bool_simpl.
    destruct (documents s !! doc) as [dd|]; [|done]. exists dd. bool_simpl. done.
  - cbn. by rewrite lookup_insert_eq.
  - cbn. by rewrite lookup_alter_eq, Hr.
  - intros now2 choice2 actor2. destruct (resolve_any_ok _ _ _ _ _ _ _ I H) as [I' _].
    destruct (ResolveInTx check now2 task choice2 actor2 _) as [s2|e] eqn:E; [|done]. exfalso.
    destruct (ResolveInTx_Ok _ _ _ _ _ _ _ I' E) as (t' & _ & _ & Ht' & _ & _ & Ho' & _).
    cbn in Ht'. rewrite lookup_insert_eq in Ht'. injection Ht' as <-. done.
Qed.

Section Registry.
Context (reg : registry W) (resolver : string -> result approval_error (list Z)).

(** Planning a delivered event in an approve state. *)
Lemma plan_event now id trigger s r d st :
  runs s !! id = Some r -> Status r = Running -> defs s !! DefID r = Some d ->
  States (df_spec d) !! CurrentState r = Some st -> Kind st = "approve" ->
  reg !! "approve" = Some approveHandler -> trigger <> "" ->
  plan_advance reg resolver now id trigger (SystemID r) (Some (revision r)) s =
  match On st !! trigger with
  | None => Err ErrBadTransition
  | Some next =>
      match States (df_spec d) !! next with
      | None => Err ErrBadTransition
      | Some nst => Ok (MkPlan id r (Move (emit trigger) trigger next (bool_decide (Kind nst = "end"))
                          (mergeVars (Vars r) ∅) (deadline_after now (TimeoutSec nst))))
      end
  end.
Proof.
  intros Hr Hrun Hd Hst Hk Hreg Ht. unfold plan_advance, loadRun. rewrite Hr. cbn [mbind result_bind].
  rewrite Z.eqb_refl, andb_false_r, Z.eqb_refl, (bool_decide_true _ Hrun). cbn [negb].
  unfold defByID. rewrite Hd. cbn [mbind result_bind]. rewrite Hst. unfold plan_state. rewrite Hk.
  rewrite (bool_decide_false ("approve" = "end")) by done.
  unfold registry, Handler in *. rewrite Hreg. unfold approveHandler.
  rewrite (bool_decide_false _ Ht). cbn [negb mbind result_bind res_Task emit Event].
  rewrite (bool_decide_false _ Ht). reflexivity.
Qed.

(** C28: a decision takes effect: after a resolution in an approve state, the advance it
    queued moves the run along the chosen transition, in one step, to the state the
    definition names, ends the run exactly when that state is terminal, and leaves no
    open task behind. *)
Theorem resolution_advances check now now2 task choice actor s s' t r d st next :
  Inv s -> ResolveInTx check now task choice actor s = Ok s' ->
  tasks s !! task = Some t -> runs s !! RunID t = Some r -> defs s !! DefID r = Some d ->
  States (df_spec d) !! CurrentState r = Some st -> Kind st = "approve" ->
  reg !! "approve" = Some approveHandler -> On st !! choice = Some next ->
  exists nst s'' r'', States (df_spec d) !! next = Some nst /\
    last (outbox s') = Some (AdvanceJob (SystemID r) (RunID t) choice (revision r + 1)) /\
    advance reg resolver now2 (RunID t) choice (SystemID r) (Some (revision r + 1)) s' = Ok s'' /\
    runs s'' !! RunID t = Some r'' /\ CurrentState r'' = next /\ revision r'' = revision r + 2 /\
    (Status r'' = Done <-> Kind nst = "end") /\
    forall j u, tasks s'' !! j = Some u -> RunID u = RunID t -> is_open u = false.
Proof.
  intros I H Ht Hr Hd Hst Hk Hreg Hon.
  destruct (wf_targets _ _ _ (wf_states _ (inv_def _ I _ _ Hd) _ _ Hst) _ _ Hon) as [Hne [nst Hn]].
  destruct (ResolveInTx_ok _ _ _ _ _ _ _ I H Hne) as (t0 & r0 & a & Ht0 & Hr0 & -> & Hrun & Ho).
  rewrite Ht in Ht0. injection Ht0 as <-. rewrite Hr in Hr0. injection Hr0 as <-.
  destruct (resolve_item_ok task now choice a t r s I Ht Hr Ho Hrun) as [I' _].
  set (s' := resolve_item task now choice a t r s) in *.
  assert (Hr' : runs s' !! RunID t = Some (bumped r)) by (cbn; by rewrite lookup_alter_eq, Hr).
  pose proof (plan_event now2 (RunID t) choice s' (bumped r) d st Hr' Hrun Hd Hst Hk Hreg Hne) as Hp.
  rewrite Hon, Hn in Hp. change (revision (bumped r)) with (revision r + 1) in Hp.
  change (SystemID (bumped r)) with (SystemID r) in Hp.
  set (final := bool_decide (Kind nst = "end")) in *. set (dl := deadline_after now2 (TimeoutSec nst)) in *.
  set (vs := mergeVars (Vars (bumped r)) ∅) in *.
  set (tr := MkTransition (RunID t) (CurrentState (bumped r)) next choice
    (resolvedActor s' (RunID t) (CurrentState (bumped r)) choice) (reload <$> ∅) now2).
  destruct (move_ok now2 (RunID t) tr next final vs dl (bumped r) s' d st nst) as (I2 & _ & Hr2);
    [done..|].
  set (s2 := move_tables now2 (RunID t) tr next final vs dl s') in *.
  assert (Hopen : forall j u, tasks s2 !! j = Some u -> RunID u = RunID t -> is_open u = false).
  { intros j u Hj Hu. unfold s2, move_tables in Hj.
    assert (Hj' : expire_of (RunID t) j <$> tasks s' !! j = Some u).
    { rewrite <- Hj. destruct final; cbn; by rewrite lookup_fmap. }
    destruct (tasks s' !! j) as [u0|]; [|done]. injection Hj' as <-. apply expire_of_open.
    by destruct (closes_expire (RunID t) j u0) as (<- & _). }
  assert (Hadv : exists s'', advance reg resolver now2 (RunID t) choice (SystemID r) (Some (revision r + 1)) s' = Ok s'' /\
    tables_eq s2 s'').
  { unfold advance. rewrite Hp. cbn [mbind result_bind]. unfold commit.
    assert (Hc : is_current (RunID t) (bumped r) s' = true) by (apply is_current_spec; eauto). rewrite Hc. cbn [negb].
    unfold commit_move. cbn [Effect emit mbind result_bind Event res_Vars].
    destruct final eqn:Ef.
    - eexists. split; [reflexivity|]. by split_and!.
    - assert (Hq : runs (updateRunState now2 (RunID t) next vs dl (expireOpenTasksForRun (RunID t)
          (insertTransition now2 (RunID t) (CurrentState (bumped r)) next choice
            (resolvedActor s' (RunID t) (CurrentState (bumped r)) choice) ∅ s'))) !! RunID t
          = Some (move_run now2 next false vs dl (bumped r))) by exact Hr2.
      rewrite (enqueue_empty_Ok _ _ _ Hq). eexists. split; [reflexivity|]. by split_and!. }
  destruct Hadv as (s'' & Hadv & (_ & E2 & E3 & _)).
  exists nst, s'', (move_run now2 next final vs dl (bumped r)). split_and!.
  - done.
  - cbn. by rewrite last_snoc.
  - exact Hadv.
  - by rewrite E2.
  - unfold move_run. by destruct final.
  - unfold move_run. destruct final; cbn; lia.
  - unfold move_run, final. destruct (bool_decide (Kind nst = "end")) eqn:E; bool_simpl; cbn; [done|].
    rewrite Hrun. split; [done|by intros]. 
  - rewrite E3. exact Hopen.
Qed.

(** ** The sweep, run by run *)
Definition same_entry s s' : Prop :=
  defs s' = defs s /\
  forall j u, tasks s' !! j = Some u -> exists t, tasks s !! j = Some t /\ RunID t = RunID u /\ StateRevision t = StateRevision u.

Lemma same_entry_trans s1 s2 s3 : same_entry s1 s2 -> same_entry s2 s3 -> same_entry s1 s3.
Proof.
  intros [D1 T1] [D2 T2]. split; [congruence|]. intros j u Hu.
  destruct (T2 _ _ Hu) as (t & Ht & E1 & E2). destruct (T1 _ _ Ht) as (t0 & Ht0 & E3 & E4).
  exists t0. split_and!; congruence.
Qed.

Lemma same_entry_expire id s s' :
  defs s' = defs s -> (forall j, tasks s' !! j = expire_of id j <$> tasks s !! j) -> same_entry s s'.
Proof.
  intros Hd Ht. split; [done|]. intros j u Hu. rewrite Ht in Hu. destruct (tasks s !! j) as [t|]; [|done].
  injection Hu as <-. exists t. by destruct (closes_expire id j t) as (-> & _ & -> & _).
Qed.

Lemma sweep_loop_spec due s s' :
  NoDup due -> (forall id, id ∈ due -> is_Some (runs s !! id)) -> sweep_loop due s = Ok s' ->
  (forall id, id ∉ due -> runs s' !! id = runs s !! id) /\
  (forall id r, id ∈ due -> runs s !! id = Some r ->
     runs s' !! id = Some (bumped r) /\ AdvanceJob (SystemID r) id "timeout" (revision r + 1) ∈ outbox s') /\
  (forall j, j ∈ outbox s -> j ∈ outbox s') /\ same_entry s s'.
Proof.
  revert s. induction due as [|id due IH]; intros s Hnd Hex H; cbn [sweep_loop] in H.
  - injection H as <-. split; [done|]. split; [by intros i r ?%not_elem_of_nil|]. split; [done|].
    split; [done|]. intros j u Hu. eauto.
  - apply NoDup_cons in Hnd as [Hni Hnd]. destruct (Hex id) as [r Hr]; [apply list_elem_of_here|].
    rewrite (enqueue_trigger_Ok id "timeout" (expireOpenTasksForRun id s) r) in H by done.
    change (sweep_loop due (due_item id r s) = Ok s') in H.
    assert (Hne : forall i, i <> id -> runs (due_item id r s) !! i = runs s !! i).
    { intros i Hi. cbn. by rewrite lookup_alter_ne. }
    destruct (IH (due_item id r s) Hnd) as (A & B & C & D); [|done|].
    { intros i Hi. rewrite Hne by (intros ->; done). apply Hex. by apply list_elem_of_further. }
    split_and!.
    + intros i [Hi1 Hi2]%not_elem_of_cons. rewrite A by done. by apply Hne.
    + intros i q [->|Hi]%elem_of_cons Hq.
      * rewrite Hr in Hq. injection Hq as <-. rewrite (A id Hni). cbn. rewrite lookup_alter_eq, Hr. split; [done|].
        apply C. cbn. apply elem_of_app. right. apply list_elem_of_here.
      * apply B; [done|]. rewrite Hne by (intros ->; done). done.
    + intros j Hj. apply C. cbn. apply elem_of_app. by left.
    + eapply same_entry_trans; [|exact D]. apply (same_entry_expire id); [done|].
      intros j. cbn. by rewrite lookup_fmap.
Qed.

Lemma reconcile_loop_keeps check now l s s' :
  reconcile_loop check now l s = Ok s' ->
  (forall id, (forall r, (id, r) ∉ l) -> runs s' !! id = runs s !! id) /\ same_entry s s'.
Proof.
  revert s. induction l as [|[i q] l IH]; intros s H; cbn [reconcile_loop] in H.
  - injection H as <-. split; [done|]. split; [done|]. intros j u Hu. eauto.
  - destruct (stale_review check s q) as [stale|]; [|done]. destruct (IH _ H) as [A B].
    assert (Hs : (forall id, id <> i -> runs (if stale then supersede now i s else s) !! id = runs s !! id) /\
      same_entry s (if stale then supersede now i s else s)).
    { assert (Hsame : same_entry s s) by (split; [done|intros j u Hu; eauto]).
      destruct stale; [|done]. unfold supersede. destruct (runs s !! i) as [r|] eqn:Er; [|done]. split.
      - intros id Hne. cbn. by rewrite lookup_alter_ne.
      - apply (same_entry_expire i); [done|]. intros j. cbn. by rewrite lookup_fmap. }
    destruct Hs as [K1 K2]. split; [|by eapply same_entry_trans].
    intros id Hid. rewrite A by (intros r Hr; apply (Hid r); by apply list_elem_of_further).
    apply K1. intros ->. apply (Hid q). apply list_elem_of_here.
Qed.

(** What a timeout does to an approval without a "timeout" transition, which
    validation accepts: the sweep closes its task and clears its deadline, the advance
    it queues fails each time it is delivered, no task of the run can be decided any
    more, and no later sweep picks the run up: it stays running with nothing to wait
    for. *)
Theorem timeout_without_transition check now s s' id r dl d st :
  Inv s -> sweep_tx check now s = Ok s' ->
  runs s !! id = Some r -> Status r = Running -> DeadlineAt r = Some dl -> dl <= now ->
  defs s !! DefID r = Some d -> df_slug d <> DocumentChangeSlug ->
  States (df_spec d) !! CurrentState r = Some st -> Kind st = "approve" -> On st !! "timeout" = None ->
  reg !! "approve" = Some approveHandler ->
  runs s' !! id = Some (bumped r) /\ Status (bumped r) = Running /\
  AdvanceJob (SystemID r) id "timeout" (revision r + 1) ∈ outbox s' /\
  (forall j u, tasks s' !! j = Some u -> RunID u = id -> is_open u = false) /\
  (forall now2, advance reg resolver now2 id "timeout" (SystemID r) (Some (revision r + 1)) s' = Err ErrBadTransition) /\
  (forall now2 j u choice actor, tasks s' !! j = Some u -> RunID u = id ->
     is_ok (ResolveInTx check now2 j choice actor s') = false) /\
  forall now2, id ∉ due_runs now2 s'.
Proof.
  intros I H Hr Hrun Hdl Hle Hd Hslug Hst Hk Hnone Hreg.
  destruct (sweep_tx_ok _ _ _ _ I H) as [I' _].
  apply bind_Ok in H as (s1 & H1 & H). unfold reconcileDocumentChangesInTx in H1.
  destruct (reconcile_loop_keeps _ _ _ _ _ H1) as [K1 [D1 T1]].
  assert (Hr1 : runs s1 !! id = Some r).
  { rewrite K1; [done|]. intros q Hq. apply list_elem_of_filter in Hq as [Hf Hq]. apply elem_of_map_to_list in Hq.
    rewrite Hr in Hq. injection Hq as <-. cbn in Hf. unfold in_review in Hf. bool_simpl.
    rewrite Hd in *. cbn in *. congruence. }
  assert (Hdue : id ∈ due_runs now s1).
  { unfold due_runs. apply list_elem_of_fmap. exists (id, r). split; [done|]. apply list_elem_of_filter.
    cbn. rewrite (bool_decide_true _ Hrun), Hdl. cbn. split; [by apply Z.leb_le|]. by apply elem_of_map_to_list. }
  destruct (sweep_loop_spec _ _ _ (due_runs_NoDup now s1) ltac:(intros i Hi;
    destruct (due_runs_running _ _ _ Hi) as (q & -> & _); eauto) H) as (_ & B & _ & D2).
  destruct (B id r Hdue Hr1) as [Hr' Hjob]. destruct (same_entry_trans s s1 s' (conj D1 T1) D2) as [Hdefs Hentry].
  assert (Hclosed : forall j u, tasks s' !! j = Some u -> RunID u = id -> is_open u = false).
  { intros j u Hj Hu. destruct (is_open u) eqn:Eo; [|done]. exfalso.
    destruct (inv_task _ I' _ _ Hj) as [_ (q & Hq & _ & _ & T)]. rewrite Hu, Hr' in Hq. injection Hq as <-.
    destruct (T Eo) as [_ Erev]. destruct (Hentry _ _ Hj) as (t & Ht & E1 & E2).
    destruct (inv_task _ I _ _ Ht) as [_ (q & Hq & Hle2 & _)]. rewrite E1, Hu, Hr in Hq. injection Hq as <-.
    cbn in Erev. lia. }
  split_and!; try done.
  - intros now2. unfold advance. rewrite <- Hdefs in Hd.
    pose proof (plan_event now2 id "timeout" s' (bumped r) d st Hr' Hrun Hd Hst Hk Hreg ltac:(done)) as Hp.
    rewrite Hnone in Hp. change (revision (bumped r)) with (revision r + 1) in Hp.
    change (SystemID (bumped r)) with (SystemID r) in Hp. by rewrite Hp.
  - intros now2 j u choice actor Hj Hu. destruct (ResolveInTx check now2 j choice actor s') as [s2|e] eqn:E; [|done].
    exfalso. destruct (ResolveInTx_Ok _ _ _ _ _ _ _ I' E) as (t' & _ & _ & Ht' & _ & _ & Ho & _).
    rewrite Hj in Ht'. injection Ht' as <-. by rewrite (Hclosed _ _ Hj Hu) in Ho.
  - intros now2 Hin. apply due_runs_running in Hin as (q & Hq & _ & dl2 & Hdl2 & _).
    rewrite Hr' in Hq. injection Hq as <-. discriminate Hdl2.
Qed.
End Registry.

(** * Definitions *)

(** Registering a definition makes it the one that [Start] uses for its slug and
    system, at a version above every earlier one, and leaves every other definition's
    specification, so running runs, as they were. *)
Theorem RegisterInTx_active registered now sys spec slug actor s id s' :
  Inv s -> RegisterInTx registered now sys spec slug actor s = Ok (id, s') ->
  (exists d, activeDefBySlug s' sys slug = Ok (id, d) /\ df_spec d = spec /\
     forall i e, defs s !! i = Some e -> df_system e = sys -> df_slug e = slug -> df_version e < df_version d) /\
  (forall i e, defs s !! i = Some e -> exists d, defs s' !! i = Some d /\ df_spec d = df_spec e) /\
  runs s' = runs s.
Proof.
  intros I H. apply RegisterInTx_Ok in H as (Hw & b & H). destruct (insertDef_ok _ _ _ _ _ _ _ _ I Hw H) as [I' [_ L2 _]].
  split; [|split].
  - assert (Hnew : exists d, defs s' !! id = Some d).
    { unfold insertDef in H. cbn zeta in H. guards_in H. injection H as <- <-. cbn [with_defs defs].
      rewrite lookup_insert_eq. eauto. }
    destruct Hnew as (d & Hd).
    destruct (insertDef_lookup _ _ _ _ _ _ _ _ _ _ H Hd) as [(_ & Hsys & Hslug & Hspec & Hact & Hv & _)|(Hne & _)]; [|done].
    assert (Hin : (id, d) ∈ filter (fun x => same_slug sys slug x.2 && df_active x.2 = true) (map_to_list (defs s'))).
    { apply list_elem_of_filter. cbn. rewrite Hact, (proj2 (same_slug_spec sys slug d)) by done.
      split; [done|]. by apply elem_of_map_to_list. }
    destruct (activeDefBySlug s' sys slug) as [[i e]|err] eqn:E.
    + exists d. destruct (activeDefBySlug_Ok _ _ _ _ _ E) as (He & Hse & Hae). apply same_slug_spec in Hse as [S1 S2].
      assert (i = id) as -> by (apply (inv_active _ I' i id e d); congruence).
      rewrite He in Hd. injection Hd as ->. split; [done|]. split; [done|].
      intros i f Hf Hs1 Hs2. rewrite Hv. eapply next_version_above; [exact Hf|by apply same_slug_spec].
    + exfalso. unfold activeDefBySlug in E. destruct (filter _ _); [by apply not_elem_of_nil in Hin|done].
  - intros i e He. destruct (L2 _ _ He) as (d & Hd & Hs & _). eauto.
  - unfold insertDef in H. cbn zeta in H. guards_in H. by injection H as _ <-.
Qed.
End Props.

(** * Witnesses *)

(** The built-in registry is lawful when the document-change handler is. *)
Lemma New_lawful {W} (h : Handler W) :
  (forall run st trigger res, h run st trigger = Ok res -> effect_law run res) -> LawfulRegistry (New h).
Proof.
  intros Hh kind g run st trigger res Hg Hres.
  assert (Hnone : Effect res = None -> effect_law run res).
  { intros E f now s s' Hf. congruence. }
  unfold New, RegisterHandler, registry, Handler in *.
  apply lookup_insert_Some in Hg as [[_ <-]|[_ Hg]]; [apply Hnone; by injection Hres as <-|].
  apply lookup_insert_Some in Hg as [[_ <-]|[_ Hg]]; [by apply (Hh run st trigger)|].
  apply lookup_insert_Some in Hg as [[_ <-]|[_ Hg]].
  { apply Hnone. unfold approveHandler in Hres. cbn zeta in Hres. guards_in Hres; injection Hres as <-; done. }
  apply lookup_insert_Some in Hg as [[_ <-]|[_ Hg]]; [|by rewrite lookup_empty in Hg].
  apply Hnone. unfold systemHandler in Hres. guards_in Hres; injection Hres as <-; done.
Qed.

Definition spec0 : Spec :=
  MkSpec "review" {["review" := MkState "approve" "user:2" "Sign?" ["yes"] 60 {["yes" := "end"]} ∅;
                    "end" := MkState "end" "" "" [] 0 ∅ ∅]}.
Definition def0 : def := MkDef 1 "sign" 1 spec0 true 0 None.
Definition run0 : Run := MkRun 1 1 None Running "review" ∅ (Some 100) 40 None 40 None 0.
Definition task0 : Task := MkTask 1 "review" 0 "user:2" "Sign?" ["yes"] Open (Some 100) None None None 40 None.
Definition users0 : gmap Z user := {[1 := User "root@x" "admin" false; 2 := User "ann@x" "member" false]}.
Definition store0 : store unit :=
  Store (Directory users0 {[1 := original]} {[(1, 2)]}) {["s1" := Session 2 1000; "s2" := Session 1 1000]} ∅ ∅
    {[1 := def0]} {[1 := run0]} {[1 := task0]} [] [] [] 1 1 tt.
Definition ann : Principal := MkPrincipal "user" 2 0 0 "" "" "" "member" [] "local-auth" "s1" 0.
Definition root : Principal := MkPrincipal "user" 1 0 0 "" "" "" "admin" [] "local-auth" "s2" 0.
Definition check0 (_ : store unit) (_ : Z) (_ : vars) (_ : option Principal) : result approval_error unit := Ok tt.
Definition dch0 : Handler unit := fun _ _ _ => Ok (emit "success").
Definition reg0 : registry unit := New dch0.

Lemma is_ok_inv {E A} (r : result E A) : is_ok r = true -> exists a, r = Ok a.
Proof. destruct r; [eauto|discriminate]. Qed.

Lemma reg0_lawful : LawfulRegistry reg0.
Proof. apply New_lawful. intros run st trigger res [= <-] f now s s' r Hf. discriminate Hf. Qed.

Lemma spec0_wf : spec_wf spec0.
Proof. apply Validate_sound. vm_compute. reflexivity. Qed.

Lemma store0_Inv : Inv store0.
Proof.
  split; unfold store0; cbn [defs runs tasks transitions].
  - intros id d H. apply lookup_singleton_Some in H as [_ <-]. apply spec0_wf.
  - intros i j d e Hi Hj _ _ _ _. apply lookup_singleton_Some in Hi as [<- _].
    by apply lookup_singleton_Some in Hj as [<- _].
  - intros id r H. apply lookup_singleton_Some in H as [<- <-]. split; cbn; [lia|lia|done|].
    exists def0. split; [reflexivity|]. split; [reflexivity|]. split; [eexists; reflexivity|]. constructor.
  - intros id t H. apply lookup_singleton_Some in H as [<- <-]. split; cbn; [lia|]. exists run0.
    split; [reflexivity|]. split; [cbn; lia|]. done.
  - intros i j t u Hi Hj _ _. apply lookup_singleton_Some in Hi as [<- _].
    by apply lookup_singleton_Some in Hj as [<- _].
  - intros t H. by apply not_elem_of_nil in H.
Qed.


Lemma commit_once_witness :
  exists p s1, plan_advance reg0 userOnlyResolver 50 1 "yes" 1 (Some 0) store0 = Ok p /\
    commit 60 p store0 = Ok s1 /\ commit 70 p s1 = Ok s1.
Proof.
  destruct (is_ok_inv (plan_advance reg0 userOnlyResolver 50 1 "yes" 1 (Some 0) store0 ≫= (fun p =>
    commit 60 p store0))) as [s1 E]; [vm_compute; reflexivity|].
  apply bind_Ok in E as (p & Ep & E). exists p, s1. split; [exact Ep|]. split; [exact E|].
  refine (proj1 (commit_once 60 70 p store0 s1 store0_Inv _ E)).
  exact (@plan_advance_ok unit reg0 userOnlyResolver reg0_lawful 50 1 "yes" 1 (Some 0) store0 p store0_Inv Ep).
Defined.

Lemma ResolveInTx_spec_witness :
  exists s', ResolveInTx check0 50 1 "yes" (Some ann) store0 = Ok s' /\
    is_ok (ResolveInTx check0 51 1 "yes" (Some root) s') = false.
Proof.
  destruct (is_ok_inv (ResolveInTx check0 50 1 "yes" (Some ann) store0)) as [s' E]; [vm_compute; reflexivity|].
  exists s'. split; [exact E|].
  destruct (ResolveInTx_spec check0 50 1 "yes" (Some ann) store0 s' store0_Inv E) as (t & r & a & H); [discriminate|].
  decompose [and] H. auto.
Defined.

Lemma resolution_advances_witness :
  exists s' s'', ResolveInTx check0 50 1 "yes" (Some ann) store0 = Ok s' /\
    advance reg0 userOnlyResolver 51 1 "yes" 1 (Some 1) s' = Ok s''.
Proof.
  destruct (is_ok_inv (ResolveInTx check0 50 1 "yes" (Some ann) store0)) as [s' E]; [vm_compute; reflexivity|].
  exists s'.
  destruct (resolution_advances reg0 userOnlyResolver check0 50 51 1 "yes" (Some ann) store0 s' task0 run0 def0
    (MkState "approve" "user:2" "Sign?" ["yes"] 60 {["yes" := "end"]} ∅) "end" store0_Inv E) as (n & s'' & r'' & _ & _ & H & _);
    try reflexivity.
  exists s''. split; [exact E|exact H].
Defined.

Lemma timeout_without_transition_witness :
  Validate spec0 = None /\
  exists s', sweep_tx check0 200 store0 = Ok s' /\
    advance reg0 userOnlyResolver 201 1 "timeout" 1 (Some 1) s' = Err ErrBadTransition.
Proof.
  split; [vm_compute; reflexivity|].
  destruct (is_ok_inv (sweep_tx check0 200 store0)) as [s' E]; [vm_compute; reflexivity|].
  exists s'. split; [exact E|].
  destruct (timeout_without_transition reg0 userOnlyResolver check0 200 store0 s' 1 run0 100 def0
    (MkState "approve" "user:2" "Sign?" ["yes"] 60 {["yes" := "end"]} ∅) store0_Inv E) as (_ & _ & _ & _ & H & _);
    try reflexivity.
  - lia.
  - discriminate.
  - exact (H 201).
Defined.

Lemma RegisterInTx_active_witness :
  exists id s', RegisterInTx (fun _ => true) 50 1 spec0 "sign" (Some root) store0 = Ok (id, s') /\
    (fst <$> activeDefBySlug s' 1 "sign") = Ok id.
Proof.
  destruct (is_ok_inv (RegisterInTx (fun _ => true) 50 1 spec0 "sign" (Some root) store0)) as [[id s'] E];
    [vm_compute; reflexivity|].
  exists id, s'. split; [exact E|].
  destruct (RegisterInTx_active (fun _ => true) 50 1 spec0 "sign" (Some root) store0 id s' store0_Inv E) as ((d & Hd & _) & _).
  rewrite Hd. reflexivity.
Defined.
