(* ===== verification/Glob.v ===== *)
(** Shell patterns of Go's [path/filepath] ([Match] on Unix), which the trigger filters use,
    and [strings.NewReplacer]'s single pass.  Both belong to the standard library; the file
    holds what [Automation] evaluates. *)
From S2P Require Import Prelude GoStd Utf8.

(** * [filepath.Match] *)

(** [filepath.ErrBadPattern] is the only error. *)
Abbreviation pattern_result := (result unit).

(** One element of a character class. *)
Definition getEsc (chunk : string) : pattern_result (Z * string) :=
  let read chunk :=
    let (r, n) := decode_rune chunk in
    fail_if (r =? RuneError) && (n =? 1)%nat with tt in
    let rest := sdrop n chunk in
    fail_if bool_decide (rest = "") with tt in Ok (r, rest) in
  match chunk with
  | "" => Err tt
  | String c chunk' =>
      fail_if bool_decide (c = "-"%char) || bool_decide (c = "]"%char) with tt in
      if bool_decide (c = "\"%char) then if bool_decide (chunk' = "") then Err tt else read chunk' else read chunk
  end.

(** The ranges up to the closing bracket; every round reads a rune, so the length of the
    chunk is fuel enough. *)
Fixpoint class_loop (fuel : nat) (r : Z) (any found : bool) (chunk : string) : pattern_result (bool * string) :=
  match fuel with
  | O => Err tt
  | S fuel =>
      match chunk, any with
      | String "]" chunk', true => Ok (found, chunk')
      | _, _ =>
          '(lo, chunk) ← getEsc chunk;
          '(hi, chunk) ← match chunk with String "-" chunk' => getEsc chunk' | _ => Ok (lo, chunk) end;
          class_loop fuel r true (found || ((lo <=? r) && (r <=? hi))) chunk
      end
  end.

(** What is left of the name after a chunk without stars; [None] once the match failed, the
    rest of the chunk is then only checked. *)
Fixpoint chunk_loop (fuel : nat) (chunk : string) (s : option string) : pattern_result (option string) :=
  match fuel with
  | O => if bool_decide (chunk = "") then Ok s else Err tt
  | S fuel =>
      match chunk with
      | "" => Ok s
      | String c chunk' =>
          let s := match s with Some "" => None | _ => s end in
          let literal d chunk'' :=
            chunk_loop fuel chunk'' match s with
              | Some (String x s') => if bool_decide (x = d) then Some s' else None | _ => None end in
          match c with
          | "["%char =>
              let '(r, s) := match s with
                             | Some s' => let (r, n) := decode_rune s' in (r, Some (sdrop n s')) | None => (0, None) end in
              let '(negated, chunk') := match chunk' with String "^" c' => (true, c') | _ => (false, chunk') end in
              '(found, chunk') ← class_loop (S (String.length chunk')) r false false chunk';
              chunk_loop fuel chunk' (if Bool.eqb found negated then None else s)
          | "?"%char =>
              chunk_loop fuel chunk' match s with
                | Some (String x _ as s') =>
                    if bool_decide (x = "/"%char) then None else let (_, n) := decode_rune s' in Some (sdrop n s')
                | _ => None end
          | "\"%char => match chunk' with "" => Err tt | String d chunk'' => literal d chunk'' end
          | _ => literal c chunk'
          end
      end
  end.
Definition matchChunk (chunk s : string) : pattern_result (option string) :=
  chunk_loop (String.length chunk) chunk (Some s).

(** Leading stars, then the text up to the next star outside a class. *)
Fixpoint drop_stars (pattern : string) : bool * string :=
  match pattern with String "*" p => (true, (drop_stars p).2) | _ => (false, pattern) end.
Fixpoint chunk_end (inrange escaped : bool) (i : nat) (p : string) : nat :=
  match p with
  | "" => i
  | String c p =>
      if escaped then chunk_end inrange false (S i) p
      else match c with
           | "\"%char => chunk_end inrange true (S i) p
           | "["%char => chunk_end true false (S i) p
           | "]"%char => chunk_end false false (S i) p
           | "*"%char => if inrange then chunk_end inrange false (S i) p else i
           | _ => chunk_end inrange false (S i) p
           end
  end.
Definition scanChunk (pattern : string) : bool * string * string :=
  let (star, p) := drop_stars pattern in
  let i := chunk_end false false 0 p in (star, stake i p, sdrop i p).

(** After a star: the first suffix, past no slash, on which the chunk matches — to the end of
    the name when it is the last. *)
Fixpoint skip_loop (last : bool) (chunk name : string) : pattern_result (option string) :=
  match name with
  | "" => Ok None
  | String c name' =>
      if bool_decide (c = "/"%char) then Ok None
      else t ← matchChunk chunk name';
           match t with
           | Some t => if last && negb (bool_decide (t = "")) then skip_loop last chunk name' else Ok (Some t)
           | None => skip_loop last chunk name'
           end
  end.
(** The rest of a pattern that no longer matches is still checked. *)
Fixpoint check_rest (fuel : nat) (pattern : string) : pattern_result bool :=
  match fuel, pattern with
  | _, "" | O, _ => Ok false
  | S fuel, _ => let '(_, chunk, pattern) := scanChunk pattern in _ ← matchChunk chunk ""; check_rest fuel pattern
  end.
(** Every round consumes some of the pattern. *)
Fixpoint match_loop (fuel : nat) (pattern name : string) : pattern_result bool :=
  match fuel with
  | O => Err tt
  | S fuel =>
      if bool_decide (pattern = "") then Ok (bool_decide (name = ""))
      else
        let '(star, chunk, pattern) := scanChunk pattern in
        if (star : bool) && bool_decide (chunk = "") then Ok (negb (Contains name "/"))
        else
          let last := bool_decide (pattern = "") in
          t ← matchChunk chunk name;
          match t with
          | Some t' =>
              if negb last || bool_decide (t' = "") then match_loop fuel pattern t'
              else r ← (if star then skip_loop last chunk name else Ok None);
                   match r with Some t => match_loop fuel pattern t | None => check_rest (String.length pattern) pattern end
          | None =>
              r ← (if star then skip_loop last chunk name else Ok None);
              match r with Some t => match_loop fuel pattern t | None => check_rest (String.length pattern) pattern end
          end
  end.
Definition Match (pattern name : string) : pattern_result bool := match_loop (S (String.length pattern)) pattern name.

Example match_star : Match "*.pdf" "scan.pdf" = Ok true /\ Match "*.pdf" "in/scan.pdf" = Ok false.
Proof. split; vm_compute; reflexivity. Qed.
Example match_class : Match "in/[a-c]?*z" "in/bxyz" = Ok true /\ Match "in/[^a-c]?*z" "in/bxyz" = Ok false
  /\ Match "[a-" "b" = Err tt /\ Match "a\*b" "a*b" = Ok true /\ Match "*a*b" "xaxab" = Ok true.
Proof. repeat split; vm_compute; reflexivity. Qed.

(** * [strings.NewReplacer] *)

(** At each position the first pair whose old text is there; substituted text is not read
    again. *)
Fixpoint replacement (pairs : list (string * string)) (s : string) : option (string * string) :=
  match pairs with
  | [] => None
  | (old, new) :: pairs => if has_prefix s old then Some (old, new) else replacement pairs s
  end.
Fixpoint replacer_loop (pairs : list (string * string)) (skip : nat) (s : string) : string :=
  match s, skip with
  | "", _ => ""
  | String _ s', S skip => replacer_loop pairs skip s'
  | String c s', O =>
      match replacement pairs s with
      | Some (old, new) => new +:+ replacer_loop pairs (String.length old - 1) s'
      | None => String c (replacer_loop pairs 0 s')
      end
  end.
Definition Replace (pairs : list (string * string)) (s : string) : string := replacer_loop pairs 0 s.

(** A pair whose old text does not occur plays no part. *)
Lemma replacer_absent old x y pairs skip s :
  Contains s old = false -> replacer_loop ((old, x) :: pairs) skip s = replacer_loop ((old, y) :: pairs) skip s.
Proof.
  revert skip; induction s as [|c s IH]; intros skip H; cbn [replacer_loop]; [done|].
  rewrite Contains_cons in H. apply orb_false_iff in H as [Hp H]. destruct skip as [|skip]; [|by apply IH].
  cbn [replacement]. rewrite Hp. destruct (replacement pairs _) as [[o n]|]; by rewrite IH.
Qed.
Lemma Replace_absent old x y pairs s :
  Contains s old = false -> Replace ((old, x) :: pairs) s = Replace ((old, y) :: pairs) s.
Proof. apply replacer_absent. Qed.
