(* ===== verification/DocumentChange.v ===== *)
(** Reviewed document changes ([core/approvals/document_change.go]) and the snapshots that
    bind a suggestion to the state it was made from ([core/documentstate/snapshot.go]).

    A suggestion carries the revisions its inference read.  It is written by a reviewed
    flow — the effect of the [apply] state of the canonical definition — or by the automatic
    path under a threshold; both check it against the document as it is then.  The engine is
    that of [Approvals] with the tables below as the world of its effects; values are written
    by the operations of [Taxonomy], [CustomField] and [Lang], permissions decided by
    [Authz.can].  Decoding of the variables, parsing of a value's JSON and the hash are
    parameters; the audit log is left out. *)
From Stdlib Require Import SpecFloat.
From S2P Require Import Prelude GoStd Utf8 Sqlite Systems Authz Slug CustomField Lang Taxonomy Principal ApprovalSpec Approvals ApprovalRunner.

(** * Snapshots *)
Record Snapshot : Type := MkSnapshot {
  sn_SystemID : Z; OwnerID : Z; SourceRevision : Z; TitleRevision : Z; CorrespondentRevision : Z;
  CategoryRevision : Z; TagsRevision : Z; LanguageRevision : Z; SourceBlob : string;
}.
#[export] Instance Snapshot_eq_dec : EqDecision Snapshot.
Proof. solve_decision. Defined.
Record Reference : Type := MkReference { DocumentID : Z; ref_Snapshot : Snapshot }.
#[export] Instance Reference_eq_dec : EqDecision Reference.
Proof. solve_decision. Defined.

Definition FieldRevision (field : string) (sn : Snapshot) : Z :=
  if bool_decide (field = "title") then TitleRevision sn
  else if bool_decide (field = "correspondent") then CorrespondentRevision sn
  else if bool_decide (field = "jd_category") then CategoryRevision sn
  else if bool_decide (field = "tag") then TagsRevision sn
  else if bool_decide (field = "language") then LanguageRevision sn
  else -1.
Definition SameSource (a b : Snapshot) : bool :=
  (sn_SystemID a =? sn_SystemID b) && (OwnerID a =? OwnerID b) && bool_decide (SourceBlob a = SourceBlob b)
  && (SourceRevision a =? SourceRevision b).

(** * Suggestions *)
Record DocumentChange : Type := MkChange {
  Field : string; ValueID : Z; Value : string; c_Confidence : float64; Threshold : option float64;
  Source : string; AutomationID : Z; AutomationName : string;
  CustomFieldFingerprint : string; CustomFieldPresent : bool;
  Baseline : option Snapshot; Supporters : list Reference; Reason : string; PolicyVersion : string;
}.
Definition set_ValueID (id : Z) (c : DocumentChange) : DocumentChange :=
  MkChange (Field c) id (Value c) (c_Confidence c) (Threshold c) (Source c) (AutomationID c) (AutomationName c)
    (CustomFieldFingerprint c) (CustomFieldPresent c) (Baseline c) (Supporters c) (Reason c) (PolicyVersion c).
Definition set_policy (reason policy : string) (c : DocumentChange) : DocumentChange :=
  MkChange (Field c) (ValueID c) (Value c) (c_Confidence c) (Threshold c) (Source c) (AutomationID c)
    (AutomationName c) (CustomFieldFingerprint c) (CustomFieldPresent c) (Baseline c) (Supporters c) reason policy.

Definition AutomaticPolicyVersion : string := "threshold-auto-v1".
Definition ReviewPolicyVersion : string := "review-first-v1".
Definition ReviewReasonReviewFirst : string := "review_first".
Definition ReviewReasonLowConfidence : string := "low_confidence".

(** * The world of the effects *)
Record change_world : Type := World {
  taxonomy : tables;            (* documents' metadata, tags, correspondents, queued moves *)
  jd_categories : gmap Z Z;     (* id to system_id *)
  custom : CustomField.store;   (* definitions and values; its documents are [fields_of]'s *)
  grants : Authz.db;            (* storage paths, grants, groups; the rest is [authz_of]'s *)
  auto_apply : option string;   (* settings.value_json of classification.auto_apply *)
}.
Implicit Types (s : Approvals.store change_world) (c : DocumentChange).
Abbreviation state := (Approvals.store change_world).

Definition with_world (f : change_world -> change_world) s : state :=
  Store (dir s) (sessions s) (api_tokens s) (documents s) (defs s) (runs s) (tasks s) (transitions s) (outbox s)
    (pending_sweeps s) (run_seq s) (task_seq s) (f (world s)).
Definition set_taxonomy (t : tables) s : state :=
  with_world (fun w => World t (jd_categories w) (custom w) (grants w) (auto_apply w)) s.
Definition set_custom (cs : CustomField.store) s : state :=
  with_world (fun w => World (taxonomy w) (jd_categories w) cs (grants w) (auto_apply w)) s.

(** The other components' views of the same rows. *)
Definition placed s (docID : Z) : option (Z * bool) :=
  (fun d => (doc_system d, doc_trashed d)) <$> documents s !! docID.
Definition fields_of s : CustomField.store :=
  CustomField.with_documents
    (fun old => map_imap (fun id d => Some (Doc (doc_system d) (doc_trashed d) (old !! id ≫= doc_family))) (documents s))
    (custom (world s)).
Definition authz_of s : Authz.db :=
  let a := grants (world s) in
  DB (dir s) ((fun d => Authz.Document (doc_system d) (doc_owner d)) <$> documents s)
    (n_system <$> tags (taxonomy (world s))) (n_system <$> correspondents (taxonomy (world s)))
    (Authz.storage_paths a) (object_acls a) (groups a) (group_members a).
Definition system_exists s (systemID : Z) : bool := bool_decide (is_Some (jd_systems (dir s) !! systemID)).

(** Errors of the other components are none of the sentinels the engine distinguishes. *)
Definition lift {E A} (r : result E A) : result approval_error A :=
  match r with Ok a => Ok a | Err _ => Err (ErrMessage "document change") end.

Definition Load s (docID : Z) : option Snapshot :=
  match documents s !! docID, docs (taxonomy (world s)) !! docID with
  | Some d, Some m =>
      if doc_trashed d then None
      else Some (MkSnapshot (doc_system d) (doc_owner d) (source_revision m) (title_revision m)
                   (correspondent_revision m) (category_revision m) (tags_revision m) (language_revision m)
                   (original_blob m))
  | _, _ => None
  end.

(** What the code takes from the standard library and from packages it only calls: the
    [unicode] tables, [encoding/json], SHA-256 and the parameters of [CustomField].  The
    variables of a run decode into a change and are made from one. *)
Record platform : Type := MkPlatform {
  U : unicode_tables;
  json_valid : string -> bool; unmarshal : string -> option raw_value; sum256 : string -> string;
  decode : vars -> option DocumentChange; encode : DocumentChange -> vars;
  pf_ParseFloat : string -> option float64; pf_FormatFloat : float64 -> string; pf_FormatFloat2 : float64 -> string;
  pf_IsLetter : Z -> bool; pf_IsCurrency : Z -> bool; pf_overflow : float64 -> Z; pf_url_scheme : string -> option string;
  pf_marshal_strings : option (list string) -> string; pf_unmarshal_strings : string -> option (list string);
  pf_unmarshal_choices : string -> option (list string); pf_to_lower : string -> string;
}.

Section Changes.
Context (P : platform).
Definition lookup : string -> CustomField.Handler :=
  CustomField.Lookup (pf_ParseFloat P) (pf_FormatFloat P) (pf_FormatFloat2 P) (pf_IsLetter P) (pf_IsCurrency P)
    (pf_overflow P) (pf_url_scheme P) (pf_marshal_strings P) (pf_unmarshal_strings P) (pf_unmarshal_choices P)
    (pf_to_lower P).
Definition read_rendered : Z -> Z -> CustomField.store -> result field_error (string * bool) :=
  CustomField.ReadRenderedValue (pf_ParseFloat P) (pf_FormatFloat P) (pf_FormatFloat2 P) (pf_IsLetter P)
    (pf_IsCurrency P) (pf_overflow P) (pf_url_scheme P) (pf_marshal_strings P) (pf_unmarshal_strings P)
    (pf_unmarshal_choices P) (pf_to_lower P).

(** * Validation *)
Definition float_zero : float64 := S754_zero false.
Definition float_one : float64 := float_of_int 1.
Definition IsNaN (x : float64) : bool := match x with S754_nan => true | _ => false end.
Definition IsInf (x : float64) : bool := match x with S754_infinity _ => true | _ => false end.

Definition bad_value c : bool :=
  let f := Field c in
  if bool_decide (f = "jd_category") then ValueID c <=? 0
  else if bool_decide (f = "correspondent") || bool_decide (f = "tag") then
    (ValueID c =? 0) && bool_decide (TrimSpace (Value c) = "")
  else if bool_decide (f = "custom_field") then
    (ValueID c <=? 0) || bool_decide (Value c = "") || negb (json_valid P (Value c))
    || negb (String.length (CustomFieldFingerprint c) =? 64)%nat
  else if bool_decide (f = "title") then bool_decide (TrimSpace (Value c) = "") || negb (ValueID c =? 0)
  else if bool_decide (f = "language") then
    negb (ValueID c =? 0) || (negb (bool_decide (Value c = "")) && bool_decide (Format (U P) (Value c) = ""))
  else true.
Definition validateDocumentChange c : result approval_error unit :=
  fail_if (1024 <? String.length (Value c))%nat || (64 <? String.length (Source c))%nat
          || (16 <? length (Supporters c))%nat || (ValueID c <? 0) || (AutomationID c <? 0)
          || (200 <? String.length (AutomationName c))%nat with ErrStaleProposal in
  fail_if negb (Bool.eqb (AutomationID c =? 0) (bool_decide (AutomationName c = ""))) with ErrStaleProposal in
  fail_if bad_value c with ErrStaleProposal in
  fail_if IsNaN (c_Confidence c) || IsInf (c_Confidence c) || SFltb (c_Confidence c) float_zero
          || SFltb float_one (c_Confidence c) with ErrStaleProposal in
  Ok tt.

Definition documentChangeFromVars (vs : vars) : result approval_error DocumentChange :=
  match decode P vs with
  | None => Err (ErrMessage "json")
  | Some c => _ ← validateDocumentChange c; Ok c
  end.

(** * Authorization *)

(** [pluginapi.Principal{Kind: "user", UserID: id}] as of the transaction; without session
    or expiry the time plays no part. *)
Definition bare_user (userID : Z) : Principal.Principal :=
  Principal.MkPrincipal "user" userID 0 0 "" "" "" "" [] "" "" 0.
Definition ownerActor s (userID systemID : Z) : result approval_error Principal.Principal :=
  match currentActor 0 s (Some (bare_user userID)) systemID with
  | Ok (Some owner) => Ok owner
  | _ => Err ErrForbidden
  end.

Definition authz_principal s (actor : Principal.Principal) (systemID : Z) : Authz.Principal :=
  Authz.MkPrincipal (p_UserID actor) (p_Role actor) (p_Kind actor) (loadGroups (authz_of s) (p_UserID actor))
    systemID (p_TokenSystemID actor).
Definition canReviewDocument s (actor : Principal.Principal) (systemID docID permission : Z)
    : result approval_error unit :=
  match can (authz_of s) (authz_principal s actor systemID) KindDocument docID permission with
  | Ok _ => Ok tt
  | Err _ => Err ErrForbidden
  end.

(** An existing term, as [UpsertByName] finds it, or 0; only administrators make new tags. *)
Definition documentChangeVocabulary s (systemID : Z) c (actor : option Principal.Principal)
    : result approval_error Z :=
  if negb (ValueID c =? 0) then Ok (ValueID c)
  else if bool_decide (Field c = "tag") then
    let name := TrimSpace (Value c) in
    match find_named (tags (taxonomy (world s))) systemID name (Make (U P) name) with
    | Some id => Ok id
    | None =>
        require match actor with Some a => bool_decide (p_Role a = "admin") | None => false end
          else ErrForbidden in Ok 0
    end
  else Ok 0.

(** * Destinations *)

(** Only an empty place is filled: a document in the inbox, without a sender, with unlocked
    languages; a custom field still has the value the inference saw. *)
Definition unchanged_field s (docID : Z) c : result approval_error bool :=
  match read_rendered docID (ValueID c) (fields_of s) with
  | Ok (value, is_present) =>
      Ok (Bool.eqb is_present (CustomFieldPresent c)
          && bool_decide (ValueFingerprint (sum256 P) value is_present = CustomFieldFingerprint c))
  | Err ErrNoRows => Err ErrStaleProposal
  | Err _ => Err (ErrMessage "custom field")
  end.
Definition eligible s (docID : Z) c : result approval_error bool :=
  let f := Field c in
  let m := docs (taxonomy (world s)) !! docID in
  if bool_decide (f = "jd_category") then
    match documents s !! docID ≫= (fun d => jd_systems (dir s) !! doc_system d), m with
    | Some sys, Some m => Ok (category m =? default 0 (inbox_category_id sys))
    | _, _ => Err (ErrMessage "no rows")
    end
  else if bool_decide (f = "correspondent") then
    match m with
    | Some _ => Ok (bool_decide (in_order (taxonomy (world s)) docID "sender" = []))
    | None => Err (ErrMessage "no rows")
    end
  else if bool_decide (f = "language") then
    match m with Some m => Ok (negb (languages_locked m)) | None => Err (ErrMessage "no rows") end
  else if bool_decide (f = "custom_field") then unchanged_field s docID c
  else Ok true.

(** A value that the field's type accepts, typed. *)
Definition typed_value_of s (systemID : Z) c : result approval_error (CustomField.Handler * typed_value) :=
  match custom_fields (fields_of s) !! ValueID c with
  | None => Err ErrStaleProposal
  | Some f =>
      require (f_system f =? systemID) && negb (bool_decide (f_data_type f = "documentlink")) else ErrStaleProposal in
      match unmarshal P (Value c) with
      | None => Err ErrStaleProposal
      | Some value =>
          match CustomField.Validate (lookup (f_data_type f)) (f_extra f) value with
          | Ok typed => Ok (lookup (f_data_type f), typed)
          | Err _ => Err ErrStaleProposal
          end
      end
  end.

(** [SELECT 1 FROM table WHERE id = ? AND system_id = ?]. *)
Definition term_exists s (field : string) (id systemID : Z) : bool :=
  let t := taxonomy (world s) in
  if bool_decide (field = "jd_category") then bool_decide (jd_categories (world s) !! id = Some systemID)
  else if bool_decide (field = "correspondent") then bool_decide (n_system <$> correspondents t !! id = Some systemID)
  else if bool_decide (field = "tag") then bool_decide (n_system <$> tags t !! id = Some systemID)
  else false.
Definition validateDestination s (docID systemID : Z) c : result approval_error unit :=
  ok ← eligible s docID c;
  require ok : bool else ErrStaleProposal in
  if bool_decide (Field c = "custom_field") then _ ← typed_value_of s systemID c; Ok tt
  else fail_if (0 <? ValueID c) && negb (term_exists s (Field c) (ValueID c) systemID) with ErrStaleProposal in Ok tt.

(** * The check *)

(** The supporting documents, each named once, unchanged, and visible to the owner as a
    member and to the reviewer. *)
Fixpoint check_supporters s (docID systemID : Z) (owner : Principal.Principal) (reviewer : option Principal.Principal)
    (seen : list Z) (refs : list Reference) : result approval_error unit :=
  match refs with
  | [] => Ok tt
  | r :: refs' =>
      let id := DocumentID r in
      fail_if (id <=? 0) || (id =? docID) || existsb (Z.eqb id) seen with ErrStaleProposal in
      match Load s id with
      | None => Err ErrStaleProposal
      | Some support =>
          require bool_decide (support = ref_Snapshot r) && (sn_SystemID support =? systemID) else ErrStaleProposal in
          _ ← ownerActor s (OwnerID support) (sn_SystemID support);
          _ ← canReviewDocument s owner systemID id PermView;
          _ ← match reviewer with
              | Some a => canReviewDocument s a systemID id PermView
              | None => Ok tt
              end;
          check_supporters s docID systemID owner reviewer (id :: seen) refs'
      end
  end.

Definition review_reason c : string :=
  match Threshold c with
  | Some t => if SFltb (c_Confidence c) t then ReviewReasonLowConfidence else ReviewReasonReviewFirst
  | None => ReviewReasonReviewFirst
  end.
Definition checkDocumentChange s (docID : Z) c (reviewer : option Principal.Principal) : result approval_error string :=
  _ ← validateDocumentChange c;
  match Baseline c, Load s docID with
  | Some base, Some current =>
      require SameSource current base && (FieldRevision (Field c) current =? FieldRevision (Field c) base)
        else ErrStaleProposal in
      fail_if bool_decide (Field c = "title") && bool_decide (reviewer = None)
              && negb (bool_decide (title_owner <$> docs (taxonomy (world s)) !! docID = Some "auto"))
        with ErrStaleProposal in
      owner ← ownerActor s (OwnerID current) (sn_SystemID current);
      let owner := set_Role "member" owner in
      _ ← match reviewer with
          | None => Ok tt
          | Some a =>
              _ ← canReviewDocument s a (sn_SystemID current) docID PermChange;
              _ ← documentChangeVocabulary s (sn_SystemID current) c (Some a); Ok tt
          end;
      _ ← validateDestination s docID (sn_SystemID current) c;
      _ ← check_supporters s docID (sn_SystemID current) owner reviewer [] (Supporters c);
      Ok (review_reason c)
  | _, _ => Err ErrStaleProposal
  end.

(** What the engine asks of a run's variables.  A reviewer sees a decoding error, the
    reconciliation takes it for staleness. *)
Definition change_check s (docID : Z) (vs : vars) (reviewer : option Principal.Principal) : result approval_error unit :=
  match documentChangeFromVars vs, reviewer with
  | Ok c, _ => _ ← checkDocumentChange s docID c reviewer; Ok tt
  | Err e, Some _ => Err e
  | Err _, None => Err ErrStaleProposal
  end.

(** * Writing a value *)

(** The updates of a document's row, with the revision triggers. *)
Definition put_title (now : Z) (title owner : string) (m : meta) : meta :=
  MkMeta title owner (category m) (languages m) (languages_locked m) (original_blob m) now (source_revision m)
    (title_revision m + 1) (correspondent_revision m) (category_revision m) (tags_revision m) (language_revision m).
Definition put_category (now id : Z) (m : meta) : meta :=
  MkMeta (title m) (title_owner m) id (languages m) (languages_locked m) (original_blob m) now (source_revision m)
    (title_revision m) (correspondent_revision m) (category_revision m + 1) (tags_revision m) (language_revision m).
Definition put_languages (now : Z) (value : string) (lock : bool) (m : meta) : meta :=
  MkMeta (title m) (title_owner m) (category m) value lock (original_blob m) now (source_revision m)
    (title_revision m) (correspondent_revision m) (category_revision m) (tags_revision m) (language_revision m + 1).
Definition put_updated (now : Z) (m : meta) : meta :=
  MkMeta (title m) (title_owner m) (category m) (languages m) (languages_locked m) (original_blob m) now
    (source_revision m) (title_revision m) (correspondent_revision m) (category_revision m) (tags_revision m)
    (language_revision m).

(** [UPDATE documents SET ... WHERE id = ? AND cond], and whether it changed a row. *)
Definition update_where (docID : Z) (cond : meta -> bool) (f : meta -> meta) s : bool * state :=
  let t := taxonomy (world s) in
  match docs t !! docID with
  | Some m => if cond m then (true, set_taxonomy (with_docs <[docID := f m]> t) s) else (false, s)
  | None => (false, s)
  end.

(** [INSERT INTO document_tags ... ON CONFLICT DO UPDATE SET classifier_owned = 0 WHERE
    classifier_owned = 1]. *)
Definition own_doc_tag (docID tag : Z) s : result approval_error (bool * state) :=
  let t := taxonomy (world s) in
  let owned := set_taxonomy (touch_tags docID 1 (with_doc_tags <[(docID, tag) := false]> t)) s in
  match document_tags t !! (docID, tag) with
  | Some false => Ok (false, s)
  | Some true => Ok (true, owned)
  | None =>
      require bool_decide (is_Some (tags t !! tag))
              && bool_decide (doc_system <$> documents s !! docID = n_system <$> tags t !! tag)
        else ErrConstraint "cross-system reference" in Ok (true, owned)
  end.

(** The write of one field: whether it changed anything, and the tables. *)
Definition write_field (now docID systemID : Z) c (reviewed : bool) s : result approval_error (bool * state) :=
  let f := Field c in
  if bool_decide (f = "jd_category") then
    let '(changed, s') := update_where docID (fun m => negb (category m =? ValueID c)) (put_category now (ValueID c)) s in
    fail_if changed && negb (bool_decide (doc_system <$> documents s !! docID = jd_categories (world s) !! ValueID c))
      with ErrConstraint "jd_category_id" in
    Ok (changed, s')
  else if bool_decide (f = "correspondent") then
    t ← lift (SetPrimaryCorrespondent (placed s) docID (ValueID c) (taxonomy (world s)));
    Ok (update_where docID (fun _ => true) (put_updated now) (set_taxonomy t s))
  else if bool_decide (f = "custom_field") then
    same ← unchanged_field s docID c;
    require same : bool else ErrStaleProposal in
    '(h, typed) ← typed_value_of s systemID c;
    cs ← lift (CustomField.Write h docID (ValueID c) typed (fields_of s));
    Ok (true, set_custom cs s)
  else if bool_decide (f = "title") then
    Ok (if reviewed
        then update_where docID
               (fun m => negb (bool_decide (title m = Value c)) || negb (bool_decide (title_owner m = "human")))
               (put_title now (Value c) "human") s
        else update_where docID
               (fun m => bool_decide (title_owner m = "auto") && negb (bool_decide (title m = Value c)))
               (put_title now (Value c) "auto") s)
  else if bool_decide (f = "language") then
    let value := Format (U P) (Value c) in
    let lock := reviewed && negb (bool_decide (value = "")) in
    Ok (update_where docID (fun m => negb (bool_decide (languages m = value)) || negb (Bool.eqb (languages_locked m) lock))
          (put_languages now value lock) s)
  else if bool_decide (f = "tag") then own_doc_tag docID (ValueID c) s
  else Err ErrStaleProposal.

(** A new tag or correspondent for a suggestion without an id. *)
Definition named_table (field : string) : option NamedTable :=
  if bool_decide (field = "tag") then Some TableTags
  else if bool_decide (field = "correspondent") then Some TableCorrespondents else None.
Definition resolve_value (now systemID : Z) c s : result approval_error (DocumentChange * state) :=
  match named_table (Field c) with
  | Some table =>
      if ValueID c =? 0 then
        '(id, t) ← lift (UpsertByName (U P) (system_exists s) systemID table (Value c) now (taxonomy (world s)));
        Ok (set_ValueID id c, set_taxonomy t s)
      else Ok (c, s)
  | None => Ok (c, s)
  end.

(** [ReconcileDocumentChangesInTx]. *)
Definition ReconcileDocumentChangesInTx (now systemID : Z) (documentIDs : list Z) s : result approval_error state :=
  fail_if systemID <=? 0 with ErrMessage "approvals: document-change reconciliation requires a system" in
  reconcileDocumentChangesInTx change_check now systemID documentIDs s.

Definition writeDocumentChangeValue (now docID systemID : Z) c (reviewed : bool) s : result approval_error state :=
  '(c, s) ← resolve_value now systemID c s;
  '(changed, s) ← write_field now docID systemID c reviewed s;
  require changed : bool else ErrStaleProposal in
  s ← ReconcileDocumentChangesInTx now systemID [docID] s;
  t ← lift (enqueue_move (placed s) docID (taxonomy (world s)));
  Ok (set_taxonomy t s).

(** * The reviewed flow *)

(** The newest task of a list of rows. *)
Definition newest_task (a b : Z * Task) : Z * Task := if a.1 <? b.1 then b else a.
(** The review that was answered with [apply] at a revision of the run. *)
Definition apply_task s (runID rev : Z) : option (Z * Task) :=
  match filter (fun x => (RunID x.2 =? runID) && bool_decide (StateKey x.2 = "review") && (StateRevision x.2 =? rev)
                  && bool_decide (t_Status x.2 = Resolved) && bool_decide (ResolvedChoice x.2 = Some "apply") = true)
               (map_to_list (tasks s)) with
  | [] => None
  | x :: l => Some (foldl newest_task x l)
  end.

Definition applyDocumentChange (now : Z) (run : Z * Run) c s : result approval_error state :=
  match DocID run.2 with
  | None => Err ErrStaleProposal
  | Some docID =>
      require bool_decide (PolicyVersion c = ReviewPolicyVersion) else ErrStaleProposal in
      d ← defByID s (DefID run.2);
      require bool_decide (df_slug d = DocumentChangeSlug) && bool_decide (df_spec d = DocumentChangeSpec)
              && bool_decide (CurrentState run.2 = "apply") else ErrStaleProposal in
      match apply_task s run.1 (revision run.2 - 2) with
      | Some (_, t) =>
          match Proof_of t with
          | None => Err ErrStaleProposal
          | Some actor =>
              actor ← currentActor now s (Some actor) (SystemID run.2);
              _ ← checkDocumentChange s docID c actor;
              id ← documentChangeVocabulary s (SystemID run.2) c actor;
              writeDocumentChangeValue now docID (SystemID run.2) (set_ValueID id c) true s
          end
      | None => Err ErrStaleProposal
      end
  end.

(** [documentChangeHandler.Handle]. *)
Definition documentChangeHandler : Handler change_world := fun run _ _ =>
  c ← documentChangeFromVars (Vars run.2);
  Ok (MkResult "success" ∅ None (Some (fun now s => applyDocumentChange now run c s))).

(** * The automatic path *)

(** [settings.ResolveAutoApply]: on unless the setting says false. *)
Definition ResolveAutoApply s : result approval_error bool :=
  match auto_apply (world s) with
  | None => Ok true
  | Some payload =>
      let payload := TrimSpace payload in
      if bool_decide (payload = "true") then Ok true
      else if bool_decide (payload = "false") then Ok false
      else Err (ErrMessage "automatic classification policy must be a boolean")
  end.
Definition reaches c : bool :=
  match Threshold c with Some t => negb (SFltb (c_Confidence c) t) | None => false end.
Definition ApplyAutomaticDocumentChangeInTx (now docID : Z) c s : result approval_error (bool * state) :=
  enabled ← ResolveAutoApply s;
  if negb enabled || negb (reaches c) then Ok (false, s)
  else
    require bool_decide (Source c = "llm") || bool_decide (Source c = "archive") else ErrStaleProposal in
    _ ← checkDocumentChange s docID c None;
    match Baseline c with
    | None => Err ErrStaleProposal
    | Some base => s ← writeDocumentChangeValue now docID (sn_SystemID base) c false s; Ok (true, s)
    end.

(** * Proposals *)

(** The principal of the [apply] decision a run rests on can no longer act; a review without
    such a decision, or with a task still open, is not touched. *)
Definition documentChangeAuthorizationUnusable (now : Z) (run : Z * Run) s : result approval_error bool :=
  let back := if bool_decide (CurrentState run.2 = "review") then Some 1
              else if bool_decide (CurrentState run.2 = "apply") then Some 2 else None in
  match back with
  | None => Ok false
  | Some n =>
      if exists_row (fun _ t => (RunID t =? run.1) && is_open t) (tasks s) then Ok false
      else match apply_task s run.1 (revision run.2 - n) with
           | None => Ok false
           | Some (_, t) =>
               match Proof_of t with
               | None => Err (ErrMessage "resolution_principal_json is NULL")
               | Some actor =>
                   match currentActor now s (Some actor) (SystemID run.2) with
                   | Ok _ => Ok false
                   | Err ErrForbidden => Ok true
                   | Err e => Err e
                   end
               end
           end
  end.

(** A running run of the definition that proposes the same change from the same state. *)
Definition same_proposal (defID docID : Z) c (r : Run) : bool :=
  (DefID r =? defID) && bool_decide (DocID r = Some docID) && bool_decide (Status r = Running) &&
  match decode P (Vars r) with
  | Some c' => bool_decide (Field c' = Field c) && (ValueID c' =? ValueID c) && bool_decide (Value c' = Value c)
               && bool_decide (Baseline c' = Baseline c) && bool_decide (Supporters c' = Supporters c)
  | None => false
  end.
(** The loop over such runs, in the order the query yields them: a dead one fails, a live
    one makes the proposal a duplicate. *)
Fixpoint dedup_loop (now : Z) (l : list (Z * Run)) s : result approval_error (bool * state) :=
  match l with
  | [] => Ok (false, s)
  | (id, r) :: l' =>
      unusable ← documentChangeAuthorizationUnusable now (id, r) s;
      if negb unusable then Ok (true, s)
      else dedup_loop now l'
             (finalizeRun now id Failed
                (insertTransition now id (CurrentState r) (CurrentState r) "authorization_expired" None ∅ s))
  end.

Definition active_or_new (now systemID : Z) s : result approval_error (Z * def * state) :=
  match activeDefBySlug s systemID DocumentChangeSlug with
  | Err ErrNoDef =>
      '(_, s) ← insertDef now systemID DocumentChangeSlug DocumentChangeSpec 0 s;
      d ← activeDefBySlug s systemID DocumentChangeSlug;
      Ok (d, s)
  | Ok d => Ok (d, s)
  | Err e => Err e
  end.

Definition ProposeDocumentChangeInTx (now docID : Z) c s : result approval_error state :=
  reason ← checkDocumentChange s docID c None;
  let c := set_policy reason ReviewPolicyVersion c in
  match Baseline c with
  | None => Err ErrStaleProposal
  | Some base =>
      '(defID, d, s) ← active_or_new now (sn_SystemID base) s;
      require bool_decide (df_spec d = DocumentChangeSpec) else ErrStaleProposal in
      '(duplicate, s) ← dedup_loop now
                          (filter (fun x => same_proposal defID docID c x.2 = true) (map_to_list (runs s))) s;
      if duplicate : bool then Ok s
      else
        '(runID, s) ← insertRun now (sn_SystemID base) defID (Some docID) "review"
                        (<["owner_id" := VInt (OwnerID base)]> (encode P c)) None 0 s;
        enqueueAdvance runID "" s
  end.
End Changes.
