(* ===== verification/DocumentChangeFacts.v ===== *)
(** Document changes: the check reads no engine table, a write raises the revision its
    baseline is bound to, the reconciliation cancels exactly the reviews that went stale,
    and the effect of the [apply] state obeys the engine's law for effects. *)
From Stdlib Require Import SpecFloat.
From S2P Require Import Prelude GoStd Utf8 Sqlite Systems Authz Slug CustomField Lang Taxonomy TaxonomyFacts Principal ApprovalSpec Approvals ApprovalRunner ApprovalFacts ApprovalProps DocumentChange.

(** ** Revisions of a document's row *)
Definition row_revision (field : string) (m : meta) : Z :=
  if bool_decide (field = "title") then title_revision m
  else if bool_decide (field = "correspondent") then correspondent_revision m
  else if bool_decide (field = "jd_category") then category_revision m
  else if bool_decide (field = "tag") then tags_revision m
  else if bool_decide (field = "language") then language_revision m
  else -1.

(** A first sender is one new row. *)
Lemma SetPrimary_docs document doc corr t t' :
  SetPrimaryCorrespondent document doc corr t = Ok t' -> 0 < corr -> in_order t doc "sender" = [] ->
  docs t' = alter (bump_corr 1) doc (docs t).
Proof.
  intros H Hc Hnone. unfold SetPrimaryCorrespondent in H. rewrite (proj2 (Z.leb_gt corr 0)) in H by done.
  assert (Hno : forall c, document_correspondents t !! (doc, c, "sender") = None).
  { intros c. destruct (document_correspondents t !! (doc, c, "sender")) eqn:E; [|done].
    assert (c ∈ in_order t doc "sender") as Hin by (apply in_order_elem; eauto). rewrite Hnone in Hin. by apply not_elem_of_nil in Hin. }
  assert (Hrows : role_rows t doc "sender" = []).
  { destruct (role_rows t doc "sender") as [|[p c] l] eqn:E; [done|].
    assert ((p, c) ∈ role_rows t doc "sender") as Hin by (rewrite E; left). apply role_rows_elem in Hin. by rewrite Hno in Hin. }
  apply bind_Ok in H as (t1 & Ha & H). unfold AppendCorrespondent in Ha. rewrite Hno, Hrows in Ha. guards_in Ha.
  injection Ha as <-. set (t1 := touch_corr doc 1 _) in H.
  assert (Hf : filter (fun c => c <> corr) (in_order t1 doc "sender") = []).
  { destruct (filter _ _) as [|c l] eqn:E; [done|].
    assert (c ∈ filter (fun c => c <> corr) (in_order t1 doc "sender")) as Hin by (rewrite E; left).
    apply list_elem_of_filter in Hin as [Hne [p Hin]%in_order_elem]. unfold t1 in Hin. cbn in Hin.
    rewrite lookup_insert_ne in Hin by congruence. by rewrite Hno in Hin. }
  rewrite Hf in H. assert (t' = place doc "sender" 0 corr t1) as -> by (by injection H).
  unfold place. rewrite bool_decide_true; [done|]. unfold t1. cbn. by rewrite lookup_insert_eq.
Qed.

(** Making or finding a name touches no document. *)
Lemma Upsert_rest U ex systemID table name now t id t' :
  UpsertByName U ex systemID table name now t = Ok (id, t') ->
  docs t' = docs t /\ document_correspondents t' = document_correspondents t /\ document_tags t' = document_tags t /\
  moves t' = moves t.
Proof.
  unfold UpsertByName. intros H. guards_in H. apply bind_Ok in H as (t1 & H1 & H). guards_in H. injection H as _ <-.
  destruct table; cbn; guards_in H1; by injection H1 as <-.
Qed.
Lemma Upsert_row U ex systemID table name now t id t' :
  UpsertByName U ex systemID table name now t = Ok (id, t') ->
  (forall k, is_Some (rows_of table t !! k) -> 0 < k) -> 0 < id.
Proof.
  unfold UpsertByName. intros H Hpos. guards_in H. apply bind_Ok in H as (t1 & H1 & H).
  assert (Hpos1 : forall k, is_Some (rows_of table t1 !! k) -> 0 < k).
  { destruct (clashes _ _ _ _ _); [by injection H1 as <-|]. guards_in H1. injection H1 as <-. intros k.
    destruct table; cbn; rewrite lookup_insert_is_Some; intros [<-|[_ ?]]; [apply next_rowid_pos|by apply Hpos|apply next_rowid_pos|by apply Hpos]. }
  destruct (find_named _ _ _ _) as [i|] eqn:Ef; [|done]. injection H as <- _. apply Hpos1.
  assert (Hw : forall f j, first_where f (rows_of table t1) = Some j -> is_Some (rows_of table t1 !! j)).
  { intros f j Hj. unfold first_where in Hj. apply head_Some_elem_of in Hj. rewrite merge_sort_Permutation in Hj.
    apply list_elem_of_fmap in Hj as ([j' r] & -> & [_ Hr]%list_elem_of_filter). apply elem_of_map_to_list in Hr. by eexists. }
  unfold find_named in Ef. destruct (first_where _ _) eqn:E1; [injection Ef as <-|]; by eapply Hw.
Qed.

(** Tests on field names that are literals. *)
Ltac literals := repeat first [rewrite bool_decide_false by done|rewrite bool_decide_true by done].

Section Facts.
Context (P : platform).
Implicit Types (s : state) (c : DocumentChange).
Abbreviation check := (change_check P).

(** ** What the check reads *)

(** The same accounts, documents and world; engine tables may differ. *)
Definition same_reads s s' : Prop :=
  dir s' = dir s /\ sessions s' = sessions s /\ api_tokens s' = api_tokens s /\ documents s' = documents s /\
  world s' = world s.
#[export] Instance same_reads_refl : Reflexive same_reads.
Proof. by intros s. Qed.
#[export] Instance same_reads_trans : Transitive same_reads.
Proof. intros s1 s2 s3 (A1 & A2 & A3 & A4 & A5) (B1 & B2 & B3 & B4 & B5). split_and!; congruence. Qed.

Lemma Load_reads s s' docID : same_reads s s' -> Load s' docID = Load s docID.
Proof. intros (_ & _ & _ & H1 & H2). unfold Load. by rewrite H1, H2. Qed.
Lemma authz_reads s s' : same_reads s s' -> authz_of s' = authz_of s.
Proof. intros (E1 & _ & _ & E2 & E3). unfold authz_of. by rewrite E1, E2, E3. Qed.
Lemma actor_reads s s' now a systemID : same_reads s s' -> currentActor now s' a systemID = currentActor now s a systemID.
Proof.
  intros (E1 & E2 & E3 & _). unfold currentActor, token_current, session_ok. by rewrite E1, E2, E3.
Qed.
Lemma owner_reads s s' userID systemID : same_reads s s' -> ownerActor s' userID systemID = ownerActor s userID systemID.
Proof. intros H. unfold ownerActor. by rewrite (actor_reads s s'). Qed.
Lemma review_reads s s' a systemID docID permission :
  same_reads s s' -> canReviewDocument s' a systemID docID permission = canReviewDocument s a systemID docID permission.
Proof. intros H. unfold canReviewDocument, authz_principal. by rewrite (authz_reads s s'). Qed.
Lemma supporters_reads s s' docID systemID owner reviewer seen refs :
  same_reads s s' ->
  check_supporters s' docID systemID owner reviewer seen refs = check_supporters s docID systemID owner reviewer seen refs.
Proof.
  intros H. revert seen; induction refs as [|r refs IH]; intros seen; cbn [check_supporters]; [done|].
  rewrite (Load_reads s s') by done. destruct (_ || _); [done|]. destruct (Load s (DocumentID r)); [|done].
  rewrite (owner_reads s s'), (review_reads s s') by done. destruct reviewer; [rewrite (review_reads s s') by done|]; by rewrite IH.
Qed.
Lemma destination_reads s s' docID systemID c :
  same_reads s s' -> validateDestination P s' docID systemID c = validateDestination P s docID systemID c.
Proof.
  intros (E1 & _ & _ & E2 & E3). unfold validateDestination, eligible, unchanged_field, typed_value_of, term_exists, fields_of.
  by rewrite E1, E2, E3.
Qed.
Lemma check_reads s s' docID c r : same_reads s s' -> checkDocumentChange P s' docID c r = checkDocumentChange P s docID c r.
Proof.
  intros H. unfold checkDocumentChange. rewrite (Load_reads s s') by done.
  destruct (validateDocumentChange P c); [|done]. cbn [mbind result_bind].
  destruct (Baseline c) as [base|], (Load s docID) as [cur|]; try done.
  rewrite (destination_reads s s'), (owner_reads s s') by done.
  pose proof H as (_ & _ & _ & _ & E). rewrite E. destruct (ownerActor s _ _) as [owner|]; [|done]. cbn [mbind result_bind].
  rewrite (supporters_reads s s') by done. destruct r as [rv|]; [|done]. rewrite (review_reads s s') by done.
  unfold documentChangeVocabulary. by rewrite E.
Qed.
Lemma change_check_reads s s' docID vs r : same_reads s s' -> check s' docID vs r = check s docID vs r.
Proof.
  intros H. unfold change_check. destruct (documentChangeFromVars P vs); [|by destruct r].
  by rewrite (check_reads s s') by done.
Qed.
Lemma stale_reads s s' r : same_reads s s' -> stale_review check s' r = stale_review check s r.
Proof.
  intros H. unfold stale_review. pose proof H as (_ & _ & _ & -> & _). destruct (DocID r); [|done].
  destruct (documents s !! z); [|done]. destruct (doc_trashed d); [done|]. by rewrite (change_check_reads s s') by done.
Qed.

Lemma supersede_reads now id s : same_reads s (supersede now id s).
Proof. unfold supersede. destruct (runs s !! id); done. Qed.
Lemma supersede_runs now id s i :
  runs (supersede now id s) !! i =
    if decide (i = id) then ended now Cancelled <$> runs s !! id else runs s !! i.
Proof.
  unfold supersede. destruct (runs s !! id) as [r|] eqn:Er; cbn.
  - destruct (decide (i = id)) as [->|Hne]; [by rewrite lookup_alter_eq, Er|by rewrite lookup_alter_ne].
  - destruct (decide (i = id)) as [->|]; [by rewrite Er|done].
Qed.

(** The reconciliation cancels the listed reviews that are stale and nothing else. *)
Lemma reconcile_loop_runs now l s s' :
  NoDup l.*1 -> (forall id r, (id, r) ∈ l -> runs s !! id = Some r) -> reconcile_loop check now l s = Ok s' ->
  same_reads s s' /\
  (forall id r, (id, r) ∈ l -> exists b, stale_review check s r = Ok b /\
     runs s' !! id = Some (if b : bool then ended now Cancelled r else r)) /\
  (forall id, id ∉ l.*1 -> runs s' !! id = runs s !! id).
Proof.
  revert s; induction l as [|[id0 r0] l IH]; intros s Hn Hl H; cbn [reconcile_loop] in H.
  { injection H as <-. split_and!; [done|by intros ? ? ?%not_elem_of_nil|done]. }
  apply NoDup_cons in Hn as [Hni Hn]. destruct (stale_review check s r0) as [b|] eqn:Eb; [|done].
  set (s1 := if b then supersede now id0 s else s) in H.
  assert (R1 : same_reads s s1) by (unfold s1; destruct b; [apply supersede_reads|done]).
  assert (Hne : forall i, i <> id0 -> runs s1 !! i = runs s !! i).
  { intros i Hi. unfold s1. destruct b; [|done]. by rewrite supersede_runs, decide_False. }
  assert (Hout : forall i r, (i, r) ∈ l -> i <> id0).
  { intros i r Hi ->. apply Hni, list_elem_of_fmap. by exists (id0, r). }
  destruct (IH s1) as (R2 & Hin & Hoff); [done| |done|].
  { intros i r Hi. rewrite Hne by (by eapply Hout). apply Hl. by right. }
  split; [by etrans|]. split.
  - intros i r Hi. apply elem_of_cons in Hi as [[= -> ->]|Hi].
    + exists b. split; [done|]. rewrite Hoff by done. pose proof (Hl id0 r0 ltac:(by left)) as Hr0.
      unfold s1. destruct b; [|done]. by rewrite supersede_runs, decide_True, Hr0.
    + destruct (Hin _ _ Hi) as (b' & Hb' & Hr'). exists b'. split; [|done]. by rewrite <- (stale_reads s s1).
  - intros i Hi. cbn in Hi. apply not_elem_of_cons in Hi as [Hi1 Hi2]. by rewrite Hoff, Hne.
Qed.

Lemma reconcile_runs now systemID docIDs s s' :
  reconcileDocumentChangesInTx check now systemID docIDs s = Ok s' ->
  same_reads s s' /\
  forall id r, runs s !! id = Some r ->
    if in_review s systemID docIDs r
    then exists b, stale_review check s r = Ok b /\ runs s' !! id = Some (if b : bool then ended now Cancelled r else r)
    else runs s' !! id = Some r.
Proof.
  unfold reconcileDocumentChangesInTx. intros H. apply reconcile_loop_runs in H as (R & Hin & Hout).
  - split; [done|]. intros id r Hr. apply elem_of_map_to_list in Hr as Hl. destruct (in_review s systemID docIDs r) eqn:E.
    + apply Hin, list_elem_of_filter. done.
    + rewrite Hout; [done|]. intros ([i q] & -> & Hi)%list_elem_of_fmap. apply list_elem_of_filter in Hi as [Hf Hi].
      apply elem_of_map_to_list in Hi. cbn in *. congruence.
  - eapply sublist_NoDup; [apply (NoDup_fst_map_to_list (runs s))|]. apply fmap_sublist, sublist_filter.
  - intros id r Hi. apply list_elem_of_filter in Hi as [_ Hi]. by apply elem_of_map_to_list.
Qed.

(** ** What a write changes *)

(** Only the world differs. *)
Definition writes s s' : Prop := s' = with_world (fun _ => world s') s.
Lemma writes_refl s : writes s s.
Proof. by destruct s. Qed.
Lemma writes_trans s1 s2 s3 : writes s1 s2 -> writes s2 s3 -> writes s1 s3.
Proof. unfold writes. intros -> ->. done. Qed.
Lemma update_where_writes docID cond f s b s' : update_where docID cond f s = (b, s') -> writes s s'.
Proof. unfold update_where. destruct (docs _ !! _); [destruct (cond m)|]; intros [= <- <-]; [done|apply writes_refl..]. Qed.
Lemma update_where_true docID cond f s s' m :
  update_where docID cond f s = (true, s') -> docs (taxonomy (world s)) !! docID = Some m ->
  cond m = true /\ writes s s' /\ docs (taxonomy (world s')) !! docID = Some (f m).
Proof.
  intros H Hm. pose proof (update_where_writes _ _ _ _ _ _ H) as Hw. unfold update_where in H. rewrite Hm in H.
  destruct (cond m) eqn:Ec; [|by injection H]. injection H as <-. split_and!; try done. cbn. by rewrite lookup_insert_eq.
Qed.

Lemma resolve_value_spec now systemID c s c' s' :
  resolve_value P now systemID c s = Ok (c', s') ->
  writes s s' /\ c' = set_ValueID (ValueID c') c /\
  docs (taxonomy (world s')) = docs (taxonomy (world s)) /\
  document_correspondents (taxonomy (world s')) = document_correspondents (taxonomy (world s)) /\
  document_tags (taxonomy (world s')) = document_tags (taxonomy (world s)) /\
  (ValueID c <> 0 -> ValueID c' = ValueID c).
Proof.
  assert (Hid : c = set_ValueID (ValueID c) c) by (by destruct c).
  unfold resolve_value. intros H. destruct (named_table (Field c)) as [table|];
    [|injection H as <- <-; split_and!; [apply writes_refl|done..]].
  destruct (ValueID c =? 0) eqn:E; [|injection H as <- <-; split_and!; [apply writes_refl|done..]].
  apply bind_Ok in H as ([id t] & Hu & H). injection H as <- <-.
  destruct (UpsertByName _ _ _ _ _ _ _) as [[i u]|] eqn:Eu; [|done]. injection Hu as -> ->.
  apply Upsert_rest in Eu as (E1 & E2 & E3 & _). bool_simpl. split_and!; done.
Qed.

(** The written row: the revision of its field is higher, the source columns are the same. *)
Lemma write_field_row now docID systemID c reviewed s s' m :
  write_field P now docID systemID c reviewed s = Ok (true, s') ->
  docs (taxonomy (world s)) !! docID = Some m -> Field c <> "custom_field" ->
  (Field c = "correspondent" -> 0 < ValueID c /\ in_order (taxonomy (world s)) docID "sender" = []) ->
  writes s s' /\ exists m', docs (taxonomy (world s')) !! docID = Some m' /\
    row_revision (Field c) m < row_revision (Field c) m' /\ source_revision m' = source_revision m /\
    original_blob m' = original_blob m.
Proof.
  intros H Hm Hcf Hcorr. unfold write_field in H.
  case_bool_decide as E; [|clear E; case_bool_decide as E; [|clear E; case_bool_decide as E; [done|clear E;
    case_bool_decide as E; [|clear E; case_bool_decide as E; [|clear E; case_bool_decide as E; [|done]]]]]];
    unfold row_revision; rewrite E; literals.
  - destruct (update_where _ _ _ _) as [b s1] eqn:Eu. guards_in H. injection H as -> <-.
    eapply update_where_true in Eu as (_ & Hw & Hd); [|done]. split; [done|]. eexists. split; [done|]. cbn. by split_and!; [lia|..].
  - destruct (Hcorr E) as [Hpos Hnone]. apply bind_Ok in H as (t & Ht & H).
    destruct (SetPrimaryCorrespondent _ _ _ _) as [t0|] eqn:Es; [|done]. injection Ht as ->.
    apply SetPrimary_docs in Es; [|done..]. injection H as H.
    assert (Ht : docs (taxonomy (world (set_taxonomy t s))) !! docID = Some (bump_corr 1 m)) by (cbn; by rewrite Es, lookup_alter_eq, Hm).
    eapply update_where_true in H as (_ & Hw & Hd); [|exact Ht]. split; [by eapply writes_trans; [|exact Hw]|].
    eexists. split; [exact Hd|]. cbn. by split_and!; [lia|..].
  - injection H as H. destruct reviewed; (eapply update_where_true in H as (_ & Hw & Hd); [|done]);
      (split; [done|]; eexists; split; [done|]; cbn; by split_and!; [lia|..]).
  - injection H as H. eapply update_where_true in H as (_ & Hw & Hd); [|done]. split; [done|]. eexists. split; [done|]. cbn. by split_and!; [lia|..].
  - unfold own_doc_tag in H. destruct (document_tags _ !! _) as [[]|]; guards_in H; try done; injection H as <-;
      (split; [done|]; eexists; split; [cbn; by rewrite lookup_alter_eq, Hm|]; cbn; by split_and!; [lia|..]).
Qed.

(** ** What the check grants *)
Record granted s (docID : Z) c (reviewer : option Principal.Principal) (base cur : Snapshot) : Prop := {
  gr_valid : validateDocumentChange P c = Ok tt;
  gr_base : Baseline c = Some base;
  gr_cur : Load s docID = Some cur;
  gr_source : SameSource cur base = true;
  gr_revision : FieldRevision (Field c) cur = FieldRevision (Field c) base;
  gr_title : Field c = "title" -> reviewer = None -> title_owner <$> docs (taxonomy (world s)) !! docID = Some "auto";
  gr_reviewer : forall a, reviewer = Some a ->
    canReviewDocument s a (sn_SystemID cur) docID PermChange = Ok tt /\
    exists id, documentChangeVocabulary P s (sn_SystemID cur) c (Some a) = Ok id;
  gr_destination : validateDestination P s docID (sn_SystemID cur) c = Ok tt;
  gr_supporters : exists owner, ownerActor s (OwnerID cur) (sn_SystemID cur) = Ok owner /\
    check_supporters s docID (sn_SystemID cur) (set_Role "member" owner) reviewer [] (Supporters c) = Ok tt;
}.
Lemma check_granted s docID c r reason :
  checkDocumentChange P s docID c r = Ok reason -> reason = review_reason c /\ exists base cur, granted s docID c r base cur.
Proof.
  unfold checkDocumentChange. intros H. apply bind_Ok in H as ([] & Hv & H).
  destruct (Baseline c) as [base|] eqn:Eb; [|done]. destruct (Load s docID) as [cur|] eqn:El; [|done]. guards_in H.
  apply bind_Ok in H as (owner & Ho & H). apply bind_Ok in H as ([] & Hr & H).
  apply bind_Ok in H as ([] & Hd & H). apply bind_Ok in H as ([] & Hs & H). injection H as <-.
  apply andb_true_iff in Hc as [Hc1 Hc2%Z.eqb_eq]. split; [done|]. exists base, cur. split; try done.
  - intros E1 E2. rewrite E1, E2, !bool_decide_true in Hc0 by done. cbn in Hc0. by bool_simpl.
  - intros a ->. apply bind_Ok in Hr as ([] & Hr1 & Hr). apply bind_Ok in Hr as (id & Hr2 & _). eauto.
  - by exists owner.
Qed.
(** A baseline whose field has moved on. *)
Lemma check_stale s docID c r base cur :
  Baseline c = Some base -> Load s docID = Some cur -> FieldRevision (Field c) cur <> FieldRevision (Field c) base ->
  checkDocumentChange P s docID c r = Err ErrStaleProposal.
Proof.
  intros Hb Hl Hne. unfold checkDocumentChange.
  assert (validateDocumentChange P c = Ok tt \/ validateDocumentChange P c = Err ErrStaleProposal) as [->| ->];
    [unfold validateDocumentChange; repeat case_match; auto| |done].
  cbn [mbind result_bind]. rewrite Hb, Hl, (proj2 (Z.eqb_neq _ _) Hne), andb_false_r. done.
Qed.
Lemma stale_review_moved s docID r c d base cur :
  DocID r = Some docID -> documents s !! docID = Some d -> documentChangeFromVars P (Vars r) = Ok c ->
  Baseline c = Some base -> Load s docID = Some cur -> FieldRevision (Field c) cur <> FieldRevision (Field c) base ->
  stale_review check s r = Ok true.
Proof.
  intros Hd Hdoc Hv Hb Hl Hne. unfold stale_review, change_check. rewrite Hd, Hdoc, Hv.
  destruct (doc_trashed d); [done|]. by rewrite (check_stale s docID c None base cur).
Qed.
Lemma supporters_spec s docID systemID owner reviewer seen refs :
  check_supporters s docID systemID owner reviewer seen refs = Ok tt ->
  forall r, r ∈ refs -> DocumentID r <> docID /\ Load s (DocumentID r) = Some (ref_Snapshot r) /\
    canReviewDocument s owner systemID (DocumentID r) PermView = Ok tt /\
    forall a, reviewer = Some a -> canReviewDocument s a systemID (DocumentID r) PermView = Ok tt.
Proof.
  revert seen; induction refs as [|r0 refs IH]; intros seen H r Hr; [by apply not_elem_of_nil in Hr|].
  cbn [check_supporters] in H. guards_in H. apply bind_Ok in H as (o & _ & H). apply bind_Ok in H as ([] & H1 & H).
  apply bind_Ok in H as ([] & H2 & H). apply elem_of_cons in Hr as [->|Hr]; [|by eapply IH].
  bool_simpl. split_and!; [done|by subst|done|]. by intros a ->.
Qed.

(** ** The write *)
Lemma write_Ok now docID systemID c reviewed s s' :
  writeDocumentChangeValue P now docID systemID c reviewed s = Ok s' ->
  exists c1 s1 s2 s3 t, resolve_value P now systemID c s = Ok (c1, s1) /\
    write_field P now docID systemID c1 reviewed s1 = Ok (true, s2) /\ 0 < systemID /\
    reconcileDocumentChangesInTx check now systemID [docID] s2 = Ok s3 /\
    enqueue_move (placed s3) docID (taxonomy (world s3)) = Ok t /\ s' = set_taxonomy t s3.
Proof.
  unfold writeDocumentChangeValue. intros H. apply bind_Ok in H as ([c1 s1] & H1 & H).
  apply bind_Ok in H as ([changed s2] & H2 & H). destruct changed; [|done].
  apply bind_Ok in H as (s3 & H3 & H). apply bind_Ok in H as (t & H4 & H). injection H as <-.
  unfold ReconcileDocumentChangesInTx in H3. guards_in H3. bool_simpl.
  destruct (enqueue_move _ _ _) as [t0|] eqn:Et; [|done]. injection H4 as ->. by exists c1, s1, s2, s3, t.
Qed.
Lemma enqueue_move_Ok document docID t t' :
  enqueue_move document docID t = Ok t' -> docs t' = docs t /\ document_tags t' = document_tags t /\
    document_correspondents t' = document_correspondents t /\
    forall systemID, document docID = Some (systemID, false) -> (docID, systemID) ∈ moves t'.
Proof.
  unfold enqueue_move. intros H. destruct (document docID) as [[sys trashed]|]; [|done]. injection H as <-.
  destruct trashed; split_and!; try done. intros systemID [= ->]. cbn. apply elem_of_app. right. by left.
Qed.

(** Row ids of SQLite tables are positive. *)
Definition positive_ids s : Prop := forall k, is_Some (correspondents (taxonomy (world s)) !! k) -> 0 < k.

Lemma FieldRevision_row s docID cur : Load s docID = Some cur ->
  exists d m, documents s !! docID = Some d /\ doc_trashed d = false /\ docs (taxonomy (world s)) !! docID = Some m /\
    sn_SystemID cur = doc_system d /\ OwnerID cur = doc_owner d /\ SourceRevision cur = source_revision m /\
    SourceBlob cur = original_blob m /\ forall f, FieldRevision f cur = row_revision f m.
Proof.
  unfold Load. intros H. destruct (documents s !! docID) as [d|]; [|done].
  destruct (docs _ !! docID) as [m|]; [|done]. destruct (doc_trashed d) eqn:Et; [done|]. injection H as <-. by exists d, m.
Qed.
Lemma Load_row s docID d m :
  documents s !! docID = Some d -> doc_trashed d = false -> docs (taxonomy (world s)) !! docID = Some m ->
  exists cur, Load s docID = Some cur /\ sn_SystemID cur = doc_system d /\ OwnerID cur = doc_owner d /\
    SourceRevision cur = source_revision m /\ SourceBlob cur = original_blob m /\
    forall f, FieldRevision f cur = row_revision f m.
Proof. intros Hd Ht Hm. unfold Load. rewrite Hd, Ht, Hm. by eexists. Qed.

(** What a suggested id becomes before the write. *)
Definition resolves c c1 : Prop := c1 = set_ValueID (ValueID c1) c /\ (ValueID c <> 0 -> ValueID c1 = ValueID c).
Lemma correspondent_ready now docID systemID c c0 r base cur s s1 c1 :
  granted s docID c r base cur -> resolves c c0 -> Field c = "correspondent" -> (ValueID c = 0 -> ValueID c0 = 0) ->
  resolve_value P now systemID c0 s = Ok (c1, s1) -> positive_ids s ->
  0 < ValueID c1 /\ in_order (taxonomy (world s1)) docID "sender" = [].
Proof.
  intros G [R1 R2] Hf Hz Hres Hpos. pose proof (resolve_value_spec _ _ _ _ _ _ Hres) as (_ & _ & _ & Ec & _ & Hk).
  split; [|].
  - assert (Hf0 : Field c0 = "correspondent") by (by rewrite R1). unfold resolve_value, named_table in Hres.
    rewrite Hf0 in Hres. rewrite bool_decide_false, bool_decide_true in Hres by done.
    destruct (ValueID c0 =? 0) eqn:E0.
    + apply bind_Ok in Hres as ([i t] & Hu & Hres). destruct (UpsertByName _ _ _ _ _ _ _) as [[j u]|] eqn:Eu; [|done].
      injection Hu as -> ->. injection Hres as <- _. cbn. eapply Upsert_row in Eu; [done|exact Hpos].
    + injection Hres as <- _. bool_simpl. destruct (decide (ValueID c = 0)) as [Hc|Hc]; [by specialize (Hz Hc)|].
      rewrite (R2 Hc). pose proof (gr_valid _ _ _ _ _ _ G) as Hv. unfold validateDocumentChange in Hv. guards_in Hv.
      bool_simpl. lia.
  - pose proof (gr_destination _ _ _ _ _ _ G) as Hd. unfold validateDestination in Hd. apply bind_Ok in Hd as (b & Hb & Hd).
    destruct b; [|done]. unfold eligible in Hb. rewrite Hf, bool_decide_false, bool_decide_true in Hb by done.
    destruct (docs _ !! _); [|done]. injection Hb as Hb. bool_simpl. unfold in_order, role_rows in *. by rewrite Ec.
Qed.

(** A write that was granted raises the field's revision and cancels every running review
    of the document that is bound to the same state of that field. *)
Lemma write_consumes now docID systemID c c0 reviewed r base cur s s' :
  granted s docID c r base cur -> resolves c c0 -> (Field c = "correspondent" -> ValueID c = 0 -> ValueID c0 = 0) ->
  writeDocumentChangeValue P now docID systemID c0 reviewed s = Ok s' -> Field c <> "custom_field" -> positive_ids s ->
  (exists cur', Load s' docID = Some cur' /\ FieldRevision (Field c) base < FieldRevision (Field c) cur' /\
     SameSource cur' cur = true) /\
  forall id q, runs s !! id = Some q ->
    (in_review s systemID [docID] q = false -> runs s' !! id = Some q) /\
    (in_review s systemID [docID] q = true -> forall c', documentChangeFromVars P (Vars q) = Ok c' ->
       Field c' = Field c -> Baseline c' = Some base -> runs s' !! id = Some (ended now Cancelled q)).
Proof.
  intros G R Hz H Hcf Hpos. apply write_Ok in H as (c1 & s1 & s2 & s3 & t & Hres & Hw & _ & Hrec & Hmove & ->).
  pose proof (resolve_value_spec _ _ _ _ _ _ Hres) as (W1 & Ec1 & Ed & _).
  assert (Hf1 : Field c1 = Field c) by (rewrite Ec1, (proj1 R); done).
  destruct (FieldRevision_row _ _ _ (gr_cur _ _ _ _ _ _ G)) as (d & m & Hd & Ht & Hm & Es & Eo & Er & Eb & Ef).
  apply (write_field_row _ _ _ _ _ _ _ m) in Hw as (W2 & m2 & Hm2 & Hrev & E1 & E2);
    [|by rewrite Ed|congruence|rewrite Hf1; intros E; eapply correspondent_ready; eauto].
  rewrite Hf1 in Hrev. pose proof (writes_trans _ _ _ W1 W2) as W. unfold writes in W.
  apply reconcile_runs in Hrec as [R3 Hruns]. pose proof R3 as (_ & _ & _ & D3 & X3).
  apply enqueue_move_Ok in Hmove as (M1 & _).
  assert (Hd2 : documents s2 !! docID = Some d) by (by rewrite W).
  destruct (Load_row s2 docID d m2 Hd2 Ht Hm2) as (cur2 & L2 & F1 & F2 & F3 & F4 & F5).
  assert (Hlt : FieldRevision (Field c) base < FieldRevision (Field c) cur2).
  { rewrite F5, <- (gr_revision _ _ _ _ _ _ G), Ef. done. }
  split.
  - exists cur2. split; [|split; [done|]].
    + rewrite <- L2. transitivity (Load s3 docID); [|by apply Load_reads]. unfold Load. cbn. by rewrite M1.
    + unfold SameSource. rewrite F1, F2, F3, F4, Es, Eo, Er, Eb, E1, E2, !Z.eqb_refl, bool_decide_true by done. done.
  - intros id q Hq. assert (Hq2 : runs s2 !! id = Some q) by (by rewrite W).
    assert (Hin : in_review s2 systemID [docID] q = in_review s systemID [docID] q) by (by rewrite W).
    specialize (Hruns id q Hq2). rewrite Hin in Hruns. split; intros Hir; rewrite Hir in Hruns; [done|].
    intros c' Hc' Hfc Hbase. destruct Hruns as (b & Hb & Hrun). cbn [set_taxonomy with_world runs]. rewrite Hrun.
    assert (Hdoc : DocID q = Some docID).
    { unfold in_review in Hir. bool_simpl. destruct (bool_decide ([docID] = [])) eqn:En; [by bool_simpl|]. cbn in *.
      destruct (DocID q) as [x|]; [|done]. bool_simpl. f_equal. by apply list_elem_of_singleton. }
    rewrite (stale_review_moved s2 docID q c' d base cur2) in Hb; try done; [by injection Hb as <-|].
    rewrite Hfc. lia.
Qed.

(** What the write leaves in the written field. *)
Definition written (reviewed : bool) c (docID : Z) (t t' : tables) : Prop :=
  exists m m', docs t !! docID = Some m /\ docs t' !! docID = Some m' /\
    (Field c = "title" -> title m' = Value c /\ title_owner m' = (if reviewed then "human" else "auto") /\
       (reviewed = false -> title_owner m = "auto")) /\
    (Field c = "jd_category" -> category m' = ValueID c) /\
    (Field c = "language" -> languages m' = Format (U P) (Value c) /\
       languages_locked m' = reviewed && negb (bool_decide (languages m' = ""))) /\
    (Field c = "tag" -> document_tags t' !! (docID, ValueID c) = Some false) /\
    (Field c = "correspondent" -> 0 < ValueID c -> PrimaryCorrespondentID t' docID = Some (ValueID c)) /\
    forall d, d <> docID -> docs t' !! d = docs t !! d.

Lemma place_all_docs doc role from l t d : d <> doc -> docs (place_all doc role from l t) !! d = docs t !! d.
Proof.
  intros Hd. revert from t; induction l as [|x l IH]; intros from t; cbn [place_all]; [done|]. rewrite IH. unfold place.
  case_bool_decide; [done|]. cbn. by rewrite lookup_alter_ne.
Qed.
Lemma SetPrimary_other document doc corr t t' d :
  SetPrimaryCorrespondent document doc corr t = Ok t' -> d <> doc -> docs t' !! d = docs t !! d.
Proof.
  unfold SetPrimaryCorrespondent. intros H Hd. destruct (corr <=? 0).
  { injection H as <-. cbn. by rewrite lookup_alter_ne. }
  apply bind_Ok in H as (t1 & Ha & H). assert (t' = place_all doc "sender" 0 (corr :: filter (fun x : Z => x <> corr) (in_order t1 doc "sender")) t1) as -> by (by injection H).
  rewrite place_all_docs by done. unfold AppendCorrespondent in Ha. guards_in Ha; injection Ha as <-; [done|].
  cbn. by rewrite lookup_alter_ne.
Qed.
Lemma update_where_docs docID cond f s s' d :
  update_where docID cond f s = (true, s') -> d <> docID -> docs (taxonomy (world s')) !! d = docs (taxonomy (world s)) !! d.
Proof.
  unfold update_where. intros H Hd. destruct (docs _ !! docID) as [m|]; [|done]. destruct (cond m); [|done].
  injection H as <-. cbn. by rewrite lookup_insert_ne.
Qed.
Lemma update_where_relations docID cond f s b s' :
  update_where docID cond f s = (b, s') ->
  document_correspondents (taxonomy (world s')) = document_correspondents (taxonomy (world s)).
Proof. unfold update_where. intros H. destruct (docs _ !! docID); [destruct (cond m)|]; by injection H as _ <-. Qed.

Lemma write_field_writes now docID systemID c reviewed s b s' :
  write_field P now docID systemID c reviewed s = Ok (b, s') -> writes s s'.
Proof.
  unfold write_field. intros H.
  case_bool_decide; [|case_bool_decide; [|case_bool_decide; [|case_bool_decide; [|case_bool_decide; [|case_bool_decide; [|done]]]]]].
  - destruct (update_where _ _ _ _) eqn:Eu. guards_in H. injection H as <- <-. by eapply update_where_writes.
  - apply bind_Ok in H as (t & _ & H). injection H as H. eapply writes_trans; [|by eapply update_where_writes]. done.
  - apply bind_Ok in H as (same & _ & H). guards_in H. apply bind_Ok in H as ([h typed] & _ & H).
    apply bind_Ok in H as (cs & _ & H). by injection H as <- <-.
  - injection H as H. destruct reviewed; by eapply update_where_writes.
  - injection H as H. by eapply update_where_writes.
  - unfold own_doc_tag in H. guards_in H; injection H as <- <-; done || apply writes_refl.
Qed.
Lemma write_field_written now docID systemID c reviewed s s' m :
  write_field P now docID systemID c reviewed s = Ok (true, s') ->
  docs (taxonomy (world s)) !! docID = Some m -> written reviewed c docID (taxonomy (world s)) (taxonomy (world s')).
Proof.
  intros H Hm. unfold write_field in H. exists m.
  case_bool_decide as E; [|clear E; case_bool_decide as E; [|clear E; case_bool_decide as E; [|clear E;
    case_bool_decide as E; [|clear E; case_bool_decide as E; [|clear E; case_bool_decide as E; [|done]]]]]]; rewrite E.
  - destruct (update_where _ _ _ _) as [b s1] eqn:Eu. guards_in H. injection H as -> <-.
    pose proof (fun d => update_where_docs _ _ _ _ _ d Eu) as Hd. eapply update_where_true in Eu as (_ & _ & Hm'); [|done].
    eexists. split_and!; try done.
  - apply bind_Ok in H as (t & Ht & H). destruct (SetPrimaryCorrespondent _ _ _ _) as [t0|] eqn:Es; [|done]. injection Ht as ->.
    injection H as H. pose proof (update_where_relations _ _ _ _ _ _ H) as Hr.
    pose proof (fun d => update_where_docs _ _ _ _ _ d H) as Hd. cbn in Hr, Hd.
    assert (exists m', docs (taxonomy (world s')) !! docID = Some m') as [m' Hm'].
    { unfold update_where in H. cbn in H. destruct (docs t !! docID); [|done]. injection H as <-. cbn. rewrite lookup_insert_eq. eauto. }
    exists m'. split_and!; try done.
    + intros _ Hpos. unfold PrimaryCorrespondentID, in_order, role_rows. rewrite Hr.
      apply (SetPrimary_order _ _ _ _ _ Hpos) in Es as [Es _]. exact Es.
    + intros d Hne. rewrite (Hd d Hne). by eapply SetPrimary_other.
  - apply bind_Ok in H as (same & _ & H). guards_in H. apply bind_Ok in H as ([h typed] & _ & H).
    apply bind_Ok in H as (cs & _ & H). injection H as <-. exists m. by split_and!.
  - injection H as H. destruct reviewed; (pose proof (fun d => update_where_docs _ _ _ _ _ d H) as Hd;
      eapply update_where_true in H as (Hcond & _ & Hm'); [|done]; eexists; split_and!; try done).
    intros _. cbn. split_and!; try done. intros _. apply andb_true_iff in Hcond as [Hcond _]. by bool_simpl.
  - injection H as H. pose proof (fun d => update_where_docs _ _ _ _ _ d H) as Hd.
    eapply update_where_true in H as (_ & _ & Hm'); [|done]. eexists. split_and!; done.
  - unfold own_doc_tag in H. destruct (document_tags _ !! _) as [[]|] eqn:Et; guards_in H; try done; injection H as <-;
      (eexists; split_and!; try done; [cbn; by rewrite lookup_alter_eq, Hm|intros _; cbn; by rewrite lookup_insert_eq|
        intros d Hd; cbn; by rewrite lookup_alter_ne]).
Qed.

Lemma write_written now docID systemID c reviewed s s' m :
  writeDocumentChangeValue P now docID systemID c reviewed s = Ok s' -> docs (taxonomy (world s)) !! docID = Some m ->
  exists c1, resolves c c1 /\ written reviewed c1 docID (taxonomy (world s)) (taxonomy (world s')) /\
    forall sys, placed s docID = Some (sys, false) -> (docID, sys) ∈ moves (taxonomy (world s')).
Proof.
  intros H Hm. apply write_Ok in H as (c1 & s1 & s2 & s3 & t & Hres & Hw & _ & Hrec & Hmove & ->).
  pose proof (resolve_value_spec _ _ _ _ _ _ Hres) as (W1 & Ec1 & Ed & _ & _ & Hk).
  pose proof (writes_trans _ _ _ W1 (write_field_writes _ _ _ _ _ _ _ _ Hw)) as W.
  apply reconcile_runs in Hrec as [(_ & _ & _ & D3 & X3) _]. apply enqueue_move_Ok in Hmove as (M1 & M2 & M3 & M4).
  assert (Hd2 : documents s2 = documents s) by (by rewrite W).
  exists c1. split; [done|]. apply (write_field_written _ _ _ _ _ _ _ m) in Hw; [|by rewrite Ed]. split.
  - destruct Hw as (m0 & m' & Q0 & Q1 & Q2 & Q3 & Q4 & Q5 & Q6 & Q7). exists m0, m'. cbn. rewrite M1, M2.
    unfold PrimaryCorrespondentID, in_order, role_rows in *. rewrite M3, X3. rewrite Ed in *. by split_and!.
  - intros sys Hp. cbn. apply M4. unfold placed. rewrite D3, Hd2. exact Hp.
Qed.
End Facts.
