(* ===== verification/DocumentChangeProps.v ===== *)
(** The properties of reviewed and automatic document changes, with concrete runs. *)
From Stdlib Require Import SpecFloat.
From S2P Require Import Prelude GoStd Utf8 Sqlite Systems Authz Slug CustomField Lang Taxonomy TaxonomyFacts Principal ApprovalSpec Approvals ApprovalRunner ApprovalFacts ApprovalProps DocumentChange DocumentChangeFacts.

Lemma foldl_pick {A} (f : A -> A -> A) (x : A) l :
  (forall a b, f a b = a \/ f a b = b) -> foldl f x l ∈ x :: l.
Proof.
  intros Hf. revert x; induction l as [|y l IH]; intros x; cbn [foldl]; [by left|].
  specialize (IH (f x y)). apply elem_of_cons in IH as [->|H]; [|by right; right].
  destruct (Hf x y) as [->| ->]; [by left|by right; left].
Qed.

Section Props.
Context (P : platform).
Implicit Types (s : state) (c : DocumentChange).
Abbreviation check := (change_check P).

Lemma apply_task_spec s id rev tid t :
  apply_task s id rev = Some (tid, t) ->
  tasks s !! tid = Some t /\ RunID t = id /\ StateKey t = "review" /\ StateRevision t = rev /\
  t_Status t = Resolved /\ ResolvedChoice t = Some "apply".
Proof.
  unfold apply_task. destruct (filter _ _) as [|x l] eqn:E; [done|]. intros H.
  assert (Hin : (tid, t) ∈ x :: l).
  { injection H as <-. apply foldl_pick. intros a b. unfold newest_task. destruct (a.1 <? b.1); auto. }
  rewrite <- E in Hin. apply list_elem_of_filter in Hin as [Hf Hin]. apply elem_of_map_to_list in Hin. cbn in Hf. by bool_simpl.
Qed.
Lemma currentActor_Some now s a systemID r : currentActor now s (Some a) systemID = Ok r -> exists a', r = Some a' /\ p_UserID a' = p_UserID a.
Proof.
  unfold currentActor. intros H. destruct (_ && _); [injection H as <-; eauto|]. guards_in H.
  apply bind_Ok in H as ([bound cur] & Ht & H). guards_in H. injection H as <-. exists cur. split; [done|].
  unfold token_current in Ht. guards_in Ht; injection Ht as _ <-; done.
Qed.

Lemma apply_Ok now id run c s s' :
  applyDocumentChange P now (id, run) c s = Ok s' ->
  exists docID tid t proof reviewer base cur vid,
    DocID run = Some docID /\ PolicyVersion c = ReviewPolicyVersion /\ CurrentState run = "apply" /\
    apply_task s id (revision run - 2) = Some (tid, t) /\ Proof_of t = Some proof /\
    currentActor now s (Some proof) (SystemID run) = Ok (Some reviewer) /\
    granted P s docID c (Some reviewer) base cur /\
    documentChangeVocabulary P s (SystemID run) c (Some reviewer) = Ok vid /\
    writeDocumentChangeValue P now docID (SystemID run) (set_ValueID vid c) true s = Ok s'.
Proof.
  unfold applyDocumentChange. cbn [fst snd]. intros H. destruct (DocID run) as [docID|]; [|done]. guards_in H.
  apply bind_Ok in H as (d & _ & H). guards_in H. apply bind_Ok in H as (actor & Ha & H).
  apply bind_Ok in H as (reason & Hck & H). apply bind_Ok in H as (vid & Hv & H).
  destruct (currentActor_Some _ _ _ _ _ Ha) as (reviewer & -> & _).
  apply check_granted in Hck as (_ & base & cur & G). bool_simpl. by exists docID, z, t, p0, reviewer, base, cur, vid.
Qed.

Lemma canReview_Ok s a systemID docID permission :
  canReviewDocument s a systemID docID permission = Ok tt ->
  can (authz_of s) (authz_principal s a systemID) KindDocument docID permission = Ok tt.
Proof.
  unfold canReviewDocument. destruct (can (authz_of s) (authz_principal s a systemID) KindDocument docID permission) as [[]|]; done.
Qed.

(** A suggestion's id after the vocabulary lookup. *)
Lemma vocabulary_resolves s systemID c a vid :
  documentChangeVocabulary P s systemID c a = Ok vid -> resolves c (set_ValueID vid c).
Proof.
  unfold documentChangeVocabulary. intros H. split; [done|]. intros Hz. cbn.
  rewrite (proj2 (Z.eqb_neq _ _) Hz) in H. by injection H.
Qed.
Lemma vocabulary_correspondent s systemID c a vid :
  documentChangeVocabulary P s systemID c a = Ok vid -> Field c = "correspondent" -> ValueID c = 0 -> vid = 0.
Proof.
  unfold documentChangeVocabulary. intros H Hf Hz. rewrite Hz, Hf in H. cbn [negb Z.eqb] in H.
  rewrite bool_decide_false in H by done. by injection H.
Qed.



(** ** The engine's law *)
Lemma supersede_world now id (f : change_world -> change_world) s :
  supersede now id (with_world f s) = with_world f (supersede now id s).
Proof. unfold supersede. cbn. destruct (runs s !! id); done. Qed.
Lemma sup_steps_world self f s s' :
  rtc (sup_step self) s s' -> rtc (sup_step self) (with_world f s) (with_world f s').
Proof.
  induction 1 as [s|s s1 s' (now & id & r & Hr & Hrun & Hne & ->) _ IH]; [constructor|].
  eapply rtc_l; [|exact IH]. exists now, id, r. split_and!; try done. by rewrite supersede_world.
Qed.

(** The document-change handler obeys the law the engine's invariant asks of effects:
    whatever it writes, run while its run is still in the planned state, it leaves
    definitions, runs, tasks and transitions alone, but for superseding running reviews of
    other runs; the engine with this handler keeps its invariant. *)
Theorem document_change_lawful : LawfulRegistry (New (documentChangeHandler P)).
Proof.
  apply New_lawful. intros [id run] st trigger res H f now s s' r Hf He Hr Hcs. cbn [fst snd] in *.
  unfold documentChangeHandler in H. apply bind_Ok in H as (c & _ & H). injection H as <-. injection Hf as <-.
  apply apply_Ok in He as (docID & tid & t & proof & reviewer & base & cur & vid & Hd & _ & Hst & _ & _ & _ & _ & _ & Hw).
  apply write_Ok in Hw as (c1 & s1 & s2 & s3 & tx & Hres & Hwf & _ & Hrec & _ & ->).
  pose proof (resolve_value_spec _ _ _ _ _ _ _ Hres) as (W1 & _).
  pose proof (writes_trans _ _ _ W1 (write_field_writes _ _ _ _ _ _ _ _ _ Hwf)) as W.
  assert (R : rtc (sup_step (Some id)) s2 s3).
  { eapply reconcile_sup; [|exact Hrec]. intros i q [= <-] Hq Hrev. rewrite W in Hq. cbn in Hq. congruence. }
  exists (with_world (fun _ => world s) s3). split; [|by split_and!].
  apply (sup_steps_world _ (fun _ => world s)) in R. rewrite W in R. by destruct s.
Qed.

(** ** Effects *)

(** An applied change leaves the suggested value: a title that is now the human's, a
    category, languages that are locked unless empty, a tag or a first sender (the suggested
    one or the one its name gave); other documents' rows are untouched and a render job of
    the document is queued. *)
Theorem applied_value now id run c s s' docID m :
  applyDocumentChange P now (id, run) c s = Ok s' -> DocID run = Some docID ->
  docs (taxonomy (world s)) !! docID = Some m ->
  exists c1, resolves c c1 /\ written P true c1 docID (taxonomy (world s)) (taxonomy (world s')) /\
    forall sys, placed s docID = Some (sys, false) -> (docID, sys) ∈ moves (taxonomy (world s')).
Proof.
  intros (d & tid & t & proof & reviewer & b & cur & vid & Hd & _ & _ & _ & _ & _ & G & Hv & Hw)%apply_Ok Hd' Hm.
  rewrite Hd in Hd'. injection Hd' as ->.
  destruct (write_written _ _ _ _ _ _ _ _ _ Hw Hm) as (c1 & [R1 R2] & Hwr & Hmv). exists c1. split; [|done].
  destruct (vocabulary_resolves _ _ _ _ _ Hv) as [_ R]. cbn in R, R2. split; [by rewrite R1|].
  intros Hz. rewrite R2; [by apply R|]. rewrite R; done.
Qed.

(** What only an empty place admits. *)
Lemma destination_empty s docID systemID c m :
  validateDestination P s docID systemID c = Ok tt -> docs (taxonomy (world s)) !! docID = Some m ->
  (Field c = "language" -> languages_locked m = false) /\
  (Field c = "correspondent" -> in_order (taxonomy (world s)) docID "sender" = []) /\
  (Field c = "jd_category" -> exists d sys, documents s !! docID = Some d /\ jd_systems (dir s) !! doc_system d = Some sys /\
     category m = default 0 (inbox_category_id sys)).
Proof.
  unfold validateDestination, eligible. intros H Hm. apply bind_Ok in H as (b & Hb & H). destruct b; [|done]. rewrite Hm in Hb.
  split_and!; intros E; rewrite E in Hb; revert Hb; literals; intros Hb.
  - injection Hb as Hb. by bool_simpl.
  - injection Hb as Hb. by bool_simpl.
  - destruct (documents s !! docID) as [d|]; [|done]. cbn in Hb. destruct (jd_systems (dir s) !! doc_system d) as [sys|] eqn:Es; [|done].
    injection Hb as Hb. bool_simpl. by exists d, sys.
Qed.

(** The automatic path writes nothing unless the setting allows it, the suggestion comes
    from a known source and reaches its threshold, and it is as fresh as a reviewed one; a
    title it replaces was automatic and stays so, languages were not locked and are not
    afterwards, a sender or category is only filled in. *)
Theorem automatic_spec now docID c s b s' :
  ApplyAutomaticDocumentChangeInTx P now docID c s = Ok (b, s') ->
  if b then
    ResolveAutoApply s = Ok true /\ (exists t, Threshold c = Some t /\ SFltb (c_Confidence c) t = false) /\
    (Source c = "llm" \/ Source c = "archive") /\
    exists base cur m m', Baseline c = Some base /\ Load s docID = Some cur /\ SameSource cur base = true /\
      FieldRevision (Field c) cur = FieldRevision (Field c) base /\
      docs (taxonomy (world s)) !! docID = Some m /\ docs (taxonomy (world s')) !! docID = Some m' /\
      (Field c = "title" -> title_owner m = "auto" /\ title_owner m' = "auto" /\ title m' = Value c) /\
      (Field c = "language" -> languages_locked m = false /\ languages_locked m' = false) /\
      (Field c = "correspondent" -> in_order (taxonomy (world s)) docID "sender" = []) /\
      (Field c = "jd_category" -> category m' = ValueID c)
  else s' = s.
Proof.
  unfold ApplyAutomaticDocumentChangeInTx. intros H. apply bind_Ok in H as (enabled & He & H).
  destruct (negb enabled || negb (reaches c)) eqn:Ee; [by injection H as <- <-|]. guards_in H.
  apply bind_Ok in H as (reason & Hck & H). destruct (Baseline c) as [base|] eqn:Eb; [|done].
  apply bind_Ok in H as (s1 & Hw & H). injection H as <- <-.
  apply check_granted in Hck as (_ & base' & cur & G). pose proof (gr_base _ _ _ _ _ _ _ G) as Eb'. rewrite Eb in Eb'. injection Eb' as <-.
  apply orb_false_iff in Ee as [->%negb_false_iff Er%negb_false_iff]. split; [done|]. split.
  { unfold reaches in Er. destruct (Threshold c) as [t|]; [|done]. exists t. by apply negb_true_iff in Er. }
  split; [apply orb_true_iff in Hc as [Hc|Hc]; bool_simpl; auto|].
  destruct (FieldRevision_row _ _ _ (gr_cur _ _ _ _ _ _ _ G)) as (d & m & Hd & Ht & Hm & _).
  destruct (write_written _ _ _ _ _ _ _ _ _ Hw Hm) as (c1 & [R1 R2] & (m0 & m' & Q0 & Q1 & Q2 & Q3 & Q4 & Q5 & Q6 & Q7) & _).
  rewrite Hm in Q0. injection Q0 as <-. assert (Hf : Field c1 = Field c) by (by rewrite R1). rewrite Hf in *.
  destruct (destination_empty _ _ _ _ _ (gr_destination _ _ _ _ _ _ _ G) Hm) as (D1 & D2 & D3).
  exists base, cur, m, m'. split_and!; try done; try apply G.
  - intros E. destruct (Q2 E) as (A1 & A2 & A3). split_and!; [by apply A3|done|]. rewrite A1. by rewrite R1.
  - intros E. destruct (Q4 E) as (_ & A2). split; [by apply D1|done].
  - intros E. rewrite (Q3 E). apply R2. pose proof (gr_valid _ _ _ _ _ _ _ G) as Hv.
    unfold validateDocumentChange in Hv. guards_in Hv. bool_simpl. unfold bad_value in *. intros Hz.
    rewrite E, Hz in *. done.
Qed.

(** ** A decision that lost the race *)
Lemma sweep_loop_other due s s' id :
  sweep_loop due s = Ok s' -> id ∉ due -> runs s' !! id = runs s !! id.
Proof.
  revert s; induction due as [|i due IH]; intros s H Hn; cbn [sweep_loop] in H; [by injection H as <-|].
  apply not_elem_of_cons in Hn as [Hi Hn]. apply bind_Ok in H as (s1 & H1 & H). rewrite (IH _ H Hn). clear H IH.
  unfold enqueueAdvanceWithTrigger in H1. rewrite bool_decide_false in H1 by done.
  apply bind_Ok in H1 as (r & _ & H1). injection H1 as <-. cbn. by rewrite lookup_alter_ne.
Qed.
Lemma apply_moved now id run c s docID base cur :
  DocID run = Some docID -> Baseline c = Some base -> Load s docID = Some cur ->
  FieldRevision (Field c) cur <> FieldRevision (Field c) base -> exists e, applyDocumentChange P now (id, run) c s = Err e.
Proof.
  intros Hd Hb Hl Hne. destruct (applyDocumentChange P now (id, run) c s) as [s'|e] eqn:E; [|eauto]. exfalso.
  apply apply_Ok in E as (d & tid & t & proof & reviewer & b & cu & vid & Hd' & _ & _ & _ & _ & _ & G & _).
  rewrite Hd in Hd'. injection Hd' as <-. pose proof (gr_base _ _ _ _ _ _ _ G). pose proof (gr_cur _ _ _ _ _ _ _ G).
  pose proof (gr_revision _ _ _ _ _ _ _ G). congruence.
Qed.

(** An approved change whose document moved on between the answer and the write is never
    finished: every delivery fails, and the sweep, which reconciles only runs still in
    review, leaves the run running in its [apply] state. *)
Theorem stale_decision_stuck resolver id run c s docID base cur :
  runs s !! id = Some run -> Status run = Running -> CurrentState run = "apply" -> DeadlineAt run = None ->
  df_spec <$> defs s !! DefID run = Some DocumentChangeSpec -> documentChangeFromVars P (Vars run) = Ok c ->
  DocID run = Some docID -> Baseline c = Some base -> Load s docID = Some cur ->
  FieldRevision (Field c) cur <> FieldRevision (Field c) base ->
  (forall now trigger, exists e,
     advance (New (documentChangeHandler P)) resolver now id trigger (SystemID run) (Some (revision run)) s = Err e) /\
  (forall now s', TimeoutSweep check now s = Ok s' -> runs s' !! id = Some run).
Proof.
  intros Hr Hrun Hst Hdl Hspec Hv Hd Hb Hl Hne. split.
  - intros now trigger. destruct (defs s !! DefID run) as [d|] eqn:Ed; [|done]. injection Hspec as Hspec.
    destruct (apply_moved now id run c s docID base cur Hd Hb Hl Hne) as [e He]. exists e.
    unfold advance, plan_advance, loadRun, defByID. rewrite Hr. cbn [mbind result_bind]. rewrite !Z.eqb_refl, Hrun, Ed.
    cbn [negb andb mbind result_bind]. rewrite andb_false_r, bool_decide_true by done. cbn [negb]. rewrite Hst, Hspec.
    unfold plan_state. change (States DocumentChangeSpec !! "apply") with (Some (MkState documentChangeKind "" "" [] 0 {["success" := "end"]} ∅)).
    cbn [Kind]. rewrite bool_decide_false by done. change (New (documentChangeHandler P) !! documentChangeKind) with (Some (documentChangeHandler P)).
    unfold documentChangeHandler at 1. cbn [snd]. rewrite Hv. cbn [mbind result_bind res_Task Event On].
    rewrite bool_decide_false by done. rewrite lookup_singleton_eq.
    change (States DocumentChangeSpec !! "end") with (Some (MkState "end" "" "" [] 0 ∅ ∅)).
    cbn [mbind result_bind commit]. rewrite (proj2 (is_current_spec id run s)) by (by exists run). cbn [negb].
    unfold commit_move. cbn [Effect]. by rewrite He.
  - intros now s' H. unfold TimeoutSweep, sweep_tx in H. apply bind_Ok in H as (s2 & H & Hs'). injection Hs' as <-.
    apply bind_Ok in H as (s1 & H1 & H2). apply reconcile_runs in H1 as [_ H1]. specialize (H1 id run Hr).
    assert (Hin : in_review s 0 [] run = false).
    { unfold in_review. rewrite (bool_decide_false (CurrentState run = "review")) by (by rewrite Hst). by rewrite andb_false_r. }
    rewrite Hin in H1. assert (E : runs (rescheduleSweep now s2) = runs s2) by (unfold rescheduleSweep; by destruct (pending_sweeps s2)).
    rewrite E, (sweep_loop_other _ _ _ id H2); [done|]. unfold due_runs.
    intros ([i q] & -> & Hq)%list_elem_of_fmap. apply list_elem_of_filter in Hq as [Hf Hq]. apply elem_of_map_to_list in Hq.
    cbn in *. rewrite H1 in Hq. injection Hq as <-. rewrite Hdl in Hf. by rewrite andb_false_r in Hf.
Qed.

(** ** Proposals *)

Abbreviation unusable := documentChangeAuthorizationUnusable.
Abbreviation fail_run now id r s :=
  (finalizeRun now id Failed (insertTransition now id (CurrentState r) (CurrentState r) "authorization_expired" None ∅ s)).

(** The decision about a run reads tasks and accounts only. *)
Lemma unusable_reads now x s s' : same_reads s s' -> tasks s' = tasks s -> unusable now x s' = unusable now x s.
Proof.
  intros R Et. unfold documentChangeAuthorizationUnusable, apply_task. rewrite Et. repeat case_match; try done;
    match goal with H : currentActor now s' _ _ = _ |- _ => rewrite (actor_reads s s') in H by done end; congruence.
Qed.

Lemma dedup_Ok now l s b s' :
  NoDup l.*1 -> (forall id r, (id, r) ∈ l -> runs s !! id = Some r) -> dedup_loop now l s = Ok (b, s') ->
  same_reads s s' /\ tasks s' = tasks s /\ run_seq s' = run_seq s /\ defs s' = defs s /\
  if b then exists id r, (id, r) ∈ l /\ unusable now (id, r) s = Ok false /\ runs s' !! id = Some r
  else forall id r, (id, r) ∈ l -> unusable now (id, r) s = Ok true.
Proof.
  revert s; induction l as [|[i q] l IH]; intros s Hn Hl H; cbn [dedup_loop] in H.
  { injection H as <- <-. split_and!; try done. by intros ? ? ?%not_elem_of_nil. }
  apply NoDup_cons in Hn as [Hni Hn]. apply bind_Ok in H as (u & Hu & H). destruct u; cbn [negb] in H.
  2: { injection H as <- <-. split_and!; try done. exists i, q. split; [by left|]. split; [done|]. apply Hl. by left. }
  set (s1 := fail_run now i q s) in H. assert (R1 : same_reads s s1) by done.
  destruct (IH s1) as (R & E1 & E2 & E3 & E4); [done| |done|].
  { intros j r Hj. unfold s1. cbn. rewrite lookup_alter_ne; [by apply Hl; right|].
    intros <-. apply Hni, list_elem_of_fmap. by exists (i, r). }
  split_and!; [by etrans|done..|]. destruct b.
  - destruct E4 as (j & r & Hj & Hu' & Hr). exists j, r. split; [by right|]. split; [|done]. by rewrite <- (unusable_reads now _ s s1).
  - intros j r Hj. apply elem_of_cons in Hj as [[= -> ->]|Hj]; [done|]. rewrite <- (unusable_reads now _ s s1) by done. by apply E4.
Qed.
Lemma proposals_listed defID docID c s :
  let l := filter (fun x => same_proposal P defID docID c x.2 = true) (map_to_list (runs s)) in
  NoDup l.*1 /\ (forall id r, (id, r) ∈ l <-> runs s !! id = Some r /\ same_proposal P defID docID c r = true).
Proof.
  split.
  - eapply sublist_NoDup; [apply (NoDup_fst_map_to_list (runs s))|]. apply fmap_sublist, sublist_filter.
  - intros id r. rewrite list_elem_of_filter, elem_of_map_to_list. cbn. tauto.
Qed.
Lemma active_or_new_Ok now systemID s d s' :
  active_or_new now systemID s = Ok (d, s') ->
  activeDefBySlug s' systemID DocumentChangeSlug = Ok d /\ same_reads s s' /\ runs s' = runs s /\ tasks s' = tasks s /\
  run_seq s' = run_seq s.
Proof.
  unfold active_or_new. intros H. destruct (activeDefBySlug s systemID DocumentChangeSlug) as [d0|[]] eqn:E; try done.
  - injection H as <- <-. by split_and!.
  - apply bind_Ok in H as ([i s1] & Hi & H). apply bind_Ok in H as (d1 & Hd & H). injection H as <- <-.
    unfold insertDef in Hi. guards_in Hi. injection Hi as _ <-. split_and!; try done.
Qed.
Lemma active_reads systemID s s' slug : defs s' = defs s -> activeDefBySlug s' systemID slug = activeDefBySlug s systemID slug.
Proof. intros E. unfold activeDefBySlug. by rewrite E. Qed.

(** Variables that are read back as the change that was stored. *)
Definition reads_back c : Prop :=
  forall owner, decode P (reload <$> <["owner_id" := VInt owner]> (encode P c)) = Some c.

(** Once a live run proposes the change, proposing it changes no sequence. *)
Lemma propose_duplicate now docID c s s' base defID d id r :
  Baseline c = Some base -> activeDefBySlug s (sn_SystemID base) DocumentChangeSlug = Ok (defID, d) ->
  runs s !! id = Some r -> same_proposal P defID docID (set_policy (review_reason c) ReviewPolicyVersion c) r = true ->
  unusable now (id, r) s = Ok false -> ProposeDocumentChangeInTx P now docID c s = Ok s' -> run_seq s' = run_seq s.
Proof.
  intros Hb Hact Hr Hsame Hu H. unfold ProposeDocumentChangeInTx in H. apply bind_Ok in H as (reason & Hc & H).
  apply check_granted in Hc as (-> & _). change (Baseline (set_policy _ _ c)) with (Baseline c) in H. rewrite Hb in H.
  unfold active_or_new in H. rewrite Hact in H. cbn [mbind result_bind] in H. guards_in H.
  apply bind_Ok in H as ([dup s2] & Hdup & H).
  destruct (proposals_listed defID docID (set_policy (review_reason c) ReviewPolicyVersion c) s) as [Hn Hl].
  apply dedup_Ok in Hdup as (_ & _ & Hseq & _ & Hdup); [|done|by intros i q [? _]%Hl].
  destruct dup; [by injection H as <-|]. rewrite (Hdup id r) in Hu; [done|]. by apply Hl.
Qed.
(** A run that was just inserted has no task. *)
Lemma unusable_fresh now id r s :
  (forall tid t, tasks s !! tid = Some t -> RunID t <> id) -> unusable now (id, r) s = Ok false.
Proof.
  intros Hno. unfold documentChangeAuthorizationUnusable. cbn [fst snd]. destruct (if bool_decide _ then _ else _) as [n|]; [|done].
  destruct (exists_row _ _) eqn:E; [done|]. destruct (apply_task s id (revision r - n)) as [[tid t]|] eqn:Et; [|done].
  apply apply_task_spec in Et as (Ht & Hid & _). by apply Hno in Ht.
Qed.

(** Proposing the same change again starts no second run: the first is found as long as
    its review is open or its decision can still be carried out. *)
Theorem propose_once now docID c s s1 s2 :
  Inv s -> ProposeDocumentChangeInTx P now docID c s = Ok s1 -> ProposeDocumentChangeInTx P now docID c s1 = Ok s2 ->
  reads_back (set_policy (review_reason c) ReviewPolicyVersion c) -> run_seq s2 = run_seq s1.
Proof.
  intros I H1 H2 Hcodec. set (c0 := set_policy (review_reason c) ReviewPolicyVersion c) in *.
  unfold ProposeDocumentChangeInTx in H1. apply bind_Ok in H1 as (r1 & Hc1 & H1). apply check_granted in Hc1 as (-> & _).
  fold c0 in H1. change (Baseline c0) with (Baseline c) in H1. destruct (Baseline c) as [base|] eqn:Eb; [|done].
  apply bind_Ok in H1 as ([[defID d] sa] & Ha & H1). guards_in H1. apply bind_Ok in H1 as ([dup sb] & Hdup & H1).
  apply active_or_new_Ok in Ha as (Hact & _ & Er & Et & Eseq). destruct (proposals_listed defID docID c0 sa) as [Hn Hl].
  apply dedup_Ok in Hdup as (R & Etb & Eseqb & Edb & Hdup); [|done|by intros i q [? _]%Hl].
  destruct dup.
  - injection H1 as <-. destruct Hdup as (id & r & [Hr Hsame]%Hl & Hu & Hrb).
    apply (propose_duplicate now docID c sb s2 base defID d id r); try done; [by rewrite (active_reads _ sa sb)|].
    by rewrite (unusable_reads now _ sa sb).
  - apply bind_Ok in H1 as ([runID sc] & Hi & H1). unfold insertRun in Hi. guards_in Hi. injection Hi as <- <-.
    unfold enqueueAdvance, enqueueAdvanceWithTrigger, loadRun in H1. cbn [runs with_outbox] in H1.
    rewrite bool_decide_true in H1 by done. cbn [mbind result_bind] in H1.
    cbn [add_run runs] in H1. rewrite lookup_insert_eq in H1. apply bind_Ok in H1 as (r & [= <-] & H1). injection H1 as <-.
    eapply (propose_duplicate now docID c _ s2 base defID d); try done.
    + rewrite <- Hact. apply (active_reads _ sa). done.
    + cbn. apply lookup_insert_eq.
    + unfold same_proposal. cbn [DefID DocID Status Vars]. rewrite Z.eqb_refl, !bool_decide_true by done.
      rewrite Hcodec. fold c0. rewrite Z.eqb_refl, !bool_decide_true by done. done.
    + apply unusable_fresh. cbn. intros tid t Ht. rewrite Etb, Et in Ht.
      destruct (inv_task _ I _ _ Ht) as [_ (q & Hq & _)]. destruct (inv_run _ I _ _ Hq) as [Hle _ _ _]. lia.
Qed.
End Props.

(** * Concrete runs *)
Module Demo.
Definition bound : Snapshot := MkSnapshot 1 2 0 0 0 0 0 0 "blob".
Definition change (v : string) : DocumentChange :=
  MkChange "title" 0 v (float_of_int 1) (Some (float_of_int 1)) "llm" 0 "" "" false (Some bound) [] ReviewReasonReviewFirst
    ReviewPolicyVersion.
(** Title suggestions, kept in the variables by their value. *)
Definition demo : platform :=
  MkPlatform ascii_tables (fun _ => false) (fun _ => None) (fun x => x)
    (fun vs => match vs !! "value" with Some (VOther v) => Some (change v) | _ => None end)
    (fun c => {["value" := VOther (Value c)]})
    (fun _ => None) (fun _ => "") (fun _ => "") (fun _ => false) (fun _ => false) (fun _ => 0) (fun _ => None)
    (fun _ => "") (fun _ => None) (fun _ => None) (fun x => x).
Definition row : meta := MkMeta "scan" "auto" 5 "" false "blob" 0 0 0 0 0 0 0.
Definition demo_world : change_world :=
  World (Tables {[10 := row]} ∅ ∅ ∅ ∅ ∅ ∅ ∅ []) {[5 := 1]} (CustomField.Store ∅ ∅ ∅ ∅)
    (DB (Directory ∅ ∅ ∅) ∅ ∅ ∅ ∅ ∅ ∅ ∅) None.
Definition s0 : state :=
  Store (Directory users0 {[1 := original]} {[(1, 2)]}) {["s1" := Session 2 1000]} ∅ {[10 := Document 1 2 false]}
    ∅ ∅ ∅ [] [] [] 0 0 demo_world.
Definition reg : registry change_world := New (documentChangeHandler demo).
Definition ok {E} (r : result E state) : state := match r with Ok s => s | Err _ => s0 end.
Definition proposed : state := ok (ProposeDocumentChangeInTx demo 50 10 (change "Invoice") s0).
Definition in_task : state := ok (advance reg userOnlyResolver 51 1 "" 1 (Some 0) proposed).
Definition answered : state := ok (ResolveInTx (change_check demo) 52 1 "apply" (Some ann) in_task).
Definition decided : state := ok (advance reg userOnlyResolver 53 1 "apply" 1 (Some 1) answered).
Definition run1 : Run := default (MkRun 0 0 None Failed "" ∅ None 0 None 0 None 0) (runs decided !! 1).
Definition applied : state := ok (applyDocumentChange demo 54 (1, run1) (change "Invoice") decided).
(** Another title written between the answer and the effect. *)
Definition edited : state := (update_where 10 (fun _ => true) (put_title 53 "mine" "human") decided).2.

Lemma applied_Ok : applyDocumentChange demo 54 (1, run1) (change "Invoice") decided = Ok applied.
Proof. vm_compute. reflexivity. Qed.
Lemma reads_back_change v : reads_back demo (change v).
Proof. intros owner. vm_compute. reflexivity. Qed.
Lemma s0_Inv : Inv s0.
Proof.
  assert (He : forall A (k : Z) (x : A), (∅ : gmap Z A) !! k = Some x -> False) by (intros A k x H; by rewrite lookup_empty in H).
  split.
  - intros ? ? H. by apply He in H.
  - intros ? ? ? ? H. by apply He in H.
  - intros ? ? H. by apply He in H.
  - intros ? ? H. by apply He in H.
  - intros ? ? ? ? H. by apply He in H.
  - intros ? H. by apply not_elem_of_nil in H.
Qed.

(** A tag that does not exist yet, suggested above its threshold for a plain member's
    document. *)
Definition new_tag : DocumentChange :=
  MkChange "tag" 0 "Urgent" (float_of_int 1) (Some (float_of_int 1)) "llm" 0 "" "" false (Some bound) [] "" "".
End Demo.



Lemma applied_value_witness :
  exists m', docs (taxonomy (world Demo.applied)) !! 10 = Some m' /\ title m' = "Invoice" /\ title_owner m' = "human".
Proof.
  destruct (applied_value Demo.demo 54 1 Demo.run1 (Demo.change "Invoice") Demo.decided Demo.applied 10 Demo.row Demo.applied_Ok)
    as (c1 & [R _] & (m & m' & _ & Hm' & Ht & _) & _); [vm_compute; reflexivity|vm_compute; reflexivity|].
  exists m'. split; [exact Hm'|]. rewrite R in Ht. destruct (Ht eq_refl) as (H1 & H2 & _). split; [exact H1|exact H2].
Defined.

Lemma automatic_spec_witness :
  exists s', ApplyAutomaticDocumentChangeInTx Demo.demo 50 10 (Demo.change "Invoice") Demo.s0 = Ok (true, s') /\
    ResolveAutoApply Demo.s0 = Ok true /\ title_owner <$> docs (taxonomy (world s')) !! 10 = Some "auto".
Proof.
  eexists. split; [vm_compute; reflexivity|].
  edestruct (automatic_spec Demo.demo 50 10 (Demo.change "Invoice") Demo.s0 true) as (H1 & _ & _ & b & cu & m & m' & _ & _ & _ & _ & _ & H3 & H4 & _);
    [vm_compute; reflexivity|].
  split; [exact H1|]. destruct (H4 eq_refl) as (_ & H5 & _).
  etransitivity; [apply (f_equal (fmap title_owner)); exact H3|]. cbn. by rewrite H5.
Defined.

Lemma stale_decision_stuck_witness :
  runs Demo.edited !! 1 = Some Demo.run1 /\ Status Demo.run1 = Running /\
  (exists e, advance Demo.reg userOnlyResolver 60 1 "" 1 (Some 2) Demo.edited = Err e) /\
  forall s', TimeoutSweep (change_check Demo.demo) 60 Demo.edited = Ok s' -> runs s' !! 1 = Some Demo.run1.
Proof.
  split; [vm_compute; reflexivity|]. split; [vm_compute; reflexivity|].
  edestruct (stale_decision_stuck Demo.demo userOnlyResolver 1 Demo.run1 (Demo.change "Invoice") Demo.edited 10 Demo.bound)
    as [H1 H2]; try (vm_compute; reflexivity).
  - vm_compute. discriminate.
  - split; [apply H1|apply H2].
Defined.

Lemma propose_once_witness :
  exists s1 s2, ProposeDocumentChangeInTx Demo.demo 50 10 (Demo.change "Invoice") Demo.s0 = Ok s1 /\
    ProposeDocumentChangeInTx Demo.demo 50 10 (Demo.change "Invoice") s1 = Ok s2 /\ run_seq s1 = 1 /\ run_seq s2 = 1.
Proof.
  eexists _, _. split; [vm_compute; reflexivity|]. split; [vm_compute; reflexivity|]. split; [vm_compute; reflexivity|].
  etransitivity; [eapply (propose_once Demo.demo 50 10 (Demo.change "Invoice") Demo.s0)|].
  - exact Demo.s0_Inv.
  - vm_compute; reflexivity.
  - vm_compute; reflexivity.
  - exact (Demo.reads_back_change "Invoice").
  - reflexivity.
Defined.

(** The automatic path makes the tag, without an administrator; a reviewer who is a member
    could not. *)
Theorem automatic_makes_tag :
  documentChangeVocabulary Demo.demo Demo.s0 1 Demo.new_tag (Some ann) = Err ErrForbidden /\
  exists s', ApplyAutomaticDocumentChangeInTx Demo.demo 50 10 Demo.new_tag Demo.s0 = Ok (true, s') /\
    tags (taxonomy (world s')) !! 1 = Some (MkNamed 1 "Urgent" "urgent" None 50 50).
Proof. split; [vm_compute; reflexivity|]. eexists. split; vm_compute; reflexivity. Qed.
