(* ===== verification/Automation.v ===== *)
(** Automations ([core/automations]): the data of a rule, how its triggers match a document
    ([apply.go]), and its actions ([registry.go], [builtin_actions.go]) over the archive's
    tables.  Rows of rules are in [AutomationStore].

    Glob matching is [Glob.Match]; regular expressions are a parameter, as is everything in
    [platform].  The columns of [documents] that only this component reads or writes are in
    [columns]; the others in [Taxonomy.tables]. *)
From Stdlib Require Import SpecFloat.
From S2P Require Import Prelude GoStd Utf8 GoTime Sqlite Systems Authz Slug CustomField FilePath Paths Glob DocumentChange Taxonomy.

(** * Rules *)

Definition TriggerConsumption : string := "consumption".
Definition TriggerDocumentAdded : string := "document_added".
Definition TriggerDocumentUpdated : string := "document_updated".
Definition TriggerFromCode (n : Z) : string :=
  if n =? 1 then TriggerConsumption else if n =? 2 then TriggerDocumentAdded
  else if n =? 3 then TriggerDocumentUpdated else "".
Definition TriggerToCode (t : string) : Z :=
  if bool_decide (t = TriggerConsumption) then 1 else if bool_decide (t = TriggerDocumentAdded) then 2
  else if bool_decide (t = TriggerDocumentUpdated) then 3 else 0.

Record Trigger : Type := MkTrigger {
  tr_ID : Z; tr_Type : string; TypeCode : Z; FilterPath : string; FilterFilename : string; FilterMailRuleID : Z;
  FilterTagID : Z; FilterCorrID : Z; FilterTitleRE : string; FilterContentRE : string; FilterEmailFrom : string;
  FilterEmailSubject : string; FilterEmailFolder : string; FilterEmailHasAttachment : option bool;
}.
Record AskAnswer : Type := MkAnswer { an_Type : string; Choices : list string }.
Record Ask : Type := MkAsk { Question : string; Answer : AskAnswer }.
(** A parameter: a decoded value, or one of the typed slices that imports pass. *)
Inductive pvalue : Type := PV (v : raw_value) | PInt64s (l : list Z) | PInts (l : list Z).
Abbreviation params := (gmap string pvalue).
Record Action : Type := MkAction { ac_ID : Z; ac_OrderIndex : Z; Kind : string; When : string; Params : params }.
Record Automation : Type := MkAutomation {
  au_ID : Z; au_Name : string; au_OrderIndex : Z; Enabled : bool; Suspended : bool; Triggers : list Trigger;
  au_Ask : option Ask; Actions : list Action; au_CreatedAt : Z; au_UpdatedAt : Z;
}.
#[export] Instance Ask_eq_dec : EqDecision Ask.
Proof. unfold EqDecision. intros. unfold Decision. repeat decide equality. Defined.

(** * The archive as the actions see it *)

Record columns : Type := Columns {
  c_system : Z; c_owner : Z; c_trashed_at : option Z; c_storage_path : option Z; c_asn : option Z;
  c_content : option string; c_created_at : Z; c_family : option string;
}.
Record archive : Type := Archive {
  dir : directory; documents : gmap Z columns; taxonomy : tables; jd_categories : gmap Z Z;
  storage_paths : gmap Z (Z * string);           (* id to system_id and path *)
  custom : CustomField.store;                    (* definitions and values *)
}.
Definition with_columns (f : gmap Z columns -> gmap Z columns) (s : archive) : archive :=
  Archive (dir s) (f (documents s)) (taxonomy s) (jd_categories s) (storage_paths s) (custom s).
Definition with_taxonomy (t : tables) (s : archive) : archive :=
  Archive (dir s) (documents s) t (jd_categories s) (storage_paths s) (custom s).
Definition with_custom (c : CustomField.store) (s : archive) : archive :=
  Archive (dir s) (documents s) (taxonomy s) (jd_categories s) (storage_paths s) c.
Definition with_meta (docID : Z) (f : meta -> meta) (s : archive) : archive :=
  with_taxonomy (with_docs (alter f docID) (taxonomy s)) s.

Definition trashed (d : columns) : bool := bool_decide (is_Some (c_trashed_at d)).
Definition placed (s : archive) (docID : Z) : option (Z * bool) :=
  (fun d => (c_system d, trashed d)) <$> documents s !! docID.
Definition fields_of (s : archive) : CustomField.store :=
  CustomField.with_documents (fun _ => (fun d => Doc (c_system d) (trashed d) (c_family d)) <$> documents s) (custom s).

Inductive rule_error : Type :=
  | EMessage (message : string) | ENoRows | EUnknown (table : string) (id : Z) | EAbort (message : string)
  | ETaxonomy (e : tax_error) | EField (e : field_error) | EPanic
  | EUnique | ECheck | EForeignKey | EJSON
  | EDuplicate (id : Z) (name : string) (enabled : bool).
#[export] Instance rule_error_eq_dec : EqDecision rule_error.
Proof. solve_decision. Defined.
Definition of_tax {A} (r : result tax_error A) : result rule_error A :=
  match r with Ok a => Ok a | Err e => Err (ETaxonomy e) end.
Definition of_field {A} (r : result field_error A) : result rule_error A :=
  match r with Ok a => Ok a | Err e => Err (EField e) end.
Definition on_taxonomy (s : archive) (r : result tax_error tables) : result rule_error archive :=
  (fun t => with_taxonomy t s) <$> of_tax r.

(** * Actions *)

Record ActionTarget : Type := MkTarget { tg_DocID : Z; tg_SystemID : Z }.
Record ActionDefinition : Type := MkDefinition {
  def_Kind : string;
  Validate : Z -> params -> archive -> result rule_error unit;
  Execute : Z -> ActionTarget -> params -> archive -> result rule_error archive;   (* the clock first *)
  allowTrashed : bool;
}.
(** A registry keeps one definition per kind. *)
Abbreviation Registry := (gmap string ActionDefinition).

(** * Matching *)

(** The event-time facts of [Context]. *)
Record Event : Type := MkEvent {
  DocID : Z; SourcePath : string; Filename : string; MailRuleID : Z;
  HasEmail : bool; EmailFrom : string; EmailSubject : string; EmailFolder : string; EmailHasAttachment : bool;
}.
Record docSnapshot : Type := MkDocSnapshot {
  sn_Title : string; sn_Content : string; sn_TagIDs : gset Z; sn_CorrespondentID : option Z;
}.
(** The tags a person or a rule gave; those of a classifier are left out. *)
Definition human_tags (t : tables) (docID : Z) : gset Z :=
  list_to_set (filter (fun x => x.1.1 = docID /\ x.2 = false) (map_to_list (document_tags t))).*1.*2.
Definition loadSnapshot (s : archive) (docID : Z) : result rule_error docSnapshot :=
  match documents s !! docID, docs (taxonomy s) !! docID with
  | Some d, Some m =>
      Ok (MkDocSnapshot (title m) (default "" (c_content d)) (human_tags (taxonomy s) docID)
            (PrimaryCorrespondentID (taxonomy s) docID))
  | _, _ => Err ENoRows
  end.

Section Rules.
Context (P : platform).
(** [regexp]: whether a pattern compiles and matches. *)
Context (regexp : string -> string -> option bool).

Definition glob_ok (pattern name : string) : bool :=
  bool_decide (pattern = "") || match Match pattern name with Ok b => b | Err _ => false end.
Definition regex_ok (pattern text : string) : bool :=
  bool_decide (pattern = "") || default false (regexp ("(?i)" +:+ pattern) text).
Definition email_ok (filtered : bool) (e : Event) (ok : bool) : bool := negb filtered || (HasEmail e && ok).
Definition matchesTrigger (tr : Trigger) (sn : docSnapshot) (e : Event) : bool :=
  glob_ok (FilterPath tr) (SourcePath e) && glob_ok (FilterFilename tr) (Filename e)
  && ((FilterMailRuleID tr =? 0) || (FilterMailRuleID tr =? MailRuleID e))
  && ((FilterTagID tr =? 0) || bool_decide (FilterTagID tr ∈ sn_TagIDs sn))
  && ((FilterCorrID tr =? 0) || bool_decide (sn_CorrespondentID sn = Some (FilterCorrID tr)))
  && regex_ok (FilterTitleRE tr) (sn_Title sn) && regex_ok (FilterContentRE tr) (sn_Content sn)
  && email_ok (negb (bool_decide (FilterEmailFrom tr = ""))) e (glob_ok (FilterEmailFrom tr) (EmailFrom e))
  && email_ok (negb (bool_decide (FilterEmailSubject tr = ""))) e (glob_ok (FilterEmailSubject tr) (EmailSubject e))
  && email_ok (negb (bool_decide (FilterEmailFolder tr = ""))) e (bool_decide (FilterEmailFolder tr = EmailFolder e))
  && email_ok (bool_decide (is_Some (FilterEmailHasAttachment tr))) e
       (bool_decide (FilterEmailHasAttachment tr = Some (EmailHasAttachment e))).

(** * Parameters of actions *)

Definition intVal (v : option pvalue) : Z :=
  match v with
  | Some (PV (RFloat f)) => to_int64 (pf_overflow P) f
  | Some (PV (RInt z)) | Some (PV (RInt64 z)) => z
  | _ => 0
  end.
Definition intList (v : option pvalue) : list Z :=
  match v with
  | Some (PV (RList l)) => filter (fun n => n <> 0) ((fun x => intVal (Some (PV x))) <$> l)
  | _ => []
  end.
Definition stringVal (v : option pvalue) : string := match v with Some (PV (RString s)) => s | _ => "" end.
Definition positiveInteger (v : raw_value) : option Z :=
  match v with
  | RFloat f => let id := to_int64 (pf_overflow P) f in
                if SFeqb f (float_of_int id) && (0 <? id) then Some id else None
  | RNumber s => match ParseInt s with Ok id => if 0 <? id then Some id else None | Err _ => None end
  | RInt z | RInt64 z => if 0 <? z then Some z else None
  | _ => None
  end.
Fixpoint positive_ids (l : list raw_value) : result rule_error (list Z) :=
  match l with
  | [] => Ok []
  | v :: l =>
      match positiveInteger v with
      | Some id => ids ← positive_ids l; mret (id :: ids)
      | None => Err (EMessage "must contain only positive integers")
      end
  end.
Definition actionIDs (v : pvalue) : result rule_error (list Z) :=
  match v with
  | PV (RList l) => positive_ids l
  | PInt64s l => positive_ids (RInt64 <$> l)
  | PInts l => positive_ids (RInt <$> l)
  | _ => Err (EMessage "must be an array of positive integers")
  end.
Definition requiredActionID (ps : params) (key : string) : result rule_error Z :=
  match ps !! key with
  | Some (PV v) => match positiveInteger v with Some id => Ok id
                   | None => Err (EMessage (key +:+ " must be a positive integer")) end
  | _ => Err (EMessage (key +:+ " must be a positive integer"))
  end.
Definition requiredActionIDs (ps : params) (key : string) : result rule_error (list Z) :=
  ids ← match ps !! key with Some v => actionIDs v | None => Err (EMessage "must be an array of positive integers") end;
  fail_if bool_decide (ids = []) with EMessage (key +:+ " requires at least one id") in Ok ids.

(** * References *)

(** The tables whose rows an action may name. *)
Definition system_of (s : archive) (table : string) (id : Z) : option Z :=
  if bool_decide (table = "tags") then n_system <$> tags (taxonomy s) !! id
  else if bool_decide (table = "correspondents") then n_system <$> correspondents (taxonomy s) !! id
  else if bool_decide (table = "jd_categories") then jd_categories s !! id
  else if bool_decide (table = "storage_paths") then fst <$> storage_paths s !! id
  else if bool_decide (table = "custom_fields") then f_system <$> custom_fields (custom s) !! id
  else if bool_decide (table = "documents") then
    match documents s !! id with Some d => if trashed d then None else Some (c_system d) | None => None end
  else None.
Definition validateReference (s : archive) (systemID : Z) (table : string) (id : Z) : result rule_error unit :=
  if bool_decide (table = "users") then
    require CanEnter (dir s) id systemID else EMessage "owner cannot enter system" in Ok tt
  else require bool_decide (system_of s table id = Some systemID) else EUnknown table id in Ok tt.
Fixpoint validateReferences (s : archive) (systemID : Z) (table : string) (ids : list Z) : result rule_error unit :=
  match ids with
  | [] => Ok tt
  | id :: ids => _ ← validateReference s systemID table id; validateReferences s systemID table ids
  end.
Definition validateActionReference (key table : string) (systemID : Z) (ps : params) (s : archive) : result rule_error unit :=
  id ← requiredActionID ps key; validateReferences s systemID table [id].

(** * Effects of actions *)

(** [view.EnqueueMove]. *)
Definition EnqueueMove (docID : Z) (s : archive) : result rule_error archive :=
  on_taxonomy s (enqueue_move (placed s) docID (taxonomy s)).
Definition move_if (changed : bool) (docID : Z) (s : archive) : result rule_error archive :=
  if changed then EnqueueMove docID s else Ok s.
(** The columns and the metadata of a document's row. *)
Definition row (s : archive) (docID : Z) : option (columns * meta) :=
  match documents s !! docID, docs (taxonomy s) !! docID with Some d, Some m => Some (d, m) | _, _ => None end.

(** The template's variables. *)
Definition tag_names (t : tables) (docID : Z) : list string :=
  merge_sort string_le
    (omap (fun x => n_name <$> tags t !! x.1.2) (filter (fun x => x.1.1 = docID) (map_to_list (document_tags t)))).
Definition sender_name (t : tables) (docID : Z) : string :=
  default "" (head (omap (fun c => n_name <$> correspondents t !! c) (in_order t docID "sender"))).
Definition expandTitle (s : archive) (docID : Z) (tpl : string) : result rule_error string :=
  match row s docID with
  | None => Err (EMessage "assign_title: load document")
  | Some (d, m) =>
      Ok (Replace [("{{title}}", title m); ("{{correspondent}}", sender_name (taxonomy s) docID);
                   ("{{tags}}", Join (tag_names (taxonomy s) docID) ","); ("{{date}}", format_unix (c_created_at d))] tpl)
  end.

(** The triggers on the updated columns come with the rows. *)
Definition retitle (t : string) (m : meta) : meta :=
  MkMeta t "rule" (category m) (languages m) (languages_locked m) (original_blob m) (updated_at m)
    (source_revision m) (title_revision m + 1) (correspondent_revision m) (category_revision m) (tags_revision m)
    (language_revision m).
Definition assign_title_validate (_ : Z) (ps : params) (_ : archive) : result rule_error unit :=
  fail_if bool_decide (TrimSpace (stringVal (ps !! "template")) = "") with EMessage "template required" in Ok tt.
Definition assign_title_execute (_ : Z) (target : ActionTarget) (ps : params) (s : archive) : result rule_error archive :=
  let tpl := stringVal (ps !! "template") in
  fail_if bool_decide (tpl = "") with EMessage "assign_title: template required" in
  t ← expandTitle s (tg_DocID target) tpl;
  match docs (taxonomy s) !! tg_DocID target with
  | Some m =>
      if negb (bool_decide (title_owner m = "human"))
         && (negb (bool_decide (title m = t)) || negb (bool_decide (title_owner m = "rule")))
      then EnqueueMove (tg_DocID target) (with_meta (tg_DocID target) (retitle t) s)
      else Ok s
  | None => Ok s
  end.

Definition assign_tags_validate (systemID : Z) (ps : params) (s : archive) : result rule_error unit :=
  ids ← requiredActionIDs ps "tag_ids"; validateReferences s systemID "tags" ids.
(** The upsert: the reference trigger, the foreign keys, then the row and its revision. *)
Definition insert_tag (docID tag : Z) (s : archive) : result rule_error archive :=
  require bool_decide (fst <$> placed s docID = n_system <$> tags (taxonomy s) !! tag)
    else EAbort "cross-system reference" in
  require bool_decide (is_Some (documents s !! docID)) else EForeignKey in
  Ok (with_taxonomy (give_tag tag docID (taxonomy s)) s).
Fixpoint insert_tags (docID : Z) (ids : list Z) (changed : bool) (s : archive) : result rule_error (bool * archive) :=
  match ids with
  | [] => Ok (changed, s)
  | id :: ids =>
      let present := bool_decide (is_Some (document_tags (taxonomy s) !! (docID, id))) in
      s ← insert_tag docID id s;
      insert_tags docID ids (changed || negb present) s
  end.
Definition assign_tags_execute (_ : Z) (target : ActionTarget) (ps : params) (s : archive) : result rule_error archive :=
  '(changed, s) ← insert_tags (tg_DocID target) (intList (ps !! "tag_ids")) false s;
  move_if changed (tg_DocID target) s.

Definition assign_correspondent_execute (_ : Z) (target : ActionTarget) (ps : params) (s : archive)
    : result rule_error archive :=
  let id := intVal (ps !! "correspondent_id") in
  fail_if id =? 0 with EMessage "assign_correspondent: correspondent_id required" in
  let before := PrimaryCorrespondentID (taxonomy s) (tg_DocID target) in
  s ← on_taxonomy s (SetPrimaryCorrespondent (placed s) (tg_DocID target) id (taxonomy s));
  move_if (negb (bool_decide (before = Some id))) (tg_DocID target) s.

Definition recategorize (id : Z) (m : meta) : meta :=
  MkMeta (title m) (title_owner m) id (languages m) (languages_locked m) (original_blob m) (updated_at m)
    (source_revision m) (title_revision m) (correspondent_revision m) (category_revision m + 1) (tags_revision m)
    (language_revision m).
Definition assign_jd_category_execute (_ : Z) (target : ActionTarget) (ps : params) (s : archive)
    : result rule_error archive :=
  let id := intVal (ps !! "jd_category_id") in
  fail_if id =? 0 with EMessage "assign_jd_category: jd_category_id required" in
  require bool_decide (jd_categories s !! id = Some (tg_SystemID target))
    else EMessage "assign_jd_category: unknown category id" in
  match docs (taxonomy s) !! tg_DocID target with
  | None => Err ENoRows
  | Some m =>
      require bool_decide (fst <$> placed s (tg_DocID target) = jd_categories s !! id) else EForeignKey in
      move_if (negb (category m =? id)) (tg_DocID target) (with_meta (tg_DocID target) (recategorize id) s)
  end.

Definition put_storage_path (id : option Z) (d : columns) : columns :=
  Columns (c_system d) (c_owner d) (c_trashed_at d) id (c_asn d) (c_content d) (c_created_at d) (c_family d).
Definition assign_storage_path_execute (_ : Z) (target : ActionTarget) (ps : params) (s : archive)
    : result rule_error archive :=
  let id := intVal (ps !! "storage_path_id") in
  fail_if id =? 0 with EMessage "assign_storage_path: storage_path_id required" in
  match storage_paths s !! id, documents s !! tg_DocID target with
  | Some (system, template), Some d =>
      require c_system d =? system else EMessage "assign_storage_path: unavailable folder layout" in
      fail_if UsesVariable template "asn" && negb (bool_decide (is_Some (c_asn d)))
        with EMessage "assign_storage_path: folder layout requires an archive serial number" in
      move_if (negb (bool_decide (c_storage_path d = Some id))) (tg_DocID target)
        (with_columns (alter (put_storage_path (Some id)) (tg_DocID target)) s)
  | _, _ => Err (EMessage "assign_storage_path: unavailable folder layout")
  end.

Definition put_owner (id : Z) (d : columns) : columns :=
  Columns (c_system d) id (c_trashed_at d) (c_storage_path d) (c_asn d) (c_content d) (c_created_at d) (c_family d).
Definition bump_source (m : meta) : meta :=
  MkMeta (title m) (title_owner m) (category m) (languages m) (languages_locked m) (original_blob m) (updated_at m)
    (source_revision m + 1) (title_revision m) (correspondent_revision m) (category_revision m) (tags_revision m)
    (language_revision m).
Definition assign_owner_execute (_ : Z) (target : ActionTarget) (ps : params) (s : archive) : result rule_error archive :=
  let id := intVal (ps !! "owner_id") in
  fail_if id =? 0 with EMessage "assign_owner: owner_id required" in
  match documents s !! tg_DocID target with
  | Some d =>
      if c_owner d =? id then Ok s
      else
        require bool_decide (is_Some (users (dir s) !! id)) else EForeignKey in
        EnqueueMove (tg_DocID target)
          (with_meta (tg_DocID target) bump_source (with_columns (alter (put_owner id) (tg_DocID target)) s))
  | None => Ok s
  end.

Fixpoint remove_tag_rows (docID : Z) (ids : list Z) (changed : bool) (t : tables) : bool * tables :=
  match ids with
  | [] => (changed, t)
  | id :: ids =>
      remove_tag_rows docID ids (changed || bool_decide (is_Some (document_tags t !! (docID, id)))) (drop_doc_tag docID id t)
  end.
Definition remove_tags_execute (_ : Z) (target : ActionTarget) (ps : params) (s : archive) : result rule_error archive :=
  let '(changed, t) := remove_tag_rows (tg_DocID target) (intList (ps !! "tag_ids")) false (taxonomy s) in
  move_if changed (tg_DocID target) (with_taxonomy (touch_tags (tg_DocID target) 1 t) s).

Definition remove_storage_path_execute (_ : Z) (target : ActionTarget) (_ : params) (s : archive)
    : result rule_error archive :=
  match documents s !! tg_DocID target with
  | Some d =>
      if bool_decide (c_storage_path d = None) then Ok s
      else EnqueueMove (tg_DocID target) (with_columns (alter (put_storage_path None) (tg_DocID target)) s)
  | None => Ok s
  end.

(** A key that is absent or null removes every correspondent. *)
Definition given (v : option pvalue) : option pvalue := match v with Some (PV RNil) => None | _ => v end.
Definition remove_correspondents_validate (systemID : Z) (ps : params) (s : archive) : result rule_error unit :=
  match given (ps !! "correspondent_ids") with
  | None => Ok tt
  | Some v => ids ← actionIDs v; validateReferences s systemID "correspondents" ids
  end.
Definition remove_correspondents_execute (_ : Z) (target : ActionTarget) (ps : params) (s : archive)
    : result rule_error archive :=
  let docID := tg_DocID target in
  let ids := intList (ps !! "correspondent_ids") in
  let before := PrimaryCorrespondentID (taxonomy s) docID in
  s ← on_taxonomy s (RemoveCorrespondents docID ids (taxonomy s));
  let s := if bool_decide (ids = []) then s else with_taxonomy (touch_corr docID 1 (taxonomy s)) s in
  move_if (negb (bool_decide (before = PrimaryCorrespondentID (taxonomy s) docID))) docID s.

Definition raw_of (v : pvalue) : raw_value := match v with PV r => r | _ => ROther end.
Definition assign_custom_field_validate (systemID : Z) (ps : params) (s : archive) : result rule_error unit :=
  match given (ps !! "value") with
  | None => Err (EMessage "value required")
  | Some v =>
      fieldID ← requiredActionID ps "field_id";
      match custom_fields (custom s) !! fieldID with
      | None => Err (EUnknown "custom_fields" fieldID)
      | Some f =>
          require f_system f =? systemID else EUnknown "custom_fields" fieldID in
          typed ← of_field (CustomField.Validate (lookup P (f_data_type f)) (f_extra f) (raw_of v));
          if bool_decide (f_data_type f = "documentlink") then
            match typed with
            | TInt64 0 => Ok tt
            | TInt64 id => validateReferences s systemID "documents" [id]
            | _ => Err EPanic
            end
          else Ok tt
      end
  end.
Definition upsertCustomField (docID fieldID : Z) (v : raw_value) (s : archive) : result rule_error archive :=
  match custom_fields (custom s) !! fieldID, documents s !! docID with
  | Some f, Some d =>
      require f_system f =? c_system d else ENoRows in
      let handler := lookup P (f_data_type f) in
      typed ← of_field (CustomField.Validate handler (f_extra f) v);
      cs ← of_field (CustomField.Write handler docID fieldID typed (fields_of s));
      Ok (with_custom cs s)
  | _, _ => Err ENoRows
  end.
Definition assign_custom_field_execute (_ : Z) (target : ActionTarget) (ps : params) (s : archive)
    : result rule_error archive :=
  let fieldID := intVal (ps !! "field_id") in
  fail_if fieldID =? 0 with EMessage "assign_custom_field: field_id required" in
  upsertCustomField (tg_DocID target) fieldID (default RNil (raw_of <$> ps !! "value")) s.
Definition remove_custom_field_execute (_ : Z) (target : ActionTarget) (ps : params) (s : archive)
    : result rule_error archive :=
  let fieldID := intVal (ps !! "field_id") in
  fail_if fieldID =? 0 with EMessage "remove_custom_field: field_id required" in
  Ok (with_custom (deleteRow (tg_DocID target) fieldID (custom s)) s).

Definition put_trashed (now : Z) (d : columns) : columns :=
  Columns (c_system d) (c_owner d) (Some now) (c_storage_path d) (c_asn d) (c_content d) (c_created_at d) (c_family d).
Definition put_updated_at (now : Z) (m : meta) : meta :=
  MkMeta (title m) (title_owner m) (category m) (languages m) (languages_locked m) (original_blob m) now
    (source_revision m) (title_revision m) (correspondent_revision m) (category_revision m) (tags_revision m)
    (language_revision m).
Definition discard_execute (now : Z) (target : ActionTarget) (_ : params) (s : archive) : result rule_error archive :=
  match documents s !! tg_DocID target with
  | Some d =>
      if trashed d then Ok s
      else Ok (with_meta (tg_DocID target) (put_updated_at now) (with_columns (alter (put_trashed now) (tg_DocID target)) s))
  | None => Ok s
  end.

Definition no_check (_ : Z) (_ : params) (_ : archive) : result rule_error unit := Ok tt.
Definition BuiltinActions : list ActionDefinition :=
  [MkDefinition "assign_title" assign_title_validate assign_title_execute false;
   MkDefinition "assign_tags" assign_tags_validate assign_tags_execute false;
   MkDefinition "assign_correspondent" (validateActionReference "correspondent_id" "correspondents")
     assign_correspondent_execute false;
   MkDefinition "assign_jd_category" (validateActionReference "jd_category_id" "jd_categories")
     assign_jd_category_execute false;
   MkDefinition "assign_storage_path" (validateActionReference "storage_path_id" "storage_paths")
     assign_storage_path_execute false;
   MkDefinition "assign_owner" (validateActionReference "owner_id" "users") assign_owner_execute false;
   MkDefinition "remove_tags" assign_tags_validate remove_tags_execute false;
   MkDefinition "remove_storage_path" no_check remove_storage_path_execute false;
   MkDefinition "remove_correspondents" remove_correspondents_validate remove_correspondents_execute false;
   MkDefinition "assign_custom_field" assign_custom_field_validate assign_custom_field_execute false;
   MkDefinition "remove_custom_field" (validateActionReference "field_id" "custom_fields")
     remove_custom_field_execute false;
   MkDefinition "discard" no_check discard_execute true].

(** * The registry *)

Fixpoint register (definitions : list ActionDefinition) (r : Registry) : result rule_error Registry :=
  match definitions with
  | [] => Ok r
  | d :: definitions =>
      fail_if bool_decide (def_Kind d = "") || negb (bool_decide (TrimSpace (def_Kind d) = def_Kind d))
        with EMessage "automations: invalid action kind" in
      fail_if bool_decide (is_Some (r !! def_Kind d)) with EMessage "automations: duplicate action kind" in
      register definitions (<[def_Kind d := d]> r)
  end.
Definition NewRegistry (definitions : list ActionDefinition) : result rule_error Registry := register definitions ∅.
Definition lookup_action (r : option Registry) (kind : string) : result rule_error ActionDefinition :=
  fail_if bool_decide (kind = "") with EMessage "kind required" in
  match r with
  | None => Err (EMessage "automations: action registry required")
  | Some r => match r !! kind with Some d => Ok d | None => Err (EMessage "unsupported kind") end
  end.
Definition validate (r : option Registry) (s : archive) (systemID : Z) (a : Action) : result rule_error unit :=
  d ← lookup_action r (Kind a); Validate d systemID (Params a) s.
Definition execute (r : option Registry) (now docID : Z) (a : Action) (s : archive) : result rule_error archive :=
  d ← lookup_action r (Kind a);
  match documents s !! docID with
  | None => Err ENoRows
  | Some c =>
      fail_if trashed c && negb (allowTrashed d) with ENoRows in
      let target := MkTarget docID (c_system c) in
      _ ← Validate d (tg_SystemID target) (Params a) s;
      Execute d now target (Params a) s
  end.

(** * Running the rules *)

(** Titles of people, and titles of rules that would grow, are left alone. *)
Definition skips_title (s : archive) (docID : Z) (a : Action) : result rule_error bool :=
  if bool_decide (Kind a = "assign_title") then
    match docs (taxonomy s) !! docID with
    | None => Err ENoRows
    | Some m =>
        Ok (bool_decide (title_owner m = "human")
            || (bool_decide (title_owner m = "rule") && Contains (stringVal (Params a !! "template")) "{{title}}"))
    end
  else Ok false.
Definition run_action (r : option Registry) (now docID : Z) (a : Action) (s : archive) : result rule_error archive :=
  skip ← skips_title s docID a;
  if skip : bool then Ok s else execute r now docID a s.
Fixpoint run_actions (r : option Registry) (now docID : Z) (l : list Action) (s : archive) : result rule_error archive :=
  match l with [] => Ok s | a :: l => s ← run_action r now docID a s; run_actions r now docID l s end.
Definition active_admin (d : directory) (actorID : Z) : bool :=
  match users d !! actorID with Some u => negb (u_disabled u) && bool_decide (u_role u = "admin") | None => false end.
(** One rule's transaction. *)
Definition run_rule (r : option Registry) (now docID actorID : Z) (atm : Automation) (s : archive)
    : result rule_error archive :=
  fail_if negb (actorID =? 0) && negb (active_admin (dir s) actorID)
    with EMessage "automations: active admin required for refile" in
  run_actions r now docID (Actions atm) s.

Definition matches (t : string) (sn : docSnapshot) (e : Event) (atm : Automation) : bool :=
  bool_decide (au_Ask atm = None)
  && existsb (fun tr => bool_decide (tr_Type tr = t) && matchesTrigger tr sn e) (Triggers atm).
(** How many rules matched, the rule that failed, and the committed state. *)
Fixpoint runMatching (r : option Registry) (now actorID : Z) (t : string) (sn : docSnapshot) (e : Event)
    (atms : list Automation) (s : archive) : nat * option (Z * rule_error) * archive :=
  match atms with
  | [] => (0%nat, None, s)
  | atm :: atms =>
      if matches t sn e atm then
        match run_rule r now (DocID e) actorID atm s with
        | Err err => (1%nat, Some (au_ID atm, err), s)
        | Ok s => let '(n, err, s) := runMatching r now actorID t sn e atms s in (S n, err, s)
        end
      else runMatching r now actorID t sn e atms s
  end.
End Rules.
