(* ===== verification/AutomationFacts.v ===== *)
(** What one action of [Automation] may touch: lemmas on the tables' operations, and the
    relation [confined] that every built-in action satisfies. *)
From Stdlib Require Import SpecFloat.
From S2P Require Import Prelude GoStd Utf8 GoTime Sqlite Systems Authz Slug CustomField CustomFieldFacts FilePath Paths Glob DocumentChange DocumentChangeFacts Taxonomy TaxonomyFacts TaxonomyInvariant Automation.

(** * Frames *)

(** Columns that no action writes, and a time of trashing that stays. *)
Definition keeps_columns (a b : columns) : Prop :=
  c_system b = c_system a /\ c_asn b = c_asn a /\ c_content b = c_content a /\ c_created_at b = c_created_at a /\
  c_family b = c_family a /\ (forall at_, c_trashed_at a = Some at_ -> c_trashed_at b = Some at_).
(** A person's title stays theirs. *)
Definition keeps_meta (m m' : meta) : Prop :=
  languages m' = languages m /\ languages_locked m' = languages_locked m /\ original_blob m' = original_blob m /\
  (title_owner m = "human" -> title_owner m' = "human" /\ title m' = title m).
#[export] Instance keeps_columns_preorder : PreOrder keeps_columns.
Proof. split; [by intros a; split_and!; auto|]. intros a b c (?&?&?&?&?&?) (?&?&?&?&?&?). split_and!; try congruence; auto. Qed.
#[export] Instance keeps_meta_preorder : PreOrder keeps_meta.
Proof.
  split; [by intros a; split_and!; auto|]. intros a b c (A1&A2&A3&A4) (B1&B2&B3&B4). split_and!; try congruence.
  intros H. destruct (A4 H) as [C1 C2]. destruct (B4 C1). split; congruence.
Qed.

(** What the counters and the clock leave out of a document's metadata. *)
Definition core (m : meta) : string * string * Z * string * bool * string :=
  (title m, title_owner m, category m, languages m, languages_locked m, original_blob m).
Definition same_core (m m' : meta) : Prop := core m' = core m.
#[export] Instance same_core_preorder : PreOrder same_core.
Proof. split; [by intros m|]. unfold same_core. intros a b c. congruence. Qed.
Lemma same_core_keeps m m' : same_core m m' -> keeps_meta m m'.
Proof. unfold same_core, core. intros [= ? ? ? ? ? ?]. split_and!; try done. intros H. split; congruence. Qed.

(** The tables of [Taxonomy] outside one document. *)
Record tax_confined (R : relation meta) (doc : Z) (t t' : tables) : Prop := {
  tc_names : tags t' = tags t /\ correspondents t' = correspondents t;
  tc_rules : automations t' = automations t /\ automation_triggers t' = automation_triggers t /\
             automation_actions t' = automation_actions t;
  tc_docs : forall d, d <> doc -> docs t' !! d = docs t !! d;
  tc_doc : option_Forall2 R (docs t !! doc) (docs t' !! doc);
  tc_tags : forall k, k.1 <> doc -> document_tags t' !! k = document_tags t !! k;
  tc_rels : forall k, k.1.1 <> doc -> document_correspondents t' !! k = document_correspondents t !! k;
  tc_moves : exists l, moves t' = moves t ++ l /\ Forall (fun x => x.1 = doc) l;
}.
#[export] Instance tax_confined_preorder R `{!PreOrder R} doc : PreOrder (tax_confined R doc).
Proof.
  split.
  - intros t. split; try done. exists []. by rewrite app_nil_r.
  - intros t1 t2 t3 [[X1 X2] (X3&X4&X5) H1 H2 H3 H4 (l1 & E1 & F1)] [[Y1 Y2] (Y3&Y4&Y5) G1 G2 G3 G4 (l2 & E2 & F2)]. split.
    + split; congruence.
    + split_and!; congruence.
    + intros d Hd. by rewrite G1, H1.
    + by etrans.
    + intros k Hk. by rewrite G3, H3.
    + intros k Hk. by rewrite G4, H4.
    + exists (l1 ++ l2). rewrite E2, E1, app_assoc. split; [done|]. by apply Forall_app.
Qed.

(** Everything outside one document, and what stays of the document itself. *)
Record confined (doc : Z) (s s' : archive) : Prop := {
  cf_fixed : dir s' = dir s /\ jd_categories s' = jd_categories s /\ storage_paths s' = storage_paths s /\
             custom_fields (custom s') = custom_fields (custom s);
  cf_docs : forall d, d <> doc -> documents s' !! d = documents s !! d;
  cf_doc : option_Forall2 keeps_columns (documents s !! doc) (documents s' !! doc);
  cf_values : forall k, k.1 <> doc -> field_values (custom s') !! k = field_values (custom s) !! k;
  cf_taxonomy : tax_confined keeps_meta doc (taxonomy s) (taxonomy s');
}.
#[export] Instance confined_preorder doc : PreOrder (confined doc).
Proof.
  split; [by intros s; split|]. intros s1 s2 s3 [(X1&X2&X3&X4) H1 H2 H3 H4] [(Y1&Y2&Y3&Y4) G1 G2 G3 G4]. split.
  - split_and!; congruence.
  - intros d Hd. by rewrite G1, H1.
  - by etrans.
  - intros k Hk. by rewrite G3, H3.
  - by etrans.
Qed.

Lemma tax_weaken doc t t' : tax_confined same_core doc t t' -> tax_confined keeps_meta doc t t'.
Proof. intros [H1 H2 H3 H4 H5 H6 H7]. split; try done. destruct H4; constructor. by apply same_core_keeps. Qed.
Lemma tax_docs R doc f t : (forall m, R m (f m)) -> tax_confined R doc t (with_docs (alter f doc) t).
Proof.
  intros Hf. split; try done; cbn.
  - intros d Hd. by rewrite lookup_alter_ne.
  - rewrite lookup_alter_eq. destruct (docs t !! doc); constructor. apply Hf.
  - exists []. by rewrite app_nil_r.
Qed.
Lemma core_bump_corr n m : same_core m (bump_corr n m).
Proof. done. Qed.
Lemma core_bump_tags n m : same_core m (bump_tags n m).
Proof. done. Qed.
Lemma touch_corr_confined doc n t : tax_confined same_core doc t (touch_corr doc n t).
Proof. apply tax_docs, core_bump_corr. Qed.
Lemma touch_tags_confined doc n t : tax_confined same_core doc t (touch_tags doc n t).
Proof. apply tax_docs, core_bump_tags. Qed.
Lemma doc_tags_confined doc f t :
  (forall k, k.1 <> doc -> f (document_tags t) !! k = document_tags t !! k) -> tax_confined same_core doc t (with_doc_tags f t).
Proof. intros Hf. split; try done. exists []. by rewrite app_nil_r. Qed.
Lemma relations_confined doc f t :
  (forall k, k.1.1 <> doc -> f (document_correspondents t) !! k = document_correspondents t !! k) ->
  tax_confined same_core doc t (with_relations f t).
Proof. intros Hf. split; try done. exists []. by rewrite app_nil_r. Qed.
#[export] Hint Resolve touch_corr_confined touch_tags_confined : suchi.

Lemma give_tag_confined doc tag t : tax_confined same_core doc t (give_tag tag doc t).
Proof.
  unfold give_tag. etrans; [|apply touch_tags_confined]. apply doc_tags_confined. intros k Hk.
  rewrite lookup_insert_ne; [done|]. by intros <-.
Qed.
Lemma drop_tag_confined doc tag t : tax_confined same_core doc t (drop_doc_tag doc tag t).
Proof.
  unfold drop_doc_tag. destruct (_ !! _) as [owned|]; [|done].
  assert (Hd : tax_confined same_core doc t (with_doc_tags (delete (doc, tag)) t)).
  { apply doc_tags_confined. intros k Hk. rewrite lookup_delete_ne; [done|]. by intros <-. }
  destruct owned; [done|]. cbn. etrans; [exact Hd|apply touch_tags_confined].
Qed.
Lemma remove_relations_confined doc f t : tax_confined same_core doc t (remove_relations doc f t).
Proof.
  unfold remove_relations. etrans; [|apply touch_corr_confined]. apply relations_confined. intros k Hk.
  rewrite map_filter_dec. destruct (document_correspondents t !! k) as [p|]; [|done]. rewrite decide_True; [done|]. cbn. intros [? ?]. done.
Qed.
Lemma relation_confined doc c role p t : tax_confined same_core doc t (touch_corr doc 1 (with_relations <[(doc, c, role) := p]> t)).
Proof.
  etrans; [|apply touch_corr_confined]. apply relations_confined. intros k Hk. rewrite lookup_insert_ne; [done|]. by intros <-.
Qed.
Lemma place_all_confined doc role from l t : tax_confined same_core doc t (place_all doc role from l t).
Proof.
  revert from t; induction l as [|c l IH]; intros from t; cbn [place_all]; [done|].
  etrans; [|apply IH]. unfold place. case_bool_decide; [done|]. apply relation_confined.
Qed.
Lemma SetPrimary_confined document doc c t t' : SetPrimaryCorrespondent document doc c t = Ok t' -> tax_confined same_core doc t t'.
Proof.
  unfold SetPrimaryCorrespondent. intros H. destruct (c <=? 0).
  - injection H as <-. unfold ClearPrimaryCorrespondents. etrans; [|apply touch_corr_confined]. apply relations_confined.
    intros k Hk. rewrite map_filter_dec. destruct (document_correspondents t !! k); [|done]. rewrite decide_True; [done|]. cbn. intros [? ?]. done.
  - apply bind_Ok in H as (t1 & Ha & H). assert (t' = place_all doc "sender" 0 (c :: filter (fun x : Z => x <> c) (in_order t1 doc "sender")) t1)
      as -> by (by injection H).
    etrans; [|apply place_all_confined]. unfold AppendCorrespondent in Ha. guards_in Ha; injection Ha as <-; [done|].
    apply relation_confined.
Qed.
Lemma Remove_confined doc ids t t' : RemoveCorrespondents doc ids t = Ok t' -> tax_confined same_core doc t t'.
Proof. unfold RemoveCorrespondents. intros H. guards_in H; injection H as <-; apply remove_relations_confined. Qed.
Lemma enqueue_confined document doc t t' : enqueue_move document doc t = Ok t' -> tax_confined same_core doc t t'.
Proof.
  unfold enqueue_move. intros H. destruct (document doc) as [[sys tr]|]; [|done]. injection H as <-.
  destruct tr; [done|]. split; try done. cbn. exists [(doc, sys)]. split; [done|]. by constructor.
Qed.

(** ** Archives *)

Lemma confined_tax doc s t : tax_confined keeps_meta doc (taxonomy s) t -> confined doc s (with_taxonomy t s).
Proof. intros H. by split. Qed.
Lemma confined_core doc s t : tax_confined same_core doc (taxonomy s) t -> confined doc s (with_taxonomy t s).
Proof. intros H. by apply confined_tax, tax_weaken. Qed.
Lemma confined_columns doc f s : (forall d, keeps_columns d (f d)) -> confined doc s (with_columns (alter f doc) s).
Proof.
  intros Hf. split; try done; cbn.
  - intros d Hd. by rewrite lookup_alter_ne.
  - rewrite lookup_alter_eq. destruct (documents s !! doc); constructor. apply Hf.
Qed.
Lemma confined_meta doc f s : (forall m, keeps_meta m (f m)) -> confined doc s (with_meta doc f s).
Proof. intros Hf. by apply confined_tax, tax_docs. Qed.
Lemma on_taxonomy_Ok s r s' : on_taxonomy s r = Ok s' -> exists t, r = Ok t /\ s' = with_taxonomy t s.
Proof. unfold on_taxonomy, of_tax. destruct r as [t|]; [|done]. intros [= <-]. eauto. Qed.
Lemma EnqueueMove_confined doc s s' : EnqueueMove doc s = Ok s' -> confined doc s s'.
Proof. intros (t & H & ->)%on_taxonomy_Ok. by apply confined_core, (enqueue_confined (placed s)). Qed.
Lemma move_if_confined b doc s s' : move_if b doc s = Ok s' -> confined doc s s'.
Proof. destruct b; [apply EnqueueMove_confined|by intros [= <-]]. Qed.

(** * Actions *)

Section Actions.
Context (P : platform).

Definition execute_confined (d : ActionDefinition) : Prop :=
  forall now target ps s s', Execute d now target ps s = Ok s' -> confined (tg_DocID target) s s'.

Lemma keeps_retitle x m : title_owner m <> "human" -> keeps_meta m (retitle x m).
Proof. intros H. by split_and!. Qed.
Lemma alter_const {A} (f : A -> A) k (m : gmap Z A) x : m !! k = Some x -> alter f k m = alter (fun _ => f x) k m.
Proof. intros H. apply alter_ext. intros y Hy. congruence. Qed.

Lemma with_meta_known docID f m s :
  docs (taxonomy s) !! docID = Some m -> keeps_meta m (f m) -> confined docID s (with_meta docID f s).
Proof.
  intros Hm Hk. apply confined_tax. split; try done; cbn.
  - intros d Hd. by rewrite lookup_alter_ne.
  - rewrite lookup_alter_eq, Hm. by constructor.
  - exists []. by rewrite app_nil_r.
Qed.

Lemma title_confined now target ps s s' : assign_title_execute now target ps s = Ok s' -> confined (tg_DocID target) s s'.
Proof.
  unfold assign_title_execute. intros H. case_bool_decide; [done|]. apply bind_Ok in H as (x & _ & H).
  destruct (docs (taxonomy s) !! tg_DocID target) as [m|] eqn:Em; [|by injection H as <-].
  destruct (negb (bool_decide (title_owner m = "human")) && _) eqn:Ec; [|by injection H as <-]. bool_simpl.
  etrans; [|by apply EnqueueMove_confined]. eapply with_meta_known; [done|by apply keeps_retitle].
Qed.
Lemma insert_tag_confined docID id s s' : insert_tag docID id s = Ok s' -> confined docID s s'.
Proof. unfold insert_tag. intros H. guards_in H. injection H as <-. apply confined_core, give_tag_confined. Qed.
Lemma insert_tags_confined docID ids b s c s' : insert_tags docID ids b s = Ok (c, s') -> confined docID s s'.
Proof.
  revert b s; induction ids as [|id ids IH]; intros b s; cbn [insert_tags]; [by intros [= _ <-]|].
  intros (s1 & H1 & H)%bind_Ok. etrans; [by eapply insert_tag_confined|by eapply IH].
Qed.
Lemma tags_confined now target ps s s' : assign_tags_execute P now target ps s = Ok s' -> confined (tg_DocID target) s s'.
Proof.
  unfold assign_tags_execute. intros ([c s1] & H1 & H)%bind_Ok.
  etrans; [by eapply insert_tags_confined|by eapply move_if_confined].
Qed.
Lemma correspondent_confined now target ps s s' :
  assign_correspondent_execute P now target ps s = Ok s' -> confined (tg_DocID target) s s'.
Proof.
  unfold assign_correspondent_execute. intros H. destruct (_ =? 0); [done|].
  apply bind_Ok in H as (s1 & (t & Ht & ->)%on_taxonomy_Ok & H).
  etrans; [by eapply confined_core, SetPrimary_confined|by eapply move_if_confined].
Qed.
Lemma category_confined now target ps s s' :
  assign_jd_category_execute P now target ps s = Ok s' -> confined (tg_DocID target) s s'.
Proof.
  unfold assign_jd_category_execute. intros H. destruct (_ =? 0); [done|]. case_bool_decide; [|done].
  destruct (docs _ !! _) as [m|]; [|done]. case_bool_decide; [|done].
  etrans; [|by eapply move_if_confined]. by apply confined_meta.
Qed.
Lemma keeps_storage id d : keeps_columns d (put_storage_path id d).
Proof. by split_and!. Qed.
Lemma keeps_owner id d : keeps_columns d (put_owner id d).
Proof. by split_and!. Qed.
Lemma storage_confined now target ps s s' :
  assign_storage_path_execute P now target ps s = Ok s' -> confined (tg_DocID target) s s'.
Proof.
  unfold assign_storage_path_execute. intros H. destruct (_ =? 0); [done|].
  destruct (storage_paths s !! _) as [[sys tpl]|]; [|done]. destruct (documents s !! _) as [d|]; [|done].
  destruct (c_system d =? sys); [|done]. destruct (_ && _); [done|].
  etrans; [|by eapply move_if_confined]. apply confined_columns, keeps_storage.
Qed.
Lemma owner_confined now target ps s s' : assign_owner_execute P now target ps s = Ok s' -> confined (tg_DocID target) s s'.
Proof.
  unfold assign_owner_execute. intros H. destruct (_ =? 0); [done|].
  destruct (documents s !! _) as [d|]; [|by injection H as <-]. destruct (c_owner d =? _); [by injection H as <-|].
  case_bool_decide; [|done]. etrans; [|by eapply EnqueueMove_confined].
  etrans; [apply confined_columns, keeps_owner|]. by apply confined_meta.
Qed.
Lemma remove_rows_confined docID ids b t c t' : remove_tag_rows docID ids b t = (c, t') -> tax_confined same_core docID t t'.
Proof.
  revert b t; induction ids as [|id ids IH]; intros b t; cbn [remove_tag_rows]; [by intros [= _ <-]|].
  intros H. etrans; [apply drop_tag_confined|by eapply IH].
Qed.
Lemma untag_confined now target ps s s' : remove_tags_execute P now target ps s = Ok s' -> confined (tg_DocID target) s s'.
Proof.
  unfold remove_tags_execute. destruct (remove_tag_rows _ _ _ _) as [c t] eqn:E. intros H.
  etrans; [|by eapply move_if_confined]. apply confined_core. etrans; [by eapply remove_rows_confined|apply touch_tags_confined].
Qed.
Lemma unstore_confined now target ps s s' :
  remove_storage_path_execute now target ps s = Ok s' -> confined (tg_DocID target) s s'.
Proof.
  unfold remove_storage_path_execute. intros H. destruct (documents s !! _) as [d|]; [|by injection H as <-].
  case_bool_decide; [by injection H as <-|]. etrans; [|by eapply EnqueueMove_confined]. apply confined_columns, keeps_storage.
Qed.
Lemma uncorrespond_confined now target ps s s' :
  remove_correspondents_execute P now target ps s = Ok s' -> confined (tg_DocID target) s s'.
Proof.
  unfold remove_correspondents_execute. intros (s1 & (t & Ht & ->)%on_taxonomy_Ok & H)%bind_Ok.
  apply move_if_confined in H. etrans; [by eapply confined_core, Remove_confined|]. etrans; [|exact H].
  case_bool_decide; [done|]. apply confined_core, touch_corr_confined.
Qed.
Lemma custom_confined docID fieldID g s cs :
  writes_once docID fieldID g -> g (fields_of s) = Ok cs -> confined docID s (with_custom cs s).
Proof.
  intros Hg H. destruct (Hg _ _ H) as [[v ->] _]. split; try done. intros k Hk. cbn.
  rewrite lookup_partial_alter_ne; [done|]. by intros <-.
Qed.
Lemma field_confined now target ps s s' :
  assign_custom_field_execute P now target ps s = Ok s' -> confined (tg_DocID target) s s'.
Proof.
  unfold assign_custom_field_execute, upsertCustomField. intros H. destruct (_ =? 0); [done|].
  destruct (custom_fields _ !! _) as [f|]; [|done]. destruct (documents s !! _) as [d|]; [|done].
  destruct (f_system f =? _); [|done]. apply bind_Ok in H as (t & _ & H). apply bind_Ok in H as (cs & Hw & H).
  injection H as <-. eapply custom_confined; [apply Write_once|]. unfold of_field in Hw. by case_match; simplify_eq.
Qed.
Lemma unfield_confined now target ps s s' :
  remove_custom_field_execute P now target ps s = Ok s' -> confined (tg_DocID target) s s'.
Proof.
  unfold remove_custom_field_execute. intros H. destruct (_ =? 0); [done|]. injection H as <-. split; try done.
  intros k Hk. cbn. rewrite lookup_delete_ne; [done|]. by intros <-.
Qed.
Lemma discard_confined now target ps s s' : discard_execute now target ps s = Ok s' -> confined (tg_DocID target) s s'.
Proof.
  unfold discard_execute. intros H. destruct (documents s !! tg_DocID target) as [d|] eqn:Ed; [|by injection H as <-].
  destruct (trashed d) eqn:Et; injection H as <-; [done|].
  etrans; [|by apply confined_meta]. split; try done; cbn.
  - intros d' Hd. by rewrite lookup_alter_ne.
  - rewrite lookup_alter_eq, Ed. constructor. unfold trashed in Et. bool_simpl.
    split_and!; try done. cbn. intros at_ Ha. exfalso. apply Et. by eexists.
Qed.

Lemma builtin_confined : Forall execute_confined (BuiltinActions P).
Proof.
  unfold BuiltinActions. repeat apply Forall_cons_2; [..|apply Forall_nil_2]; intros now target ps s s'; cbn [Execute].
  - apply title_confined.
  - apply tags_confined.
  - apply correspondent_confined.
  - apply category_confined.
  - apply storage_confined.
  - apply owner_confined.
  - apply untag_confined.
  - apply unstore_confined.
  - apply uncorrespond_confined.
  - apply field_confined.
  - apply unfield_confined.
  - apply discard_confined.
Qed.

Lemma register_lookup defs r R k d :
  register defs r = Ok R -> R !! k = Some d -> r !! k = Some d \/ (d ∈ defs /\ def_Kind d = k).
Proof.
  revert r; induction defs as [|x defs IH]; intros r; cbn [register]; [intros [= ->]; by left|].
  destruct (_ || _); [done|]. case_bool_decide as Hn; [done|]. intros H Hd.
  destruct (IH _ H Hd) as [[[<- <-]|[_ ?]]%lookup_insert_Some|[? ?]]; [right|by left|right]; split; try done; by constructor.
Qed.
Lemma lookup_action_Ok defs R kind d :
  NewRegistry defs = Ok R -> lookup_action (Some R) kind = Ok d -> d ∈ defs /\ def_Kind d = kind.
Proof.
  unfold lookup_action. intros HR H. case_bool_decide as Hn; [done|]. destruct (R !! kind) as [d'|] eqn:E; [|done].
  injection H as ->. by destruct (register_lookup _ _ _ _ _ HR E) as [Hd|Hd]; [rewrite lookup_empty in Hd|].
Qed.
End Actions.
