(* ===== verification/AutomationReplay.v ===== *)
(** Replaying an action of [Automation]: once it has succeeded it succeeds again, and the
    second time changes nothing but revision counters — it queues no second move. *)
From Stdlib Require Import SpecFloat.
From S2P Require Import Prelude GoStd Utf8 GoTime Sqlite Systems Authz Slug CustomField CustomFieldFacts FilePath Paths Glob DocumentChange DocumentChangeFacts Taxonomy TaxonomyFacts TaxonomyInvariant Automation AutomationFacts.

(** * Equal but for the counters *)

Record tax_same (t t' : tables) : Prop := {
  ts_names : tags t' = tags t /\ correspondents t' = correspondents t;
  ts_rules : automations t' = automations t /\ automation_triggers t' = automation_triggers t /\
             automation_actions t' = automation_actions t;
  ts_docs : core <$> docs t' = core <$> docs t;
  ts_joins : document_tags t' = document_tags t /\ document_correspondents t' = document_correspondents t;
  ts_moves : moves t' = moves t;
}.
#[export] Instance tax_same_preorder : PreOrder tax_same.
Proof.
  split; [by intros t; split|]. intros t1 t2 t3 [[A1 A2] (A3&A4&A5) A6 [A7 A8] A9] [[B1 B2] (B3&B4&B5) B6 [B7 B8] B9].
  split; split_and?; congruence.
Qed.
Record same_metadata (s s' : archive) : Prop := {
  sm_fixed : dir s' = dir s /\ documents s' = documents s /\ jd_categories s' = jd_categories s /\
             storage_paths s' = storage_paths s /\ custom s' = custom s;
  sm_taxonomy : tax_same (taxonomy s) (taxonomy s');
}.
Lemma same_metadata_refl s : same_metadata s s.
Proof. by split. Qed.
#[export] Hint Resolve same_metadata_refl : suchi.

Lemma same_with_taxonomy s t : tax_same (taxonomy s) t -> same_metadata s (with_taxonomy t s).
Proof. by split. Qed.
Lemma tax_same_docs f doc t :
  (forall m, docs t !! doc = Some m -> core (f m) = core m) -> tax_same t (with_docs (alter f doc) t).
Proof.
  intros Hf. split; try done. cbn. apply map_eq. intros d. rewrite !lookup_fmap. destruct (decide (d = doc)) as [->|Hd].
  - rewrite lookup_alter_eq. destruct (docs t !! doc); [|done]. cbn. by rewrite Hf.
  - by rewrite lookup_alter_ne.
Qed.
Lemma give_tag_same tag doc t : document_tags t !! (doc, tag) = Some false -> tax_same t (give_tag tag doc t).
Proof.
  intros H. unfold give_tag, touch_tags. etrans; [|by apply tax_same_docs].
  split; try done. cbn. by rewrite insert_id.
Qed.

(** What validation and the placement of documents read. *)
Definition same_reads (s s' : archive) : Prop :=
  dir s' = dir s /\ jd_categories s' = jd_categories s /\ storage_paths s' = storage_paths s /\
  custom_fields (custom s') = custom_fields (custom s) /\ tags (taxonomy s') = tags (taxonomy s) /\
  correspondents (taxonomy s') = correspondents (taxonomy s) /\ (forall d, placed s' d = placed s d).
Lemma confined_reads doc s s' :
  confined doc s s' -> (forall d, placed s' d = placed s d) -> same_reads s s'.
Proof. intros [(H1&H2&H3&H4) _ _ _ [[H5 H6] _ _ _ _ _ _]] Hp. by split_and!. Qed.

Lemma reference_reads s s' systemID table id :
  same_reads s s' -> validateReference s' systemID table id = validateReference s systemID table id.
Proof.
  intros (E1&E2&E3&E4&E5&E6&E7). unfold validateReference, system_of. rewrite E1, E2, E3, E4, E5, E6.
  specialize (E7 id). unfold placed in E7.
  destruct (documents s' !! id) as [d'|], (documents s !! id) as [d|]; try discriminate E7; [|done].
  injection E7 as -> ->. done.
Qed.
Lemma references_reads s s' systemID table ids :
  same_reads s s' -> validateReferences s' systemID table ids = validateReferences s systemID table ids.
Proof. intros H. induction ids as [|id ids IH]; cbn [validateReferences]; [done|]. by rewrite (reference_reads s s'), IH. Qed.

Section Replay.
Context (P : platform).

Definition stable_check (d : ActionDefinition) : Prop :=
  forall systemID ps s s', same_reads s s' -> Validate d systemID ps s' = Validate d systemID ps s.
Lemma action_reference_reads key table systemID ps s s' :
  same_reads s s' -> validateActionReference P key table systemID ps s' = validateActionReference P key table systemID ps s.
Proof.
  intros H. unfold validateActionReference. destruct (requiredActionID _ _ _); [|done]. cbn [mbind result_bind].
  by apply references_reads.
Qed.
Lemma builtin_stable : Forall stable_check (BuiltinActions P).
Proof.
  unfold BuiltinActions. repeat apply Forall_cons_2; [..|apply Forall_nil_2]; intros systemID ps s s' H; cbn [Validate];
    try done; try by apply action_reference_reads.
  - unfold assign_tags_validate. destruct (requiredActionIDs _ _ _); [|done]. by apply references_reads.
  - unfold assign_tags_validate. destruct (requiredActionIDs _ _ _); [|done]. by apply references_reads.
  - unfold remove_correspondents_validate. destruct (given _); [|done]. destruct (actionIDs _ _); [|done]. by apply references_reads.
  - unfold assign_custom_field_validate. destruct (given _); [|done]. destruct (requiredActionID _ _ _); [|done]. cbn [mbind result_bind].
    pose proof H as (_&_&_&E4&_). rewrite E4. destruct (custom_fields _ !! _); [|done]. destruct (_ =? _); [|done].
    destruct (of_field _) as [t|]; [|done]. cbn. destruct (bool_decide _); [|done]. destruct t as [| |z| |]; try done.
    destruct z; [done|by rewrite (reference_reads s s')..].
Qed.

(** ** Each action *)

(** Running the effect again succeeds and changes only counters; documents stay placed. *)
Definition settles (check : Z -> params -> archive -> result rule_error unit)
    (run : Z -> ActionTarget -> params -> archive -> result rule_error archive) : Prop :=
  forall now now' target ps s s1, check (tg_SystemID target) ps s = Ok tt -> run now target ps s = Ok s1 ->
    (forall d, placed s1 d = placed s d) /\ exists s2, run now' target ps s1 = Ok s2 /\ same_metadata s1 s2.

Lemma move_Ok b doc s s' :
  move_if b doc s = Ok s' -> exists l, s' = with_taxonomy (with_moves (fun m => m ++ l) (taxonomy s)) s.
Proof.
  destruct b; cbn; [|intros [= <-]; exists []; destruct s as [? ? t ? ? ?], t; unfold with_taxonomy, with_moves; cbn; by rewrite app_nil_r].
  intros (t & H & ->)%on_taxonomy_Ok. unfold enqueue_move in H. destruct (placed s doc) as [[sys []]|]; [..|done]; injection H as <-.
  - exists []. destruct s as [? ? t ? ? ?], t; unfold with_taxonomy, with_moves; cbn; by rewrite app_nil_r.
  - by exists [(doc, sys)].
Qed.

Lemma insert_tag_row docID id s s1 :
  insert_tag docID id s = Ok s1 -> s1 = with_taxonomy (give_tag id docID (taxonomy s)) s.
Proof. unfold insert_tag. intros H. guards_in H. by injection H as <-. Qed.
Lemma insert_tag_again docID id s s1 s' :
  insert_tag docID id s = Ok s1 -> same_reads s s' -> is_Some (documents s' !! docID) ->
  insert_tag docID id s' = Ok (with_taxonomy (give_tag id docID (taxonomy s')) s').
Proof.
  unfold insert_tag. intros H (_&_&_&_&E5&_&E7) Hd. guards_in H. by rewrite E5, E7, Hc, bool_decide_true.
Qed.
Lemma insert_tags_after docID ids : forall b s c s1,
  insert_tags docID ids b s = Ok (c, s1) ->
  (forall d, placed s1 d = placed s d) /\
  (forall id, id ∈ ids \/ document_tags (taxonomy s) !! (docID, id) = Some false ->
     document_tags (taxonomy s1) !! (docID, id) = Some false) /\
  forall s', same_reads s s' -> (forall id, id ∈ ids -> document_tags (taxonomy s') !! (docID, id) = Some false) ->
    exists s2, insert_tags docID ids false s' = Ok (false, s2) /\ same_metadata s' s2.
Proof.
  induction ids as [|id ids IH]; intros b s c s1; cbn [insert_tags].
  - intros [= _ <-]. split_and!; [done|intros id [Hi|Hi]; [by apply not_elem_of_nil in Hi|done]|].
    intros s' _ _. exists s'. auto with suchi.
  - intros (s0 & H0 & H)%bind_Ok. pose proof (insert_tag_row _ _ _ _ H0) as ->.
    destruct (IH _ _ _ _ H) as (I1 & I2 & I3). split_and!; [by intros d; rewrite I1| |].
    + intros i Hi. apply I2. cbn. destruct (decide (i = id)) as [->|Hne]; [right; by rewrite lookup_insert_eq|].
      rewrite lookup_insert_ne by congruence. destruct Hi as [[->|Hi]%elem_of_cons|Hi]; [done|by left|by right].
    + intros s' Hr Hin. assert (Hd : is_Some (documents s' !! docID)).
      { destruct Hr as (_&_&_&_&_&_&E7). specialize (E7 docID). unfold placed in E7. unfold insert_tag in H0. guards_in H0.
        bool_simpl. destruct Hc0 as [d Hd]. rewrite Hd in E7. by destruct (documents s' !! docID). }
      rewrite (insert_tag_again _ _ _ _ _ H0 Hr Hd), bool_decide_true by (rewrite Hin; [done|by left]). cbn [mbind result_bind].
      set (s0 := with_taxonomy (give_tag id docID (taxonomy s')) s').
      assert (Hs : tax_same (taxonomy s') (give_tag id docID (taxonomy s'))) by (apply give_tag_same, Hin; by left).
      destruct (I3 s0) as (s2 & H2 & Hm).
      * destruct Hr as (E1&E2&E3&E4&E5&E6&E7). by split_and!.
      * intros i Hi. unfold s0. cbn [taxonomy with_taxonomy]. destruct Hs as [_ _ _ [-> _] _]. apply Hin. by right.
      * exists s2. split; [done|]. destruct Hm as [(G1&G2&G3&G4&G5) G]. split; [by split_and!|]. by etrans.
Qed.
Lemma assign_tags_settles : settles (assign_tags_validate P) (assign_tags_execute P).
Proof.
  intros now now' target ps s s1 _. unfold assign_tags_execute. intros ([c s0] & H0 & H)%bind_Ok.
  pose proof (insert_tags_confined _ _ _ _ _ _ H0) as Hc. destruct (insert_tags_after _ _ _ _ _ _ H0) as (I1 & I2 & I3).
  apply move_Ok in H as [l ->]. split; [exact I1|].
  destruct (I3 (with_taxonomy (with_moves (fun m => m ++ l) (taxonomy s0)) s0)) as (s2 & H2 & Hm).
  - by apply (confined_reads _ _ _ Hc) in I1.
  - intros id Hid. apply I2. by left.
  - exists s2. by rewrite H2.
Qed.

Lemma place_all_again doc role : forall l from t,
  (forall i c, l !! i = Some c -> document_correspondents t !! (doc, c, role) = Some (from + Z.of_nat i)) ->
  place_all doc role from l t = t.
Proof.
  induction l as [|c l IH]; intros from t H; cbn [place_all]; [done|].
  pose proof (H 0%nat c eq_refl) as H0. cbn in H0. rewrite Z.add_0_r in H0. unfold place. rewrite bool_decide_true by done.
  apply IH. intros i x Hx. rewrite (H (S i) x Hx). f_equal. lia.
Qed.
Lemma primary_again document doc c t t1 l :
  0 < c -> SetPrimaryCorrespondent document doc c t = Ok t1 ->
  SetPrimaryCorrespondent document doc c (with_moves (fun m => m ++ l) t1) = Ok (with_moves (fun m => m ++ l) t1).
Proof.
  intros Hc H. destruct (SetPrimary_order _ _ _ _ _ Hc H) as (_ & Ho & Hp & _).
  pose proof (SetPrimary_confined _ _ _ _ _ H) as [[_ Ec] _ _ _ _ _ _].
  unfold SetPrimaryCorrespondent in *. rewrite (proj2 (Z.leb_gt c 0)) in * by done.
  apply bind_Ok in H as (t0 & Ha & _). set (t2 := with_moves _ t1).
  assert (Hhere : document_correspondents t2 !! (doc, c, "sender") = Some 0) by (apply (Hp 0%nat); by rewrite Ho).
  assert (AppendCorrespondent document doc c "sender" t2 = Ok t2) as ->.
  { unfold AppendCorrespondent in Ha |- *. destruct (_ || _ || _); [done|]. rewrite Hhere.
    unfold same_system in Ha |- *. cbn. rewrite Ec. by destruct (bool_decide _). }
  cbn [mbind result_bind]. change (in_order t2 doc "sender") with (in_order t1 doc "sender").
  assert (c :: filter (fun x => x <> c) (in_order t1 doc "sender") = in_order t1 doc "sender") as ->.
  { rewrite Ho at 1 2. f_equal. rewrite filter_cons_False by (by intros ?). by apply list_filter_filter_l. }
  unfold mret, result_ret. f_equal. by apply place_all_again.
Qed.
Lemma intVal_positive ps key id : requiredActionID P ps key = Ok id -> intVal P (ps !! key) <> 0 -> intVal P (ps !! key) = id /\ 0 < id.
Proof.
  unfold requiredActionID. destruct (ps !! key) as [[v|l|l]|]; try done. destruct (positiveInteger P v) as [n|] eqn:E; [|done].
  intros [= <-] Hn. cbn in E. destruct v; cbn in E, Hn |- *; try done; repeat case_match; simplify_eq; bool_simpl; try done; (split; [done|lia]).
Qed.
Lemma reference_positive key table systemID ps s :
  validateActionReference P key table systemID ps s = Ok tt -> intVal P (ps !! key) <> 0 -> 0 < intVal P (ps !! key).
Proof.
  unfold validateActionReference. intros (id & Hid & _)%bind_Ok Hn. by destruct (intVal_positive _ _ _ Hid Hn) as [-> ?].
Qed.
Lemma assign_correspondent_settles :
  settles (validateActionReference P "correspondent_id" "correspondents") (assign_correspondent_execute P).
Proof.
  intros now now' target ps s s1 Hv. pose proof (reference_positive _ _ _ _ _ Hv) as Hpos. unfold assign_correspondent_execute.
  cbv zeta. set (c := intVal P _) in *. destruct (Z.eqb_spec c 0) as [E|E]; [done|]. specialize (Hpos E).
  intros (s0 & (t & Ht & ->)%on_taxonomy_Ok & [l ->]%move_Ok)%bind_Ok. split; [done|].
  destruct (SetPrimary_order _ _ _ _ _ Hpos Ht) as (Hp & _).
  eexists. split; [|apply same_metadata_refl]. cbn [taxonomy with_taxonomy].
  change (placed (with_taxonomy _ (with_taxonomy t s))) with (placed s).
  rewrite (primary_again _ _ _ _ _ l Hpos Ht). cbn. rewrite bool_decide_true by exact Hp. done.
Qed.
Lemma assign_jd_category_settles :
  settles (validateActionReference P "jd_category_id" "jd_categories") (assign_jd_category_execute P).
Proof.
  intros now now' target ps s s1 _. unfold assign_jd_category_execute. cbv zeta. set (c := intVal P _).
  destruct (c =? 0); [done|]. case_bool_decide as Hj; [|done].
  destruct (docs (taxonomy s) !! tg_DocID target) as [m|] eqn:Em; [|done]. case_bool_decide as Hp; [|done].
  intros [l ->]%move_Ok. split; [done|]. cbn. rewrite bool_decide_true by done. rewrite lookup_alter_eq, Em. cbn.
  rewrite bool_decide_true by done. rewrite Z.eqb_refl. cbn. eexists. split; [done|]. apply same_with_taxonomy.
  apply (tax_same_docs (recategorize c)). cbn. rewrite lookup_alter_eq, Em. by intros m' [= <-].
Qed.

Lemma columns_again f doc s :
  (forall d, documents s !! doc = Some d -> f d = d) -> with_columns (alter f doc) s = s.
Proof. intros Hf. destruct s as [a b c d e g]. unfold with_columns. cbn in *. f_equal. by apply alter_id. Qed.
Lemma placed_columns f doc s d :
  (forall c, c_system (f c) = c_system c /\ c_trashed_at (f c) = c_trashed_at c) ->
  placed (with_columns (alter f doc) s) d = placed s d.
Proof.
  intros Hf. unfold placed. cbn. destruct (decide (d = doc)) as [->|Hd]; [|by rewrite lookup_alter_ne].
  rewrite lookup_alter_eq. destruct (documents s !! doc) as [c|]; [|done]. cbn. destruct (Hf c) as [-> Ht].
  unfold trashed. by rewrite Ht.
Qed.
Lemma assign_storage_path_settles :
  settles (validateActionReference P "storage_path_id" "storage_paths") (assign_storage_path_execute P).
Proof.
  intros now now' target ps s s1 _. unfold assign_storage_path_execute. cbv zeta. set (c := intVal P _).
  destruct (c =? 0); [done|]. destruct (storage_paths s !! c) as [[sys tpl]|] eqn:Ep; [|done].
  destruct (documents s !! tg_DocID target) as [d|] eqn:Ed; [|done].
  destruct (c_system d =? sys) eqn:Es; [|done]. destruct (_ && _) eqn:Ea; [done|]. intros [l ->]%move_Ok.
  split; [intros d'; by apply placed_columns|]. cbn. rewrite Ep, lookup_alter_eq, Ed. cbn. rewrite Es, Ea.
  rewrite bool_decide_true by done. cbn. eexists. split; [done|].
  match goal with |- same_metadata ?a ?b => assert (b = a) as -> end; [|apply same_metadata_refl].
  apply columns_again. cbn. rewrite lookup_alter_eq, Ed. by intros d' [= <-].
Qed.
Lemma assign_owner_settles : settles (validateActionReference P "owner_id" "users") (assign_owner_execute P).
Proof.
  intros now now' target ps s s1 _. unfold assign_owner_execute. cbv zeta. set (c := intVal P _).
  destruct (c =? 0); [done|]. destruct (documents s !! tg_DocID target) as [d|] eqn:Ed.
  - destruct (c_owner d =? c) eqn:Eo.
    + intros [= <-]. split; [done|]. rewrite Ed, Eo. eauto with suchi.
    + case_bool_decide as Hu; [|done]. intros H. change (EnqueueMove ?d ?s) with (move_if true d s) in H. apply move_Ok in H as [l ->].
      split; [intros d'; by apply placed_columns|]. cbn. rewrite lookup_alter_eq, Ed. cbn. rewrite Z.eqb_refl. eauto with suchi.
  - intros [= <-]. split; [done|]. rewrite Ed. eauto with suchi.
Qed.

Lemma remove_rows_after docID ids : forall b t c t',
  remove_tag_rows docID ids b t = (c, t') ->
  (forall id, id ∈ ids \/ document_tags t !! (docID, id) = None -> document_tags t' !! (docID, id) = None).
Proof.
  induction ids as [|id ids IH]; intros b t c t'; cbn [remove_tag_rows].
  - intros [= _ <-] i [Hi|Hi]; [by apply not_elem_of_nil in Hi|done].
  - intros H i Hi. eapply IH; [exact H|]. clear H. rewrite drop_doc_tag_lookup. case_bool_decide as E; [by right|].
    destruct Hi as [[->|Hi]%elem_of_cons|Hi]; [by destruct E|by left|by right].
Qed.
Lemma remove_rows_none docID ids : forall t,
  (forall id, id ∈ ids -> document_tags t !! (docID, id) = None) -> remove_tag_rows docID ids false t = (false, t).
Proof.
  induction ids as [|id ids IH]; intros t H; cbn [remove_tag_rows]; [done|].
  assert (E : document_tags t !! (docID, id) = None) by (apply H; by left).
  unfold drop_doc_tag. rewrite E. rewrite bool_decide_false by (by intros []). apply IH. intros i Hi. apply H. by right.
Qed.
Lemma remove_tags_settles : settles (assign_tags_validate P) (remove_tags_execute P).
Proof.
  intros now now' target ps s s1 _. unfold remove_tags_execute. destruct (remove_tag_rows _ _ _ _) as [c t] eqn:E.
  intros [l ->]%move_Ok. split; [done|]. cbn. rewrite remove_rows_none by (intros id Hid; cbn; eapply remove_rows_after; [exact E|by left]).
  cbn. eexists. split; [done|]. apply same_with_taxonomy. by apply tax_same_docs.
Qed.
Lemma remove_storage_path_settles : settles no_check remove_storage_path_execute.
Proof.
  intros now now' target ps s s1 _. unfold remove_storage_path_execute.
  destruct (documents s !! tg_DocID target) as [d|] eqn:Ed; [|intros [= <-]; rewrite Ed; eauto with suchi].
  case_bool_decide as Eo; [intros [= <-]; rewrite Ed, bool_decide_true by done; eauto with suchi|].
  intros H. change (EnqueueMove ?d ?s) with (move_if true d s) in H. apply move_Ok in H as [l ->].
  split; [intros d'; by apply placed_columns|]. cbn. rewrite lookup_alter_eq, Ed. cbn. eauto with suchi.
Qed.

Lemma remove_none doc f t :
  (forall k, document_correspondents t !! k <> None -> k.1.1 = doc -> f k.1.2 = false) -> tax_same t (remove_relations doc f t).
Proof.
  intros H. assert (E : document_correspondents (remove_relations doc f t) = document_correspondents t).
  { apply map_eq. intros k. rewrite remove_relations_lookup. case_bool_decide as Ek; [|done].
    destruct (document_correspondents t !! k) eqn:Er; [|by destruct (f _)]. by rewrite H; [|congruence|]. }
  split; try done. apply (ts_docs t (touch_corr doc _ t)). by apply tax_same_docs.
Qed.
Lemma Remove_again doc ids t t1 t' :
  RemoveCorrespondents doc ids t = Ok t1 -> document_correspondents t' = document_correspondents t1 ->
  exists t2, RemoveCorrespondents doc ids t' = Ok t2 /\ tax_same t' t2.
Proof.
  assert (Hr : forall f, document_correspondents t' = document_correspondents (remove_relations doc f t) ->
                         tax_same t' (remove_relations doc f t')).
  { intros f E. apply remove_none. intros k Hk Ed. rewrite E, remove_relations_lookup, bool_decide_true in Hk by done.
    by destruct (f k.1.2). }
  unfold RemoveCorrespondents. destruct (doc <=? 0); [done|]. destruct ids as [|i ids].
  - intros [= <-] E. eauto.
  - destruct (existsb _ _); [done|]. intros [= <-] E. eauto.
Qed.
Lemma primary_same t t' doc : tax_same t t' -> PrimaryCorrespondentID t' doc = PrimaryCorrespondentID t doc.
Proof. intros [_ _ _ [_ E] _]. unfold PrimaryCorrespondentID, in_order, role_rows. by rewrite E. Qed.
Lemma remove_correspondents_settles :
  settles (remove_correspondents_validate P) (remove_correspondents_execute P).
Proof.
  intros now now' target ps s s1 _. unfold remove_correspondents_execute.
  set (ids := intList P _). set (doc := tg_DocID target). cbv zeta.
  intros (s0 & (t & Ht & ->)%on_taxonomy_Ok & [l ->]%move_Ok)%bind_Ok.
  split; [by destruct (bool_decide (ids = []))|].
  match goal with |- exists _, mbind _ (on_taxonomy ?x _) = _ /\ _ => set (s1 := x) end.
  assert (Er : document_correspondents (taxonomy s1) = document_correspondents t) by (unfold s1; by case_bool_decide).
  destruct (Remove_again _ _ _ _ _ Ht Er) as (t2 & H2 & Hm). rewrite H2. cbn.
  assert (Hs : same_metadata s1 (if bool_decide (ids = []) then with_taxonomy t2 s1 else with_taxonomy (touch_corr doc 1 t2) (with_taxonomy t2 s1))).
  { case_bool_decide; apply (same_with_taxonomy s1); [done|]. etrans; [exact Hm|]. by apply tax_same_docs. }
  rewrite bool_decide_true by (symmetry; apply primary_same, Hs). eexists. split; [done|exact Hs].
Qed.

Lemma assign_custom_field_settles : settles (assign_custom_field_validate P) (assign_custom_field_execute P).
Proof.
  intros now now' target ps s s1 _. unfold assign_custom_field_execute, upsertCustomField. cbv zeta.
  destruct (_ =? 0); [done|]. destruct (custom_fields _ !! _) as [f|] eqn:Ef; [|done].
  destruct (documents s !! _) as [d|] eqn:Ed; [|done]. destruct (f_system f =? _) eqn:Es; [|done].
  intros (t & Hv & H)%bind_Ok. apply bind_Ok in H as (cs & Hw & H). injection H as <-. split; [done|].
  unfold of_field in Hw. destruct (Write _ _ _ _ _) as [cs'|] eqn:Ew; [|done]. injection Hw as ->.
  destruct (Write_once _ _ _ _ _ _ _ _ _ _ _ _ _ _ _ _ _ Ew) as [[v ->] Hw2]. cbn [custom custom_fields with_custom with_values fields_of with_documents documents].
  rewrite Ef, Ed, Es, Hv. cbn [mbind result_bind].
  change (fields_of (with_custom _ s)) with (with_values (partial_alter (fun _ => v) (tg_DocID target, intVal P (ps !! "field_id"))) (fields_of s)).
  unfold lookup. rewrite Hw2. cbn. eauto with suchi.
Qed.
Lemma remove_custom_field_settles :
  settles (validateActionReference P "field_id" "custom_fields") (remove_custom_field_execute P).
Proof.
  intros now now' target ps s s1 _. unfold remove_custom_field_execute. cbv zeta. destruct (_ =? 0); [done|].
  intros [= <-]. split; [done|]. eexists. split; [done|]. split; [|done]. split_and!; try done. cbn.
  unfold deleteRow, with_values. cbn. by rewrite delete_delete_eq.
Qed.

Lemma builtin_settles :
  Forall (fun d => def_Kind d = "assign_title" \/ def_Kind d = "discard" \/ settles (Validate d) (Execute d)) (BuiltinActions P).
Proof.
  unfold BuiltinActions. repeat apply Forall_cons_2; [..|apply Forall_nil_2]; cbn [def_Kind Validate Execute];
    try (by left); try (by right; left); right; right.
  - apply assign_tags_settles.
  - apply assign_correspondent_settles.
  - apply assign_jd_category_settles.
  - apply assign_storage_path_settles.
  - apply assign_owner_settles.
  - apply remove_tags_settles.
  - apply remove_storage_path_settles.
  - apply remove_correspondents_settles.
  - apply assign_custom_field_settles.
  - apply remove_custom_field_settles.
Qed.

(** The first run of a title makes it a rule's: the template is skipped, or gives the same
    text. *)
Lemma expandTitle_again s s1 docID tpl d m t l :
  Contains tpl "{{title}}" = false -> row s docID = Some (d, m) ->
  s1 = with_taxonomy (with_moves (fun l0 => l0 ++ l) (taxonomy (with_meta docID (retitle t) s))) (with_meta docID (retitle t) s) ->
  expandTitle s1 docID tpl = expandTitle s docID tpl.
Proof.
  intros Hc Hr ->. unfold expandTitle. rewrite Hr. unfold row in *. cbn [taxonomy with_taxonomy with_meta with_moves with_docs docs documents].
  rewrite lookup_alter_eq. destruct (documents s !! docID); [|done]. destruct (docs (taxonomy s) !! docID); [|done].
  injection Hr as -> ->. cbn [fmap option_fmap option_map]. f_equal. by apply Replace_absent.
Qed.
Lemma title_again now now' target ps s s1 m :
  docs (taxonomy s) !! tg_DocID target = Some m -> title_owner m <> "human" ->
  (title_owner m = "rule" -> Contains (stringVal (ps !! "template")) "{{title}}" = false) ->
  assign_title_execute now target ps s = Ok s1 ->
  (forall d, placed s1 d = placed s d) /\
  exists m1, docs (taxonomy s1) !! tg_DocID target = Some m1 /\ title_owner m1 = "rule" /\
    (Contains (stringVal (ps !! "template")) "{{title}}" = false -> assign_title_execute now' target ps s1 = Ok s1).
Proof.
  intros Hm Hh Hr. unfold assign_title_execute. set (tpl := stringVal _). cbv zeta. destruct (bool_decide (tpl = "")) eqn:Et; [done|].
  intros (t & Hx & H)%bind_Ok. rewrite Hm in H. destruct (row s (tg_DocID target)) as [[d m0]|] eqn:Erow;
    [|by unfold expandTitle in Hx; rewrite Erow in Hx].
  assert (m0 = m) as -> by (unfold row in Erow; rewrite Hm in Erow; by case_match; simplify_eq).
  destruct (negb (bool_decide (title_owner m = "human")) && _) eqn:Ec.
  - change (EnqueueMove ?d ?s) with (move_if true d s) in H. apply move_Ok in H as [l ->]. split; [done|]. exists (retitle t m).
    split_and!; [cbn; by rewrite lookup_alter_eq, Hm|done|]. intros Hc.
    rewrite (expandTitle_again s _ _ _ d m t l Hc Erow eq_refl), Hx. cbn. rewrite lookup_alter_eq, Hm. cbn.
    rewrite (bool_decide_true (t = t)), (bool_decide_true ("rule" = "rule")) by done. cbn [negb orb]. by rewrite andb_false_r.
  - injection H as <-. split; [done|]. rewrite bool_decide_false in Ec by done. cbn [negb andb] in Ec.
    apply orb_false_iff in Ec as [E1 E2]. bool_simpl. exists m. split_and!; [done|done|]. intros _. rewrite Hx. cbn [mbind result_bind].
    rewrite Hm, E1, E2, (bool_decide_true (t = t)), (bool_decide_true ("rule" = "rule")) by done. cbn [negb orb]. by rewrite andb_false_r.
Qed.

Context (R : Registry) (HR : NewRegistry (BuiltinActions P) = Ok R).

(** What a successful execution went through. *)
Lemma execute_Ok now docID a s s1 :
  execute (Some R) now docID a s = Ok s1 ->
  exists d c, lookup_action (Some R) (Kind a) = Ok d /\ d ∈ BuiltinActions P /\ def_Kind d = Kind a /\
    documents s !! docID = Some c /\ trashed c && negb (allowTrashed d) = false /\
    Validate d (c_system c) (Params a) s = Ok tt /\ Execute d now (MkTarget docID (c_system c)) (Params a) s = Ok s1.
Proof.
  unfold execute. intros (d & Hd & H)%bind_Ok. destruct (lookup_action_Ok _ _ _ _ HR Hd) as [Hin Hk].
  destruct (documents s !! docID) as [c|] eqn:Ec; [|done]. destruct (_ && _) eqn:Et; [done|].
  apply bind_Ok in H as ([] & Hv & H). by exists d, c.
Qed.
Lemma execute_intro now docID a s s1 d c :
  lookup_action (Some R) (Kind a) = Ok d -> documents s !! docID = Some c -> trashed c && negb (allowTrashed d) = false ->
  Validate d (c_system c) (Params a) s = Ok tt -> Execute d now (MkTarget docID (c_system c)) (Params a) s = Ok s1 ->
  execute (Some R) now docID a s = Ok s1.
Proof.
  intros Hd Hc Ht Hv He. unfold execute. rewrite Hd. cbn. rewrite Hc, Ht. cbn [tg_SystemID]. by rewrite Hv.
Qed.
Lemma placed_row s s1 docID c :
  (forall d, placed s1 d = placed s d) -> documents s !! docID = Some c ->
  exists c1, documents s1 !! docID = Some c1 /\ c_system c1 = c_system c /\ trashed c1 = trashed c.
Proof.
  intros Hp Hc. specialize (Hp docID). unfold placed in Hp. rewrite Hc in Hp.
  destruct (documents s1 !! docID) as [c1|]; [|done]. injection Hp as E1 E2. eauto.
Qed.
Lemma execute_again now now' docID a s s1 :
  Kind a <> "assign_title" -> execute (Some R) now docID a s = Ok s1 ->
  exists s2, execute (Some R) now' docID a s1 = Ok s2 /\ same_metadata s1 s2.
Proof.
  intros Hn H. destruct (execute_Ok _ _ _ _ _ H) as (d & c & Hd & Hin & Hk & Hc & Ht & Hv & He).
  pose proof builtin_settles as Hs. rewrite Forall_forall in Hs. destruct (Hs _ Hin) as [E|[E|E]]; [congruence| |].
  - assert (Ex : d = MkDefinition "discard" no_check discard_execute true).
    { unfold BuiltinActions in Hin. rewrite !elem_of_cons in Hin.
      repeat destruct Hin as [->|Hin]; try discriminate E; [done|by apply not_elem_of_nil in Hin]. }
    rewrite Ex in Ht, Hv, He, Hd. cbn [Execute] in He. unfold discard_execute in He. cbn [tg_DocID] in He. rewrite Hc in He.
    destruct (trashed c) eqn:Etr; injection He as <-.
    + exists s. split; [|auto with suchi]. eapply execute_intro; [exact Hd|exact Hc|by rewrite Etr|done|].
      cbn. unfold discard_execute. cbn. by rewrite Hc, Etr.
    + eexists. split; [|apply same_metadata_refl]. eapply execute_intro; [exact Hd|cbn; by rewrite lookup_alter_eq, Hc|done|done|].
      cbn. unfold discard_execute. cbn. by rewrite lookup_alter_eq, Hc.
  - destruct (E _ now' (MkTarget docID (c_system c)) _ _ _ Hv He) as [Hp (s2 & H2 & Hm)]. exists s2. split; [|done].
    destruct (placed_row _ _ _ _ Hp Hc) as (c1 & Hc1 & Es & Et1).
    pose proof (builtin_confined P) as Hcf. rewrite Forall_forall in Hcf. pose proof (Hcf _ Hin _ _ _ _ _ He) as Hconf.
    pose proof builtin_stable as Hst. rewrite Forall_forall in Hst.
    eapply execute_intro; [exact Hd|exact Hc1|by rewrite Et1| |].
    + rewrite Es, (Hst _ Hin _ _ s s1); [done|]. by eapply confined_reads.
    + by rewrite Es.
Qed.
Lemma run_action_again now now' docID a s s1 :
  run_action (Some R) now docID a s = Ok s1 ->
  exists s2, run_action (Some R) now' docID a s1 = Ok s2 /\ same_metadata s1 s2.
Proof.
  unfold run_action at 1. intros (skip & Hk & H)%bind_Ok. unfold skips_title in Hk. case_bool_decide as Ek.
  - destruct (docs (taxonomy s) !! docID) as [m|] eqn:Em; [|done]. injection Hk as <-.
    destruct (bool_decide (title_owner m = "human") || _) eqn:Es.
    + injection H as <-. exists s. split; [|auto with suchi]. unfold run_action, skips_title. rewrite bool_decide_true, Em by done.
      cbn. by rewrite Es.
    + apply orb_false_iff in Es as [Eh Er]. bool_simpl.
      destruct (execute_Ok _ _ _ _ _ H) as (d & c & Hd & Hin & Hkd & Hc & Ht & Hv & He).
      assert (Ex : d = MkDefinition "assign_title" assign_title_validate assign_title_execute false).
      { unfold BuiltinActions in Hin. rewrite !elem_of_cons in Hin. rewrite Ek in Hkd.
        repeat destruct Hin as [->|Hin]; try discriminate Hkd; [done|by apply not_elem_of_nil in Hin]. }
      rewrite Ex in Hd, Ht, Hv, He. cbn [Execute Validate] in He, Hv.
      assert (Hr : title_owner m = "rule" -> Contains (stringVal (Params a !! "template")) "{{title}}" = false).
      { intros Ho. rewrite Ho, bool_decide_true in Er by done. exact Er. }
      destruct (title_again now now' (MkTarget docID (c_system c)) _ _ _ _ Em Eh Hr He) as [Hp (m1 & Hm1 & Ho & Hx)].
      cbn [tg_DocID] in Hm1. unfold run_action, skips_title. rewrite bool_decide_true, Hm1 by done. cbn [mbind result_bind].
      rewrite Ho, bool_decide_false, bool_decide_true by done. cbn [orb andb].
      destruct (Contains _ _) eqn:Ec; [eauto with suchi|]. exists s1. split; [|auto with suchi].
      destruct (placed_row _ _ _ _ Hp Hc) as (c1 & Hc1 & Esys & Et1).
      eapply execute_intro; [exact Hd|exact Hc1|by rewrite Et1|by rewrite Esys|rewrite Esys; by apply Hx].
  - injection Hk as <-. destruct (execute_again _ now' _ _ _ _ Ek H) as (s2 & H2 & Hm). exists s2. split; [|done].
    unfold run_action, skips_title. by rewrite bool_decide_false.
Qed.
End Replay.
