(* ===== verification/AutomationProps.v ===== *)
(** What running automations keeps: rules commit whole and in order, they touch their
    document only, references stay in the document's system, replayed actions settle, and a
    classifier's markers fire nothing. *)
From Stdlib Require Import SpecFloat.
From S2P Require Import Prelude GoStd Utf8 GoTime Sqlite Systems Authz Slug Lang CustomField CustomFieldFacts FilePath Paths Glob DocumentChange DocumentChangeFacts Taxonomy TaxonomyFacts TaxonomyInvariant Automation AutomationFacts AutomationReplay.

(** * Filing *)

(** A document's category, layout, tags and correspondents are of its own system. *)
Record filed (s : archive) : Prop := {
  fl_category : forall doc d m, documents s !! doc = Some d -> docs (taxonomy s) !! doc = Some m ->
    jd_categories s !! category m = Some (c_system d);
  fl_storage : forall doc d p, documents s !! doc = Some d -> c_storage_path d = Some p ->
    fst <$> storage_paths s !! p = Some (c_system d);
  fl_taxonomy : tax_wf (placed s) (taxonomy s);
}.

Lemma tax_wf_placed document document' t :
  (forall d, fst <$> document d = fst <$> document' d) -> tax_wf document t -> tax_wf document' t.
Proof.
  intros E [W1 W2 W3 W4 W5]. split; try done.
  - intros k Hk. destruct (W3 k Hk) as [Hr (y & b & x & Hd & Hx & Hs)]. split; [done|].
    specialize (E k.1.1). rewrite Hd in E. destruct (document' k.1.1) as [[y' b']|] eqn:E'; [|done].
    injection E as ->. by exists y', b', x.
  - intros k Hk. destruct (W4 k Hk) as (y & b & x & Hd & Hx & Hs).
    specialize (E k.1). rewrite Hd in E. destruct (document' k.1) as [[y' b']|] eqn:E'; [|done].
    injection E as ->. by exists y', b', x.
Qed.

Lemma same_core_docs doc t t' d m' :
  tax_confined same_core doc t t' -> docs t' !! d = Some m' -> exists m, docs t !! d = Some m /\ same_core m m'.
Proof.
  intros H Hm. destruct (decide (d = doc)) as [->|Hd].
  - pose proof (tc_doc _ _ _ _ H) as F. rewrite Hm in F. inversion F. eauto.
  - rewrite (tc_docs _ _ _ _ H d Hd) in Hm. by exists m'.
Qed.
Lemma filed_core doc s t :
  tax_confined same_core doc (taxonomy s) t -> (tax_wf (placed s) (taxonomy s) -> tax_wf (placed s) t) ->
  filed s -> filed (with_taxonomy t s).
Proof.
  intros Hc Hw [F1 F2 F3]. split; [|done|by apply Hw].
  intros d c m Hd Hm. destruct (same_core_docs _ _ _ _ _ Hc Hm) as (m0 & Hm0 & [= _ _ -> _ _ _]). by eapply F1.
Qed.
Lemma filed_meta doc f s :
  (forall d m, documents s !! doc = Some d -> docs (taxonomy s) !! doc = Some m -> jd_categories s !! category (f m) = Some (c_system d)) ->
  filed s -> filed (with_meta doc f s).
Proof.
  intros Hf [F1 F2 F3]. split; [|done|].
  - intros d c m Hd Hm. cbn in Hd, Hm. apply lookup_alter_Some in Hm as [(<- & m0 & Hm & ->)|[_ Hm]]; [by eapply Hf|by eapply F1].
  - by destruct F3.
Qed.
Lemma filed_meta_core doc f s : (forall m, category (f m) = category m) -> filed s -> filed (with_meta doc f s).
Proof. intros Hf F. apply filed_meta; [|done]. intros d m Hd Hm. rewrite Hf. by eapply fl_category. Qed.
Lemma filed_columns doc f s :
  (forall d, documents s !! doc = Some d -> c_system (f d) = c_system d /\
     forall p, c_storage_path (f d) = Some p -> fst <$> storage_paths s !! p = Some (c_system d)) ->
  filed s -> filed (with_columns (alter f doc) s).
Proof.
  intros Hf [F1 F2 F3].
  assert (Hs : forall d c, alter f doc (documents s) !! d = Some c -> exists c0, documents s !! d = Some c0 /\ c_system c = c_system c0).
  { intros d c [(<- & c0 & Hc & ->)|[_ Hc]]%lookup_alter_Some; [exists c0; split; [done|by apply Hf]|by exists c]. }
  split; cbn.
  - intros d c m Hd Hm. destruct (Hs d c Hd) as (c0 & H0 & ->). by eapply F1.
  - intros d c p [(<- & c0 & Hc & ->)|[_ Hc]]%lookup_alter_Some Hp; [|by eapply F2].
    destruct (Hf _ Hc) as [-> H]. by apply H.
  - eapply tax_wf_placed; [|exact F3]. intros d. unfold placed. cbn. destruct (decide (d = doc)) as [->|Hd].
    + rewrite lookup_alter_eq. destruct (documents s !! doc) as [c|] eqn:E; [|done]. cbn. f_equal. symmetry. by apply Hf.
    + by rewrite lookup_alter_ne.
Qed.
Lemma filed_custom cs s : filed s -> filed (with_custom cs s).
Proof. intros [F1 F2 F3]. by split. Qed.

Section Builtins.
Context (P : platform).
Definition keeps_filed (d : ActionDefinition) : Prop :=
  forall now target ps s s', Execute d now target ps s = Ok s' -> filed s -> filed s'.

Lemma move_filed doc s s' : EnqueueMove doc s = Ok s' -> filed s -> filed s'.
Proof.
  intros (t & H & ->)%on_taxonomy_Ok. eapply filed_core; [by eapply (enqueue_confined (placed s))|].
  by eapply enqueue_move_wf.
Qed.
Lemma move_if_filed b doc s s' : move_if b doc s = Ok s' -> filed s -> filed s'.
Proof. destruct b; [apply move_filed|by intros [= <-]]. Qed.

Lemma drop_tag_wf document doc tag t : tax_wf document t -> tax_wf document (drop_doc_tag doc tag t).
Proof.
  intros W. destruct (drop_doc_tag_rest doc tag t) as [(E1 & E2 & _) E3]. eapply wf_joins; [done|done|done|rewrite E3; auto|].
  intros k. rewrite drop_doc_tag_lookup. case_bool_decide; [by intros []|by left].
Qed.
Lemma insert_tag_filed docID id s s' : insert_tag docID id s = Ok s' -> filed s -> filed s'.
Proof.
  unfold insert_tag. intros H. guards_in H. injection H as <-. bool_simpl.
  eapply filed_core; [apply give_tag_confined|]. intros W. eapply wf_joins; [exact W|done|done|by auto|].
  intros k [v Hk]. unfold give_tag in Hk. cbn in Hk. apply lookup_insert_Some in Hk as [[<- _]|[_ Hk]]; [right|by left; eexists].
  unfold placed in Hc. destruct (documents s !! docID) as [d|] eqn:Ed; [|by destruct Hc0].
  cbn in Hc. destruct (tags (taxonomy s) !! id) as [x|] eqn:Ex; [|done]. injection Hc as Hc.
  unfold tag_ok, placed. cbn. rewrite Ed. eauto 10.
Qed.
Lemma insert_tags_filed docID ids b s c s' : insert_tags docID ids b s = Ok (c, s') -> filed s -> filed s'.
Proof.
  revert b s; induction ids as [|id ids IH]; intros b s; cbn [insert_tags]; [by intros [= _ <-]|].
  intros (s1 & H1 & H)%bind_Ok F. eapply IH; [exact H|]. by eapply insert_tag_filed.
Qed.
Lemma remove_rows_wf document docID ids b t c t' :
  remove_tag_rows docID ids b t = (c, t') -> tax_wf document t -> tax_wf document t'.
Proof.
  revert b t; induction ids as [|id ids IH]; intros b t; cbn [remove_tag_rows]; [by intros [= _ <-]|].
  intros H W. eapply IH; [exact H|]. by apply drop_tag_wf.
Qed.

Lemma builtin_filed : Forall keeps_filed (BuiltinActions P).
Proof.
  unfold BuiltinActions. repeat apply Forall_cons_2; [..|apply Forall_nil_2]; intros now target ps s s'; cbn [Execute].
  - unfold assign_title_execute. intros H F. case_bool_decide; [done|]. apply bind_Ok in H as (x & _ & H).
    destruct (docs _ !! _) as [m|]; [|by injection H as <-]. destruct (_ && _); [|by injection H as <-].
    eapply move_filed; [exact H|]. by apply filed_meta_core.
  - unfold assign_tags_execute. intros ([c s1] & H1 & H)%bind_Ok F. eapply move_if_filed; [exact H|]. by eapply insert_tags_filed.
  - unfold assign_correspondent_execute. intros H F. destruct (_ =? 0); [done|].
    apply bind_Ok in H as (s1 & (t & Ht & ->)%on_taxonomy_Ok & H). eapply move_if_filed; [exact H|].
    eapply filed_core; [by eapply SetPrimary_confined| |exact F]. by apply (SetPrimary_wf (placed s) _ _ _ _ Ht).
  - unfold assign_jd_category_execute. intros H F. destruct (_ =? 0); [done|]. case_bool_decide as Hj; [|done].
    destruct (docs _ !! _) as [m|] eqn:Em; [|done]. case_bool_decide as Hp; [|done].
    eapply move_if_filed; [exact H|]. apply filed_meta; [|done]. intros d m' Hd _. cbn. unfold placed in Hp.
    rewrite Hd in Hp. cbn in Hp. by rewrite <- Hp.
  - unfold assign_storage_path_execute. intros H F. destruct (_ =? 0); [done|].
    destruct (storage_paths s !! _) as [[sys tpl]|] eqn:Ep; [|done]. destruct (documents s !! _) as [d|] eqn:Ed; [|done].
    destruct (Z.eqb_spec (c_system d) sys) as [Es|]; [|done]. destruct (_ && _); [done|].
    eapply move_if_filed; [exact H|]. apply filed_columns; [|done]. intros d' Hd. split; [done|].
    intros p [= <-]. rewrite Ep. cbn. congruence.
  - unfold assign_owner_execute. intros H F. destruct (_ =? 0); [done|].
    destruct (documents s !! _) as [d|] eqn:Ed; [|by injection H as <-]. destruct (c_owner d =? _); [by injection H as <-|].
    case_bool_decide; [|done]. eapply move_filed; [exact H|]. apply filed_meta_core; [done|].
    apply filed_columns; [|done]. intros d' Hd. split; [done|]. intros p Hp. by eapply fl_storage.
  - unfold remove_tags_execute. destruct (remove_tag_rows _ _ _ _) as [c t] eqn:E. intros H F.
    eapply move_if_filed; [exact H|]. eapply filed_core; [|..|exact F].
    + etrans; [by eapply remove_rows_confined|apply touch_tags_confined].
    + intros W. pose proof (remove_rows_wf _ _ _ _ _ _ _ E W) as W1. by apply (wf_fields (placed s) t).
  - unfold remove_storage_path_execute. intros H F. destruct (documents s !! _) as [d|] eqn:Ed; [|by injection H as <-].
    case_bool_decide; [by injection H as <-|]. eapply move_filed; [exact H|]. apply filed_columns; [|done].
    intros d' Hd. split; [done|]. intros p Hp. done.
  - unfold remove_correspondents_execute. intros (s1 & (t & Ht & ->)%on_taxonomy_Ok & H)%bind_Ok F.
    eapply move_if_filed; [exact H|].
    assert (F1 : filed (with_taxonomy t s)).
    { eapply filed_core; [by eapply Remove_confined| |exact F]. by apply (Remove_wf (placed s) _ _ _ _ Ht). }
    match goal with |- filed (if ?b then _ else _) => destruct b; [exact F1|] end. eapply filed_core; [apply touch_corr_confined| |exact F1]. intros W. by apply (wf_fields (placed s) t).
  - unfold assign_custom_field_execute, upsertCustomField. intros H F. destruct (_ =? 0); [done|].
    destruct (custom_fields _ !! _) as [f|]; [|done]. destruct (documents s !! _) as [d|]; [|done].
    destruct (f_system f =? _); [|done]. apply bind_Ok in H as (t & _ & H). apply bind_Ok in H as (cs & _ & H).
    injection H as <-. by apply filed_custom.
  - unfold remove_custom_field_execute. intros H F. destruct (_ =? 0); [done|]. injection H as <-. by apply filed_custom.
  - unfold discard_execute. intros H F. destruct (documents s !! _) as [d|] eqn:Ed; [|by injection H as <-].
    destruct (trashed d); injection H as <-; [done|]. apply filed_meta_core; [done|]. apply filed_columns; [|done].
    intros d' Hd. split; [done|]. intros p Hp. by eapply fl_storage.
Qed.

(** * Running *)

Section Runs.
Context (regexp : string -> string -> option bool) (R : Registry).

(** A relation that the definitions of a registry keep is kept by rules and runs. *)
Lemma run_keeps (defs : list ActionDefinition) (K : archive -> archive -> Prop) `{!PreOrder K} now docID :
  NewRegistry defs = Ok R ->
  (forall d target ps s s', d ∈ defs -> tg_DocID target = docID -> Execute d now target ps s = Ok s' -> K s s') ->
  forall l s s', run_actions (Some R) now docID l s = Ok s' -> K s s'.
Proof.
  intros HR HK. induction l as [|a l IH]; intros s s'; cbn [run_actions]; [by intros [= <-]|].
  intros (s1 & H1 & H)%bind_Ok. etrans; [|by apply IH]. unfold run_action in H1.
  apply bind_Ok in H1 as (skip & _ & H1). destruct skip; [by injection H1 as <-|].
  unfold execute in H1. apply bind_Ok in H1 as (d & Hd & H1). destruct (documents s !! docID) as [c|]; [|done].
  destruct (_ && _); [done|]. apply bind_Ok in H1 as (_ & _ & H1).
  eapply HK; [by eapply lookup_action_Ok| |exact H1]. done.
Qed.
Lemma runMatching_keeps (defs : list ActionDefinition) (K : archive -> archive -> Prop) `{!PreOrder K} now actorID t sn e :
  NewRegistry defs = Ok R ->
  (forall d target ps s s', d ∈ defs -> tg_DocID target = DocID e -> Execute d now target ps s = Ok s' -> K s s') ->
  forall atms s n err s', runMatching regexp (Some R) now actorID t sn e atms s = (n, err, s') -> K s s'.
Proof.
  intros HR HK. induction atms as [|atm atms IH]; intros s n err s'; cbn [runMatching]; [by intros [= _ _ <-]|].
  destruct (matches _ _ _ _ _); [|apply IH].
  destruct (run_rule _ _ _ _ _ _) as [s1|er] eqn:E; [|by intros [= _ _ <-]].
  destruct (runMatching _ _ _ _ _ _ _ _ s1) as [[n1 err1] s2] eqn:E2. intros [= _ _ <-].
  etrans; [|by eapply IH]. unfold run_rule in E. destruct (_ && _); [done|]. by eapply run_keeps.
Qed.
End Runs.
End Builtins.

(** * Properties *)

Section Properties.
Context (P : platform) (regexp : string -> string -> option bool).

Fixpoint run_rules (r : option Registry) (now docID actorID : Z) (l : list Automation) (s : archive) : result rule_error archive :=
  match l with [] => Ok s | atm :: l => s ← run_rule r now docID actorID atm s; run_rules r now docID actorID l s end.

(** For any registry, [runMatching] runs the matching rules in the order given, each in
    its own transaction: what is committed is the effect of some of the first of them, whole;
    without an error it is all of them, with an error the next one is the rule named and it
    fails on the committed state without a trace.  The count is of the rules that were
    started. *)
Theorem run_commits_prefix r now actorID t sn e atms s :
  let '(n, err, s') := runMatching regexp r now actorID t sn e atms s in
  exists done rest, filter (fun atm => matches regexp t sn e atm = true) atms = done ++ rest /\
    run_rules r now (DocID e) actorID done s = Ok s' /\
    match err with
    | None => rest = [] /\ n = length done
    | Some (id, er) => n = S (length done) /\ exists atm, head rest = Some atm /\ au_ID atm = id /\
                         run_rule r now (DocID e) actorID atm s' = Err er
    end.
Proof.
  revert s; induction atms as [|atm atms IH]; intros s; cbn [runMatching]; [by exists [], []|]. rewrite filter_cons.
  destruct (matches regexp t sn e atm) eqn:Em; cbn [decide]; [|rewrite decide_False by done; apply IH].
  rewrite decide_True by done. destruct (run_rule _ _ _ _ _ _) as [s1|er] eqn:E.
  - specialize (IH s1). destruct (runMatching _ _ _ _ _ _ _ _ s1) as [[n err] s2]. destruct IH as (l & rest & -> & Hr & He).
    exists (atm :: l), rest. cbn [run_rules length]. rewrite E. split_and!; [done..|]. destruct err as [[id er]|].
    + destruct He as [-> He]. done.
    + by destruct He as [-> ->].
  - exists [], (atm :: filter (fun atm => matches regexp t sn e atm = true) atms). split_and!; [done..|]. by exists atm.
Qed.

(** The registry of the community actions. *)
Lemma register_Ok defs r :
  forallb (fun k => negb (bool_decide (k = "")) && bool_decide (TrimSpace k = k)) (def_Kind <$> defs) = true ->
  NoDup (def_Kind <$> defs) -> (forall k, k ∈ def_Kind <$> defs -> r !! k = None) -> exists R, register defs r = Ok R.
Proof.
  revert r; induction defs as [|d defs IH]; intros r Hk Hn Hr; cbn [register]; [by eexists|].
  cbn in Hk. apply andb_true_iff in Hk as [[H1 H2]%andb_true_iff Hk]. apply NoDup_cons in Hn as [Hd Hn].
  rewrite H2. destruct (bool_decide (def_Kind d = "")); [done|]. cbn [orb negb].
  assert (Hno : r !! def_Kind d = None) by (apply Hr; by left).
  rewrite Hno, bool_decide_false by (by intros []). apply IH; [done..|].
  intros k Hin. rewrite lookup_insert_ne by (by intros <-). apply Hr. by right.
Qed.
Lemma builtin_registry : exists R, NewRegistry (BuiltinActions P) = Ok R.
Proof.
  apply register_Ok; [by cbn -[TrimSpace]; vm_compute| |by intros k; rewrite lookup_empty].
  cbn. apply (bool_decide_eq_true_1 _). by vm_compute.
Qed.

(** C33: Running automations with the built-in actions touches one document.  No other
    document's columns, metadata, tags, correspondents or field values change, nor the tags,
    correspondents, categories, layouts, fields and rules themselves; moves are queued for
    that document only; the document keeps its system, its archive number, content and
    languages, the time it was trashed at, and — when a person owns it — its title. *)
Theorem run_confined now actorID t sn e atms s :
  match NewRegistry (BuiltinActions P) with
  | Ok R => confined (DocID e) s (runMatching regexp (Some R) now actorID t sn e atms s).2
  | Err _ => False
  end.
Proof.
  destruct builtin_registry as [R HR]. rewrite HR.
  destruct (runMatching regexp (Some R) now actorID t sn e atms s) as [[n err] s'] eqn:E. cbn.
  pose proof (builtin_confined P) as H. rewrite Forall_forall in H.
  eapply (runMatching_keeps regexp R _ (confined (DocID e))); [exact HR| |exact E]. intros d target ps s1 s2 Hd <- He. by eapply H.
Qed.

(** Running automations keeps every document filed in its own system: the category and
    the folder layout of each document, its tags and its correspondents belong to the
    document's filing system afterwards if they did before, whatever the rules name. *)
Theorem run_stays_filed now actorID t sn e atms s :
  filed s ->
  match NewRegistry (BuiltinActions P) with
  | Ok R => filed (runMatching regexp (Some R) now actorID t sn e atms s).2
  | Err _ => False
  end.
Proof.
  intros F. destruct builtin_registry as [R HR]. rewrite HR.
  destruct (runMatching regexp (Some R) now actorID t sn e atms s) as [[n err] s'] eqn:E. cbn.
  pose proof (builtin_filed P) as H. rewrite Forall_forall in H.
  revert F. eapply (runMatching_keeps regexp R _ (fun s s' => filed s -> filed s')); [exact HR| |exact E].
  intros d target ps s1 s2 Hd _ He. by eapply H.
Unshelve. split; [by intros x|]. intros x y z H1 H2 ?. auto.
Qed.

(** C34: A built-in action that succeeded on a document succeeds again, at any later time,
    and the second time changes no metadata and queues no folder move: only revision
    counters may advance. *)
Theorem replay_converges now now' docID a s s1 :
  match NewRegistry (BuiltinActions P) with
  | Ok R => run_action (Some R) now docID a s = Ok s1 ->
            exists s2, run_action (Some R) now' docID a s1 = Ok s2 /\ same_metadata s1 s2
  | Err _ => False
  end.
Proof.
  destruct builtin_registry as [R HR]. rewrite HR. by apply (run_action_again P R HR).
Qed.

(** A tag that a classifier attached fires no rule: with or without it the snapshot that
    triggers are matched against is the same. *)
Theorem classifier_tags_fire_nothing docID tag s :
  document_tags (taxonomy s) !! (docID, tag) <> Some false ->
  loadSnapshot (with_taxonomy (with_doc_tags <[(docID, tag) := true]> (taxonomy s)) s) docID = loadSnapshot s docID.
Proof.
  intros Ht. unfold loadSnapshot. cbn [documents docs taxonomy with_taxonomy with_doc_tags].
  assert (E : human_tags (with_doc_tags <[(docID, tag) := true]> (taxonomy s)) docID = human_tags (taxonomy s) docID).
  { apply set_eq. intros g. unfold human_tags. rewrite !elem_of_list_to_set, !list_elem_of_fmap.
    assert (Hin : forall m : gmap (Z * Z) bool, (exists y, g = y.2 /\ y ∈ (filter (fun x => x.1.1 = docID /\ x.2 = false) (map_to_list m)).*1)
                     <-> m !! (docID, g) = Some false).
    { intros m. split.
      - intros ([d g'] & -> & Hy). apply list_elem_of_fmap in Hy as ([k b] & -> & Hy). apply list_elem_of_filter in Hy as [[H1 H2] Hy].
        cbn in *. subst. by apply elem_of_map_to_list in Hy.
      - intros Hm. exists (docID, g). split; [done|]. apply list_elem_of_fmap. exists (docID, g, false). split; [done|].
        apply list_elem_of_filter. split; [done|]. by apply elem_of_map_to_list. }
    rewrite !Hin. cbn. destruct (decide (g = tag)) as [->|Hne]; [rewrite lookup_insert_eq; split; [done|by intros ?]|].
    by rewrite lookup_insert_ne by congruence. }
  by rewrite E.
Qed.

Lemma run_actions_app r now docID l1 l2 s :
  run_actions r now docID (l1 ++ l2) s = s1 ← run_actions r now docID l1 s; run_actions r now docID l2 s1.
Proof.
  revert s; induction l1 as [|a l1 IH]; intros s; cbn [run_actions app]; [done|].
  destruct (run_action _ _ _ _ _); [apply IH|done].
Qed.
Lemma discard_trashes R now docID a s s' :
  NewRegistry (BuiltinActions P) = Ok R -> Kind a = "discard" -> run_action (Some R) now docID a s = Ok s' ->
  exists d, documents s' !! docID = Some d /\ trashed d = true.
Proof.
  intros HR Hk H. unfold run_action, skips_title in H. rewrite Hk in H. cbn [mbind result_bind] in H.
  rewrite bool_decide_false in H by done. cbn [mbind result_bind] in H.
  destruct (execute_Ok P R HR _ _ _ _ _ H) as (d & c & _ & Hin & Hkd & Hc & _ & _ & He). rewrite Hk in Hkd.
  assert (Ex : d = MkDefinition "discard" no_check discard_execute true).
  { unfold BuiltinActions in Hin. rewrite !elem_of_cons in Hin.
    repeat destruct Hin as [->|Hin]; try discriminate Hkd; [done|by apply not_elem_of_nil in Hin]. }
  rewrite Ex in He. cbn [Execute] in He. unfold discard_execute in He. cbn [tg_DocID] in He. rewrite Hc in He.
  destruct (trashed c) eqn:Et; injection He as <-; [by exists c|]. cbn. rewrite lookup_alter_eq, Hc. by eexists.
Qed.
(** After a [discard] nothing else of a rule can act: in a list of built-in actions that
    commits, the only actions after a [discard] other than further discards are title
    assignments (those skipped because the title is a person's, or would grow); any other
    action after a discard rolls its rule back. *)
Theorem discard_ends_rule now docID l1 a1 l2 a2 l3 s s' :
  match NewRegistry (BuiltinActions P) with
  | Ok R => run_actions (Some R) now docID (l1 ++ a1 :: l2 ++ a2 :: l3) s = Ok s' -> Kind a1 = "discard" ->
            Kind a2 = "discard" \/ Kind a2 = "assign_title"
  | Err _ => False
  end.
Proof.
  destruct builtin_registry as [R HR]. rewrite HR. intros H Hk.
  rewrite run_actions_app in H. apply bind_Ok in H as (s1 & _ & H). cbn [run_actions] in H.
  apply bind_Ok in H as (s2 & H2 & H). rewrite run_actions_app in H. apply bind_Ok in H as (s3 & H3 & H).
  cbn [run_actions] in H. apply bind_Ok in H as (s4 & H4 & _).
  destruct (discard_trashes _ _ _ _ _ _ HR Hk H2) as (d & Hd & Ht).
  assert (Hc : confined docID s2 s3).
  { eapply (run_keeps R _ (confined docID)); [exact HR| |exact H3]. intros d' target ps x y Hd' <- He.
    pose proof (builtin_confined P) as F. rewrite Forall_forall in F. by eapply F. }
  assert (Ht3 : exists d3, documents s3 !! docID = Some d3 /\ trashed d3 = true).
  { pose proof (cf_doc _ _ _ Hc) as F. rewrite Hd in F. inversion F as [x y (_&_&_&_&_&K) Ex Ey|]. exists y. split; [done|].
    unfold trashed in *. bool_simpl. destruct Ht as [at_ Ha]. apply bool_decide_eq_true. eexists. by apply K. }
  destruct Ht3 as (d3 & Hd3 & Ht3). unfold run_action in H4. apply bind_Ok in H4 as (skip & Hs & H4).
  destruct (decide (Kind a2 = "assign_title")) as [E|E]; [by right|]. left. unfold skips_title in Hs.
  rewrite bool_decide_false in Hs by done. injection Hs as <-.
  destruct (execute_Ok P R HR _ _ _ _ _ H4) as (x & c & _ & Hin & Hkx & Hcx & Hal & _). rewrite Hd3 in Hcx. injection Hcx as <-.
  rewrite Ht3 in Hal. unfold BuiltinActions in Hin. rewrite !elem_of_cons in Hin.
  repeat destruct Hin as [->|Hin]; try discriminate Hal; [done|by apply not_elem_of_nil in Hin].
Qed.
End Properties.

(** * The properties on an archive *)

Module Rules.
Definition demo : platform :=
  MkPlatform ascii_tables (fun _ => false) (fun _ => None) (fun x => x) (fun _ => None) (fun _ => ∅)
    (fun _ => None) (fun _ => "") (fun _ => "") (fun _ => false) (fun _ => false) (fun _ => 0) (fun _ => None)
    (fun _ => "") (fun _ => None) (fun _ => None) (fun x => x).
Definition R0 : Registry := match NewRegistry (BuiltinActions demo) with Ok R => R | Err _ => ∅ end.
Lemma R0_Ok : NewRegistry (BuiltinActions demo) = Ok R0.
Proof. unfold R0. by destruct (builtin_registry demo) as [R ->]. Qed.

Definition row10 : meta := MkMeta "scan" "auto" 5 "" false "blob" 0 0 0 0 0 0 0.
Definition tag3 : named := MkNamed 1 "bill" "bill" None 0 0.
Definition s0 : archive :=
  Archive (Directory ∅ ∅ ∅) {[10 := Columns 1 2 None None None (Some "text") 0 None]}
    (Tables {[10 := row10]} {[3 := tag3]} ∅ ∅ ∅ ∅ ∅ ∅ []) {[5 := 1]} {[4 := (1, "{{ title }}")]} (CustomField.Store ∅ ∅ ∅ ∅).
Definition number (z : Z) : pvalue := PV (RInt z).
Definition tag_it : Action := MkAction 0 0 "assign_tags" "" {["tag_ids" := PV (RList [RInt 3])]}.
Definition name_it : Action := MkAction 0 1 "assign_title" "" {["template" := PV (RString "{{tags}} {{title}}")]}.
Definition trash_it : Action := MkAction 0 2 "discard" "" ∅.
Definition ok (r : result rule_error archive) : archive := match r with Ok s => s | Err _ => s0 end.
Definition named_once : archive := ok (run_actions (Some R0) 7 10 [tag_it; name_it] s0).

Example title_of_rule : (fun m => (title m, title_owner m)) <$> docs (taxonomy named_once) !! 10 = Some ("bill scan", "rule").
Proof. vm_compute. reflexivity. Qed.
Example moves_queued : moves (taxonomy named_once) = [(10, 1); (10, 1)].
Proof. vm_compute. reflexivity. Qed.

Lemma s0_filed : filed s0.
Proof.
  assert (He : forall K A (m : gmap Z A) (k : Z) (x : A), m = ∅ -> m !! k = Some x -> K) by (intros K A m k x ->; by rewrite lookup_empty).
  unfold s0. split; cbn [documents taxonomy docs jd_categories].
  - intros doc d m (<- & <-)%lookup_singleton_Some (_ & <-)%lookup_singleton_Some. done.
  - intros doc d p (<- & <-)%lookup_singleton_Some. done.
  - split; cbn [tags correspondents document_tags document_correspondents].
    + intros i j r1 r2 (<- & <-)%lookup_singleton_Some (<- & <-)%lookup_singleton_Some. done.
    + intros i j r1 r2 H. by eapply He in H.
    + intros k [x H]. by rewrite lookup_empty in H.
    + intros k [x H]. by rewrite lookup_empty in H.
    + intros i r p (<- & <-)%lookup_singleton_Some. done.
Qed.
Definition every_doc : Automation :=
  MkAutomation 1 "all" 0 true false [MkTrigger 1 "document_added" 2 "" "" 0 0 0 "" "" "" "" "" None] None [tag_it; name_it] 0 0.
Definition added : Event := MkEvent 10 "" "" 0 false "" "" "" false.
Definition no_regexp (_ _ : string) : option bool := None.
Definition seen : docSnapshot := MkDocSnapshot "scan" "text" ∅ None.

(** Witness of [run_stays_filed]: the rule runs, and the archive it leaves is filed. *)
Lemma run_stays_filed_witness :
  exists R, NewRegistry (BuiltinActions demo) = Ok R /\
    filed (runMatching no_regexp (Some R) 7 0 "document_added" seen added [every_doc] s0).2.
Proof.
  exists R0. split; [exact R0_Ok|]. pose proof (run_stays_filed demo no_regexp 7 0 "document_added" seen added [every_doc] s0 s0_filed) as H.
  rewrite R0_Ok in H. exact H.
Defined.
Lemma replay_converges_witness :
  exists s2, run_action (Some R0) 9 10 tag_it (ok (run_action (Some R0) 7 10 tag_it s0)) = Ok s2 /\
    same_metadata (ok (run_action (Some R0) 7 10 tag_it s0)) s2.
Proof.
  pose proof (replay_converges demo 7 9 10 tag_it s0 (ok (run_action (Some R0) 7 10 tag_it s0))) as H.
  rewrite R0_Ok in H. apply H. vm_compute. reflexivity.
Defined.
Lemma classifier_tags_fire_nothing_witness :
  loadSnapshot (with_taxonomy (with_doc_tags <[(10, 3) := true]> (taxonomy s0)) s0) 10 = loadSnapshot s0 10.
Proof. apply (classifier_tags_fire_nothing 10 3 s0). by vm_compute. Defined.
(** A person's title is skipped after the discard, so the rule commits. *)
Definition s_human : archive := with_meta 10 (put_title 0 "mine" "human") s0.
Lemma discard_ends_rule_witness :
  is_ok (run_actions (Some R0) 7 10 [trash_it; name_it] s_human) = true /\ is_ok (run_actions (Some R0) 7 10 [trash_it; tag_it] s_human) = false /\
  (Kind name_it = "discard" \/ Kind name_it = "assign_title").
Proof.
  split_and!; [by vm_compute|by vm_compute|].
  pose proof (discard_ends_rule demo 7 10 [] trash_it [] name_it [] s_human (ok (run_actions (Some R0) 7 10 [trash_it; name_it] s_human))) as H.
  rewrite R0_Ok in H. apply H; [vm_compute; reflexivity|done].
Defined.
End Rules.
