(* ===== verification/AutomationStore.v ===== *)
(** Rows of automations ([core/automations/store.go]), their content signatures
    ([signature.go]), questions for the classifier ([ask.go]), and the entry points of
    [apply.go].

    JSON texts, the decoding of a patch and Unicode case folding are the record [texts].  A
    write runs in one transaction; [findMatching] and [Get] read the committed rows, which
    are an argument of their own, so that several writes of one transaction can be followed. *)
From S2P Require Import Prelude GoStd Utf8 Sqlite Systems Authz Slug CustomField FilePath Paths Glob DocumentChange Taxonomy Automation.

(** * Tables *)

Record rule_row : Type := MkRule {
  ru_system : Z; ru_name : string; ru_order_index : Z; ru_enabled : bool; ru_suspended : bool;
  ru_created_at : Z; ru_updated_at : Z;
}.
Record trigger_row : Type := MkTriggerRow {
  tw_automation : Z; tw_type : string; tw_path : option string; tw_filename : option string; tw_mailrule : option Z;
  tw_tag : option Z; tw_corr : option Z; tw_title_re : option string; tw_content_re : option string;
  tw_email_from : option string; tw_email_subject : option string; tw_email_folder : option string;
  tw_email_has_attachment : option Z; tw_created_at : Z;
}.
Record action_row : Type := MkActionRow {
  aw_automation : Z; aw_order_index : Z; aw_kind : string; aw_when : option string; aw_params : string; aw_created_at : Z;
}.
Record ask_row : Type := MkAskRow { aq_question : string; aq_answer_type : string; aq_choices : string }.
Record rules : Type := Rules {
  automations : gmap Z rule_row; automation_triggers : gmap Z trigger_row; automation_actions : gmap Z action_row;
  automation_asks : gmap Z ask_row;              (* the key is the automation *)
}.
Definition with_automations (f : gmap Z rule_row -> gmap Z rule_row) (d : rules) : rules :=
  Rules (f (automations d)) (automation_triggers d) (automation_actions d) (automation_asks d).
Definition with_triggers (f : gmap Z trigger_row -> gmap Z trigger_row) (d : rules) : rules :=
  Rules (automations d) (f (automation_triggers d)) (automation_actions d) (automation_asks d).
Definition with_actions (f : gmap Z action_row -> gmap Z action_row) (d : rules) : rules :=
  Rules (automations d) (automation_triggers d) (f (automation_actions d)) (automation_asks d).
Definition with_asks (f : gmap Z ask_row -> gmap Z ask_row) (d : rules) : rules :=
  Rules (automations d) (automation_triggers d) (automation_actions d) (f (automation_asks d)).

(** * Signatures *)

(** A trigger without its row ids: the fields of [sigTrigger]. *)
Record sigTrigger : Type := MkSig {
  sg_Type : string; sg_Path : string; sg_Filename : string; sg_MailRuleID : Z; sg_TagID : Z; sg_CorrID : Z;
  sg_TitleRE : string; sg_ContentRE : string; sg_EmailFrom : string; sg_EmailSubject : string; sg_EmailFolder : string;
  sg_EmailHasAttachment : option bool;
}.
(** [encoding/json]: the texts of the parts and of the whole; [None] is an error of
    [Marshal] or [Unmarshal].  [EqualFold] is [strings.EqualFold]. *)
Record texts : Type := MkTexts {
  trigger_text : sigTrigger -> string; ask_text : Ask -> string;
  action_text : string -> string -> option string -> string;      (* kind, when, the parameters unless empty *)
  rule_text : list string -> option string -> list string -> string;
  params_text : params -> option string; params_of : string -> option params;
  choices_text : list string -> string; choices_of : string -> option (list string);
  typed_text : typed_value -> option string; ask_of : string -> option Ask;
  EqualFold : string -> string -> bool;
}.

Definition normalizedTriggerType (tr : Trigger) : string :=
  if bool_decide (tr_Type tr = "") then TriggerFromCode (TypeCode tr) else tr_Type tr.
Definition triggerToSig (tr : Trigger) : sigTrigger :=
  MkSig (if bool_decide (tr_Type tr = "") && negb (TypeCode tr =? 0) then TriggerFromCode (TypeCode tr) else tr_Type tr)
    (FilterPath tr) (FilterFilename tr) (FilterMailRuleID tr) (FilterTagID tr) (FilterCorrID tr) (FilterTitleRE tr)
    (FilterContentRE tr) (FilterEmailFrom tr) (FilterEmailSubject tr) (FilterEmailFolder tr) (FilterEmailHasAttachment tr).

Definition MaxEnabledAsks : Z := 5.
Definition MaxAskChoices : nat := 10.
Definition askActionKinds : list string := ["assign_tags"; "assign_correspondent"; "assign_jd_category"; "assign_custom_field"].

(** [nullIfEmpty], [nullIfZero], and [COALESCE] back. *)
Definition nullIfEmpty (s : string) : option string := if bool_decide (s = "") then None else Some s.
Definition nullIfZero (n : Z) : option Z := if n =? 0 then None else Some n.

(** A patch; [Some] is a key that was sent.  [p_Ask] is the raw JSON. *)
Record AutomationPatch : Type := MkPatch {
  p_Name : option string; p_OrderIndex : option Z; p_Enabled : option bool; p_Triggers : option (list Trigger);
  p_Ask : option string; p_Actions : option (list Action);
}.
Record ModelQuestion : Type := MkQuestion { mq_AutomationID : Z; mq_Question : string; AllowedAnswers : list string }.
Record MatchedQuestion : Type := MkMatched { mm_Automation : Automation; mm_Question : ModelQuestion }.

Section Store.
Context (P : platform) (regexp : string -> string -> option bool) (X : texts) (R : option Registry).

(** [sort.Slice] by text: triggers with the same text are the same to the signature. *)
Definition action_sig (a : Action) : option string :=
  if bool_decide (Params a = ∅) then Some (action_text X (Kind a) (When a) None)
  else (fun t => action_text X (Kind a) (When a) (Some t)) <$> params_text X (Params a).
Definition signatureOf (a : Automation) : result rule_error string :=
  match mapM action_sig (Actions a) with
  | Some acts =>
      Ok (rule_text X (merge_sort string_le ((fun t => trigger_text X (triggerToSig t)) <$> Triggers a))
            (ask_text X <$> au_Ask a) acts)
  | None => Err EJSON
  end.

(** * Reading *)

Definition of_trigger_row (id : Z) (r : trigger_row) : Trigger :=
  MkTrigger id (tw_type r) (TriggerToCode (tw_type r)) (default "" (tw_path r)) (default "" (tw_filename r))
    (default 0 (tw_mailrule r)) (default 0 (tw_tag r)) (default 0 (tw_corr r)) (default "" (tw_title_re r))
    (default "" (tw_content_re r)) (default "" (tw_email_from r)) (default "" (tw_email_subject r))
    (default "" (tw_email_folder r)) ((fun n => negb (n =? 0)) <$> tw_email_has_attachment r).
(** [ORDER BY id]. *)
Definition id_le {A} (x y : Z * A) : Prop := x.1 <= y.1.
#[export] Instance id_le_dec {A} (x y : Z * A) : Decision (id_le x y) := Z_le_dec _ _.
Definition listTriggers (d : rules) (atm : Z) : list Trigger :=
  (fun x => of_trigger_row x.1 x.2) <$>
    merge_sort id_le (filter (fun x => tw_automation x.2 = atm) (map_to_list (automation_triggers d))).
Definition listAsk (d : rules) (atm : Z) : result rule_error (option Ask) :=
  match automation_asks d !! atm with
  | None => Ok None
  | Some q =>
      match choices_of X (aq_choices q) with
      | Some choices => Ok (Some (MkAsk (aq_question q) (MkAnswer (aq_answer_type q) choices)))
      | None => Err EJSON
      end
  end.
(** [ORDER BY order_index, id]. *)
Definition order_le (x y : Z * action_row) : Prop :=
  aw_order_index x.2 < aw_order_index y.2 \/ (aw_order_index x.2 = aw_order_index y.2 /\ x.1 <= y.1).
#[export] Instance order_le_dec x y : Decision (order_le x y).
Proof. unfold order_le. apply _. Defined.
Definition of_action_row (id : Z) (r : action_row) : option Action :=
  ps ← (if bool_decide (aw_params r = "") then Some ∅ else params_of X (aw_params r));
  Some (MkAction id (aw_order_index r) (aw_kind r) (default "" (aw_when r)) ps).
Definition listActions (d : rules) (atm : Z) : result rule_error (list Action) :=
  match mapM (fun x => of_action_row x.1 x.2)
          (merge_sort order_le (filter (fun x => aw_automation x.2 = atm) (map_to_list (automation_actions d)))) with
  | Some l => Ok l
  | None => Err EJSON
  end.
Definition read_rule (d : rules) (id : Z) (r : rule_row) : result rule_error Automation :=
  ask ← listAsk d id;
  acts ← listActions d id;
  Ok (MkAutomation id (ru_name r) (ru_order_index r) (ru_enabled r) (ru_suspended r) (listTriggers d id) ask acts
        (ru_created_at r) (ru_updated_at r)).
Definition Get (d : rules) (systemID id : Z) : result rule_error Automation :=
  match automations d !! id with
  | Some r => require ru_system r =? systemID else ENoRows in read_rule d id r
  | None => Err ENoRows
  end.
Definition rule_le (x y : Z * rule_row) : Prop :=
  ru_order_index x.2 < ru_order_index y.2 \/ (ru_order_index x.2 = ru_order_index y.2 /\ x.1 <= y.1).
#[export] Instance rule_le_dec x y : Decision (rule_le x y).
Proof. unfold rule_le. apply _. Defined.
Fixpoint read_rules (d : rules) (l : list (Z * rule_row)) : result rule_error (list Automation) :=
  match l with [] => Ok [] | (id, r) :: l => a ← read_rule d id r; l ← read_rules d l; Ok (a :: l) end.
Definition ListTx (d : rules) (systemID : Z) : result rule_error (list Automation) :=
  read_rules d (merge_sort rule_le (filter (fun x => ru_system x.2 = systemID) (map_to_list (automations d)))).
(** Enabled, active rules with a trigger of the type. *)
Definition fires (d : rules) (systemID : Z) (t : string) (id : Z) (r : rule_row) : bool :=
  (ru_system r =? systemID) && ru_enabled r && negb (ru_suspended r)
  && exists_row (fun _ tr => (tw_automation tr =? id) && bool_decide (tw_type tr = t)) (automation_triggers d).
Definition ByTrigger (d : rules) (systemID : Z) (t : string) : result rule_error (list Automation) :=
  read_rules d (merge_sort rule_le (filter (fun x => fires d systemID t x.1 x.2 = true) (map_to_list (automations d)))).

(** * Questions *)

Definition canonicalAnswer (value : string) (allowed : list string) : string :=
  default "" (snd <$> list_find (fun answer => EqualFold X value answer = true) allowed).
Fixpoint normalize_choices (l seen : list string) : result rule_error (list string) :=
  match l with
  | [] => Ok seen
  | choice :: l =>
      let choice := TrimSpace choice in
      let n := RuneCountInString choice in
      fail_if (n <? 1)%nat || (40 <? n)%nat with EMessage "ask choice must contain 1 to 40 characters" in
      fail_if EqualFold X choice "unknown" || negb (bool_decide (canonicalAnswer choice seen = ""))
        with EMessage "ask choice is reserved or duplicated" in
      normalize_choices l (seen ++ [choice])
  end.
(** The answers and the normalized declaration. *)
Definition normalizeAskAnswers (an : AskAnswer) : result rule_error (list string * AskAnswer) :=
  if bool_decide (an_Type an = "yes_no") then
    fail_if negb (bool_decide (Choices an = [])) with EMessage "yes_no ask cannot define choices" in
    Ok (["yes"; "no"; "unknown"], an)
  else if bool_decide (an_Type an = "choice") then
    fail_if (length (Choices an) <? 2)%nat || (MaxAskChoices <? length (Choices an))%nat
      with EMessage "choice ask requires 2 to 10 choices" in
    seen ← normalize_choices (Choices an) [];
    Ok (seen ++ ["unknown"], MkAnswer (an_Type an) seen)
  else Err (EMessage "unsupported ask answer type").

(** A typed value back in the parameters. *)
Definition raw_of_typed (t : typed_value) : raw_value :=
  match t with
  | TString s => RString s | TFloat v => RFloat v | TInt64 z => RInt64 z | TBool b => RBool b | TStrings l => RStrings l
  end.
Definition empty_typed (t : typed_value) : bool :=
  match t with TString s => bool_decide (s = "") | TStrings l => bool_decide (default [] l = []) | _ => false end.
Definition normalizeAskCustomField (s : archive) (systemID fieldID : Z) (ps : params) : result rule_error params :=
  match given (ps !! "value") with
  | None => Err (EMessage "custom field value required")
  | Some v =>
      match custom_fields (custom s) !! fieldID with
      | None => Err ENoRows
      | Some f =>
          require f_system f =? systemID else ENoRows in
          fail_if bool_decide (f_data_type f = "documentlink") with EMessage "documentlink custom fields are not supported by ask" in
          typed ← of_field (CustomField.Validate (lookup P (f_data_type f)) (f_extra f) (raw_of v));
          fail_if empty_typed typed with EMessage "custom field value cannot be empty" in
          match typed_text X typed with
          | None => Err EJSON
          | Some encoded =>
              fail_if (1024 <? String.length encoded)%nat with EMessage "custom field value exceeds 1024 bytes" in
              Ok (<["value" := PV (raw_of_typed typed)]> ps)
          end
      end
  end.
(** Where an action writes, when it can hold one value only; and its normalized parameters. *)
Definition ask_destination (s : archive) (systemID : Z) (a : Action) : result rule_error (string * params) :=
  if bool_decide (Kind a = "assign_correspondent") then Ok ("correspondent", Params a)
  else if bool_decide (Kind a = "assign_jd_category") then Ok ("jd_category", Params a)
  else if bool_decide (Kind a = "assign_custom_field") then
    fieldID ← requiredActionID P (Params a) "field_id";
    ps ← normalizeAskCustomField s systemID fieldID (Params a);
    Ok ("custom_field:" +:+ FormatInt fieldID, ps)
  else Ok ("", Params a).
Fixpoint normalize_actions (s : archive) (systemID : Z) (answers seen : list string) (l : list Action)
    : result rule_error (list Action) :=
  match l with
  | [] => Ok []
  | a :: l =>
      require existsb (String.eqb (Kind a)) askActionKinds else EMessage "ask action: unsupported kind" in
      let w := canonicalAnswer (TrimSpace (When a)) answers in
      fail_if bool_decide (w = "") || bool_decide (w = "unknown")
        with EMessage "ask action: when must name a declared non-unknown answer" in
      '(destination, ps) ← ask_destination s systemID a;
      let key := w +:+ String (chr 0) destination in
      fail_if negb (bool_decide (destination = "")) && existsb (String.eqb key) seen
        with EMessage "ask answer assigns more than once" in
      let seen := if bool_decide (destination = "") then seen else key :: seen in
      l ← normalize_actions s systemID answers seen l;
      Ok (MkAction (ac_ID a) (ac_OrderIndex a) (Kind a) w ps :: l)
  end.
Definition ask_trigger_ok (tr : Trigger) : bool :=
  bool_decide (normalizedTriggerType tr = TriggerDocumentAdded) && bool_decide (FilterPath tr = "")
  && bool_decide (FilterFilename tr = "") && (FilterMailRuleID tr =? 0) && bool_decide (FilterEmailFrom tr = "")
  && bool_decide (FilterEmailSubject tr = "") && bool_decide (FilterEmailFolder tr = "")
  && bool_decide (FilterEmailHasAttachment tr = None).
Definition set_ask_actions (ask : option Ask) (acts : list Action) (a : Automation) : Automation :=
  MkAutomation (au_ID a) (au_Name a) (au_OrderIndex a) (Enabled a) (Suspended a) (Triggers a) ask acts
    (au_CreatedAt a) (au_UpdatedAt a).
Definition normalizeAsk (s : archive) (systemID : Z) (a : Automation) : result rule_error Automation :=
  match au_Ask a with
  | None => fail_if existsb (fun x => negb (bool_decide (When x = ""))) (Actions a) with EMessage "when requires ask" in Ok a
  | Some ask =>
      fail_if bool_decide (Triggers a = []) with EMessage "ask requires a document_added trigger" in
      require forallb ask_trigger_ok (Triggers a)
        else EMessage "ask trigger only supports persisted document_added filters" in
      let question := TrimSpace (Question ask) in
      let n := RuneCountInString question in
      fail_if (n <? 1)%nat || (1000 <? n)%nat with EMessage "ask question must contain 1 to 1000 characters" in
      '(answers, an) ← normalizeAskAnswers (Answer ask);
      acts ← normalize_actions s systemID answers [] (Actions a);
      Ok (set_ask_actions (Some (MkAsk question an)) acts a)
  end.

(** * Writing *)

Definition glob_valid (pattern : string) : bool :=
  bool_decide (pattern = "") || is_ok (Match pattern "").
Definition regex_valid (pattern : string) : bool :=
  bool_decide (pattern = "") || bool_decide (is_Some (regexp ("(?i)" +:+ pattern) "")).
Definition trigger_valid (tr : Trigger) : result rule_error unit :=
  fail_if TriggerToCode (normalizedTriggerType tr) =? 0 with EMessage "trigger: unsupported type" in
  require forallb glob_valid [FilterPath tr; FilterFilename tr; FilterEmailFrom tr; FilterEmailSubject tr]
    else EMessage "trigger: invalid glob" in
  require forallb regex_valid [FilterTitleRE tr; FilterContentRE tr] else EMessage "trigger: invalid regex" in Ok tt.
Fixpoint ValidateTriggers (l : list Trigger) : result rule_error unit :=
  match l with [] => Ok tt | tr :: l => _ ← trigger_valid tr; ValidateTriggers l end.
Fixpoint validateActions (s : archive) (systemID : Z) (l : list Action) : result rule_error unit :=
  match l with [] => Ok tt | a :: l => _ ← validate R s systemID a; validateActions s systemID l end.

Definition trigger_refs (s : archive) (systemID : Z) (tr : Trigger) : result rule_error unit :=
  _ ← (if FilterTagID tr =? 0 then Ok tt else validateReferences s systemID "tags" [FilterTagID tr]);
  if FilterCorrID tr =? 0 then Ok tt else validateReferences s systemID "correspondents" [FilterCorrID tr].
Definition to_trigger_row (atm now : Z) (tr : Trigger) : trigger_row :=
  MkTriggerRow atm (normalizedTriggerType tr) (nullIfEmpty (FilterPath tr)) (nullIfEmpty (FilterFilename tr))
    (nullIfZero (FilterMailRuleID tr)) (nullIfZero (FilterTagID tr)) (nullIfZero (FilterCorrID tr))
    (nullIfEmpty (FilterTitleRE tr)) (nullIfEmpty (FilterContentRE tr)) (nullIfEmpty (FilterEmailFrom tr))
    (nullIfEmpty (FilterEmailSubject tr)) (nullIfEmpty (FilterEmailFolder tr))
    (Z.b2z <$> FilterEmailHasAttachment tr) now.
Fixpoint writeTriggers (s : archive) (systemID atm now : Z) (l : list Trigger) (d : rules) : result rule_error rules :=
  match l with
  | [] => Ok d
  | tr :: l =>
      _ ← trigger_refs s systemID tr;
      writeTriggers s systemID atm now l
        (with_triggers <[next_rowid (automation_triggers d) := to_trigger_row atm now tr]> d)
  end.

(** The column checks of [automation_asks] and of [when_answer]. *)
Definition ask_checked (q : Ask) : bool :=
  let n := sql_length (sql_trim (Question q)) in
  (1 <=? n)%nat && (n <=? 1000)%nat && (bool_decide (an_Type (Answer q) = "yes_no") || bool_decide (an_Type (Answer q) = "choice")).
Definition when_checked (w : option string) : bool :=
  match w with None => true | Some w => let n := sql_length (sql_trim w) in (1 <=? n)%nat && (n <=? 40)%nat end.
Definition writeAsk (atm : Z) (ask : option Ask) (d : rules) : result rule_error rules :=
  let d := with_asks (delete atm) d in
  match ask with
  | None => Ok d
  | Some q =>
      require ask_checked q else ECheck in
      Ok (with_asks <[atm := MkAskRow (Question q) (an_Type (Answer q)) (choices_text X (Choices (Answer q)))]> d)
  end.
(** [i] counts the actions before; an order of 0 becomes it. *)
Fixpoint writeActions (s : archive) (systemID atm now : Z) (i : Z) (l : list Action) (d : rules) : result rule_error rules :=
  match l with
  | [] => Ok d
  | a :: l =>
      _ ← validate R s systemID a;
      match params_text X (Params a) with
      | None => Err EJSON
      | Some raw =>
          let order := if ac_OrderIndex a =? 0 then i else ac_OrderIndex a in
          let w := nullIfEmpty (When a) in
          require when_checked w else ECheck in
          writeActions s systemID atm now (i + 1) l
            (with_actions <[next_rowid (automation_actions d) := MkActionRow atm order (Kind a) w raw now]> d)
      end
  end.
Definition validateAskLimit (systemID : Z) (d : rules) : result rule_error unit :=
  let active id := match automations d !! id with
                   | Some r => (ru_system r =? systemID) && ru_enabled r && negb (ru_suspended r) | None => false end in
  fail_if MaxEnabledAsks <? Z.of_nat (length (filter (fun x => active x.1 = true) (map_to_list (automation_asks d))))
    with EMessage "at most 5 enabled asks are allowed per filing system" in Ok tt.

(** The first other rule with the same signature. *)
Fixpoint find_signature (sig : string) (exclude : Z) (l : list Automation) : result rule_error unit :=
  match l with
  | [] => Ok tt
  | a :: l =>
      if au_ID a =? exclude then find_signature sig exclude l
      else t ← signatureOf a;
           if bool_decide (t = sig) then Err (EDuplicate (au_ID a) (au_Name a) (Enabled a)) else find_signature sig exclude l
  end.
Definition findMatching (committed : rules) (systemID : Z) (a : Automation) (exclude : Z) : result rule_error unit :=
  sig ← signatureOf a;
  l ← ListTx committed systemID;
  find_signature sig exclude l.

(** [UNIQUE(system_id, name)]. *)
Definition name_taken (d : rules) (except : option Z) (systemID : Z) (name : string) : bool :=
  exists_row (fun id r => negb (bool_decide (except = Some id)) && (ru_system r =? systemID) && bool_decide (ru_name r = name))
    (automations d).

Definition CreateInTx (s : archive) (committed : rules) (now systemID : Z) (a : Automation) (d : rules)
    : result rule_error (Z * rules) :=
  fail_if bool_decide (au_Name a = "") with EMessage "name required" in
  a ← normalizeAsk s systemID a;
  _ ← ValidateTriggers (Triggers a);
  _ ← validateActions s systemID (Actions a);
  _ ← findMatching committed systemID a 0;
  fail_if name_taken d None systemID (au_Name a) with EUnique in
  require bool_decide (is_Some (jd_systems (dir s) !! systemID)) else EForeignKey in
  let id := next_rowid (automations d) in
  let d := with_automations <[id := MkRule systemID (au_Name a) (au_OrderIndex a) (Enabled a) false now now]> d in
  d ← writeTriggers s systemID id now (Triggers a) d;
  d ← writeAsk id (au_Ask a) d;
  d ← writeActions s systemID id now 0 (Actions a) d;
  _ ← validateAskLimit systemID d;
  Ok (id, d).

(** The decoded ask and whether the key was sent. *)
Definition decodeAskPatch (raw : option string) : result rule_error (option Ask * bool) :=
  match raw with
  | None => Ok (None, false)
  | Some raw =>
      if bool_decide (raw = "null") then Ok (None, true)
      else match ask_of X raw with Some q => Ok (Some q, true) | None => Err (EMessage "invalid ask") end
  end.
Definition applyPatch (orig : Automation) (p : AutomationPatch) : Automation :=
  MkAutomation (au_ID orig) (default (au_Name orig) (p_Name p)) (default (au_OrderIndex orig) (p_OrderIndex p))
    (default (Enabled orig) (p_Enabled p)) (Suspended orig) (default (Triggers orig) (p_Triggers p)) (au_Ask orig)
    (default (Actions orig) (p_Actions p)) (au_CreatedAt orig) (au_UpdatedAt orig).
Definition patchFields (id now : Z) (p : AutomationPatch) (d : rules) : result rule_error rules :=
  match automations d !! id with
  | None => Err ENoRows
  | Some r =>
      fail_if match p_Name p with Some name => name_taken d (Some id) (ru_system r) name | None => false end with EUnique in
      Ok (with_automations <[id := MkRule (ru_system r) (default (ru_name r) (p_Name p))
            (default (ru_order_index r) (p_OrderIndex p)) (default (ru_enabled r) (p_Enabled p)) (ru_suspended r)
            (ru_created_at r) now]> d)
  end.
(** [writeTriggers] and [writeActions] read the system of the row. *)
Definition row_system (d : rules) (id : Z) : result rule_error Z :=
  match automations d !! id with Some r => Ok (ru_system r) | None => Err ENoRows end.
Definition applyFieldUpdate (s : archive) (now id : Z) (p : AutomationPatch) (d : rules) : result rule_error rules :=
  d ← patchFields id now p d;
  d ← match p_Triggers p with
      | None => Ok d
      | Some l =>
          let d := with_triggers (filter (fun x => tw_automation x.2 <> id)) d in
          systemID ← row_system d id; writeTriggers s systemID id now l d
      end;
  '(ask, sent) ← decodeAskPatch (p_Ask p);
  d ← (if sent : bool then writeAsk id ask d else Ok d);
  match p_Actions p with
  | None => Ok d
  | Some l =>
      let d := with_actions (filter (fun x => aw_automation x.2 <> id)) d in
      systemID ← row_system d id; writeActions s systemID id now 0 l d
  end.
Definition set_p_actions (l : list Action) (p : AutomationPatch) : AutomationPatch :=
  MkPatch (p_Name p) (p_OrderIndex p) (p_Enabled p) (p_Triggers p) (p_Ask p) (Some l).
Definition UpdateInTx (s : archive) (committed : rules) (now systemID id : Z) (p : AutomationPatch) (d : rules)
    : result rule_error (Z * rules) :=
  fail_if bool_decide (p_Name p = Some "") with EMessage "name cannot be empty" in
  orig ← Get committed systemID id;
  '(ask, sent) ← decodeAskPatch (p_Ask p);
  let post := applyPatch orig p in
  let post := if sent : bool then set_ask_actions ask (Actions post) post else post in
  post ← normalizeAsk s systemID post;
  let p := if bool_decide (is_Some (p_Actions p)) || sent then set_p_actions (Actions post) p else p in
  _ ← ValidateTriggers (Triggers post);
  _ ← validateActions s systemID (Actions post);
  _ ← findMatching committed systemID post id;
  d ← applyFieldUpdate s now id p d;
  _ ← validateAskLimit systemID d;
  Ok (id, d).
(** Children go with the row. *)
Definition DeleteInTx (systemID id : Z) (d : rules) : result rule_error rules :=
  match automations d !! id with
  | Some r =>
      require ru_system r =? systemID else ENoRows in
      Ok (Rules (delete id (automations d)) (filter (fun x => tw_automation x.2 <> id) (automation_triggers d))
            (filter (fun x => aw_automation x.2 <> id) (automation_actions d)) (delete id (automation_asks d)))
  | None => Err ENoRows
  end.

(** The transactions of one call: what is committed is what the transaction starts from. *)
Definition Create (s : archive) (now systemID : Z) (a : Automation) (d : rules) : result rule_error (Automation * rules) :=
  '(id, d) ← CreateInTx s d now systemID a d;
  a ← Get d systemID id;
  Ok (a, d).
Definition Update (s : archive) (now systemID id : Z) (p : AutomationPatch) (d : rules) : result rule_error (Automation * rules) :=
  '(id, d) ← UpdateInTx s d now systemID id p d;
  a ← Get d systemID id;
  Ok (a, d).

(** * Events and questions *)

Definition no_event (docID : Z) : Event := MkEvent docID "" "" 0 false "" "" "" false.
(** Shared by the three entry points: how many rules matched, the error, the archive. *)
Definition apply_rules (d : rules) (now docID actorID : Z) (t : string) (e : Event) (s : archive)
    : nat * option rule_error * archive :=
  match documents s !! docID with
  | None => (0%nat, Some ENoRows, s)
  | Some c =>
      match ByTrigger d (c_system c) t with
      | Err err => (0%nat, Some err, s)
      | Ok [] => (0%nat, None, s)
      | Ok atms =>
          match loadSnapshot s docID with
          | Err err => (0%nat, Some err, s)
          | Ok sn => let '(n, err, s) := runMatching regexp R now actorID t sn e atms s in (n, snd <$> err, s)
          end
      end
  end.
Definition ApplyOnDocumentAddedCount (d : rules) (now docID actorID : Z) (s : archive) : nat * option rule_error * archive :=
  apply_rules d now docID actorID TriggerDocumentAdded (no_event docID) s.
Definition ApplyOnDocumentUpdated (d : rules) (now docID : Z) (s : archive) : option rule_error * archive :=
  let '(_, err, s) := apply_rules d now docID 0 TriggerDocumentUpdated (no_event docID) s in (err, s).
Definition ApplyOnConsumption (d : rules) (now docID : Z) (e : Event) (s : archive) : option rule_error * archive :=
  let e := MkEvent docID (SourcePath e) (Filename e) (MailRuleID e) (HasEmail e) (EmailFrom e) (EmailSubject e)
             (EmailFolder e) (EmailHasAttachment e) in
  let '(_, err, s) := apply_rules d now docID 0 TriggerConsumption e s in (err, s).

Definition allowedAnswers (an : AskAnswer) : list string :=
  if bool_decide (an_Type an = "yes_no") then ["yes"; "no"; "unknown"] else Choices an ++ ["unknown"].
Definition question_of (a : Automation) : option MatchedQuestion :=
  (fun q => MkMatched a (MkQuestion (au_ID a) (Question q) (allowedAnswers (Answer q)))) <$> au_Ask a.
Definition asks_about (sn : docSnapshot) (docID : Z) (a : Automation) : bool :=
  Enabled a && negb (Suspended a)
  && existsb (fun tr => bool_decide (tr_Type tr = TriggerDocumentAdded) && matchesTrigger regexp tr sn (no_event docID)) (Triggers a).
Definition MatchingQuestionsTx (d : rules) (s : archive) (systemID docID : Z) : result rule_error (list MatchedQuestion) :=
  l ← ListTx d systemID;
  sn ← loadSnapshot s docID;
  let found := omap question_of (filter (fun a => asks_about sn docID a = true) l) in
  fail_if MaxEnabledAsks <? Z.of_nat (length found) with EMessage "matching asks exceed limit" in Ok found.
Definition same_question (x y : MatchedQuestion) : bool :=
  (au_ID (mm_Automation x) =? au_ID (mm_Automation y)) && (au_OrderIndex (mm_Automation x) =? au_OrderIndex (mm_Automation y))
  && match signatureOf (mm_Automation x), signatureOf (mm_Automation y) with
     | Ok l, Ok r => bool_decide (l = r) | _, _ => false end.
Fixpoint SameQuestionMatches (before after : list MatchedQuestion) : bool :=
  match before, after with
  | [], [] => true
  | x :: before, y :: after => same_question x y && SameQuestionMatches before after
  | _, _ => false
  end.
End Store.
