(* ===== verification/AutomationRows.v ===== *)
(** Reading back what [AutomationStore] writes: rows in the order of their ids, and the rules
    that hold of the tables at all times. *)
From S2P Require Import Prelude GoStd Utf8 Sqlite Systems Authz Slug CustomField FilePath Paths Glob DocumentChange Taxonomy Automation AutomationStore.

(** * Rows in order *)

Definition rows_by_id {A} (f : A -> Prop) `{forall x, Decision (f x)} (m : gmap Z A) : list (Z * A) :=
  merge_sort id_le (filter (fun x => f x.2) (map_to_list m)).
#[export] Instance id_le_trans {A} : Transitive (@id_le A).
Proof. intros x y z. unfold id_le. lia. Qed.
#[export] Instance id_le_total {A} : Total (@id_le A).
Proof. intros x y. unfold id_le. lia. Qed.

Lemma rows_elem {A} (f : A -> Prop) `{forall x, Decision (f x)} (m : gmap Z A) x :
  x ∈ filter (fun x => f x.2) (map_to_list m) <-> f x.2 /\ m !! x.1 = Some x.2.
Proof. destruct x as [k v]. by rewrite list_elem_of_filter, elem_of_map_to_list. Qed.
(** A sorted listing of the rows is the only one. *)
Lemma rows_unique {A} (R : relation (Z * A)) `{forall x y, Decision (R x y), !Transitive R, !Total R}
    (f : A -> Prop) `{forall x, Decision (f x)} (m : gmap Z A) l :
  (forall x y, R x y -> R y x -> x.1 = y.1) -> l ≡ₚ filter (fun x => f x.2) (map_to_list m) -> StronglySorted R l ->
  merge_sort R (filter (fun x => f x.2) (map_to_list m)) = l.
Proof.
  intros HR Hl Hs. apply (StronglySorted_unique_strong R); [|by apply (StronglySorted_merge_sort R)|done|by rewrite merge_sort_Permutation].
  intros x y Hx Hy H1 H2. rewrite merge_sort_Permutation in Hx. rewrite Hl in Hy.
  apply rows_elem in Hx as [_ Hx], Hy as [_ Hy]. pose proof (HR _ _ H1 H2) as E. destruct x, y. cbn in *. subst. congruence.
Qed.
Lemma map_to_list_filter_insert {A} (f : A -> Prop) `{forall x, Decision (f x)} (m : gmap Z A) k v :
  m !! k = None ->
  filter (fun x => f x.2) (map_to_list (<[k := v]> m)) ≡ₚ
    (if decide (f v) then [(k, v)] else []) ++ filter (fun x => f x.2) (map_to_list m).
Proof. intros Hk. rewrite map_to_list_insert by done. rewrite filter_cons. cbn. by destruct (decide (f v)). Qed.
(** The next row of an ordered table comes last. *)
Lemma rows_append {A} (f : A -> Prop) `{forall x, Decision (f x)} (m : gmap Z A) v :
  rows_by_id f (<[next_rowid m := v]> m) = rows_by_id f m ++ (if decide (f v) then [(next_rowid m, v)] else []).
Proof.
  unfold rows_by_id. apply (rows_unique id_le).
  - unfold id_le. lia.
  - rewrite map_to_list_filter_insert by apply next_rowid_None. rewrite merge_sort_Permutation. by rewrite (comm (++)).
  - apply StronglySorted_app_2; [|apply (StronglySorted_merge_sort id_le)|destruct (decide (f v)); repeat constructor].
    intros x y Hx Hy. rewrite merge_sort_Permutation in Hx. apply rows_elem in Hx as [_ Hx].
    destruct (decide (f v)); [|by apply not_elem_of_nil in Hy]. apply list_elem_of_singleton in Hy as ->.
    unfold id_le. cbn. pose proof (next_rowid_fresh _ _ _ Hx). lia.
Qed.
Lemma rows_none {A} (f : A -> Prop) `{forall x, Decision (f x)} (m : gmap Z A) :
  (forall k v, m !! k = Some v -> ~ f v) -> filter (fun x => f x.2) (map_to_list m) = [].
Proof.
  intros H'. destruct (filter _ _) as [|x l] eqn:E; [done|]. exfalso.
  assert (Hx : x ∈ filter (fun x => f x.2) (map_to_list m)) by (rewrite E; by left).
  apply rows_elem in Hx as [Hf Hm]. by eapply H'.
Qed.
Lemma rows_by_none {A} (f : A -> Prop) `{forall x, Decision (f x)} (m : gmap Z A) :
  (forall k v, m !! k = Some v -> ~ f v) -> rows_by_id f m = [].
Proof. intros H'. unfold rows_by_id. by rewrite rows_none. Qed.

Lemma mapM_snoc {A B} (f : A -> option B) l x ys y :
  mapM f l = Some ys -> f x = Some y -> mapM f (l ++ [x]) = Some (ys ++ [y]).
Proof. rewrite !mapM_Some. intros H Hx. apply Forall2_app; [done|]. by constructor. Qed.

(** * Triggers *)

Lemma null_empty s : default "" (nullIfEmpty s) = s.
Proof. unfold nullIfEmpty. by case_bool_decide. Qed.
Lemma null_zero n : default 0 (nullIfZero n) = n.
Proof. unfold nullIfZero. by destruct (Z.eqb_spec n 0). Qed.
(** A row keeps all that a trigger means. *)
Lemma trigger_readback id atm now tr : triggerToSig (of_trigger_row id (to_trigger_row atm now tr)) = triggerToSig tr.
Proof.
  unfold triggerToSig. cbn. rewrite !null_empty, !null_zero. f_equal.
  - unfold normalizedTriggerType. destruct (bool_decide (tr_Type tr = "")) eqn:E; cbn.
    + bool_simpl. destruct (Z.eqb_spec (TypeCode tr) 0) as [->|Hc]; cbn; [by rewrite E|].
      destruct (bool_decide (TriggerFromCode (TypeCode tr) = "")) eqn:E2; [|done]. bool_simpl. by rewrite E2.
    + by rewrite E.
  - destruct (FilterEmailHasAttachment tr) as [[]|]; done.
Qed.

Section Writes.
Context (P : platform) (regexp : string -> string -> option bool) (X : texts) (R : option Registry).

Lemma writeTriggers_spec s systemID atm now l d d' :
  writeTriggers s systemID atm now l d = Ok d' ->
  automations d' = automations d /\ automation_actions d' = automation_actions d /\ automation_asks d' = automation_asks d /\
  (forall k r, automation_triggers d' !! k = Some r -> automation_triggers d !! k = Some r \/ tw_automation r = atm) /\
  (forall i, triggerToSig <$> listTriggers d' i =
     (triggerToSig <$> listTriggers d i) ++ (if decide (i = atm) then triggerToSig <$> l else [])).
Proof.
  revert d; induction l as [|tr l IH]; intros d; cbn [writeTriggers].
  - intros [= <-]. split_and!; try done; [by left|]. intros i. destruct (decide _); by rewrite app_nil_r.
  - intros (u & _ & H)%bind_Ok. destruct (IH _ H) as (-> & -> & -> & H4 & H5). split_and!; try done.
    + intros k r Hr. destruct (H4 k r Hr) as [Hk|?]; [|by right]. cbn in Hk.
      apply lookup_insert_Some in Hk as [[_ <-]|[_ Hk]]; [by right|by left].
    + intros i. rewrite H5.
      assert (E : listTriggers (with_triggers <[next_rowid (automation_triggers d) := to_trigger_row atm now tr]> d) i
        = listTriggers d i ++ (if decide (atm = i) then [of_trigger_row (next_rowid (automation_triggers d)) (to_trigger_row atm now tr)] else [])).
      { unfold listTriggers. cbn [automation_triggers with_triggers]. pose proof (rows_append (fun r => tw_automation r = i) (automation_triggers d) (to_trigger_row atm now tr)) as Ha.
        unfold rows_by_id in Ha. rewrite Ha. cbn [tw_automation to_trigger_row]. rewrite fmap_app. by destruct (decide (atm = i)). }
      rewrite E, fmap_app, <- app_assoc. f_equal. destruct (decide (atm = i)) as [<-|Hn].
      * rewrite !decide_True by done. rewrite fmap_cons. cbn [list_fmap fmap]. by rewrite trigger_readback.
      * by rewrite !decide_False by congruence.
Qed.
(** * Actions *)

(** What reading a parameter text gives back, and the order a row is stored under. *)
Context (decoded : params -> params).
Hypothesis texts_decode : forall ps t, params_text X ps = Some t -> t <> "" /\ params_of X t = Some (decoded ps).
Definition stored_order (i : Z) (a : Action) : Z := if ac_OrderIndex a =? 0 then i else ac_OrderIndex a.
Fixpoint stored_orders (i : Z) (l : list Action) : list Z :=
  match l with [] => [] | a :: l => stored_order i a :: stored_orders (i + 1) l end.
Definition action_content (a : Action) : string * string * params := (Kind a, When a, Params a).
Definition decoded_content (a : Action) : string * string * params := (Kind a, When a, decoded (Params a)).

Definition actions_of (d : rules) (i : Z) : list (Z * action_row) :=
  filter (fun x => aw_automation x.2 = i) (map_to_list (automation_actions d)).
Lemma actions_elem d i x : x ∈ actions_of d i <-> aw_automation x.2 = i /\ automation_actions d !! x.1 = Some x.2.
Proof. unfold actions_of. destruct x as [k v]. by rewrite list_elem_of_filter, elem_of_map_to_list. Qed.
#[local] Instance order_le_trans : Transitive order_le.
Proof. intros x y z. unfold order_le. lia. Qed.
#[local] Instance order_le_total : Total order_le.
Proof. intros x y. unfold order_le. lia. Qed.
(** A row stored under an order no smaller than the rule's others comes last. *)
Lemma actions_append d i r :
  (forall x, x ∈ actions_of d i -> aw_order_index x.2 <= aw_order_index r) ->
  merge_sort order_le (actions_of (with_actions <[next_rowid (automation_actions d) := r]> d) i) =
    merge_sort order_le (actions_of d i) ++ (if decide (aw_automation r = i) then [(next_rowid (automation_actions d), r)] else []).
Proof.
  intros Ho. unfold actions_of. cbn [automation_actions with_actions].
  pose proof (rows_unique order_le (fun r => aw_automation r = i) (<[next_rowid (automation_actions d) := r]> (automation_actions d))) as Hu.
  apply Hu; clear Hu.
  - intros x y. unfold order_le. lia.
  - pose proof (map_to_list_filter_insert (fun r => aw_automation r = i) _ _ r (next_rowid_None (automation_actions d))) as Hp.
    rewrite Hp, merge_sort_Permutation. by rewrite (comm (++)).
  - apply StronglySorted_app_2; [|apply (StronglySorted_merge_sort order_le)|destruct (decide (aw_automation r = i)); repeat constructor].
    intros x y Hx Hy. rewrite merge_sort_Permutation in Hx. pose proof (Ho _ Hx) as Hle.
    apply actions_elem in Hx as [_ Hx].
    destruct (decide (aw_automation r = i)); [|by apply not_elem_of_nil in Hy]. apply list_elem_of_singleton in Hy as ->.
    unfold order_le. cbn in *. pose proof (next_rowid_fresh _ _ _ Hx). lia.
Qed.
Lemma actions_other d i r :
  aw_automation r <> i ->
  merge_sort order_le (actions_of (with_actions <[next_rowid (automation_actions d) := r]> d) i) = merge_sort order_le (actions_of d i).
Proof.
  intros Hn. pose proof (rows_unique order_le (fun r => aw_automation r = i) (<[next_rowid (automation_actions d) := r]> (automation_actions d))) as Hu.
  apply Hu; clear Hu.
  - intros x y. unfold order_le. lia.
  - pose proof (map_to_list_filter_insert (fun r => aw_automation r = i) _ _ r (next_rowid_None (automation_actions d))) as Hp.
    rewrite Hp, decide_False by done. cbn [app]. by rewrite merge_sort_Permutation.
  - apply (StronglySorted_merge_sort order_le).
Qed.
Lemma writeActions_other s systemID atm now l j : j <> atm -> forall i d d',
  writeActions X R s systemID atm now i l d = Ok d' -> listActions X d' j = listActions X d j.
Proof.
  intros Hj. induction l as [|a l IH]; intros i d d'; cbn [writeActions]; [by intros [= <-]|].
  intros (u & _ & H)%bind_Ok. destruct (params_text X (Params a)); [|done]. destruct (when_checked _); [|done].
  rewrite (IH _ _ _ H). unfold listActions.
  match goal with |- context [with_actions <[_ := ?r]> _] => pose proof (actions_other d j r) as Hl end.
  unfold actions_of in Hl. rewrite Hl; [done|]. cbn. congruence.
Qed.
Lemma listActions_same d d' i : automation_actions d' = automation_actions d -> listActions X d' i = listActions X d i.
Proof. unfold listActions. by intros ->. Qed.

Lemma writeActions_rest s systemID atm now i l d d' :
  writeActions X R s systemID atm now i l d = Ok d' ->
  automations d' = automations d /\ automation_triggers d' = automation_triggers d /\ automation_asks d' = automation_asks d /\
  (forall k r, automation_actions d' !! k = Some r -> automation_actions d !! k = Some r \/ aw_automation r = atm).
Proof.
  revert i d; induction l as [|a l IH]; intros i d; cbn [writeActions]; [intros [= <-]; split_and!; auto|].
  intros (u & _ & H)%bind_Ok. destruct (params_text X (Params a)); [|done]. destruct (when_checked _); [|done].
  destruct (IH _ _ H) as (-> & -> & -> & H4). split_and!; try done.
  intros k r Hr. destruct (H4 k r Hr) as [Hk|?]; [|by right]. cbn in Hk.
  apply lookup_insert_Some in Hk as [[_ <-]|[_ Hk]]; [by right|by left].
Qed.
Lemma writeActions_spec s systemID atm now l : forall i d d' before,
  writeActions X R s systemID atm now i l d = Ok d' ->
  StronglySorted Z.le (stored_orders i l) ->
  (forall x, x ∈ actions_of d atm -> Forall (fun o => aw_order_index x.2 <= o) (stored_orders i l)) ->
  listActions X d atm = Ok before ->
  exists after, listActions X d' atm = Ok (before ++ after) /\ (action_content <$> after) = (decoded_content <$> l).
Proof.
  induction l as [|a l IH]; intros i d d' before; cbn [writeActions stored_orders].
  - intros [= <-] _ _ Hb. exists []. by rewrite app_nil_r.
  - intros (u & _ & H)%bind_Ok Hs Hle Hb. destruct (params_text X (Params a)) as [raw|] eqn:Eraw; [|done].
    destruct (when_checked _) eqn:Ew; [|done]. apply StronglySorted_inv in Hs as [Hs Hhd].
    destruct (texts_decode _ _ Eraw) as [Hne Hdec]. fold (stored_order i a) in H. set (r := MkActionRow atm (stored_order i a) _ _ _ _) in H.
    set (d1 := with_actions _ d) in H.
    assert (Hord : merge_sort order_le (actions_of d1 atm) = merge_sort order_le (actions_of d atm) ++ [(next_rowid (automation_actions d), r)]).
    { unfold d1. rewrite actions_append; [by rewrite decide_True|]. intros x Hx. cbn. specialize (Hle x Hx). by inversion Hle. }
    assert (Hb1 : listActions X d1 atm = Ok (before ++ [MkAction (next_rowid (automation_actions d)) (stored_order i a) (Kind a) (When a) (decoded (Params a))])).
    { unfold listActions in Hb |- *. fold (actions_of d atm) in Hb. fold (actions_of d1 atm). rewrite Hord.
      destruct (mapM _ (merge_sort order_le (actions_of d atm))) as [l0|] eqn:El; [|done]. injection Hb as ->.
      erewrite mapM_snoc; [reflexivity|exact El|]. unfold of_action_row. cbn [snd fst aw_params r].
      rewrite bool_decide_false by done. rewrite Hdec. cbn. by rewrite null_empty. }
    assert (Hle1 : forall x, x ∈ actions_of d1 atm -> Forall (fun o => aw_order_index x.2 <= o) (stored_orders (i + 1) l)).
    { intros x Hx. assert (Hx' : x ∈ merge_sort order_le (actions_of d1 atm)) by (by rewrite merge_sort_Permutation).
      rewrite Hord in Hx'. apply elem_of_app in Hx' as [Hx'|Hx'%list_elem_of_singleton].
      - rewrite merge_sort_Permutation in Hx'. specialize (Hle x Hx'). by inversion Hle.
      - subst x. exact Hhd. }
    destruct (IH _ _ _ _ H Hs Hle1 Hb1) as (after & Ha & Hc). exists (MkAction (next_rowid (automation_actions d)) (stored_order i a) (Kind a) (When a) (decoded (Params a)) :: after).
    split; [rewrite Ha, <- app_assoc; done|]. rewrite !fmap_cons. by f_equal.
Qed.
End Writes.
