(* ===== verification/AutomationStoreProps.v ===== *)
(** What the store of automations promises: signatures tell rules apart by content, a saved
    rule reads back as it was sent, no two rules of a system are the same, children belong to
    rules and questions stay within their limit — and where these promises stop. *)
From S2P Require Import Prelude GoStd Utf8 Sqlite Systems Authz AuthzFacts Slug CustomField FilePath Paths Glob DocumentChange Taxonomy Automation AutomationFacts AutomationReplay AutomationProps AutomationStore AutomationRows.

(** * The tables at all times *)

(** Enabled questions of a system. *)
Definition is_active (systemID : Z) (d : rules) (id : Z) : bool :=
  match automations d !! id with
  | Some r => (ru_system r =? systemID) && ru_enabled r && negb (ru_suspended r) | None => false end.
Definition active_asks (systemID : Z) (d : rules) : gset Z := filter (fun id => is_active systemID d id = true) (dom (automation_asks d)).

Record rules_wf (d : rules) : Prop := {
  rw_triggers : forall k r, automation_triggers d !! k = Some r -> is_Some (automations d !! tw_automation r);
  rw_actions : forall k r, automation_actions d !! k = Some r -> is_Some (automations d !! aw_automation r);
  rw_asks : forall k, is_Some (automation_asks d !! k) -> is_Some (automations d !! k);
  rw_names : forall i j r1 r2, automations d !! i = Some r1 -> automations d !! j = Some r2 ->
    ru_system r1 = ru_system r2 -> ru_name r1 = ru_name r2 -> i = j;
  rw_positive : forall i, is_Some (automations d !! i) -> 0 < i;
  rw_limit : forall systemID, Z.of_nat (size (active_asks systemID d)) <= MaxEnabledAsks;
}.

(** A write to the children of one rule. *)
Record touches (atm : Z) (d d' : rules) : Prop := {
  to_automations : automations d' = automations d;
  to_triggers : forall k r, automation_triggers d' !! k = Some r -> automation_triggers d !! k = Some r \/ tw_automation r = atm;
  to_actions : forall k r, automation_actions d' !! k = Some r -> automation_actions d !! k = Some r \/ aw_automation r = atm;
  to_asks : forall k, k <> atm -> automation_asks d' !! k = automation_asks d !! k;
}.
#[export] Instance touches_preorder atm : PreOrder (touches atm).
Proof.
  split; [by intros d; split; auto|]. intros d1 d2 d3 [A1 A2 A3 A4] [B1 B2 B3 B4]. split.
  - congruence.
  - intros k r [H|?]%B2; [by apply A2|by right].
  - intros k r [H|?]%B3; [by apply A3|by right].
  - intros k Hk. by rewrite B4, A4.
Qed.

Lemma active_elem systemID d k :
  k ∈ active_asks systemID d <-> is_Some (automation_asks d !! k) /\ is_active systemID d k = true.
Proof. unfold active_asks. rewrite elem_of_filter, elem_of_dom. tauto. Qed.
Lemma ask_limit systemID d :
  validateAskLimit systemID d = Ok tt -> Z.of_nat (size (active_asks systemID d)) <= MaxEnabledAsks.
Proof.
  unfold validateAskLimit. fold (is_active systemID d). match goal with |- context [length ?l] => set (lst := l) end.
  destruct (Z.ltb_spec MaxEnabledAsks (Z.of_nat (length lst))) as [|H]; [done|]. intros _.
  enough (size (active_asks systemID d) = length lst) as -> by done.
  assert (E : active_asks systemID d = list_to_set lst.*1).
  { apply set_eq. intros k. rewrite active_elem, elem_of_list_to_set, list_elem_of_fmap. unfold lst. split.
    - intros [[q Hq] Ha]. exists (k, q). split; [done|]. apply list_elem_of_filter. split; [done|]. by apply elem_of_map_to_list.
    - intros ([i q] & -> & Hi). apply list_elem_of_filter in Hi as [Ha Hi]. apply elem_of_map_to_list in Hi. cbn in *. split; [by eexists|done]. }
  rewrite E, size_list_to_set; [by rewrite length_fmap|].
  apply NoDup_fmap_2_strong; [|apply NoDup_filter, NoDup_map_to_list].
  intros [i x] [j y] Hx Hy Ei. cbn in Ei. subst. apply list_elem_of_filter in Hx as [_ Hx], Hy as [_ Hy].
  apply elem_of_map_to_list in Hx, Hy. congruence.
Qed.

(** A rule's row and children replaced: the tables stay well formed when the row's name is
    free and its system within the limit. *)
Lemma touched_wf d atm r d' :
  rules_wf d -> 0 < atm -> touches atm (with_automations <[atm := r]> d) d' ->
  (forall r0, automations d !! atm = Some r0 -> ru_system r0 = ru_system r) ->
  (forall j r2, automations d !! j = Some r2 -> ru_system r2 = ru_system r -> ru_name r2 = ru_name r -> j = atm) ->
  validateAskLimit (ru_system r) d' = Ok tt -> rules_wf d'.
Proof.
  intros [W1 W2 W3 W4 W6 W5] Hpos [T1 T2 T3 T4] Hsys Hname Hlim. cbn in T1, T2, T3, T4.
  assert (Hs : forall i, is_Some (automations d !! i) \/ i = atm -> is_Some (automations d' !! i)).
  { intros i Hi. rewrite T1. destruct (decide (i = atm)) as [->|Hn]; [by rewrite lookup_insert_eq|].
    rewrite lookup_insert_ne by done. by destruct Hi. }
  split.
  - intros k x [H|H]%T2; apply Hs; [left; by eapply W1|by right].
  - intros k x [H|H]%T3; apply Hs; [left; by eapply W2|by right].
  - intros k Hk. apply Hs. destruct (decide (k = atm)) as [->|Hn]; [by right|left]. apply W3. by rewrite <- T4.
  - rewrite T1. intros i j r1 r2 [[<- <-]|[_ H1]]%lookup_insert_Some [[<- <-]|[_ H2]]%lookup_insert_Some Es En; [done| | |by eapply W4].
    + symmetry. by eapply Hname.
    + by eapply Hname.
  - rewrite T1. intros i [<-|[_ Hi]]%lookup_insert_is_Some; [done|by apply W6].
  - intros systemID. destruct (decide (systemID = ru_system r)) as [->|Hn]; [by apply ask_limit|].
    etrans; [|apply (W5 systemID)]. apply inj_le, subseteq_size. intros k [Hk Ha]%active_elem. apply active_elem.
    unfold is_active in Ha |- *. rewrite T1 in Ha. destruct (decide (k = atm)) as [->|Hne].
    + rewrite lookup_insert_eq in Ha. rewrite (proj2 (Z.eqb_neq (ru_system r) systemID)) in Ha by congruence. done.
    + rewrite lookup_insert_ne in Ha by done. rewrite T4 in Hk by done. done.
Qed.

Section Laws.
Context (P : platform) (regexp : string -> string -> option bool) (X : texts) (R : option Registry).

Lemma writeTriggers_touches s systemID atm now l d d' : writeTriggers s systemID atm now l d = Ok d' -> touches atm d d'.
Proof. intros H. destruct (writeTriggers_spec _ _ _ _ _ _ _ H) as (E1 & E2 & E3 & E4 & _). split; [exact E1|exact E4|rewrite E2; auto|intros k _; by rewrite E3]. Qed.
Lemma writeAsk_touches atm ask d d' : writeAsk X atm ask d = Ok d' -> touches atm d d'.
Proof.
  unfold writeAsk. intros H. destruct ask as [q|]; [destruct (ask_checked q); [|done]|]; injection H as <-; split; cbn; auto;
    intros k Hk; by rewrite ?lookup_insert_ne, lookup_delete_ne.
Qed.
Lemma writeActions_touches s systemID atm now i l d d' :
  writeActions X R s systemID atm now i l d = Ok d' -> touches atm d d'.
Proof. intros H. destruct (writeActions_rest _ _ _ _ _ _ _ _ _ _ H) as (E1 & E2 & E3 & E4). split; [exact E1|rewrite E2; auto|exact E4|intros k _; by rewrite E3]. Qed.
Lemma filter_children_touches atm d :
  touches atm d (with_triggers (filter (fun x => tw_automation x.2 <> atm)) d) /\
  touches atm d (with_actions (filter (fun x => aw_automation x.2 <> atm)) d).
Proof. split; split; cbn; auto; intros k r [H _]%map_lookup_filter_Some; by left. Qed.

Lemma name_free d except systemID name j r :
  name_taken d except systemID name = false -> automations d !! j = Some r -> ru_system r = systemID -> ru_name r = name ->
  except = Some j.
Proof.
  unfold name_taken. intros H Hj Hs Hn. pose proof (exists_row_false _ _ _ _ H Hj) as E. cbn in E.
  rewrite (proj2 (Z.eqb_eq _ _) Hs), (bool_decide_true (ru_name r = name)) in E by done.
  destruct (bool_decide (except = Some j)) eqn:Eb; [by bool_simpl|done].
Qed.

Lemma CreateInTx_Ok s committed now systemID a d id d' :
  CreateInTx P regexp X R s committed now systemID a d = Ok (id, d') ->
  exists an d1 d2, au_Name a <> "" /\ normalizeAsk P X s systemID a = Ok an /\ au_Name an = au_Name a /\
    findMatching X committed systemID an 0 = Ok tt /\ name_taken d None systemID (au_Name an) = false /\ id = next_rowid (automations d) /\
    writeTriggers s systemID id now (Triggers an)
      (with_automations <[id := MkRule systemID (au_Name an) (au_OrderIndex an) (Enabled an) false now now]> d) = Ok d1 /\
    writeAsk X id (au_Ask an) d1 = Ok d2 /\ writeActions X R s systemID id now 0 (Actions an) d2 = Ok d' /\
    validateAskLimit systemID d' = Ok tt.
Proof.
  unfold CreateInTx. intros H. destruct (bool_decide (au_Name a = "")) eqn:En; [done|].
  apply bind_Ok in H as (an & Ha & H). apply bind_Ok in H as ([] & _ & H). apply bind_Ok in H as ([] & _ & H).
  apply bind_Ok in H as ([] & Hm & H). destruct (name_taken _ _ _ _) eqn:Et; [done|]. case_bool_decide; [|done].
  apply bind_Ok in H as (d1 & H1 & H). apply bind_Ok in H as (d2 & H2 & H). apply bind_Ok in H as (d3 & H3 & H).
  apply bind_Ok in H as ([] & Hl & H). injection H as <- <-. bool_simpl. exists an, d1, d2. split_and!; try done.
  unfold normalizeAsk in Ha. destruct (au_Ask a) as [q|]; [|destruct (existsb _ _); [done|by injection Ha as <-]].
  destruct (bool_decide _); [done|]. destruct (forallb _ _); [|done]. destruct (_ || _); [done|].
  apply bind_Ok in Ha as ([x y] & _ & Ha). apply bind_Ok in Ha as (z & _ & Ha). by injection Ha as <-.
Qed.
Lemma rule_create_wf s now systemID a d id d' :
  CreateInTx P regexp X R s d now systemID a d = Ok (id, d') -> rules_wf d -> rules_wf d'.
Proof.
  intros H W. destruct (CreateInTx_Ok _ _ _ _ _ _ _ _ H) as (an & d1 & d2 & _ & _ & _ & _ & Ht & -> & H1 & H2 & H3 & Hl).
  eapply (touched_wf d _ (MkRule systemID (au_Name an) _ _ _ _ _)); [done|apply (next_rowid_pos (automations d))| | | |exact Hl].
  - etrans; [by eapply writeTriggers_touches|]. etrans; [by eapply writeAsk_touches|]. by eapply writeActions_touches.
  - intros r0 Hr. by rewrite next_rowid_None in Hr.
  - intros j r2 Hj Hs Hn. by pose proof (name_free _ _ _ _ _ _ Ht Hj Hs Hn).
Qed.

Lemma applyFieldUpdate_Ok s now id p d d' :
  applyFieldUpdate X R s now id p d = Ok d' ->
  exists r r', automations d !! id = Some r /\ ru_system r' = ru_system r /\ ru_name r' = default (ru_name r) (p_Name p) /\
    (forall name, p_Name p = Some name -> name_taken d (Some id) (ru_system r) name = false) /\
    touches id (with_automations <[id := r']> d) d'.
Proof.
  unfold applyFieldUpdate, patchFields. intros H. destruct (automations d !! id) as [r|] eqn:Er; [|done].
  apply bind_Ok in H as (d1 & H1 & H).
  destruct (match p_Name p with Some name => name_taken d (Some id) (ru_system r) name | None => false end) eqn:En; [done|].
  injection H1 as <-. set (r' := MkRule _ _ _ _ _ _ _) in H. exists r, r'. split_and!; try done.
  { intros name Hp. by rewrite Hp in En. }
  set (d1 := with_automations _ d) in *. apply bind_Ok in H as (d2 & H2 & H). apply bind_Ok in H as ([ask sent] & _ & H).
  apply bind_Ok in H as (d3 & H3 & H).
  assert (T2 : touches id d1 d2).
  { destruct (p_Triggers p) as [l|]; [|by injection H2 as <-]. apply bind_Ok in H2 as (sys & _ & H2).
    etrans; [exact (proj1 (filter_children_touches id d1))|]. by eapply writeTriggers_touches. }
  assert (T3 : touches id d2 d3) by (destruct sent; [by eapply writeAsk_touches|by injection H3 as <-]).
  etrans; [exact T2|]. etrans; [exact T3|]. destruct (p_Actions p) as [l|]; [|by injection H as <-].
  apply bind_Ok in H as (sys & _ & H). etrans; [exact (proj2 (filter_children_touches id d3))|]. by eapply writeActions_touches.
Qed.
Lemma rule_update_wf s now systemID id p d i d' :
  UpdateInTx P regexp X R s d now systemID id p d = Ok (i, d') -> rules_wf d -> rules_wf d'.
Proof.
  unfold UpdateInTx. intros H W. destruct (bool_decide _); [done|]. apply bind_Ok in H as (orig & Ho & H).
  apply bind_Ok in H as ([ask sent] & _ & H). apply bind_Ok in H as (post & _ & H).
  apply bind_Ok in H as ([] & _ & H). apply bind_Ok in H as ([] & _ & H). apply bind_Ok in H as ([] & _ & H).
  apply bind_Ok in H as (d1 & Hu & H). apply bind_Ok in H as ([] & Hl & H). injection H as <- <-.
  destruct (applyFieldUpdate_Ok _ _ _ _ _ _ Hu) as (r & r' & Hr & Hs & Hn & Ht & T).
  assert (Hsys : ru_system r = systemID).
  { unfold Get in Ho. rewrite Hr in Ho. destruct (Z.eqb_spec (ru_system r) systemID); [done|done]. }
  eapply touched_wf; [done|eapply rw_positive; [exact W|by eexists]|exact T| | |].
  - intros r0 Hr0. congruence.
  - intros j r2 Hj Es En. rewrite Hn in En.
    assert (Hp : p_Name (if bool_decide (is_Some (p_Actions p)) || sent then set_p_actions (Actions post) p else p) = p_Name p)
      by (by destruct (_ || _)).
    rewrite Hp in *. destruct (p_Name p) as [name|] eqn:Ep; cbn in En.
    + specialize (Ht _ eq_refl). pose proof (name_free _ _ _ _ _ _ Ht Hj (eq_trans Es Hs) En) as [= ->]. done.
    + eapply rw_names; [exact W|exact Hj|exact Hr|congruence|done].
  - by rewrite Hs, Hsys.
Qed.
Lemma delete_wf systemID id d d' : DeleteInTx systemID id d = Ok d' -> rules_wf d -> rules_wf d'.
Proof.
  unfold DeleteInTx. intros H [W1 W2 W3 W4 W6 W5]. destruct (automations d !! id) as [r|]; [|done]. destruct (_ =? _); [|done].
  injection H as <-. split; cbn.
  - intros k x [H Hne]%map_lookup_filter_Some. cbn in Hne. rewrite lookup_delete_ne by congruence. by eapply W1.
  - intros k x [H Hne]%map_lookup_filter_Some. cbn in Hne. rewrite lookup_delete_ne by congruence. by eapply W2.
  - intros k [x [Hne H]%lookup_delete_Some]. rewrite lookup_delete_ne by done. apply W3. by eexists.
  - intros i j r1 r2 [_ H1]%lookup_delete_Some [_ H2]%lookup_delete_Some. by eapply W4.
  - intros i [x [_ Hx]%lookup_delete_Some]. apply W6. by eexists.
  - intros sys. etrans; [|apply (W5 sys)]. apply inj_le, subseteq_size. intros k [Hk Ha]%active_elem. apply active_elem.
    destruct Hk as [q Hk]. cbn in Hk. apply lookup_delete_Some in Hk as [_ Hk].
    unfold is_active in Ha |- *. cbn in Ha. destruct (decide (k = id)) as [->|Hne].
    + by rewrite lookup_delete_eq in Ha.
    + rewrite lookup_delete_ne in Ha by done. split; [by eexists|done].
Qed.

(** The operations of the store, on a fresh transaction each. *)
Inductive rules_step : rules -> rules -> Prop :=
  | step_create s now systemID a d id d' : CreateInTx P regexp X R s d now systemID a d = Ok (id, d') -> rules_step d d'
  | step_update s now systemID id p d i d' : UpdateInTx P regexp X R s d now systemID id p d = Ok (i, d') -> rules_step d d'
  | step_delete systemID id d d' : DeleteInTx systemID id d = Ok d' -> rules_step d d'.
Lemma rules_step_wf d d' : rules_step d d' -> rules_wf d -> rules_wf d'.
Proof. destruct 1; [by eapply rule_create_wf|by eapply rule_update_wf|by eapply delete_wf]. Qed.

(** C35: Whatever rules are created, patched and deleted, in whatever archive: every trigger,
    action and question belongs to a rule that exists, names are unique in a filing system,
    and no system has more than five enabled questions. *)
Theorem rules_invariant d d' : rtc rules_step d d' -> rules_wf d -> rules_wf d'.
Proof. induction 1 as [|x y z Hs _ IH]; [done|]. intros W. by apply IH, (rules_step_wf x). Qed.

(** * Signatures *)

Hypothesis rule_text_inj : forall l q acts l' q' acts',
  rule_text X l q acts = rule_text X l' q' acts' -> l = l' /\ q = q' /\ acts = acts'.
Definition trigger_texts (a : Automation) : list string := (fun t => trigger_text X (triggerToSig t)) <$> Triggers a.
Definition action_texts (a : Automation) : option (list string) := mapM (action_sig X) (Actions a).
(** The same content, as text: triggers in any order, question, actions in order. *)
Definition same_content (a b : Automation) : Prop :=
  trigger_texts a ≡ₚ trigger_texts b /\ ask_text X <$> au_Ask a = ask_text X <$> au_Ask b /\ action_texts a = action_texts b.

Lemma sorted_texts l l' : merge_sort string_le l = merge_sort string_le l' <-> l ≡ₚ l'.
Proof.
  split.
  - intros E. rewrite <- (merge_sort_Permutation string_le l), <- (merge_sort_Permutation string_le l'). by rewrite E.
  - intros Hp. apply (StronglySorted_unique string_le); try apply (StronglySorted_merge_sort string_le).
    by rewrite !merge_sort_Permutation.
Qed.
Lemma signature_Ok a x : signatureOf X a = Ok x -> exists acts, action_texts a = Some acts /\
  x = rule_text X (merge_sort string_le (trigger_texts a)) (ask_text X <$> au_Ask a) acts.
Proof. unfold signatureOf, action_texts, trigger_texts. destruct (mapM _ _) as [acts|]; [|done]. intros [= <-]. eauto. Qed.
Lemma signature_same a b x y :
  signatureOf X a = Ok x -> signatureOf X b = Ok y -> x = y <-> same_content a b.
Proof.
  intros (la & Ha & ->)%signature_Ok (lb & Hb & ->)%signature_Ok. unfold same_content. rewrite Ha, Hb. split.
  - intros (E1 & E2 & E3)%rule_text_inj. rewrite sorted_texts in E1. split_and!; congruence.
  - intros (E1 & E2 & [= ->]). apply sorted_texts in E1. by rewrite E1, E2.
Qed.
(** The signature of a rule is its content: two rules have the same signature exactly
    when their triggers have the same texts in some order, their questions the same text,
    and their actions the same kinds, answers and parameters in the same order.  Names,
    positions, ids and whether the rule is enabled play no part. *)
Theorem signature_content a b x y :
  signatureOf X a = Ok x -> signatureOf X b = Ok y -> (x = y <-> same_content a b).
Proof. apply signature_same. Qed.

(** * Reading back *)

Context (decoded : params -> params).
Hypothesis texts_decode : forall ps t, params_text X ps = Some t -> t <> "" /\ params_of X t = Some (decoded ps).
Hypothesis choices_decode : forall l, choices_of X (choices_text X l) = Some l.

Lemma writeAsk_read atm ask d d' : writeAsk X atm ask d = Ok d' ->
  automations d' = automations d /\ automation_triggers d' = automation_triggers d /\ automation_actions d' = automation_actions d /\
  listAsk X d' atm = Ok ask /\ (forall i, i <> atm -> automation_asks d' !! i = automation_asks d !! i).
Proof.
  unfold writeAsk. intros H. destruct ask as [q|].
  - destruct (ask_checked q); [|done]. injection H as <-. split_and!; try done.
    + unfold listAsk. cbn. rewrite lookup_insert_eq. cbn. rewrite choices_decode. by destruct q as [? []].
    + intros i Hi. cbn. by rewrite lookup_insert_ne, lookup_delete_ne.
  - injection H as <-. split_and!; try done.
    + unfold listAsk. cbn. by rewrite lookup_delete_eq.
    + intros i Hi. cbn. by rewrite lookup_delete_ne.
Qed.
Lemma no_triggers d id : rules_wf d -> automations d !! id = None -> listTriggers d id = [].
Proof.
  intros W Hid. unfold listTriggers. pose proof (rows_by_none (fun r => tw_automation r = id) (automation_triggers d)) as Hn.
  unfold rows_by_id in Hn. rewrite Hn; [done|]. intros k r Hr <-. destruct (rw_triggers _ W _ _ Hr) as [x Hx]. congruence.
Qed.
Lemma no_actions d id : rules_wf d -> automations d !! id = None -> actions_of d id = [].
Proof.
  intros W Hid. pose proof (rows_none (fun r => aw_automation r = id) (automation_actions d)) as Hn. apply Hn.
  intros k r Hr <-. destruct (rw_actions _ W _ _ Hr) as [x Hx]. congruence.
Qed.
(** Reading the new rule, and the others as before. *)
Lemma create_read s committed now systemID a d id d' :
  CreateInTx P regexp X R s committed now systemID a d = Ok (id, d') -> rules_wf d ->
  exists an, normalizeAsk P X s systemID a = Ok an /\
    (StronglySorted Z.le (stored_orders 0 (Actions an)) ->
      exists a', Get X d' systemID id = Ok a' /\ au_ID a' = id /\ au_Name a' = au_Name a /\
        au_OrderIndex a' = au_OrderIndex an /\ Enabled a' = Enabled an /\ Suspended a' = false /\
        (triggerToSig <$> Triggers a') = (triggerToSig <$> Triggers an) /\ au_Ask a' = au_Ask an /\
        (action_content <$> Actions a') = (decoded_content decoded <$> Actions an)) /\
    (forall j, j <> id -> automations d' !! j = automations d !! j /\
       (triggerToSig <$> listTriggers d' j) = (triggerToSig <$> listTriggers d j) /\
       listAsk X d' j = listAsk X d j /\ listActions X d' j = listActions X d j) /\
    findMatching X committed systemID an 0 = Ok tt /\ automations d !! id = None /\ 0 < id.
Proof.
  intros H W. destruct (CreateInTx_Ok _ _ _ _ _ _ _ _ H) as (an & d1 & d2 & _ & Hn & Ena & Hm & _ & -> & H1 & H2 & H3 & _).
  set (id := next_rowid (automations d)) in *. assert (Hid : automations d !! id = None) by apply next_rowid_None.
  destruct (writeTriggers_spec _ _ _ _ _ _ _ H1) as (A1 & A2 & A3 & _ & A5).
  destruct (writeAsk_read _ _ _ _ H2) as (B1 & B2 & B3 & B4 & B5).
  destruct (writeActions_rest _ _ _ _ _ _ _ _ _ _ H3) as (C1 & C2 & C3 & _).
  exists an. split; [done|]. split; [|split; [|by split_and!; [|done|apply (next_rowid_pos (automations d))]]].
  - intros Hs.
    assert (Hno : actions_of d2 id = []).
    { unfold actions_of. rewrite B3, A2. by apply (no_actions d id). }
    assert (Hb : listActions X d2 id = Ok []).
    { unfold listActions. fold (actions_of d2 id). by rewrite Hno. }
    assert (Hle : forall x, x ∈ actions_of d2 id -> Forall (fun o => aw_order_index x.2 <= o) (stored_orders 0 (Actions an))).
    { intros x Hx. rewrite Hno in Hx. by apply not_elem_of_nil in Hx. }
    pose proof (writeActions_spec X R decoded texts_decode s systemID id now (Actions an) 0 d2 d' []) as Hw.
    destruct (Hw H3 Hs Hle Hb) as (after & Ha & Hc).
    exists (MkAutomation id (au_Name an) (au_OrderIndex an) (Enabled an) false (listTriggers d' id) (au_Ask an) after now now).
    unfold Get. rewrite C1, B1, A1. cbn. rewrite lookup_insert_eq. cbn. rewrite Z.eqb_refl. unfold read_rule.
    assert (Ela : listAsk X d' id = Ok (au_Ask an)) by (unfold listAsk in B4 |- *; by rewrite C3).
    rewrite Ela. cbn [mbind result_bind]. rewrite Ha. cbn. split_and!; try done.
    assert (Elt : listTriggers d' id = listTriggers d1 id) by (unfold listTriggers; by rewrite C2, B2).
    rewrite Elt, A5, decide_True by done. pose proof (no_triggers d id W Hid) as En.
    change (listTriggers (with_automations _ d) id) with (listTriggers d id). by rewrite En.
  - intros j Hj. rewrite C1, B1, A1. cbn. rewrite lookup_insert_ne by done. split_and!; [done| | |].
    + assert (Elt : listTriggers d' j = listTriggers d1 j) by (unfold listTriggers; by rewrite C2, B2).
      rewrite Elt, A5, decide_False, app_nil_r by done. done.
    + unfold listAsk. rewrite C3, B5, A3 by done. done.
    + rewrite (writeActions_other X R _ _ _ _ _ _ Hj _ _ _ H3). unfold listActions. by rewrite B3, A2.
Qed.
(** A rule that is created reads back as it was sent, once normalized: the same name,
    position and state, the same triggers in the same order, the same question, and — when
    the orders its actions are stored under do not decrease — the same actions in the same
    order with the parameters their JSON text stands for. *)
Theorem create_readback s committed now systemID a d id d' an :
  CreateInTx P regexp X R s committed now systemID a d = Ok (id, d') -> rules_wf d ->
  normalizeAsk P X s systemID a = Ok an -> StronglySorted Z.le (stored_orders 0 (Actions an)) ->
  exists a', Get X d' systemID id = Ok a' /\ au_Name a' = au_Name a /\ au_OrderIndex a' = au_OrderIndex an /\
    Enabled a' = Enabled an /\ Suspended a' = false /\ (triggerToSig <$> Triggers a') = (triggerToSig <$> Triggers an) /\
    au_Ask a' = au_Ask an /\ (action_content <$> Actions a') = (decoded_content decoded <$> Actions an).
Proof.
  intros H W Hn Hs. destruct (create_read _ _ _ _ _ _ _ _ H W) as (an' & Hn' & Hread & _).
  assert (an' = an) as -> by congruence. destruct (Hread Hs) as (a' & H1 & _ & H2 & H3 & H4 & H5 & H6 & H7 & H8). by exists a'.
Qed.

(** * No two rules alike *)

(** Parameters whose text is the same after they were stored and read. *)
Definition stable (ps : params) : Prop := params_text X (decoded ps) = params_text X ps /\ (decoded ps = ∅ <-> ps = ∅).
Lemma action_sig_decoded a a' : action_content a' = decoded_content decoded a -> stable (Params a) -> action_sig X a' = action_sig X a.
Proof.
  intros [= Ek Ew Ep] [Ht He]. unfold action_sig. rewrite Ek, Ew, Ep, Ht. by rewrite (bool_decide_ext _ _ He).
Qed.
Lemma sig_texts a b : triggerToSig <$> Triggers a = triggerToSig <$> Triggers b -> trigger_texts a = trigger_texts b.
Proof.
  unfold trigger_texts. intros E. change (fun t => trigger_text X (triggerToSig t)) with (trigger_text X ∘ triggerToSig).
  by rewrite !list_fmap_compose, E.
Qed.
Lemma signature_by_content a b :
  trigger_texts a = trigger_texts b -> au_Ask a = au_Ask b -> action_texts a = action_texts b -> signatureOf X a = signatureOf X b.
Proof. unfold signatureOf, trigger_texts, action_texts. by intros -> -> ->. Qed.
Lemma content_actions l l' :
  action_content <$> l' = decoded_content decoded <$> l -> Forall (fun a => stable (Params a)) l -> mapM (action_sig X) l' = mapM (action_sig X) l.
Proof.
  revert l'; induction l as [|a l IH]; intros [|a' l']; try done. rewrite !fmap_cons. intros [E El]%(inj2 cons) Hs.
  apply Forall_cons in Hs as [Ha Hs]. cbn [mapM]. by rewrite (action_sig_decoded _ _ E Ha), (IH _ El Hs).
Qed.

Definition distinct (d : rules) : Prop :=
  forall systemID i j a b x, Get X d systemID i = Ok a -> Get X d systemID j = Ok b ->
    signatureOf X a = Ok x -> signatureOf X b = Ok x -> i = j.

Lemma read_rules_elem d l rs j r : read_rules X d l = Ok rs -> (j, r) ∈ l -> exists b, read_rule X d j r = Ok b /\ b ∈ rs.
Proof.
  revert rs; induction l as [|[i r'] l IH]; intros rs; cbn [read_rules]; [by intros _ H%not_elem_of_nil|].
  intros (a & Ha & H)%bind_Ok Hin. apply bind_Ok in H as (rs' & Hr & H). injection H as <-.
  apply elem_of_cons in Hin as [[= -> ->]|Hin]; [exists a; split; [done|by left]|].
  destruct (IH _ Hr Hin) as (b & Hb & Hb'). exists b. split; [done|by right].
Qed.
Lemma find_signature_Ok sig exclude l b x :
  find_signature X sig exclude l = Ok tt -> b ∈ l -> au_ID b <> exclude -> signatureOf X b = Ok x -> x <> sig.
Proof.
  induction l as [|a l IH]; cbn [find_signature]; [by intros _ H%not_elem_of_nil|].
  intros H [->|Hin]%elem_of_cons Hx Hs.
  - rewrite (proj2 (Z.eqb_neq _ _) Hx), Hs in H. cbn in H. by case_bool_decide.
  - destruct (_ =? _); [by apply IH|]. apply bind_Ok in H as (t & _ & H). case_bool_decide; [done|]. by apply IH.
Qed.
Lemma Get_read d systemID j b : Get X d systemID j = Ok b -> exists r, automations d !! j = Some r /\ ru_system r = systemID /\
  read_rule X d j r = Ok b /\ au_ID b = j.
Proof.
  unfold Get. destruct (automations d !! j) as [r|]; [|done]. destruct (Z.eqb_spec (ru_system r) systemID); [|done].
  intros H. exists r. split_and!; try done. unfold read_rule in H. apply bind_Ok in H as (q & _ & H).
  apply bind_Ok in H as (acts & _ & H). by injection H as <-.
Qed.
Lemma find_matching_free committed systemID a x j b y :
  findMatching X committed systemID a 0 = Ok tt -> signatureOf X a = Ok x -> 0 < j ->
  Get X committed systemID j = Ok b -> signatureOf X b = Ok y -> y <> x.
Proof.
  unfold findMatching. intros H Hx Hj (r & Hr & Hs & Hb & Hid)%Get_read Hy. rewrite Hx in H. cbn in H.
  apply bind_Ok in H as (l & Hl & H). unfold ListTx in Hl.
  assert (Hin : (j, r) ∈ merge_sort rule_le (filter (fun x => ru_system x.2 = systemID) (map_to_list (automations committed)))).
  { rewrite merge_sort_Permutation. apply list_elem_of_filter. split; [done|]. by apply elem_of_map_to_list. }
  destruct (read_rules_elem _ _ _ _ _ Hl Hin) as (b' & Hb' & Hin'). assert (b' = b) as -> by congruence.
  eapply find_signature_Ok; [exact H|exact Hin'|lia|exact Hy].
Qed.
(** Creating keeps the rules of every filing system distinct: if no two rules of a
    system have the same signature before, none have it after, for a rule whose actions are
    stored in the order given and whose parameters read back to the same text. *)
Theorem create_keeps_distinct s now systemID a d id d' an :
  CreateInTx P regexp X R s d now systemID a d = Ok (id, d') -> rules_wf d ->
  normalizeAsk P X s systemID a = Ok an -> StronglySorted Z.le (stored_orders 0 (Actions an)) ->
  Forall (fun x => stable (Params x)) (Actions an) -> distinct d -> distinct d'.
Proof.
  intros H W Hn Hs Hst Hd.
  destruct (create_read _ _ _ _ _ _ _ _ H W) as (an' & Hn' & Hread & Hother & Hm & Hid & Hpos).
  assert (an' = an) as -> by congruence. destruct (Hread Hs) as (new & Hnew & _ & _ & _ & _ & _ & Ht & Hq & Hc).
  assert (Hsig : signatureOf X new = signatureOf X an).
  { apply signature_by_content; [by apply sig_texts|done|]. unfold action_texts. by apply content_actions. }
  assert (Hback : forall sys j b, j <> id -> Get X d' sys j = Ok b -> exists b0, Get X d sys j = Ok b0 /\ signatureOf X b0 = signatureOf X b).
  { intros sys j b Hj (r & Hr & Hsys & Hb & _)%Get_read. destruct (Hother j Hj) as (O1 & O2 & O3 & O4). rewrite O1 in Hr.
    unfold read_rule in Hb. rewrite O3, O4 in Hb. apply bind_Ok in Hb as (q & Hq' & Hb). apply bind_Ok in Hb as (acts & Hacts & Hb).
    injection Hb as <-. unfold Get. rewrite Hr, (proj2 (Z.eqb_eq _ _) Hsys). unfold read_rule. rewrite Hq', Hacts. cbn.
    eexists. split; [done|]. apply signature_by_content; [by apply sig_texts|done|done]. }
  assert (Hfresh : forall sys j b x, j <> id -> Get X d' sys id = Ok new -> Get X d' sys j = Ok b -> signatureOf X new = Ok x ->
            signatureOf X b = Ok x -> False).
  { intros sys j b x Hj Hg Hb Hx Hy. destruct (Hback _ _ _ Hj Hb) as (b0 & Hb0 & Hsb).
    assert (sys = systemID) as ->.
    { destruct (Get_read _ _ _ _ Hg) as (r1 & E1 & E2 & _), (Get_read _ _ _ _ Hnew) as (r2 & E3 & E4 & _). congruence. }
    assert (Hjp : 0 < j) by (destruct (Get_read _ _ _ _ Hb0) as (r & Hr & _); eapply rw_positive; [exact W|by eexists]).
    rewrite Hsig in Hx. rewrite <- Hsb in Hy. by eapply (find_matching_free d systemID an). }
  assert (Hnew' : forall sys b, Get X d' sys id = Ok b -> b = new).
  { intros sys b Hb. destruct (Get_read _ _ _ _ Hb) as (r1 & E1 & _ & E2 & _), (Get_read _ _ _ _ Hnew) as (r2 & E3 & _ & E4 & _). congruence. }
  intros sys i j x y t Hi Hj Hx Hy. destruct (decide (i = id)) as [->|Hni], (decide (j = id)) as [->|Hnj]; [done| | |].
  - pose proof (Hnew' _ _ Hi) as ->. by destruct (Hfresh _ _ _ _ Hnj Hi Hj Hx Hy).
  - pose proof (Hnew' _ _ Hj) as ->. by destruct (Hfresh _ _ _ _ Hni Hj Hi Hy Hx).
  - destruct (Hback _ _ _ Hni Hi) as (x0 & Hx0 & Ex), (Hback _ _ _ Hnj Hj) as (y0 & Hy0 & Ey).
    eapply Hd; [exact Hx0|exact Hy0|by rewrite Ex|by rewrite Ey].
Qed.
End Laws.

(** * The properties on small rules *)

Module Saved.
(** A codec for the texts the properties need to be injective. *)
Fixpoint bits (p : positive) : string :=
  match p with xH => "" | xO p => String "O" (bits p) | xI p => String "I" (bits p) end.
Fixpoint unbits (s : string) : option positive :=
  match s with
  | "" => Some xH
  | String "O" s => xO <$> unbits s
  | String "I" s => xI <$> unbits s
  | _ => None
  end.
Lemma unbits_bits p : unbits (bits p) = Some p.
Proof. induction p as [p IH|p IH|]; cbn; by rewrite ?IH. Qed.
Lemma bits_inj p q : bits p = bits q -> p = q.
Proof. intros E. pose proof (unbits_bits p) as H. rewrite E, unbits_bits in H. by injection H. Qed.

(** Only templates are kept of the parameters. *)
Definition template_text (ps : params) : option string :=
  match ps !! "template" with Some (PV (RString s)) => Some (String "t" s) | _ => Some "{}" end.
Definition template_of (t : string) : option params :=
  match t with String "t" s => Some {["template" := PV (RString s)]} | _ => Some ∅ end.
Definition kept (ps : params) : params :=
  match ps !! "template" with Some (PV (RString s)) => {["template" := PV (RString s)]} | _ => ∅ end.
Definition demo_texts : texts :=
  MkTexts sg_Type Question (fun kind w p => kind +:+ w +:+ default "" p)
    (fun l q acts => bits (countable.encode (l, q, acts))) template_text template_of
    (fun l => bits (countable.encode l)) (fun s => unbits s ≫= countable.decode) (fun _ => None)
    (fun s => Some (MkAsk s (MkAnswer "choice" [" Yes "; "No"]))) String.eqb.
Lemma demo_rule_inj l q acts l' q' acts' :
  rule_text demo_texts l q acts = rule_text demo_texts l' q' acts' -> l = l' /\ q = q' /\ acts = acts'.
Proof. intros H. apply bits_inj in H. apply (inj countable.encode) in H. by injection H. Qed.
Lemma demo_decode ps t : params_text demo_texts ps = Some t -> t <> "" /\ params_of demo_texts t = Some (kept ps).
Proof. cbn. unfold template_text, kept. destruct (ps !! "template") as [[[]|l|l]|]; intros [= <-]; done. Qed.
Lemma demo_choices l : choices_of demo_texts (choices_text demo_texts l) = Some l.
Proof. cbn. rewrite unbits_bits. cbn. apply countable.decode_encode. Qed.

Definition s1 : archive := let s := Rules.s0 in
  Archive (Directory ∅ {[1 := original]} ∅) (documents s) (taxonomy s) (jd_categories s) (storage_paths s) (custom s).
Definition on_added : Trigger := MkTrigger 0 "" 2 "" "" 0 0 0 "" "" "" "" "" None.
Definition titled (order : Z) (w template : string) : Action :=
  MkAction 0 order "assign_title" w {["template" := PV (RString template)]}.
Definition rule (name : string) (acts : list Action) : Automation := MkAutomation 0 name 0 true false [on_added] None acts 0 0.
Definition no_rules : rules := Rules ∅ ∅ ∅ ∅.
Definition add (a : Automation) (d : rules) : result rule_error (Z * rules) :=
  CreateInTx Rules.demo Rules.no_regexp demo_texts (Some Rules.R0) s1 d 7 1 a d.
Definition after_ {A} (x : A) (d : rules) (r : result rule_error (A * rules)) : rules := match r with Ok (_, d) => d | Err _ => d end.
Definition bills : Automation := rule "bills" [titled 0 "" "Bill"; titled 0 "" "Bill of {{date}}"].
Definition with_bills : rules := after_ 0 no_rules (add bills no_rules).
Lemma add_bills :
  CreateInTx Rules.demo Rules.no_regexp demo_texts (Some Rules.R0) s1 no_rules 7 1 bills no_rules = Ok (1, with_bills).
Proof. vm_compute. reflexivity. Qed.
Lemma normal_bills : normalizeAsk Rules.demo demo_texts s1 1 bills = Ok bills.
Proof. vm_compute. reflexivity. Qed.
Lemma no_rules_wf : rules_wf no_rules.
Proof.
  split; cbn; try (intros ? ? H; by rewrite lookup_empty in H); try (intros ? [? H]; by rewrite lookup_empty in H).
  - intros i j r1 r2 H. by rewrite lookup_empty in H.
  - intros sys. unfold active_asks. cbn. rewrite dom_empty_L. by vm_compute.
Qed.
Lemma no_rules_distinct : distinct demo_texts no_rules.
Proof. intros sys i j a b x H. unfold Get in H. cbn in H. by rewrite lookup_empty in H. Qed.

Lemma rules_invariant_witness : rules_wf with_bills.
Proof.
  eapply (rules_invariant Rules.demo Rules.no_regexp demo_texts (Some Rules.R0) no_rules); [|exact no_rules_wf].
  eapply rtc_once, step_create, add_bills.
Defined.
Lemma signature_content_witness :
  exists x y, signatureOf demo_texts bills = Ok x /\ signatureOf demo_texts (rule "other" (Actions bills)) = Ok y /\
    (x = y <-> same_content demo_texts bills (rule "other" (Actions bills))).
Proof.
  eexists _, _. split_and!; [vm_compute; reflexivity|vm_compute; reflexivity|].
  eapply (signature_content demo_texts demo_rule_inj); vm_compute; reflexivity.
Defined.
Lemma sorted_bills : StronglySorted Z.le (stored_orders 0 (Actions bills)).
Proof. cbn. repeat constructor; done. Qed.
Lemma create_readback_witness :
  exists a', Get demo_texts with_bills 1 1 = Ok a' /\ au_Name a' = "bills" /\
    (action_content <$> Actions a') = (decoded_content kept <$> Actions bills).
Proof.
  destruct (create_readback Rules.demo Rules.no_regexp demo_texts (Some Rules.R0) kept demo_decode demo_choices
              s1 no_rules 7 1 bills no_rules 1 with_bills bills add_bills no_rules_wf normal_bills sorted_bills)
    as (a' & H1 & H2 & _ & _ & _ & _ & _ & H3). exists a'. split; [exact H1|]. split; [exact H2|exact H3].
Defined.
Lemma create_keeps_distinct_witness : distinct demo_texts with_bills.
Proof.
  refine (create_keeps_distinct Rules.demo Rules.no_regexp demo_texts (Some Rules.R0) kept demo_decode demo_choices
            s1 7 1 bills no_rules 1 with_bills bills add_bills no_rules_wf normal_bills sorted_bills _ no_rules_distinct).
  repeat constructor; by vm_compute.
Defined.

(** Two rules with the same actions in the same order, stored in another order. *)
Definition swapped (name : string) : Automation := rule name [titled 2 "" "Bill"; titled 1 "" "Bill of {{date}}"].
Definition one_swapped : rules := after_ 0 no_rules (add (swapped "one") no_rules).
Definition two_swapped : rules := after_ 0 one_swapped (add (swapped "two") one_swapped).
(** The check for duplicates compares the actions as sent with the actions as stored.
    When explicit orders rearrange them the same rule is accepted twice, and the store then
    holds two rules of one system with the same signature. *)
Theorem reordered_rule_twice :
  add (swapped "one") no_rules = Ok (1, one_swapped) /\ add (swapped "two") one_swapped = Ok (2, two_swapped) /\
  exists a b x, Get demo_texts two_swapped 1 1 = Ok a /\ Get demo_texts two_swapped 1 2 = Ok b /\
    signatureOf demo_texts a = Ok x /\ signatureOf demo_texts b = Ok x.
Proof. split_and!; [vm_compute; reflexivity..|]. eexists _, _, _. split_and!; vm_compute; reflexivity. Qed.
(** An order of 0 that was meant is taken for none: it becomes the position, and an action
    sent to run first runs second. *)
Example order_zero_lost :
  (fun a => (fun x => (ac_OrderIndex x, Params x !! "template")) <$> Actions a) <$>
    Get demo_texts (after_ 0 no_rules (add (rule "zero" [titled 1 "" "second"; titled 0 "" "first"]) no_rules)) 1 1
  = Ok [(1, Some (PV (RString "second"))); (1, Some (PV (RString "first")))].
Proof. vm_compute. reflexivity. Qed.

(** A patch that sends the question "  Covered?  " with the choices " Yes " and "No". *)
Definition ask_patch : AutomationPatch :=
  MkPatch None None None None (Some "  Covered?  ")
    (Some [MkAction 0 0 "assign_tags" "Yes" {["tag_ids" := PV (RList [RInt 3])]}]).
Definition asked : rules :=
  after_ 0 with_bills (UpdateInTx Rules.demo Rules.no_regexp demo_texts (Some Rules.R0) s1 with_bills 8 1 1 ask_patch with_bills).
(** A patched question is stored as it was sent, not as it was checked: the question
    keeps its surrounding blanks, and so do the choices, while the actions are stored under
    the trimmed answer.  The trimmed reply "Yes" matches no allowed answer any more, so the
    rule's action can never run; created in one request the same question is stored trimmed. *)
Theorem patched_ask_untrimmed :
  UpdateInTx Rules.demo Rules.no_regexp demo_texts (Some Rules.R0) s1 with_bills 8 1 1 ask_patch with_bills = Ok (1, asked) /\
  exists a q, Get demo_texts asked 1 1 = Ok a /\ au_Ask a = Some q /\ Question q = "  Covered?  " /\
    (When <$> Actions a) = ["Yes"] /\ "Yes" ∉ allowedAnswers (Answer q) /\
    canonicalAnswer demo_texts "Yes" (allowedAnswers (Answer q)) = "".
Proof.
  split; [vm_compute; reflexivity|]. eexists _, _. split_and!; [vm_compute; reflexivity..| |vm_compute; reflexivity].
  apply (bool_decide_eq_true_1 _). vm_compute. reflexivity.
Qed.
End Saved.
