(* ===== verification/Mailbox.v ===== *)
(** Mailboxes as data ([core/emailaccounts/types.go], the validation of [store.go]): intake
    policies and their normal form, what a new account or a patch must satisfy, and when a
    patch moves the watcher to another source.  [strings.ToLower] and the certificate loader
    are parameters.  The rows and who may write them are in [MailboxStore]. *)
From S2P Require Import Prelude GoStd Utf8 Glob.

Definition IntakeEveryMessage : string := "all".
Definition IntakeMessagesWithFiles : string := "files".
Definition IntakeMatchingMessages : string := "matching".
Definition IntakeEmailAndFiles : string := "email_and_files".
Definition IntakeFilesOnly : string := "files_only".

Record IntakeRule : Type := MkIntake {
  Selection : string; Content : string; From : string; Recipients : string; SubjectTerms : string; AttachmentNames : string;
}.
#[export] Instance IntakeRule_eq_dec : EqDecision IntakeRule.
Proof. solve_decision. Defined.
(** [IntakePolicy]: its rules; [None] is a nil slice. *)
Definition IntakePolicy : Type := option (list IntakeRule).
Definition DefaultIntakePolicy : list IntakeRule := [MkIntake IntakeEveryMessage IntakeEmailAndFiles "" "" "" ""].

Record Account : Type := MkAccount {
  ma_SystemID : Z; ma_Name : string; ma_OwnerID : Z; Provider : string; Host : string; Port : Z; UseTLS : bool;
  TLSCAFile : string; Folder : string; ProcessedFolder : string; PollIntervalMin : Z; AuthMethod : string;
  Username : string; SealedSecret : string; OAuthAccountID : string; ma_Policy : list IntakeRule;
  SyncSince : option Z; ma_Enabled : bool; MarkSeen : bool; LastUIDSeen : Z; UIDValiditySeen : Z;
  LastSyncAt : Z; LastError : string; ma_CreatedAt : Z; ma_UpdatedAt : Z;
}.
Record AccountPatch : Type := MkAccountPatch {
  mp_Name : option string; mp_OwnerID : option Z; mp_Provider : option string; mp_Host : option string;
  mp_Port : option Z; mp_UseTLS : option bool; mp_TLSCAFile : option string; mp_Folder : option string;
  mp_ProcessedFolder : option string; mp_PollIntervalMin : option Z; mp_AuthMethod : option string;
  mp_Username : option string; mp_SealedSecret : option string; mp_OAuthAccountID : option string;
  mp_Policy : option IntakePolicy; mp_SyncSince : option Z; mp_Enabled : option bool; mp_MarkSeen : option bool;
}.

(** * Intake policies *)
Section Policy.
Context (to_lower : string -> string).

(** [strings.FieldsFunc] on commas and line ends, then trimmed, without the empty ones. *)
Definition policy_sep (c : ascii) : bool :=
  bool_decide (c = ","%char) || (byte_val c =? 10) || (byte_val c =? 13).
Fixpoint fields_loop (cur s : string) : list string :=
  match s with
  | EmptyString => [rev_string cur ""]
  | String c s => if policy_sep c then rev_string cur "" :: fields_loop "" s else fields_loop (String c cur) s
  end.
Definition SplitPolicyValues (value : string) : list string :=
  filter (fun x => x <> "") (TrimSpace <$> fields_loop "" value).

Definition glob_bad (pattern : string) : bool :=
  match Match (to_lower pattern) "sample.pdf" with Ok _ => false | Err _ => true end.
Definition or_default (d s : string) : string := if bool_decide (s = "") then d else s.
Definition trimmed (r : IntakeRule) : IntakeRule :=
  MkIntake (or_default IntakeEveryMessage (Selection r)) (or_default IntakeEmailAndFiles (Content r))
    (TrimSpace (From r)) (TrimSpace (Recipients r)) (TrimSpace (SubjectTerms r)) (TrimSpace (AttachmentNames r)).
Definition no_criteria (r : IntakeRule) : bool :=
  forallb (fun s => bool_decide (s = "")) [From r; Recipients r; SubjectTerms r; AttachmentNames r].
Definition normalizeIntakeRule (r : IntakeRule) : result string IntakeRule :=
  let r := trimmed r in
  _ ← (if bool_decide (Selection r = IntakeEveryMessage) || bool_decide (Selection r = IntakeMessagesWithFiles) then
         if no_criteria r then Ok tt else Err "matching criteria require selection=matching"
       else if bool_decide (Selection r = IntakeMatchingMessages) then
         if no_criteria r then Err "matching selection requires at least one criterion" else Ok tt
       else Err "unsupported intake selection");
  require bool_decide (Content r = IntakeEmailAndFiles) || bool_decide (Content r = IntakeFilesOnly)
    else "unsupported intake content" in
  require forallb (fun s => (String.length s <=? 8192)%nat) [From r; Recipients r; SubjectTerms r; AttachmentNames r]
    else "must be at most 8192 bytes" in
  fail_if existsb glob_bad (SplitPolicyValues (AttachmentNames r)) with "invalid attachment filename pattern" in
  Ok r.
Fixpoint normalize_rules (l : list IntakeRule) : result string (list IntakeRule) :=
  match l with
  | [] => Ok []
  | r :: l => r ← normalizeIntakeRule r; l ← normalize_rules l; Ok (r :: l)
  end.
Definition NormalizeIntakePolicy (p : IntakePolicy) : result string (list IntakeRule) :=
  match p with
  | None => Ok DefaultIntakePolicy
  | Some rules =>
      require ((1 <=? length rules) && (length rules <=? 20))%nat else "intake_policy must contain between 1 and 20 rules" in
      normalize_rules rules
  end.
(** [ParseIntakePolicy] of a stored text that decodes to [p]. *)
Definition ParseIntakePolicy (decode : string -> option IntakePolicy) (raw : string) : result string (list IntakeRule) :=
  if bool_decide (TrimSpace raw = "") then Ok DefaultIntakePolicy
  else match decode raw with None => Err "decode intake_policy" | Some p => NormalizeIntakePolicy p end.

(** * Validation *)
Definition MaxPollIntervalMin : Z := 24 * 60.
Definition ValidatePollInterval (minutes : Z) : result string unit :=
  require (1 <=? minutes) && (minutes <=? MaxPollIntervalMin) else "poll_interval_min must be between 1 and 1440" in Ok tt.
Definition validateTextFields (name host caFile folder processedFolder username oauthID : string) : result string unit :=
  require forallb (fun x => (Z.of_nat (String.length x.1) <=? x.2))
    [(name, 200); (host, 253); (caFile, 4096); (folder, 1024); (processedFolder, 1024); (username, 320); (oauthID, 1024)]
    else "field too long" in Ok tt.
Definition blank (s : string) : bool := bool_decide (TrimSpace s = "").
Definition none (s : string) : bool := bool_decide (s = "").
Definition port_ok (p : Z) : bool := (1 <=? p) && (p <=? 65535).
(** [LoadTLSRootCAs]: whether the file is empty or holds certificates. *)
Definition validateNew (ca_ok : string -> bool) (a : Account) : result string unit :=
  fail_if ma_SystemID a <=? 0 with "system_id required" in
  fail_if blank (ma_Name a) with "name required" in
  fail_if ma_OwnerID a =? 0 with "owner_id required" in
  fail_if none (Provider a) with "provider required" in
  fail_if blank (Host a) with "host required" in
  fail_if negb (port_ok (Port a)) with "port must be between 1 and 65535" in
  fail_if blank (Folder a) with "folder required" in
  fail_if none (AuthMethod a) with "auth_method required" in
  fail_if blank (Username a) with "username required" in
  fail_if none (SealedSecret a) with "sealed_secret required" in
  fail_if match SyncSince a with Some t => t <? 0 | None => false end with "sync_since must be zero or positive" in
  _ ← ValidatePollInterval (PollIntervalMin a);
  _ ← validateTextFields (ma_Name a) (Host a) (TLSCAFile a) (Folder a) (ProcessedFolder a) (Username a) (OAuthAccountID a);
  require ca_ok (TLSCAFile a) else "tls_ca_file" in Ok tt.

Definition given_as {A} (o : option A) (f : A -> bool) : bool := match o with Some x => f x | None => false end.
Definition validatePatch (p : AccountPatch) : result string unit :=
  fail_if given_as (mp_Name p) blank with "name cannot be empty" in
  fail_if given_as (mp_OwnerID p) (Z.eqb 0) with "owner_id cannot be zero" in
  fail_if given_as (mp_Provider p) none with "provider cannot be empty" in
  fail_if given_as (mp_Host p) blank with "host cannot be empty" in
  fail_if given_as (mp_Port p) (fun x => negb (port_ok x)) with "port must be between 1 and 65535" in
  fail_if given_as (mp_Folder p) blank with "folder cannot be empty" in
  fail_if given_as (mp_AuthMethod p) none with "auth_method cannot be empty" in
  fail_if given_as (mp_Username p) blank with "username cannot be empty" in
  fail_if given_as (mp_SealedSecret p) none with "sealed_secret cannot be empty" in
  fail_if given_as (mp_SyncSince p) (fun t => t <? 0) with "sync_since must be zero or positive" in
  _ ← match mp_PollIntervalMin p with Some n => ValidatePollInterval n | None => Ok tt end;
  validateTextFields (default "" (mp_Name p)) (default "" (mp_Host p)) (default "" (mp_TLSCAFile p)) (default "" (mp_Folder p))
    (default "" (mp_ProcessedFolder p)) (default "" (mp_Username p)) (default "" (mp_OAuthAccountID p)).

(** * Patches *)
Definition changes {A} `{EqDecision A} (o : option A) (x : A) : bool := given_as o (fun y => negb (bool_decide (y = x))).
Definition cursorSourceChanged (a : Account) (p : AccountPatch) : bool :=
  if changes (mp_OwnerID p) (ma_OwnerID a) || changes (mp_Provider p) (Provider a) || changes (mp_Host p) (Host a)
     || changes (mp_Port p) (Port a) || changes (mp_UseTLS p) (UseTLS a) || changes (mp_Folder p) (Folder a)
     || changes (mp_AuthMethod p) (AuthMethod a) || changes (mp_Username p) (Username a)
     || changes (mp_OAuthAccountID p) (OAuthAccountID a) then true
  else match mp_SyncSince p with
       | None => false
       | Some t => if t <=? 0 then bool_decide (is_Some (SyncSince a)) else negb (bool_decide (SyncSince a = Some t))
       end.
Definition or_keep {A} (o : option A) (x : A) : A := default x o.
(** The [UPDATE]: the columns sent, the cursor when the source changes. *)
Definition apply_patch (now : Z) (policy : option (list IntakeRule)) (p : AccountPatch) (a : Account) : Account :=
  let reset := cursorSourceChanged a p in
  MkAccount (ma_SystemID a) (or_keep (mp_Name p) (ma_Name a)) (or_keep (mp_OwnerID p) (ma_OwnerID a))
    (or_keep (mp_Provider p) (Provider a)) (or_keep (mp_Host p) (Host a)) (or_keep (mp_Port p) (Port a))
    (or_keep (mp_UseTLS p) (UseTLS a)) (or_keep (mp_TLSCAFile p) (TLSCAFile a)) (or_keep (mp_Folder p) (Folder a))
    (or_keep (mp_ProcessedFolder p) (ProcessedFolder a)) (or_keep (mp_PollIntervalMin p) (PollIntervalMin a))
    (or_keep (mp_AuthMethod p) (AuthMethod a)) (or_keep (mp_Username p) (Username a))
    (or_keep (mp_SealedSecret p) (SealedSecret a)) (or_keep (mp_OAuthAccountID p) (OAuthAccountID a))
    (or_keep policy (ma_Policy a))
    (match mp_SyncSince p with None => SyncSince a | Some t => if t <=? 0 then None else Some t end)
    (or_keep (mp_Enabled p) (ma_Enabled a)) (or_keep (mp_MarkSeen p) (MarkSeen a))
    (if reset then 0 else LastUIDSeen a) (if reset then 0 else UIDValiditySeen a)
    (LastSyncAt a) (LastError a) (ma_CreatedAt a) now.
(** The row that [DisableAllByOwner] leaves. *)
Definition disabled_row (now : Z) (a : Account) : Account :=
  MkAccount (ma_SystemID a) (ma_Name a) (ma_OwnerID a) (Provider a) (Host a) (Port a) (UseTLS a) (TLSCAFile a) (Folder a)
    (ProcessedFolder a) (PollIntervalMin a) (AuthMethod a) (Username a) (SealedSecret a) (OAuthAccountID a) (ma_Policy a)
    (SyncSince a) false (MarkSeen a) (LastUIDSeen a) (UIDValiditySeen a) (LastSyncAt a) (LastError a) (ma_CreatedAt a) now.
End Policy.
