(* ===== verification/Access.v ===== *)
(** Accounts and the authority they hand out: who acts in a request
    ([core/api/systems.go], [core/api/authz_helpers.go]), members of a filing system,
    administration of accounts and capabilities ([core/api/users.go]), API tokens
    ([core/api/tokens.go], [plugins/local-auth]), mobile pairing
    ([core/api/mobile_pairing.go]) and saved views ([core/api/saved_views.go]).

    A handler checks some things on a snapshot ([read]) before its write transaction, which
    runs on the tables [a] of that moment; what other requests commit in between is in
    [a].  An error of the transaction is mapped to a status as the handler maps it.  JSON
    bodies and the stored lists of capabilities are kept decoded; SHA-256 and random tokens
    are arguments.  Go's loops over maps here only insert or delete rows of their own, so
    their order does not show. *)
From S2P Require Import Prelude GoStd Utf8 Sqlite Systems Authz Principal Mailbox.

(** * Tables *)

(** The columns of [users] that are not in [Systems.user]. *)
Record profile : Type := Profile { pr_display_name : string; pr_capabilities : list string }.
Record session : Type := Session { se_user : Z; se_expires_at : Z }.
Record token_row : Type := TokenRow {
  tk_system : Z; tk_user : Z; tk_name : string; tk_hash : string; tk_scopes : string; tk_created_at : Z;
  tk_revoked_at : option Z; tk_source : string;
}.
Record pairing : Type := Pairing { pa_system : Z; pa_hash : string; pa_name : string; pa_expires_at : Z }.
Record link_row : Type := Link {
  sl_system : Z; sl_token : string; sl_docs : list Z; sl_created_by : Z; sl_expires_at : option Z;
  sl_password : option string; sl_label : string; sl_visibility : string; sl_created_at : Z; sl_revoked_at : option Z;
}.
Record view_row : Type := View {
  sv_system : Z; sv_owner : Z; sv_name : string; sv_filter : string; sv_display : string; sv_position : Z;
  sv_shared : bool; sv_created_at : Z; sv_updated_at : Z;
}.
Record file_row : Type := File {
  fl_system : Z; fl_owner : Z; fl_trashed : bool; fl_title : string; fl_mime : option string; fl_size : Z;
  fl_original : string; fl_decrypted : option string;
}.
Record access : Type := Access {
  dir : directory; profiles : gmap Z profile; sessions : gmap string session;
  api_tokens : gmap Z token_row; token_seq : Z;          (* AUTOINCREMENT *)
  mobile_pairings : gmap Z pairing;                      (* the key is the user *)
  share_links : gmap Z link_row; saved_views : gmap Z view_row;
  email_accounts : gmap Z Account; account_seq : Z; files : gmap Z file_row;
}.
Definition with_dir (f : directory -> directory) (a : access) : access :=
  Access (f (dir a)) (profiles a) (sessions a) (api_tokens a) (token_seq a) (mobile_pairings a) (share_links a) (saved_views a)
    (email_accounts a) (account_seq a) (files a).
Definition with_profiles (f : gmap Z profile -> gmap Z profile) (a : access) : access :=
  Access (dir a) (f (profiles a)) (sessions a) (api_tokens a) (token_seq a) (mobile_pairings a) (share_links a) (saved_views a)
    (email_accounts a) (account_seq a) (files a).
Definition with_tokens (f : gmap Z token_row -> gmap Z token_row) (a : access) : access :=
  Access (dir a) (profiles a) (sessions a) (f (api_tokens a)) (token_seq a) (mobile_pairings a) (share_links a) (saved_views a)
    (email_accounts a) (account_seq a) (files a).
Definition with_token_seq (n : Z) (a : access) : access :=
  Access (dir a) (profiles a) (sessions a) (api_tokens a) n (mobile_pairings a) (share_links a) (saved_views a)
    (email_accounts a) (account_seq a) (files a).
Definition with_pairings (f : gmap Z pairing -> gmap Z pairing) (a : access) : access :=
  Access (dir a) (profiles a) (sessions a) (api_tokens a) (token_seq a) (f (mobile_pairings a)) (share_links a) (saved_views a)
    (email_accounts a) (account_seq a) (files a).
Definition with_links (f : gmap Z link_row -> gmap Z link_row) (a : access) : access :=
  Access (dir a) (profiles a) (sessions a) (api_tokens a) (token_seq a) (mobile_pairings a) (f (share_links a)) (saved_views a)
    (email_accounts a) (account_seq a) (files a).
Definition with_views (f : gmap Z view_row -> gmap Z view_row) (a : access) : access :=
  Access (dir a) (profiles a) (sessions a) (api_tokens a) (token_seq a) (mobile_pairings a) (share_links a) (f (saved_views a))
    (email_accounts a) (account_seq a) (files a).
Definition with_accounts (f : gmap Z Account -> gmap Z Account) (n : Z) (a : access) : access :=
  Access (dir a) (profiles a) (sessions a) (api_tokens a) (token_seq a) (mobile_pairings a) (share_links a) (saved_views a)
    (f (email_accounts a)) n (files a).

(** [Status] is an answer; the others are errors of a transaction. *)
Inductive access_error : Type :=
  | Status (status : Z) (code : string)
  | ErrSystemUnavailable | ErrNotFound | ErrNoRows | ErrSessionRevoked | ErrBadMembers | ErrLastActiveAdmin
  | ErrUnique | ErrConstraint (message : string) | ErrMessage (message : string).
#[export] Instance access_error_eq_dec : EqDecision access_error.
Proof. solve_decision. Defined.
Definition on_error {A} (f : access_error -> access_error) (r : result access_error A) : result access_error A :=
  match r with Ok x => Ok x | Err e => Err (f e) end.
(** [serverErr]. *)
Definition serverErr (e : access_error) : access_error :=
  match e with Status s c => Status s c | ErrSystemUnavailable => Status 404 "not_found" | _ => Status 500 "internal" end.

(** * Actors of a request *)

Definition tokenSystemID (p : option Principal) : Z :=
  match p with
  | None => 0
  | Some p => if negb (p_TokenSystemID p =? 0) then p_TokenSystemID p
              else if bool_decide (p_Kind p = "token") || negb (p_TokenID p =? 0) then DefaultID else 0
  end.
Definition collectionSystemID (selected : Z) (p : option Principal) : Z :=
  if negb (selected =? 0) then selected
  else if negb (tokenSystemID p =? 0) then tokenSystemID p else DefaultID.
Definition systemPrincipal (selected : Z) (p : Principal) (groups : list Z) : Authz.Principal :=
  Authz.MkPrincipal (p_UserID p) (p_Role p) (p_Kind p) groups selected (tokenSystemID (Some p)).

(** The system a request selects: [query] holds the values of its parameter [system]. *)
Definition bindRequestSystem (a : access) (selected : Z) (query : option (list string)) (p : option Principal)
    : result access_error Z :=
  if negb (selected =? 0) then Ok selected
  else
    let id := tokenSystemID p in
    match query with
    | None => Ok id
    | Some [v] =>
        fail_if bool_decide (v = "") with Status 404 "system_unavailable" in
        match ByCode (dir a) v with
        | Err _ => Err (Status 404 "system_unavailable")
        | Ok system =>
            fail_if negb (id =? 0) && negb (id =? ID system) with Status 404 "system_unavailable" in Ok (ID system)
        end
    | Some _ => Err (Status 404 "system_unavailable")
    end.

Definition isDemoCorpusKind (kind : string) : bool := bool_decide (kind = "demo-anon") || bool_decide (kind = "demo-scratch").
Definition canEnterSystem (a : access) (selected : Z) (p : option Principal) (systemID : Z) : result access_error bool :=
  match p with
  | None => Ok false
  | Some q =>
      if (systemID <=? 0) || (negb (tokenSystemID p =? 0) && negb (tokenSystemID p =? systemID)) then Ok false
      else if negb (selected =? 0) && negb (selected =? systemID) then Ok false
      else if isDemoCorpusKind (p_Kind q) then
        if negb (systemID =? DefaultID) then Ok false
        else match Get (dir a) systemID with Ok system => Ok (bool_decide (Code system = "")) | Err _ => Err ErrNoRows end
      else Ok (CanEnter (dir a) (p_UserID q) systemID)
  end.
(** The system of a collection request. *)
Definition requireSystem (a : access) (selected : Z) (query : option (list string)) (p : option Principal) : result access_error Z :=
  selected ← bindRequestSystem a selected query p;
  let id := collectionSystemID selected p in
  allowed ← on_error serverErr (canEnterSystem a selected p id);
  require (allowed : bool) else Status 404 "system_unavailable" in Ok id.
(** The system of an object: [row_system] is what its table says. *)
Definition requireNamespaceObject (a : access) (selected : Z) (query : option (list string)) (p : option Principal)
    (row_system : option Z) : result access_error Z :=
  selected ← bindRequestSystem a selected query p;
  match row_system with
  | None => Err (Status 404 "not_found")
  | Some systemID =>
      allowed ← on_error serverErr (canEnterSystem a selected p systemID);
      require (allowed : bool) else Status 404 "not_found" in Ok systemID
  end.

Definition set_Role (role : string) (p : Principal) : Principal :=
  MkPrincipal (p_Kind p) (p_UserID p) (p_TokenID p) (p_TokenSystemID p) (p_TokenSource p) (p_Email p)
    (p_Display p) role (p_Scopes p) (p_AuthNBy p) (p_SessionID p) (p_AuthExpiresAt p).
Definition set_token (system : Z) (scopes : list string) (p : Principal) : Principal :=
  MkPrincipal (p_Kind p) (p_UserID p) (p_TokenID p) system (p_TokenSource p) (p_Email p)
    (p_Display p) (p_Role p) scopes (p_AuthNBy p) (p_SessionID p) (p_AuthExpiresAt p).
(** [SELECT role FROM users WHERE id = ? AND disabled = 0]. *)
Definition active_role (a : access) (userID : Z) : option string :=
  match users (dir a) !! userID with Some u => if u_disabled u then None else Some (u_role u) | None => None end.
(** The token of a request, as the writer sees it. *)
Definition live_token (a : access) (id userID : Z) : option token_row :=
  match api_tokens a !! id with
  | Some t => if (tk_user t =? userID) && bool_decide (tk_revoked_at t = None) then Some t else None
  | None => None
  end.
Definition current_token (a : access) (p current : Principal) : result access_error Principal :=
  if p_TokenID p =? 0 then Ok current
  else match live_token a (p_TokenID p) (p_UserID p) with
       | None => Err ErrSystemUnavailable
       | Some t =>
           require tk_system t =? tokenSystemID (Some p) else ErrSystemUnavailable in
           Ok (set_token (tk_system t) (Split (tk_scopes t) ","%char) current)
       end.
Definition currentWriterPrincipal (a : access) (selected : Z) (p : option Principal) (systemID : Z) : result access_error Principal :=
  match p with
  | None => Err ErrSystemUnavailable
  | Some p =>
      match active_role a (p_UserID p) with
      | None => Err ErrSystemUnavailable
      | Some role =>
          current ← current_token a p (set_Role role p);
          require HasScope (Some current) ScopeDocumentsWrite else ErrSystemUnavailable in
          allowed ← canEnterSystem a selected (Some current) systemID;
          require (allowed : bool) else ErrSystemUnavailable in Ok current
      end
  end.

(** ** Guards *)
Definition requireScope (p : option Principal) (need : string) : result access_error Principal :=
  match RequireScope p need, p with
  | Refuse s c, _ => Err (Status s c)
  | Next, Some p => Ok p
  | Next, None => Err (Status 401 "unauthorized")
  end.
Definition requireAdmin (p : option Principal) : result access_error Principal :=
  match p with
  | None => Err (Status 401 "unauthenticated")
  | Some p => require bool_decide (p_Role p = "admin") else Status 403 "forbidden" in Ok p
  end.
(** A browser session, the only actor that may handle credentials. *)
Definition requireSession (p : option Principal) : result access_error Principal :=
  match p with
  | None => Err (Status 401 "unauthorized")
  | Some p =>
      fail_if p_UserID p =? 0 with Status 401 "unauthorized" in
      require bool_decide (p_Kind p = "user") else Status 403 "forbidden" in Ok p
  end.
Definition loadUserCapabilities (a : access) (userID : Z) : result access_error cap_set :=
  match profiles a !! userID with Some r => Ok (list_to_set (pr_capabilities r)) | None => Err ErrNoRows end.
Definition requireCapability (a : access) (p : option Principal) (cap : string) : result access_error Principal :=
  match p with
  | None => Err (Status 401 "unauthenticated")
  | Some p =>
      if bool_decide (p_Role p = "admin") then Ok p
      else caps ← on_error serverErr (loadUserCapabilities a (p_UserID p));
           require Has caps cap else Status 403 "forbidden" in Ok p
  end.
(** The same within the writer. *)
Definition capable (a : access) (current : Principal) (cap : string) : result access_error unit :=
  if bool_decide (p_Role current = "admin") then Ok tt
  else caps ← loadUserCapabilities a (p_UserID current);
       require Has caps cap else ErrSystemUnavailable in Ok tt.
Definition requireActiveAdmin (a : access) (userID : Z) : result access_error unit :=
  require bool_decide (active_role a userID = Some "admin") else ErrSystemUnavailable in Ok tt.
Definition requireLiveSession (a : access) (now : Z) (p : Principal) : result access_error unit :=
  if bool_decide (p_SessionID p = "") then Ok tt
  else match sessions a !! p_SessionID p with
       | Some s => require (se_user s =? p_UserID p) && (now <? se_expires_at s) else ErrSessionRevoked in Ok tt
       | None => Err ErrSessionRevoked
       end.

(** * Members of a filing system *)

Definition with_members (f : gset (Z * Z) -> gset (Z * Z)) (d : directory) : directory :=
  Directory (users d) (jd_systems d) (f (jd_system_members d)).
Definition with_users (f : gmap Z user -> gmap Z user) (d : directory) : directory :=
  Directory (f (users d)) (jd_systems d) (jd_system_members d).

Definition managedSystem (read : access) (p : option Principal) (code' : string) : result access_error (Principal * System) :=
  q ← requireAdmin p;
  fail_if negb (tokenSystemID p =? 0) with Status 403 "forbidden" in
  match Get (dir read) DefaultID with
  | Err _ => Err (Status 500 "internal")
  | Ok original =>
      fail_if bool_decide (Code original = "") with Status 404 "not_found" in
      match ByCode (dir read) code' with Err _ => Err (Status 404 "not_found") | Ok system => Ok (q, system) end
  end.

(** A stamp stays once it is set. *)
Definition revoke_link (now : Z) (l : link_row) : link_row :=
  Link (sl_system l) (sl_token l) (sl_docs l) (sl_created_by l) (sl_expires_at l) (sl_password l) (sl_label l) (sl_visibility l)
    (sl_created_at l) (Some (default now (sl_revoked_at l))).
Definition revoke_token (now : Z) (t : token_row) : token_row :=
  TokenRow (tk_system t) (tk_user t) (tk_name t) (tk_hash t) (tk_scopes t) (tk_created_at t)
    (Some (default now (tk_revoked_at t))) (tk_source t).
Definition revoke_links (which : link_row -> bool) (now : Z) : access -> access :=
  with_links (fmap (fun l => if which l then revoke_link now l else l)).
Definition revoke_tokens (which : token_row -> bool) (now : Z) : access -> access :=
  with_tokens (fmap (fun t => if which t then revoke_token now t else t)).
Definition drop_pairings (userID systemID : Z) : access -> access :=
  with_pairings (filter (fun x => ~ (x.1 = userID /\ pa_system x.2 = systemID))).
(** The trigger [jd_system_members_revoke]. *)
Definition revoke_member (systemID userID now : Z) (a : access) : access :=
  revoke_links (fun l => (sl_created_by l =? userID) && (sl_system l =? systemID)) now
    (drop_pairings userID systemID
       (with_tokens (filter (fun x => ~ (tk_user x.2 = userID /\ tk_system x.2 = systemID))) a)).
Definition remove_member (systemID now : Z) (a : access) (userID : Z) : access :=
  drop_pairings userID systemID
    (revoke_tokens (fun t => (tk_system t =? systemID) && (tk_user t =? userID) && bool_decide (tk_revoked_at t = None)) now
       (revoke_links (fun l => (sl_system l =? systemID) && (sl_created_by l =? userID) && bool_decide (sl_revoked_at l = None)) now
          (revoke_member systemID userID now (with_dir (with_members (.∖ {[(systemID, userID)]})) a)))).

Definition members_of (a : access) (systemID : Z) : list Z :=
  (filter (fun x => x.1 = systemID) (elements (jd_system_members (dir a)))).*2.
Fixpoint ids_ok (seen : gset Z) (ids : list Z) : bool :=
  match ids with [] => true | id :: ids => (0 <? id) && negb (bool_decide (id ∈ seen)) && ids_ok ({[id]} ∪ seen) ids end.
Definition member_ok (a : access) (systemID id : Z) : bool :=
  match users (dir a) !! id with
  | None => false
  | Some u => negb (u_disabled u) || bool_decide ((systemID, id) ∈ jd_system_members (dir a))
  end.
Definition put_members (systemID now : Z) (wanted : list Z) (a : access) : result access_error access :=
  require forallb (member_ok a systemID) wanted else ErrBadMembers in
  let existing := members_of a systemID in
  let a := with_dir (with_members (list_to_set ((fun id => (systemID, id)) <$> wanted) ∪.)) a in
  Ok (foldl (remove_member systemID now) a (filter (fun id => id ∉ wanted) existing)).
Definition PutSystemMembers (now : Z) (read a : access) (p : option Principal) (code' : string) (user_ids : option (list Z))
    : result access_error access :=
  '(_, system) ← managedSystem read p code';
  match user_ids with
  | None => Err (Status 400 "bad_request")
  | Some wanted =>
      require ids_ok ∅ wanted else Status 400 "bad_members" in
      on_error (fun e => match e with
                         | ErrBadMembers => Status 400 "bad_members" | ErrSystemUnavailable => Status 403 "forbidden"
                         | e => serverErr e end)
        (current ← currentWriterPrincipal a 0 p (ID system);
         require bool_decide (p_Role current = "admin") else ErrSystemUnavailable in
         put_members (ID system) now wanted a)
  end.

(** * Administration of accounts *)

Record user_patch : Type := UserPatch {
  up_DisplayName : option string; up_Role : option string; up_Disabled : option bool; up_Capabilities : option (list string);
}.
(** What the request must satisfy before the writer: the trimmed name and role, the capabilities. *)
Definition patch_checks (p : Principal) (uid : Z) (b : user_patch)
    : result access_error (option string * option string * option cap_set) :=
  fail_if uid <=? 0 with Status 400 "bad_id" in
  fail_if (uid =? p_UserID p) && default false (up_Disabled b) with Status 403 "cannot_disable_self" in
  let name := TrimSpace <$> up_DisplayName b in
  fail_if bool_decide (name = Some "") with Status 400 "empty_display_name" in
  fail_if match name with Some n => (120 <? String.length n)%nat | None => false end with Status 400 "display_name_too_long" in
  let role := TrimSpace <$> up_Role b in
  fail_if match role with Some r => negb (bool_decide (r = "admin")) && negb (bool_decide (r = "member")) | None => false end
    with Status 400 "bad_role" in
  match up_Capabilities b with
  | None => Ok (name, role, None)
  | Some raw => match ParseWire raw with Err _ => Err (Status 400 "bad_capability") | Ok caps => Ok (name, role, Some caps) end
  end.

Definition CapMailboxes : string := "mailboxes".
Definition CapShareLinks : string := "share_links".
Definition CapShareViews : string := "share_views".
Definition DisableAllByOwner (now ownerID : Z) (a : access) : access :=
  with_accounts (fmap (fun m => if (ma_OwnerID m =? ownerID) && ma_Enabled m then disabled_row now m else m)) (account_seq a) a.
Definition revokeShareLinksFor (now userID : Z) : access -> access :=
  revoke_links (fun l => (sl_created_by l =? userID) && bool_decide (sl_revoked_at l = None)) now.
Definition unshare (now : Z) (v : view_row) : view_row :=
  View (sv_system v) (sv_owner v) (sv_name v) (sv_filter v) (sv_display v) (sv_position v) false (sv_created_at v) now.
Definition revokeSharedViewsFor (now userID : Z) : access -> access :=
  with_views (fmap (fun v => if (sv_owner v =? userID) && sv_shared v then unshare now v else v)).
(** [revokeHooks]. *)
Definition revoke_hook (now uid : Z) (a : access) (cap : string) : access :=
  if bool_decide (cap = CapMailboxes) then DisableAllByOwner now uid a
  else if bool_decide (cap = CapShareLinks) then revokeShareLinksFor now uid a
  else if bool_decide (cap = CapShareViews) then revokeSharedViewsFor now uid a
  else a.

(** Capabilities after the patch, and those lost by it. *)
Definition next_caps (priorRole nextRole : string) (prior : cap_set) (requested : option cap_set) : cap_set :=
  if bool_decide (nextRole = "admin") || (bool_decide (priorRole = "admin") && bool_decide (requested = None)) then ∅
  else default prior requested.
Definition effective (role : string) (caps : cap_set) (cap : string) : bool := bool_decide (role = "admin") || Has caps cap.
Definition removed_caps (priorRole nextRole : string) (prior next : cap_set) : list string :=
  if negb (bool_decide (priorRole = "admin")) && negb (bool_decide (nextRole = "admin")) then elements (Diff next prior).2
  else filter (fun cap => effective priorRole prior cap && negb (effective nextRole next cap) = true) KnownCapabilities.
Definition patch_user (role : option string) (disabled : option bool) (u : user) : user :=
  User (u_email u) (default (u_role u) role) (default (u_disabled u) disabled).
(** The trigger [users_default_system_demotion]: as long as the archive has one unnamed
    system, a demoted administrator becomes a member of it. *)
Definition demote (uid : Z) (role : option string) (u : user) (d : directory) : directory :=
  if bool_decide (u_role u = "admin") && bool_decide (role = Some "member")
     && match jd_systems d !! DefaultID with Some r => bool_decide (code r = "") | None => false end
  then with_members ({[(DefaultID, uid)]} ∪.) d else d.
Definition has_active_admin (a : access) : bool :=
  exists_row (fun _ u => bool_decide (u_role u = "admin") && negb (u_disabled u)) (users (dir a)).
Definition patch_user_tx (now actorID uid : Z) (b : user_patch) (name role : option string) (requested : option cap_set)
    (a : access) : result access_error access :=
  _ ← requireActiveAdmin a actorID;
  match users (dir a) !! uid, profiles a !! uid with
  | Some u, Some r =>
      let prior : cap_set := list_to_set (pr_capabilities r) in
      let nextRole := default (u_role u) role in
      let next := next_caps (u_role u) nextRole prior requested in
      let touched := bool_decide (is_Some requested) || bool_decide (is_Some role) in
      let caps := if touched || bool_decide (u_role u = "admin") then Slice next else pr_capabilities r in
      let a := with_profiles <[uid := Profile (default (pr_display_name r) name) caps]>
                 (with_dir (fun d => demote uid role u (with_users <[uid := patch_user role (up_Disabled b) u]> d)) a) in
      fail_if (bool_decide (is_Some role) || bool_decide (is_Some (up_Disabled b))) && negb (has_active_admin a)
        with ErrLastActiveAdmin in
      Ok (if touched then foldl (revoke_hook now uid) a (removed_caps (u_role u) nextRole prior next) else a)
  | _, _ => Err ErrNoRows
  end.
Definition PatchUser (now : Z) (a : access) (p : option Principal) (uid : Z) (b : user_patch) : result access_error access :=
  q ← requireAdmin p;
  '(name, role, requested) ← patch_checks q uid b;
  on_error (fun e => match e with
                     | ErrNoRows => Status 404 "not_found" | ErrLastActiveAdmin => Status 409 "last_active_admin"
                     | e => serverErr e end)
    (patch_user_tx now (p_UserID q) uid b name role requested a).

(** * API tokens *)

(** [IssueAPIToken]: [hash] is the digest of the random plaintext. *)
Definition IssueAPIToken (now userID systemID : Z) (name scopes source hash : string) (a : access) : result access_error access :=
  require CanEnter (dir a) userID systemID else ErrMessage "token system unavailable" in
  fail_if exists_row (fun _ t => bool_decide (tk_hash t = hash)) (api_tokens a) with ErrUnique in
  let id := token_seq a + 1 in
  Ok (with_token_seq id (with_tokens <[id := TokenRow systemID userID name hash scopes now None source]> a)).

Definition IsAPIToken (token : string) : bool :=
  (String.length token =? 64)%nat && all_bytes (fun c => is_digit c || ((97 <=? byte_val c) && (byte_val c <=? 102))) token.
(** The known scopes of a request, each once, in order. *)
Fixpoint scope_list (seen raws : list string) : result access_error (list string) :=
  match raws with
  | [] => Ok seen
  | r :: raws =>
      let scope := TrimSpace r in
      require IsKnownScope scope else Status 400 "bad_scope" in
      scope_list (if existsb (String.eqb scope) seen then seen else seen ++ [scope]) raws
  end.
Definition or_else (d s : string) : string := if bool_decide (s = "") then d else s.
Definition default_scopes : string := ScopeDocumentsRead +:+ "," +:+ ScopeDocumentsWrite.
Definition session_status (e : access_error) : access_error :=
  match e with ErrSessionRevoked => Status 401 "unauthorized" | e => serverErr e end.
Definition CreateToken (now : Z) (read a : access) (query : option (list string)) (p : option Principal) (name scopes hash : string)
    : result access_error access :=
  q ← requireSession p;
  systemID ← requireSystem read 0 query p;
  let name := or_else "device" (TrimSpace name) in
  fail_if (64 <? String.length name)%nat with Status 400 "bad_name" in
  l ← scope_list [] (Split (or_else default_scopes (TrimSpace scopes)) ","%char);
  on_error session_status
    (_ ← requireLiveSession a now q;
     _ ← currentWriterPrincipal a systemID p systemID;
     IssueAPIToken now (p_UserID q) systemID name (Join l ",") "" hash a).
Definition DeleteToken (read a : access) (query : option (list string)) (p : option Principal) (id : Z) : result access_error access :=
  _ ← requireSession p;
  fail_if id <=? 0 with Status 400 "bad_id" in
  systemID ← requireNamespaceObject read 0 query p (tk_system <$> api_tokens read !! id);
  on_error serverErr
    (current ← currentWriterPrincipal a systemID p systemID;
     match api_tokens a !! id with
     | Some t =>
         require (tk_system t =? systemID) && (bool_decide (p_Role current = "admin") || (tk_user t =? p_UserID current))
           else Status 404 "not_found" in
         Ok (with_tokens (delete id) a)
     | None => Err (Status 404 "not_found")
     end).
(** [LogoutHandler]: [cookie] is the digest of the session cookie. *)
Definition Logout (now : Z) (cookie : option string) (p : option Principal) (a : access) : access :=
  let drop id (a : access) :=
    Access (dir a) (profiles a) (delete id (sessions a)) (api_tokens a) (token_seq a) (mobile_pairings a) (share_links a)
      (saved_views a) (email_accounts a) (account_seq a) (files a) in
  let a := match cookie with Some id => if bool_decide (id = "") then a else drop id a | None => a end in
  match p with
  | Some q => if p_TokenID q =? 0 then a
              else with_tokens (alter (fun t => if bool_decide (tk_revoked_at t = None) then revoke_token now t else t) (p_TokenID q)) a
  | None => a
  end.
(** [authToken]: the principal a token's digest authenticates. *)
Definition may_use (a : access) (t : token_row) : bool :=
  match users (dir a) !! tk_user t with
  | Some u => negb (u_disabled u)
              && (bool_decide (u_role u = "admin") || bool_decide ((tk_system t, tk_user t) ∈ jd_system_members (dir a)))
  | None => false
  end.
Definition token_principal (demoMode : bool) (id : Z) (t : token_row) (u : user) (display : string) : Principal :=
  let scopes := Split (tk_scopes t) ","%char in
  let kind := if demoMode && existsb (String.eqb ScopeDemoCorpusRead) scopes then "demo-scratch" else "token" in
  MkPrincipal kind (tk_user t) id (tk_system t) (tk_source t) (u_email u) display (u_role u) scopes "" "" 0.
Definition authToken (a : access) (demoMode : bool) (hash : string) : result string Principal :=
  match filter (fun x => tk_hash x.2 = hash) (map_to_list (api_tokens a)) with
  | (id, t) :: _ =>
      match users (dir a) !! tk_user t, profiles a !! tk_user t with
      | Some u, Some r =>
          require may_use a t else "token not recognized" in
          require bool_decide (tk_revoked_at t = None) else "token revoked" in
          Ok (token_principal demoMode id t u (pr_display_name r))
      | _, _ => Err "token not recognized"
      end
  | [] => Err "token not recognized"
  end.

(** * Mobile pairing *)

Definition mobilePairingScopes : string := default_scopes.
Definition mobilePairingSession (demo : bool) (p : option Principal) : result access_error Principal :=
  match p with
  | None => Err (Status 401 "unauthorized")
  | Some q =>
      fail_if p_UserID q <=? 0 with Status 401 "unauthorized" in
      fail_if negb (bool_decide (p_Kind q = "user")) || demo with Status 403 "forbidden" in Ok q
  end.
(** [hash] is the digest of the random code; [origin] whether the public URL may be paired with. *)
Definition CreateMobilePairing (now : Z) (demo origin : bool) (read a : access) (query : option (list string)) (p : option Principal)
    (name hash : string) : result access_error access :=
  q ← mobilePairingSession demo p;
  systemID ← requireSystem read 0 query p;
  let name := or_else "Suchi mobile" (TrimSpace name) in
  fail_if (64 <? RuneCountInString name)%nat with Status 400 "bad_name" in
  require origin else Status 503 "pairing_unavailable" in
  on_error (fun e => match e with ErrNoRows => Status 401 "unauthorized" | e => session_status e end)
    (_ ← requireLiveSession a now q;
     _ ← currentWriterPrincipal a systemID p systemID;
     let a := with_pairings (filter (fun x => ~ (pa_expires_at x.2 <= now \/ x.1 = p_UserID q))) a in
     fail_if exists_row (fun _ r => bool_decide (pa_hash r = hash)) (mobile_pairings a) with ErrUnique in
     require ((1 <=? sql_length name) && (sql_length name <=? 64))%nat else ErrConstraint "CHECK" in
     Ok (with_pairings <[p_UserID q := Pairing systemID hash name (now + 5 * 60)]> a)).
Definition DeleteMobilePairing (demo : bool) (read a : access) (query : option (list string)) (p : option Principal) (code hash : string)
    : result access_error access :=
  q ← mobilePairingSession demo p;
  systemID ← requireSystem read 0 query p;
  require IsAPIToken code else Status 400 "pairing_invalid" in
  on_error serverErr
    (_ ← currentWriterPrincipal a systemID p systemID;
     Ok (with_pairings (filter (fun x => ~ (x.1 = p_UserID q /\ pa_system x.2 = systemID /\ pa_hash x.2 = hash))) a)).
(** The row [DELETE ... RETURNING] removes; the digest is unique. *)
Definition take_pairing (now : Z) (hash : string) (a : access) : option (Z * pairing) :=
  head (filter (fun x => pa_hash x.2 = hash /\ now < pa_expires_at x.2 /\ is_Some (active_role a x.1)) (map_to_list (mobile_pairings a))).
Definition ExchangeMobilePairing (now : Z) (demo : bool) (a : access) (code device hash token_hash : string)
    : result access_error access :=
  fail_if negb (IsAPIToken code) || demo with Status 400 "pairing_invalid" in
  let device := TrimSpace device in
  fail_if (64 <? RuneCountInString device)%nat || existsb IsControl (runes device) with Status 400 "bad_name" in
  match take_pairing now hash a with
  | None => Err (Status 400 "pairing_invalid")
  | Some (userID, r) =>
      let a := with_pairings (delete userID) a in
      require CanEnter (dir a) userID (pa_system r) else Status 400 "pairing_invalid" in
      on_error (fun _ => Status 500 "internal")
        (IssueAPIToken now userID (pa_system r) (or_else (pa_name r) device) mobilePairingScopes "mobile_pairing" token_hash a)
  end.

(** * Saved views *)

Definition maxSavedViewsPerUser : nat := 50.
Record view_upsert : Type := ViewUpsert {
  vu_Name : option string; vu_Filter : option string; vu_Display : option string; vu_Position : option Z; vu_Shared : option bool;
}.
Definition view_status (e : access_error) : access_error :=
  match e with ErrNotFound => Status 404 "not_found" | ErrUnique => Status 409 "conflict" | e => serverErr e end.
Definition view_display (o : option string) : result access_error string :=
  match o with
  | None => Ok "table"
  | Some d =>
      let d := TrimSpace d in
      fail_if bool_decide (d = "") || (32 <? String.length d)%nat with Status 400 "bad_display" in Ok d
  end.
(** [UNIQUE(system_id, owner_id, name)]. *)
Definition view_taken (a : access) (except : option Z) (systemID ownerID : Z) (name : string) : bool :=
  exists_row (fun id v => negb (bool_decide (Some id = except)) && (sv_system v =? systemID) && (sv_owner v =? ownerID)
                          && bool_decide (sv_name v = name)) (saved_views a).
Section Views.
(** [normalizeSavedViewFilterJSON]; it compiles the query of the filter. *)
Context (normalize_filter : string -> result access_error string).

Definition CreateSavedView (now : Z) (read a : access) (query : option (list string)) (p : option Principal) (b : view_upsert)
    : result access_error (Z * access) :=
  match p with
  | None => Err (Status 401 "unauthorized")
  | Some q =>
      systemID ← requireSystem read 0 query p;
      let shared := default false (vu_Shared b) in
      _ ← (if shared then _ ← requireCapability read p CapShareViews; Ok tt else Ok tt);
      let name := TrimSpace (default "" (vu_Name b)) in
      fail_if bool_decide (name = "") with Status 400 "missing_name" in
      fail_if (120 <? String.length name)%nat with Status 400 "bad_name" in
      filter_json ← match vu_Filter b with
                    | Some f => if bool_decide (TrimSpace f = "") then Ok "{}" else normalize_filter f
                    | None => Ok "{}" end;
      let mine := filter (fun x => sv_system x.2 = systemID /\ sv_owner x.2 = p_UserID q) (map_to_list (saved_views read)) in
      fail_if (maxSavedViewsPerUser <=? length mine)%nat with Status 409 "limit_reached" in
      display ← view_display (vu_Display b);
      on_error view_status
        (current ← currentWriterPrincipal a systemID p systemID;
         _ ← (if shared then capable a current CapShareViews else Ok tt);
         fail_if view_taken a None systemID (p_UserID q) name with ErrUnique in
         let id := next_rowid (saved_views a) in
         Ok (id, with_views <[id := View systemID (p_UserID q) name filter_json display (default 0 (vu_Position b)) shared now now]> a))
  end.
Definition patch_view (now : Z) (name filter_json display : option string) (b : view_upsert) (v : view_row) : view_row :=
  View (sv_system v) (sv_owner v) (default (sv_name v) name) (default (sv_filter v) filter_json) (default (sv_display v) display)
    (default (sv_position v) (vu_Position b)) (default (sv_shared v) (vu_Shared b)) (sv_created_at v) now.
Definition no_fields (b : view_upsert) : bool :=
  bool_decide (vu_Name b = None) && bool_decide (vu_Filter b = None) && bool_decide (vu_Display b = None)
  && bool_decide (vu_Position b = None) && bool_decide (vu_Shared b = None).
Definition UpdateSavedView (now : Z) (read a : access) (query : option (list string)) (p : option Principal) (id : Z) (b : view_upsert)
    : result access_error access :=
  match p with
  | None => Err (Status 401 "unauthorized")
  | Some q =>
      systemID ← requireNamespaceObject read 0 query p (sv_system <$> saved_views read !! id);
      let shared := default false (vu_Shared b) in
      _ ← (if shared then _ ← requireCapability read p CapShareViews; Ok tt else Ok tt);
      let name := TrimSpace <$> vu_Name b in
      fail_if match name with Some n => bool_decide (n = "") || (120 <? String.length n)%nat | None => false end
        with Status 400 "bad_name" in
      filter_json ← match vu_Filter b with Some f => Some <$> normalize_filter f | None => Ok None end;
      display ← match vu_Display b with Some d => Some <$> view_display (Some d) | None => Ok None end;
      fail_if no_fields b with Status 400 "no_fields" in
      on_error view_status
        (current ← currentWriterPrincipal a systemID p systemID;
         _ ← (if shared then capable a current CapShareViews else Ok tt);
         match saved_views a !! id with
         | Some v =>
             require sv_owner v =? p_UserID q else ErrNotFound in
             let v := patch_view now name filter_json display b v in
             fail_if view_taken a (Some id) (sv_system v) (sv_owner v) (sv_name v) with ErrUnique in
             Ok (with_views <[id := v]> a)
         | None => Err ErrNotFound
         end)
  end.
End Views.
Definition DeleteSavedView (read a : access) (query : option (list string)) (p : option Principal) (id : Z) : result access_error access :=
  match p with
  | None => Err (Status 401 "unauthorized")
  | Some q =>
      systemID ← requireNamespaceObject read 0 query p (sv_system <$> saved_views read !! id);
      on_error view_status
        (_ ← currentWriterPrincipal a systemID p systemID;
         match saved_views a !! id with
         | Some v => require sv_owner v =? p_UserID q else ErrNotFound in Ok (with_views (delete id) a)
         | None => Err ErrNotFound
         end)
  end.
(** Which views a listing shows. *)
Definition lists_view (systemID userID : Z) (shared_too : bool) (v : view_row) : bool :=
  (sv_system v =? systemID) && ((sv_owner v =? userID) || (shared_too && sv_shared v)).
