(* ===== verification/Hex.v ===== *)
(** [encoding/hex] of Go's standard library: two digits per byte, lower case when
    printed, either case when read. *)
From S2P Require Import Prelude GoStd.

Definition hex_chr (d : Z) : ascii := if d <? 10 then chr (48 + d) else chr (87 + d).
Definition hex_val (c : ascii) : option Z :=
  let b := byte_val c in
  if (48 <=? b) && (b <=? 57) then Some (b - 48)
  else if (97 <=? b) && (b <=? 102) then Some (b - 87)
  else if (65 <=? b) && (b <=? 70) then Some (b - 55)
  else None.
Fixpoint EncodeToString (s : string) : string :=
  match s with
  | EmptyString => ""
  | String c s => String (hex_chr (byte_val c / 16)) (String (hex_chr (byte_val c mod 16)) (EncodeToString s))
  end.
(** [None] is an error: an odd length or a byte that is no digit. *)
Fixpoint DecodeString (s : string) : option string :=
  match s with
  | EmptyString => Some ""
  | String a (String b s) =>
      match hex_val a, hex_val b, DecodeString s with
      | Some x, Some y, Some r => Some (String (chr (16 * x + y)) r)
      | _, _, _ => None
      end
  | String _ EmptyString => None
  end.

Lemma hex_val_chr d : 0 <= d < 16 -> hex_val (hex_chr d) = Some d.
Proof.
  intros H. assert (Hd : d = 0 \/ d = 1 \/ d = 2 \/ d = 3 \/ d = 4 \/ d = 5 \/ d = 6 \/ d = 7 \/ d = 8 \/ d = 9 \/ d = 10 \/ d = 11
      \/ d = 12 \/ d = 13 \/ d = 14 \/ d = 15) by lia.
  repeat (destruct Hd as [->|Hd]; [vm_compute; reflexivity|]). rewrite Hd. vm_compute. reflexivity.
Qed.
Lemma Decode_Encode s : DecodeString (EncodeToString s) = Some s.
Proof.
  induction s as [|c s IH]; [done|]. pose proof (byte_val_range c) as Hc.
  assert (Hd : 0 <= byte_val c / 16 < 16) by (split; [apply Z.div_pos|apply Z.div_lt_upper_bound]; lia).
  assert (Hm : 0 <= byte_val c mod 16 < 16) by (apply Z.mod_pos_bound; lia).
  cbn [EncodeToString DecodeString]. rewrite (hex_val_chr _ Hd), (hex_val_chr _ Hm), IH.
  do 2 f_equal. rewrite <- (chr_byte_val c) at 3. f_equal. symmetry. apply Z.div_mod. lia.
Qed.
