(* ===== verification/ShareLinks.v ===== *)
(** Share links ([core/api/share_links.go]): what a creator may put on a link, and what a
    recipient gets for its token — the landing page, the unlocking of a password and the
    download of a document.

    HMAC-SHA256 and the password hash are parameters; a random token and the digest of a
    password are arguments.  The page's HTML and the blob itself are left out: a page is the
    facts it shows, a download the name of the blob, its type and its file name. *)
From S2P Require Import Prelude GoStd Utf8 Sqlite FilePath Systems Authz Principal Mailbox Hex Access.

Definition shareVisibilityNetwork : string := "network".
Definition shareVisibilityPublic : string := "public".
Definition maxShareLabelBytes : nat := 200.
Definition maxSharePasswordBytes : nat := 1024.
Definition maxShareExpirySeconds : Z := 365 * 24 * 60 * 60.
Definition shareUnlockLifetime : Z := 60 * 60.

Record ShareLinkCreate : Type := MkShare {
  sc_DocIDs : list Z; sc_Label : string; sc_Visibility : string; sc_ExpiresIn : Z; sc_Password : string;
}.

(** * Creating, listing and revoking *)

(** [SELECT COUNT( * ) FROM documents WHERE id IN (...) AND ...] against the number of ids:
    a repeated id counts once, and fails. *)
Definition shareable (admin : bool) (userID systemID : Z) (f : file_row) : bool :=
  negb (fl_trashed f) && (fl_system f =? systemID) && (admin || (fl_owner f =? userID)).
Definition shareable_count (a : access) (admin : bool) (userID systemID : Z) (ids : list Z) : nat :=
  length (filter (fun x => x.1 ∈ ids /\ shareable admin userID systemID x.2 = true) (map_to_list (files a))).
Definition assertShareable (a : access) (p : Principal) (systemID : Z) (ids : list Z) : result access_error unit :=
  fail_if bool_decide (ids = []) with ErrNotFound in
  require (shareable_count a (bool_decide (p_Role p = "admin")) (p_UserID p) systemID ids =? length ids)%nat
    else ErrNotFound in Ok tt.

Definition share_status (e : access_error) : access_error :=
  match e with ErrNotFound => Status 404 "not_found" | e => serverErr e end.
Definition create_checks (public_url : string) (b : ShareLinkCreate) : result access_error unit :=
  fail_if bool_decide (sc_DocIDs b = []) || (200 <? length (sc_DocIDs b))%nat with Status 400 "bad_doc_ids" in
  fail_if (maxShareLabelBytes <? String.length (TrimSpace (sc_Label b)))%nat with Status 400 "bad_label" in
  fail_if (maxSharePasswordBytes <? String.length (sc_Password b))%nat with Status 400 "bad_password" in
  require bool_decide (sc_Visibility b = shareVisibilityNetwork) || bool_decide (sc_Visibility b = shareVisibilityPublic)
    else Status 400 "bad_visibility" in
  fail_if (sc_ExpiresIn b <? 0) || (maxShareExpirySeconds <? sc_ExpiresIn b) with Status 400 "bad_expiry" in
  if bool_decide (sc_Visibility b = shareVisibilityPublic) then
    fail_if sc_ExpiresIn b =? 0 with Status 400 "bad_expiry" in
    fail_if bool_decide (TrimSpace public_url = "") with Status 409 "public_sharing_unavailable" in Ok tt
  else Ok tt.
(** [INSERT] with the trigger [share_links_documents_insert] and [UNIQUE(token)]. *)
Definition insert_link (l : link_row) (a : access) : result access_error (Z * access) :=
  fail_if existsb (fun id => match files a !! id with Some f => negb (fl_system f =? sl_system l) | None => false end) (sl_docs l)
    with ErrConstraint "cross-system documents" in
  fail_if exists_row (fun _ r => bool_decide (sl_token r = sl_token l)) (share_links a) with ErrUnique in
  let id := next_rowid (share_links a) in
  Ok (id, with_links <[id := l]> a).
Definition CreateShareLink (hasher : string -> option string) (public_url : string) (now : Z) (read a : access)
    (query : option (list string)) (p : option Principal) (b : ShareLinkCreate) (token : string) : result access_error (Z * access) :=
  _ ← requireScope p ScopeDocumentsWrite;
  q ← requireCapability read p CapShareLinks;
  systemID ← requireSystem read 0 query p;
  _ ← create_checks public_url b;
  _ ← on_error share_status (assertShareable read q systemID (sc_DocIDs b));
  password ← (if bool_decide (sc_Password b = "") then Ok None
              else match hasher (sc_Password b) with Some h => Ok (Some h) | None => Err (Status 503 "password_hash_unavailable") end);
  let expires := if 0 <? sc_ExpiresIn b then Some (now + sc_ExpiresIn b) else None in
  on_error share_status
    (current ← currentWriterPrincipal a systemID p systemID;
     _ ← capable a current CapShareLinks;
     _ ← assertShareable a current systemID (sc_DocIDs b);
     insert_link (Link systemID token (sc_DocIDs b) (p_UserID q) expires password (TrimSpace (sc_Label b)) (sc_Visibility b) now None) a).

Definition RevokeShareLink (now : Z) (read a : access) (query : option (list string)) (p : option Principal) (id : Z)
    : result access_error access :=
  q ← requireScope p ScopeDocumentsWrite;
  systemID ← requireNamespaceObject read 0 query p (sl_system <$> share_links read !! id);
  on_error share_status
    (_ ← currentWriterPrincipal a systemID p systemID;
     match share_links a !! id with
     | Some l =>
         require sl_created_by l =? p_UserID q else ErrNotFound in
         Ok (if bool_decide (sl_revoked_at l = None) then with_links <[id := revoke_link now l]> a else a)
     | None => Err ErrNotFound
     end).

(** The filters of [ListShareLinks]; [None] is a NULL, for which no comparison holds. *)
Definition after (o : option Z) (t : Z) : bool := match o with Some x => t <? x | None => false end.
Definition until (o : option Z) (t : Z) : bool := match o with Some x => x <=? t | None => false end.
Definition isnull (o : option Z) : bool := bool_decide (o = None).
Definition list_active (now : Z) (l : link_row) : bool :=
  isnull (sl_revoked_at l) && (isnull (sl_expires_at l) || after (sl_expires_at l) now)
  && (bool_decide (sl_visibility l = "network")
      || (negb (isnull (sl_expires_at l)) && after (sl_expires_at l) (sl_created_at l)
          && until (sl_expires_at l) (sl_created_at l + maxShareExpirySeconds))).
Definition list_inactive (now : Z) (l : link_row) : bool :=
  negb (isnull (sl_revoked_at l))
  || (negb (isnull (sl_expires_at l)) && until (sl_expires_at l) now)
  || (bool_decide (sl_visibility l = "public")
      && (isnull (sl_expires_at l) || until (sl_expires_at l) (sl_created_at l)
          || after (sl_expires_at l) (sl_created_at l + maxShareExpirySeconds))).
Inductive list_status : Type := AnyStatus | Active | Inactive.
Definition newer (x y : Z * link_row) : Prop :=
  sl_created_at y.2 < sl_created_at x.2 \/ (sl_created_at y.2 = sl_created_at x.2 /\ y.1 <= x.1).
#[export] Instance newer_dec x y : Decision (newer x y).
Proof. unfold newer. apply _. Defined.
Definition lists_link (now userID systemID : Z) (docID : option Z) (status : list_status) (l : link_row) : bool :=
  (sl_created_by l =? userID) && (sl_system l =? systemID)
  && match docID with Some id => bool_decide (id ∈ sl_docs l) | None => true end
  && match status with AnyStatus => true | Active => list_active now l | Inactive => list_inactive now l end.
Definition ListShareLinks (now : Z) (a : access) (query : option (list string)) (p : option Principal) (docID : option Z) (status : list_status)
    : result access_error (list (Z * link_row)) :=
  q ← requireScope p ScopeDocumentsRead;
  systemID ← requireSystem a 0 query p;
  fail_if match docID with Some id => id <=? 0 | None => false end with Status 400 "bad_doc_id" in
  Ok (merge_sort newer (filter (fun x => lists_link now (p_UserID q) systemID docID status x.2 = true) (map_to_list (share_links a)))).

Definition shareOrigin (url public_url visibility : string) : string :=
  if bool_decide (visibility = shareVisibilityPublic) && negb (bool_decide (TrimSpace public_url = "")) then public_url else url.
Definition publicShareURL (url public_url visibility token : string) : string :=
  let base := trim_slashes (TrimSpace (shareOrigin url public_url visibility)) in
  if bool_decide (base = "") then "/s/" +:+ token else base +:+ "/s/" +:+ token.

(** * Recipients *)
Section Recipient.
(** [hmac.New(sha256.New, key)] of a message, in bytes; [PasswordVerifier]. *)
Context (mac : string -> string -> string) (verifier : option (string -> string -> bool)).

Record shareLinkLoaded : Type := Loaded {
  ll_id : Z; ll_systemID : Z; ll_createdBy : Z; ll_creatorAdmin : bool; ll_label : string; ll_sharedBy : string;
  ll_visibility : string; ll_docIDs : list Z; ll_pwHash : option string; ll_expiresAt : option Z;
}.
Inductive share_error : Type := errNotFound | errShareNeedsPassword | errWrongPassword.

(** The row, its creator still able to enter the system. *)
Definition creator (a : access) (l : link_row) : option user :=
  match users (dir a) !! sl_created_by l with
  | Some u =>
      if negb (u_disabled u) && (bool_decide (u_role u = "admin")
           || bool_decide ((sl_system l, sl_created_by l) ∈ jd_system_members (dir a))) then Some u else None
  | None => None
  end.
Definition link_expired (now : Z) (l : link_row) : bool :=
  match sl_revoked_at l with Some t => 0 <? t | None => false end
  || until (sl_expires_at l) now
  || (bool_decide (sl_visibility l = shareVisibilityPublic)
      && match sl_expires_at l with
         | None => true
         | Some e => (e <=? sl_created_at l) || (sl_created_at l + maxShareExpirySeconds <? e)
         end).
Definition loadShareByToken (now : Z) (a : access) (publicOnly : bool) (token : string) : option shareLinkLoaded :=
  if negb (String.length token =? 64)%nat then None
  else match filter (fun x => sl_token x.2 = token) (map_to_list (share_links a)) with
  | (id, l) :: _ =>
      match creator a l with
      | None => None
      | Some u =>
          if publicOnly && negb (bool_decide (sl_visibility l = shareVisibilityPublic)) then None
          else if link_expired now l then None
          else Some (Loaded id (sl_system l) (sl_created_by l) (bool_decide (u_role u = "admin")) (sl_label l)
                       (sql_trim (default "" (pr_display_name <$> profiles a !! sl_created_by l)))
                       (sl_visibility l) (sl_docs l) (sl_password l) (sl_expires_at l))
      end
  | [] => None
  end.

Definition verifySharePassword (l : shareLinkLoaded) (supplied : string) : result share_error unit :=
  match ll_pwHash l with
  | None => Ok tt
  | Some h =>
      fail_if bool_decide (supplied = "") with errShareNeedsPassword in
      match verifier with
      | None => Err errWrongPassword
      | Some v => require v h supplied else errWrongPassword in Ok tt
      end
  end.

(** The proof in the unlock cookie: the time it ends and its signature. *)
Definition nul : string := String (chr 0) "".
Definition unlock_signature (pwHash token expires : string) : string := mac pwHash (token +:+ nul +:+ expires).
Definition shareUnlockToken (l : shareLinkLoaded) (token : string) (expiresAt : Z) : string :=
  let expires := FormatInt expiresAt in
  expires +:+ "." +:+ EncodeToString (unlock_signature (default "" (ll_pwHash l)) token expires).
Definition cut_dot (value : string) : option (string * string) :=
  (fun i => (stake i value, sdrop (S i) value)) <$> Index value ".".
Definition validShareUnlockToken (l : shareLinkLoaded) (token value : string) (now : Z) : bool :=
  match cut_dot value with
  | None => false
  | Some (expires, signature) =>
      match ParseInt expires with
      | Err _ => false
      | Ok expiresAt =>
          if expiresAt <=? now then false
          else match DecodeString signature with
               | None => false
               | Some got => bool_decide (got = unlock_signature (default "" (ll_pwHash l)) token expires)
               end
      end
  end.

(** What a recipient sends besides the path: the password header and the unlock cookie. *)
Record recipient : Type := Recipient { rc_password : string; rc_cookie : option string }.
Definition verifyShareAccess (now : Z) (l : shareLinkLoaded) (token : string) (r : recipient) : result share_error unit :=
  match ll_pwHash l with
  | None => Ok tt
  | Some _ =>
      if negb (bool_decide (rc_password r = "")) then verifySharePassword l (rc_password r)
      else match rc_cookie r with
           | None => Err errShareNeedsPassword
           | Some value => require validShareUnlockToken l token value now else errWrongPassword in Ok tt
           end
  end.

(** The documents of a link that its creator could share now. *)
Definition covered (l : shareLinkLoaded) (f : file_row) : bool :=
  negb (fl_trashed f) && (fl_system f =? ll_systemID l) && (ll_creatorAdmin l || (fl_owner f =? ll_createdBy l)).
Definition by_doc (x y : Z * file_row) : Prop := x.1 <= y.1.
#[export] Instance by_doc_dec x y : Decision (by_doc x y).
Proof. unfold by_doc. apply _. Defined.
Definition loadShareDocs (a : access) (l : shareLinkLoaded) : list (Z * file_row) :=
  merge_sort by_doc (filter (fun x => x.1 ∈ ll_docIDs l /\ covered l x.2 = true) (map_to_list (files a))).

Inductive page : Type :=
  | Invalid                                  (* 404 *)
  | Locked (l : shareLinkLoaded)             (* 200, the password form *)
  | WrongPassword (l : shareLinkLoaded)      (* 403 *)
  | Documents (l : shareLinkLoaded) (docs : list (Z * file_row)).
Definition getSharePublic (now : Z) (a : access) (publicOnly : bool) (token : string) (r : recipient) : page :=
  match loadShareByToken now a publicOnly token with
  | None => Invalid
  | Some l =>
      match verifyShareAccess now l token r with
      | Err errShareNeedsPassword => Locked l
      | Err _ => WrongPassword l
      | Ok _ => Documents l (loadShareDocs a l)
      end
  end.
(** The cookie [postSharePublic] sets. *)
Inductive unlock : Type := NoSuchLink | Refused | Unlocked (cookie : string) (expires : Z).
Definition postSharePublic (now : Z) (a : access) (publicOnly : bool) (token password : string) : unlock :=
  match loadShareByToken now a publicOnly token with
  | None => NoSuchLink
  | Some l =>
      match verifySharePassword l password with
      | Err _ => Refused
      | Ok _ => Unlocked (shareUnlockToken l token (now + shareUnlockLifetime)) (now + shareUnlockLifetime)
      end
  end.
(** The blob, its media type and its title. *)
Definition getSharePublicDownload (now : Z) (a : access) (publicOnly : bool) (token doc_id : string) (r : recipient)
    : result (Z * string) (string * string * string) :=
  match loadShareByToken now a publicOnly token with
  | None => Err (404, "not_found")
  | Some l =>
      match ParseInt doc_id with
      | Err _ => Err (if publicOnly then (404, "not_found") else (400, "bad_doc_id"))
      | Ok docID =>
          require is_ok (verifyShareAccess now l token r) else (403, "bad_password") in
          require bool_decide (docID ∈ ll_docIDs l) else (404, "not_found") in
          match files a !! docID with
          | Some f =>
              require covered l f else (404, "not_found") in
              let pick := match fl_decrypted f with
                          | Some b => if bool_decide (b = "") then fl_original f else b | None => fl_original f end in
              fail_if bool_decide (pick = "") with (404, "not_found") in
              Ok (pick, or_else "application/octet-stream" (default "" (fl_mime f)), fl_title f)
          | None => Err (404, "not_found")
          end
      end
  end.
End Recipient.
