(* ===== verification/MailboxStore.v ===== *)
(** The rows of mailboxes ([core/emailaccounts/store.go]): who may create, change and delete
    an account, what a change does to the watcher's cursor, and which accounts are polled.
    An actor of [None] is the poller itself.  The HTTP handlers around these functions are
    left out. *)
From S2P Require Import Prelude GoStd Utf8 Sqlite Systems Authz Principal Mailbox Access.

(** Authority is read again in the transaction of the write. *)
Definition checkMutation (a : access) (actor : option Principal) (systemID ownerID : Z) : result access_error unit :=
  match actor with
  | None => Ok tt
  | Some p =>
      let bound := tokenSystemID actor in
      fail_if negb (bound =? 0) && negb (bound =? systemID) with ErrNoRows in
      require CanEnter (dir a) (p_UserID p) systemID else ErrNoRows in
      require (p_TokenID p =? 0)
              || match live_token a (p_TokenID p) (p_UserID p) with Some t => tk_system t =? systemID | None => false end
        else ErrNoRows in
      match active_role a (p_UserID p) with
      | None => Err ErrNoRows
      | Some role =>
          if bool_decide (role = "admin") then Ok tt
          else caps ← loadUserCapabilities a (p_UserID p);
               require (p_UserID p =? ownerID) && Has caps CapMailboxes else ErrNoRows in Ok tt
      end
  end.

Section Store.
Context (to_lower : string -> string) (ca_ok : string -> bool).

Definition of_text {A} (r : result string A) : result access_error A :=
  match r with Ok x => Ok x | Err m => Err (ErrMessage m) end.
Definition set_defaults (m : Account) (policy : list IntakeRule) (now : Z) : Account :=
  MkAccount (ma_SystemID m) (ma_Name m) (ma_OwnerID m) (Provider m) (Host m) (Port m) (UseTLS m) (TLSCAFile m)
    (or_default "INBOX" (Folder m)) (ProcessedFolder m) (if PollIntervalMin m =? 0 then 10 else PollIntervalMin m)
    (AuthMethod m) (Username m) (SealedSecret m) (OAuthAccountID m) policy
    (match SyncSince m with Some t => if t <=? 0 then None else Some t | None => None end)
    (ma_Enabled m) (MarkSeen m) 0 0 0 "" now now.
(** [sync_since] is validated before it is stored as NULL for zero. *)
Definition keep_since (m : Account) (m' : Account) : Account :=
  MkAccount (ma_SystemID m') (ma_Name m') (ma_OwnerID m') (Provider m') (Host m') (Port m') (UseTLS m') (TLSCAFile m') (Folder m')
    (ProcessedFolder m') (PollIntervalMin m') (AuthMethod m') (Username m') (SealedSecret m') (OAuthAccountID m') (ma_Policy m')
    (SyncSince m) (ma_Enabled m') (MarkSeen m') 0 0 0 "" (ma_CreatedAt m') (ma_UpdatedAt m').
Definition CreateAccount (now : Z) (m : Account) (policy : IntakePolicy) (actor : option Principal) (a : access)
    : result access_error (Z * access) :=
  rules ← of_text (NormalizeIntakePolicy to_lower policy);
  let row := set_defaults m rules now in
  _ ← of_text (validateNew ca_ok (keep_since m row));
  _ ← checkMutation a actor (ma_SystemID m) (ma_OwnerID m);
  require CanEnter (dir a) (ma_OwnerID m) (ma_SystemID m) else ErrNoRows in
  let id := account_seq a + 1 in
  Ok (id, with_accounts <[id := row]> id a).

Definition patch_ca (m : Account) (b : AccountPatch) : result access_error unit :=
  let enabled := default (ma_Enabled m) (mp_Enabled b) in
  if (bool_decide (is_Some (mp_TLSCAFile b)) || enabled) && negb (ca_ok (default (TLSCAFile m) (mp_TLSCAFile b)))
  then Err (ErrMessage "tls_ca_file") else Ok tt.
Definition PatchAccount (now id : Z) (b : AccountPatch) (actor : option Principal) (a : access) : result access_error access :=
  policy ← match mp_Policy b with
           | None => Ok None
           | Some p => Some <$> of_text (NormalizeIntakePolicy to_lower p)
           end;
  _ ← of_text (validatePatch b);
  match email_accounts a !! id with
  | None => Err ErrNoRows
  | Some m =>
      _ ← checkMutation a actor (ma_SystemID m) (ma_OwnerID m);
      let ownerID := default (ma_OwnerID m) (mp_OwnerID b) in
      _ ← (if ownerID =? ma_OwnerID m then Ok tt else checkMutation a actor (ma_SystemID m) ownerID);
      require CanEnter (dir a) ownerID (ma_SystemID m) else ErrNoRows in
      require match actor with
              | Some p => bool_decide (mp_TLSCAFile b = None)
                          || bool_decide ((u_role <$> users (dir a) !! p_UserID p) = Some "admin")
              | None => true
              end else ErrNoRows in
      _ ← patch_ca m b;
      Ok (with_accounts <[id := apply_patch now policy b m]> (account_seq a) a)
  end.
Definition DeleteAccount (id : Z) (actor : option Principal) (a : access) : result access_error access :=
  match email_accounts a !! id with
  | None => Err ErrNoRows
  | Some m =>
      _ ← checkMutation a actor (ma_SystemID m) (ma_OwnerID m);
      Ok (with_accounts (delete id) (account_seq a) a)
  end.
End Store.

(** The watcher's own writes. *)
Definition set_cursor (now lastUID uidValidity : Z) (m : Account) : Account :=
  MkAccount (ma_SystemID m) (ma_Name m) (ma_OwnerID m) (Provider m) (Host m) (Port m) (UseTLS m) (TLSCAFile m) (Folder m)
    (ProcessedFolder m) (PollIntervalMin m) (AuthMethod m) (Username m) (SealedSecret m) (OAuthAccountID m) (ma_Policy m)
    (SyncSince m) (ma_Enabled m) (MarkSeen m) lastUID uidValidity (LastSyncAt m) (LastError m) (ma_CreatedAt m) now.
Definition set_sync (now syncedAt : Z) (errMsg : string) (m : Account) : Account :=
  MkAccount (ma_SystemID m) (ma_Name m) (ma_OwnerID m) (Provider m) (Host m) (Port m) (UseTLS m) (TLSCAFile m) (Folder m)
    (ProcessedFolder m) (PollIntervalMin m) (AuthMethod m) (Username m) (SealedSecret m) (OAuthAccountID m) (ma_Policy m)
    (SyncSince m) (ma_Enabled m) (MarkSeen m) (LastUIDSeen m) (UIDValiditySeen m) syncedAt errMsg (ma_CreatedAt m) now.
Definition update_account (id : Z) (f : Account -> Account) (a : access) : result access_error access :=
  match email_accounts a !! id with
  | None => Err ErrNoRows
  | Some m => Ok (with_accounts <[id := f m]> (account_seq a) a)
  end.
Definition UpdateUIDCursor (now id lastUID uidValidity : Z) : access -> result access_error access :=
  update_account id (set_cursor now lastUID uidValidity).
Definition MarkSync (now id syncedAt : Z) (errMsg : string) : access -> result access_error access :=
  update_account id (set_sync now syncedAt errMsg).

(** The accounts that are polled: enabled, of an active owner that may enter the system. *)
Definition polled (a : access) (m : Account) : bool :=
  ma_Enabled m
  && match users (dir a) !! ma_OwnerID m with
     | Some u => negb (u_disabled u) && (bool_decide (u_role u = "admin")
                   || bool_decide ((ma_SystemID m, ma_OwnerID m) ∈ jd_system_members (dir a)))
     | None => false
     end.
Definition by_account (x y : Z * Account) : Prop := x.1 <= y.1.
#[export] Instance by_account_dec x y : Decision (by_account x y).
Proof. unfold by_account. apply _. Defined.
Definition ListEnabled (a : access) : list (Z * Account) :=
  merge_sort by_account (filter (fun x => polled a x.2 = true) (map_to_list (email_accounts a))).
