(* ===== verification/AccessFacts.v ===== *)
(** The tables of [Access] over every request: the invariant that a power handed out is
    still held, what a request may do to links and tokens, and what stays revoked. *)
From S2P Require Import Prelude GoStd Utf8 Sqlite Systems Authz Principal Mailbox Access MailboxStore Hex ShareLinks.

(** * Tables *)

Definition unique {A B} (f : A -> B) (m : gmap Z A) : Prop :=
  forall i j x y, m !! i = Some x -> m !! j = Some y -> f x = f y -> i = j.
Lemma unique_put {A B} (f : A -> B) (m : gmap Z A) i x :
  unique f m -> (forall j y, m !! j = Some y -> j <> i -> f y <> f x) -> unique f (<[i := x]> m).
Proof.
  intros U N j k y z [[<- <-]|[Hj Hy]]%lookup_insert_Some [[<- <-]|[Hk Hz]]%lookup_insert_Some Hf.
  - done.
  - by destruct (N _ _ Hz (not_eq_sym Hk)).
  - by destruct (N _ _ Hy (not_eq_sym Hj)).
  - by eapply U.
Qed.
Lemma unique_sub {A B} (f : A -> B) (m m' : gmap Z A) :
  (forall i x, m' !! i = Some x -> exists y, m !! i = Some y /\ f y = f x) -> unique f m -> unique f m'.
Proof. intros S U i j x y (x' & Hx & Ex)%S (y' & Hy & Ey)%S Hf. apply (U i j x' y'); congruence. Qed.
Lemma unique_subseteq {A B} (f : A -> B) (m m' : gmap Z A) : m' ⊆ m -> unique f m -> unique f m'.
Proof. intros S. apply unique_sub. intros i x Hx. exists x. split; [by eapply lookup_weaken|done]. Qed.
Lemma not_taken {A} (f : Z -> A -> bool) (m : gmap Z A) : exists_row f m = false -> forall i x, m !! i = Some x -> f i x = false.
Proof. intros H i x Hx. by apply (exists_row_false _ _ _ _ H Hx). Qed.

(** What revoking leaves of a row. *)
Lemma revoke_links_Some which now a id l :
  share_links (revoke_links which now a) !! id = Some l <->
  exists l0, share_links a !! id = Some l0 /\ l = if which l0 then revoke_link now l0 else l0.
Proof. cbn. rewrite lookup_fmap_Some. naive_solver. Qed.
Lemma revoke_tokens_Some which now a id t :
  api_tokens (revoke_tokens which now a) !! id = Some t <->
  exists t0, api_tokens a !! id = Some t0 /\ t = if which t0 then revoke_token now t0 else t0.
Proof. cbn. rewrite lookup_fmap_Some. naive_solver. Qed.

(** * Powers *)

(** An administrator, or a holder of the capability. *)
Definition power (us : gmap Z user) (ps : gmap Z profile) (uid : Z) (cap : string) : Prop :=
  exists u, us !! uid = Some u /\ (u_role u = "admin" \/ exists r, ps !! uid = Some r /\ cap ∈ pr_capabilities r).
Lemma power_weaken us us' ps ps' uid cap : us ⊆ us' -> ps ⊆ ps' -> power us ps uid cap -> power us' ps' uid cap.
Proof.
  intros Hu Hp (u & Hl & H). exists u. split; [by eapply lookup_weaken|].
  destruct H as [H|(r & Hr & H)]; [by left|]. right. exists r. split; [by eapply lookup_weaken|done].
Qed.

(** What a link for everyone must carry. *)
Definition dated (l : link_row) : Prop :=
  sl_visibility l = shareVisibilityPublic ->
  exists e, sl_expires_at l = Some e /\ sl_created_at l < e <= sl_created_at l + maxShareExpirySeconds.
Record access_wf (a : access) : Prop := {
  aw_links : forall id l, share_links a !! id = Some l -> sl_revoked_at l = None ->
    power (users (dir a)) (profiles a) (sl_created_by l) CapShareLinks;
  aw_dated : forall id l, share_links a !! id = Some l -> dated l;
  aw_views : forall id v, saved_views a !! id = Some v -> sv_shared v = true ->
    power (users (dir a)) (profiles a) (sv_owner v) CapShareViews;
  aw_ids : forall id t, api_tokens a !! id = Some t -> id <= token_seq a;
  aw_hash : unique tk_hash (api_tokens a);
  aw_token : unique sl_token (share_links a);
  aw_pairs : unique pa_hash (mobile_pairings a);
  aw_names : unique (fun v => (sv_system v, sv_owner v, sv_name v)) (saved_views a);
  aw_admin : has_active_admin a = true;
}.

(** A change that takes authority away, or leaves it: no new token, link or sharing. *)
Record shrinks (a a' : access) : Prop := {
  sh_users : users (dir a') = users (dir a);
  sh_profiles : profiles a' = profiles a;
  sh_links : forall id l', share_links a' !! id = Some l' -> exists l, share_links a !! id = Some l /\
    (l' = l \/ exists t, 0 < t /\ l' = revoke_link t l);
  sh_tokens : forall id t', api_tokens a' !! id = Some t' -> exists t, api_tokens a !! id = Some t /\
    (t' = t \/ exists n, t' = revoke_token n t);
  sh_seq : token_seq a' = token_seq a;
  sh_pairs : mobile_pairings a' ⊆ mobile_pairings a;
  sh_views : forall id v', saved_views a' !! id = Some v' -> exists v, saved_views a !! id = Some v /\
    (v' = v \/ exists n, v' = unshare n v);
}.
#[export] Instance shrinks_refl : Reflexive shrinks.
Proof. intros a. split; naive_solver. Qed.
Lemma revoke_link_twice t t' l : revoke_link t (revoke_link t' l) = revoke_link t' l.
Proof. done. Qed.
Lemma revoke_token_twice t t' k : revoke_token t (revoke_token t' k) = revoke_token t' k.
Proof. done. Qed.
#[export] Instance shrinks_trans : Transitive shrinks.
Proof.
  intros a b c H1 H2. split.
  - by rewrite (sh_users _ _ H2), (sh_users _ _ H1).
  - by rewrite (sh_profiles _ _ H2), (sh_profiles _ _ H1).
  - intros id l (l1 & Hl1 & E1)%(sh_links _ _ H2). destruct (sh_links _ _ H1 _ _ Hl1) as (l2 & Hl2 & E2).
    exists l2. split; [done|]. destruct E1 as [->|(t & Ht & ->)]; [done|].
    destruct E2 as [->|(t' & Ht' & ->)]; [by right; exists t|]. rewrite revoke_link_twice. right. by exists t'.
  - intros id l (l1 & Hl1 & E1)%(sh_tokens _ _ H2). destruct (sh_tokens _ _ H1 _ _ Hl1) as (l2 & Hl2 & E2).
    exists l2. split; [done|]. destruct E1 as [->|(t & ->)]; [done|].
    destruct E2 as [->|(t' & ->)]; [by right; exists t|]. rewrite revoke_token_twice. right. by exists t'.
  - by rewrite (sh_seq _ _ H2), (sh_seq _ _ H1).
  - etrans; [apply H2|apply H1].
  - intros id l (l1 & Hl1 & E1)%(sh_views _ _ H2). destruct (sh_views _ _ H1 _ _ Hl1) as (l2 & Hl2 & E2).
    exists l2. split; [done|]. destruct E1 as [->|(t & ->)]; [done|].
    destruct E2 as [->|(t' & ->)]; [by right; exists t|]. right. by exists t.
Qed.

Lemma shrinks_wf a a' : shrinks a a' -> access_wf a -> access_wf a'.
Proof.
  intros S W. split.
  - intros id l (l0 & Hl & E)%(sh_links _ _ S) Hn. rewrite (sh_users _ _ S), (sh_profiles _ _ S).
    destruct E as [->|(t & _ & ->)]; [|done]. by eapply aw_links.
  - intros id l (l0 & Hl & E)%(sh_links _ _ S). pose proof (aw_dated _ W _ _ Hl).
    by destruct E as [->|(t & _ & ->)].
  - intros id v (v0 & Hv & E)%(sh_views _ _ S) Hs. rewrite (sh_users _ _ S), (sh_profiles _ _ S).
    destruct E as [->|(t & ->)]; [|done]. by eapply aw_views.
  - intros id t (t0 & Ht & _)%(sh_tokens _ _ S). rewrite (sh_seq _ _ S). by eapply aw_ids.
  - apply (unique_sub _ (api_tokens a)); [|apply W]. intros id t (t0 & Ht & E)%(sh_tokens _ _ S).
    exists t0. split; [done|]. by destruct E as [->|(n & ->)].
  - apply (unique_sub _ (share_links a)); [|apply W]. intros id t (t0 & Ht & E)%(sh_links _ _ S).
    exists t0. split; [done|]. by destruct E as [->|(n & _ & ->)].
  - eapply unique_subseteq; [apply (sh_pairs _ _ S)|apply W].
  - apply (unique_sub _ (saved_views a)); [|apply W]. intros id t (t0 & Ht & E)%(sh_views _ _ S).
    exists t0. split; [done|]. by destruct E as [->|(n & ->)].
  - unfold has_active_admin. rewrite (sh_users _ _ S). apply W.
Qed.

(** ** Revocations shrink *)
Lemma revoke_links_shrinks which now a : 0 < now -> shrinks a (revoke_links which now a).
Proof.
  intros Hn. split; try done; try naive_solver.
  intros id l (l0 & Hl & ->)%revoke_links_Some. exists l0. split; [done|]. destruct (which l0); [right; by exists now|by left].
Qed.
Lemma revoke_tokens_shrinks which now a : shrinks a (revoke_tokens which now a).
Proof.
  split; try done; try naive_solver.
  intros id l (l0 & Hl & ->)%revoke_tokens_Some. exists l0. split; [done|]. destruct (which l0); [right; by exists now|by left].
Qed.
Lemma with_tokens_shrinks f a : (forall m, f m ⊆ m) -> shrinks a (with_tokens f a).
Proof. intros Hf. split; try done; try naive_solver. intros id t Ht. exists t. split; [|by left]. by eapply lookup_weaken, Hf. Qed.
Lemma with_pairings_shrinks f a : (forall m, f m ⊆ m) -> shrinks a (with_pairings f a).
Proof. intros Hf. split; try done; naive_solver. Qed.
Lemma with_views_shrinks f a : (forall m, f m ⊆ m) -> shrinks a (with_views f a).
Proof. intros Hf. split; try done; try naive_solver. intros id t Ht. exists t. split; [|by left]. by eapply lookup_weaken, Hf. Qed.
Lemma with_accounts_shrinks f n a : shrinks a (with_accounts f n a).
Proof. split; try done; naive_solver. Qed.
Lemma with_members_shrinks f a : shrinks a (with_dir (with_members f) a).
Proof. split; try done; naive_solver. Qed.
Lemma drop_pairings_shrinks uid sys a : shrinks a (drop_pairings uid sys a).
Proof. apply with_pairings_shrinks. intros m. apply map_filter_subseteq. Qed.

Lemma remove_member_shrinks sys now a uid : 0 < now -> shrinks a (remove_member sys now a uid).
Proof.
  intros Hn. unfold remove_member, revoke_member.
  etrans; [|apply drop_pairings_shrinks]. etrans; [|apply revoke_tokens_shrinks].
  etrans; [|by apply revoke_links_shrinks]. etrans; [|by apply revoke_links_shrinks].
  etrans; [|apply drop_pairings_shrinks]. etrans; [|apply with_tokens_shrinks; intros m; apply map_filter_subseteq].
  apply with_members_shrinks.
Qed.
Lemma foldl_shrinks {B} (f : access -> B -> access) l a : (forall a x, shrinks a (f a x)) -> shrinks a (foldl f a l).
Proof. intros Hf. revert a. induction l as [|x l IH]; intros a; cbn; [reflexivity|]. etrans; [apply Hf|apply IH]. Qed.
Lemma put_members_shrinks sys now wanted a a' : 0 < now -> put_members sys now wanted a = Ok a' -> shrinks a a'.
Proof.
  intros Hn H. unfold put_members in H. guards_in H. injection H as <-.
  etrans; [apply with_members_shrinks|]. apply foldl_shrinks. intros. by apply remove_member_shrinks.
Qed.
Lemma revoke_hook_shrinks now uid a cap : 0 < now -> shrinks a (revoke_hook now uid a cap).
Proof.
  intros Hn. unfold revoke_hook. repeat case_bool_decide; [apply with_accounts_shrinks|by apply revoke_links_shrinks| |reflexivity].
  split; try done; try naive_solver. intros id v Hv. cbn in Hv. rewrite lookup_fmap_Some in Hv. destruct Hv as (v0 & <- & Hv).
  exists v0. split; [done|]. destruct (_ && _); [right; by exists now|by left].
Qed.

(** * An instance to evaluate on *)

(** Two systems; an administrator, and Ann, who is in both, with a phone and a link into the
    second one. *)
Definition a_system (c n : string) : jd_system := JdSystem c n "jd" None None None None None 0 0.
Definition a_token : string := "0123456789abcdef0123456789abcdef0123456789abcdef0123456789abcdef".
Definition a_link : link_row := Link 2 a_token [10] 2 (Some 1000) (Some "pbkdf") "Lease" "public" 10 None.
Definition a_file : file_row := File 2 2 false "Lease" (Some "application/pdf") 5 "blob" None.
Definition access0 : access :=
  Access (Directory {[1 := User "root@x" "admin" false; 2 := User "ann@x" "member" false]}
            {[1 := a_system "H01" "Home"; 2 := a_system "H02" "Office"]} {[(1, 2); (2, 2)]})
    {[1 := Profile "Root" []; 2 := Profile "Ann" ["share_links"]]} ∅
    {[5 := TokenRow 2 2 "phone" "h5" "documents:read,documents:write" 10 None ""]} 5 ∅
    {[7 := a_link]} {[3 := View 1 2 "Mine" "{}" "table" 0 false 10 10]} ∅ 0 {[10 := a_file]}.
Definition a_root : Principal := MkPrincipal "user" 1 0 0 "" "root@x" "Root" "admin" [] "" "" 0.
Definition an_ann : Principal := MkPrincipal "user" 2 0 0 "" "ann@x" "Ann" "member" [] "" "" 0.
Definition ok_or {A} (d : A) (r : result access_error A) : A := match r with Ok x => x | Err _ => d end.
(** Ann leaves the second system, and is let in again. *)
Definition access1 : access := ok_or access0 (PutSystemMembers 100 access0 access0 (Some a_root) "H02" (Some [1])).
Definition access2 : access := ok_or access1 (PutSystemMembers 200 access1 access1 (Some a_root) "H02" (Some [1; 2])).

Lemma unique_singleton {A B} (f : A -> B) i x : unique f {[i := x]}.
Proof. intros j k y z [<- <-]%lookup_singleton_Some [<- <-]%lookup_singleton_Some _. done. Qed.
Lemma access0_wf : access_wf access0.
Proof.
  split; try apply unique_singleton; unfold access0; cbn [share_links saved_views api_tokens mobile_pairings dir profiles users token_seq].
  - intros id l [<- <-]%lookup_singleton_Some _. exists (User "ann@x" "member" false). split; [done|]. right.
    exists (Profile "Ann" ["share_links"]). split; [done|]. left.
  - intros id l [<- <-]%lookup_singleton_Some _. exists 1000. split; [done|]. vm_compute. split; done.
  - by intros id v [<- <-]%lookup_singleton_Some.
  - intros id t [<- <-]%lookup_singleton_Some. done.
  - by intros i j x y Hx.
  - by vm_compute.
Qed.
