(* ===== verification/AccessSteps.v ===== *)
(** Every request on the tables of [Access], one after the other: what a successful
    request leaves of them, the steps of an instance, the invariant that a power handed out
    is still held, and what stays revoked. *)
From S2P Require Import Prelude GoStd Utf8 Sqlite Systems Authz AuthzFacts Principal Mailbox Access MailboxStore Hex ShareLinks AccessFacts.

Lemma on_error_Ok {A} f (r : result access_error A) x : on_error f r = Ok x <-> r = Ok x.
Proof. destruct r; cbn; split; congruence. Qed.

(** * Requests that only take authority away *)

Lemma PutSystemMembers_Ok now read a p c ids a' :
  PutSystemMembers now read a p c ids = Ok a' ->
  exists q system wanted, managedSystem read p c = Ok (q, system) /\ ids = Some wanted /\ ids_ok ∅ wanted = true /\
    put_members (ID system) now wanted a = Ok a'.
Proof.
  unfold PutSystemMembers. intros H. inv_ok H. destruct a0 as [q system]. destruct ids as [wanted|]; [|done].
  guards_in H. apply on_error_Ok in H. inv_ok H. guards_in H. by exists q, system, wanted.
Qed.
Lemma DeleteToken_Ok read a query p id a' : DeleteToken read a query p id = Ok a' -> a' = with_tokens (delete id) a.
Proof. unfold DeleteToken. intros H. inv_ok H. guards_in H. inv_ok H. apply on_error_Ok in H. inv_ok H. guards_in H. by injection H as <-. Qed.
Lemma DeleteMobilePairing_shrinks demo read a query p c h a' : DeleteMobilePairing demo read a query p c h = Ok a' -> shrinks a a'.
Proof.
  unfold DeleteMobilePairing. intros H. inv_ok H. guards_in H. apply on_error_Ok in H. inv_ok H. injection H as <-.
  apply with_pairings_shrinks. intros m. apply map_filter_subseteq.
Qed.
Lemma DeleteSavedView_shrinks read a query p id a' : DeleteSavedView read a query p id = Ok a' -> shrinks a a'.
Proof.
  unfold DeleteSavedView. destruct p as [q|]; [|done]. intros H. inv_ok H. apply on_error_Ok in H. inv_ok H. guards_in H.
  injection H as <-. apply with_views_shrinks. intros m. apply delete_subseteq.
Qed.
Lemma RevokeShareLink_Ok now read a query p id a' : RevokeShareLink now read a query p id = Ok a' ->
  exists q l, p = Some q /\ share_links a !! id = Some l /\ sl_created_by l = p_UserID q /\
    share_links a' !! id = Some (revoke_link now l) /\
    (a' = a \/ a' = with_links <[id := revoke_link now l]> a).
Proof.
  unfold RevokeShareLink. intros H. inv_ok H. apply on_error_Ok in H. inv_ok H.
  destruct (share_links a !! id) as [l|] eqn:El; [|done]. guards_in H. bool_simpl.
  assert (Hp : p = Some a0). { unfold requireScope in Ha. destruct (RequireScope _ _), p; simplify_eq; done. }
  exists a0, l. split_and!; try done.
  - case_bool_decide as Hn; injection H as <-; [by cbn; rewrite lookup_insert_eq|].
    rewrite El. f_equal. destruct l as [? ? ? ? ? ? ? ? ? []]; [done|]. by destruct Hn.
  - case_bool_decide; injection H as <-; [by right|by left].
Qed.
Lemma RevokeShareLink_shrinks now read a query p id a' : 0 < now -> RevokeShareLink now read a query p id = Ok a' -> shrinks a a'.
Proof.
  intros Hn (q & l & -> & Hl & _ & _ & [->| ->])%RevokeShareLink_Ok; [reflexivity|].
  split; try done; try naive_solver. intros i l'. cbn. intros [[<- <-]|[_ H]]%lookup_insert_Some.
  - exists l. split; [done|]. right. by exists now.
  - exists l'. by split; [|left].
Qed.
Lemma Logout_shrinks now cookie p a : shrinks a (Logout now cookie p a).
Proof.
  unfold Logout. set (a1 := match cookie with Some _ => _ | None => a end).
  assert (H1 : shrinks a a1). { unfold a1. destruct cookie; [case_bool_decide|]; try reflexivity. split; try done; naive_solver. }
  destruct p as [q|]; [|done]. destruct (p_TokenID q =? 0); [done|]. etrans; [exact H1|].
  split; try done; try naive_solver. intros i t'. cbn. rewrite lookup_alter_Some.
  intros [(<- & t & Ht & ->)|[_ Ht]]; [|by exists t'; split; [|left]].
  exists t. split; [done|]. case_bool_decide; [right; by exists now|by left].
Qed.

(** * Requests that hand authority out *)

(** One new token, of the highest id ever. *)
Definition add_token (t : token_row) (a : access) : access :=
  with_token_seq (token_seq a + 1) (with_tokens <[token_seq a + 1 := t]> a).
Lemma IssueAPIToken_Ok now u sys n s src h a a' : IssueAPIToken now u sys n s src h a = Ok a' ->
  CanEnter (dir a) u sys = true /\ (forall i t, api_tokens a !! i = Some t -> tk_hash t <> h) /\
  a' = add_token (TokenRow sys u n h s now None src) a.
Proof.
  unfold IssueAPIToken. intros H. guards_in H. injection H as <-. split_and!; [done| |done].
  intros i t Ht. by apply (not_taken _ _ Hc0), bool_decide_eq_false in Ht.
Qed.
Lemma add_token_wf t a : (forall i t', api_tokens a !! i = Some t' -> tk_hash t' <> tk_hash t) -> access_wf a -> access_wf (add_token t a).
Proof.
  intros Hh [W1 W2 W3 W4 W5 W6 W7 W8 W9]. split; try done; cbn.
  - intros i t' [[<- <-]|[_ H]]%lookup_insert_Some; [lia|]. specialize (W4 _ _ H). lia.
  - apply unique_put; [done|]. intros j y Hj _. by eapply Hh.
Qed.
Lemma CreateToken_Ok now read a query p n s h a' : CreateToken now read a query p n s h = Ok a' ->
  exists q systemID current l, p = Some q /\ p_Kind q = "user" /\ requireLiveSession a now q = Ok tt /\
    scope_list [] (Split (or_else default_scopes (TrimSpace s)) ","%char) = Ok l /\
    currentWriterPrincipal a systemID p systemID = Ok current /\
    IssueAPIToken now (p_UserID q) systemID (or_else "device" (TrimSpace n)) (Join l ",") "" h a = Ok a'.
Proof.
  unfold CreateToken. intros H. inv_ok H. guards_in H. inv_ok H. apply on_error_Ok in H. inv_ok H. destruct a3.
  assert (Hp : p = Some a0 /\ p_Kind a0 = "user").
  { unfold requireSession in Ha. destruct p; [|done]. guards_in Ha. simplify_eq. by bool_simpl. }
  destruct Hp as [-> Hk]. by exists a0, a1, a4, a2.
Qed.

Lemma CreateMobilePairing_Ok now demo o read a query p n h a' : CreateMobilePairing now demo o read a query p n h = Ok a' ->
  exists q r, p = Some q /\ pa_hash r = h /\ pa_expires_at r = now + 300 /\
    let b := with_pairings (filter (fun x => ~ (pa_expires_at x.2 <= now \/ x.1 = p_UserID q))) a in
    (forall i r', mobile_pairings b !! i = Some r' -> pa_hash r' <> h) /\ a' = with_pairings <[p_UserID q := r]> b.
Proof.
  unfold CreateMobilePairing. intros H. inv_ok H. guards_in H. apply on_error_Ok in H. inv_ok H. guards_in H.
  assert (Hp : p = Some a0) by (unfold mobilePairingSession in Ha; destruct p; guards_in Ha; congruence).
  eexists a0, _. split_and!; [done| | | |by injection H as <-]; [done..|].
  intros i r' Hr. by apply (not_taken _ _ Hc1), bool_decide_eq_false in Hr.
Qed.
Lemma CreateMobilePairing_wf now demo o read a query p n h a' :
  CreateMobilePairing now demo o read a query p n h = Ok a' -> access_wf a -> access_wf a'.
Proof.
  intros (q & r & -> & Hh & _ & Hf & ->)%CreateMobilePairing_Ok W. set (b := with_pairings _ a) in *.
  assert (Wb : access_wf b) by (eapply shrinks_wf; [|exact W]; apply with_pairings_shrinks; intros m; apply map_filter_subseteq).
  destruct Wb as [W1 W2 W3 W4 W5 W6 W7 W8 W9]. split; try done. cbn. apply unique_put; [done|].
  intros j y Hj _. rewrite Hh. by eapply Hf.
Qed.
Lemma ExchangeMobilePairing_Ok now demo a code device h th a' : ExchangeMobilePairing now demo a code device h th = Ok a' ->
  exists u r n, take_pairing now h a = Some (u, r) /\
    IssueAPIToken now u (pa_system r) n mobilePairingScopes "mobile_pairing" th (with_pairings (delete u) a) = Ok a'.
Proof.
  unfold ExchangeMobilePairing. intros H. guards_in H. apply on_error_Ok in H. by eauto.
Qed.
Lemma ExchangeMobilePairing_wf now demo a code device h th a' :
  ExchangeMobilePairing now demo a code device h th = Ok a' -> access_wf a -> access_wf a'.
Proof.
  intros (u & r & n & _ & (_ & Hf & ->)%IssueAPIToken_Ok)%ExchangeMobilePairing_Ok W. apply add_token_wf; [done|].
  eapply shrinks_wf; [|exact W]. apply with_pairings_shrinks. intros m. apply delete_subseteq.
Qed.

(** ** The actor of a write *)
Lemma active_role_Some a uid role : active_role a uid = Some role <->
  exists u, users (dir a) !! uid = Some u /\ u_disabled u = false /\ u_role u = role.
Proof.
  unfold active_role. split.
  - destruct (users (dir a) !! uid) as [u|]; [|done]. destruct (u_disabled u) eqn:E; [done|]. intros [= <-]. by exists u.
  - by intros (u & -> & -> & ->).
Qed.
Lemma live_token_Some a id uid t : live_token a id uid = Some t <->
  api_tokens a !! id = Some t /\ tk_user t = uid /\ tk_revoked_at t = None.
Proof.
  unfold live_token. split.
  - destruct (api_tokens a !! id) as [t'|]; [|done]. destruct (_ && _) eqn:E; [|done]. intros [= ->]. by bool_simpl.
  - intros (-> & <- & Hn). by rewrite Hn, Z.eqb_refl, bool_decide_eq_true_2.
Qed.
(** A writer is the user of the request, as the tables have the user now: active, with the
    current role, and on the token's own scopes and system. *)
Lemma currentWriterPrincipal_Ok a selected p systemID cur : currentWriterPrincipal a selected p systemID = Ok cur ->
  exists q, p = Some q /\ p_UserID cur = p_UserID q /\ active_role a (p_UserID q) = Some (p_Role cur) /\
    HasScope (Some cur) ScopeDocumentsWrite = true /\ canEnterSystem a selected (Some cur) systemID = Ok true /\
    (p_TokenID q = 0 \/ exists t, api_tokens a !! p_TokenID q = Some t /\ tk_user t = p_UserID q /\ tk_revoked_at t = None /\
       tk_system t = tokenSystemID p /\ p_TokenSystemID cur = tk_system t /\ p_Scopes cur = Split (tk_scopes t) ","%char).
Proof.
  unfold currentWriterPrincipal. destruct p as [q|]; [|done]. destruct (active_role _ _) as [role|] eqn:Er; [|done].
  intros H. inv_ok H. guards_in H. inv_ok H. destruct a1; [|done]. injection H as <-. exists q.
  unfold current_token in Ha. destruct (p_TokenID q =? 0) eqn:E0.
  - injection Ha as <-. cbn in *. split_and!; try done. left. lia.
  - destruct (live_token _ _ _) as [t|] eqn:Et; [|done]. apply live_token_Some in Et as (Ht & Hu & Hr).
    guards_in Ha. injection Ha as <-. cbn in *. split_and!; try done. right. exists t. split_and!; try done. by bool_simpl.
Qed.
Lemma requireCapability_power a cur cap uid : capable a cur cap = Ok tt -> p_UserID cur = uid -> active_role a uid = Some (p_Role cur) ->
  power (users (dir a)) (profiles a) uid cap.
Proof.
  unfold capable. intros H Hid (u & Hu & _ & Hr)%active_role_Some. exists u. split; [done|]. rewrite Hr, Hid in *.
  case_bool_decide; [by left|]. inv_ok H. guards_in H. unfold loadUserCapabilities in Ha.
  destruct (profiles a !! uid) as [r|] eqn:Er; [|done]. injection Ha as <-. right. exists r. split; [done|].
  unfold Has in Hc. by apply bool_decide_eq_true, elem_of_list_to_set in Hc.
Qed.

(** ** Saved views *)
Definition put_view (id : Z) (v : view_row) (a : access) : access := with_views <[id := v]> a.
Definition view_key (v : view_row) : Z * Z * string := (sv_system v, sv_owner v, sv_name v).
Lemma view_taken_false a o s u n : view_taken a o s u n = false ->
  forall i v, saved_views a !! i = Some v -> Some i <> o -> view_key v <> (s, u, n).
Proof.
  intros H i v Hv Ho. apply (not_taken _ _ H) in Hv. unfold view_key. intros [= <- <- <-].
  by rewrite !Z.eqb_refl, bool_decide_eq_false_2, bool_decide_eq_true_2 in Hv by done.
Qed.
Lemma put_view_wf id v a : (sv_shared v = true -> power (users (dir a)) (profiles a) (sv_owner v) CapShareViews) ->
  (forall i w, saved_views a !! i = Some w -> i <> id -> view_key w <> view_key v) -> access_wf a -> access_wf (put_view id v a).
Proof.
  intros Hp Hn [W1 W2 W3 W4 W5 W6 W7 W8 W9]. split; try done; cbn.
  - intros i w [[<- <-]|[_ H]]%lookup_insert_Some; [done|]. by eapply W3.
  - apply unique_put; [done|]. intros i w Hw Hi. by eapply Hn.
Qed.
Section Views.
Context (normalize_filter : string -> result access_error string).
Lemma CreateSavedView_rows now read a query p b id a' :
  CreateSavedView normalize_filter now read a query p b = Ok (id, a') -> exists v, a' = put_view id v a.
Proof.
  unfold CreateSavedView. destruct p as [q|]; [|done]. intros H. inv_ok H. guards_in H. inv_ok H. guards_in H. inv_ok H.
  apply on_error_Ok in H. inv_ok H. guards_in H. injection H as <- <-. by eexists.
Qed.
Lemma UpdateSavedView_rows now read a query p id b a' :
  UpdateSavedView normalize_filter now read a query p id b = Ok a' -> exists v, a' = put_view id v a.
Proof.
  unfold UpdateSavedView. destruct p as [q|]; [|done]. intros H. inv_ok H. guards_in H. inv_ok H. guards_in H.
  apply on_error_Ok in H. inv_ok H. destruct (saved_views a !! id); [|done]. guards_in H. injection H as <-. by eexists.
Qed.
Lemma CreateSavedView_wf now read a query p b id a' :
  CreateSavedView normalize_filter now read a query p b = Ok (id, a') -> access_wf a -> access_wf a'.
Proof.
  unfold CreateSavedView. destruct p as [q|]; [|done]. intros H. inv_ok H. guards_in H. inv_ok H. guards_in H. inv_ok H.
  apply on_error_Ok in H. inv_ok H. guards_in H. injection H as <- <-. intros W. destruct a5.
  apply currentWriterPrincipal_Ok in Ha3 as (q' & [= <-] & Hid & Hr & _).
  apply put_view_wf; [|by intros; eapply view_taken_false|done]. cbn. intros Hs. destruct (vu_Shared b) as [[]|]; try done.
  eapply requireCapability_power; [exact Ha4|exact Hid|exact Hr].
Qed.
Lemma UpdateSavedView_wf now read a query p id b a' :
  UpdateSavedView normalize_filter now read a query p id b = Ok a' -> access_wf a -> access_wf a'.
Proof.
  unfold UpdateSavedView. destruct p as [q|]; [|done]. intros H. inv_ok H. guards_in H. inv_ok H. guards_in H.
  apply on_error_Ok in H. inv_ok H. destruct (saved_views a !! id) as [v|] eqn:Ev; [|done]. guards_in H. injection H as <-.
  intros W. destruct a5. apply currentWriterPrincipal_Ok in Ha3 as (q' & [= <-] & Hid & Hr & _). bool_simpl.
  apply put_view_wf; [| |done].
  - cbn. intros Hs. destruct (vu_Shared b) as [[]|] eqn:Eb; try done; [|by eapply aw_views]. replace (sv_owner v) with (p_UserID q).
    eapply requireCapability_power; [exact Ha4|exact Hid|exact Hr].
  - intros i w Hw Hi. eapply view_taken_false; [done..|congruence].
Qed.
End Views.

(** ** Share links *)
Lemma insert_link_Ok l a id a' : insert_link l a = Ok (id, a') ->
  (forall i r, share_links a !! i = Some r -> sl_token r <> sl_token l) /\
  id = next_rowid (share_links a) /\ a' = with_links <[id := l]> a.
Proof.
  unfold insert_link. intros H. guards_in H. injection H as <- <-. split_and!; try done.
  intros i r Hr. by apply (not_taken _ _ Hc0), bool_decide_eq_false in Hr.
Qed.
Lemma requireCapability_actor a p cap q : requireCapability a p cap = Ok q -> p = Some q.
Proof. unfold requireCapability. destruct p; [|done]. intros Hq. case_bool_decide; [congruence|]. inv_ok Hq. guards_in Hq. congruence. Qed.
(** What a created link is, and what the transaction has checked. *)
Lemma CreateShareLink_Ok hasher url now read a query p b token id a' :
  CreateShareLink hasher url now read a query p b token = Ok (id, a') ->
  exists q systemID cur l, p = Some q /\ currentWriterPrincipal a systemID p systemID = Ok cur /\
    capable a cur CapShareLinks = Ok tt /\ assertShareable a cur systemID (sc_DocIDs b) = Ok tt /\
    sl_system l = systemID /\ sl_created_by l = p_UserID q /\ sl_docs l = sc_DocIDs b /\ sl_token l = token /\ sl_revoked_at l = None /\
    (sl_password l = None <-> sc_Password b = "") /\ dated l /\ insert_link l a = Ok (id, a').
Proof.
  unfold CreateShareLink. intros H. inv_ok H. apply on_error_Ok in H. inv_ok H.
  assert (Hp := requireCapability_actor _ _ _ _ Ha0).
  eexists a1, a2, a6, _. split_and!; last exact H; try by destruct a7, a8.
  - cbn. case_bool_decide as E; [by injection Ha4 as <-|]. split; [|done]. destruct (hasher _); [|done]. by injection Ha4 as <-.
  - intros Hv. cbn in Hv |- *. unfold create_checks in Ha2. guards_in Ha2; bool_simpl; [|done].
    exists (now + sc_ExpiresIn b). destruct (0 <? _) eqn:E; bool_simpl; [|lia]. split; [done|]. lia.
Qed.
Lemma insert_link_wf l a id a' : insert_link l a = Ok (id, a') -> power (users (dir a)) (profiles a) (sl_created_by l) CapShareLinks ->
  dated l -> access_wf a -> access_wf a'.
Proof.
  intros (Hf & -> & ->)%insert_link_Ok Hp Hd [W1 W2 W3 W4 W5 W6 W7 W8 W9]. split; try done; cbn.
  - intros i w [[<- <-]|[_ H]]%lookup_insert_Some; [done|]. by eapply W1.
  - intros i w [[<- <-]|[_ H]]%lookup_insert_Some; [done|]. by eapply W2.
  - apply unique_put; [done|]. intros i w Hw _. by eapply Hf.
Qed.
Lemma CreateShareLink_wf hasher url now read a query p b token id a' :
  CreateShareLink hasher url now read a query p b token = Ok (id, a') -> access_wf a -> access_wf a'.
Proof.
  intros (q & sys & cur & l & -> & Hw & Hc & _ & _ & Hu & _ & _ & _ & _ & Hd & Hi)%CreateShareLink_Ok.
  apply (insert_link_wf _ _ _ _ Hi); [|done]. rewrite Hu.
  apply currentWriterPrincipal_Ok in Hw as (q' & [= <-] & Hid & Hr & _). by eapply requireCapability_power.
Qed.

(** * Administration of an account *)

(** The hooks of the capabilities lost: afterwards the user has nothing left of them. *)
Definition no_links (uid : Z) (a : access) : Prop :=
  forall id l, share_links a !! id = Some l -> sl_created_by l = uid -> sl_revoked_at l <> None.
Definition no_shared_views (uid : Z) (a : access) : Prop :=
  forall id v, saved_views a !! id = Some v -> sv_owner v = uid -> sv_shared v = false.
Definition no_mailboxes (uid : Z) (a : access) : Prop :=
  forall id m, email_accounts a !! id = Some m -> ma_OwnerID m = uid -> ma_Enabled m = false.
Definition nothing_of (uid : Z) (cap : string) (a : access) : Prop :=
  (cap = CapShareLinks -> no_links uid a) /\ (cap = CapShareViews -> no_shared_views uid a) /\ (cap = CapMailboxes -> no_mailboxes uid a).
Lemma no_links_shrinks uid a a' : shrinks a a' -> no_links uid a -> no_links uid a'.
Proof.
  intros S Q id l (l0 & Hl & E)%(sh_links _ _ S) Hu. destruct E as [->|(t & _ & ->)]; [by eapply Q|done].
Qed.
Lemma no_shared_views_shrinks uid a a' : shrinks a a' -> no_shared_views uid a -> no_shared_views uid a'.
Proof.
  intros S Q id l (l0 & Hl & E)%(sh_views _ _ S) Hu. destruct E as [->|(t & ->)]; [by eapply Q|done].
Qed.
Lemma revoke_hook_mailboxes now uid a c : no_mailboxes uid a -> no_mailboxes uid (revoke_hook now uid a c).
Proof.
  intros Q. unfold revoke_hook. repeat case_bool_decide; try done. intros id m. cbn. rewrite lookup_fmap_Some. intros (m0 & <- & Hm).
  specialize (Q _ _ Hm). destruct ((ma_OwnerID m0 =? uid) && ma_Enabled m0) eqn:E; [by destruct m0|done].
Qed.
Lemma revoke_hook_done now uid a c : 0 < now -> nothing_of uid c (revoke_hook now uid a c).
Proof.
  intros Hn. split_and!; intros ->; unfold revoke_hook; repeat case_bool_decide; try discriminate; try done.
  - intros id l. cbn. rewrite lookup_fmap_Some. intros (l0 & <- & Hl) Hu.
    destruct (_ && _) eqn:E; [done|]. apply andb_false_iff in E as [E|E]; [lia|]. by apply bool_decide_eq_false in E.
  - intros id v. cbn. rewrite lookup_fmap_Some. intros (v0 & <- & Hv) Hu. destruct ((sv_owner v0 =? uid) && sv_shared v0) eqn:E; [done|].
    apply andb_false_iff in E as [E|E]; [lia|done].
  - intros id m. cbn. rewrite lookup_fmap_Some. intros (m0 & <- & Hm) Hu.
    destruct ((ma_OwnerID m0 =? uid) && ma_Enabled m0) eqn:E; [by destruct m0|]. apply andb_false_iff in E as [E|E]; [lia|done].
Qed.
Lemma revoke_hooks_done now uid l a c : 0 < now -> c ∈ l -> nothing_of uid c (foldl (revoke_hook now uid) a l).
Proof.
  intros Hn. revert a. induction l as [|x l IH]; intros a; [by intros ?%not_elem_of_nil|].
  intros [<-|Hc]%elem_of_cons; [|by apply IH]. cbn [foldl]. destruct (revoke_hook_done now uid a c Hn) as (H1 & H2 & H3).
  set (a1 := revoke_hook now uid a c) in *.
  assert (S : shrinks a1 (foldl (revoke_hook now uid) a1 l)) by (apply foldl_shrinks; intros; by apply revoke_hook_shrinks).
  split_and!; intros E.
  - eapply no_links_shrinks; eauto.
  - eapply no_shared_views_shrinks; eauto.
  - specialize (H3 E). clear -H3. clearbody a1. revert a1 H3. induction l as [|y l IH]; intros a1 H3; [done|].
    cbn. by apply IH, revoke_hook_mailboxes.
Qed.

Lemma revoke_hooks_shrinks now uid l a : 0 < now ->
  shrinks a (foldl (revoke_hook now uid) a l) /\ forall c, c ∈ l -> nothing_of uid c (foldl (revoke_hook now uid) a l).
Proof. intros Hn. split; [apply foldl_shrinks; intros; by apply revoke_hook_shrinks|]. intros c. by apply revoke_hooks_done. Qed.

(** Whether an account has a capability. *)
Definition held (u : user) (r : profile) (cap : string) : Prop := u_role u = "admin" \/ cap ∈ pr_capabilities r.
Lemma held_dec u r cap : {held u r cap} + {~ held u r cap}.
Proof. unfold held. apply (decide (u_role u = "admin" \/ cap ∈ pr_capabilities r)). Qed.
Lemma effective_held role caps cap : effective role caps cap = true <-> role = "admin" \/ cap ∈ caps.
Proof. unfold effective, Has. by rewrite orb_true_iff, !bool_decide_eq_true. Qed.
Lemma removed_caps_spec role role' (prior next : cap_set) cap : cap ∈ KnownCapabilities -> (role' = "admin" -> next = ∅) ->
  cap ∈ removed_caps role role' prior next <->
  effective role prior cap = true /\ effective role' next cap = false.
Proof.
  intros Hk Ha. unfold removed_caps. destruct (negb _ && negb _) eqn:E.
  - bool_simpl. rewrite Diff_sets. cbn [snd]. rewrite elem_of_elements, elem_of_difference. unfold effective, Has.
    by rewrite (bool_decide_eq_false_2 (role = _)), (bool_decide_eq_false_2 (role' = _)), !orb_false_l, bool_decide_eq_true, bool_decide_eq_false.
  - rewrite list_elem_of_filter, andb_true_iff, negb_true_iff. tauto.
Qed.
Lemma has_active_admin_Some a : has_active_admin a = true <-> exists i u, users (dir a) !! i = Some u /\ u_role u = "admin" /\ u_disabled u = false.
Proof.
  unfold has_active_admin. rewrite exists_row_spec. split; intros (i & u & Hu & H); exists i, u.
  - by bool_simpl.
  - destruct H as [-> ->]. by rewrite bool_decide_eq_true_2.
Qed.
Lemma next_caps_sub role role' prior : next_caps role role' prior None ⊆ prior.
Proof. unfold next_caps, cap_set in *. destruct (_ || _); set_solver. Qed.
Definition set_account (uid : Z) (role : option string) (u u' : user) (r' : profile) (a : access) : access :=
  with_profiles <[uid := r']> (with_dir (fun d => demote uid role u (with_users <[uid := u']> d)) a).
Lemma set_account_users uid role u u' r' a : users (dir (set_account uid role u u' r' a)) = <[uid := u']> (users (dir a)).
Proof. cbn. unfold demote. by destruct (_ && _). Qed.

(** The capabilities after a patch: those it ends are the ones held before and not after. *)
Lemma patch_caps (role0 : string) (role : option string) (raw : list string) (requested : option cap_set) :
  let nextRole := default role0 role in
  let next := next_caps role0 nextRole (list_to_set raw) requested in
  let touched := bool_decide (is_Some requested) || bool_decide (is_Some role) in
  let caps := if touched || bool_decide (role0 = "admin") then Slice next else raw in
  (forall cap, cap ∈ KnownCapabilities ->
     cap ∈ (if touched then removed_caps role0 nextRole (list_to_set raw) next else []) <->
     (role0 = "admin" \/ cap ∈ raw) /\ ~ (nextRole = "admin" \/ cap ∈ caps)) /\
  (nextRole = "admin" -> role0 <> "admin" -> caps = []) /\
  (requested = None -> forall cap, cap ∈ caps -> cap ∈ raw).
Proof.
  intros nextRole next touched caps. assert (Hpr : forall c, c ∈ (list_to_set raw : cap_set) <-> c ∈ raw) by (intros c; apply (elem_of_list_to_set (C := gset string))).
  assert (Hx : nextRole = "admin" -> next = ∅) by (unfold next, next_caps; intros ->; by rewrite bool_decide_eq_true_2).
  assert (Hq : requested = None -> forall c, c ∈ next -> c ∈ raw) by (unfold next; intros -> c Hc%next_caps_sub; by apply Hpr).
  assert (Hsame : touched = false -> nextRole = role0 /\ requested = None).
  { unfold touched, nextRole. intros [H1 H2]%orb_false_iff. destruct role; [discriminate H2|]. by destruct requested; [discriminate H1|]. }
  unfold caps. clearbody touched. clear caps. split_and!.
  - intros cap Hk. destruct touched.
    + rewrite removed_caps_spec by done. rewrite effective_held, <- not_true_iff_false, effective_held, Hpr, orb_true_l, Slice_in. done.
    + destruct (Hsame eq_refl) as [-> Hr]. rewrite orb_false_l. split; [by intros ?%not_elem_of_nil|]. intros [[H|H] Hn]; destruct Hn; [by left|].
      case_bool_decide; [by left|by right].
  - intros Ha Hna. destruct touched; [by rewrite Hx|]. destruct (Hsame eq_refl) as [E _]. congruence.
  - intros Hr cap. destruct (touched || _); [|done]. rewrite Slice_in. by apply Hq.
Qed.
Lemma PatchUser_Ok now a p uid b a' : PatchUser now a p uid b = Ok a' ->
  exists q role u u' r r' removed, p = Some q /\ active_role a (p_UserID q) = Some "admin" /\
    users (dir a) !! uid = Some u /\ profiles a !! uid = Some r /\
    let a1 := set_account uid role u u' r' a in
    a' = foldl (revoke_hook now uid) a1 removed /\ (has_active_admin a = true -> has_active_admin a1 = true) /\
    role = TrimSpace <$> up_Role b /\ u_role u' = default (u_role u) role /\ u_disabled u' = default (u_disabled u) (up_Disabled b) /\
    (forall cap, cap ∈ KnownCapabilities -> cap ∈ removed <-> held u r cap /\ ~ held u' r' cap) /\
    (u_role u' = "admin" -> u_role u <> "admin" -> pr_capabilities r' = []) /\
    (up_Capabilities b = None -> forall cap, cap ∈ pr_capabilities r' -> cap ∈ pr_capabilities r).
Proof.
  unfold PatchUser. intros H. inv_ok H. destruct a1 as [[name role] requested]. apply on_error_Ok in H.
  assert (Hp : p = Some a0) by (unfold requireAdmin in Ha; destruct p; guards_in Ha; congruence).
  unfold patch_user_tx in H. inv_ok H. unfold requireActiveAdmin in Ha1. destruct (bool_decide _) eqn:Hr; [|done].
  apply bool_decide_eq_true in Hr. destruct (users (dir a) !! uid) as [u|] eqn:Eu; [|done].
  destruct (profiles a !! uid) as [r|] eqn:Er; [|done]. cbv zeta in H.
  destruct (patch_caps (u_role u) role (pr_capabilities r) requested) as (Hrem & Hadm & Hnone).
  set (touched := bool_decide (is_Some requested) || bool_decide (is_Some role)) in *. set (removed := removed_caps _ _ _ _) in *. set (r' := Profile _ _) in *.
  change (with_profiles _ _) with (set_account uid role u (patch_user role (up_Disabled b) u) r' a) in H.
  set (u' := patch_user _ _ u) in *. set (a2 := set_account uid role u u' r' a) in *.
  destruct (_ && negb (has_active_admin a2)) eqn:Had; [done|]. injection H as H.
  exists a0, role, u, u', r, r', (if touched then removed else []).
  split_and!; try done.
  - rewrite <- H. by destruct touched.
  - intros W. change (has_active_admin a2 = true). destruct (has_active_admin a2) eqn:E; [done|]. rewrite andb_true_r in Had.
    apply orb_false_iff in Had as [Hr' Hd']. rewrite <- E, <- W. unfold has_active_admin, a2. rewrite set_account_users, insert_id; [done|].
    rewrite Eu. f_equal. unfold u', patch_user. destruct role; [discriminate Hr'|]. destruct (up_Disabled b); [discriminate Hd'|]. by destruct u.
  - unfold patch_checks in Ha0. guards_in Ha0; congruence.
  - intros Hb. apply Hnone. unfold patch_checks in Ha0. rewrite Hb in Ha0. guards_in Ha0. congruence.
Qed.

Lemma power_held us ps uid u r cap : us !! uid = Some u -> ps !! uid = Some r -> power us ps uid cap <-> held u r cap.
Proof.
  intros Hu Hr. split.
  - intros (u0 & Hu0 & [H|(r0 & Hr0 & H)]); [left|right]; congruence.
  - intros [H|H]; exists u; (split; [done|]); [by left|]. right. by exists r.
Qed.
(** The same rows under other accounts. *)
Definition on_accounts (a b : access) : access :=
  Access (dir a) (profiles a) (sessions b) (api_tokens b) (token_seq b) (mobile_pairings b) (share_links b) (saved_views b)
    (email_accounts b) (account_seq b) (files b).
Lemma on_accounts_wf a b :
  (forall id l, share_links b !! id = Some l -> sl_revoked_at l = None ->
     power (users (dir a)) (profiles a) (sl_created_by l) CapShareLinks -> power (users (dir b)) (profiles b) (sl_created_by l) CapShareLinks) ->
  (forall id v, saved_views b !! id = Some v -> sv_shared v = true ->
     power (users (dir a)) (profiles a) (sv_owner v) CapShareViews -> power (users (dir b)) (profiles b) (sv_owner v) CapShareViews) ->
  has_active_admin b = true -> access_wf (on_accounts a b) -> access_wf b.
Proof. intros H1 H2 H3 [W1 W2 W3 W4 W5 W6 W7 W8 W9]. split; naive_solver. Qed.
Lemma shrinks_on_accounts a a1 a' : shrinks a1 a' -> share_links a1 = share_links a -> api_tokens a1 = api_tokens a ->
  token_seq a1 = token_seq a -> mobile_pairings a1 = mobile_pairings a -> saved_views a1 = saved_views a ->
  shrinks a (on_accounts a a').
Proof.
  intros S H1 H2 H3 H4 H5. split; try done; cbn.
  - intros id l Hl. rewrite <- H1. by apply (sh_links _ _ S).
  - intros id l Hl. rewrite <- H2. by apply (sh_tokens _ _ S).
  - rewrite <- H3. apply S.
  - rewrite <- H4. apply S.
  - intros id l Hl. rewrite <- H5. by apply (sh_views _ _ S).
Qed.
Lemma PatchUser_wf now a p uid b a' : 0 < now -> PatchUser now a p uid b = Ok a' -> access_wf a -> access_wf a'.
Proof.
  intros Hn H W. destruct (PatchUser_Ok _ _ _ _ _ _ H) as (q & role & u & u' & r & r' & removed & _ & _ & Hu & Hr & Ea & Had & _ & _ & _ & Hcap & _).
  set (a1 := set_account uid role u u' r' a) in *. destruct (revoke_hooks_shrinks now uid removed a1 Hn) as [S Hdone]. rewrite <- Ea in S, Hdone.
  assert (Eu : users (dir a') = <[uid := u']> (users (dir a))) by (rewrite (sh_users _ _ S); apply set_account_users).
  assert (Ep : profiles a' = <[uid := r']> (profiles a)) by (by rewrite (sh_profiles _ _ S)).
  assert (Hpow : forall c cap, cap ∈ KnownCapabilities -> power (users (dir a)) (profiles a) c cap ->
    power (users (dir a')) (profiles a') c cap \/ (c = uid /\ nothing_of uid cap a')).
  { intros c cap Hk Hp. destruct (decide (c = uid)) as [->|Hne].
    - rewrite (power_held _ _ _ _ _ _ Hu Hr) in Hp. rewrite Eu, Ep, (power_held _ _ _ u' r') by (by rewrite lookup_insert_eq).
      destruct (held_dec u' r' cap) as [Hh|Hh]; [by left|right]. split; [done|]. apply Hdone. by apply Hcap.
    - left. destruct Hp as (u0 & Hu0 & Hp). exists u0. rewrite Eu, Ep, !lookup_insert_ne by done. by split. }
  apply (on_accounts_wf a).
  - intros id l Hl Hrev Hp. destruct (Hpow _ CapShareLinks ltac:(set_solver) Hp) as [?|(Hc & Hno & _)]; [done|].
    by destruct (Hno eq_refl id l Hl Hc).
  - intros id v Hv Hsh Hp. destruct (Hpow _ CapShareViews ltac:(set_solver) Hp) as [?|(Hc & _ & Hno & _)]; [done|].
    by rewrite (Hno eq_refl id v Hv Hc) in Hsh.
  - unfold has_active_admin. rewrite (sh_users _ _ S). apply Had, W.
  - apply (shrinks_wf a); [|done]. by apply (shrinks_on_accounts a a1 a').
Qed.

(** ** Everything else an instance does to these tables *)
Record outside (a a' : access) : Prop := {
  ou_users : forall i u, users (dir a) !! i = Some u -> exists u', users (dir a') !! i = Some u' /\
    u_role u' = u_role u /\ u_disabled u' = u_disabled u;
  ou_profiles : forall i r, profiles a !! i = Some r -> exists r', profiles a' !! i = Some r' /\ pr_capabilities r' = pr_capabilities r;
  ou_links : share_links a' ⊆ share_links a;
  ou_tokens : api_tokens a' ⊆ api_tokens a;
  ou_seq : token_seq a' = token_seq a;
  ou_pairs : mobile_pairings a' ⊆ mobile_pairings a;
  ou_views : saved_views a' ⊆ saved_views a;
}.
Lemma outside_wf a a' : outside a a' -> access_wf a -> access_wf a'.
Proof.
  intros O W.
  assert (Hpow : forall c cap, power (users (dir a)) (profiles a) c cap -> power (users (dir a')) (profiles a') c cap).
  { intros c cap (u & Hu & Hp). destruct (ou_users _ _ O _ _ Hu) as (u' & Hu' & Er & _). exists u'. split; [done|]. rewrite Er.
    destruct Hp as [Hp|(r & Hr & Hp)]; [by left|right]. destruct (ou_profiles _ _ O _ _ Hr) as (r' & Hr' & Ec). exists r'. by rewrite Ec. }
  apply (on_accounts_wf a); [naive_solver|naive_solver| |].
  - destruct (proj1 (has_active_admin_Some a) (aw_admin _ W)) as (i & u & Hu & Hr & Hd). apply has_active_admin_Some.
    destruct (ou_users _ _ O _ _ Hu) as (u' & Hu' & Er & Ed). exists i, u'. by rewrite Er, Ed.
  - apply (shrinks_wf a); [|done]. split; try done; cbn.
    + intros i l Hl. exists l. split; [|by left]. by eapply lookup_weaken, O.
    + intros i l Hl. exists l. split; [|by left]. by eapply lookup_weaken, O.
    + apply O.
    + apply O.
    + intros i l Hl. exists l. split; [|by left]. by eapply lookup_weaken, O.
Qed.

(** * The steps of an instance *)
Section Steps.
Context (hasher : string -> option string) (public_url : string) (normalize_filter : string -> result access_error string)
  (to_lower : string -> string) (ca_ok : string -> bool).
(** The tokens that links may still draw. *)
Context (fresh : string -> Prop).

Inductive access_step (a : access) : access -> Prop :=
  | step_members now read p c ids a' : 0 < now -> PutSystemMembers now read a p c ids = Ok a' -> access_step a a'
  | step_patch now p uid b a' : 0 < now -> PatchUser now a p uid b = Ok a' -> access_step a a'
  | step_token now read query p n s h a' : CreateToken now read a query p n s h = Ok a' -> access_step a a'
  | step_delete_token read query p id a' : DeleteToken read a query p id = Ok a' -> access_step a a'
  | step_logout now cookie p : access_step a (Logout now cookie p a)
  | step_pair now demo o read query p n h a' : CreateMobilePairing now demo o read a query p n h = Ok a' -> access_step a a'
  | step_unpair demo read query p c h a' : DeleteMobilePairing demo read a query p c h = Ok a' -> access_step a a'
  | step_exchange now demo c d h th a' : ExchangeMobilePairing now demo a c d h th = Ok a' -> access_step a a'
  | step_view now read query p b id a' : CreateSavedView normalize_filter now read a query p b = Ok (id, a') -> access_step a a'
  | step_patch_view now read query p id b a' : UpdateSavedView normalize_filter now read a query p id b = Ok a' -> access_step a a'
  | step_delete_view read query p id a' : DeleteSavedView read a query p id = Ok a' -> access_step a a'
  | step_share now read query p b token id a' : fresh token ->
      CreateShareLink hasher public_url now read a query p b token = Ok (id, a') -> access_step a a'
  | step_unshare now read query p id a' : 0 < now -> RevokeShareLink now read a query p id = Ok a' -> access_step a a'
  | step_mailbox now m policy actor id a' : CreateAccount to_lower ca_ok now m policy actor a = Ok (id, a') -> access_step a a'
  | step_patch_mailbox now id b actor a' : PatchAccount to_lower ca_ok now id b actor a = Ok a' -> access_step a a'
  | step_delete_mailbox id actor a' : DeleteAccount id actor a = Ok a' -> access_step a a'
  | step_issue now u sys n s src h a' : IssueAPIToken now u sys n s src h a = Ok a' -> access_step a a'
  | step_outside a' : outside a a' -> access_step a a'.

Lemma CreateAccount_shrinks now m policy actor a id a' : CreateAccount to_lower ca_ok now m policy actor a = Ok (id, a') -> shrinks a a'.
Proof. unfold CreateAccount. intros H. inv_ok H. guards_in H. injection H as _ <-. apply with_accounts_shrinks. Qed.
Lemma PatchAccount_shrinks now id b actor a a' : PatchAccount to_lower ca_ok now id b actor a = Ok a' -> shrinks a a'.
Proof.
  unfold PatchAccount. intros H. inv_ok H. destruct (email_accounts a !! id); [|done]. inv_ok H. guards_in H. inv_ok H.
  injection H as <-. apply with_accounts_shrinks.
Qed.
Lemma DeleteAccount_shrinks id actor a a' : DeleteAccount id actor a = Ok a' -> shrinks a a'.
Proof. unfold DeleteAccount. intros H. destruct (email_accounts a !! id); [|done]. inv_ok H. injection H as <-. apply with_accounts_shrinks. Qed.

(** What a step can do to links and tokens: it takes authority away, patches an account,
    or adds one token or one link. *)
Inductive change (a a' : access) : Prop :=
  | ch_shrinks : shrinks a a' -> change a a'
  | ch_outside : outside a a' -> change a a'
  | ch_accounts a1 : shrinks a1 a' -> share_links a1 = share_links a -> api_tokens a1 = api_tokens a -> token_seq a1 = token_seq a -> change a a'
  | ch_token t b : shrinks a b -> a' = add_token t b -> change a a'
  | ch_link l id : fresh (sl_token l) -> insert_link l a = Ok (id, a') -> change a a'
  | ch_rows : share_links a' = share_links a -> api_tokens a' = api_tokens a -> token_seq a' = token_seq a -> change a a'.
Lemma access_step_change a a' : access_step a a' -> change a a'.
Proof.
  intros [now read p c ids b Hn H|now p uid b b' Hn H|now read query p n s h b H|read query p id b H|now cookie p
    |now demo o read query p n h b H|demo read query p c h b H|now demo c d h th b H|now read query p b id b' H
    |now read query p id b b' H|read query p id b H|now read query p b token id b' Hf H|now read query p id b Hn H
    |now m policy actor id b H|now id b actor b' H|id actor b H|now u sys n s src h b H|b H].
  - apply PutSystemMembers_Ok in H as (q & sys & wanted & _ & _ & _ & H). by eapply ch_shrinks, put_members_shrinks.
  - destruct (PatchUser_Ok _ _ _ _ _ _ H) as (q & role & u & u' & r & r' & removed & _ & _ & _ & _ & -> & _).
    by eapply ch_accounts; [eapply revoke_hooks_shrinks|..].
  - apply CreateToken_Ok in H as (q & sys & cur & l & _ & _ & _ & _ & _ & (_ & _ & ->)%IssueAPIToken_Ok). by eapply ch_token.
  - apply DeleteToken_Ok in H as ->. apply ch_shrinks, with_tokens_shrinks. intros m. apply delete_subseteq.
  - apply ch_shrinks, Logout_shrinks.
  - apply CreateMobilePairing_Ok in H as (q & r & _ & _ & _ & _ & ->). by apply ch_rows.
  - by eapply ch_shrinks, DeleteMobilePairing_shrinks.
  - apply ExchangeMobilePairing_Ok in H as (u & r & n & _ & (_ & _ & ->)%IssueAPIToken_Ok). eapply ch_token; [|done].
    apply with_pairings_shrinks. intros m. apply delete_subseteq.
  - apply CreateSavedView_rows in H as (v & ->). by apply ch_rows.
  - apply UpdateSavedView_rows in H as (v & ->). by apply ch_rows.
  - by eapply ch_shrinks, DeleteSavedView_shrinks.
  - apply CreateShareLink_Ok in H as (q & sys & cur & l & _ & _ & _ & _ & _ & _ & _ & <- & _ & _ & _ & H). by eapply ch_link.
  - by eapply ch_shrinks, RevokeShareLink_shrinks.
  - by eapply ch_shrinks, CreateAccount_shrinks.
  - by eapply ch_shrinks, PatchAccount_shrinks.
  - by eapply ch_shrinks, DeleteAccount_shrinks.
  - apply IssueAPIToken_Ok in H as (_ & _ & ->). by eapply ch_token.
  - by apply ch_outside.
Qed.
Lemma access_step_wf a a' : access_step a a' -> access_wf a -> access_wf a'.
Proof.
  intros [now read p c ids b Hn H|now p uid b b' Hn H|now read query p n s h b H|read query p id b H|now cookie p
    |now demo o read query p n h b H|demo read query p c h b H|now demo c d h th b H|now read query p b id b' H
    |now read query p id b b' H|read query p id b H|now read query p b token id b' Hf H|now read query p id b Hn H
    |now m policy actor id b H|now id b actor b' H|id actor b H|now u sys n s src h b H|b H] W.
  - apply PutSystemMembers_Ok in H as (q & sys & wanted & _ & _ & _ & H). by eapply shrinks_wf; [eapply put_members_shrinks|].
  - by eapply PatchUser_wf.
  - apply CreateToken_Ok in H as (q & sys & cur & l & _ & _ & _ & _ & _ & (_ & Hh & ->)%IssueAPIToken_Ok). by apply add_token_wf.
  - apply DeleteToken_Ok in H as ->. eapply shrinks_wf; [|done]. apply with_tokens_shrinks. intros m. apply delete_subseteq.
  - eapply shrinks_wf; [apply Logout_shrinks|done].
  - by eapply CreateMobilePairing_wf.
  - eapply shrinks_wf; [by eapply DeleteMobilePairing_shrinks|done].
  - by eapply ExchangeMobilePairing_wf.
  - by eapply CreateSavedView_wf.
  - by eapply UpdateSavedView_wf.
  - eapply shrinks_wf; [by eapply DeleteSavedView_shrinks|done].
  - by eapply CreateShareLink_wf.
  - eapply shrinks_wf; [by eapply RevokeShareLink_shrinks|done].
  - eapply shrinks_wf; [by eapply CreateAccount_shrinks|done].
  - eapply shrinks_wf; [by eapply PatchAccount_shrinks|done].
  - eapply shrinks_wf; [by eapply DeleteAccount_shrinks|done].
  - apply IssueAPIToken_Ok in H as (_ & Hh & ->). by apply add_token_wf.
  - by eapply outside_wf.
Qed.

(** C7: Over every history of requests — members and accounts administered, tokens issued,
    paired, deleted and logged out, views and links created, shared and revoked, mailboxes
    changed — and whatever else the instance does to files, sessions and systems: the creator
    of a link that is not revoked, and the owner of a view that is shared, still hold the
    capability (or are administrators); a link for everyone ends within a year of its
    creation; ids and digests of tokens and tokens of links are never taken twice; and there is
    an administrator who can log in. *)
Theorem access_invariant a a' : rtc access_step a a' -> access_wf a -> access_wf a'.
Proof. induction 1 as [|x y z Hs _ IH]; [done|]. intros W. by apply IH, (access_step_wf x). Qed.

(** ** What stays revoked *)

(** No link with the token can be loaded; the API token with this id was issued and is gone
    or revoked. *)
Definition dead_link (T : string) (a : access) : Prop :=
  forall id l, share_links a !! id = Some l -> sl_token l = T -> exists t, sl_revoked_at l = Some t /\ 0 < t.
Definition spent_token (n : Z) (a : access) : Prop :=
  n <= token_seq a /\ forall t, api_tokens a !! n = Some t -> tk_revoked_at t <> None.
Lemma dead_link_shrinks T a a' : shrinks a a' -> dead_link T a -> dead_link T a'.
Proof.
  intros S D id l (l0 & Hl & E)%(sh_links _ _ S) Ht.
  assert (Ht0 : sl_token l0 = T) by (by destruct E as [->|(t & _ & ->)]).
  destruct (D _ _ Hl Ht0) as (t0 & Hr & Hp). destruct E as [->|(t & _ & ->)]; [by exists t0|]. exists t0. cbn. by rewrite Hr.
Qed.
Lemma spent_token_shrinks n a a' : shrinks a a' -> spent_token n a -> spent_token n a'.
Proof.
  intros S [Hn D]. split; [by rewrite (sh_seq _ _ S)|]. intros t (t0 & Ht & E)%(sh_tokens _ _ S).
  destruct E as [->|(m & ->)]; [by apply D|done].
Qed.
Lemma change_dead T a a' : ~ fresh T -> change a a' -> dead_link T a -> dead_link T a'.
Proof.
  intros HT [S|O|a1 S E1 E2 E3|t b S ->|l id Hf Hi|E1 E2 E3] D.
  - by eapply dead_link_shrinks.
  - intros i l Hl. apply (D i). by eapply lookup_weaken, O.
  - eapply dead_link_shrinks; [done|]. unfold dead_link. by rewrite E1.
  - by eapply (dead_link_shrinks T a b).
  - apply insert_link_Ok in Hi as (_ & _ & ->). intros i l'. cbn. intros [[<- <-]|[_ H]]%lookup_insert_Some; [by intros <-|by apply (D i)].
  - unfold dead_link. by rewrite E1.
Qed.
Lemma change_spent n a a' : change a a' -> spent_token n a -> spent_token n a'.
Proof.
  intros [S|O|a1 S E1 E2 E3|t b S ->|l id Hf Hi|E1 E2 E3] D.
  - by eapply spent_token_shrinks.
  - destruct D as [Hn D]. split; [by rewrite (ou_seq _ _ O)|]. intros t Ht. apply D. by eapply lookup_weaken, O.
  - eapply spent_token_shrinks; [done|]. unfold spent_token. by rewrite E2, E3.
  - destruct (spent_token_shrinks _ _ _ S D) as [Hn Hd]. split; cbn; [lia|]. intros t'. rewrite lookup_insert_ne by lia. apply Hd.
  - by apply insert_link_Ok in Hi as (_ & _ & ->).
  - unfold spent_token. by rewrite E2, E3.
Qed.
Lemma steps_spent T n a a' : ~ fresh T -> rtc access_step a a' -> dead_link T a -> spent_token n a -> dead_link T a' /\ spent_token n a'.
Proof.
  intros HT. induction 1 as [|x y z Hs _ IH]; [done|]. apply access_step_change in Hs. intros D1 D2.
  apply IH; [by eapply change_dead|by eapply change_spent].
Qed.


Lemma dead_link_load T now a publicOnly : dead_link T a -> loadShareByToken now a publicOnly T = None.
Proof.
  intros D. unfold loadShareByToken. destruct (negb _); [done|]. destruct (filter _ _) as [|[id l] rest] eqn:E; [done|].
  assert (Hin : (id, l) ∈ filter (fun x : Z * link_row => sl_token x.2 = T) (map_to_list (share_links a))) by (rewrite E; left).
  apply list_elem_of_filter in Hin as [Ht Hin]. apply elem_of_map_to_list in Hin. destruct (D _ _ Hin Ht) as (t & Hr & Hp).
  destruct (creator a l); [|done]. destruct (publicOnly && _); [done|]. unfold link_expired. rewrite Hr.
  by replace (0 <? t) with true by lia.
Qed.
(** C10: Revocation is terminal.  Once no row of a link's token is live — the link was revoked,
    by its creator, with the capability, or with the membership — no later request makes the
    token load again, whatever is granted back, as long as new links draw other tokens.  And an
    API token that is deleted or revoked authenticates nobody and writes nothing ever after:
    its id is not used again. *)
Theorem revocation_terminal T n a a' : ~ fresh T -> n <> 0 -> rtc access_step a a' -> dead_link T a -> spent_token n a ->
  (forall now publicOnly, loadShareByToken now a' publicOnly T = None) /\
  (forall selected p systemID, p_TokenID p = n -> is_ok (currentWriterPrincipal a' selected (Some p) systemID) = false) /\
  (forall demo hash p, authToken a' demo hash = Ok p -> p_TokenID p <> n).
Proof.
  intros HT Hn0 Hs D1 D2. destruct (steps_spent _ _ _ _ HT Hs D1 D2) as [D1' [_ D2']]. split_and!.
  - intros. by apply dead_link_load.
  - intros selected p sys Hp. destruct (currentWriterPrincipal _ _ _ _) as [cur|] eqn:E; [|done]. exfalso.
    apply currentWriterPrincipal_Ok in E as (q & [= <-] & _ & _ & _ & _ & [H0|(t & Ht & _ & Hr & _)]); [congruence|].
    rewrite Hp in Ht. by apply (D2' _ Ht).
  - intros demo hash p Hp. unfold authToken in Hp. destruct (filter _ _) as [|[id t] rest] eqn:E; [done|].
    assert (Hin : (id, t) ∈ filter (fun x : Z * token_row => tk_hash x.2 = hash) (map_to_list (api_tokens a'))) by (rewrite E; left).
    apply list_elem_of_filter in Hin as [_ Hin]. apply elem_of_map_to_list in Hin.
    guards_in Hp. bool_simpl. injection Hp as <-. cbn. intros ->. by apply (D2' _ Hin).
Qed.
End Steps.

(** * Witnesses *)
Definition no_hash (s : string) : option string := None.
Definition same_filter (s : string) : result access_error string := Ok s.
Definition drawn (T : string) : Prop := T <> a_token.
Lemma step1 : access_step no_hash "" same_filter id (fun _ => true) drawn access0 access1.
Proof. apply (step_members _ _ _ _ _ _ _ 100 access0 (Some a_root) "H02" (Some [1])); [done|]. vm_compute. reflexivity. Qed.
Lemma step2 : access_step no_hash "" same_filter id (fun _ => true) drawn access1 access2.
Proof. apply (step_members _ _ _ _ _ _ _ 200 access1 (Some a_root) "H02" (Some [1; 2])); [done|]. vm_compute. reflexivity. Qed.

Lemma access_invariant_witness : access_wf access2.
Proof.
  apply (access_invariant no_hash "" same_filter id (fun _ => true) drawn access0); [|apply access0_wf].
  eapply rtc_l; [apply step1|]. apply rtc_once, step2.
Defined.
(** Ann was shut out, and is let in again: her link stays dead and her phone locked out. *)
Lemma revocation_terminal_witness :
  jd_system_members (dir access2) = {[(1, 2); (2, 1); (2, 2)]} /\ is_Some (loadShareByToken 50 access0 true a_token) /\
  (forall now publicOnly, loadShareByToken now access2 publicOnly a_token = None) /\
  (forall selected p systemID, p_TokenID p = 5 -> is_ok (currentWriterPrincipal access2 selected (Some p) systemID) = false).
Proof.
  split; [vm_compute; reflexivity|]. split; [vm_compute; by eexists|].
  destruct (revocation_terminal no_hash "" same_filter id (fun _ => true) drawn a_token 5 access1 access2) as (H1 & H2 & _).
  - intros H. by apply H.
  - done.
  - apply rtc_once, step2.
  - intros i l H. replace (share_links access1) with ({[7 := revoke_link 100 a_link]} : gmap Z link_row) in H by (vm_compute; reflexivity).
    apply lookup_singleton_Some in H as [<- <-]. intros _. by exists 100.
  - split; [by vm_compute|]. intros t H. replace (api_tokens access1) with (∅ : gmap Z token_row) in H by (vm_compute; reflexivity).
    by rewrite lookup_empty in H.
  - by split.
Defined.
