(* ===== verification/AccessProps.v ===== *)
(** Members, accounts and tokens: what removing a member takes along and leaves alone, what
    losing a capability ends, who the actor of a write is, and the way of a token from its
    creation to the principal it authenticates. *)
From S2P Require Import Prelude GoStd Utf8 Sqlite Systems Authz AuthzFacts Principal Mailbox Access MailboxStore Hex ShareLinks AccessFacts AccessSteps.

(** * Members *)
Section Members.
Context (sys now : Z).
Implicit Types (a : access).

Definition of_gone (gone : Z -> Prop) (system user : Z) : Prop := system = sys /\ gone user.
Lemma members_of_spec a u : u ∈ members_of a sys <-> (sys, u) ∈ jd_system_members (dir a).
Proof.
  unfold members_of. rewrite list_elem_of_fmap. split.
  - intros ([s u'] & -> & [Hs Hin]%list_elem_of_filter). cbn in *. subst s. by apply elem_of_elements.
  - intros Hin. exists (sys, u). split; [done|]. apply list_elem_of_filter. by rewrite elem_of_elements.
Qed.
(** One member removed: the trigger and the statements after it. *)
Lemma revoked_twice u l0 :
  (fun l => if (sl_system l =? sys) && (sl_created_by l =? u) && bool_decide (sl_revoked_at l = None) then revoke_link now l else l)
    (if (sl_created_by l0 =? u) && (sl_system l0 =? sys) then revoke_link now l0 else l0)
  = if bool_decide (sl_system l0 = sys /\ sl_created_by l0 = u) then revoke_link now l0 else l0.
Proof.
  destruct (decide (sl_system l0 = sys /\ sl_created_by l0 = u)) as [E|E].
  - rewrite (bool_decide_eq_true_2 _ E). destruct E as [<- <-]. cbn. by rewrite !Z.eqb_refl.
  - rewrite (bool_decide_eq_false_2 _ E). destruct ((sl_created_by l0 =? u) && _) eqn:E1; [bool_simpl; by destruct E|].
    destruct ((sl_system l0 =? sys) && (sl_created_by l0 =? u)) eqn:E2; [bool_simpl; by destruct E|done].
Qed.
Lemma remove_member_links a u i l' : share_links (remove_member sys now a u) !! i = Some l' <->
  exists l, share_links a !! i = Some l /\ l' = if bool_decide (sl_system l = sys /\ sl_created_by l = u) then revoke_link now l else l.
Proof.
  unfold remove_member, revoke_member. cbn. rewrite !lookup_fmap, fmap_Some. setoid_rewrite <- revoked_twice. split.
  - intros (l1 & (l0 & Hl & ->)%fmap_Some & ->). by exists l0.
  - intros (l0 & Hl & ->). eexists. split; [apply fmap_Some; by exists l0|done].
Qed.
Lemma remove_member_tokens a u n t : api_tokens (remove_member sys now a u) !! n = Some t <->
  api_tokens a !! n = Some t /\ ~ (tk_system t = sys /\ tk_user t = u).
Proof.
  unfold remove_member, revoke_member. cbn. rewrite lookup_fmap, fmap_Some. split.
  - intros (t0 & [Ht Hn]%map_lookup_filter_Some & ->). cbn in Hn. destruct (_ && _) eqn:E; [bool_simpl; by destruct Hn|].
    split; [done|tauto].
  - intros [Ht Hn]. exists t. split; [apply map_lookup_filter_Some; cbn; tauto|]. destruct (_ && _) eqn:E; [bool_simpl; by destruct Hn|done].
Qed.
Lemma remove_member_pairs a u w r : mobile_pairings (remove_member sys now a u) !! w = Some r <->
  mobile_pairings a !! w = Some r /\ ~ (pa_system r = sys /\ w = u).
Proof. unfold remove_member, revoke_member, drop_pairings. cbn. rewrite !map_lookup_filter_Some. cbn. tauto. Qed.
Lemma remove_member_members a u : jd_system_members (dir (remove_member sys now a u)) = jd_system_members (dir a) ∖ {[(sys, u)]}.
Proof. done. Qed.

Lemma ids_ok_NoDup ids seen : ids_ok seen ids = true -> NoDup ids /\ (forall x, x ∈ ids -> 0 < x /\ x ∉ seen).
Proof.
  revert seen. induction ids as [|x ids IH]; intros seen; cbn [ids_ok].
  - intros _. split; [constructor|]. by intros x ?%not_elem_of_nil.
  - intros H. bool_simpl. destruct (IH _ H0) as [Hn Hs]. split.
    + constructor; [|done]. intros Hx. destruct (Hs _ Hx). set_solver.
    + intros y [->|Hy]%elem_of_cons; [done|]. destruct (Hs _ Hy). set_solver.
Qed.
Lemma remove_members_links (l : list Z) a i l' : share_links (foldl (remove_member sys now) a l) !! i = Some l' <->
  exists l0, share_links a !! i = Some l0 /\ l' = if bool_decide (sl_system l0 = sys /\ sl_created_by l0 ∈ l) then revoke_link now l0 else l0.
Proof.
  revert a. induction l as [|u l IH]; intros a; cbn [foldl].
  - split; [intros H; exists l'; split; [done|]|intros (l0 & H & ->)];
      rewrite bool_decide_eq_false_2 by (by intros [_ ?%not_elem_of_nil]); done.
  - rewrite IH. split.
    + intros (l1 & (l0 & Hl & ->)%remove_member_links & ->). exists l0. split; [done|].
      repeat case_bool_decide; cbn in *; try done; set_solver.
    + intros (l0 & Hl & ->). eexists. split; [apply remove_member_links; by exists l0|].
      repeat case_bool_decide; cbn in *; try done; set_solver.
Qed.
Lemma remove_members_tokens (l : list Z) a n t : api_tokens (foldl (remove_member sys now) a l) !! n = Some t <->
  api_tokens a !! n = Some t /\ ~ (tk_system t = sys /\ tk_user t ∈ l).
Proof.
  revert a. induction l as [|u l IH]; intros a; cbn [foldl]; [set_solver|]. rewrite IH, remove_member_tokens. set_solver.
Qed.
Lemma remove_members_pairs (l : list Z) a w r : mobile_pairings (foldl (remove_member sys now) a l) !! w = Some r <->
  mobile_pairings a !! w = Some r /\ ~ (pa_system r = sys /\ w ∈ l).
Proof.
  revert a. induction l as [|u l IH]; intros a; cbn [foldl]; [set_solver|]. rewrite IH, remove_member_pairs. set_solver.
Qed.
Lemma remove_members_rest (l : list Z) a : let b := foldl (remove_member sys now) a l in
  users (dir b) = users (dir a) /\ jd_systems (dir b) = jd_systems (dir a) /\ profiles b = profiles a /\ saved_views b = saved_views a /\
  email_accounts b = email_accounts a /\
  forall x, x ∈ jd_system_members (dir b) <-> x ∈ jd_system_members (dir a) /\ ~ (x.1 = sys /\ x.2 ∈ l).
Proof.
  cbv zeta. revert a. induction l as [|u l IH]; intros a; cbn [foldl]; [set_solver|].
  destruct (IH (remove_member sys now a u)) as (E1 & E2 & E3 & E4 & E5 & E6). split_and!; try done.
  intros [s w]. rewrite E6, remove_member_members, elem_of_difference, elem_of_singleton. cbn. set_solver.
Qed.
End Members.

Lemma gone_iff (ms : gset (Z * Z)) sys s u (P : Prop) : s = sys /\ (sys, u) ∈ ms /\ P <-> s = sys /\ (s, u) ∈ ms /\ P.
Proof. split; intros (-> & H); by split. Qed.
(** C13: A successful change of the members of a system leaves exactly the wanted ones in it,
    and for a user who is out: no token of that system, no pairing with it, and no live link
    into it.  Everything else — other systems of the same user, members who stay,
    accounts, views, mailboxes — is as it was. *)
Theorem PutSystemMembers_exact now read a p c ids a' : PutSystemMembers now read a p c ids = Ok a' ->
  exists q system wanted, managedSystem read p c = Ok (q, system) /\ ids = Some wanted /\ NoDup wanted /\
    let gone s u := s = ID system /\ (s, u) ∈ jd_system_members (dir a) /\ u ∉ wanted in
    (forall s u, (s, u) ∈ jd_system_members (dir a') <-> (s = ID system /\ u ∈ wanted) \/ (s <> ID system /\ (s, u) ∈ jd_system_members (dir a))) /\
    (forall n t, api_tokens a' !! n = Some t <-> api_tokens a !! n = Some t /\ ~ gone (tk_system t) (tk_user t)) /\
    (forall w r, mobile_pairings a' !! w = Some r <-> mobile_pairings a !! w = Some r /\ ~ gone (pa_system r) w) /\
    (forall i l, share_links a !! i = Some l ->
       exists l', share_links a' !! i = Some l' /\ (gone (sl_system l) (sl_created_by l) -> l' = revoke_link now l) /\
         (~ gone (sl_system l) (sl_created_by l) -> l' = l)) /\
    dom (share_links a') = dom (share_links a) /\
    users (dir a') = users (dir a) /\ jd_systems (dir a') = jd_systems (dir a) /\ profiles a' = profiles a /\
    saved_views a' = saved_views a /\ email_accounts a' = email_accounts a.
Proof.
  intros (q & system & wanted & Hm & -> & Hids & H)%PutSystemMembers_Ok. exists q, system, wanted. split; [done|]. split; [done|].
  split; [by eapply (ids_ok_NoDup _ ∅)|]. unfold put_members in H. guards_in H. injection H as <-. set (sys := ID system) in *.
  set (out := filter _ (members_of a sys)) in *. set (b := with_dir _ a) in *. cbv zeta.
  assert (Hout : forall u, u ∈ out <-> (sys, u) ∈ jd_system_members (dir a) /\ u ∉ wanted).
  { intros u. unfold out. rewrite list_elem_of_filter, members_of_spec. tauto. }
  destruct (remove_members_rest sys now out b) as (E1 & E2 & E3 & E4 & E5 & E6). split_and!; try done.
  - intros s u. rewrite E6, Hout. cbn. rewrite elem_of_union, elem_of_list_to_set, list_elem_of_fmap. split.
    + intros [[(x & [= -> ->] & Hx)|Hin] Hn]; [by left|]. destruct (decide (s = sys)) as [->|Hs]; [|by right].
      left. split; [done|]. destruct (decide (u ∈ wanted)); [done|]. by destruct Hn.
    + intros [[-> Hu]|[Hs Hin]]; (split; [|tauto]); [left; by exists u|by right].
  - intros n t. rewrite (remove_members_tokens sys now out b n t), Hout.
    by apply and_iff_compat_l, not_iff_compat, gone_iff.
  - intros w r. rewrite (remove_members_pairs sys now out b w r), Hout.
    by apply and_iff_compat_l, not_iff_compat, gone_iff.
  - intros i l Hl. eexists. split; [apply remove_members_links; by exists l|]. split; intros Hg.
    + rewrite bool_decide_eq_true_2; [done|]. rewrite Hout. destruct Hg as (Hs & Hin & Hw). by rewrite <- Hs.
    + rewrite bool_decide_eq_false_2; [done|]. rewrite Hout. intros (Hs & Hin & Hw). apply Hg. by rewrite Hs.
  - apply set_eq. intros i. rewrite !elem_of_dom. split.
    + intros [l' (l & Hl & _)%remove_members_links]. by exists l.
    + intros [l Hl]. eexists. apply remove_members_links. by exists l.
Qed.

(** * Accounts *)

(** The rows of a table that belong to others, which a hook leaves alone. *)
Definition others_kept {A} (owner : A -> Z) (uid : Z) (m m' : gmap Z A) : Prop :=
  forall i x, owner x <> uid -> m !! i = Some x <-> m' !! i = Some x.
#[export] Instance others_refl {A} (owner : A -> Z) uid : Reflexive (others_kept owner uid).
Proof. by intros m i x. Qed.
#[export] Instance others_trans {A} (owner : A -> Z) uid : Transitive (others_kept owner uid).
Proof. intros m1 m2 m3 H1 H2 i x Hx. by rewrite (H1 i x Hx), (H2 i x Hx). Qed.
Lemma others_fmap {A} (owner : A -> Z) uid (f : A -> A) m :
  (forall x, owner (f x) = owner x) -> (forall x, owner x <> uid -> f x = x) -> others_kept owner uid m (f <$> m).
Proof.
  intros Hf Hid i x Hx. rewrite lookup_fmap_Some. split.
  - intros Hl. exists x. by rewrite Hid.
  - intros (y & <- & Hl). rewrite Hf in Hx. by rewrite Hid.
Qed.
(** [with_] one of the hooks: what it may touch. *)
Lemma revoke_hook_frame now uid a cap : let b := revoke_hook now uid a cap in
  others_kept sl_created_by uid (share_links a) (share_links b) /\ others_kept sv_owner uid (saved_views a) (saved_views b) /\
  others_kept ma_OwnerID uid (email_accounts a) (email_accounts b) /\
  dir b = dir a /\ profiles b = profiles a /\ api_tokens b = api_tokens a /\ mobile_pairings b = mobile_pairings a /\
  (cap <> CapShareLinks -> share_links b = share_links a) /\ (cap <> CapShareViews -> saved_views b = saved_views a) /\
  (cap <> CapMailboxes -> email_accounts b = email_accounts a).
Proof.
  cbv zeta. unfold revoke_hook. repeat case_bool_decide; subst; split_and!; try done; apply others_fmap; intros x; try intros Hx.
  - by destruct (_ && _).
  - by replace (ma_OwnerID x =? uid) with false by lia.
  - by destruct (_ && _).
  - by replace (sl_created_by x =? uid) with false by lia.
  - by destruct (_ && _).
  - by replace (sv_owner x =? uid) with false by lia.
Qed.
Lemma revoke_hooks_frame now uid l a : let b := foldl (revoke_hook now uid) a l in
  others_kept sl_created_by uid (share_links a) (share_links b) /\ others_kept sv_owner uid (saved_views a) (saved_views b) /\
  others_kept ma_OwnerID uid (email_accounts a) (email_accounts b) /\
  dir b = dir a /\ profiles b = profiles a /\ api_tokens b = api_tokens a /\ mobile_pairings b = mobile_pairings a /\
  (CapShareLinks ∉ l -> share_links b = share_links a) /\ (CapShareViews ∉ l -> saved_views b = saved_views a) /\
  (CapMailboxes ∉ l -> email_accounts b = email_accounts a).
Proof.
  cbv zeta. revert a. induction l as [|c l IH]; intros a; cbn [foldl]; [done|].
  destruct (revoke_hook_frame now uid a c) as (A1 & A2 & A3 & A4 & A5 & A6 & A7 & A8 & A9 & A10).
  destruct (IH (revoke_hook now uid a c)) as (B1 & B2 & B3 & B4 & B5 & B6 & B7 & B8 & B9 & B10).
  split_and!; [by etrans|by etrans|by etrans|congruence..| | |].
  - intros [? ?]%not_elem_of_cons. rewrite B8, A8; done.
  - intros [? ?]%not_elem_of_cons. rewrite B9, A9; done.
  - intros [? ?]%not_elem_of_cons. rewrite B10, A10; done.
Qed.

(** C12: A successful patch of an account was made by someone who is an active administrator
    at that moment, changes role and state as asked, and ends exactly what the account no
    longer may do: without [share_links] none of its links is live, without [share_views]
    none of its views is shared, without [mailboxes] none of its mailboxes is enabled; of what
    it still may do nothing is touched, nor are the rows of others.  An administrator keeps no
    stored capabilities, none is added that was not asked for, and an administrator who can
    log in remains. *)
Theorem PatchUser_exact now a p uid b a' : 0 < now -> PatchUser now a p uid b = Ok a' ->
  exists q u u' r r', p = Some q /\ active_role a (p_UserID q) = Some "admin" /\
    users (dir a) !! uid = Some u /\ users (dir a') = <[uid := u']> (users (dir a)) /\
    profiles a !! uid = Some r /\ profiles a' = <[uid := r']> (profiles a) /\
    u_role u' = default (u_role u) (TrimSpace <$> up_Role b) /\ u_disabled u' = default (u_disabled u) (up_Disabled b) /\
    (forall cap, cap ∈ KnownCapabilities -> held u r cap -> ~ held u' r' cap -> nothing_of uid cap a') /\
    ((held u r CapShareLinks -> held u' r' CapShareLinks) -> share_links a' = share_links a) /\
    ((held u r CapShareViews -> held u' r' CapShareViews) -> saved_views a' = saved_views a) /\
    ((held u r CapMailboxes -> held u' r' CapMailboxes) -> email_accounts a' = email_accounts a) /\
    others_kept sl_created_by uid (share_links a) (share_links a') /\ others_kept sv_owner uid (saved_views a) (saved_views a') /\
    others_kept ma_OwnerID uid (email_accounts a) (email_accounts a') /\
    (u_role u' = "admin" -> u_role u <> "admin" -> pr_capabilities r' = []) /\
    (up_Capabilities b = None -> forall cap, cap ∈ pr_capabilities r' -> cap ∈ pr_capabilities r) /\
    (has_active_admin a = true -> has_active_admin a' = true).
Proof.
  intros Hn (q & role & u & u' & r & r' & removed & -> & Hq & Hu & Hr & Ea & Hadm & Hro & Hrole & Hdis & Hrem & Hpro & Hnone)%PatchUser_Ok.
  set (a1 := set_account uid role u u' r' a) in *. destruct (revoke_hooks_shrinks now uid removed a1 Hn) as [_ Hdone].
  destruct (revoke_hooks_frame now uid removed a1) as (F1 & F2 & F3 & F4 & F5 & _ & _ & F8 & F9 & F10). cbv zeta in *. rewrite <- Ea in *.
  assert (Hnot : forall cap, cap ∈ KnownCapabilities -> (held u r cap -> held u' r' cap) -> cap ∉ removed).
  { intros cap Hk Hh Hc. apply Hrem in Hc as [H1 H2]; [|done]. by apply H2, Hh. }
  exists q, u, u', r, r'. rewrite <- Hro. split_and!; try done.
  - rewrite F4. apply set_account_users.
  - intros cap Hk H1 H2. apply Hdone. by apply Hrem.
  - intros Hh. apply F8, Hnot; [set_solver|done].
  - intros Hh. apply F9, Hnot; [set_solver|done].
  - intros Hh. apply F10, Hnot; [set_solver|done].
  - intros W. unfold has_active_admin. rewrite F4. by apply Hadm.
Qed.

(** * Actors and tokens *)

Lemma unbound_or x y : negb (x =? 0) && negb (x =? y) = false -> x = 0 \/ x = y.
Proof. rewrite andb_false_iff, !negb_false_iff, !Z.eqb_eq. tauto. Qed.
Lemma canEnterSystem_Ok a selected p s : canEnterSystem a selected p s = Ok true ->
  exists q, p = Some q /\ 0 < s /\ (tokenSystemID p = 0 \/ tokenSystemID p = s) /\ (selected = 0 \/ selected = s) /\
    ((isDemoCorpusKind (p_Kind q) = true /\ s = DefaultID) \/ CanEnter (dir a) (p_UserID q) s = true).
Proof.
  unfold canEnterSystem. destruct p as [q|]; [|done]. destruct (_ || _) eqn:E1; [done|]. destruct (negb (selected =? 0) && negb (selected =? s)) eqn:E2; [done|].
  apply orb_false_iff in E1 as [E0 E1]. intros H. exists q. split; [done|]. split; [lia|].
  apply unbound_or in E1. apply unbound_or in E2. split; [done|]. split; [done|].
  destruct (isDemoCorpusKind _) eqn:Ed.
  - left. split; [done|]. destruct (s =? DefaultID) eqn:Es; [lia|done].
  - right. by injection H as ->.
Qed.
(** C14: Whoever writes has the authority of this moment: the user is active and acts with the
    role the table has now; a token of the request is the user's, is not revoked, is bound to
    the system it names, and the scopes that allow the write are the stored ones; and the
    system of the write is the token's if there is one, the selected one if one is selected,
    and one the user may enter (a visitor of the demo: the original). *)
Theorem writer_authority a selected p systemID cur : currentWriterPrincipal a selected p systemID = Ok cur ->
  exists q u, p = Some q /\ p_UserID cur = p_UserID q /\
    users (dir a) !! p_UserID q = Some u /\ u_disabled u = false /\ p_Role cur = u_role u /\
    0 < systemID /\ (selected = 0 \/ selected = systemID) /\
    (p_TokenID q <> 0 -> exists t, api_tokens a !! p_TokenID q = Some t /\ tk_user t = p_UserID q /\ tk_revoked_at t = None /\
       tk_system t = tokenSystemID p /\ p_Scopes cur = Split (tk_scopes t) ","%char /\ (tk_system t <> 0 -> tk_system t = systemID)) /\
    (p_Kind cur = "user" \/ p_Kind cur = "demo-anon" \/ ScopeDocumentsWrite ∈ p_Scopes cur) /\
    ((isDemoCorpusKind (p_Kind cur) = true /\ systemID = DefaultID) \/ CanEnter (dir a) (p_UserID q) systemID = true).
Proof.
  intros (q & -> & Hid & (u & Hu & Hd & Hr)%active_role_Some & Hsc & Henter & Htok)%currentWriterPrincipal_Ok.
  destruct (canEnterSystem_Ok _ _ _ _ Henter) as (c & [= <-] & Hpos & Hbound & Hsel & He). rewrite Hid in He.
  exists q, u. split_and!; try done.
  - intros Hn. destruct Htok as [?|(t & Ht & Hu' & Hrv & Hs & Hcs & Hsc')]; [done|]. exists t. split_and!; try done.
    intros Hs0. destruct Hbound as [Hb|Hb]; unfold tokenSystemID in Hb; rewrite Hcs in Hb; destruct (tk_system t =? 0) eqn:E0; cbn in Hb; lia.
  - unfold HasScope in Hsc. destruct (_ || _) eqn:Ek.
    + apply orb_true_iff in Ek as [Ek|Ek]; apply bool_decide_eq_true in Ek; tauto.
    + right; right. apply existsb_exists in Hsc as (x & Hx & He'). apply String.eqb_eq in He' as <-. by apply list_elem_of_In.
Qed.

(** ** Tokens *)
Lemma known_no_comma s : IsKnownScope s = true -> no_byte ","%char s = true.
Proof. unfold IsKnownScope. cbn. rewrite !orb_true_iff, !String.eqb_eq. intros [->|[->|[->|?]]]; done. Qed.
Lemma scope_list_known raws seen l : scope_list seen raws = Ok l -> Forall (fun s => IsKnownScope s = true) seen -> NoDup seen ->
  Forall (fun s => IsKnownScope s = true) l /\ NoDup l /\ (forall s, s ∈ l <-> s ∈ seen \/ exists r, r ∈ raws /\ TrimSpace r = s).
Proof.
  revert seen. induction raws as [|r raws IH]; intros seen; cbn [scope_list].
  - intros [= <-] Hk Hn. split_and!; [done..|]. intros s. split; [by left|]. intros [?|(r & ?%not_elem_of_nil & _)]; done.
  - intros H Hk Hn. guards_in H. destruct (existsb _ seen) eqn:E.
    + destruct (IH _ H Hk Hn) as (H1 & H2 & H3). split_and!; [done..|]. intros s. rewrite H3. split.
      * intros [?|(x & Hx & Ht)]; [by left|right]. exists x. split; [by right|done].
      * intros [?|(x & [->|Hx]%elem_of_cons & Ht)]; [by left| |right; by exists x]. left. subst s.
        apply existsb_exists in E as (y & Hy & He). apply String.eqb_eq in He as <-. by apply list_elem_of_In.
    + assert (Hni : TrimSpace r ∉ seen).
      { intros Hin. apply not_true_iff_false in E. apply E, existsb_exists. exists (TrimSpace r). split; [by apply list_elem_of_In|apply String.eqb_refl]. }
      destruct (IH _ H) as (H1 & H2 & H3).
      * apply Forall_app. split; [done|]. by constructor.
      * apply NoDup_app. split_and!; [done| |apply NoDup_singleton]. intros x Hx ->%list_elem_of_singleton. done.
      * split_and!; [done..|]. intros s. rewrite H3, elem_of_app, list_elem_of_singleton. split.
        -- intros [[?|Hs]|(x & Hx & Ht)]; [by left|right; exists r; by split; [left|]|right]. exists x. split; [by right|done].
        -- intros [?|(x & [->|Hx]%elem_of_cons & Ht)]; [by left; left|left; by right|right; by exists x].
Qed.
Lemma authToken_only a demo h id t u r : unique tk_hash (api_tokens a) -> api_tokens a !! id = Some t -> tk_hash t = h ->
  users (dir a) !! tk_user t = Some u -> profiles a !! tk_user t = Some r ->
  authToken a demo h = (require may_use a t else "token not recognized" in
    require bool_decide (tk_revoked_at t = None) else "token revoked" in Ok (token_principal demo id t u (pr_display_name r))).
Proof.
  intros U Ht Hh Hu Hr. unfold authToken. destruct (filter _ _) as [|[id' t'] rest] eqn:E.
  - assert (Hin : (id, t) ∈ filter (fun x : Z * token_row => tk_hash x.2 = h) (map_to_list (api_tokens a))).
    { apply list_elem_of_filter. split; [done|]. by apply elem_of_map_to_list. }
    rewrite E in Hin. by apply not_elem_of_nil in Hin.
  - assert (Hin : (id', t') ∈ filter (fun x : Z * token_row => tk_hash x.2 = h) (map_to_list (api_tokens a))) by (rewrite E; left).
    apply list_elem_of_filter in Hin as [Hh' Hin]. apply elem_of_map_to_list in Hin. cbn in Hh'.
    assert (id' = id) as -> by (eapply U; [done..|congruence]). rewrite Ht in Hin. injection Hin as <-. by rewrite Hu, Hr.
Qed.
(** The way of a token: created by a browser session, its digest authenticates, at once,
    the same user with the role of the table, bound to the system it was created in, and its
    scopes are the requested ones, each once, all of them known. *)
Theorem CreateToken_authenticates now read a query p n s h a' : access_wf a -> dom (profiles a) = dom (users (dir a)) ->
  CreateToken now read a query p n s h = Ok a' ->
  exists q u cur, p = Some q /\ p_Kind q = "user" /\ authToken a' false h = Ok cur /\ p_UserID cur = p_UserID q /\
    users (dir a) !! p_UserID q = Some u /\ u_disabled u = false /\ p_Role cur = u_role u /\ p_Kind cur = "token" /\
    p_TokenID cur = token_seq a + 1 /\ CanEnter (dir a) (p_UserID q) (p_TokenSystemID cur) = true /\
    NoDup (p_Scopes cur) /\ (forall x, x ∈ p_Scopes cur -> IsKnownScope x = true) /\
    (forall x, x ∈ p_Scopes cur <-> exists r, r ∈ Split (or_else default_scopes (TrimSpace s)) ","%char /\ TrimSpace r = x).
Proof.
  intros W Hdom (q & sys & cur & l & -> & Hk & _ & Hl & Hw & Hi)%CreateToken_Ok.
  apply IssueAPIToken_Ok in Hi as (He & Hf & ->). set (t := TokenRow _ _ _ _ _ _ _ _).
  destruct (currentWriterPrincipal_Ok _ _ _ _ _ Hw) as (q' & [= <-] & _ & (u & Hu & Hd & Hr)%active_role_Some & _).
  assert (Hp : is_Some (profiles a !! p_UserID q)) by (apply elem_of_dom; rewrite Hdom; apply elem_of_dom; by exists u).
  destruct Hp as [r Hp]. destruct (scope_list_known _ _ _ Hl) as (H1 & H2 & H3); [constructor..|].
  assert (Hne : l <> []).
  { intros ->. destruct (Split (or_else default_scopes (TrimSpace s)) ","%char) as [|x xs] eqn:E; [by apply Split_ne in E|].
    apply (not_elem_of_nil (TrimSpace x)), H3. right. exists x. split; [left|done]. }
  assert (Hsplit : Split (Join l ",") ","%char = l) by (apply Split_Join; [done|]; eapply Forall_impl; [exact H1|apply known_no_comma]).
  exists q, u, (token_principal false (token_seq a + 1) t u (pr_display_name r)).
  assert (Hauth : authToken (add_token t a) false h = Ok (token_principal false (token_seq a + 1) t u (pr_display_name r))).
  { rewrite (authToken_only _ _ h (token_seq a + 1) t u r); try done.
    - assert (Hm : may_use (add_token t a) t = true); [|by rewrite Hm]. unfold may_use, CanEnter in *. cbn. rewrite Hu in *.
      by destruct (jd_systems (dir a) !! sys).
    - apply (aw_hash (add_token t a)), add_token_wf; [|done]. intros i t' Ht'. cbn. by eapply Hf.
    - cbn. by rewrite lookup_insert_eq. }
  change (p_Scopes _) with (Split (Join l ",") ","%char). rewrite Hsplit. split_and!; try done.
  - intros x Hx. by eapply (proj1 (Forall_forall _ _) H1).
  - intros x. rewrite H3. split; [intros [?%not_elem_of_nil|?]; done|by right].
Qed.

(** * Witnesses *)
Lemma PutSystemMembers_exact_witness :
  PutSystemMembers 100 access0 access0 (Some a_root) "H02" (Some [1]) = Ok access1 /\
  share_links access1 = {[7 := revoke_link 100 a_link]} /\ api_tokens access1 = ∅ /\
  (forall u, (2, u) ∈ jd_system_members (dir access1) <-> u ∈ [1]).
Proof.
  assert (H : PutSystemMembers 100 access0 access0 (Some a_root) "H02" (Some [1]) = Ok access1) by (vm_compute; reflexivity).
  split; [exact H|]. split; [vm_compute; reflexivity|]. split; [vm_compute; reflexivity|].
  destruct (PutSystemMembers_exact _ _ _ _ _ _ _ H) as (q & system & wanted & Hm & Hw & _ & Hmem & _).
  assert (Hs : ID system = 2) by (vm_compute in Hm; injection Hm as <- <-; reflexivity). rewrite Hs in Hmem.
  injection Hw as <-. intros u. rewrite Hmem. split; [intros [[_ ?]|[? _]]; [assumption|exfalso; auto]|intros ?; left; auto].
Defined.
(** Ann loses the capability to share. *)
Definition lost : user_patch := UserPatch None None None (Some []).
Definition access3 : access := ok_or access0 (PatchUser 100 access0 (Some a_root) 2 lost).
Lemma PatchUser_exact_witness :
  PatchUser 100 access0 (Some a_root) 2 lost = Ok access3 /\ share_links access3 = {[7 := revoke_link 100 a_link]} /\
  nothing_of 2 CapShareLinks access3.
Proof.
  assert (H : PatchUser 100 access0 (Some a_root) 2 lost = Ok access3) by (vm_compute; reflexivity).
  split; [exact H|]. split; [vm_compute; reflexivity|].
  assert (H0 : 0 < 100) by reflexivity.
  destruct (PatchUser_exact _ _ _ _ _ _ H0 H) as (q & u & u' & r & r' & _ & _ & Hu & Hu' & Hr & Hr' & _ & _ & Hn & _).
  apply Hn.
  - right; right; right; left.
  - right. vm_compute in Hr. injection Hr as <-. left.
  - assert (Er : profiles access3 !! 2 = Some r') by (rewrite Hr'; apply lookup_insert_eq).
    assert (Eu : users (dir access3) !! 2 = Some u') by (rewrite Hu'; apply lookup_insert_eq).
    vm_compute in Er, Eu. injection Er as <-. injection Eu as <-. intros [Hx|Hx]; [discriminate Hx|by apply not_elem_of_nil in Hx].
Defined.
Definition a_phone : Principal := MkPrincipal "token" 2 5 2 "" "ann@x" "Ann" "admin" ["documents:write"] "" "" 0.
Definition the_phone : Principal :=
  MkPrincipal "token" 2 5 2 "" "ann@x" "Ann" "member" ["documents:read"; "documents:write"] "" "" 0.
(** A stale role does not help. *)
Lemma writer_authority_witness : currentWriterPrincipal access0 2 (Some a_phone) 2 = Ok the_phone /\
  exists u, users (dir access0) !! 2 = Some u /\ u_disabled u = false /\ u_role u = "member".
Proof.
  assert (H : currentWriterPrincipal access0 2 (Some a_phone) 2 = Ok the_phone) by (vm_compute; reflexivity).
  split; [exact H|]. destruct (writer_authority _ _ _ _ _ H) as (q & u & Hq & _ & Hu & Hd & Hr & _). injection Hq as <-.
  exists u. split; [exact Hu|]. split; [exact Hd|]. exact (eq_sym Hr).
Defined.
Definition access4 : access := ok_or access0 (CreateToken 100 access0 access0 None (Some an_ann) "laptop" " documents:read , documents:read" "h6").
Lemma CreateToken_authenticates_witness :
  CreateToken 100 access0 access0 None (Some an_ann) "laptop" " documents:read , documents:read" "h6" = Ok access4 /\
  exists cur, authToken access4 false "h6" = Ok cur /\ p_UserID cur = 2 /\ p_TokenID cur = 6 /\ NoDup (p_Scopes cur).
Proof.
  assert (H : CreateToken 100 access0 access0 None (Some an_ann) "laptop" " documents:read , documents:read" "h6" = Ok access4)
    by (vm_compute; reflexivity).
  split; [exact H|].
  assert (Hd : dom (profiles access0) = dom (users (dir access0))) by (vm_compute; reflexivity).
  destruct (CreateToken_authenticates _ _ _ _ _ _ _ _ _ access0_wf Hd H) as (q & u & cur & Hq & _ & Ha & Hi & _ & _ & _ & _ & Ht & _ & Hn & _).
  injection Hq as <-. exists cur. split; [exact Ha|]. split; [exact Hi|]. split; [exact Ht|exact Hn].
Defined.
