(* ===== verification/ShareLinkProps.v ===== *)
(** Links for recipients: when a token loads, what is served under it and on whose authority,
    the proof of an unlocked password, and the agreement of the listings with all of it. *)
From S2P Require Import Prelude GoStd Utf8 Sqlite FilePath Lang Systems Authz AuthzFacts Principal Mailbox Hex Access ShareLinks AccessFacts AccessSteps.

Section Props.
Context (mac : string -> string -> string) (verifier : option (string -> string -> bool)).
Implicit Types (a : access) (now : Z).

(** * Loading *)
Lemma creator_Some a l u : creator a l = Some u <->
  users (dir a) !! sl_created_by l = Some u /\ may_enter (dir a) (sl_created_by l) (sl_system l) = true.
Proof.
  unfold creator, may_enter. destruct (users (dir a) !! sl_created_by l) as [v|]; [|naive_solver].
  destruct (negb _ && _); naive_solver.
Qed.
Definition loaded (a : access) (id : Z) (l : link_row) (u : user) : shareLinkLoaded :=
  Loaded id (sl_system l) (sl_created_by l) (bool_decide (u_role u = "admin")) (sl_label l)
    (sql_trim (default "" (pr_display_name <$> profiles a !! sl_created_by l)))
    (sl_visibility l) (sl_docs l) (sl_password l) (sl_expires_at l).
Lemma loadShareByToken_Some now a publicOnly token x : loadShareByToken now a publicOnly token = Some x ->
  String.length token = 64%nat /\ exists id l u, share_links a !! id = Some l /\ sl_token l = token /\ creator a l = Some u /\
    (publicOnly = true -> sl_visibility l = shareVisibilityPublic) /\ link_expired now l = false /\ x = loaded a id l u.
Proof.
  unfold loadShareByToken. destruct (negb _) eqn:El; [done|]. apply negb_false_iff, Nat.eqb_eq in El.
  intros H. split; [done|]. revert H.
  destruct (filter _ _) as [|[id l] rest] eqn:E; [done|].
  assert (Hin : (id, l) ∈ filter (fun x : Z * link_row => sl_token x.2 = token) (map_to_list (share_links a))) by (rewrite E; left).
  apply list_elem_of_filter in Hin as [Ht Hin]. apply elem_of_map_to_list in Hin.
  destruct (creator a l) as [u|] eqn:Eu; [|done]. destruct (publicOnly && _) eqn:Ep; [done|]. destruct (link_expired now l) eqn:Ee; [done|].
  intros [= <-]. exists id, l, u. split_and!; try done. intros ->. by apply andb_false_iff in Ep as [?|Ep%negb_false_iff%bool_decide_eq_true].
Qed.
(** With tokens that are not taken twice, the row of the token decides. *)
Lemma loadShareByToken_row now a publicOnly id l : unique sl_token (share_links a) -> share_links a !! id = Some l ->
  String.length (sl_token l) = 64%nat ->
  loadShareByToken now a publicOnly (sl_token l) =
    match creator a l with
    | Some u => if publicOnly && negb (bool_decide (sl_visibility l = shareVisibilityPublic)) then None
                else if link_expired now l then None else Some (loaded a id l u)
    | None => None
    end.
Proof.
  intros U Hl Hlen. unfold loadShareByToken. rewrite Hlen. cbn [Nat.eqb negb]. destruct (filter _ _) as [|[id' l'] rest] eqn:E.
  - assert (Hin : (id, l) ∈ filter (fun x : Z * link_row => sl_token x.2 = sl_token l) (map_to_list (share_links a))).
    { apply list_elem_of_filter. split; [done|]. by apply elem_of_map_to_list. }
    rewrite E in Hin. by apply not_elem_of_nil in Hin.
  - assert (Hin : (id', l') ∈ filter (fun x : Z * link_row => sl_token x.2 = sl_token l) (map_to_list (share_links a))) by (rewrite E; left).
    apply list_elem_of_filter in Hin as [Ht Hin]. apply elem_of_map_to_list in Hin. cbn in Ht.
    assert (id' = id) as -> by (by eapply U). rewrite Hl in Hin. by injection Hin as <-.
Qed.

(** * Serving *)

(** What [covered] says of a loaded link. *)
Lemma covered_loaded a id l u f : covered (loaded a id l u) f = true <->
  fl_trashed f = false /\ fl_system f = sl_system l /\ (u_role u = "admin" \/ fl_owner f = sl_created_by l).
Proof. unfold covered. cbn. rewrite !andb_true_iff, orb_true_iff, negb_true_iff, !Z.eqb_eq, bool_decide_eq_true. tauto. Qed.
(** The creator of a link as an actor of the decision layer. *)
Definition sharer (l : link_row) (u : user) : Authz.Principal :=
  Authz.MkPrincipal (sl_created_by l) (u_role u) "user" [] (sl_system l) 0.
Lemma sharer_can d a id l u f docID want : Authz.dir d = dir a -> documents d !! docID = Some (Document (fl_system f) (fl_owner f)) ->
  sl_created_by l <> 0 -> creator a l = Some u -> covered (loaded a id l u) f = true ->
  is_ok (can d (sharer l u) KindDocument docID want) = true.
Proof.
  intros Hd Hdoc H0 (Hu & He)%creator_Some (_ & Hs & Ho)%covered_loaded. rewrite can_member by done.
  rewrite (document_boundary _ _ _ _ Hdoc), (proj2 (holds_boundary _ _ _)).
  - rewrite andb_true_l. apply andb_true_iff. split; [apply negb_true_iff, Z.eqb_neq; done|]. apply orb_true_iff; left. apply orb_true_iff.
    destruct Ho as [Ho|Ho]; [left; by apply bool_decide_eq_true|right]. apply bool_decide_eq_true.
    unfold loadOwner. change (ownerColumnFor KindDocument) with (Some ("owner_id", "documents")). cbv iota.
    unfold select_owner. rewrite bool_decide_eq_true_2 by done. rewrite Hdoc. cbn. by rewrite Ho.
  - unfold boundary_ok. cbn. split; [by right|]. split; [by left|]. rewrite Hd. by apply may_enter_spec in He; rewrite <- Hs in He.
Qed.

(** What a recipient has shown for a password. *)
Definition proven (now : Z) (l : link_row) (x : shareLinkLoaded) (token : string) (r : recipient) : Prop :=
  match sl_password l with
  | None => True
  | Some h =>
      (rc_password r <> "" /\ exists v, verifier = Some v /\ v h (rc_password r) = true)
      \/ (rc_password r = "" /\ exists c, rc_cookie r = Some c /\ validShareUnlockToken mac x token c now = true)
  end.
Lemma verifyShareAccess_Ok now a id l u token r :
  is_ok (verifyShareAccess mac verifier now (loaded a id l u) token r) = true <-> proven now l (loaded a id l u) token r.
Proof.
  unfold verifyShareAccess, proven. cbn. destruct (sl_password l) as [h|] eqn:Eh; [|done].
  destruct (decide (rc_password r = "")) as [E|E].
  - rewrite (bool_decide_eq_true_2 _ E). cbn. destruct (rc_cookie r) as [c|]; [destruct (validShareUnlockToken _ _ _ _ _) eqn:Ec|];
      (split; [try done; intros _; right; eauto|intros [[? _]|(_ & c' & [= <-] & Hc)]; try done; congruence]).
  - rewrite (bool_decide_eq_false_2 _ E). cbn. unfold verifySharePassword. cbn. rewrite Eh, (bool_decide_eq_false_2 _ E).
    destruct verifier as [v|]; [destruct (v h _) eqn:Ev|];
      (split; [try done; intros _; left; eauto|intros [(_ & v' & [= <-] & Hv)|[? _]]; try done; congruence]).
Qed.
Definition blob_of (f : file_row) : string :=
  match fl_decrypted f with Some b => if bool_decide (b = "") then fl_original f else b | None => fl_original f end.
Lemma download_Ok now a publicOnly token doc_id r x :
  getSharePublicDownload mac verifier now a publicOnly token doc_id r = Ok x <->
  exists l docID f, loadShareByToken now a publicOnly token = Some l /\ ParseInt doc_id = Ok docID /\
    is_ok (verifyShareAccess mac verifier now l token r) = true /\ docID ∈ ll_docIDs l /\ files a !! docID = Some f /\
    covered l f = true /\ blob_of f <> "" /\ x = (blob_of f, or_else "application/octet-stream" (default "" (fl_mime f)), fl_title f).
Proof.
  unfold getSharePublicDownload. split.
  - destruct (loadShareByToken _ _ _ _) as [l|]; [|done]. destruct (ParseInt doc_id) as [docID|]; [|done].
    destruct (is_ok _) eqn:Ev; [|done]. destruct (bool_decide (docID ∈ _)) eqn:Ed; [|done]. apply bool_decide_eq_true in Ed.
    destruct (files a !! docID) as [f|] eqn:Ef; [|done]. destruct (covered l f) eqn:Ec; [|done].
    change (match fl_decrypted f with Some b => if bool_decide (b = "") then fl_original f else b | None => fl_original f end) with (blob_of f).
    case_bool_decide; [done|]. intros [= <-]. by exists l, docID, f.
  - intros (l & docID & f & -> & -> & -> & Hd & -> & -> & Hb & ->). rewrite (bool_decide_eq_true_2 _ Hd).
    change (match fl_decrypted f with Some b => if bool_decide (b = "") then fl_original f else b | None => fl_original f end) with (blob_of f).
    by rewrite (bool_decide_eq_false_2 _ Hb).
Qed.

(** C11: A document leaves the archive over a link only on its creator's authority of that very
    moment: the link with the token is not revoked and not expired (on the public listener, a
    public one), the password is proven where there is one, the document is one the link
    names, is not in the trash and lies in the link's system, and the creator — active, and
    still able to enter that system — is an administrator or owns it, so that the decision
    layer would allow the creator anything on it, without any grant. *)
Theorem share_within_authority d now a publicOnly token doc_id r x : Authz.dir d = dir a ->
  documents d = (fun f => Document (fl_system f) (fl_owner f)) <$> files a -> (forall i u, users (dir a) !! i = Some u -> i <> 0) ->
  getSharePublicDownload mac verifier now a publicOnly token doc_id r = Ok x ->
  exists id l u docID f, share_links a !! id = Some l /\ sl_token l = token /\ creator a l = Some u /\ u_disabled u = false /\
    link_expired now l = false /\ (publicOnly = true -> sl_visibility l = shareVisibilityPublic) /\
    proven now l (loaded a id l u) token r /\ ParseInt doc_id = Ok docID /\ docID ∈ sl_docs l /\
    files a !! docID = Some f /\ fl_trashed f = false /\ fl_system f = sl_system l /\
    x = (blob_of f, or_else "application/octet-stream" (default "" (fl_mime f)), fl_title f) /\
    forall want, is_ok (can d (sharer l u) KindDocument docID want) = true.
Proof.
  intros Hd Hdocs Hpos (x' & docID & f & (_ & id & l & u & Hl & Ht & Hu & Hv & He & ->)%loadShareByToken_Some & Hp & Hok & Hin & Hf & Hc & _ & ->)%download_Ok.
  apply verifyShareAccess_Ok in Hok. destruct (proj1 (covered_loaded _ _ _ _ _) Hc) as (Htr & Hs & _).
  pose proof (proj1 (creator_Some _ _ _) Hu) as [Hu' (u' & Hu2 & Hdis & _)%may_enter_spec]. rewrite Hu' in Hu2. injection Hu2 as <-.
  exists id, l, u, docID, f. split_and!; try done. intros want. apply (sharer_can d a id l u f); try done.
  - by rewrite Hdocs, lookup_fmap, Hf.
  - by eapply Hpos.
Qed.

Lemma loadShareDocs_in a l docID f : (docID, f) ∈ loadShareDocs a l <-> docID ∈ ll_docIDs l /\ files a !! docID = Some f /\ covered l f = true.
Proof.
  unfold loadShareDocs. rewrite (merge_sort_Permutation by_doc), list_elem_of_filter, elem_of_map_to_list. cbn. tauto.
Qed.
#[local] Instance by_doc_total : Total by_doc.
Proof. intros x y. unfold by_doc. lia. Qed.
#[local] Instance by_doc_transitive : Transitive by_doc.
Proof. intros x y z. unfold by_doc. lia. Qed.
(** The page and the download agree: what the page of a link lists, once each and by
    rising id, is what the same recipient can download, as far as a blob is there; who gets the
    password form, a refusal or the 404 page can download nothing. *)
Theorem page_lists_downloads now a publicOnly token r :
  match getSharePublic mac verifier now a publicOnly token r with
  | Documents _ docs => StronglySorted by_doc docs /\ NoDup (docs.*1) /\
      forall docID, 0 <= docID <= MaxInt64 ->
        is_ok (getSharePublicDownload mac verifier now a publicOnly token (FormatInt docID) r) = true <->
        exists f, (docID, f) ∈ docs /\ blob_of f <> ""
  | _ => forall doc_id, is_ok (getSharePublicDownload mac verifier now a publicOnly token doc_id r) = false
  end.
Proof.
  assert (Hno : forall doc_id, (forall l, loadShareByToken now a publicOnly token = Some l -> is_ok (verifyShareAccess mac verifier now l token r) = false) ->
    is_ok (getSharePublicDownload mac verifier now a publicOnly token doc_id r) = false).
  { intros doc_id Hl. destruct (getSharePublicDownload _ _ _ _ _ _ _ _) as [x|] eqn:E; [|done].
    apply download_Ok in E as (l & docID & f & E1 & _ & E2 & _). by rewrite (Hl l E1) in E2. }
  unfold getSharePublic. destruct (loadShareByToken now a publicOnly token) as [l|] eqn:El; [|intros; apply Hno; done].
  destruct (verifyShareAccess mac verifier now l token r) as [[]|[]] eqn:Ev; try by (intros; apply Hno; intros l' [= <-]; rewrite Ev).
  split; [apply (StronglySorted_merge_sort by_doc)|]. split.
  { unfold loadShareDocs. rewrite (merge_sort_Permutation by_doc). apply (sublist_NoDup _ (map_to_list (files a)).*1); [apply NoDup_fst_map_to_list|].
    apply fmap_sublist, sublist_filter. }
  intros docID Hr. split.
  - destruct (getSharePublicDownload _ _ _ _ _ _ _ _) as [x|] eqn:E; [|done]. intros _.
    apply download_Ok in E as (l' & i & f & E1 & E2 & _ & Hin & Hf & Hc & Hb & _). rewrite ParseInt_FormatInt in E2 by done. simplify_eq.
    exists f. split; [|done]. by apply loadShareDocs_in.
  - intros (f & (Hin & Hf & Hc)%loadShareDocs_in & Hb).
    rewrite (proj2 (download_Ok now a publicOnly token (FormatInt docID) r (blob_of f, or_else "application/octet-stream" (default "" (fl_mime f)), fl_title f))); [done|]. exists l, docID, f.
    split_and!; try done; [by apply ParseInt_FormatInt|by rewrite Ev].
Qed.

(** * The proof of an unlocked password *)

Lemma sdrop_past s c t : sdrop (S (String.length s)) (s +:+ String c t) = t.
Proof. induction s as [|d s IH]; [done|]. exact IH. Qed.
Lemma cut_dot_digits n rest : 0 <= n <= MaxInt64 -> cut_dot (FormatInt n +:+ "." +:+ rest) = Some (FormatInt n, rest).
Proof.
  intros Hn. destruct (FormatInt_digits n Hn) as (_ & Hall & _). unfold cut_dot.
  rewrite index_skip, (index_here "." rest).
  - cbn [fmap option_fmap option_map]. rewrite Nat.add_0_r. f_equal. f_equal; [apply stake_append|].
    apply sdrop_past.
  - eapply all_bytes_impl; [|exact Hall]. intros c Hc. apply negb_true_iff, bool_decide_eq_false. by intros ->.
Qed.
Lemma unlock_roundtrip l token expires now : 0 <= expires <= MaxInt64 ->
  validShareUnlockToken mac l token (shareUnlockToken mac l token expires) now = (now <? expires).
Proof.
  intros He. unfold validShareUnlockToken, shareUnlockToken. rewrite cut_dot_digits, ParseInt_FormatInt by done.
  rewrite Decode_Encode, bool_decide_eq_true_2 by done. destruct (expires <=? now) eqn:E; lia.
Qed.
(** The password is asked once an hour.  The cookie that unlocking sets opens the page and
    the downloads of that link, with no password sent, exactly until it ends — as long as the
    link loads with the password it had, whatever else has happened in between —; and any
    cookie that is accepted carries, for a time that has not come, the signature of that time
    and of this token under the link's password hash. *)
Theorem unlock_lasts now1 a1 a2 publicOnly token password cookie expires :
  postSharePublic mac verifier now1 a1 publicOnly token password = Unlocked cookie expires -> 0 <= now1 -> now1 + shareUnlockLifetime <= MaxInt64 ->
  exists l1, loadShareByToken now1 a1 publicOnly token = Some l1 /\ expires = now1 + shareUnlockLifetime /\
    (forall h, ll_pwHash l1 = Some h -> exists v, verifier = Some v /\ v h password = true) /\
    forall now2 l2, loadShareByToken now2 a2 publicOnly token = Some l2 -> ll_pwHash l2 = ll_pwHash l1 -> ll_pwHash l1 <> None ->
      is_ok (verifyShareAccess mac verifier now2 l2 token (Recipient "" (Some cookie))) = (now2 <? expires) /\
      forall c, is_ok (verifyShareAccess mac verifier now2 l2 token (Recipient "" (Some c))) = true ->
        exists t e s, cut_dot c = Some (t, s) /\ ParseInt t = Ok e /\ now2 < e /\
          DecodeString s = Some (unlock_signature mac (default "" (ll_pwHash l1)) token t).
Proof.
  unfold postSharePublic. intros H H0 Hm. destruct (loadShareByToken now1 a1 publicOnly token) as [l1|]; [|done].
  destruct (verifySharePassword verifier l1 password) as [[]|] eqn:Ev; [|done]. injection H as <- <-. exists l1. split_and!; try done.
  - intros h Hh. unfold verifySharePassword in Ev. rewrite Hh in Ev. guards_in Ev. eauto.
  - intros now2 l2 _ Hpw Hne. assert (Hsame : forall c, is_ok (verifyShareAccess mac verifier now2 l2 token (Recipient "" (Some c)))
      = validShareUnlockToken mac l1 token c now2).
    { intros c. unfold verifyShareAccess. rewrite Hpw. destruct (ll_pwHash l1) as [h|] eqn:Eh; [|done]. cbn.
      unfold validShareUnlockToken. rewrite Hpw, Eh. by destruct (cut_dot c) as [[]|]; repeat case_match. }
    split; [rewrite Hsame; apply unlock_roundtrip; unfold shareUnlockLifetime in *; lia|].
    intros c. rewrite Hsame. unfold validShareUnlockToken. destruct (cut_dot c) as [[t s]|]; [|done].
    destruct (ParseInt t) as [e|] eqn:Ep; [|done]. destruct (e <=? now2) eqn:Ee; [done|]. destruct (DecodeString s) as [got|] eqn:Es; [|done].
    intros Hg%bool_decide_eq_true. exists t, e, s. rewrite Ep, Es, Hg. split_and!; try done. lia.
Qed.

(** * Listings *)

(** A creator's list tells the truth.  Of a link as the table holds it, exactly one of the
    two filters is true; the active ones are those a recipient on the creator's network can
    load, as long as the creator may still enter the system; and of those a recipient of the
    public listener loads exactly the public ones. *)
Theorem listing_agrees now a id l : unique sl_token (share_links a) -> share_links a !! id = Some l -> String.length (sl_token l) = 64%nat ->
  sl_visibility l = shareVisibilityNetwork \/ sl_visibility l = shareVisibilityPublic ->
  (forall t, sl_revoked_at l = Some t -> 0 < t) ->
  list_inactive now l = negb (list_active now l) /\
  (is_Some (loadShareByToken now a false (sl_token l)) <-> list_active now l = true /\ is_Some (creator a l)) /\
  (is_Some (loadShareByToken now a true (sl_token l)) <->
     is_Some (loadShareByToken now a false (sl_token l)) /\ sl_visibility l = shareVisibilityPublic).
Proof.
  intros U Hl Hlen Hv Hr. rewrite !(loadShareByToken_row _ _ _ id) by done.
  assert (Ha : list_active now l = negb (link_expired now l) /\ list_inactive now l = link_expired now l).
  { unfold list_active, list_inactive, link_expired, isnull, after, until. clear -Hv Hr.
    assert (Hrev : match sl_revoked_at l with Some t => 0 <? t | None => false end = negb (bool_decide (sl_revoked_at l = None))).
    { destruct (sl_revoked_at l) as [t|]; [|done]. specialize (Hr t eq_refl). rewrite bool_decide_eq_false_2 by done. cbn. lia. }
    rewrite Hrev. change "network" with shareVisibilityNetwork. change "public" with shareVisibilityPublic.
    destruct Hv as [-> | ->]; rewrite ?(bool_decide_eq_true_2 (shareVisibilityNetwork = shareVisibilityNetwork)) by done.
    all: rewrite ?(bool_decide_eq_true_2 (shareVisibilityPublic = shareVisibilityPublic)) by done.
    all: rewrite ?(bool_decide_eq_false_2 (shareVisibilityPublic = shareVisibilityNetwork)) by done.
    all: rewrite ?(bool_decide_eq_false_2 (shareVisibilityNetwork = shareVisibilityPublic)) by done.
    all: destruct (bool_decide (sl_revoked_at l = None)), (sl_expires_at l) as [e|]; cbn; try done; lia. }
  destruct Ha as [-> ->]. split; [by rewrite negb_involutive|]. destruct (creator a l) as [u|]; cbn.
  - destruct (link_expired now l); cbn; split; split.
    + by intros [? ?].
    + by intros [? ?].
    + destruct (negb _); by intros [? ?].
    + by intros [[? ?] _].
    + by intros _.
    + by intros _.
    + destruct (bool_decide (sl_visibility l = _)) eqn:E; [|by intros [? ?]]. intros _. apply bool_decide_eq_true in E. by split.
    + intros [_ ->]. by rewrite bool_decide_eq_true_2.
  - split; split; by intros [? ?] || by intros [[? ?] ?].
Qed.
End Props.

(** * Witnesses *)
Definition a_mac (key message : string) : string := key +:+ ":" +:+ message.
Definition opens : option (string -> string -> bool) := Some (fun h s => String.eqb h "pbkdf" && String.eqb s "open").
Definition guest : recipient := Recipient "open" None.
Definition archive : db := DB (dir access0) {[10 := Document 2 2]} ∅ ∅ ∅ ∅ ∅ ∅.
Lemma share_within_authority_witness :
  getSharePublicDownload a_mac opens 50 access0 true a_token "10" guest = Ok ("blob", "application/pdf", "Lease") /\
  is_ok (can archive (sharer a_link (User "ann@x" "member" false)) KindDocument 10 PermView) = true.
Proof.
  assert (H : getSharePublicDownload a_mac opens 50 access0 true a_token "10" guest = Ok ("blob", "application/pdf", "Lease"))
    by (vm_compute; reflexivity).
  split; [exact H|].
  assert (Hd : documents archive = (fun f => Document (fl_system f) (fl_owner f)) <$> files access0) by (vm_compute; reflexivity).
  assert (Hp : forall i u, users (dir access0) !! i = Some u -> i <> 0).
  { intros i u Hi ->. vm_compute in Hi. discriminate Hi. }
  destruct (share_within_authority a_mac opens archive 50 access0 true a_token "10" guest _ eq_refl Hd Hp H)
    as (i & l & u & docID & f & Hl & _ & Hu & _ & _ & _ & _ & Hdoc & _ & _ & _ & _ & _ & Hcan).
  apply (lookup_singleton_Some (M := gmap Z) 7 i a_link) in Hl as [<- <-]. vm_compute in Hdoc. injection Hdoc as <-.
  vm_compute in Hu. injection Hu as <-. apply Hcan.
Defined.
Lemma page_lists_downloads_witness :
  getSharePublic a_mac opens 50 access0 true a_token guest = Documents (loaded access0 7 a_link (User "ann@x" "member" false)) [(10, a_file)] /\
  is_ok (getSharePublicDownload a_mac opens 50 access0 true a_token (FormatInt 10) guest) = true.
Proof.
  assert (H : getSharePublic a_mac opens 50 access0 true a_token guest
    = Documents (loaded access0 7 a_link (User "ann@x" "member" false)) [(10, a_file)]) by (vm_compute; reflexivity).
  split; [exact H|]. pose proof (page_lists_downloads a_mac opens 50 access0 true a_token guest) as P. rewrite H in P.
  destruct P as (_ & _ & P). apply P; [by vm_compute|]. exists a_file. split; [left|discriminate].
Defined.
Definition a_cookie : string := shareUnlockToken a_mac (loaded access0 7 a_link (User "ann@x" "member" false)) a_token 3650.
Lemma unlock_lasts_witness :
  postSharePublic a_mac opens 50 access0 true a_token "open" = Unlocked a_cookie 3650 /\
  is_ok (verifyShareAccess a_mac opens 60 (loaded access0 7 a_link (User "ann@x" "member" false)) a_token (Recipient "" (Some a_cookie))) = true.
Proof.
  assert (H : postSharePublic a_mac opens 50 access0 true a_token "open" = Unlocked a_cookie 3650) by (vm_compute; reflexivity).
  split; [exact H|].
  assert (H0 : 0 <= 50) by (vm_compute; discriminate). assert (Hm : 50 + shareUnlockLifetime <= MaxInt64) by (vm_compute; discriminate).
  destruct (unlock_lasts a_mac opens 50 access0 access0 true a_token "open" _ _ H H0 Hm) as (l1 & Hl & _ & _ & Hall).
  assert (Hl' : loadShareByToken 50 access0 true a_token = Some (loaded access0 7 a_link (User "ann@x" "member" false)))
    by (vm_compute; reflexivity).
  rewrite Hl' in Hl. injection Hl as <-. destruct (Hall 60 (loaded access0 7 a_link (User "ann@x" "member" false))) as [E _].
  - vm_compute. reflexivity.
  - reflexivity.
  - discriminate.
  - rewrite E. reflexivity.
Defined.
Lemma listing_agrees_witness : list_active 50 a_link = true /\ list_inactive 50 a_link = false /\
  is_Some (loadShareByToken 50 access0 false (sl_token a_link)).
Proof.
  assert (Ha : list_active 50 a_link = true) by (vm_compute; reflexivity). split; [exact Ha|].
  destruct (listing_agrees 50 access0 7 a_link) as (E & P & _).
  - apply access0_wf.
  - vm_compute. reflexivity.
  - reflexivity.
  - right. reflexivity.
  - intros t Ht. discriminate Ht.
  - rewrite E, Ha. split; [reflexivity|]. apply P. split; [exact Ha|]. vm_compute. by eexists.
Defined.

(** A document named twice is counted once, and the request is answered as if it named a
    document that is not there. *)
Definition twice (ids : list Z) : ShareLinkCreate := MkShare ids "" "network" 0 "".
Definition another_token : string := "f123456789abcdef0123456789abcdef0123456789abcdef0123456789abcdef".
Lemma repeated_document_refused :
  CreateShareLink no_hash "" 50 access0 access0 (Some ["H02"]) (Some an_ann) (twice [10; 10]) another_token = Err (Status 404 "not_found") /\
  is_ok (CreateShareLink no_hash "" 50 access0 access0 (Some ["H02"]) (Some an_ann) (twice [10]) another_token) = true.
Proof. split; vm_compute; reflexivity. Qed.
