(* ===== verification/MailboxProps.v ===== *)
(** Mailboxes: rows stay valid over every operation, a change is made with the authority of
    the moment, and the watcher's cursor is forgotten exactly when it would count in another
    mailbox. *)
From S2P Require Import Prelude GoStd Utf8 Sqlite Systems Authz Principal Mailbox Access MailboxStore AccessFacts AccessSteps.

(** * Valid rows *)

Definition rule_ok (to_lower : string -> string) (r : IntakeRule) : Prop :=
  (Selection r = IntakeMatchingMessages /\ no_criteria r = false
   \/ (Selection r = IntakeEveryMessage \/ Selection r = IntakeMessagesWithFiles) /\ no_criteria r = true) /\
  (Content r = IntakeEmailAndFiles \/ Content r = IntakeFilesOnly) /\
  Forall (fun s => (String.length s <= 8192)%nat) [From r; Recipients r; SubjectTerms r; AttachmentNames r] /\
  Forall (fun p => glob_bad to_lower p = false) (SplitPolicyValues (AttachmentNames r)).
Record row_ok (to_lower : string -> string) (m : Account) : Prop := {
  ro_system : 0 < ma_SystemID m;
  ro_owner : ma_OwnerID m <> 0;
  ro_texts : forallb (fun s => negb (blank s)) [ma_Name m; Host m; Folder m; Username m] = true;
  ro_words : forallb (fun s => negb (none s)) [Provider m; AuthMethod m; SealedSecret m] = true;
  ro_port : 1 <= Port m <= 65535;
  ro_poll : 1 <= PollIntervalMin m <= 1440;
  ro_since : forall t, SyncSince m = Some t -> 0 < t;
  ro_sizes : validateTextFields (ma_Name m) (Host m) (TLSCAFile m) (Folder m) (ProcessedFolder m) (Username m) (OAuthAccountID m) = Ok tt;
  ro_policy : (1 <= length (ma_Policy m) <= 20)%nat /\ Forall (rule_ok to_lower) (ma_Policy m);
}.

Lemma normalizeIntakeRule_ok to_lower r r' : normalizeIntakeRule to_lower r = Ok r' -> rule_ok to_lower r'.
Proof.
  unfold normalizeIntakeRule. set (t := trimmed r). intros H. inv_ok H. guards_in H. injection H as <-. split_and!.
  - destruct (_ || _) eqn:E in Ha.
    + right. apply orb_true_iff in E. rewrite !bool_decide_eq_true in E. by destruct (no_criteria t).
    + left. destruct (bool_decide (Selection t = IntakeMatchingMessages)) eqn:Em; [|done]. apply bool_decide_eq_true in Em.
      by destruct (no_criteria t).
  - apply orb_true_iff in Hc. by rewrite !bool_decide_eq_true in Hc.
  - apply Forall_forall. intros s Hs%list_elem_of_In. pose proof (proj1 (forallb_forall _ _) Hc0 s Hs) as E. by apply Nat.leb_le in E.
  - apply Forall_forall. intros p Hp%list_elem_of_In. destruct (glob_bad to_lower p) eqn:E; [|done].
    assert (Hx : existsb (glob_bad to_lower) (SplitPolicyValues (AttachmentNames t)) = true) by (apply existsb_exists; by exists p).
    congruence.
Qed.
Lemma normalize_rules_ok to_lower l l' : normalize_rules to_lower l = Ok l' -> length l' = length l /\ Forall (rule_ok to_lower) l'.
Proof.
  revert l'. induction l as [|r l IH]; intros l' H; cbn [normalize_rules] in H; [by injection H as <-|]. inv_ok H. injection H as <-.
  destruct (IH _ Ha0) as [E F]. split; [cbn; by rewrite E|]. constructor; [by eapply normalizeIntakeRule_ok|done].
Qed.
Lemma NormalizeIntakePolicy_ok to_lower p l : NormalizeIntakePolicy to_lower p = Ok l ->
  (1 <= length l <= 20)%nat /\ Forall (rule_ok to_lower) l.
Proof.
  unfold NormalizeIntakePolicy. destruct p as [rules|].
  - destruct (_ && _) eqn:E; [|done]. apply andb_true_iff in E as [E1%Nat.leb_le E2%Nat.leb_le]. intros [Hl Hf]%normalize_rules_ok. rewrite Hl. split; [|done]. lia.
  - intros [= <-]. split; [cbn; lia|]. constructor; [|constructor]. split_and!; [right; split; [by left|done]|by left| |].
    + apply Forall_forall. intros s Hs. assert (s = "") as -> by (cbn in Hs; set_solver). cbn; lia.
    + replace (SplitPolicyValues _) with (@nil string) by (vm_compute; reflexivity). constructor.
Qed.
Lemma of_text_Ok {A} (r : result string A) x : of_text r = Ok x <-> r = Ok x.
Proof. destruct r; cbn; split; congruence. Qed.
Section Store.
Context (to_lower : string -> string) (ca_ok : string -> bool).
Definition mailboxes_ok (a : access) : Prop :=
  forall id m, email_accounts a !! id = Some m -> row_ok to_lower m /\ id <= account_seq a.

Lemma ValidatePollInterval_ok n x : ValidatePollInterval n = Ok x -> 1 <= n <= 1440.
Proof. unfold ValidatePollInterval, MaxPollIntervalMin. intros H. guards_in H. lia. Qed.
Lemma validateNew_ok m : validateNew ca_ok m = Ok tt ->
  0 < ma_SystemID m /\ ma_OwnerID m <> 0 /\ forallb (fun s => negb (blank s)) [ma_Name m; Host m; Folder m; Username m] = true /\
  forallb (fun s => negb (none s)) [Provider m; AuthMethod m; SealedSecret m] = true /\ 1 <= Port m <= 65535 /\
  1 <= PollIntervalMin m <= 1440 /\
  validateTextFields (ma_Name m) (Host m) (TLSCAFile m) (Folder m) (ProcessedFolder m) (Username m) (OAuthAccountID m) = Ok tt.
Proof.
  unfold validateNew. intros H. guards_in H. inv_ok H. apply ValidatePollInterval_ok in Ha. destruct a0. unfold port_ok in *. bool_simpl.
  split_and!; try done; try lia; cbn.
  - by repeat match goal with E : blank _ = false |- _ => rewrite E; clear E end.
  - by repeat match goal with E : none _ = false |- _ => rewrite E; clear E end.
Qed.
Lemma CreateAccount_ok now m policy actor a id a' :
  CreateAccount to_lower ca_ok now m policy actor a = Ok (id, a') -> mailboxes_ok a -> mailboxes_ok a'.
Proof.
  unfold CreateAccount. intros H W. inv_ok H. guards_in H. injection H as <- <-. apply of_text_Ok in Ha, Ha0. destruct a1.
  apply NormalizeIntakePolicy_ok in Ha. apply validateNew_ok in Ha0 as (H1 & H2 & H3 & H4 & H5 & H6 & H7).
  intros i m'. cbn. intros [[<- <-]|[_ Hm]]%lookup_insert_Some.
  - split; [|lia]. split; try done. intros t. unfold set_defaults. cbn. destruct (SyncSince m) as [s|]; [|done].
    destruct (s <=? 0) eqn:E; [done|]. intros [= <-]. lia.
  - destruct (W _ _ Hm). split; [done|lia].
Qed.
Lemma keep_ok {A} (o : option A) (x : A) (f : A -> bool) : given_as o f = false -> f x = false -> f (or_keep o x) = false.
Proof. by destruct o. Qed.
Lemma PatchAccount_Ok now id b actor a a' : PatchAccount to_lower ca_ok now id b actor a = Ok a' ->
  exists policy m, email_accounts a !! id = Some m /\
    (mp_Policy b = None /\ policy = None \/ exists p l, mp_Policy b = Some p /\ policy = Some l /\ NormalizeIntakePolicy to_lower p = Ok l) /\
    validatePatch b = Ok tt /\ checkMutation a actor (ma_SystemID m) (ma_OwnerID m) = Ok tt /\
    (default (ma_OwnerID m) (mp_OwnerID b) <> ma_OwnerID m -> checkMutation a actor (ma_SystemID m) (default (ma_OwnerID m) (mp_OwnerID b)) = Ok tt) /\
    CanEnter (dir a) (default (ma_OwnerID m) (mp_OwnerID b)) (ma_SystemID m) = true /\
    (forall p, actor = Some p -> mp_TLSCAFile b <> None -> (u_role <$> users (dir a) !! p_UserID p) = Some "admin") /\
    a' = with_accounts <[id := apply_patch now policy b m]> (account_seq a) a.
Proof.
  unfold PatchAccount. intros H. inv_ok H. destruct (email_accounts a !! id) as [m|] eqn:Em; [|done]. inv_ok H. guards_in H. inv_ok H.
  injection H as <-. apply of_text_Ok in Ha0. exists a0, m. destruct a1, a2, a3. split_and!; try done.
  - destruct (mp_Policy b) as [p|]; [right|left; by injection Ha as <-]. destruct (NormalizeIntakePolicy to_lower p) as [l|] eqn:E; [|done].
    injection Ha as <-. by exists p, l.
  - intros Hne. by rewrite (proj2 (Z.eqb_neq _ _) Hne) in Ha2.
  - intros p -> Hc0'. destruct (bool_decide (mp_TLSCAFile b = None)) eqn:E; [by apply bool_decide_eq_true in E|]. by apply bool_decide_eq_true in Hc0.
Qed.
Lemma validateTextFields_ok a b c d e f g x : validateTextFields a b c d e f g = Ok x <->
  let fits s n := Z.of_nat (String.length s) <= n in
  fits a 200 /\ fits b 253 /\ fits c 4096 /\ fits d 1024 /\ fits e 1024 /\ fits f 320 /\ fits g 1024.
Proof.
  unfold validateTextFields. cbv zeta. cbn [forallb fst snd]. destruct x. split.
  - intros H. guards_in H. rewrite !andb_true_iff, !Z.leb_le in Hc. tauto.
  - intros (H1 & H2 & H3 & H4 & H5 & H6 & H7). by rewrite (proj2 (Z.leb_le _ _) H1), (proj2 (Z.leb_le _ _) H2), (proj2 (Z.leb_le _ _) H3),
      (proj2 (Z.leb_le _ _) H4), (proj2 (Z.leb_le _ _) H5), (proj2 (Z.leb_le _ _) H6), (proj2 (Z.leb_le _ _) H7).
Qed.
Lemma keep_le (o : option string) s n : Z.of_nat (String.length (default "" o)) <= n -> Z.of_nat (String.length s) <= n ->
  Z.of_nat (String.length (or_keep o s)) <= n.
Proof. by destruct o. Qed.
Lemma apply_patch_ok now policy b m : validatePatch b = Ok tt -> row_ok to_lower m ->
  (forall l, policy = Some l -> (1 <= length l <= 20)%nat /\ Forall (rule_ok to_lower) l) -> row_ok to_lower (apply_patch now policy b m).
Proof.
  intros H [R1 R2 R3 R4 R5 R6 R7 R8 R9] Hp. unfold validatePatch in H. guards_in H. inv_ok H.
  cbn in R3, R4. bool_simpl. apply validateTextFields_ok in H, R8. cbv zeta in H, R8.
  destruct H as (L1 & L2 & L3 & L4 & L5 & L6 & L7). destruct R8 as (M1 & M2 & M3 & M4 & M5 & M6 & M7).
  split; try done; cbn [apply_patch ma_SystemID ma_OwnerID ma_Name Host Folder Username Provider AuthMethod SealedSecret Port PollIntervalMin
    SyncSince TLSCAFile ProcessedFolder OAuthAccountID ma_Policy].
  - destruct (mp_OwnerID b) as [o|]; [|done]. cbn. intros ->. discriminate.
  - cbn. rewrite !(keep_ok _ _ blank) by done. done.
  - cbn. rewrite !(keep_ok _ _ none) by done. done.
  - destruct (mp_Port b) as [o|]; [|done]. unfold port_ok, given_as in *. cbn. bool_simpl. lia.
  - destruct (mp_PollIntervalMin b) as [n|]; cbn; [by eapply ValidatePollInterval_ok|done].
  - intros t. destruct (mp_SyncSince b) as [s|]; [|apply R7]. destruct (s <=? 0) eqn:E; [done|]. intros [= <-]. lia.
  - apply validateTextFields_ok. cbv zeta. split_and!; by apply keep_le.
  - destruct policy as [l|]; [by apply Hp|done].
Qed.

(** The operations on mailboxes, and the hook that disables a user's. *)
Inductive mailbox_step (a : access) : access -> Prop :=
  | step_create now m policy actor id a' : CreateAccount to_lower ca_ok now m policy actor a = Ok (id, a') -> mailbox_step a a'
  | step_change now id b actor a' : PatchAccount to_lower ca_ok now id b actor a = Ok a' -> mailbox_step a a'
  | step_remove id actor a' : DeleteAccount id actor a = Ok a' -> mailbox_step a a'
  | step_cursor now id uid validity a' : UpdateUIDCursor now id uid validity a = Ok a' -> mailbox_step a a'
  | step_sync now id at' err a' : MarkSync now id at' err a = Ok a' -> mailbox_step a a'
  | step_disable now owner : mailbox_step a (DisableAllByOwner now owner a).
Lemma update_account_ok id f a a' : (forall m, row_ok to_lower m -> row_ok to_lower (f m)) ->
  update_account id f a = Ok a' -> mailboxes_ok a -> mailboxes_ok a'.
Proof.
  unfold update_account. intros Hf H W. destruct (email_accounts a !! id) as [m|] eqn:Em; [|done]. injection H as <-.
  intros i m'. cbn. intros [[<- <-]|[_ Hm]]%lookup_insert_Some; [|by apply W]. destruct (W _ _ Em). split; [by apply Hf|done].
Qed.
Lemma mailbox_step_ok a a' : mailbox_step a a' -> mailboxes_ok a -> mailboxes_ok a'.
Proof.
  intros [now m policy actor id b H|now id b actor b' H|id actor b H|now id uid v b H|now id at' err b H|now owner] W.
  - by eapply CreateAccount_ok.
  - apply PatchAccount_Ok in H as (policy & m & Hm & Hpol & Hv & _ & _ & _ & _ & ->).
    intros i m'. cbn. intros [[<- <-]|[_ Hm']]%lookup_insert_Some; [|by apply W]. destruct (W _ _ Hm) as [Hr Hi]. split; [|done].
    apply apply_patch_ok; [done..|]. intros l ->. destruct Hpol as [[_ ?]|(p & l' & _ & [= <-] & Hl)]; [done|]. by eapply NormalizeIntakePolicy_ok.
  - unfold DeleteAccount in H. destruct (email_accounts a !! id); [|done]. inv_ok H. injection H as <-.
    intros i m'. cbn. intros [_ Hm]%lookup_delete_Some. by apply W.
  - eapply update_account_ok; [|exact H|done]. by intros m [? ? ? ? ? ? ? ? ?].
  - eapply update_account_ok; [|exact H|done]. by intros m [? ? ? ? ? ? ? ? ?].
  - intros i m'. cbn. rewrite lookup_fmap_Some. intros (m0 & <- & Hm). destruct (W _ _ Hm) as [Hr Hi]. split; [|done].
    destruct (_ && _); [|done]. by destruct Hr.
Qed.

(** C39: Whatever is created, changed, deleted, disabled and polled: every mailbox has a name,
    a host, a folder, a user and a secret, a port and an interval in range, texts within their
    limits, a positive start or none, and between one and twenty intake rules, each with a known
    selection and content, criteria exactly where they are used, and patterns that compile;
    and its id is one that was given out. *)
Theorem mailboxes_invariant a a' : rtc mailbox_step a a' -> mailboxes_ok a -> mailboxes_ok a'.
Proof. induction 1 as [|x y z Hs _ IH]; [done|]. intros W. by apply IH, (mailbox_step_ok x). Qed.

(** * Changes *)

(** Who may write a mailbox of [owner] in [sys], as the tables are now. *)
Definition may_change (a : access) (actor : option Principal) (sys owner : Z) : Prop :=
  forall p, actor = Some p -> CanEnter (dir a) (p_UserID p) sys = true /\ (tokenSystemID actor = 0 \/ tokenSystemID actor = sys) /\
    (p_TokenID p <> 0 -> exists t, live_token a (p_TokenID p) (p_UserID p) = Some t /\ tk_system t = sys) /\
    (active_role a (p_UserID p) = Some "admin" \/
     (is_Some (active_role a (p_UserID p)) /\ p_UserID p = owner /\ exists r, profiles a !! p_UserID p = Some r /\ CapMailboxes ∈ pr_capabilities r)).
Lemma checkMutation_Ok a actor sys owner : checkMutation a actor sys owner = Ok tt -> may_change a actor sys owner.
Proof.
  unfold checkMutation. intros H p ->. guards_in H.
  all: split; [done|]; split; [rewrite andb_false_iff, !negb_false_iff, !Z.eqb_eq in Hc; tauto|].
  all: assert (Htok : p_TokenID p <> 0 -> exists t, live_token a (p_TokenID p) (p_UserID p) = Some t /\ tk_system t = sys).
  1, 3: intros Hn; rewrite (proj2 (Z.eqb_neq _ _) Hn) in Hc1; destruct (live_token _ _ _) as [t|]; [|done]; exists t; split; [done|]; by apply Z.eqb_eq.
  all: split; [exact Htok|].
  - left. by apply bool_decide_eq_true in Hc3 as ->.
  - right. inv_ok H. guards_in H. bool_simpl. split; [done|]. split; [done|]. unfold loadUserCapabilities in Ha.
    destruct (profiles a !! p_UserID p) as [r|]; [|done]. injection Ha as <-. exists r. split; [done|].
    unfold Has in *. apply (elem_of_list_to_set (C := gset string)). by eapply bool_decide_eq_true_1.
Qed.
(** The fields that say where mail is read from, and for whom. *)
Definition source (m : Account) : Z * string * string * Z * bool * string * string * string * string * option Z :=
  (ma_OwnerID m, Provider m, Host m, Port m, UseTLS m, Folder m, AuthMethod m, Username m, OAuthAccountID m, SyncSince m).
Lemma given_changes {A} `{EqDecision A} (o : option A) x : changes o x = negb (bool_decide (or_keep o x = x)).
Proof. destruct o as [y|]; cbn; [done|]. by rewrite bool_decide_eq_true_2. Qed.
Lemma cursorSourceChanged_spec now policy b m : (forall t, SyncSince m = Some t -> 0 < t) ->
  cursorSourceChanged m b = false <-> source (apply_patch now policy b m) = source m.
Proof.
  intros Hpos. unfold cursorSourceChanged, source. rewrite !given_changes. cbn.
  set (since := match mp_SyncSince b with Some t => if t <=? 0 then None else Some t | None => SyncSince m end).
  assert (Hs : match mp_SyncSince b with None => false | Some t => if t <=? 0 then bool_decide (is_Some (SyncSince m))
      else negb (bool_decide (SyncSince m = Some t)) end = negb (bool_decide (since = SyncSince m))).
  { unfold since. destruct (mp_SyncSince b) as [t|]; [|by rewrite bool_decide_eq_true_2]. destruct (t <=? 0).
    - destruct (SyncSince m) as [s|]; [reflexivity|reflexivity].
    - f_equal. apply bool_decide_ext. split; congruence. }
  rewrite Hs. clearbody since. destruct (_ || _) eqn:E; [|].
  - split; [done|]. intros H. injection H as H1 H2 H3 H4 H5 H6 H7 H8 H9 H10. rewrite H1, H2, H3, H4, H5, H6, H7, H8, H9 in E.
    by rewrite !bool_decide_eq_true_2 in E by done.
  - rewrite !orb_false_iff, !negb_false_iff, !bool_decide_eq_true in E. rewrite negb_false_iff, bool_decide_eq_true.
    destruct E as ((((((((-> & ->) & ->) & ->) & ->) & ->) & ->) & ->) & ->). split; [by intros ->|congruence].
Qed.
(** A successful change of a mailbox was allowed at that moment — by an administrator, or
    by its owner with the capability, through a live token of its system if through one, and
    for the new owner too, who may enter the system; only an administrator names a CA file —,
    and it keeps the watcher's place in the mailbox exactly when owner, provider, server,
    account, folder and start are what they were: a cursor never counts in another mailbox. *)
Theorem PatchAccount_exact now id b actor a a' : mailboxes_ok a -> PatchAccount to_lower ca_ok now id b actor a = Ok a' ->
  exists m m', email_accounts a !! id = Some m /\ email_accounts a' = <[id := m']> (email_accounts a) /\ dir a' = dir a /\
    may_change a actor (ma_SystemID m) (ma_OwnerID m) /\ may_change a actor (ma_SystemID m') (ma_OwnerID m') /\
    ma_SystemID m' = ma_SystemID m /\ CanEnter (dir a) (ma_OwnerID m') (ma_SystemID m') = true /\
    (forall p, actor = Some p -> TLSCAFile m' <> TLSCAFile m -> active_role a (p_UserID p) = Some "admin") /\
    ((LastUIDSeen m', UIDValiditySeen m') = (LastUIDSeen m, UIDValiditySeen m) /\ source m' = source m
     \/ (LastUIDSeen m', UIDValiditySeen m') = (0, 0) /\ source m' <> source m).
Proof.
  intros W (policy & m & Hm & _ & _ & Hc1 & Hc2 & He & Hca & ->)%PatchAccount_Ok. exists m, (apply_patch now policy b m).
  destruct (W _ _ Hm) as [Hr _]. pose proof (checkMutation_Ok _ _ _ _ Hc1) as M1. split_and!; try done.
  - cbn. destruct (decide (default (ma_OwnerID m) (mp_OwnerID b) = ma_OwnerID m)) as [E|E]; [unfold or_keep; by rewrite E|].
    by apply checkMutation_Ok, Hc2.
  - intros p -> Hne. assert (Hadm : (u_role <$> users (dir a) !! p_UserID p) = Some "admin").
    { apply (Hca p eq_refl). intros En. apply Hne. cbn. by rewrite En. }
    destruct (M1 p eq_refl) as (_ & _ & _ & [?|([role Hrole] & _)]); [done|]. rewrite Hrole. unfold active_role in Hrole.
    destruct (users (dir a) !! p_UserID p) as [u|]; [|done]. destruct (u_disabled u); [done|]. cbn in Hadm. congruence.
  - pose proof (cursorSourceChanged_spec now policy b m (ro_since _ _ Hr)) as S. cbn [LastUIDSeen UIDValiditySeen apply_patch].
    destruct (cursorSourceChanged m b).
    + right. split; [done|]. intros E. by apply S in E.
    + left. split; [done|]. by apply S.
Qed.
End Store.

(** * Witnesses *)
Definition a_box : Account :=
  MkAccount 2 "Bills" 2 "imap" "imap.example.org" 993 true "" "INBOX" "" 10 "password" "ann" "sealed" "" DefaultIntakePolicy
    (Some 5) true false 40 7 30 "" 10 10.
Definition access5 : access := with_accounts (fun _ => {[1 := a_box]}) 1 access0.
(** The administrator gives it to another folder. *)
Definition move_folder : AccountPatch :=
  MkAccountPatch None None None None None None None (Some "Archive") None None None None None None None None None None.
Definition access6 : access := ok_or access5 (PatchAccount id (fun _ => true) 100 1 move_folder (Some a_root) access5).
Lemma access5_ok : mailboxes_ok id access5.
Proof.
  intros i m H. apply (lookup_singleton_Some (M := gmap Z) 1 i a_box) in H as [<- <-]. split; [|by vm_compute].
  split; [by vm_compute..|intros t [= <-]; reflexivity|by vm_compute|]. by apply (NormalizeIntakePolicy_ok id None).
Qed.
Lemma moved_ok : PatchAccount id (fun _ => true) 100 1 move_folder (Some a_root) access5 = Ok access6.
Proof. vm_compute. reflexivity. Qed.
Lemma mailboxes_invariant_witness : mailboxes_ok id access6.
Proof.
  apply (mailboxes_invariant id (fun _ => true) access5); [|exact access5_ok]. apply rtc_once. eapply step_change. exact moved_ok.
Defined.
Lemma PatchAccount_exact_witness :
  PatchAccount id (fun _ => true) 100 1 move_folder (Some a_root) access5 = Ok access6 /\
  exists m', email_accounts access6 = {[1 := m']} /\ Folder m' = "Archive" /\ LastUIDSeen m' = 0 /\ CanEnter (dir access5) (ma_OwnerID m') (ma_SystemID m') = true.
Proof.
  split; [exact moved_ok|].
  destruct (PatchAccount_exact id (fun _ => true) _ _ _ _ _ _ access5_ok moved_ok) as (m & m' & Hm & Hm' & _ & _ & _ & _ & He & _ & Hc).
  assert (E : email_accounts access6 !! 1 = Some m') by (rewrite Hm'; apply lookup_insert_eq).
  exists m'. assert (Hv := E). vm_compute in Hv. injection Hv as <-. split; [vm_compute; reflexivity|]. split; [reflexivity|].
  split; [|exact He]. reflexivity.
Defined.
