(* ===== verification/Trash.v ===== *)
(** Trash and permanent deletion ([core/trash/trash.go], [core/api/trash.go], the moves into
    and out of Trash of [core/api/documents.go], [core/api/documents_bulk.go] and
    [core/ingest/fswatch], and the references to documents in the schema).

    A handler decides on a snapshot ([read]) and again inside its write transaction, which
    runs on the tables of that moment.  Times are nanoseconds, as [time.Now] has them; the
    columns hold Unix seconds.  The links of purged documents on disk are the part of
    [RenderJournal]. *)
From S2P Require Import Prelude GoStd Utf8 Sqlite Systems Authz Principal Mailbox Access.
From S2P Require Jobs RenderTarget Approvals.

Definition Retention : Z := 30 * 24 * Jobs.Hour.

(** * Tables *)

Record doc_row : Type := Doc {
  dc_system : Z; dc_owner : Z; dc_blob : string; dc_decrypted : option string; dc_title : string; dc_mime : option string;
  dc_size : Z; dc_created_at : Z; dc_category : Z; dc_asn : option Z; dc_trashed_at : option Z; dc_updated_at : Z;
  dc_previous : option Z; dc_split_parent : option Z; dc_email_parent : option Z;
  dc_split_origin : Z;      (* 0 for none; not a foreign key *)
}.
Record category : Type := Category { ct_system : Z; ct_code : Z; ct_name : string }.
Record value_row : Type := Value { vl_document : Z; vl_field : Z; vl_int : option Z }.
Record audit_row : Type := Audit { ev_system : Z; ev_action : string; ev_kind : string; ev_object : Z }.

Record store : Type := Store {
  base : access;                        (* its [files] are the projection [acc] fills in *)
  docs : gmap Z doc_row;
  jd_categories : gmap Z category;
  object_acls : gmap acl_key acl; groups : gmap Z Group; group_members : gmap (Z * Z) Z;
  jobs : gmap Z Jobs.job;
  runs : gmap Z Approvals.Run; tasks : gmap Z Approvals.Task; transitions : list Approvals.Transition;
  parts : gmap (string * Z) Z;          (* rows of the tables that cascade: table and row id to document_id *)
  observations : gmap string (option Z); (* fs_watch_observations: document_id *)
  custom_values : gmap Z value_row; data_types : gmap Z string;
  passwords : gmap Z (option Z);        (* decryption_passwords: last_used_doc_id *)
  audit_events : list audit_row;
}.
Definition with_docs (f : gmap Z doc_row -> gmap Z doc_row) (s : store) : store :=
  Store (base s) (f (docs s)) (jd_categories s) (object_acls s) (groups s) (group_members s) (jobs s) (runs s) (tasks s)
    (transitions s) (parts s) (observations s) (custom_values s) (data_types s) (passwords s) (audit_events s).
Definition with_jobs (f : gmap Z Jobs.job -> gmap Z Jobs.job) (s : store) : store :=
  Store (base s) (docs s) (jd_categories s) (object_acls s) (groups s) (group_members s) (f (jobs s)) (runs s) (tasks s)
    (transitions s) (parts s) (observations s) (custom_values s) (data_types s) (passwords s) (audit_events s).
Definition with_events (f : list audit_row -> list audit_row) (s : store) : store :=
  Store (base s) (docs s) (jd_categories s) (object_acls s) (groups s) (group_members s) (jobs s) (runs s) (tasks s)
    (transitions s) (parts s) (observations s) (custom_values s) (data_types s) (passwords s) (f (audit_events s)).

Definition trashed (d : doc_row) : bool := bool_decide (is_Some (dc_trashed_at d)).
Definition file_of (d : doc_row) : file_row :=
  File (dc_system d) (dc_owner d) (trashed d) (dc_title d) (dc_mime d) (dc_size d) (dc_blob d) (dc_decrypted d).
(** The same tables as the other parts see them. *)
Definition acc (s : store) : access :=
  Access (dir (base s)) (profiles (base s)) (sessions (base s)) (api_tokens (base s)) (token_seq (base s))
    (mobile_pairings (base s)) (share_links (base s)) (saved_views (base s)) (email_accounts (base s)) (account_seq (base s))
    (file_of <$> docs s).
(** Decisions on documents read no other table of objects. *)
Definition authz_of (s : store) : Authz.db :=
  Authz.DB (dir (base s)) ((fun d => Document (dc_system d) (dc_owner d)) <$> docs s) ∅ ∅ ∅
    (object_acls s) (groups s) (group_members s).
Definition outbox (s : store) : Jobs.store := Jobs.Store (jobs s) (dc_system <$> docs s) [].
Definition flows (s : store) : Approvals.store unit :=
  @Approvals.Store unit (dir (base s)) ∅ ∅ ∅ ∅ (runs s) (tasks s) (transitions s) [] [] 0 0 tt.

(** [Answer] is a handler's status; the others are errors of the service. *)
Inductive trash_error : Type :=
  | Answer (e : access_error) | ErrNotTrashed | ErrInvalidID (id : Z) | ErrBadParams | ErrForeignKey.
#[export] Instance trash_error_eq_dec : EqDecision trash_error.
Proof. solve_decision. Defined.
Definition lift {A} (r : result access_error A) : result trash_error A :=
  match r with Ok x => Ok x | Err e => Err (Answer e) end.
(** A transaction's error as the handlers answer it. *)
Definition answered {A} (r : result trash_error A) : result trash_error A :=
  match r with
  | Ok x => Ok x
  | Err (Answer e) => Err (Answer (serverErr e))
  | Err ErrNotTrashed => Err (Answer (Status 404 "not_found"))
  | Err _ => Err (Answer (Status 500 "internal"))
  end.

(** * Who acts *)

Definition groups_for (s : store) (p : Principal) : list Z :=
  if bool_decide (p_Role p = "admin") then [] else loadGroups (authz_of s) (p_UserID p).
(** [authorize]: the actor and the system selected from here on. *)
Definition authorize (read : store) (query : option (list string)) (p : option Principal) (id want : Z)
    : result trash_error (Principal * Z) :=
  match p with
  | None => Err (Answer (Status 401 "unauthorized"))
  | Some q =>
      selected ← lift (bindRequestSystem (acc read) 0 query p);
      require is_ok (can (authz_of read) (systemPrincipal selected q (groups_for read q)) KindDocument id want)
        else Answer (Status 404 "not_found") in
      if negb (selected =? 0) then Ok (q, selected)
      else match ObjectSystemID (authz_of read) KindDocument id with
           | Ok system => Ok (q, system)
           | Err _ => Err (Answer (Status 404 "not_found"))
           end
  end.
(** [authorized] inside a write transaction. *)
Definition authorized (s : store) (selected : Z) (p : Principal) (id want : Z) : result trash_error bool :=
  match ObjectSystemID (authz_of s) KindDocument id with
  | Err _ => Ok false
  | Ok systemID =>
      match currentWriterPrincipal (acc s) selected (Some p) systemID with
      | Err ErrSystemUnavailable => Ok false
      | Err e => Err (Answer e)
      | Ok q => Ok (is_ok (can (authz_of s) (systemPrincipal selected q (groups_for s q)) KindDocument id want))
      end
  end.

(** * Into Trash and out of it *)

Definition set_trashed (at' : option Z) (updated : Z) (d : doc_row) : doc_row :=
  Doc (dc_system d) (dc_owner d) (dc_blob d) (dc_decrypted d) (dc_title d) (dc_mime d) (dc_size d) (dc_created_at d)
    (dc_category d) (dc_asn d) at' updated (dc_previous d) (dc_split_parent d) (dc_email_parent d) (dc_split_origin d).
(** [UPDATE documents SET] what [f] does [WHERE id IN ids AND which]. *)
Definition update_docs (ids : list Z) (which : doc_row -> bool) (f : doc_row -> doc_row) : store -> store :=
  with_docs (map_imap (fun id d => Some (if bool_decide (id ∈ ids) && which d then f d else d))).
Definition doc_live (d : doc_row) : bool := negb (trashed d).
Definition trash_docs (now : Z) (ids : list Z) : store -> store :=
  update_docs ids doc_live (set_trashed (Some (Jobs.Unix now)) (Jobs.Unix now)).
Definition cutoff (now : Z) : Z := Jobs.Unix (now - Retention).
Definition window_over (c : Z) (d : doc_row) : bool := match dc_trashed_at d with Some t => t <=? c | None => false end.
Definition EnqueueMove (now id : Z) (s : store) : result trash_error store :=
  match RenderTarget.EnqueueMove now id ((fun d => (dc_system d, trashed d)) <$> docs s !! id) (outbox s) with
  | None => Err (Answer ErrNoRows)
  | Some (Err _) => Err (Answer (ErrConstraint "jobs"))
  | Some (Ok o) => Ok (with_jobs (const (Jobs.jobs o)) s)
  end.
Fixpoint EnqueueMoves (now : Z) (ids : list Z) (s : store) : result trash_error store :=
  match ids with [] => Ok s | id :: ids => s ← EnqueueMove now id s; EnqueueMoves now ids s end.

Definition SoftDeleteDocument (now : Z) (read s : store) (query : option (list string)) (p : option Principal) (id : Z)
    : result trash_error store :=
  _ ← lift (requireScope p ScopeDocumentsWrite);
  '(q, selected) ← authorize read query p id PermDelete;
  answered
    (allowed ← authorized s selected q id PermDelete;
     require (allowed : bool) else Answer ErrSystemUnavailable in
     match docs s !! id with
     | Some d => if doc_live d then Ok (trash_docs now [id] s) else Err (Answer (Status 404 "not_found"))
     | None => Err (Answer (Status 404 "not_found"))
     end).
(** The number of rows changed, and the tables. *)
Definition restore_tx (now id : Z) (s : store) : result trash_error (Z * store) :=
  match docs s !! id with
  | Some d =>
      if trashed d && negb (window_over (cutoff now) d) then
        s ← EnqueueMove now id (update_docs [id] trashed (set_trashed None (Jobs.Unix now)) s); Ok (1, s)
      else Ok (0, s)
  | None => Ok (0, s)
  end.
Definition RestoreDocument (now : Z) (read s : store) (query : option (list string)) (p : option Principal) (id : Z)
    : result trash_error (Z * store) :=
  _ ← lift (requireScope p ScopeDocumentsWrite);
  '(q, selected) ← authorize read query p id PermChange;
  '(affected, s) ← answered
    (allowed ← authorized s selected q id PermChange;
     require (allowed : bool) else Answer ErrSystemUnavailable in restore_tx now id s);
  if affected =? 0 then
    match docs s !! id with
    | None => Err (Answer (Status 404 "not_found"))
    | Some d => if window_over (cutoff now) d then Err (Answer (Status 404 "not_found")) else Ok (0, s)
    end
  else Ok (affected, s).
(** The cases of [applyBulkEdit] for documents the caller may change. *)
Definition bulk_trash (now : Z) (ids : list Z) (s : store) : result trash_error store := Ok (trash_docs now ids s).
Definition bulk_restore (now : Z) (ids : list Z) (s : store) : result trash_error store :=
  fail_if existsb (fun id => match docs s !! id with Some d => window_over (cutoff now) d | None => false end) ids
    with ErrBadParams in
  EnqueueMoves now ids (update_docs ids trashed (set_trashed None (Jobs.Unix now)) s).

(** ** What arriving bytes meet *)

Definition same_bytes (system owner : Z) (blob : string) (d : doc_row) : Prop :=
  dc_system d = system /\ dc_owner d = owner /\ dc_blob d = blob.
(** A row of the largest [trashed_at] among those [P] holds of; SQL leaves ties open. *)
Definition newest_row (P : Z -> doc_row -> Prop) (s : store) (id : Z) : Prop :=
  exists d t, docs s !! id = Some d /\ P id d /\ dc_trashed_at d = Some t /\
    forall j e u, docs s !! j = Some e -> P j e -> dc_trashed_at e = Some u -> u <= t.
Definition split_children (s : store) (id : Z) : gmap Z doc_row := filter (fun x => dc_split_origin x.2 = id) (docs s).
Definition split_origin (system owner : Z) (blob : string) (s : store) (id : Z) (d : doc_row) : Prop :=
  same_bytes system owner blob d /\ split_children s id <> ∅.
Inductive upload_outcome : Type := OriginKept (id : Z) | OriginRefused | LiveKept (id : Z) | Undeleted (id : Z) | NewDocument.
(** [bound] is the upload handler's cutoff; the folder watcher has none, and keeps an origin
    whose children are in Trash. *)
Inductive meets (bound : option Z) (system owner : Z) (blob : string) (s : store) : upload_outcome -> Prop :=
  | meets_origin id :
      newest_row (split_origin system owner blob s) s id ->
      meets bound system owner blob s
        (if bool_decide (is_Some bound) && exists_row (fun _ d => trashed d) (split_children s id) then OriginRefused
         else OriginKept id)
  | meets_live id d :
      (forall j, ~ newest_row (split_origin system owner blob s) s j) ->
      docs s !! id = Some d -> same_bytes system owner blob d -> dc_trashed_at d = None ->
      meets bound system owner blob s (LiveKept id)
  | meets_trashed id :
      (forall j, ~ newest_row (split_origin system owner blob s) s j) ->
      (forall j d, docs s !! j = Some d -> same_bytes system owner blob d -> trashed d = true) ->
      newest_row (fun _ d => same_bytes system owner blob d /\
        match bound, dc_trashed_at d with Some c, Some t => c < t | _, _ => True end) s id ->
      meets bound system owner blob s (Undeleted id)
  | meets_nothing :
      (forall j d, docs s !! j = Some d -> same_bytes system owner blob d ->
        split_children s j = ∅ /\ exists t c, dc_trashed_at d = Some t /\ bound = Some c /\ t <= c) ->
      meets bound system owner blob s NewDocument.
(** What the match does to the row it found. *)
Definition undelete (now id : Z) (s : store) : result trash_error store :=
  EnqueueMove now id (update_docs [id] (const true) (set_trashed None (Jobs.Unix now)) s).

(** * Permanent deletion *)

(** [Principal] of the purge, from the account and the credential as they are now. *)
Definition purge_principal (s : store) (systemID : Z) (actor : Principal) : result trash_error Authz.Principal :=
  match active_role (acc s) (p_UserID actor) with
  | None => Err ErrNotTrashed
  | Some role =>
      let bound := tokenSystemID (Some actor) in
      require (p_TokenID actor =? 0) || match live_token (acc s) (p_TokenID actor) (p_UserID actor) with
                                        | Some t => tk_system t =? bound | None => false end else ErrNotTrashed in
      Ok (Authz.MkPrincipal (p_UserID actor) role (p_Kind actor)
            (if bool_decide (role = "admin") then [] else loadGroups (authz_of s) (p_UserID actor)) systemID bound)
  end.

Record purgeFilter : Type := PurgeFilter { pf_system : Z; pf_ids : option (list Z); pf_cutoff : option Z }.
Definition selects (f : purgeFilter) (id : Z) (d : doc_row) : bool :=
  trashed d && ((pf_system f =? 0) || (dc_system d =? pf_system f))
  && match pf_ids f with Some ids => bool_decide (id ∈ ids) | None => true end
  && match pf_cutoff f with Some c => window_over c d | None => true end.
Definition purge_candidates (f : purgeFilter) (s : store) : list Z :=
  merge_sort Z.le (fst <$> filter (fun x => selects f x.1 x.2 = true) (map_to_list (docs s))).

(** ** The statements, a table each *)
Definition purge_acls (ids : list Z) : gmap acl_key acl -> gmap acl_key acl :=
  filter (fun x => let '(kind, object, _, _) := x.1 in ~ (kind = KindDocument /\ object ∈ ids)).
Definition among (ids : list Z) (o : option Z) : bool := match o with Some id => bool_decide (id ∈ ids) | None => false end.
Definition forget (ids : list Z) (o : option Z) : option Z := if among ids o then None else o.
Definition purge_links (ids : list Z) : gmap Z link_row -> gmap Z link_row :=
  filter (fun x => Forall (fun id => id ∉ ids) (sl_docs x.2)).
Definition purge_events (ids : list Z) : list audit_row -> list audit_row :=
  filter (fun e => ~ (ev_kind e = "document" /\ ev_object e ∈ ids)).
Definition purge_targets (types : gmap Z string) (ids : list Z) : gmap Z value_row -> gmap Z value_row :=
  filter (fun x => among ids (vl_int x.2) && bool_decide (types !! vl_field x.2 = Some "documentlink") = false).
(** [DELETE FROM documents WHERE trashed_at IS NOT NULL AND id IN ids], with what the
    foreign keys make of the rows that refer to the deleted ones. *)
Definition doomed (ids : list Z) (s : store) : list Z :=
  filter (fun id => match docs s !! id with Some d => trashed d | None => false end = true) ids.
Definition unlink (ids : list Z) (d : doc_row) : doc_row :=
  Doc (dc_system d) (dc_owner d) (dc_blob d) (dc_decrypted d) (dc_title d) (dc_mime d) (dc_size d) (dc_created_at d)
    (dc_category d) (dc_asn d) (dc_trashed_at d) (dc_updated_at d)
    (forget ids (dc_previous d)) (forget ids (dc_split_parent d)) (forget ids (dc_email_parent d)) (dc_split_origin d).
Definition purge_docs (ids : list Z) (m : gmap Z doc_row) : gmap Z doc_row := unlink ids <$> filter (fun x => x.1 ∉ ids) m.
Definition delete_documents (ids : list Z) (s : store) : result trash_error store :=
  let ids := doomed ids s in
  fail_if exists_row (fun _ r => among ids (Approvals.DocID r)) (runs s) with ErrForeignKey in
  Ok (Store (base s) (purge_docs ids (docs s)) (jd_categories s) (object_acls s) (groups s) (group_members s) (jobs s) (runs s)
        (tasks s) (transitions s) (filter (fun x => x.2 ∉ ids) (parts s)) (forget ids <$> observations s)
        (filter (fun x => vl_document x.2 ∉ ids) (custom_values s)) (data_types s) (passwords s) (audit_events s)).
(** The statements before it. *)
Definition delete_references (ids : list Z) (s : store) : store :=
  let flows' := Approvals.purge_runs ids (flows s) in
  Store (with_links (purge_links ids) (base s)) (docs s) (jd_categories s) (purge_acls ids (object_acls s)) (groups s)
    (group_members s) (Jobs.jobs (Jobs.purge_jobs ids (outbox s))) (Approvals.runs flows') (Approvals.tasks flows')
    (Approvals.transitions flows') (parts s) (observations s) (purge_targets (data_types s) ids (custom_values s)) (data_types s)
    (forget ids <$> passwords s) (purge_events ids (audit_events s)).

(** The audit rows of a purge, written after it has committed. *)
Definition log_purged (before : gmap Z doc_row) (ids : list Z) : store -> store :=
  with_events (fun l => l ++ ((fun id => Audit (default 0 (dc_system <$> before !! id)) "document.purge" "document" id) <$> ids)).
Definition allowed_all (s : store) (p : Authz.Principal) (ids : list Z) : bool :=
  forallb (fun id => default false (canDocuments (authz_of s) p ids PermDelete !! id)) ids.
(** [purge]: the number of documents deleted. *)
Definition purge (f : purgeFilter) (actor : option Principal) (s : store) : result trash_error (Z * store) :=
  match purge_candidates f s with
  | [] => Ok (0, s)
  | ids =>
      _ ← match actor with
          | None => Ok tt
          | Some a =>
              p ← purge_principal s (pf_system f) a;
              require allowed_all s p ids else ErrNotTrashed in Ok tt
          end;
      s' ← delete_documents ids (delete_references ids s);
      Ok (Z.of_nat (length ids), log_purged (docs s) ids s')
  end.

Definition PurgeIDs (systemID : Z) (ids : list Z) (actor : option Principal) (s : store) : result trash_error (Z * store) :=
  fail_if (systemID <=? 0) || bool_decide (actor = None) with ErrNotTrashed in
  match ids, filter (fun id => id <= 0) ids with   (* of a list that is sent as a set *)
  | [], _ => Ok (0, s)
  | _, id :: _ => Err (ErrInvalidID id)
  | _, [] => purge (PurgeFilter systemID (Some (remove_dups ids)) None) actor s
  end.
Definition PurgeOne (systemID id : Z) (actor : option Principal) (s : store) : result trash_error (Z * store) :=
  fail_if id <=? 0 with ErrNotTrashed in
  '(n, s) ← PurgeIDs systemID [id] actor s;
  fail_if n =? 0 with ErrNotTrashed in Ok (n, s).
Definition PurgeExpired (now : Z) : store -> result trash_error (Z * store) :=
  purge (PurgeFilter 0 None (Some (cutoff now))) None.

(** * Requests *)

Definition PurgeTrashDocument (read s : store) (query : option (list string)) (p : option Principal) (id : Z)
    : result trash_error (Z * store) :=
  _ ← lift (requireScope p ScopeDocumentsWrite);
  '(q, selected) ← authorize read query p id PermDelete;
  answered (PurgeOne selected id (Some q) s).

(** [SELECT d.id FROM documents d WHERE d.trashed_at IS NOT NULL AND visibility]. *)
Definition visible_trash (s : store) (c : clause) : list Z :=
  fst <$> filter (fun x => trashed x.2 && holds (authz_of s) (Row x.1 (dc_system x.2) (Some (dc_owner x.2))) c = true)
            (map_to_list (docs s)).
(** [EmptyTrash]: what the snapshot shows and lets the caller delete. *)
Definition emptied (read : store) (systemID : Z) (q : Principal) : list Z :=
  let actor := systemPrincipal systemID q (groups_for read q) in
  let ids := visible_trash read (DocVisibilityWhereAlias actor (collectionSystemID systemID (Some q))) in
  filter (fun id => canDocuments (authz_of read) actor ids PermDelete !! id = Some true) ids.
Definition EmptyTrash (read s : store) (query : option (list string)) (p : option Principal) : result trash_error (Z * store) :=
  q ← lift (requireScope p ScopeDocumentsWrite);
  systemID ← lift (requireSystem (acc read) 0 query p);
  answered (PurgeIDs systemID (emptied read systemID q) (Some q) s).

Record PageParams : Type := Page { pg_page : Z; pg_size : Z }.
(** The integers are what [strconv.Atoi] returns, errors and all. *)
Definition ParsePageParams (page size default_size max_size : Z) : PageParams :=
  let size := if size <? 1 then default_size else size in
  Page (if page <? 1 then 1 else page) (if max_size <? size then max_size else size).
Definition Offset (p : PageParams) : Z := wrap_i64 ((pg_page p - 1) * pg_size p).

Record TrashRow : Type := MkTrashRow {
  tr_ID : Z; tr_Title : string; tr_MIME : string; tr_Size : Z; tr_CreatedAt : Z; tr_TrashedAt : Z; tr_DeletesAt : Z;
  tr_Code : Z; tr_Name : string; tr_Address : string; tr_ASN : option Z;
}.
Definition trash_row (s : store) (x : Z * doc_row) : TrashRow :=
  let d := x.2 in
  let c := match jd_categories s !! dc_category d with
           | Some c => if ct_system c =? dc_system d then Some c else None | None => None end in
  let system := default "" (code <$> jd_systems (dir (base s)) !! dc_system d) in
  let at' := default 0 (dc_trashed_at d) in
  MkTrashRow x.1 (dc_title d) (default "" (dc_mime d)) (dc_size d) (dc_created_at d) at' (at' + Retention / 1000000000)
    (default 0 (ct_code <$> c)) (default "" (ct_name <$> c))
    (match c with Some c => Address system (ct_code c) | None => "" end) (dc_asn d).
Definition trashed_later (x y : Z * doc_row) : Prop :=
  default 0 (dc_trashed_at y.2) < default 0 (dc_trashed_at x.2) \/
  default 0 (dc_trashed_at y.2) = default 0 (dc_trashed_at x.2) /\ y.1 <= x.1.
#[export] Instance newer_dec x y : Decision (trashed_later x y).
Proof. unfold trashed_later. apply _. Defined.
Definition listed (systemID : Z) (q : Principal) (d : doc_row) : bool :=
  trashed d && (dc_system d =? systemID) && (bool_decide (p_Role q = "admin") || (dc_owner d =? p_UserID q)).
(** The total, and the rows of the page; a negative OFFSET is none. *)
Definition ListTrash (s : store) (query : option (list string)) (p : option Principal) (page size : Z)
    : result trash_error (Z * list TrashRow) :=
  match p with
  | None => Err (Answer (Status 401 "unauthorized"))
  | Some q =>
      systemID ← lift (requireSystem (acc s) 0 query p);
      let rows := filter (fun x => listed systemID q x.2 = true) (map_to_list (docs s)) in
      let pp := ParsePageParams page size 50 200 in
      Ok (Z.of_nat (length rows),
          trash_row s <$> take (Z.to_nat (pg_size pp)) (drop (Z.to_nat (Offset pp)) (merge_sort trashed_later rows)))
  end.
