(* ===== verification/TrashFacts.v ===== *)
(** The tables of [Trash]: which rows name a document, what moves into Trash and out of it
    leave, and what a purge leaves of each table. *)
From S2P Require Import Prelude GoStd Utf8 Sqlite Systems Authz AuthzFacts Principal Mailbox Access Trash.
From S2P Require Jobs RenderTarget Approvals.

(** * References *)

(** A row names a document.  Audit rows are the record of what is gone, and [split_origin_id]
    outlives its target. *)
Inductive names_document (s : store) (id : Z) : Prop :=
  | names_part k : parts s !! k = Some id -> names_document s id
  | names_value i v : custom_values s !! i = Some v -> vl_document v = id -> names_document s id
  | names_target i v : custom_values s !! i = Some v -> vl_int v = Some id ->
      data_types s !! vl_field v = Some "documentlink" -> names_document s id
  | names_acl pk pid a : object_acls s !! (KindDocument, id, pk, pid) = Some a -> names_document s id
  | names_job i j : jobs s !! i = Some j -> Jobs.j_doc_id j = Some id -> names_document s id
  | names_run i r : runs s !! i = Some r -> Approvals.DocID r = Some id -> names_document s id
  | names_link i l : share_links (base s) !! i = Some l -> id ∈ sl_docs l -> names_document s id
  | names_password i : passwords s !! i = Some (Some id) -> names_document s id
  | names_observation k : observations s !! k = Some (Some id) -> names_document s id
  | names_relative i d : docs s !! i = Some d ->
      dc_previous d = Some id \/ dc_split_parent d = Some id \/ dc_email_parent d = Some id -> names_document s id.

Record trash_wf (s : store) : Prop := {
  tw_ids : forall id d, docs s !! id = Some d -> 0 < id /\ 0 < dc_system d;
  tw_names : forall id, names_document s id -> is_Some (docs s !! id);
  tw_jobs : forall i j id, jobs s !! i = Some j -> Jobs.j_doc_id j = Some id ->
    Jobs.j_system_id j = dc_system <$> docs s !! id;
  tw_tasks : forall i t, tasks s !! i = Some t -> is_Some (runs s !! Approvals.RunID t);
}.

(** * Trash *)

(** [t] has the rows of [s] under their ids, with the columns a document keeps for good. *)
Definition same_rows (s t : store) : Prop :=
  (forall id, docs s !! id = None -> docs t !! id = None) /\
  forall id d, docs s !! id = Some d -> exists at' u, docs t !! id = Some (set_trashed at' u d).
Lemma trashed_true d : trashed d = true <-> exists t, dc_trashed_at d = Some t.
Proof. unfold trashed. rewrite bool_decide_eq_true. split; intros [t H]; by exists t. Qed.
Lemma set_trashed_twice a u b v d : set_trashed b v (set_trashed a u d) = set_trashed b v d.
Proof. done. Qed.
Lemma set_trashed_same d : set_trashed (dc_trashed_at d) (dc_updated_at d) d = d.
Proof. by destruct d. Qed.
Lemma same_rows_refl s : same_rows s s.
Proof. split; [done|]. intros id d Hd. eexists _, _. by rewrite set_trashed_same. Qed.
Lemma same_rows_trans s t u : same_rows s t -> same_rows t u -> same_rows s u.
Proof.
  intros [N1 S1] [N2 S2]. split; [auto|]. intros id d Hd. destruct (S1 _ _ Hd) as (a & v & Ht).
  destruct (S2 _ _ Ht) as (b & w & Hu). exists b, w. by rewrite Hu, set_trashed_twice.
Qed.

Lemma update_docs_lookup ids which f s id :
  docs (update_docs ids which f s) !! id =
  (fun d => if bool_decide (id ∈ ids) && which d then f d else d) <$> docs s !! id.
Proof. cbn. rewrite map_lookup_imap. by destruct (docs s !! id). Qed.
Lemma update_docs_rows ids which at' u s : same_rows s (update_docs ids which (set_trashed at' u) s).
Proof.
  split; intros id; [|intros d]; rewrite update_docs_lookup; intros ->; [done|]. cbn.
  destruct (_ && _); eexists _, _; [done|by rewrite set_trashed_same].
Qed.
(** Everything but [docs] and [jobs] is as it was. *)
Definition same_rest (s t : store) : Prop :=
  t = with_docs (const (docs t)) (with_jobs (const (jobs t)) s).
Lemma same_rest_refl s : same_rest s s.
Proof. by destruct s. Qed.
Lemma same_rest_trans s t u : same_rest s t -> same_rest t u -> same_rest s u.
Proof. unfold same_rest. intros Ht Hu. rewrite Hu, Ht. by destruct u. Qed.

(** Moves keep the references. *)
Definition fresh_jobs (s t : store) : Prop :=
  forall i j, jobs t !! i = Some j -> jobs s !! i = Some j \/
    exists id d, docs t !! id = Some d /\ Jobs.j_doc_id j = Some id /\ Jobs.j_system_id j = Some (dc_system d).
Record relocated (s t : store) : Prop := { mv_rest : same_rest s t; mv_rows : same_rows s t; mv_jobs : fresh_jobs s t }.

Lemma moved_refl s : relocated s s.
Proof. split; [apply same_rest_refl|apply same_rows_refl|]. intros i j Hj. by left. Qed.
Lemma moved_trans s t u : relocated s t -> relocated t u -> relocated s u.
Proof.
  intros [R1 W1 J1] [R2 W2 J2].
  split; [by eapply same_rest_trans|by eapply same_rows_trans|].
  intros i j [Hj|H]%J2; [|by right]. destruct (J1 _ _ Hj) as [H|(id & d & Hd & H1 & H2)]; [by left|right].
  destruct (proj2 W2 _ _ Hd) as (a & v & Hu). by exists id, (set_trashed a v d).
Qed.
Lemma moved_update ids which at' u s : relocated s (update_docs ids which (set_trashed at' u) s).
Proof. split; [by destruct s|apply update_docs_rows|]. intros i j Hj. by left. Qed.
Lemma moved_trash now ids s : relocated s (trash_docs now ids s).
Proof. exact (moved_update ids doc_live _ _ s). Qed.

Lemma EnqueueMove_Ok now id s t :
  EnqueueMove now id s = Ok t ->
  exists d, docs s !! id = Some d /\
    if trashed d then t = s
    else jobs t = <[next_rowid (jobs s) := Jobs.Job "render" (Jobs.nullInt64 id) (Jobs.nullInt64 (dc_system d)) "{}" Jobs.Pending 0
                     (Jobs.Unix now) None (Jobs.Unix now) (Jobs.Unix now)]> (jobs s) /\
         same_rest s t /\ docs t = docs s.
Proof.
  unfold EnqueueMove, RenderTarget.EnqueueMove. destruct (docs s !! id) as [d|]; cbn [fmap option_fmap option_map]; [|done].
  destruct (trashed d) eqn:Et; intros H; exists d; (split; [done|]); rewrite Et.
  - injection H as <-. by destruct s.
  - destruct (Jobs.Enqueue _ _ _ _ _ _) as [o|] eqn:Eq; [|done]. injection H as <-.
    unfold Jobs.Enqueue in Eq. guards_in Eq. injection Eq as <-. split; [done|]. split; [by destruct s|done].
Qed.
Lemma EnqueueMove_total now id s d :
  trash_wf s -> docs s !! id = Some d -> exists t, EnqueueMove now id s = Ok t.
Proof.
  intros W Hd. unfold EnqueueMove, RenderTarget.EnqueueMove. rewrite Hd. cbn [fmap option_fmap option_map].
  destruct (trashed d); [by eexists|]. unfold Jobs.Enqueue. destruct (tw_ids _ W _ _ Hd).
  rewrite (proj2 (Z.ltb_ge id 0)), (proj2 (Z.ltb_ge (dc_system d) 0)), (proj2 (Z.eqb_neq (dc_system d) 0)), andb_false_r by lia.
  cbn. rewrite lookup_fmap, Hd. cbn. rewrite bool_decide_true by done. rewrite orb_true_r. by eexists.
Qed.
Lemma moved_enqueue now id s t : trash_wf s -> EnqueueMove now id s = Ok t -> relocated s t.
Proof.
  intros W (d & Hd & H)%EnqueueMove_Ok. destruct (trashed d); [subst; apply moved_refl|].
  destruct H as (Hj & Hr & Hs). destruct (tw_ids _ W _ _ Hd).
  split; [done|unfold same_rows; rewrite Hs; apply same_rows_refl|].
  intros i j. rewrite Hj. intros [[<- <-]|[_ ?]]%lookup_insert_Some; [right|by left]. exists id, d. rewrite Hs. cbn.
  unfold Jobs.nullInt64. by rewrite !(proj2 (Z.eqb_neq _ 0)) by lia.
Qed.

(** A row names in [t] what it named in [s], or it is a job of a document. *)
Lemma moved_names s t id : relocated s t -> names_document t id -> names_document s id \/ is_Some (docs t !! id).
Proof.
  intros [R W J] N. pose proof R as E. unfold same_rest in E.
  destruct N as [k H|i v H H1|i v H H1 H2|pk pid a H|i j H H1|i r H H1|i l H H1|i H|k H|i d H H1].
  all: try (rewrite E in H; cbn in H). all: try (rewrite E in H2; cbn in H2).
  - left. by eapply names_part.
  - left. by eapply names_value.
  - left. by eapply names_target.
  - left. by eapply names_acl.
  - destruct (J _ _ H) as [Hj|(id' & d & Hd & Hi & _)]; [left; by eapply names_job|].
    right. rewrite H1 in Hi. injection Hi as <-. by eexists.
  - left. by eapply names_run.
  - left. by eapply names_link.
  - left. by eapply names_password.
  - left. by eapply names_observation.
  - left. destruct (docs s !! i) as [d0|] eqn:Ed; [|by rewrite (proj1 W _ Ed) in H].
    destruct (proj2 W _ _ Ed) as (a & u & Hd). rewrite H in Hd. injection Hd as ->. by eapply names_relative.
Qed.
Lemma moved_wf s t : trash_wf s -> relocated s t -> trash_wf t.
Proof.
  intros W M. pose proof M as [R [W0 W1] J].
  assert (B : forall id, is_Some (docs s !! id) -> is_Some (docs t !! id)).
  { intros id [d Hd]. destruct (W1 _ _ Hd) as (a & u & H). by rewrite H. }
  assert (S : forall id, dc_system <$> docs t !! id = dc_system <$> docs s !! id).
  { intros id. destruct (docs s !! id) as [d|] eqn:Ed; [|by rewrite (W0 _ Ed)].
    destruct (W1 _ _ Ed) as (a & u & H). by rewrite H. }
  split.
  - intros id d Hd. specialize (S id). rewrite Hd in S. destruct (docs s !! id) as [d0|] eqn:Ed; [|done].
    injection S as E. destruct (tw_ids _ W _ _ Ed). by rewrite E.
  - intros id [N|N]%(moved_names _ _ _ M); [|done]. by apply B, (tw_names _ W).
  - intros i j id Hj Hi. destruct (J _ _ Hj) as [H|(id' & d & Hd & Hi' & H)].
    + rewrite S. by eapply (tw_jobs _ W).
    + rewrite Hi in Hi'. injection Hi' as <-. by rewrite H, Hd.
  - unfold same_rest in R. rewrite R. cbn. apply (tw_tasks _ W).
Qed.

Lemma moved_EnqueueMoves now ids : forall s t, trash_wf s -> EnqueueMoves now ids s = Ok t -> relocated s t.
Proof.
  induction ids as [|id ids IH]; cbn; intros s t W H; [injection H as <-; apply moved_refl|].
  inv_ok H. pose proof (moved_enqueue _ _ _ _ W Ha) as M. eapply moved_trans; [done|]. apply IH; [by eapply moved_wf|done].
Qed.

(** * Purges *)

Lemma filter_none {A} (P : A -> Prop) `{!forall x, Decision (P x)} (l : list A) : (forall x, x ∈ l -> ~ P x) -> filter P l = [].
Proof.
  induction l as [|x l IH]; [done|]. intros N. rewrite filter_cons, decide_False by apply N, list_elem_of_here.
  apply IH. intros y Hy. by apply N, list_elem_of_further.
Qed.

Lemma among_true ids o : among ids o = true <-> exists id, o = Some id /\ id ∈ ids.
Proof. destruct o as [id|]; cbn; [rewrite bool_decide_eq_true|]; naive_solver. Qed.
Lemma among_Some ids id : among ids (Some id) = bool_decide (id ∈ ids).
Proof. done. Qed.
Lemma forget_Some ids o id : forget ids o = Some id <-> o = Some id /\ id ∉ ids.
Proof.
  unfold forget. destruct (among ids o) eqn:E.
  - apply among_true in E as (x & -> & Hx). naive_solver.
  - split; [|by intros [-> _]]. intros ->. split; [done|]. rewrite among_Some in E. by apply bool_decide_eq_false in E.
Qed.
Lemma purged_runs ids s i r :
  runs (delete_references ids s) !! i = Some r <-> runs s !! i = Some r /\ among ids (Approvals.DocID r) = false.
Proof. cbn. by rewrite map_lookup_filter_Some. Qed.
Lemma purged_tasks ids s i t :
  tasks (delete_references ids s) !! i = Some t -> tasks s !! i = Some t /\
  (is_Some (runs s !! Approvals.RunID t) -> is_Some (runs (delete_references ids s) !! Approvals.RunID t)).
Proof.
  cbn. intros [Ht Hg]%map_lookup_filter_Some. split; [done|]. intros [r Hr]. cbn in Hg. rewrite Hr in Hg.
  exists r. by apply map_lookup_filter_Some.
Qed.
Lemma doomed_all ids s :
  (forall id, id ∈ ids -> exists d, docs s !! id = Some d /\ trashed d = true) -> doomed ids s = ids.
Proof.
  intros H. induction ids as [|id ids IH]; [done|]. unfold doomed in *. rewrite filter_cons.
  destruct (H id) as (d & Hd & Ht); [by apply list_elem_of_here|]. rewrite Hd. rewrite decide_True by done.
  f_equal. apply IH. intros x Hx. apply H. by apply list_elem_of_further.
Qed.

(** What a purge of [ids] leaves of each table. *)
Definition erased (ids : list Z) (s : store) : store :=
  let t := delete_references ids s in
  Store (base t) (purge_docs ids (docs t)) (jd_categories t) (object_acls t) (groups t) (group_members t) (jobs t) (runs t)
    (tasks t) (transitions t) (filter (fun x => x.2 ∉ ids) (parts t)) (forget ids <$> observations t)
    (filter (fun x => vl_document x.2 ∉ ids) (custom_values t)) (data_types t) (passwords t) (audit_events t).
(** The foreign key of the runs never blocks: the runs are deleted first. *)
Lemma delete_documents_erased ids s :
  (forall id, id ∈ ids -> exists d, docs s !! id = Some d /\ trashed d = true) ->
  delete_documents ids (delete_references ids s) = Ok (erased ids s).
Proof.
  intros H. unfold delete_documents. replace (doomed ids (delete_references ids s)) with ids.
  2: { symmetry. by apply doomed_all. }
  destruct (exists_row _ _) eqn:E; [|done].
  apply exists_row_spec in E as (i & r & Hr & Ha). apply purged_runs in Hr as [_ Hr]. congruence.
Qed.

Lemma erased_docs ids s id : docs (erased ids s) !! id = if bool_decide (id ∈ ids) then None else unlink ids <$> docs s !! id.
Proof.
  cbn. unfold purge_docs. rewrite lookup_fmap. destruct (decide (id ∈ ids)) as [Hi|Hi].
  - rewrite bool_decide_eq_true_2 by done. rewrite map_lookup_filter_None_2; [done|]. right. intros d _ H. by apply H.
  - rewrite bool_decide_eq_false_2 by done. destruct (docs s !! id) as [d|] eqn:E.
    + by rewrite (map_lookup_filter_Some_2 _ _ _ d).
    + rewrite map_lookup_filter_None_2; [done|by left].
Qed.
Lemma erased_Some ids s id d :
  docs (erased ids s) !! id = Some d <-> id ∉ ids /\ exists d0, docs s !! id = Some d0 /\ d = unlink ids d0.
Proof. rewrite erased_docs. case_bool_decide; [naive_solver|]. rewrite fmap_Some. naive_solver. Qed.
(** No row names a purged document, and no row gains a name. *)
Lemma erased_names ids s id : names_document (erased ids s) id -> names_document s id /\ id ∉ ids.
Proof.
  intros N. destruct N as [k H|i v H H1|i v H H1 H2|pk pid a H|i j H H1|i r H H1|i l H H1|i H|k H|i d H H1].
  - cbn in H. apply map_lookup_filter_Some in H as [H Hn]. split; [by eapply names_part|done].
  - cbn in H. apply map_lookup_filter_Some in H as [[H _]%map_lookup_filter_Some Hn]. subst. split; [by eapply names_value|done].
  - cbn in H, H2. apply map_lookup_filter_Some in H as [[H Ht]%map_lookup_filter_Some _].
    split; [by eapply names_target|]. intros Hi. cbn in Ht.
    rewrite H1, among_Some, !bool_decide_eq_true_2 in Ht by done. done.
  - cbn in H. apply map_lookup_filter_Some in H as [H Hn]. cbn in Hn. split; [by eapply names_acl|tauto].
  - cbn in H. apply map_lookup_filter_Some in H as [H Hn]. cbn in Hn. rewrite H1 in Hn.
    split; [by eapply names_job|]. by apply bool_decide_eq_false in Hn.
  - apply purged_runs in H as [H Hn]. rewrite H1, among_Some in Hn.
    split; [by eapply names_run|]. by apply bool_decide_eq_false in Hn.
  - cbn in H. apply map_lookup_filter_Some in H as [H Hn]. split; [by eapply names_link|]. cbn in Hn.
    by eapply (proj1 (Forall_forall _ _) Hn).
  - cbn in H. apply lookup_fmap_Some in H as (o & [Ho Hn]%forget_Some & H). subst. split; [by eapply names_password|done].
  - cbn in H. apply lookup_fmap_Some in H as (o & [Ho Hn]%forget_Some & H). subst. split; [by eapply names_observation|done].
  - apply erased_Some in H as (_ & d0 & H & ->). cbn in H1. rewrite !forget_Some in H1. split; [|tauto].
    eapply names_relative; [done|tauto].
Qed.
Lemma erased_wf ids s : trash_wf s -> trash_wf (erased ids s).
Proof.
  intros W. split.
  - intros id d (_ & d0 & H & ->)%erased_Some. by apply (tw_ids _ W) in H.
  - intros id [N Hi]%erased_names. destruct (tw_names _ W _ N) as [d Hd]. rewrite erased_docs, bool_decide_eq_false_2, Hd by done. by eexists.
  - intros i j id Hj Hi. assert (Hn : id ∉ ids) by (eapply erased_names; by eapply names_job).
    rewrite erased_docs, bool_decide_eq_false_2 by done. cbn in Hj. apply map_lookup_filter_Some in Hj as [Hj _].
    rewrite (tw_jobs _ W _ _ _ Hj Hi). by destruct (docs s !! id).
  - intros i t Ht. cbn [erased tasks runs] in *. destruct (purged_tasks ids s i t Ht) as [H1 H2].
    apply H2. by apply (tw_tasks _ W) in H1.
Qed.

(** ** Which documents, and by whom *)

Lemma candidates_in f s id : id ∈ purge_candidates f s <-> exists d, docs s !! id = Some d /\ selects f id d = true.
Proof.
  unfold purge_candidates. rewrite merge_sort_Permutation, list_elem_of_fmap. split.
  - intros ([id' d] & -> & [Hs Hm]%list_elem_of_filter). apply elem_of_map_to_list in Hm. by exists d.
  - intros (d & Hd & Hs). exists (id, d). split; [done|]. apply list_elem_of_filter. split; [done|]. by apply elem_of_map_to_list.
Qed.
Lemma candidates_NoDup f s : NoDup (purge_candidates f s).
Proof.
  unfold purge_candidates. rewrite merge_sort_Permutation. eapply sublist_NoDup; [apply (NoDup_fst_map_to_list (docs s))|apply fmap_sublist, sublist_filter].
Qed.
Lemma selects_trashed f id d : selects f id d = true -> trashed d = true.
Proof. unfold selects. intros. by bool_simpl. Qed.

(** The account and the credential are live, and [can] grants the deletion to the role and
    the groups of now. *)
Definition live_credential (s : store) (actor : Principal) : Prop :=
  p_TokenID actor = 0 \/
  exists t, api_tokens (base s) !! p_TokenID actor = Some t /\ tk_user t = p_UserID actor /\ tk_revoked_at t = None /\
    tk_system t = tokenSystemID (Some actor).
Definition acting (s : store) (systemID : Z) (actor : Principal) (role : string) : Authz.Principal :=
  Authz.MkPrincipal (p_UserID actor) role (p_Kind actor)
    (if bool_decide (role = "admin") then [] else loadGroups (authz_of s) (p_UserID actor)) systemID (tokenSystemID (Some actor)).
Definition may_delete (s : store) (systemID : Z) (actor : Principal) (id : Z) : Prop :=
  exists u, users (dir (base s)) !! p_UserID actor = Some u /\ u_disabled u = false /\ live_credential s actor /\
    can (authz_of s) (acting s systemID actor (u_role u)) KindDocument id PermDelete = Ok tt.

Lemma live_token_spec s a :
  (p_TokenID a =? 0) || match live_token (acc s) (p_TokenID a) (p_UserID a) with
                        | Some t => tk_system t =? tokenSystemID (Some a) | None => false end = true <-> live_credential s a.
Proof.
  unfold live_credential, live_token. rewrite orb_true_iff, Z.eqb_eq. cbn [acc api_tokens].
  destruct (api_tokens (base s) !! p_TokenID a) as [t|]; [|naive_solver].
  destruct (_ && _) eqn:E; split; intros [H|H]; try by left.
  - right. exists t. bool_simpl. auto.
  - right. destruct H as (t' & [= <-] & _ & _ & H). by apply Z.eqb_eq.
  - destruct H as (t' & [= <-] & H1 & H2 & _). by rewrite H1, H2, Z.eqb_refl in E.
Qed.
Lemma purge_principal_spec s systemID a p :
  purge_principal s systemID a = Ok p <->
  exists u, users (dir (base s)) !! p_UserID a = Some u /\ u_disabled u = false /\ live_credential s a /\ p = acting s systemID a (u_role u).
Proof.
  unfold purge_principal. setoid_rewrite <- live_token_spec. unfold active_role. cbn [acc dir].
  destruct (users (dir (base s)) !! p_UserID a) as [u|]; [|naive_solver]. destruct (u_disabled u) eqn:Ed.
  { split; [done|]. intros (u' & [= <-] & H & _). congruence. }
  destruct (_ || _); split; try done.
  - intros [= <-]. by exists u.
  - intros (u' & [= <-] & _ & _ & ->). done.
  - by intros (u' & _ & _ & [=] & _).
Qed.
Lemma may_delete_spec s systemID a id :
  may_delete s systemID a id <->
  exists p, purge_principal s systemID a = Ok p /\ can (authz_of s) p KindDocument id PermDelete = Ok tt.
Proof.
  unfold may_delete. setoid_rewrite purge_principal_spec. split.
  - intros (u & Hu & Hd & Hl & Hc). eexists. split; [|done]. by exists u.
  - intros (p & (u & Hu & Hd & Hl & ->) & Hc). by exists u.
Qed.
Lemma allowed_all_spec s p ids :
  allowed_all s p ids = true <-> forall id, id ∈ ids -> can (authz_of s) p KindDocument id PermDelete = Ok tt.
Proof.
  unfold allowed_all. rewrite forallb_forall. split; intros H id Hid.
  - specialize (H id (proj1 (list_elem_of_In _ _) Hid)). rewrite canDocuments_decides, bool_decide_eq_true_2 in H by done.
    cbn in H. by destruct (can _ _ _ _ _) as [[]|].
  - apply list_elem_of_In in Hid. rewrite canDocuments_decides, bool_decide_eq_true_2 by done. by rewrite H.
Qed.

Lemma allowed_all_false s p ids :
  allowed_all s p ids = false -> exists id, id ∈ ids /\ can (authz_of s) p KindDocument id PermDelete <> Ok tt.
Proof.
  intros H. destruct (decide (Forall (fun id => can (authz_of s) p KindDocument id PermDelete = Ok tt) ids)) as [F|F].
  - rewrite (proj2 (allowed_all_spec s p ids)) in H; [done|]. by apply Forall_forall.
  - apply not_Forall_Exists, Exists_exists in F; [|apply _]. done.
Qed.
Lemma purge_principal_Err s systemID a e : purge_principal s systemID a = Err e -> e = ErrNotTrashed.
Proof. unfold purge_principal. intros H. guards_in H; congruence. Qed.

(** A purge deletes all its candidates, or none since one is not the actor's to delete. *)
Lemma purge_spec f actor s :
  match purge f actor s with
  | Ok (n, t) =>
      n = Z.of_nat (length (purge_candidates f s)) /\
      (t = s /\ purge_candidates f s = [] \/ t = log_purged (docs s) (purge_candidates f s) (erased (purge_candidates f s) s)) /\
      forall a id, actor = Some a -> id ∈ purge_candidates f s -> may_delete s (pf_system f) a id
  | Err e => e = ErrNotTrashed /\ exists a id, actor = Some a /\ id ∈ purge_candidates f s /\ ~ may_delete s (pf_system f) a id
  end.
Proof.
  unfold purge. destruct (purge_candidates f s) as [|c cs] eqn:Ec.
  { split; [done|]. split; [by left|]. intros a id _ H. by apply not_elem_of_nil in H. }
  assert (Ht : forall id, id ∈ c :: cs -> exists d, docs s !! id = Some d /\ trashed d = true).
  { intros id. rewrite <- Ec, candidates_in. intros (d & Hd & Hs). exists d. split; [done|by eapply selects_trashed]. }
  rewrite delete_documents_erased by done. clear Ht.
  destruct actor as [a|]; [|cbn [mbind result_bind]; split; [done|]; split; [by right|done]].
  destruct (purge_principal s (pf_system f) a) as [p|e] eqn:Ep; cbn [mbind result_bind].
  - destruct (allowed_all s p (c :: cs)) eqn:Ea; cbn [mbind result_bind].
    + split; [done|]. split; [by right|]. intros ? id [= <-] Hid. apply may_delete_spec. exists p. split; [done|].
      by apply (proj1 (allowed_all_spec s p (c :: cs))).
    + split; [done|]. apply allowed_all_false in Ea as (id & Hid & Hn). exists a, id. split; [done|]. split; [done|].
      intros (p' & Hp & Hc)%may_delete_spec. rewrite Hp in Ep. by injection Ep as ->.
  - split; [by eapply purge_principal_Err|]. exists a, c. split; [done|]. split; [apply list_elem_of_here|].
    intros (p' & Hp & _)%may_delete_spec. by rewrite Hp in Ep.
Qed.
