(* ===== verification/TrashProps.v ===== *)
(** What Trash promises: references stay whole over every request, nobody loses a document
    that was not in Trash or whose deletion nobody was entitled to, a purge is exact, and
    the recovery window has one edge. *)
From S2P Require Import Prelude GoStd Utf8 Sqlite Systems Authz AuthzFacts Principal Mailbox Access Trash TrashFacts.
From S2P Require Jobs Approvals.

(** * Steps *)

(** Who deletes, if anybody. *)
Inductive purger : Type := Nobody | ByRetention (now : Z) | ByActor (p : Principal).
Inductive trash_step (s : store) : purger -> store -> Prop :=
  | do_delete now read query p id t : SoftDeleteDocument now read s query p id = Ok t -> trash_step s Nobody t
  | do_restore now read query p id n t : RestoreDocument now read s query p id = Ok (n, t) -> trash_step s Nobody t
  | do_bulk_trash now ids t : bulk_trash now ids s = Ok t -> trash_step s Nobody t
  | do_bulk_restore now ids t : bulk_restore now ids s = Ok t -> trash_step s Nobody t
  | do_discard now id : trash_step s Nobody (trash_docs now [id] s)      (* the automation action, a split's origin *)
  | do_arrival bound system owner blob now id t :
      meets bound system owner blob s (Undeleted id) -> undelete now id s = Ok t -> trash_step s Nobody t
  | do_purge read query p id n t : PurgeTrashDocument read s query (Some p) id = Ok (n, t) -> trash_step s (ByActor p) t
  | do_empty read query p n t : EmptyTrash read s query (Some p) = Ok (n, t) -> trash_step s (ByActor p) t
  | do_sweep now n t : PurgeExpired now s = Ok (n, t) -> trash_step s (ByRetention now) t.

Lemma lift_Ok {A} (r : result access_error A) x : lift r = Ok x -> r = Ok x.
Proof. by destruct r; intros [= <-]. Qed.
Lemma answered_Ok {A} (r : result trash_error A) x : answered r = Ok x -> r = Ok x.
Proof. by destruct r as [|[]]. Qed.
Lemma requireScope_actor q need p : requireScope (Some q) need = Ok p -> p = q.
Proof. unfold requireScope. destruct (RequireScope _ _); [|done]. by intros [= <-]. Qed.
Lemma authorize_actor read query q id want p sel : authorize read query (Some q) id want = Ok (p, sel) -> p = q.
Proof. cbn. intros H. inv_ok H. guards_in H; by injection H as <- _. Qed.

Lemma SoftDelete_moved now read s query p id t : SoftDeleteDocument now read s query p id = Ok t -> relocated s t.
Proof.
  unfold SoftDeleteDocument. intros H. inv_ok H. destruct a0 as [q sel]. apply answered_Ok in H. inv_ok H.
  guards_in H. injection H as <-. apply moved_trash.
Qed.
Lemma restore_tx_moved now id s n t : trash_wf s -> restore_tx now id s = Ok (n, t) -> relocated s t.
Proof.
  unfold restore_tx. intros W H. split_flow_in H; try (injection H as <- <-; apply moved_refl).
  inv_ok H. injection H as <- <-. eapply moved_trans; [apply moved_update|].
  eapply moved_enqueue; [eapply moved_wf; [done|apply moved_update]|done].
Qed.
Lemma RestoreDocument_tx now read s query p id n t :
  RestoreDocument now read s query p id = Ok (n, t) -> restore_tx now id s = Ok (n, t).
Proof.
  unfold RestoreDocument. intros H. inv_ok H. destruct a0 as [q sel]. inv_ok H. destruct a0 as [k u].
  apply answered_Ok in Ha1. inv_ok Ha1. guards_in Ha1. rewrite Ha1. f_equal.
  destruct (k =? 0) eqn:Ek; [|by injection H as <- <-]. apply Z.eqb_eq in Ek. guards_in H; injection H as <- <-; by subst.
Qed.
Lemma bulk_restore_moved now ids s t : trash_wf s -> bulk_restore now ids s = Ok t -> relocated s t.
Proof.
  unfold bulk_restore. intros W H. guards_in H. eapply moved_trans; [apply moved_update|].
  eapply moved_EnqueueMoves; [eapply moved_wf; [done|apply moved_update]|done].
Qed.
Lemma undelete_moved now id s t : trash_wf s -> undelete now id s = Ok t -> relocated s t.
Proof.
  intros W H. eapply moved_trans; [apply moved_update|].
  eapply moved_enqueue; [eapply moved_wf; [done|apply moved_update]|done].
Qed.

(** The two requests that purge, as purges. *)
Lemma PurgeIDs_purge systemID ids a s :
  0 < systemID -> Forall (Z.lt 0) ids ->
  PurgeIDs systemID ids (Some a) s = purge (PurgeFilter systemID (Some (remove_dups ids)) None) (Some a) s.
Proof.
  intros Hs Hi. unfold PurgeIDs. rewrite (proj2 (Z.leb_gt systemID 0)), bool_decide_eq_false_2 by done. cbn [orb].
  destruct ids as [|id ids].
  { unfold purge. destruct (purge_candidates _ _) as [|c cs] eqn:E; [done|].
    assert (H : c ∈ c :: cs) by apply list_elem_of_here. rewrite <- E in H. apply candidates_in in H as (d & _ & H).
    unfold selects in H. cbn in H. by rewrite andb_false_r in H. }
  destruct (filter _ _) as [|x l] eqn:E; [done|].
  assert (H : x ∈ x :: l) by apply list_elem_of_here. rewrite <- E in H. apply list_elem_of_filter in H as [H Hx].
  pose proof (proj1 (Forall_forall _ _) Hi _ Hx). lia.
Qed.
Lemma PurgeIDs_Ok systemID ids actor s r :
  PurgeIDs systemID ids actor s = Ok r ->
  exists a, actor = Some a /\ 0 < systemID /\ purge (PurgeFilter systemID (Some (remove_dups ids)) None) actor s = Ok r.
Proof.
  intros H. pose proof H as H0. unfold PurgeIDs in H. destruct (_ || _) eqn:E; [done|]. bool_simpl.
  destruct actor as [a|]; [|done]. exists a. split; [done|]. split; [done|]. rewrite <- PurgeIDs_purge; [done|done|].
  destruct ids as [|id ids]; [constructor|]. destruct (filter _ _) as [|x l] eqn:Ef; [|done].
  apply Forall_forall. intros y Hy. destruct (decide (y <= 0)) as [Hle|]; [|lia].
  assert (Hin : y ∈ filter (fun id => id <= 0) (id :: ids)) by by apply list_elem_of_filter.
  rewrite Ef in Hin. by apply not_elem_of_nil in Hin.
Qed.
Lemma request_purges s by' t :
  trash_step s by' t -> by' <> Nobody ->
  exists f actor n, purge f actor s = Ok (n, t) /\
    match by' with
    | Nobody => False
    | ByRetention now => f = PurgeFilter 0 None (Some (cutoff now)) /\ actor = None
    | ByActor p => exists ids, f = PurgeFilter (pf_system f) (Some ids) None /\ 0 < pf_system f /\ actor = Some p
    end.
Proof.
  intros H Hb. destruct H as [| | | | | |read query p id n t H|read query p n t H|now n t H]; try done.
  - unfold PurgeTrashDocument in H. inv_ok H. destruct a0 as [q sel]. apply authorize_actor in Ha0 as ->.
    apply answered_Ok in H. unfold PurgeOne in H. guards_in H. inv_ok H. destruct a0 as [k u]. guards_in H. injection H as -> ->.
    apply PurgeIDs_Ok in Ha0 as (a' & [= <-] & Hs & H). eexists _, _, _. split; [exact H|]. by eexists.
  - unfold EmptyTrash in H. inv_ok H. apply lift_Ok, requireScope_actor in Ha as ->. apply answered_Ok in H.
    apply PurgeIDs_Ok in H as (a' & [= <-] & Hs & H). eexists _, _, _. split; [exact H|]. by eexists.
  - eexists _, _, _. by split.
Qed.
Lemma step_moved s t : trash_wf s -> trash_step s Nobody t -> relocated s t.
Proof.
  intros W H. inversion H; subst.
  - by eapply SoftDelete_moved.
  - eapply restore_tx_moved; [done|by eapply RestoreDocument_tx].
  - unfold bulk_trash in *. match goal with E : Ok _ = Ok _ |- _ => injection E as <- end. apply moved_trash.
  - by eapply bulk_restore_moved.
  - apply moved_trash.
  - by eapply undelete_moved.
Qed.

Lemma with_events_names f s id : names_document (with_events f s) id -> names_document s id.
Proof.
  intros [k H|i v H H1|i v H H1 H2|pk pid a H|i j H H1|i r H H1|i l H H1|i H|k H|i d H H1]; cbn in *.
  - by eapply names_part.
  - by eapply names_value.
  - by eapply names_target.
  - by eapply names_acl.
  - by eapply names_job.
  - by eapply names_run.
  - by eapply names_link.
  - by eapply names_password.
  - by eapply names_observation.
  - by eapply names_relative.
Qed.
Lemma with_events_wf f s : trash_wf s -> trash_wf (with_events f s).
Proof. intros [H1 H2 H3 H4]. split; cbn; try done. intros id N%with_events_names. by apply H2. Qed.
Lemma purge_wf f actor s n t : trash_wf s -> purge f actor s = Ok (n, t) -> trash_wf t.
Proof.
  intros W H. pose proof (purge_spec f actor s) as S. rewrite H in S.
  destruct S as (_ & [[-> _]| ->] & _); [done|]. by apply with_events_wf, erased_wf.
Qed.
Lemma purge_gone f actor s n t id d :
  purge f actor s = Ok (n, t) -> docs s !! id = Some d -> docs t !! id = None ->
  selects f id d = true /\ forall a, actor = Some a -> may_delete s (pf_system f) a id.
Proof.
  intros H Hd Hn. pose proof (purge_spec f actor s) as S. rewrite H in S.
  destruct S as (_ & [[-> _]| ->] & Hm); [congruence|].
  change (docs (erased (purge_candidates f s) s) !! id = None) in Hn. rewrite erased_docs, Hd in Hn. case_bool_decide as Hi; [|done].
  split; [|by intros a Ha; apply Hm]. apply candidates_in in Hi as (d' & Hd' & Hs). congruence.
Qed.

(** * Theorems *)

(** C8: over any sequence of moves into Trash, restorations, arrivals of known bytes, purges
    and retention sweeps, every row that names a document names one that exists, a job
    carries its document's filing system, and a task has its run. *)
Theorem trash_invariant s t (W : trash_wf s) (H : rtc (fun s t => exists by', trash_step s by' t) s t) : trash_wf t.
Proof.
  induction H as [|s u t [by' H] _ IH]; [done|]. apply IH. destruct by' eqn:E.
  - eapply moved_wf; [done|by apply step_moved].
  - apply request_purges in H as (f & a & n & H & _); [|done]. by eapply purge_wf.
  - apply request_purges in H as (f & a' & n & H & _); [|done]. by eapply purge_wf.
Qed.


(** ** A purge request *)

Lemma unlink_none d : unlink [] d = d.
Proof.
  assert (E : forall o, forget [] o = o) by by intros [o|].
  unfold unlink. rewrite !E. by destruct d.
Qed.
Lemma purge_events_none ids l id : id ∈ ids -> filter (fun e => ev_kind e = "document" /\ ev_object e = id) (purge_events ids l) = [].
Proof.
  intros Hi. unfold purge_events. apply filter_none. intros e [Hn _]%list_elem_of_filter [Hk <-]. by apply Hn.
Qed.
Lemma log_one f ids id :
  NoDup ids -> id ∈ ids ->
  filter (fun e => ev_kind e = "document" /\ ev_object e = id) ((fun i => Audit (f i) "document.purge" "document" i) <$> ids)
  = [Audit (f id) "document.purge" "document" id].
Proof.
  induction 1 as [|i ids Hi _ IH]; [by intros H%not_elem_of_nil|]. rewrite fmap_cons, filter_cons. intros [->|H]%elem_of_cons.
  - rewrite decide_True by done. f_equal. apply filter_none.
    intros e (j & -> & Hj)%list_elem_of_fmap [_ E]. cbn in E. by subst.
  - rewrite decide_False; [by apply IH|]. intros [_ E]. cbn in E. subst. by apply Hi.
Qed.

(** C6: a purge request is exact and all-or-nothing.  What goes is what was asked for, is in
    Trash and in the system: if the actor may delete each, precisely those documents are
    gone, the others are as they were but for pointers to the gone ones, no row names a gone
    one, and all that the audit keeps of it is one record; otherwise nothing happens. *)
Theorem PurgeIDs_exact s systemID ids p (Hs : 0 < systemID) (Hi : Forall (Z.lt 0) ids) :
  let goes id := exists d, docs s !! id = Some d /\ trashed d = true /\ dc_system d = systemID /\ id ∈ ids in
  match PurgeIDs systemID ids (Some p) s with
  | Ok (n, t) =>
      exists gone, NoDup gone /\ n = Z.of_nat (length gone) /\ (forall id, id ∈ gone <-> goes id) /\
        (forall id, docs t !! id = if bool_decide (id ∈ gone) then None else unlink gone <$> docs s !! id) /\
        (forall id, id ∈ gone -> may_delete s systemID p id /\ ~ names_document t id /\
           filter (fun e => ev_kind e = "document" /\ ev_object e = id) (audit_events t)
           = [Audit systemID "document.purge" "document" id])
  | Err e => e = ErrNotTrashed /\ exists id, goes id /\ ~ may_delete s systemID p id
  end.
Proof.
  rewrite PurgeIDs_purge by done. set (f := PurgeFilter _ _ _). intros goes.
  assert (G : forall id, id ∈ purge_candidates f s <-> goes id).
  { intros id. rewrite candidates_in. unfold goes, selects, f. cbn. split; intros (d & Hd & H); exists d; (split; [done|]).
    - bool_cases; [lia|]. rewrite <- elem_of_remove_dups. auto.
    - destruct H as (H1 & H2 & H3). rewrite H1, H2, Z.eqb_refl, orb_true_r, bool_decide_eq_true_2; [done|]. by apply elem_of_remove_dups. }
  pose proof (purge_spec f (Some p) s) as S. destruct (purge f (Some p) s) as [[n t]|e].
  - destruct S as (-> & Ht & Hm). exists (purge_candidates f s). split; [apply candidates_NoDup|]. split; [done|]. split; [exact G|].
    destruct Ht as [[-> E]| ->].
    + rewrite E. split; [|by intros id H%not_elem_of_nil]. intros id. rewrite bool_decide_eq_false_2 by apply not_elem_of_nil.
      destruct (docs s !! id); [|done]. cbn. by rewrite unlink_none.
    + split; [intros id; apply erased_docs|]. intros id Hid. split; [by apply Hm|]. split.
      * by intros [_ N]%with_events_names%erased_names.
      * cbn. rewrite filter_app, purge_events_none, log_one by (done || apply candidates_NoDup). cbn.
        apply G in Hid as (d & Hd & _ & <- & _). by rewrite Hd.
  - destruct S as (-> & a & id & [= <-] & Hid & Hn). split; [done|]. exists id. by rewrite <- G.
Qed.

(** ** The recovery window *)

Lemma sweep_spec now s id d :
  docs s !! id = Some d ->
  exists n t, PurgeExpired now s = Ok (n, t) /\ (docs t !! id = None <-> window_over (cutoff now) d = true).
Proof.
  intros Hd. unfold PurgeExpired. set (f := PurgeFilter 0 None (Some (cutoff now))). pose proof (purge_spec f None s) as S.
  destruct (purge f None s) as [[n t]|e] eqn:E; [|by destruct S as (_ & a & _ & [=] & _)].
  exists n, t. split; [done|].
  assert (G : id ∈ purge_candidates f s <-> window_over (cutoff now) d = true).
  { rewrite candidates_in. unfold selects, f. cbn. split.
    - intros (d' & Hd' & H). rewrite Hd in Hd'. injection Hd' as <-. by bool_simpl.
    - intros H. exists d. split; [done|]. rewrite H, !andb_true_r. unfold window_over in H. apply trashed_true.
      destruct (dc_trashed_at d); [by eexists|done]. }
  rewrite <- G. destruct S as (_ & [[-> Ec]| ->] & _).
  - rewrite Ec, Hd. split; [done|]. by intros H%not_elem_of_nil.
  - change (docs (erased (purge_candidates f s) s) !! id = None <-> id ∈ purge_candidates f s). rewrite erased_docs, Hd.
    case_bool_decide; split; done.
Qed.
Lemma restore_tx_spec now s id d at' :
  trash_wf s -> docs s !! id = Some d -> dc_trashed_at d = Some at' ->
  if at' <=? cutoff now then restore_tx now id s = Ok (0, s)
  else exists t, restore_tx now id s = Ok (1, t) /\ docs t !! id = Some (set_trashed None (Jobs.Unix now) d) /\
    exists i j, jobs s !! i = None /\ jobs t !! i = Some j /\ Jobs.j_kind j = "render" /\ Jobs.j_doc_id j = Some id.
Proof.
  intros W Hd Ha. unfold restore_tx, window_over. rewrite Hd, Ha.
  rewrite (proj2 (trashed_true d)) by by exists at'. cbn [andb]. destruct (at' <=? cutoff now); cbn [negb]; [done|].
  set (u := update_docs _ _ _ s). assert (Mu : relocated s u) by apply moved_update.
  assert (Hu : docs u !! id = Some (set_trashed None (Jobs.Unix now) d)).
  { unfold u. rewrite update_docs_lookup, Hd. cbn [fmap option_fmap option_map].
    rewrite bool_decide_eq_true_2 by apply list_elem_of_here. by rewrite (proj2 (trashed_true d)) by by exists at'. }
  assert (Wu : trash_wf u) by by eapply moved_wf.
  destruct (EnqueueMove_total now id u _ Wu Hu) as [t Ht]. rewrite Ht. exists t. split; [done|].
  apply EnqueueMove_Ok in Ht as (d' & Hd' & H). rewrite Hu in Hd'. injection Hd' as <-. cbn in H. destruct H as (Hj & _ & Hds).
  rewrite Hds. split; [done|]. exists (next_rowid (jobs u)). eexists. rewrite Hj, lookup_insert_eq.
  split; [apply (next_rowid_None (jobs u))|]. split; [done|]. cbn. split; [done|]. unfold Jobs.nullInt64.
  destruct (tw_ids _ W _ _ Hd). by rewrite (proj2 (Z.eqb_neq _ 0)) by lia.
Qed.

(** C9: the recovery window has one edge, the second at which thirty days are over: of a
    document in Trash the sweep takes exactly what neither the request nor the batch would
    restore any more, and what they restore is live again with its links to be rendered. *)
Theorem recovery_window s id d at' now (W : trash_wf s) (Hd : docs s !! id = Some d) (Ha : dc_trashed_at d = Some at') :
  (exists n t, PurgeExpired now s = Ok (n, t) /\ (docs t !! id = None <-> at' <= cutoff now)) /\
  (if at' <=? cutoff now then restore_tx now id s = Ok (0, s) /\ bulk_restore now [id] s = Err ErrBadParams
   else exists t, restore_tx now id s = Ok (1, t) /\ bulk_restore now [id] s = Ok t /\
          docs t !! id = Some (set_trashed None (Jobs.Unix now) d) /\
          exists i j, jobs s !! i = None /\ jobs t !! i = Some j /\ Jobs.j_kind j = "render" /\ Jobs.j_doc_id j = Some id).
Proof.
  assert (He : window_over (cutoff now) d = (at' <=? cutoff now)) by by unfold window_over; rewrite Ha.
  split.
  - destruct (sweep_spec now s id d Hd) as (n & t & H & Hg). exists n, t. split; [done|]. by rewrite Hg, He, Z.leb_le.
  - pose proof (restore_tx_spec now s id d at' W Hd Ha) as R. unfold bulk_restore. cbn [existsb]. rewrite Hd, He, orb_false_r.
    destruct (at' <=? cutoff now) eqn:El; [done|]. destruct R as (t & Ht & R). exists t. split; [done|]. split; [|done].
    unfold restore_tx in Ht. rewrite Hd, He, (proj2 (trashed_true d)) in Ht by by exists at'. cbn [andb negb] in Ht.
    inv_ok Ht. injection Ht as ->. cbn [EnqueueMoves]. by rewrite Ha0.
Qed.

(** * Witnesses *)

(** Ann owns a scan that is in Trash and a later version of it; Bob may delete the scan. *)
Definition doc0 (owner : Z) (blob : string) (at' : option Z) (previous : option Z) (origin : Z) : doc_row :=
  Doc 1 owner blob None "Scan" None 10 0 1 None at' 0 previous None None origin.
Definition store0 : store :=
  Store (Access (Directory users0 {[1 := original]} {[(1, 2); (1, 3)]}) ∅ ∅ ∅ 0 ∅
           {[7 := Link 1 "t" [10; 11] 2 None None "" "" 0 None]} ∅ ∅ 0 ∅)
    {[10 := doc0 2 "b10" (Some 1000) None 0; 11 := doc0 2 "b11" None (Some 10) 0]} ∅
    {[(KindDocument, 10, "user", 3) := Acl 1 7 0 2]} ∅ ∅ ∅ ∅ ∅ [] {[("notes", 1) := 10; ("notes", 2) := 11]} ∅ ∅ ∅ ∅
    [Audit 1 "document.trash" "document" 10].
Definition p_bob : Principal := Principal.MkPrincipal "user" 3 0 0 "" "bob@x" "Bob" "member" [] "" "" 0.
Definition p_root : Principal := Principal.MkPrincipal "user" 1 0 0 "" "root@x" "Root" "admin" [] "" "" 0.
Definition days (n : Z) : Z := n * 24 * Jobs.Hour.
Definition after (r : result trash_error (Z * store)) (s : store) : store := match r with Ok (_, t) => t | Err _ => s end.

Lemma store0_docs id d : docs store0 !! id = Some d ->
  id = 10 /\ d = doc0 2 "b10" (Some 1000) None 0 \/ id = 11 /\ d = doc0 2 "b11" None (Some 10) 0.
Proof. cbn. intros [[<- <-]|[_ [<- <-]%lookup_singleton_Some]]%lookup_insert_Some; auto. Qed.
Lemma store0_wf : trash_wf store0.
Proof.
  split.
  - intros id d [[-> ->]|[-> ->]]%store0_docs; cbn; lia.
  - assert (B : forall id, id = 10 \/ id = 11 -> is_Some (docs store0 !! id)) by by intros id [->| ->]; eexists.
    intros id [k H|i v H H1|i v H H1 H2|pk pid a H|i j H H1|i r H H1|i l H H1|i H|k H|i d H H1]; apply B; cbn in *; try done.
    + apply lookup_insert_Some in H as [[_ <-]|[_ [_ <-]%lookup_singleton_Some]]; auto.
    + apply lookup_singleton_Some in H as [[= <-] _]. auto.
    + apply lookup_singleton_Some in H as [_ <-]. cbn in H1. set_solver.
    + apply store0_docs in H as [[_ ->]|[_ ->]]; cbn in H1; naive_solver.
  - done.
  - done.
Qed.

Lemma trash_invariant_witness : trash_wf (after (PurgeExpired (days 40) store0) store0).
Proof.
  apply (trash_invariant store0); [apply store0_wf|]. apply rtc_once. exists (ByRetention (days 40)).
  apply (do_sweep _ (days 40) 1). vm_compute. reflexivity.
Defined.
(** Bob may purge the scan; what points to it lets go. *)
Lemma PurgeIDs_exact_witness :
  exists t, PurgeIDs 1 [11; 10; 10] (Some p_bob) store0 = Ok (1, t) /\ ~ names_document t 10 /\
    docs t !! 11 = Some (doc0 2 "b11" None None 0).
Proof.
  assert (E : PurgeIDs 1 [11; 10; 10] (Some p_bob) store0 = Ok (1, after (PurgeIDs 1 [11; 10; 10] (Some p_bob) store0) store0))
    by (vm_compute; reflexivity).
  pose proof (PurgeIDs_exact store0 1 [11; 10; 10] p_bob eq_refl ltac:(repeat constructor)) as H. cbn zeta in H.
  rewrite E in H. destruct H as (gone & _ & _ & G & _ & P). rewrite E. eexists. split; [reflexivity|]. split.
  - apply P, G. eexists. split; [reflexivity|]. split; [reflexivity|]. split; [reflexivity|]. apply list_elem_of_further, list_elem_of_here.
  - vm_compute. reflexivity.
Defined.
Lemma recovery_window_witness :
  restore_tx (days 40) 10 store0 = Ok (0, store0) /\
  exists t, restore_tx (days 20) 10 store0 = Ok (1, t) /\ docs t !! 10 = Some (set_trashed None 1728000 (doc0 2 "b10" (Some 1000) None 0)).
Proof.
  split.
  - exact (proj1 (proj2 (recovery_window store0 10 _ 1000 (days 40) store0_wf eq_refl eq_refl))).
  - destruct (proj2 (recovery_window store0 10 _ 1000 (days 20) store0_wf eq_refl eq_refl)) as (t & H & _ & Hd & _).
    exists t. split; [exact H|exact Hd].
Defined.

(** * Observations *)

(** Emptying Trash is not owner-scoped: a member who may delete another's document destroys
    it, though the list of Trash shows the member nothing. *)
Lemma empty_purges_unlisted :
  ListTrash store0 None (Some p_bob) 0 0 = Ok (0, []) /\
  exists t, EmptyTrash store0 store0 None (Some p_bob) = Ok (1, t) /\ docs t !! 10 = None.
Proof.
  split; [vm_compute; reflexivity|]. exists (after (EmptyTrash store0 store0 None (Some p_bob)) store0).
  split; vm_compute; reflexivity.
Qed.

Lemma store0_no_origin system owner blob j : ~ newest_row (split_origin system owner blob store0) store0 j.
Proof.
  intros (d & t & Hd & [_ Hs] & _). apply Hs. unfold split_children. apply map_empty. intros i.
  apply map_lookup_filter_None. right. intros e He E. apply store0_docs in He as [[_ ->]|[_ ->]]; apply store0_docs in Hd as [[-> _]|[-> _]]; cbn in E; lia.
Qed.
(** The folder watcher brings back a document whose window is over, which no request would. *)
Lemma watcher_restores_expired :
  meets None 1 2 "b10" store0 (Undeleted 10) /\ is_ok (undelete (days 40) 10 store0) = true /\
  restore_tx (days 40) 10 store0 = Ok (0, store0).
Proof.
  split; [|split; vm_compute; reflexivity].
  apply meets_trashed; [apply store0_no_origin| |].
  - intros j d [[_ ->]|[_ ->]]%store0_docs (_ & _ & H); [done|discriminate H].
  - exists (doc0 2 "b10" (Some 1000) None 0), 1000. split; [done|]. split; [done|]. split; [done|].
    intros j e u [[_ ->]|[_ ->]]%store0_docs _ [= <-]. lia.
Qed.

(** Once the sweep has taken a split's origin, its bytes arrive as a new document beside the
    children. *)
Definition store1 : store :=
  with_docs (const {[10 := doc0 2 "b10" (Some 1000) None 0; 12 := doc0 2 "b12" None None 10]}) store0.
Definition store2 : store := after (PurgeExpired (days 40) store1) store1.
Lemma origin_forgotten :
  meets (Some (cutoff (days 40))) 1 2 "b10" store1 (OriginKept 10) /\
  meets (Some (cutoff (days 40))) 1 2 "b10" store2 NewDocument /\ dc_split_origin <$> docs store2 !! 12 = Some 10.
Proof.
  assert (E : docs store2 = {[12 := doc0 2 "b12" None None 10]}) by (vm_compute; reflexivity).
  split; [|split; [|by rewrite E]].
  - pose proof (meets_origin (Some (cutoff (days 40))) 1 2 "b10" store1 10) as M.
    replace (exists_row _ (split_children store1 10)) with false in M by (vm_compute; reflexivity).
    rewrite andb_false_r in M. apply M. exists (doc0 2 "b10" (Some 1000) None 0), 1000.
    split; [done|]. split; [split; [done|vm_compute; done]|]. split; [done|].
    cbn. intros j e u [[<- <-]|[_ [<- <-]%lookup_singleton_Some]]%lookup_insert_Some _ [= <-]. lia.
  - apply meets_nothing. rewrite E. intros j d [<- <-]%lookup_singleton_Some (_ & _ & H). discriminate H.
Qed.
