(* ===== verification/PresetFile.v ===== *)
(** Files of filing trees ([core/jd/presetfile]): what an author may write, the tree it
    expands to, and the way back.

    A nil slice is [None].  [Raw] is the decoded document, a key that is absent being
    [None]; the TOML and HuML parsers, the types of scalars and unknown keys are before
    it.  Error texts are constructors. *)
From S2P Require Import Prelude GoStd Utf8 Systems.

Definition Format : string := "suchi-taxonomy/v1".

Record Category : Type := MkCategory { c_Code : Z; c_Name : string; c_Description : string }.
Record Area : Type := MkArea { a_Code : Z; a_Name : string; a_Categories : option (list Category) }.
Record PresetFile : Type := MkPresetFile {
  pf_Format : string; pf_System : string; pf_ID : string; pf_Version : Z; pf_Name : string; pf_Market : string;
  pf_Language : string; pf_Maintainer : string; pf_License : string; pf_Flat : bool; pf_Inbox : Z; pf_Story : string;
  pf_Areas : option (list Area); pf_Categories : option (list Category);
}.
#[export] Instance Category_eq_dec : EqDecision Category.
Proof. solve_decision. Defined.
#[export] Instance Area_eq_dec : EqDecision Area.
Proof. solve_decision. Defined.
#[export] Instance PresetFile_eq_dec : EqDecision PresetFile.
Proof. solve_decision. Defined.
Definition areas_of (pf : PresetFile) : list Area := default [] (pf_Areas pf).
Definition categories_of (a : Area) : list Category := default [] (a_Categories a).
Definition with_areas (areas : option (list Area)) (cats : option (list Category)) (inbox : Z) (pf : PresetFile) : PresetFile :=
  MkPresetFile (pf_Format pf) (pf_System pf) (pf_ID pf) (pf_Version pf) (pf_Name pf) (pf_Market pf) (pf_Language pf)
    (pf_Maintainer pf) (pf_License pf) (pf_Flat pf) inbox (pf_Story pf) areas cats.

Inductive spot : Type :=
  | FName | FStory | FMarket | FLanguage | FAreaName (i : nat) | FCategoryName (i j : nat) | FCategoryDescription (i j : nat).
Inductive problem : Type :=
  | BadFormat | EmptySystem | BadSystem | BadID | BadVersion | Required (f : spot) | TooLong (f : spot) | AuthoredInbox
  | FlatAreas | FlatCount | FlatCode (i : nat) | NoAreas | RawCategories | TooManyAreas | AreaCode (i : nat)
  | DuplicateArea (i : nat) | NoCategories (i : nat) | CategoryCode (i j : nat) | DuplicateCategory (i j : nat)
  | NotNormalized | ReservedContent | NoGeneratedArea | FlatShape.
#[export] Instance spot_eq_dec : EqDecision spot.
Proof. solve_decision. Defined.
#[export] Instance problem_eq_dec : EqDecision problem.
Proof. solve_decision. Defined.

(** * Validation of what an author wrote *)

Definition when (b : bool) (e : problem) : list problem := if b then [e] else [].
Definition text (f : spot) (value : string) (max : nat) (required : bool) : list problem :=
  when (required && bool_decide (TrimSpace value = "")) (Required f)
  ++ when ((0 <? max)%nat && (max <? RuneCountInString value)%nat) (TooLong f).
(** Bytes tell what runes do: a rune beyond ASCII has a byte that is none of these. *)
Definition id_char (first : bool) (c : ascii) : bool :=
  byte_in "a" "z" c || byte_in "0" "9" c || negb first && (bool_decide (c = "-"%char) || bool_decide (c = "_"%char)).
Fixpoint id_chars (first : bool) (s : string) : bool :=
  match s with EmptyString => true | String c s => id_char first c && id_chars false s end.
Definition validID (id : string) : bool := negb (bool_decide (id = "")) && id_chars true id.

Definition set_Code (code : Z) (c : Category) : Category := MkCategory code (c_Name c) (c_Description c).
(** The codes a flat list stands for. *)
Definition numbered (cats : list Category) : list Category := imap (fun i c => set_Code (11 + Z.of_nat i) c) cats.
Definition flat_areas (pf : PresetFile) : list Area :=
  [MkArea 10 (pf_Name pf) (match pf_Categories pf with None | Some [] => None | Some cats => Some (numbered cats) end)].

Definition category_problems (i j : nat) (area : Z) (seen : gset Z) (c : Category) : list problem :=
  when ((c_Code c <=? area) || (area + 9 <? c_Code c) || (c_Code c <? 11) || (Z.quot (c_Code c) 10 =? 4)) (CategoryCode i j)
  ++ when (bool_decide (c_Code c ∈ seen)) (DuplicateCategory i j)
  ++ text (FCategoryName i j) (c_Name c) 80 true ++ text (FCategoryDescription i j) (c_Description c) 240 false.
Fixpoint categories_problems (i j : nat) (area : Z) (seen : gset Z) (cats : list Category) : list problem * gset Z :=
  match cats with
  | [] => ([], seen)
  | c :: cats =>
      let r := categories_problems i (S j) area ({[c_Code c]} ∪ seen) cats in
      (category_problems i j area seen c ++ r.1, r.2)
  end.
Definition user_decade (code : Z) : bool := (10 <=? code) && (code <=? 90) && (Z.rem code 10 =? 0) && negb (code =? 40).
Fixpoint areas_problems (i : nat) (seenAreas seenCats : gset Z) (areas : list Area) : list problem :=
  match areas with
  | [] => []
  | a :: areas =>
      let r := categories_problems i 0 (a_Code a) seenCats (categories_of a) in
      when (negb (user_decade (a_Code a))) (AreaCode i)
      ++ when (bool_decide (a_Code a ∈ seenAreas)) (DuplicateArea i)
      ++ text (FAreaName i) (a_Name a) 80 true
      ++ when (bool_decide (a_Categories a = None)) (NoCategories i)
      ++ r.1 ++ areas_problems (S i) ({[a_Code a]} ∪ seenAreas) r.2 areas
  end.

Definition shape_problems (pf : PresetFile) : list problem :=
  if pf_Flat pf then
    let cats := default [] (pf_Categories pf) in
    when (negb (bool_decide (pf_Areas pf = None))) FlatAreas
    ++ when ((length cats <? 1)%nat || (9 <? length cats)%nat) FlatCount
    ++ concat (imap (fun i c => when (negb (c_Code c =? 0) && negb (c_Code c =? 11 + Z.of_nat i)) (FlatCode i)) cats)
  else
    when (bool_decide (pf_Areas pf = None)) NoAreas ++ when (negb (bool_decide (pf_Categories pf = None))) RawCategories.
Definition Validate (pf : PresetFile) : list problem :=
  if negb (bool_decide (pf_Format pf = Format)) then [BadFormat]
  else
    let areas := if pf_Flat pf then flat_areas pf else areas_of pf in
    when (negb (bool_decide (pf_System pf = "")) && negb (ValidCode (pf_System pf))) BadSystem
    ++ when (negb (validID (pf_ID pf))) BadID
    ++ when (pf_Version pf <=? 0) BadVersion
    ++ text FName (pf_Name pf) 80 true ++ text FStory (pf_Story pf) 500 true
    ++ text FMarket (pf_Market pf) 0 true ++ text FLanguage (pf_Language pf) 0 true
    ++ when (negb (pf_Inbox pf =? 0)) AuthoredInbox
    ++ shape_problems pf
    ++ when (8 <? length areas)%nat TooManyAreas
    ++ areas_problems 0 ∅ ∅ areas.

(** * The runtime tree *)

Definition system_area : Area := MkArea 40 "System" (Some [MkCategory 49 "Inbox" ""]).
Definition reserved_ok (a : Area) : bool := bool_decide (a = system_area).
Definition is_reserved (a : Area) : bool := a_Code a =? 40.

(** [rawFromNormalized]: the author's file of a runtime tree. *)
Definition unflatten (pf : PresetFile) (user : list Area) : result (list problem) PresetFile :=
  if pf_Flat pf then
    match user with
    | [a] =>
        require (a_Code a =? 10) && bool_decide (a_Name a = pf_Name pf) else [FlatShape] in
        Ok (with_areas None (a_Categories a) 0 pf)
    | _ => Err [FlatShape]
    end
  else Ok (with_areas (Some user) None 0 pf).
Definition rawFromNormalized (pf : PresetFile) : result (list problem) PresetFile :=
  require (pf_Inbox pf =? 49) && bool_decide (pf_Categories pf = None) else [NotNormalized] in
  let reserved := List.filter is_reserved (areas_of pf) in
  require forallb reserved_ok reserved else [ReservedContent] in
  require (length reserved =? 1)%nat else [NoGeneratedArea] in
  raw ← unflatten pf (List.filter (fun a => negb (is_reserved a)) (areas_of pf));
  match Validate raw with [] => Ok raw | es => Err es end.
Definition ValidateNormalized (pf : PresetFile) : result (list problem) unit := _ ← rawFromNormalized pf; Ok tt.

(** * Reading and writing *)

Record RawCategory : Type := MkRawCategory { rc_code : option Z; rc_name : option string; rc_description : option string }.
Record RawArea : Type := MkRawArea { ra_code : option Z; ra_name : option string; ra_categories : option (list RawCategory) }.
Record Raw : Type := MkRaw {
  r_format : option string; r_system : option string; r_id : option string; r_version : option Z; r_name : option string;
  r_market : option string; r_language : option string; r_maintainer : option string; r_license : option string;
  r_flat : option bool; r_story : option string; r_areas : option (list RawArea); r_categories : option (list RawCategory);
}.
(** [decodeRaw]. *)
Definition decode_category (r : RawCategory) : Category :=
  MkCategory (default 0 (rc_code r)) (default "" (rc_name r)) (default "" (rc_description r)).
Definition decode_area (r : RawArea) : Area :=
  MkArea (default 0 (ra_code r)) (default "" (ra_name r)) (List.map decode_category <$> ra_categories r).
Definition decodeRaw (r : Raw) : PresetFile :=
  MkPresetFile (default "" (r_format r)) (default "" (r_system r)) (default "" (r_id r)) (default 0 (r_version r))
    (default "" (r_name r)) (default "" (r_market r)) (default "" (r_language r)) (default "" (r_maintainer r))
    (default "" (r_license r)) (default false (r_flat r)) 0 (default "" (r_story r))
    (List.map decode_area <$> r_areas r) (List.map decode_category <$> r_categories r).
Fixpoint flat_code_problem (i : nat) (cats : list RawCategory) : list problem :=
  match cats with
  | [] => []
  | c :: cats =>
      match rc_code c with
      | Some code => if code =? 11 + Z.of_nat i then flat_code_problem (S i) cats else [FlatCode i]
      | None => flat_code_problem (S i) cats
      end
  end.
Definition presence_problems (r : Raw) : list problem :=
  if default false (r_flat r) then
    if bool_decide (is_Some (r_areas r)) then [FlatAreas] else flat_code_problem 0 (default [] (r_categories r))
  else when (bool_decide (is_Some (r_categories r))) RawCategories.
Definition expand (pf : PresetFile) : PresetFile :=
  let areas := if pf_Flat pf then [MkArea 10 (pf_Name pf) (Some (numbered (default [] (pf_Categories pf))))] else areas_of pf in
  with_areas (Some (areas ++ [system_area])) (if pf_Flat pf then None else pf_Categories pf) 49 pf.
Definition Parse (r : Raw) : result (list problem) PresetFile :=
  require bool_decide (r_format r = Some Format) else [BadFormat] in
  fail_if bool_decide (r_system r = Some "") with [EmptySystem] in
  match presence_problems r with
  | [] => let pf := decodeRaw r in match Validate pf with [] => Ok (expand pf) | es => Err es end
  | es => Err es
  end.

(** What the encoder writes: keys with [omitempty] are left out when empty. *)
Definition omitempty (s : string) : option string := if bool_decide (s = "") then None else Some s.
Definition encode_category (c : Category) : RawCategory :=
  MkRawCategory (Some (c_Code c)) (Some (c_Name c)) (omitempty (c_Description c)).
Definition encode_area (a : Area) : RawArea :=
  MkRawArea (Some (a_Code a)) (Some (a_Name a)) (List.map encode_category <$> a_Categories a).
Definition encode (pf : PresetFile) : Raw :=
  MkRaw (Some (pf_Format pf)) (omitempty (pf_System pf)) (Some (pf_ID pf)) (Some (pf_Version pf)) (Some (pf_Name pf))
    (Some (pf_Market pf)) (Some (pf_Language pf)) (omitempty (pf_Maintainer pf)) (omitempty (pf_License pf))
    (if pf_Flat pf then Some true else None) (Some (pf_Story pf))
    (if pf_Flat pf then None else List.map encode_area <$> pf_Areas pf)
    (if pf_Flat pf then List.map encode_category <$> pf_Categories pf else None).
Definition Marshal (pf : PresetFile) : result (list problem) Raw :=
  raw ← rawFromNormalized pf; let r := encode raw in _ ← Parse r; Ok r.
