(* ===== verification/PresetFileProps.v ===== *)
(** What validation accepts, and that reading and writing of files of filing trees are
    inverse up to the place of the generated area. *)
From S2P Require Import Prelude GoStd Utf8 Systems PresetFile.

(** * Validation *)

Lemma when_nil b e : when b e = [] <-> b = false.
Proof. by destruct b. Qed.
Definition text_ok (value : string) (max : nat) (required : bool) : Prop :=
  (required = true -> TrimSpace value <> "") /\ ((0 < max)%nat -> (RuneCountInString value <= max)%nat).
Lemma text_nil f value max required : text f value max required = [] <-> text_ok value max required.
Proof.
  unfold text, text_ok. rewrite app_nil, !when_nil, !andb_false_iff, bool_decide_eq_false, !Nat.ltb_ge.
  destruct required; intuition (try lia; try done).
Qed.

Definition category_ok (area : Z) (c : Category) : Prop :=
  area < c_Code c <= area + 9 /\ text_ok (c_Name c) 80 true /\ text_ok (c_Description c) 240 false.
Definition area_ok (a : Area) : Prop :=
  user_decade (a_Code a) = true /\ text_ok (a_Name a) 80 true /\ a_Categories a <> None /\
  Forall (category_ok (a_Code a)) (categories_of a).
Definition codes_of (areas : list Area) : list Z := areas ≫= fun a => c_Code <$> categories_of a.

Lemma user_decade_spec code : user_decade code = true <-> exists k, code = 10 * k /\ 1 <= k <= 9 /\ k <> 4.
Proof.
  unfold user_decade. rewrite !andb_true_iff, !Z.leb_le, Z.eqb_eq, negb_true_iff, Z.eqb_neq. split.
  - intros (((H1 & H2) & H3) & H4). exists (code / 10). rewrite Z.rem_mod_nonneg in H3 by lia.
    pose proof (Z.div_mod code 10). lia.
  - intros (k & -> & H1 & H2). rewrite Z.mul_comm, Z.rem_mul by lia. lia.
Qed.
Lemma category_nil i j area seen c : user_decade area = true ->
  category_problems i j area seen c = [] <-> category_ok area c /\ c_Code c ∉ seen.
Proof.
  intros (k & -> & H1 & H2)%user_decade_spec. unfold category_problems, category_ok.
  rewrite !app_nil, !when_nil, !text_nil, bool_decide_eq_false, !orb_false_iff, Z.leb_gt, !Z.ltb_ge, Z.eqb_neq.
  split; [intuition lia|]. intros (((Hl & Hu) & Hn & Hd) & Hs). split_and!; try done; try lia.
  rewrite Z.quot_div_nonneg by lia. intros E. pose proof (Z.div_mod (c_Code c) 10). pose proof (Z.mod_pos_bound (c_Code c) 10). lia.
Qed.
Lemma categories_nil i j area seen cats : user_decade area = true ->
  ((categories_problems i j area seen cats).1 = [] <->
   Forall (category_ok area) cats /\ NoDup (c_Code <$> cats) /\ forall c, c ∈ c_Code <$> cats -> c ∉ seen) /\
  forall x, x ∈ (categories_problems i j area seen cats).2 <-> x ∈ seen \/ x ∈ c_Code <$> cats.
Proof.
  intros Ha. revert j seen. induction cats as [|c cats IH]; intros j seen; cbn [categories_problems fst snd].
  { split; [split; [|done]; intros _; split_and!; [constructor|constructor|by intros c H%not_elem_of_nil]|].
    intros x. split; [by left|]. by intros [H|H%not_elem_of_nil]. }
  destruct (IH (S j) ({[c_Code c]} ∪ seen)) as [I1 I2]. split.
  - rewrite app_nil, category_nil, I1, fmap_cons, Forall_cons, NoDup_cons by done. split.
    + intros ((Hc & Hs) & Hf & Hn & Hd). split_and!; try done.
      * intros Hin. apply (Hd _ Hin). set_solver.
      * intros x [->|Hx]%elem_of_cons; [done|]. specialize (Hd _ Hx). set_solver.
    + intros ((Hc & Hf) & (Hi & Hn) & Hd). split_and!; try done.
      * apply Hd, list_elem_of_here.
      * intros x Hx Hs. apply elem_of_union in Hs as [->%elem_of_singleton|Hs]; [done|].
        eapply Hd; [|done]. by apply list_elem_of_further.
  - intros x. rewrite I2, fmap_cons, elem_of_cons. set_solver.
Qed.
Lemma areas_nil i seenAreas seenCats areas :
  areas_problems i seenAreas seenCats areas = [] <->
  Forall area_ok areas /\ NoDup (a_Code <$> areas) /\ (forall a, a ∈ a_Code <$> areas -> a ∉ seenAreas) /\
  NoDup (codes_of areas) /\ forall c, c ∈ codes_of areas -> c ∉ seenCats.
Proof.
  revert i seenAreas seenCats. induction areas as [|a areas IH]; intros i sa sc; cbn [areas_problems].
  { split; [|done]. intros _. split_and!; try constructor; by intros x H%not_elem_of_nil. }
  destruct (user_decade (a_Code a)) eqn:Ea.
  2: { split; [done|]. intros (H & _). apply Forall_cons in H as [(H & _) _]. congruence. }
  destruct (categories_nil i 0 (a_Code a) sc (categories_of a) Ea) as [C1 C2].
  change (codes_of (a :: areas)) with ((c_Code <$> categories_of a) ++ codes_of areas).
  rewrite !app_nil, !when_nil, text_nil, C1, IH, fmap_cons, Forall_cons, NoDup_cons, NoDup_app, !bool_decide_eq_false.
  split.
  - intros (_ & Hd & Hn & Hc & (Hf & Hu & Hs) & Hareas & Hna & Hda & Hnc & Hdc). split_and!; try done.
    + intros Hin. apply (Hda _ Hin). set_solver.
    + intros x [->|Hx]%elem_of_cons; [done|]. specialize (Hda _ Hx). set_solver.
    + intros x Hx Hx'. apply (Hdc _ Hx'). apply C2. by right.
    + intros x [Hx|Hx]%elem_of_app; [by apply Hs|]. intros Hin. apply (Hdc _ Hx). apply C2. by left.
  - intros (((_ & Hn & Hc & Hf) & Hareas) & (Hni & Hna) & Hda & (Hu & Hx & Hnc) & Hdc). split_and!; try done.
    + apply Hda, list_elem_of_here.
    + intros x Hx'. apply Hdc, elem_of_app. by left.
    + intros x Hx' Hs. apply elem_of_union in Hs as [->%elem_of_singleton|Hs]; [done|].
      eapply Hda; [|done]. by apply list_elem_of_further.
    + intros x Hx' [Hs|Hs]%C2; [eapply Hdc; [|done]; apply elem_of_app; by right|by eapply Hx].
Qed.

Definition header_ok (pf : PresetFile) : Prop :=
  pf_Format pf = Format /\ (pf_System pf <> "" -> ValidCode (pf_System pf) = true) /\ validID (pf_ID pf) = true /\
  0 < pf_Version pf /\ text_ok (pf_Name pf) 80 true /\ text_ok (pf_Story pf) 500 true /\ text_ok (pf_Market pf) 0 true /\
  text_ok (pf_Language pf) 0 true /\ pf_Inbox pf = 0.
Definition tree_ok (areas : list Area) : Prop :=
  (length areas <= 8)%nat /\ Forall area_ok areas /\ NoDup (a_Code <$> areas) /\ NoDup (codes_of areas).
Definition raw_areas (pf : PresetFile) : list Area := if pf_Flat pf then flat_areas pf else areas_of pf.
Lemma Validate_nil pf : Validate pf = [] <-> header_ok pf /\ shape_problems pf = [] /\ tree_ok (raw_areas pf).
Proof.
  unfold Validate, header_ok, tree_ok. fold (raw_areas pf).
  destruct (decide (pf_Format pf = Format)) as [Hf|Hf]; [rewrite bool_decide_eq_true_2 by done|rewrite bool_decide_eq_false_2 by done].
  2: { split; [done|]. by intros ((H & _) & _). }
  cbn [negb]. rewrite !app_nil, !when_nil, !text_nil, areas_nil, andb_false_iff, !negb_false_iff, bool_decide_eq_true, Z.leb_gt, Z.eqb_eq, Nat.ltb_ge.
  split.
  - intros ([Hs|Hs] & ? & ? & ? & ? & ? & ? & ? & ? & ? & ? & ? & _ & ? & _); split_and!; try done.
  - intros ((_ & Hs & ? & ? & ? & ? & ? & ? & ?) & ? & ? & ? & ? & ?). split_and!; try done.
    + destruct (decide (pf_System pf = "")); [by left|right; by apply Hs].
Qed.

(** * Reading back *)

Lemma omitempty_default s : default "" (omitempty s) = s.
Proof. unfold omitempty. by case_bool_decide. Qed.
Lemma omitempty_nonempty s : omitempty s <> Some "".
Proof. unfold omitempty. case_bool_decide; [done|]. by intros [= ->]. Qed.
Lemma decode_encode_category c : decode_category (encode_category c) = c.
Proof. destruct c. unfold decode_category. cbn. by rewrite omitempty_default. Qed.
Lemma decode_encode_categories cats : List.map decode_category (List.map encode_category cats) = cats.
Proof. rewrite List.map_map. rewrite <- (List.map_id cats) at 2. apply List.map_ext, decode_encode_category. Qed.
Lemma decode_encode_area a : decode_area (encode_area a) = a.
Proof. destruct a as [code n [cats|]]; unfold decode_area; cbn; [by rewrite decode_encode_categories|done]. Qed.
Lemma decode_encode_areas areas : List.map decode_area (List.map encode_area areas) = areas.
Proof. rewrite List.map_map. rewrite <- (List.map_id areas) at 2. apply List.map_ext, decode_encode_area. Qed.
(** A file with the collections its form has, and nothing generated. *)
Definition authored (pf : PresetFile) : Prop :=
  pf_Inbox pf = 0 /\ if pf_Flat pf then pf_Areas pf = None else pf_Categories pf = None.
Lemma decode_encode_file pf : authored pf -> decodeRaw (encode pf) = pf.
Proof.
  destruct pf as [fmt sys id v n mk lg mt lc flat inbox st areas cats]. unfold authored, decodeRaw. cbn. intros [-> H].
  rewrite !omitempty_default. destruct flat; subst; cbn; f_equal.
  - destruct cats as [cats|]; [|done]. cbn. by rewrite decode_encode_categories.
  - destruct areas as [areas|]; [|done]. cbn. by rewrite decode_encode_areas.
Qed.
Lemma shape_authored pf : pf_Inbox pf = 0 -> shape_problems pf = [] -> authored pf.
Proof.
  unfold shape_problems, authored. intros Hi. destruct (pf_Flat pf); rewrite ?app_nil, !when_nil, ?negb_false_iff, ?bool_decide_eq_true; naive_solver.
Qed.

Lemma numbered_code cats i c : numbered cats !! i = Some c -> c_Code c = 11 + Z.of_nat i.
Proof. unfold numbered. rewrite list_lookup_imap. destruct (cats !! i); [|done]. by intros [= <-]. Qed.
Lemma numbered_id cats : (forall i c, cats !! i = Some c -> c_Code c = 11 + Z.of_nat i) -> numbered cats = cats.
Proof.
  intros H. apply list_eq. intros i. unfold numbered. rewrite list_lookup_imap. destruct (cats !! i) as [c|] eqn:E; [|done].
  cbn. f_equal. rewrite <- (H _ _ E). by destruct c.
Qed.
Lemma numbered_twice cats : numbered (numbered cats) = numbered cats.
Proof. apply numbered_id, numbered_code. Qed.
Lemma numbered_length cats : length (numbered cats) = length cats.
Proof. unfold numbered. apply length_imap. Qed.
Lemma flat_code_nil i cats :
  flat_code_problem i (List.map encode_category cats) = [] <-> forall j c, cats !! j = Some c -> c_Code c = 11 + Z.of_nat (i + j).
Proof.
  revert i. induction cats as [|c cats IH]; intros i; cbn.
  { split; [|done]. by intros _ j c H. }
  destruct (Z.eqb_spec (c_Code c) (11 + Z.of_nat i)) as [E|E].
  - rewrite IH. split; intros H.
    + intros [|j] c' Hc; cbn in Hc; [injection Hc as <-; by rewrite Nat.add_0_r|]. rewrite (H _ _ Hc). lia.
    + intros j c' Hc. rewrite (H (S j) c' Hc). lia.
  - split; [done|]. intros H. specialize (H 0%nat c eq_refl). rewrite Nat.add_0_r in H. done.
Qed.
Lemma presence_encode pf : authored pf ->
  presence_problems (encode pf) = [] <-> (pf_Flat pf = true -> numbered (default [] (pf_Categories pf)) = default [] (pf_Categories pf)).
Proof.
  unfold authored, presence_problems. intros [_ H]. cbn. destruct (pf_Flat pf); cbn; [|by split].
  assert (E : default [] (List.map encode_category <$> pf_Categories pf) = List.map encode_category (default [] (pf_Categories pf)))
    by by destruct (pf_Categories pf).
  rewrite E, flat_code_nil. split.
  - intros Hc _. by apply numbered_id.
  - intros Hn j c Hj. specialize (Hn eq_refl). rewrite <- Hn in Hj. by apply numbered_code in Hj.
Qed.
(** Reading what the encoder wrote. *)
Lemma Parse_encode pf : authored pf -> pf_Format pf = Format ->
  Parse (encode pf) = match presence_problems (encode pf) with
                      | [] => match Validate pf with [] => Ok (expand pf) | es => Err es end
                      | es => Err es end.
Proof.
  intros A F. unfold Parse. rewrite decode_encode_file by done. cbn [encode r_format r_system]. rewrite F.
  rewrite bool_decide_eq_true_2, bool_decide_eq_false_2 by (done || apply omitempty_nonempty). done.
Qed.

(** ** From the tree to the author's file *)

Lemma user_areas_of areas : Forall area_ok areas ->
  List.filter is_reserved (areas ++ [system_area]) = [system_area] /\
  List.filter (fun a => negb (is_reserved a)) (areas ++ [system_area]) = areas.
Proof.
  rewrite !List.filter_app. induction 1 as [|a areas (Ha & _) _ [IH1 IH2]]; [done|].
  assert (E : is_reserved a = false) by (apply user_decade_spec in Ha as (k & Hk & H1 & H2); apply Z.eqb_neq; lia).
  split; cbn [List.filter]; rewrite E; [exact IH1|]. cbn [negb]. rewrite <- app_comm_cons. f_equal. exact IH2.
Qed.
(** The author's file with the codes that a flat list stands for. *)
Definition explicit (pf : PresetFile) : PresetFile :=
  if pf_Flat pf then with_areas (pf_Areas pf) (numbered <$> pf_Categories pf) (pf_Inbox pf) pf else pf.
Lemma explicit_fields pf : header_ok (explicit pf) = header_ok pf /\ pf_Flat (explicit pf) = pf_Flat pf /\ pf_Format (explicit pf) = pf_Format pf.
Proof. unfold explicit. destruct (pf_Flat pf) eqn:E; cbn; by rewrite ?E. Qed.
Lemma flat_areas_explicit pf : pf_Flat pf = true -> flat_areas (explicit pf) = flat_areas pf.
Proof.
  intros E. unfold explicit, flat_areas. rewrite E. cbn [pf_Name pf_Categories with_areas].
  destruct (pf_Categories pf) as [[|c cats]|]; [done| |done]. cbn [fmap option_fmap option_map].
  exact (f_equal (fun l => [MkArea 10 (pf_Name pf) (Some l)]) (numbered_twice (c :: cats))).
Qed.
Lemma Validate_explicit pf : Validate pf = [] -> Validate (explicit pf) = [].
Proof.
  intros (H & S & T)%Validate_nil. apply Validate_nil. destruct (explicit_fields pf) as (E1 & E2 & _). rewrite E1.
  split; [done|]. unfold raw_areas in *. rewrite E2. destruct (pf_Flat pf) eqn:Ef; [|unfold explicit; by rewrite Ef].
  rewrite flat_areas_explicit by done. split; [|done]. unfold explicit, shape_problems in *. rewrite Ef in *.
  cbn [with_areas pf_Flat pf_Categories pf_Areas]. rewrite Ef. clear T.
  destruct (pf_Categories pf) as [cats|]; cbn [fmap option_fmap option_map from_option id] in *; [|done].
  rewrite !app_nil in *. destruct S as (S1 & S2 & _). rewrite numbered_length. split; [done|]. split; [done|].
  assert (N : forall i c, numbered cats !! i = Some c ->
    when (negb (c_Code c =? 0) && negb (c_Code c =? 11 + Z.of_nat i)) (FlatCode i) = []).
  { intros i c Hc. apply numbered_code in Hc. apply when_nil. rewrite Hc, Z.eqb_refl. apply andb_false_r. }
  revert N. generalize (numbered cats). intros l N. apply concat_nil_Forall, Forall_forall. intros x Hx.
  apply elem_of_lookup_imap in Hx as (i & c & -> & Hc). by apply N.
Qed.
Lemma expand_explicit pf : expand (explicit pf) = expand pf.
Proof.
  unfold explicit. destruct (pf_Flat pf) eqn:E; [|done]. unfold expand. cbn. rewrite E. unfold with_areas. cbn. do 4 f_equal.
  destruct (pf_Categories pf) as [cats|]; cbn; [|done]. by rewrite numbered_twice.
Qed.
Lemma raw_expand pf : Validate pf = [] -> rawFromNormalized (expand pf) = Ok (explicit pf).
Proof.
  intros V. pose proof (Validate_explicit _ V) as V'. apply Validate_nil in V as (H & S & T).
  unfold rawFromNormalized. assert (Ec : pf_Categories (expand pf) = None).
  { unfold expand, shape_problems in *. cbn. destruct (pf_Flat pf); [done|]. apply app_nil in S as [_ S].
    apply when_nil, negb_false_iff, bool_decide_eq_true in S. done. }
  rewrite Ec. change (pf_Inbox (expand pf)) with 49. rewrite bool_decide_eq_true_2 by done. cbn [Z.eqb Pos.eqb andb].
  set (user := if pf_Flat pf then [MkArea 10 (pf_Name pf) (Some (numbered (default [] (pf_Categories pf))))] else areas_of pf).
  change (areas_of (expand pf)) with (user ++ [system_area]).
  assert (U : unflatten (expand pf) user = Ok (explicit pf)).
  { unfold user, unflatten, explicit, expand, shape_problems, header_ok, authored in *. cbn.
    destruct H as (_ & _ & _ & _ & _ & _ & _ & _ & Hi).
    destruct (pf_Flat pf) eqn:Ef; cbn.
    - rewrite bool_decide_eq_true_2 by done. cbn. apply app_nil in S as [S _]. apply when_nil, negb_false_iff, bool_decide_eq_true in S.
      destruct (pf_Categories pf) as [cats|] eqn:Ecs.
      2: { destruct T as (_ & F & _). unfold raw_areas, flat_areas in F. rewrite Ef, Ecs in F.
           by apply Forall_cons in F as [(_ & _ & Hn & _) _]. }
      f_equal. unfold with_areas. cbn. by rewrite S, Hi.
    - apply app_nil in S as [S1 S2]. apply when_nil, bool_decide_eq_false in S1. apply when_nil, negb_false_iff, bool_decide_eq_true in S2.
      f_equal. destruct pf as [fmt sys id v n mk lg mt lc fl inbox st [areas|] cats]; cbn in *; [|done]. by subst. }
  assert (F : Forall area_ok user).
  { destruct T as (_ & F & _). unfold user, raw_areas, flat_areas in F. destruct (pf_Flat pf); [|done].
    destruct (pf_Categories pf) as [[|c cats]|]; [|done|]; by apply Forall_cons in F as [(_ & _ & Hn & _) _]. }
  destruct (user_areas_of _ F) as [-> ->]. rewrite U. cbn [forallb reserved_ok andb]. unfold reserved_ok.
  rewrite bool_decide_eq_true_2 by done. cbn. by rewrite V'.
Qed.
Lemma explicit_authored pf : authored pf -> authored (explicit pf).
Proof. unfold authored, explicit. intros [H1 H2]. destruct (pf_Flat pf) eqn:E; cbn; by rewrite ?E. Qed.
Lemma Validate_authored pf : Validate pf = [] -> authored pf.
Proof. intros (H & S & _)%Validate_nil. apply shape_authored; [apply H|done]. Qed.

(** * The round trip *)

(** The runtime tree with its generated area in the last place. *)
Definition canonical (pf : PresetFile) : PresetFile :=
  with_areas (Some (List.filter (fun a => negb (is_reserved a)) (areas_of pf) ++ [system_area])) None 49 pf.

Lemma rawFromNormalized_Ok pf raw :
  rawFromNormalized pf = Ok raw ->
  Validate raw = [] /\ pf_Flat raw = pf_Flat pf /\ pf_Format raw = pf_Format pf /\
  unflatten pf (List.filter (fun a => negb (is_reserved a)) (areas_of pf)) = Ok raw.
Proof.
  unfold rawFromNormalized. intros H. guards_in H. inv_ok H. guards_in H. injection H as <-. split; [done|].
  split; [|split]; [| |done]; unfold unflatten in Ha; guards_in Ha; by injection Ha as <-.
Qed.
Lemma expand_unflatten pf raw user :
  unflatten pf user = Ok raw -> (pf_Flat raw = true -> pf_Categories raw <> None) ->
  (pf_Flat raw = true -> numbered (default [] (pf_Categories raw)) = default [] (pf_Categories raw)) ->
  expand raw = with_areas (Some (user ++ [system_area])) None 49 pf.
Proof.
  unfold unflatten. intros H Hc Hn. guards_in H.
  - bool_simpl. injection H as <-. unfold expand. cbn in *. rewrite Hc0 in *. cbn in *. rewrite Hn by done.
    destruct a as [code n [cats|]]; cbn in *; [|by destruct (Hc eq_refl)]. subst. done.
  - injection H as <-. unfold expand. cbn. by rewrite Hc0.
Qed.


(** * Witnesses *)

Definition raw0 : Raw :=
  MkRaw (Some Format) None (Some "solo") (Some 1) (Some "Solo") (Some "global") (Some "en") None None (Some true) (Some "A story") None
    (Some [MkRawCategory None (Some "Bills") None; MkRawCategory (Some 12) (Some "Letters") (Some "Post")]).
Definition tree0 : PresetFile := match Parse raw0 with Ok pf => pf | Err _ => decodeRaw raw0 end.

(** A flat tree in memory may leave its codes at 0 and still passes the check that guards
    the importer, though no file says so and no row of that code can be stored. *)
Definition unnumbered : PresetFile :=
  MkPresetFile Format "" "solo" 1 "Solo" "global" "en" "" "" true 49 "A story"
    (Some [MkArea 10 "Solo" (Some [MkCategory 0 "Bills" ""]); system_area]) None.
Lemma flat_code_zero_accepted : ValidateNormalized unnumbered = Ok tt /\ Marshal unnumbered = Err [FlatCode 0].
Proof. split; vm_compute; reflexivity. Qed.
