(* ===== verification/FilingSets.v ===== *)
(** The built-in filing sets and the trees composed of them ([core/jd/sets.go], and what
    [core/jd/preset_change.go] keeps when one selection replaces another).

    The embedded preset files are read by [loadPresetFile], an argument here, as is the
    digest that names a composed tree. *)
From S2P Require Import Prelude GoStd Utf8 Systems PresetFile.

Definition MaxFilingSets : nat := 5.

Record FilingSet : Type := MkFilingSet { set_ID : string; set_Name : string; set_Description : string; set_Lane : Z; set_Categories : list Category }.
Record filingSetSpec : Type := SetSpec {
  fs_ID : string; fs_Name : string; fs_Description : string; fs_Lane : Z; fs_SourcePreset : string; fs_CategoryKeys : list (Z * string);
}.
Definition admin_keys : list (Z * string) :=
  [(11, "admin.identity"); (12, "admin.insurance"); (13, "admin.vehicles"); (14, "admin.memberships");
   (15, "admin.education"); (16, "admin.employment"); (17, "admin.travel")].
Definition revenue_keys : list (Z * string) :=
  [(12, "revenue.agreements"); (13, "revenue.invoices"); (14, "revenue.payments"); (15, "revenue.correspondence")].
(** [filingSetSpecs]; the keys of the table are the ids. *)
Definition filingSetSpecs : list filingSetSpec := [
  SetSpec "life-admin" "Life admin" "Identity, insurance, vehicles, memberships, education, employment, and travel." 10 "solo" admin_keys;
  SetSpec "family-admin" "Family admin" "Shared identity, insurance, vehicle, membership, education, employment, and travel records." 10 "household" admin_keys;
  SetSpec "clients" "Clients" "Quotes, contracts, invoices, payments, and correspondence." 10 "freelance" revenue_keys;
  SetSpec "customers" "Customers" "Quotes, contracts, invoices, payments, and correspondence." 10 "smb_billing" revenue_keys;
  SetSpec "finance" "Money" "Bank and card statements, investments, income tax, loans, and purchases." 20 "solo"
    [(21, "money.bank-statements"); (22, "finance.investments"); (23, "finance.income-tax"); (24, "finance.loans"); (25, "finance.purchases")];
  SetSpec "projects" "Projects" "Briefs, plans, deliverables, approvals, and sign-off." 20 "freelance"
    [(22, "projects.briefs-plans"); (24, "projects.deliverables"); (25, "projects.approvals-signoff")];
  SetSpec "vendors" "Suppliers" "Supplier contracts, invoices, deliveries, and payments." 20 "smb_billing"
    [(22, "vendors.contracts"); (23, "vendors.invoices"); (24, "vendors.deliveries"); (25, "vendors.payments")];
  SetSpec "health" "Health" "Medical records, prescriptions, bills, and claims." 30 "solo"
    [(31, "health.records"); (32, "health.prescriptions"); (33, "health.billing")];
  SetSpec "business-finance" "Money" "Bank and card statements, expenses, tax working papers, and contractors." 30 "freelance"
    [(31, "money.bank-statements"); (32, "business.expenses"); (33, "business.tax"); (34, "business.contractors"); (35, "business.contractor-payments")];
  SetSpec "finance-payroll" "Money" "Bank and card statements, expenses, tax working papers, employee records, and payroll." 30 "smb_billing"
    [(31, "money.bank-statements"); (32, "business.expenses"); (33, "business.tax"); (34, "business.employees"); (35, "business.payroll")];
  SetSpec "home" "Home" "Utilities and housing." 50 "solo" [(51, "home.utilities"); (52, "home.housing")];
  SetSpec "compliance" "Compliance" "Tax filings, corporate and regulatory filings, audits, licenses, and permits." 50 "freelance"
    [(51, "compliance.tax"); (52, "compliance.regulatory"); (53, "compliance.audits"); (54, "compliance.licenses")];
  SetSpec "portfolio-marketing" "Portfolio & marketing" "Case studies, testimonials, templates, and brand assets." 60 "freelance"
    [(61, "marketing.case-studies"); (62, "marketing.testimonials"); (63, "marketing.templates"); (64, "marketing.assets")]].
Definition set_spec (id : string) : option filingSetSpec := List.find (fun s => bool_decide (fs_ID s = id)) filingSetSpecs.
Definition presetSetRecipes : list (string * list string) := [
  ("solo", ["life-admin"; "finance"; "health"; "home"]);
  ("household", ["family-admin"; "finance"; "health"; "home"]);
  ("freelance", ["clients"; "projects"; "business-finance"; "compliance"; "portfolio-marketing"]);
  ("smb_billing", ["customers"; "vendors"; "finance-payroll"; "compliance"; "portfolio-marketing"]);
  ("blank", [])].
Definition PresetSetIDs (id : string) : option (list string) :=
  snd <$> List.find (fun r => bool_decide (r.1 = id)) presetSetRecipes.

Inductive set_error : Type :=
  | TooManySets | UnknownSet (id : string) | RepeatedSet (id : string) | LaneTaken (prior id : string)
  | MissingSource (id : string) | BadFile (ps : list problem).
#[export] Instance set_error_eq_dec : EqDecision set_error.
Proof. solve_decision. Defined.

Fixpoint check_sets (byLane : gmap Z string) (seen : gset string) (ids : list string) : result set_error (list filingSetSpec) :=
  match ids with
  | [] => Ok []
  | id :: ids =>
      match set_spec id with
      | None => Err (UnknownSet id)
      | Some spec =>
          fail_if bool_decide (id ∈ seen) with RepeatedSet id in
          match byLane !! fs_Lane spec with
          | Some prior => Err (LaneTaken prior id)
          | None => specs ← check_sets (<[fs_Lane spec := id]> byLane) ({[id]} ∪ seen) ids; Ok (spec :: specs)
          end
      end
  end.
Definition by_lane (x y : filingSetSpec) : Prop := fs_Lane x <= fs_Lane y.
#[export] Instance by_lane_dec x y : Decision (by_lane x y).
Proof. unfold by_lane. apply _. Defined.
#[export] Instance by_lane_total : Total by_lane.
Proof. intros x y. unfold by_lane. lia. Qed.
#[export] Instance by_lane_trans : Transitive by_lane.
Proof. intros x y z. unfold by_lane. lia. Qed.
(** [normalizeSetIDs], with the table's entries for the ids. *)
Definition normalizeSetIDs (ids : list string) : result set_error (list filingSetSpec) :=
  fail_if (MaxFilingSets <? length ids)%nat with TooManySets in
  merge_sort by_lane <$> check_sets ∅ ∅ ids.

Definition presetArea (pf : PresetFile) (code : Z) : option Area := List.find (fun a => a_Code a =? code) (areas_of pf).

Section Compose.
Context (loadPresetFile : string -> result (list problem) PresetFile) (digest : list string -> string).

Definition load (slug : string) : result set_error PresetFile :=
  match loadPresetFile slug with Ok pf => Ok pf | Err ps => Err (BadFile ps) end.
Fixpoint set_areas (specs : list filingSetSpec) : result set_error (list Area) :=
  match specs with
  | [] => Ok []
  | spec :: specs =>
      source ← load (fs_SourcePreset spec);
      match presetArea source (fs_Lane spec) with
      | None => Err (MissingSource (fs_ID spec))
      | Some area => areas ← set_areas specs; Ok (area :: areas)
      end
  end.
(** [FilingSets]: the catalogue; an error is a panic.  The table is in [filingSetOrder]. *)
Definition FilingSets : result set_error (list FilingSet) :=
  (fun areas => zip_with (fun spec area => MkFilingSet (fs_ID spec) (fs_Name spec) (fs_Description spec) (fs_Lane spec) (categories_of area))
     filingSetSpecs areas) <$> set_areas filingSetSpecs.
Definition composed (ids : list string) (areas : list Area) : PresetFile :=
  MkPresetFile Format "" ("composed-v1-" +:+ digest ids) 1 "Custom filing tree" "global" "en" "" "CC0-1.0" false 49
    "A filing tree composed from Suchi's built-in sets." (Some areas) None.
Definition ComposePreset (setIDs : list string) : result set_error PresetFile :=
  specs ← normalizeSetIDs setIDs;
  match specs with
  | [] => load "blank"
  | _ =>
      areas ← set_areas specs;
      generated ← load "blank";
      let pf := composed (fs_ID <$> specs) (areas ++ areas_of generated) in
      match ValidateNormalized pf with Ok _ => Ok pf | Err ps => Err (BadFile ps) end
  end.
End Compose.

(** * Which categories mean the same *)

Definition add_keys (keys : list (Z * string)) (out : gmap Z string) : gmap Z string :=
  foldl (fun out x => <[x.1 := x.2]> out) out keys.
Definition SemanticCategoryKeys (setIDs : list string) : gmap Z string :=
  foldl (fun out id => match set_spec id with Some spec => add_keys (fs_CategoryKeys spec) out | None => out end) ∅ setIDs.
Definition automaticReplacements (fromSetIDs toSetIDs : list string) : gset Z :=
  let from := SemanticCategoryKeys fromSetIDs in
  dom (filter (fun x => default "" (from !! x.1) = x.2) (SemanticCategoryKeys toSetIDs)).
Definition SuggestedReplacementCodes (fromSetIDs toSetIDs : list string) : gset Z :=
  let fromByLane : gmap Z filingSetSpec :=
    foldl (fun out id => match set_spec id with Some spec => <[fs_Lane spec := spec]> out | None => out end) ∅ fromSetIDs in
  foldl (fun out id =>
    match set_spec id with
    | None => out
    | Some target =>
        match fromByLane !! fs_Lane target with
        | Some source => if bool_decide (fs_ID source = fs_ID target) then out else list_to_set (fs_CategoryKeys target).*1 ∪ out
        | None => out
        end
    end) ∅ toSetIDs.
