(* ===== verification/FilingSetProps.v ===== *)
(** Which selections of filing sets are accepted, and that an accepted one always composes
    to a tree the importer takes. *)
From S2P Require Import Prelude GoStd Utf8 Systems PresetFile PresetFileProps FilingSets.

(** * Selections *)

(** Known sets, at most five, one per decade. *)
Definition acceptable (ids : list string) (specs : list filingSetSpec) : Prop :=
  (length ids <= MaxFilingSets)%nat /\ Forall2 (fun id s => set_spec id = Some s) ids specs /\ NoDup (fs_Lane <$> specs).

Lemma set_spec_Some id s : set_spec id = Some s -> fs_ID s = id /\ s ∈ filingSetSpecs.
Proof.
  unfold set_spec. intros H. apply List.find_some in H as [H1 H2]. apply bool_decide_eq_true in H2.
  split; [done|by apply list_elem_of_In].
Qed.
(** The lanes and the ids met so far are those of the same sets. *)
Lemma check_sets_spec ids : forall byLane seen,
  (forall id s, set_spec id = Some s -> id ∈ seen -> is_Some (byLane !! fs_Lane s)) ->
  forall specs, check_sets byLane seen ids = Ok specs <->
    Forall2 (fun id s => set_spec id = Some s) ids specs /\ NoDup (fs_Lane <$> specs) /\
    Forall (fun s => byLane !! fs_Lane s = None) specs.
Proof.
  induction ids as [|id ids IH]; intros byLane seen I specs; cbn [check_sets].
  { split; [intros [= <-]; by split_and!; constructor|]. by intros (->%Forall2_nil_inv_l & _). }
  destruct (set_spec id) as [s|] eqn:Es.
  2: { split; [done|]. intros (H & _). apply Forall2_cons_inv_l in H as (s & l & H & _). congruence. }
  assert (I' : forall id' s', set_spec id' = Some s' -> id' ∈ ({[id]} ∪ seen : gset string) -> is_Some (<[fs_Lane s := id]> byLane !! fs_Lane s')).
  { intros id' s' H' [->%elem_of_singleton|Hs]%elem_of_union.
    - rewrite Es in H'. injection H' as <-. by rewrite lookup_insert_eq.
    - destruct (decide (fs_Lane s = fs_Lane s')) as [<-|N]; [by rewrite lookup_insert_eq|].
      rewrite lookup_insert_ne by done. by apply (I id'). }
  destruct (bool_decide (id ∈ seen)) eqn:Ed; [|destruct (byLane !! fs_Lane s) as [prior|] eqn:El].
  - apply bool_decide_eq_true in Ed. split; [done|]. intros (H & _ & F). apply Forall2_cons_inv_l in H as (s' & l & H & _ & ->).
    rewrite Es in H. injection H as <-. apply Forall_cons in F as [F _]. destruct (I _ _ Es Ed). congruence.
  - split; [done|]. intros (H & _ & F). apply Forall2_cons_inv_l in H as (s' & l & H & _ & ->).
    rewrite Es in H. injection H as <-. apply Forall_cons in F as [F _]. congruence.
  - rewrite bind_Ok. split.
    + intros (l & (Hf & Hn & Ho)%(IH _ _ I') & [= <-]). split; [by constructor|]. rewrite fmap_cons, NoDup_cons. split_and!; try done.
      * intros (s' & Hl & Hs')%list_elem_of_fmap. pose proof (proj1 (Forall_forall _ _) Ho _ Hs') as Hx.
        cbv beta in Hx. by rewrite <- Hl, lookup_insert_eq in Hx.
      * constructor; [done|]. apply Forall_forall. intros s' Hs'. pose proof (proj1 (Forall_forall _ _) Ho _ Hs') as Hx.
        cbv beta in Hx. by apply lookup_insert_None in Hx as [Hx _].
    + intros (H & Hn & F). apply Forall2_cons_inv_l in H as (s' & l & H & Hf & ->). rewrite Es in H. injection H as <-.
      rewrite fmap_cons, NoDup_cons in Hn. destruct Hn as [Hni Hn]. apply Forall_cons in F as [_ F].
      exists l. split; [|done]. apply (IH _ _ I'). split_and!; try done.
      apply Forall_forall. intros s' Hs'. apply lookup_insert_None. split; [by apply (proj1 (Forall_forall _ _) F)|].
      intros E. apply Hni. rewrite E. by apply list_elem_of_fmap_2.
Qed.
Lemma normalize_spec ids specs :
  normalizeSetIDs ids = Ok specs <-> exists chosen, acceptable ids chosen /\ specs = merge_sort by_lane chosen.
Proof.
  unfold normalizeSetIDs, acceptable. destruct (MaxFilingSets <? length ids)%nat eqn:E.
  { apply Nat.ltb_lt in E. split; [done|]. intros (c & (H & _) & _). lia. }
  apply Nat.ltb_ge in E. assert (I : forall id s, set_spec id = Some s -> id ∈ (∅ : gset string) -> is_Some ((∅ : gmap Z string) !! fs_Lane s))
    by by intros id s _ H%not_elem_of_empty.
  split.
  - intros (c & Hc & ->)%fmap_Ok. apply (check_sets_spec ids ∅ ∅ I) in Hc as (H1 & H2 & _). by exists c.
  - intros (c & (_ & H1 & H2) & ->). assert (Hc : check_sets ∅ ∅ ids = Ok c).
    { apply (check_sets_spec ids ∅ ∅ I). split_and!; [done|done|]. apply Forall_forall. intros s _. apply lookup_empty. }
    by rewrite Hc.
Qed.
Lemma lanes_decades s : s ∈ filingSetSpecs -> user_decade (fs_Lane s) = true.
Proof.
  assert (F : Forall (fun s => user_decade (fs_Lane s) = true) filingSetSpecs) by (repeat constructor).
  intros H. by apply (proj1 (Forall_forall _ _) F).
Qed.

Lemma sorted_lanes specs : Sorted by_lane specs -> Sorted Z.le (fs_Lane <$> specs).
Proof.
  induction 1 as [|s specs _ IH H]; [constructor|]. rewrite fmap_cons. constructor; [exact IH|].
  destruct H as [|t specs H]; [constructor|]. rewrite fmap_cons. by constructor.
Qed.

(** * Composition *)

Lemma tree_of_normalized pf : ValidateNormalized pf = Ok tt -> pf_Flat pf = false ->
  tree_ok (List.filter (fun a => negb (is_reserved a)) (areas_of pf)).
Proof.
  unfold ValidateNormalized. intros H Hf. inv_ok H. apply rawFromNormalized_Ok in Ha as (V & Ef & _ & U).
  unfold unflatten in U. rewrite Hf in *. injection U as <-. apply Validate_nil in V as (_ & _ & T).
  unfold raw_areas in T. cbn in T. by rewrite Hf in T.
Qed.
(** The area of a decade in a valid tree. *)
Lemma presetArea_ok pf code area :
  ValidateNormalized pf = Ok tt -> pf_Flat pf = false -> user_decade code = true -> presetArea pf code = Some area ->
  a_Code area = code /\ area_ok area /\ NoDup (c_Code <$> categories_of area).
Proof.
  intros V Hf Hd H. unfold presetArea in H. apply List.find_some in H as [Hin Hc]. apply Z.eqb_eq in Hc.
  destruct (tree_of_normalized _ V Hf) as (_ & F & _ & N).
  assert (Hu : area ∈ List.filter (fun a => negb (is_reserved a)) (areas_of pf)).
  { apply list_elem_of_In, List.filter_In. split; [done|]. apply negb_true_iff, Z.eqb_neq.
    apply user_decade_spec in Hd as (k & -> & _ & Hk). lia. }
  split; [done|]. split; [by apply (proj1 (Forall_forall _ _) F)|].
  apply list_elem_of_split in Hu as (l1 & l2 & E). unfold codes_of in N. rewrite E, bind_app, bind_cons in N.
  apply NoDup_app in N as (_ & _ & N). by apply NoDup_app in N as (N & _).
Qed.
(** Areas of distinct decades have distinct codes throughout. *)
Lemma codes_distinct areas :
  Forall area_ok areas -> Forall (fun a => NoDup (c_Code <$> categories_of a)) areas -> NoDup (a_Code <$> areas) ->
  NoDup (codes_of areas).
Proof.
  induction areas as [|a areas IH]; intros F N D; [constructor|].
  apply Forall_cons in F as [Fa F]. apply Forall_cons in N as [Na N]. rewrite fmap_cons, NoDup_cons in D. destruct D as [Da D].
  change (NoDup ((c_Code <$> categories_of a) ++ codes_of areas)). apply NoDup_app. split; [done|]. split; [|by apply IH].
  intros x (c & -> & Hc)%list_elem_of_fmap Hx. apply list_elem_of_bind in Hx as (b & (c' & E & Hc')%list_elem_of_fmap & Hb).
  apply Da, list_elem_of_fmap. exists b. split; [|done].
  destruct Fa as (Ua & _ & _ & Ca). destruct (proj1 (Forall_forall _ _) F _ Hb) as (Ub & _ & _ & Cb).
  apply (proj1 (Forall_forall _ _) Ca) in Hc as ((H1 & H2) & _). apply (proj1 (Forall_forall _ _) Cb) in Hc' as ((H3 & H4) & _).
  apply user_decade_spec in Ua as (k & Ek & _). apply user_decade_spec in Ub as (m & Em & _). lia.
Qed.
Lemma id_chars_append s t : id_chars false s = true -> id_chars false t = true -> id_chars false (s +:+ t) = true.
Proof.
  induction s as [|c s IH]; [done|]. intros H1 H3. change (id_char false c && id_chars false s = true) in H1.
  change (id_char false c && id_chars false (s +:+ t) = true). apply andb_true_iff in H1 as [H1 H2].
  apply andb_true_iff. split; [done|by apply IH].
Qed.

Section Compose.
Context (loadPresetFile : string -> result (list problem) PresetFile) (digest : list string -> string).

(** The embedded files are valid trees with the areas the table takes from them, and the
    digest is written in the characters of an id. *)
Record sources_ok : Prop := {
  so_set : forall s, s ∈ filingSetSpecs -> exists pf, loadPresetFile (fs_SourcePreset s) = Ok pf /\
    ValidateNormalized pf = Ok tt /\ pf_Flat pf = false /\ is_Some (presetArea pf (fs_Lane s));
  so_blank : exists pf, loadPresetFile "blank" = Ok pf /\ ValidateNormalized pf = Ok tt /\ areas_of pf = [system_area];
  so_digest : forall ids, id_chars false (digest ids) = true;
}.

Lemma set_areas_total : sources_ok -> forall specs, Forall (.∈ filingSetSpecs) specs ->
  exists areas, set_areas loadPresetFile specs = Ok areas /\ a_Code <$> areas = fs_Lane <$> specs /\
    Forall area_ok areas /\ Forall (fun a => NoDup (c_Code <$> categories_of a)) areas.
Proof.
  intros S specs. induction 1 as [|s specs Hs _ (areas & Ha & Hc & Hf & Hn)]; [exists []; by split_and!|].
  destruct (so_set S _ Hs) as (pf & Hl & V & Hflat & [area Hp]).
  destruct (presetArea_ok _ _ _ V Hflat (lanes_decades _ Hs) Hp) as (Hcode & Hok & Hnd).
  exists (area :: areas). cbn [set_areas]. unfold load. rewrite Hl. cbn [mbind result_bind]. rewrite Hp, Ha.
  split; [done|]. rewrite !fmap_cons, Hc, Hcode. split; [done|]. by split; constructor.
Qed.
Lemma composed_valid ids areas : sources_ok -> tree_ok areas -> ValidateNormalized (composed digest ids (areas ++ [system_area])) = Ok tt.
Proof.
  intros S T. unfold ValidateNormalized, rawFromNormalized. set (pf := composed _ _ _).
  change (areas_of pf) with (areas ++ [system_area]). destruct (user_areas_of areas) as [-> ->]; [apply T|].
  change (unflatten pf areas) with (Ok (E := list problem) (with_areas (Some areas) None 0 pf)).
  assert (V : Validate (with_areas (Some areas) None 0 pf) = []).
  { apply Validate_nil. split; [|split; [done|exact T]]. split_and!; try done.
    - cbn. unfold validID. rewrite bool_decide_eq_false_2 by done. cbn. apply so_digest, S.
    - split; [by vm_compute|]. intros _. vm_compute. lia.
    - split; [by vm_compute|]. intros _. vm_compute. lia.
    - split; [by vm_compute|]. intros H. vm_compute in H. lia.
    - split; [by vm_compute|]. intros H. vm_compute in H. lia. }
  cbn [pf composed pf_Inbox pf_Categories forallb reserved_ok]. rewrite !bool_decide_eq_true_2 by done. cbn. by rewrite V.
Qed.
Lemma listed_sets specs : forall areas,
  a_Code <$> areas = fs_Lane <$> specs -> Forall area_ok areas ->
  let sets := zip_with (fun spec area => MkFilingSet (fs_ID spec) (fs_Name spec) (fs_Description spec) (fs_Lane spec) (categories_of area)) specs areas in
  set_ID <$> sets = fs_ID <$> specs /\
  Forall (fun set => Forall (fun c => set_Lane set < c_Code c <= set_Lane set + 9) (set_Categories set)) sets.
Proof.
  induction specs as [|s specs IH]; intros [|a areas] E F; try done. rewrite !fmap_cons in E. injection E as Ea E.
  apply Forall_cons in F as [(_ & _ & _ & Fa) F]. destruct (IH _ E F) as [I1 I2]. cbn [zip_with]. rewrite !fmap_cons, I1.
  split; [done|]. constructor; [|done]. rewrite Ea in Fa. eapply Forall_impl; [exact Fa|]. by intros c (H & _).
Qed.
Lemma FilingSets_total : sources_ok -> exists sets, FilingSets loadPresetFile = Ok sets /\ set_ID <$> sets = fs_ID <$> filingSetSpecs /\
  Forall (fun set => Forall (fun c => set_Lane set < c_Code c <= set_Lane set + 9) (set_Categories set)) sets.
Proof.
  intros S. destruct (set_areas_total S filingSetSpecs) as (areas & Ha & Hc & Hf & _); [by apply Forall_forall|].
  eexists. split; [unfold FilingSets; by rewrite Ha|]. by apply listed_sets.
Qed.

(** C38: from valid sources every selection of at most five known sets of different decades
    composes to a tree that the importer's check accepts, with just these decades in order
    before the generated area; any other selection is refused.  The catalogue offers every
    set, with the decade it is filed under and categories of that decade alone. *)
Theorem ComposePreset_total (S : sources_ok) ids :
  (exists sets, FilingSets loadPresetFile = Ok sets /\ set_ID <$> sets = fs_ID <$> filingSetSpecs /\
     Forall (fun set => Forall (fun c => set_Lane set < c_Code c <= set_Lane set + 9) (set_Categories set)) sets) /\
  match ComposePreset loadPresetFile digest ids with
  | Ok pf => exists chosen, acceptable ids chosen /\ ValidateNormalized pf = Ok tt /\
      a_Code <$> areas_of pf = (fs_Lane <$> merge_sort by_lane chosen) ++ [40] /\
      Sorted Z.le (fs_Lane <$> merge_sort by_lane chosen)
  | Err _ => forall chosen, ~ acceptable ids chosen
  end.
Proof.
  split; [by apply FilingSets_total|]. unfold ComposePreset. destruct (normalizeSetIDs ids) as [specs|e] eqn:En; cbn [mbind result_bind].
  2: { intros c Hc. assert (H : normalizeSetIDs ids = Ok (merge_sort by_lane c)) by (apply normalize_spec; by exists c). congruence. }
  apply normalize_spec in En as (c & Hc & ->). pose proof Hc as (Hlen & Hf & Hn).
  assert (P : merge_sort by_lane c ≡ₚ c) by apply merge_sort_Permutation.
  assert (Hs : Sorted Z.le (fs_Lane <$> merge_sort by_lane c)).
  { apply sorted_lanes, Sorted_merge_sort, _. }
  assert (Hin : Forall (.∈ filingSetSpecs) (merge_sort by_lane c)).
  { rewrite P. apply Forall_forall. intros s Hs'. apply list_elem_of_lookup in Hs' as [i Hi].
    destruct (Forall2_lookup_r _ _ _ _ _ Hf Hi) as (id & _ & H). cbv beta in H. apply set_spec_Some in H as [_ H]. exact H. }
  destruct (so_blank S) as (b & Hb & Vb & Eb). destruct (set_areas_total S _ Hin) as (areas & Ha & Hcode & Hok & Hnd).
  assert (T : tree_ok areas).
  { assert (L : length areas = length c).
    { rewrite <- (length_fmap a_Code areas), Hcode, length_fmap. by rewrite P. }
    assert (D : NoDup (a_Code <$> areas)) by (rewrite Hcode, P; exact Hn).
    split; [|by split_and!; [| |apply codes_distinct]]. rewrite L, <- (Forall2_length _ _ _ Hf). unfold MaxFilingSets in Hlen. lia. }
  destruct (merge_sort by_lane c) as [|s specs] eqn:Es.
  - unfold load. rewrite Hb. exists c. rewrite Es, Eb. by split_and!.
  - rewrite Ha. cbn [mbind result_bind]. unfold load. rewrite Hb. cbn [mbind result_bind]. rewrite Eb, composed_valid by done.
    exists c. rewrite Es. split_and!; [done|by apply composed_valid| |done].
    change (a_Code <$> areas ++ [system_area] = (fs_Lane <$> s :: specs) ++ [40]). by rewrite fmap_app, Hcode.
Qed.
End Compose.

(** * What keeps its meaning *)

Lemma add_keys_nonempty keys : Forall (fun x => x.2 <> "") keys -> forall out : gmap Z string,
  map_Forall (fun _ k => k <> "") out -> map_Forall (fun _ k => k <> "") (add_keys keys out).
Proof.
  induction 1 as [|[c k] keys Hk _ IH]; intros out Ho; [done|]. apply (IH (<[c := k]> out)). by apply map_Forall_insert_2.
Qed.
Lemma table_keys_nonempty s : s ∈ filingSetSpecs -> Forall (fun x => x.2 <> "") (fs_CategoryKeys s).
Proof.
  assert (F : Forall (fun s => Forall (fun x => x.2 <> "") (fs_CategoryKeys s)) filingSetSpecs) by (repeat constructor; discriminate).
  intros H. exact (proj1 (Forall_forall _ _) F _ H).
Qed.
Lemma keys_nonempty ids : map_Forall (fun _ k => k <> "") (SemanticCategoryKeys ids).
Proof.
  unfold SemanticCategoryKeys. assert (H0 : map_Forall (fun _ k => k <> "") (∅ : gmap Z string)) by apply map_Forall_empty.
  revert H0. generalize (∅ : gmap Z string). induction ids as [|id ids IH]; intros out Ho; [done|]. cbn [foldl]. apply IH.
  destruct (set_spec id) as [s|] eqn:E; [|done]. apply add_keys_nonempty; [|done]. by apply table_keys_nonempty, (set_spec_Some id).
Qed.
(** A category is replaced without a question just when both selections give its code the
    same meaning. *)
Lemma automaticReplacements_spec from to code :
  code ∈ automaticReplacements from to <->
  exists key, SemanticCategoryKeys from !! code = Some key /\ SemanticCategoryKeys to !! code = Some key.
Proof.
  unfold automaticReplacements. rewrite elem_of_dom. split.
  - intros [k (Hk & Hd)%map_lookup_filter_Some]. exists k. cbn in Hd. pose proof (keys_nonempty to code k Hk) as N.
    destruct (SemanticCategoryKeys from !! code); cbn in Hd; naive_solver.
  - intros (k & Hf & Ht). exists k. apply map_lookup_filter_Some. split; [done|]. cbn. by rewrite Hf.
Qed.

(** * Witness *)

(** Files with one category in every decade the table asks for. *)
Definition decade (code : Z) : Area := MkArea code "Area" (Some [MkCategory (code + 1) "Papers" ""]).
Definition load0 (slug : string) : result (list problem) PresetFile :=
  Ok (MkPresetFile Format "" "source" 1 "Source" "global" "en" "" "" false 49 "A story"
    (Some ((if bool_decide (slug = "blank") then [] else decade <$> [10; 20; 30; 50; 60]) ++ [system_area])) None).
Lemma ComposePreset_total_witness :
  exists pf, ComposePreset load0 (fun _ => "0") ["home"; "clients"] = Ok pf /\ ValidateNormalized pf = Ok tt /\
    a_Code <$> areas_of pf = [10; 50; 40] /\
    (exists chosen, acceptable ["home"; "clients"] chosen) /\ forall chosen, ~ acceptable ["clients"; "customers"] chosen.
Proof.
  assert (S : sources_ok load0 (fun _ => "0")).
  { assert (F : Forall (fun s => ValidateNormalized (match load0 (fs_SourcePreset s) with Ok pf => pf | Err _ => decodeRaw raw0 end) = Ok tt
      /\ is_Some (presetArea (match load0 (fs_SourcePreset s) with Ok pf => pf | Err _ => decodeRaw raw0 end) (fs_Lane s))) filingSetSpecs)
      by (repeat (constructor; [split; [vm_compute; reflexivity|vm_compute; eexists; reflexivity]|]); constructor).
    split.
    - intros s Hs. pose proof (proj1 (Forall_forall _ _) F s Hs) as [F1 F2]. eexists. split; [reflexivity|]. by split_and!.
    - eexists. split; [reflexivity|]. split; vm_compute; reflexivity.
    - reflexivity. }
  assert (E : exists pf, ComposePreset load0 (fun _ => "0") ["home"; "clients"] = Ok pf /\ a_Code <$> areas_of pf = [10; 50; 40])
    by (eexists; split; vm_compute; reflexivity).
  destruct E as (pf & E & Ec). exists pf. split; [exact E|].
  pose proof (ComposePreset_total load0 (fun _ => "0") S ["home"; "clients"]) as [_ H]. rewrite E in H.
  destruct H as (chosen & Ha & Hv & _). split; [exact Hv|]. split; [exact Ec|]. split; [by exists chosen|].
  pose proof (ComposePreset_total load0 (fun _ => "0") S ["clients"; "customers"]) as [_ R].
  assert (E' : ComposePreset load0 (fun _ => "0") ["clients"; "customers"] = Err (LaneTaken "clients" "customers")) by (vm_compute; reflexivity).
  rewrite E' in R. exact R.
Defined.
